(* ===== verification/_CoqProject ===== *)
-Q . S2P
Prelude.v
Arrays.v
ListH.v
Interfaces.v
Cbuf.v
Kernel.v
Sched.v
Sync.v
KInv.v
Safety.v
KSafe.v
KTick.v
KMain.v
KProps.v
Blocks.v
Heap.v
HeapInv.v
HeapSafe.v
HeapProps.v
Mem.v
MemSpec.v
CStr.v
CStrSpec.v
Printf.v
LibcProps.v
Format.v
FormatSpec.v
FormatProps.v
Bio.v
BioSpec.v
BioProps.v
Partition.v
PartProps.v
Bcache.v
CacheSpec.v
CacheOps.v
CacheProps.v
FsPath.v
FsPathSpec.v
Fs.v
FsInv.v
FsProps.v
Ext2.v
Ext2Spec.v
Ext2Dir.v
Ext2Props.v
Mmu.v
MmuSpec.v
MmuMap.v
MmuLoop.v
MmuProps.v
Cksum.v
CrcSpec.v
AdlerSpec.v
CksumProps.v
Console.v
ConsoleTok.v
ConsoleProps.v
Gfx.v
GfxSpec.v
GfxConsole.v
GfxText.v
TgaSpec.v
GfxProps.v
Init.v
Evlog.v
Dpc.v
Tegrabl.v
Sc7.v
Ratchet.v
Menu.v
Fastboot.v
MenuSpec.v
FastbootProps.v
