(* ===== verification/Prelude.v ===== *)
(** * LK / cboot: a verification library

    The repository is the LK kernel as NVIDIA's cboot boot loader uses it: a
    small threaded kernel, a first-fit heap, a C library, block devices with a
    cache, partitions and file systems, a command shell, graphics and text on a
    display, the arm64 port with its translation tables, and on top of these the
    boot loader with its menus, its lock and its ratchet fuses.  This library
    models those parts function by function and proves what each promises.  All
    paths below are under src/.

    ** How the code is modelled

    Integers are [Z], wrapped to their width where the code computes with them
    ([u8], [u32], [u64], [s8], [s32], [s64]); the target is little-endian LP64
    (arm64).  A function with effects is a computation of the state-and-panic
    monad [M S A] of this file: [None] stands for a failed [ASSERT] or
    [DEBUG_ASSERT], a [panic], an access outside memory and a loop whose fuel is
    used up, so a theorem that a call returns [Some] excludes all of them at
    once.  Error codes are values (include/err.h).  The configuration is that of
    cboot.mk: one processor, assertions on ([LK_DEBUGLEVEL] 2), a periodic
    timer, 4 KB pages.

    [<list.h>] is not part of the repository.  [ListH] states what the code
    relies on as a class with laws; everything that uses lists is proved against
    the class and evaluated with the reference instance.  Drivers, allocators
    outside the repository and the hardware enter in the same way, each with
    named laws and an instance: [EventIface], [BlockDriver], [ByteDev],
    [TegrablError], [Storage], [Fuses] and [World].

    ** Files

    - [Prelude]: integers, masks, byte arrays, the monad, its weakest
      preconditions and tactics.  [Arrays]: ranges of arrays.  [ListH]:
      [<list.h>].  [Interfaces]: what lib/cbuf and lib/dpc rely on of an event.
    - [Cbuf]: lib/cbuf and include/pow2.h.  [Evlog]: lib/evlog.  [Dpc]: lib/dpc,
      as a system of steps of the worker thread and of those that queue.
    - [Init]: the start-up hooks of top/init.c.
    - [Kernel], [Sched], [Sync], [KMain]: kernel/thread.c, timer.c, mutex.c,
      event.c, semaphore.c, [platform_irq] for the timer interrupt of
      platform/tegra_shared, and [lk_main] of top/main.c.  The state is one
      record [kstate] of the globals and of all objects by address.  A thread
      that has been switched away from keeps the frames of the calls it still
      has to return from.  [KInv], [Safety], [KSafe], [KTick] carry the
      invariant; [KProps] has the theorems.
    - [Heap]: lib/heap/heap.c over word memory, so that chunk headers live in
      the heap's own memory.  [Blocks], [HeapInv], [HeapSafe]: the invariant.
      [HeapProps]: the theorems.
    - [Mem], [CStr], [Printf], [Format]: lib/libc string/*.c, ctype.c, atoi.c
      and printf.c over byte memory, and the console's formatted output of
      lib/debug/debug.c.  [MemSpec], [CStrSpec], [FormatSpec]: what the loops
      compute.  [LibcProps], [FormatProps]: the theorems.
    - [Bio]: lib/bio/bio.c, mem.c and subdev.c.  [BioSpec], [BioProps].
    - [Partition], [PartProps]: lib/partition on top of [Bio].
    - [Bcache]: lib/bcache over the interface [ByteDev], which [CacheProps]
      instantiates with [Bio].  [CacheSpec], [CacheOps], [CacheProps].
    - [FsPath], [Fs]: lib/fs/fs.c, path normalisation and the mount and file
      calls; a file system is the record of its operations.  [FsPathSpec],
      [FsInv], [FsProps].
    - [Ext2]: lib/fs/ext2 over [Bcache], with directories, files, links and
      mounting.  [Ext2Spec], [Ext2Dir], [Ext2Props].
    - [Mmu]: arch/arm64/mmu.c and dmamap.c, the uncached allocation of lib/libc
      and the mappings of platform/t186.  [MmuSpec], [MmuMap], [MmuLoop],
      [MmuProps].
    - [Cksum]: lib/cksum.  [CrcSpec], [AdlerSpec], [CksumProps].
    - [Console]: lib/console, reading and editing lines, history, splitting into
      arguments, and the command loop.  [ConsoleTok], [ConsoleProps].
    - [Gfx]: lib/gfx and lib/font on surfaces of pixels.  [GfxConsole]:
      lib/gfxconsole, lib/text and lib/tga.  [GfxSpec], [GfxText], [TgaSpec],
      [GfxProps].
    - [Tegrabl]: the error codes of the tegrabl headers.  [Sc7], [Ratchet]:
      storage_loader.c and ratchet_update.c of platform/t186.
    - [Menu]: lib/menu over a [World] that answers every call to the outside; the
      state keeps the list of calls and answers.  [Fastboot]: locking and
      unlocking, app/kernel_boot/fastboot.c and fastboot_menu.c.  [MenuSpec],
      [FastbootProps].

    ** What the theorems show

    - Kernel: boot gives a well-formed system, and from there no sequence of
      legal calls and timer interrupts fails an assertion or loops; yields are
      round robin and starve nobody of the same priority; blocking, waking and
      the timer queue have the stated order.  Start-up calls each hook once, by
      level; deferred calls are made once, in order, under any interleaving.
    - Heap: allocations are aligned, inside the arena and disjoint from all
      others; freeing is the reference [insert_block] on the free list; an
      allocation and its release restore the heap.
    - C library: [memmove] for every overlap, the exact effect of [memset],
      tokenising, number round trips, and formatted output against a grammar of
      formats, with the bounds of the buffer.
    - Block layer: access through any chain of subdevices is access to one byte
      range of a medium; writes are read back; partitions are published as the
      stated ranges.  The cache is the device's blocks with reference counts.
    - Boot loader: the lock word changes only with consent and after the user's
      data is erased; menus return the entry chosen; ratchet fuses only go up and
      refuse older firmware.
    - Shell: no input line stores outside of a buffer; lines and arguments are
      those of a reference reading.
    - Graphics: copies, fills and blends change the stated pixels; the text console
      shows what a terminal shows; TGA images decode to their pixels.
    - Ext2: lookup ends and finds the entry a path names, and reading a file gives
      the bytes of its blocks, from the mounted device on.
    - File-system layer: normalisation equals the reading of a path field by
      field; mounts outlive their files; lookup takes the stated mount.
    - MMU: mapping a range changes the hardware's table walk on that range and
      nowhere else; start-up and uncached buffers follow.
    - Checksums: the optimised routines compute their definitions.
    - Where the code does not do what it means to, a theorem states what it does
      instead, or the specification is that of the code: [memset] on words, the
      lost wake-up of mutexes with a time-out, the sign of left-justified
      numbers, the sections split without their execute-never bit, the second
      unmount, the cache after a read error, alignment above 4 GB, copies towards
      the bottom right, SC7 images compared in their first 16 KB only, the copy of
      the MTS version that is not read, and the menu mutex after an error.

    ** Fuel

    Loops that are not structural carry fuel, and every theorem about them
    shows that the fuel given is enough.  Loops over memory get as many turns as
    memory has bytes (a pointer that moves on meets a new byte each turn);
    queue loops as many as there are threads, timers or chunks; chains of
    subdevices as many as there are devices; digit loops the digits of a 64-bit
    number; the levels of the table walk are counted by the tables themselves;
    the deferred-call thread needs four steps a call; menus as many turns as there
    are polls of the keyboard.  [change_device_state_spec] holds for every fuel, as
    it is about all calls made so far; that menus do return is
    [menu_draw_selects].

    ** Not modelled

    - Assembly and what only it does: exception entry, the register part of a
      context switch, cache maintenance loops; the model logs or assumes their
      effect where the C code depends on it.
    - Other architectures, platforms and boards (arch/arm, arch/x86 and the
      platform and target directories but tegra and t186): register tables and
      device set-up that cboot does not compile.
    - Device drivers (dev): sequences of accesses to memory-mapped registers
      whose behaviour is that of devices the repository does not describe.
    - app/aboot and the rest of app/kernel_boot (booting a kernel, the fastboot
      server, A/B slots) and of platform/t186 call the tegrabl libraries, which are
      not in the repository, for nearly every step: a model would only repeat the
      order of opaque calls.
    - Third-party libraries in the tree: lwip, the FAT driver ffs, dlmalloc.
    - lib/console's commands for variables and the values they keep; the release of
      graphics surfaces; the debug commands, dumps and the tests under app/, which
      only print; lib/ptable, used by app/aboot alone.
    - Interrupts other than the timer's, and statistics of the scheduler. *)

From stdpp Require Export base tactics list numbers option strings gmap fin_maps.
From Stdlib Require Export ZArith Lia.

#[global] Set Default Goal Selector "!".
#[global] Open Scope Z_scope.

(** ** Machine integers of the LP64 little-endian target (arm64) *)

(** Unsigned wrap-around of [uint8_t], [uint]/[uint32_t], and
    [size_t]/[unsigned long]/[uint64_t]. *)
Definition u8 (z : Z) : Z := z mod 2 ^ 8.
Definition u32 (z : Z) : Z := z mod 2 ^ 32.
Definition u64 (z : Z) : Z := z mod 2 ^ 64.

(** Conversion to a two's complement type of [w] bits. *)
Definition sgn (w : Z) (z : Z) : Z :=
  if z mod 2 ^ w <? 2 ^ (w - 1) then z mod 2 ^ w else z mod 2 ^ w - 2 ^ w.
Definition s8 (z : Z) : Z := sgn 8 z.
Definition s32 (z : Z) : Z := sgn 32 z.
Definition s64 (z : Z) : Z := sgn 64 z.

Lemma u8_range z : 0 <= u8 z < 2 ^ 8.
Proof. apply Z.mod_pos_bound. lia. Qed.
Lemma u32_range z : 0 <= u32 z < 2 ^ 32.
Proof. apply Z.mod_pos_bound. lia. Qed.
Lemma u64_range z : 0 <= u64 z < 2 ^ 64.
Proof. apply Z.mod_pos_bound. lia. Qed.
Lemma u8_small z : 0 <= z < 2 ^ 8 -> u8 z = z.
Proof. apply Z.mod_small. Qed.
Lemma u32_small z : 0 <= z < 2 ^ 32 -> u32 z = z.
Proof. apply Z.mod_small. Qed.
Lemma u64_small z : 0 <= z < 2 ^ 64 -> u64 z = z.
Proof. apply Z.mod_small. Qed.

Lemma sgn_small w z : 0 < w -> - 2 ^ (w - 1) <= z < 2 ^ (w - 1) -> sgn w z = z.
Proof.
  intros Hw Hz. unfold sgn.
  assert (Hp : 2 ^ w = 2 * 2 ^ (w - 1)).
  { rewrite <- Z.pow_succ_r by lia. f_equal. lia. }
  destruct (Z_lt_dec z 0).
  - assert (E : z mod 2 ^ w = z + 2 ^ w).
    { symmetry. apply Z.mod_unique with (-1); lia. }
    rewrite E. destruct (Z.ltb_spec (z + 2 ^ w) (2 ^ (w - 1))); lia.
  - rewrite Z.mod_small by lia. destruct (Z.ltb_spec z (2 ^ (w - 1))); lia.
Qed.

Lemma s32_small z : - 2 ^ 31 <= z < 2 ^ 31 -> s32 z = z.
Proof. intros. apply sgn_small; lia. Qed.
Lemma s64_small z : - 2 ^ 63 <= z < 2 ^ 63 -> s64 z = z.
Proof. intros. apply sgn_small; lia. Qed.
Lemma s8_small z : - 2 ^ 7 <= z < 2 ^ 7 -> s8 z = z.
Proof. intros. apply sgn_small; lia. Qed.

Lemma sgn_range w z : 0 < w -> - 2 ^ (w - 1) <= sgn w z < 2 ^ (w - 1).
Proof.
  intros Hw. unfold sgn.
  assert (Hp : 2 ^ w = 2 * 2 ^ (w - 1)).
  { rewrite <- Z.pow_succ_r by lia. f_equal. lia. }
  pose proof (Z.mod_pos_bound z (2 ^ w) ltac:(lia)).
  destruct (Z.ltb_spec (z mod 2 ^ w) (2 ^ (w - 1))); lia.
Qed.

(** ** Bits *)

(** [z & (2^n - 1)] is reduction modulo [2^n]. *)
Lemma land_mask z n : 0 <= n -> Z.land z (2 ^ n - 1) = z mod 2 ^ n.
Proof. intros. rewrite <- Z.land_ones by lia. f_equal. rewrite Z.ones_equiv. lia. Qed.

Lemma testbit_bound z n i :
  0 <= z < 2 ^ n -> n <= i -> Z.testbit z i = false.
Proof.
  intros [Hz Hlt] Hi. destruct (Z.eq_dec z 0) as [->|Hne]; [apply Z.bits_0|].
  apply Z.bits_above_log2; [lia|].
  apply Z.lt_le_trans with n; [|lia]. apply Z.log2_lt_pow2; lia.
Qed.

(** ** Error codes: include/err.h *)

Definition NO_ERROR : Z := 0.
Definition ERR_GENERIC : Z := -1.
Definition ERR_NOT_FOUND : Z := -2.
Definition ERR_NOT_READY : Z := -3.
Definition ERR_NO_MEMORY : Z := -5.
Definition ERR_NOT_VALID : Z := -7.
Definition ERR_INVALID_ARGS : Z := -8.
Definition ERR_NOT_SUSPENDED : Z := -10.
Definition ERR_OBJECT_DESTROYED : Z := -11.
Definition ERR_NOT_BLOCKED : Z := -12.
Definition ERR_TIMED_OUT : Z := -13.
Definition ERR_BAD_PATH : Z := -18.
Definition ERR_ALREADY_MOUNTED : Z := -19.
Definition ERR_NOT_DIR : Z := -21.
Definition ERR_RECURSE_TOO_DEEP : Z := -23.
Definition ERR_NOT_SUPPORTED : Z := -24.
Definition ERR_THREAD_DETACHED : Z := -26.

(** ** Masks *)

Lemma land_mod_pow2 w x y : 0 <= w -> 0 <= x < 2 ^ w -> Z.land x (y mod 2 ^ w) = Z.land x y.
Proof.
  intros Hw Hx. rewrite <- Z.land_ones, (Z.land_comm y), Z.land_assoc, Z.land_ones by done.
  by rewrite Z.mod_small.
Qed.

(** Clearing the low [k] bits with a [w]-bit mask. *)
Lemma land_high_mask w k x :
  0 <= k -> 0 <= w -> 0 <= x < 2 ^ w -> Z.land x (Z.lnot (2 ^ k - 1) mod 2 ^ w) = x - x mod 2 ^ k.
Proof.
  intros Hk Hw Hx. rewrite land_mod_pow2 by done.
  replace (2 ^ k - 1) with (Z.ones k) by (rewrite Z.ones_equiv; lia).
  rewrite <- Z.ldiff_land, Z.ldiff_ones_r, Z.shiftl_mul_pow2, Z.shiftr_div_pow2 by done.
  pose proof (Z_div_mod_eq_full x (2 ^ k)). lia.
Qed.

Lemma sub_mod_mod x m : m <> 0 -> (x - x mod m) mod m = 0.
Proof. intros Hm. rewrite Zminus_mod_idemp_r, Z.sub_diag. by apply Z.mod_0_l. Qed.

(** ** Byte arrays *)

(** [slice l o n]: the [n] elements of [l] from offset [o]. *)
Definition slice {A} (l : list A) (o n : nat) : list A := take n (drop o l).

(** The little-endian number stored in some bytes. *)
Fixpoint le_value (l : list Z) : Z :=
  match l with [] => 0 | b :: l' => b + 2 ^ 8 * le_value l' end.

Lemma le_value_range l :
  Forall (fun b => 0 <= b < 2 ^ 8) l -> 0 <= le_value l < 2 ^ (8 * Z.of_nat (length l)).
Proof.
  induction 1 as [|b l Hb _ IH]; [done|]. cbn [le_value length].
  replace (8 * Z.of_nat (S (length l))) with (8 + 8 * Z.of_nat (length l)) by lia.
  rewrite Z.pow_add_r by lia. nia.
Qed.

(** [blit l o d]: [memcpy(l + o, d, length d)] on an array [l]; [None] when the
    write leaves the array. *)
Definition blit {A} (l : list A) (o : nat) (d : list A) : option (list A) :=
  if decide (o + length d <= length l)%nat
  then Some (take o l ++ d ++ drop (o + length d) l)
  else None.

Lemma length_slice {A} (l : list A) o n :
  (o + n <= length l)%nat -> length (slice l o n) = n.
Proof. intros. unfold slice. rewrite length_take, length_drop. lia. Qed.

Lemma lookup_slice {A} (l : list A) o n i :
  (i < n)%nat -> slice l o n !! i = l !! (o + i)%nat.
Proof. intros. unfold slice. rewrite lookup_take_lt by done. by rewrite lookup_drop. Qed.

Lemma blit_Some {A} (l : list A) o d :
  (o + length d <= length l)%nat ->
  blit l o d = Some (take o l ++ d ++ drop (o + length d) l).
Proof. intros. unfold blit. by rewrite decide_True by done. Qed.

Lemma blit_length {A} (l l' : list A) o d :
  blit l o d = Some l' -> length l' = length l.
Proof.
  unfold blit. case_decide; [|done]. intros [= <-].
  rewrite !length_app, length_take, length_drop. lia.
Qed.

Lemma blit_bound {A} (l l' : list A) o d :
  blit l o d = Some l' -> (o + length d <= length l)%nat.
Proof. unfold blit. by case_decide. Qed.

Lemma blit_lookup {A} (l l' : list A) o d i :
  blit l o d = Some l' ->
  l' !! i = if decide (o <= i < o + length d)%nat then d !! (i - o)%nat else l !! i.
Proof.
  intros Hb. pose proof (blit_bound _ _ _ _ Hb) as Hbd.
  rewrite blit_Some in Hb by done. injection Hb as <-.
  destruct (decide (i < o)%nat) as [Hi|Hi].
  { rewrite lookup_app_l by (rewrite length_take; lia).
    rewrite lookup_take_lt by lia. rewrite decide_False by lia. done. }
  rewrite lookup_app_r by (rewrite length_take; lia).
  rewrite length_take, (Nat.min_l o) by lia.
  case_decide.
  - rewrite lookup_app_l by lia. done.
  - rewrite lookup_app_r by lia. rewrite lookup_drop. f_equal. lia.
Qed.

Lemma filter_ext_in {A} (P Q : A -> Prop) `{!forall x, Decision (P x), !forall x, Decision (Q x)} (l : list A) :
  (forall x, x ∈ l -> P x <-> Q x) -> filter P l = filter Q l.
Proof.
  induction l as [|x l IH]; intros Hl; [done|]. rewrite !filter_cons, IH by set_solver.
  pose proof (Hl x (list_elem_of_here _ _)). by do 2 case_decide; naive_solver.
Qed.

Lemma filter_ext_in_bool {A} (f g : A -> bool) (l : list A) :
  (forall x, x ∈ l -> f x = g x) -> List.filter f l = List.filter g l.
Proof. intros H. apply List.filter_ext_in. intros x Hx. apply H. by apply list_elem_of_In. Qed.

(** ** A state-and-panic monad

    [S] is the state of the component; [None] is a [panic()] or an undefined
    access, so a theorem that an operation returns [Some] is also a statement
    that no assertion of the code fires. *)
Definition M (S A : Type) : Type := S -> option (A * S).

Declare Scope lk_scope.
Delimit Scope lk_scope with lk.

Definition ret {S A} (a : A) : M S A := fun s => Some (a, s).
Definition bind {S A B} (m : M S A) (f : A -> M S B) : M S B :=
  fun s => match m s with Some (a, s') => f a s' | None => None end.
Definition panic {S A} : M S A := fun _ => None.
Definition assert_ {S} (b : bool) : M S unit := if b then ret tt else panic.
Definition gets {S A} (f : S -> A) : M S A := fun s => Some (f s, s).
Definition modify {S} (f : S -> S) : M S unit := fun s => Some (tt, f s).
Definition getopt {S A} (f : S -> option A) : M S A :=
  fun s => match f s with Some a => Some (a, s) | None => None end.

Notation "'let*' x ':=' c1 'in' c2" := (bind c1 (fun x => c2))
  (at level 10, x pattern, c1 at level 100, c2 at level 200) : lk_scope.
Notation "c1 ';;;' c2" := (bind c1 (fun _ => c2))
  (at level 100, c2 at level 200, right associativity) : lk_scope.
Notation "'when' b 'do' c" := (if b then c else ret tt)
  (at level 90, b at level 85, c at level 85) : lk_scope.

(** Running the first step of a sequence. *)
Lemma bind_some {S A B} (c : M S A) (f : A -> M S B) s a s' :
  c s = Some (a, s') -> bind c f s = f a s'.
Proof. unfold bind. by intros ->. Qed.

(** One step of a deterministic program, for the step [c] whose result is known. *)
Ltac run H := rewrite (bind_some _ _ _ _ _ H).

(** Total correctness: [m] runs from [s] without a panic and ends in [Q]. *)
Definition wp {S A} (m : M S A) (Q : A -> S -> Prop) (s : S) : Prop :=
  match m s with Some (a, s') => Q a s' | None => False end.

Section wp.
Context {S A B : Type}.
Implicit Types (s : S) (m : M S A).

Lemma wp_exists m Q s : wp m Q s <-> exists a s', m s = Some (a, s') /\ Q a s'.
Proof.
  unfold wp. destruct (m s) as [[a s']|]; split; try done; [eauto|..].
  - intros (? & ? & [= <- <-] & ?). done.
  - intros (? & ? & ? & ?). done.
Qed.

Lemma wp_bind m (f : A -> M S B) Q s : wp m (fun a => wp (f a) Q) s -> wp (bind m f) Q s.
Proof. unfold wp, bind. by destruct (m s) as [[a s']|]. Qed.

(** Grouping the first two steps of a sequence. *)
Lemma wp_assoc {C} m (f : A -> M S B) (g : B -> M S C) Q s :
  wp (bind m f) (fun b => wp (g b) Q) s -> wp m (fun a => wp (bind (f a) g) Q) s.
Proof. unfold wp, bind. by destruct (m s) as [[a s']|]; [destruct (f a s') as [[b s'']|]|]. Qed.

Lemma wp_mono m (P Q : A -> S -> Prop) s : wp m P s -> (forall a s', P a s' -> Q a s') -> wp m Q s.
Proof. unfold wp. destruct (m s) as [[a s']|]; auto. Qed.

Lemma wp_some m Q s a s' : m s = Some (a, s') -> Q a s' -> wp m Q s.
Proof. unfold wp. by intros ->. Qed.

Lemma wp_ret a (Q : A -> S -> Prop) s : Q a s -> wp (ret a) Q s.
Proof. done. Qed.
Lemma wp_gets (f : S -> A) (Q : A -> S -> Prop) s : Q (f s) s -> wp (gets f) Q s.
Proof. done. Qed.
Lemma wp_modify (f : S -> S) Q s : Q tt (f s) -> wp (modify f) Q s.
Proof. done. Qed.
Lemma wp_getopt (f : S -> option A) (Q : A -> S -> Prop) s a :
  f s = Some a -> Q a s -> wp (getopt f) Q s.
Proof. unfold wp, getopt. by intros ->. Qed.
Lemma wp_assert (b : bool) (Q : unit -> S -> Prop) s : b = true -> Q tt s -> wp (assert_ b) Q s.
Proof. by intros ->. Qed.
End wp.

(** One step of a monadic program in the goal. *)
Ltac wp_step :=
  lazymatch goal with
  | |- wp (bind _ _) _ _ => apply wp_bind
  | |- wp (ret _) _ _ => apply wp_ret
  | |- wp (gets _) _ _ => apply wp_gets
  | |- wp (modify _) _ _ => apply wp_modify
  | |- wp (assert_ _) _ _ => apply wp_assert
  end.
Ltac wp_steps := repeat (wp_step; try (by assumption || reflexivity)).

(** Symbolic execution of one monadic step in a hypothesis or in the goal. *)
Ltac mstep :=
  cbn [bind ret gets modify getopt assert_ panic] in *.
Ltac munfold :=
  unfold bind, ret, gets, modify, getopt, assert_, panic in *.

(** ** Automation *)

Create HintDb lk.
Create Rewrite HintDb lk_len.
#[export] Hint Resolve u8_range u32_range u64_range : lk.
#[export] Hint Rewrite @length_app @length_take @length_drop @length_insert
  @length_replicate @length_slice using lia : lk_len.

(** Case analysis on the innermost test of the goal or of a hypothesis. *)
Ltac case_if :=
  match goal with
  | |- context [if ?b then _ else _] => destruct b eqn:?
  | H : context [if ?b then _ else _] |- _ => destruct b eqn:?
  end.

(** Boolean tests of the code as propositions. *)
Ltac bools :=
  repeat match goal with
  | H : (_ && _) = true |- _ => apply andb_true_iff in H as [? ?]
  | H : (_ && _) = false |- _ => apply andb_false_iff in H
  | H : (_ || _) = true |- _ => apply orb_true_iff in H
  | H : (_ || _) = false |- _ => apply orb_false_iff in H as [? ?]
  | H : negb _ = true |- _ => apply negb_true_iff in H
  | H : negb _ = false |- _ => apply negb_false_iff in H
  | H : (_ =? _) = true |- _ => apply Z.eqb_eq in H
  | H : (_ =? _) = false |- _ => apply Z.eqb_neq in H
  | H : (_ <? _) = true |- _ => apply Z.ltb_lt in H
  | H : (_ <? _) = false |- _ => apply Z.ltb_ge in H
  | H : (_ <=? _) = true |- _ => apply Z.leb_le in H
  | H : (_ <=? _) = false |- _ => apply Z.leb_gt in H
  | H : bool_decide _ = true |- _ => apply bool_decide_eq_true in H
  | H : bool_decide _ = false |- _ => apply bool_decide_eq_false in H
  end.

(** Case analysis on every integer comparison in sight. *)
Ltac zcases :=
  repeat match goal with
  | |- context [?a <=? ?b] => destruct (Z.leb_spec a b)
  | |- context [?a <? ?b] => destruct (Z.ltb_spec a b)
  | |- context [?a =? ?b] => destruct (Z.eqb_spec a b)
  | H : context [?a <=? ?b] |- _ => destruct (Z.leb_spec a b)
  | H : context [?a <? ?b] |- _ => destruct (Z.ltb_spec a b)
  | H : context [?a =? ?b] |- _ => destruct (Z.eqb_spec a b)
  end.
