(* ===== verification/Arrays.v ===== *)
(** * Arrays

    C arrays as lists with accesses that are checked against their bounds, and
    the text a NUL-terminated array holds. *)

From S2P Require Import Prelude.

(** An array access [p[off .. off + n)]; [None] outside the array. *)
Definition range {A} (l : list A) (off n : Z) : option (list A) :=
  if bool_decide (0 <= off /\ 0 <= n /\ off + n <= Z.of_nat (length l))
  then Some (slice l (Z.to_nat off) (Z.to_nat n)) else None.
Definition blit_at {A} (l : list A) (off : Z) (d : list A) : option (list A) :=
  if 0 <=? off then blit l (Z.to_nat off) d else None.

(** The text in front of the first NUL. *)
Fixpoint until_nul (l : list Z) : option (list Z) :=
  match l with
  | [] => None
  | c :: l' => if c =? 0 then Some [] else cons c <$> until_nul l'
  end.

Section arrays.
Context {A : Type}.
Implicit Types (l d : list A).

Lemma range_Some l off n :
  0 <= off -> 0 <= n -> off + n <= Z.of_nat (length l) ->
  range l off n = Some (slice l (Z.to_nat off) (Z.to_nat n)).
Proof. intros. unfold range. by rewrite bool_decide_true. Qed.

Lemma range_length l off n d : range l off n = Some d -> Z.of_nat (length d) = n.
Proof.
  unfold range. case_bool_decide; [|done]. intros [= <-]. rewrite length_slice by lia. lia.
Qed.

Lemma blit_at_Some l off d :
  0 <= off -> off + Z.of_nat (length d) <= Z.of_nat (length l) ->
  exists l', blit_at l off d = Some l' /\ length l' = length l.
Proof.
  intros. unfold blit_at. destruct (Z.leb_spec 0 off); [|lia].
  rewrite blit_Some by lia. eexists. split; [done|].
  rewrite !length_app, length_take, length_drop. lia.
Qed.

Lemma blit_at_length l off d l' : blit_at l off d = Some l' -> length l' = length l.
Proof. unfold blit_at. destruct (0 <=? off); [|done]. apply blit_length. Qed.

Lemma blit_at_bound l off d l' :
  blit_at l off d = Some l' -> 0 <= off /\ off + Z.of_nat (length d) <= Z.of_nat (length l).
Proof.
  unfold blit_at. destruct (Z.leb_spec 0 off); [|done]. intros Hb%blit_bound. lia.
Qed.

Lemma blit_at_lookup l off d l' i :
  blit_at l off d = Some l' ->
  l' !! i = if decide (off <= Z.of_nat i < off + Z.of_nat (length d))
            then d !! Z.to_nat (Z.of_nat i - off) else l !! i.
Proof.
  unfold blit_at. destruct (Z.leb_spec 0 off); [|done]. intros Hb.
  rewrite (blit_lookup _ _ _ _ i Hb). repeat case_decide; try lia; [|done]. f_equal. lia.
Qed.

Lemma lookup_range l off n d i :
  range l off n = Some d -> (i < length d)%nat -> d !! i = l !! (Z.to_nat off + i)%nat.
Proof.
  intros Hr Hi. pose proof (range_length _ _ _ _ Hr). unfold range in Hr.
  case_bool_decide; [|done]. injection Hr as <-. apply lookup_slice. lia.
Qed.

(** Pointwise characterisations. *)
Lemma range_ext l l' off n :
  length l = length l' ->
  (forall i, off <= Z.of_nat i < off + n -> l !! i = l' !! i) -> range l off n = range l' off n.
Proof.
  intros Hl Hi. unfold range. rewrite Hl. case_bool_decide; [|done]. f_equal.
  apply list_eq_same_length with (Z.to_nat n); [by rewrite length_slice by lia..|].
  intros i x y Hlt. rewrite !lookup_slice, Hi by lia. congruence.
Qed.

(** Ranges next to each other. *)
Lemma range_app l off n k d1 d2 :
  range l off n = Some d1 -> range l (off + n) k = Some d2 -> range l off (n + k) = Some (d1 ++ d2).
Proof.
  unfold range. do 2 (case_bool_decide; [|done]). intros [= <-] [= <-].
  rewrite bool_decide_true by lia. f_equal. unfold slice.
  rewrite Z2Nat.inj_add by lia. rewrite Z2Nat.inj_add by lia.
  rewrite <- (take_drop (Z.to_nat n) (take (Z.to_nat n + Z.to_nat k) (drop (Z.to_nat off) l))).
  rewrite take_take, Nat.min_l by lia. f_equal.
  rewrite skipn_firstn_comm, drop_drop. f_equal. lia.
Qed.

Lemma range_range l off n off' n' d :
  range l off n = Some d -> 0 <= off' -> 0 <= n' -> off' + n' <= n ->
  range d off' n' = range l (off + off') n'.
Proof.
  intros Hr ???. pose proof (range_length _ _ _ _ Hr) as Hlen. unfold range in *.
  case_bool_decide; [|done]. injection Hr as <-.
  rewrite !bool_decide_true by lia. f_equal. unfold slice.
  rewrite skipn_firstn_comm, drop_drop, take_take. f_equal; [lia|]. f_equal. lia.
Qed.

Lemma blit_at_nil l off : 0 <= off <= Z.of_nat (length l) -> blit_at l off [] = Some l.
Proof.
  intros. unfold blit_at. destruct (Z.leb_spec 0 off); [|lia]. rewrite blit_Some by (cbn; lia).
  cbn [length app]. by rewrite Nat.add_0_r, take_drop.
Qed.

(** Two writes next to each other are one. *)
Lemma blit_at_app l off d1 d2 l1 l2 :
  blit_at l off d1 = Some l1 -> blit_at l1 (off + Z.of_nat (length d1)) d2 = Some l2 ->
  blit_at l off (d1 ++ d2) = Some l2.
Proof.
  intros H1 H2. pose proof (blit_at_bound _ _ _ _ H1). pose proof (blit_at_bound _ _ _ _ H2).
  pose proof (blit_at_length _ _ _ _ H1). pose proof (blit_at_length _ _ _ _ H2).
  destruct (blit_at_Some l off (d1 ++ d2)) as (l' & E & Hl'); [lia|rewrite length_app; lia|].
  rewrite E. f_equal. apply list_eq. intros i.
  rewrite (blit_at_lookup _ _ _ _ _ E), (blit_at_lookup _ _ _ _ _ H2), (blit_at_lookup _ _ _ _ _ H1).
  rewrite length_app. repeat case_decide; try lia; [| |done].
  - rewrite lookup_app_r by lia. f_equal. lia.
  - rewrite lookup_app_l by lia. done.
Qed.

(** Read, modify, write back: the bytes around the change stay. *)
Lemma blit_at_rmw l o n t p d t' l' :
  range l o n = Some t -> blit_at t p d = Some t' -> blit_at l o t' = Some l' ->
  blit_at l (o + p) d = Some l'.
Proof.
  intros Hr Ht Hl. pose proof (range_length _ _ _ _ Hr). pose proof (blit_at_bound _ _ _ _ Ht).
  pose proof (blit_at_length _ _ _ _ Ht). pose proof (blit_at_bound _ _ _ _ Hl).
  destruct (blit_at_Some l (o + p) d) as (l2 & E & Hl2); [lia..|].
  rewrite E. f_equal. apply list_eq. intros i.
  rewrite (blit_at_lookup _ _ _ _ _ E), (blit_at_lookup _ _ _ _ _ Hl).
  destruct (decide (o <= Z.of_nat i < o + Z.of_nat (length t'))) as [Hin|Hout].
  - rewrite (blit_at_lookup _ _ _ _ _ Ht). repeat case_decide; try lia; [f_equal; lia|].
    rewrite (lookup_range _ _ _ _ _ Hr) by lia. f_equal. lia.
  - rewrite decide_False by lia. done.
Qed.

Lemma take_range l n : 0 <= n -> n <= Z.of_nat (length l) -> range l 0 n = Some (take (Z.to_nat n) l).
Proof. intros. by rewrite range_Some by lia. Qed.

(** A longer prefix. *)
Lemma take_more l p n d :
  0 <= p -> 0 <= n -> range l p n = Some d ->
  take (Z.to_nat (p + n)) l = take (Z.to_nat p) l ++ d.
Proof.
  intros Hp Hn Hr. unfold range in Hr. case_bool_decide; [|done].
  assert (E : range l 0 (p + n) = Some (take (Z.to_nat p) l ++ d)).
  { apply range_app; [by rewrite take_range by lia|]. unfold range. by rewrite bool_decide_true. }
  rewrite take_range in E by lia. by injection E.
Qed.

Lemma range_rest_prefix l p m n d :
  range l p m = Some d -> 0 <= n <= m -> range l p n = Some (take (Z.to_nat n) d).
Proof.
  intros Hr Hn. rewrite <- (Z.add_0_r p), <- (range_range _ _ _ _ _ _ Hr) by lia.
  apply take_range; [lia|]. rewrite (range_length _ _ _ _ Hr). lia.
Qed.

Lemma blit_front l d l' : blit_at l 0 d = Some l' -> l' = d ++ drop (length d) l.
Proof. unfold blit_at, blit. cbn. case_decide; [|done]. by intros [= <-]. Qed.

(** Reading a range after a write: the same range, or one beside it. *)
Lemma range_blit_same l l' d off n :
  blit_at l off d = Some l' -> Z.of_nat (length d) = n -> range l' off n = Some d.
Proof.
  intros Hb Hn. pose proof (blit_at_bound _ _ _ _ Hb) as [? ?]. pose proof (blit_at_length _ _ _ _ Hb).
  rewrite range_Some by lia. f_equal. apply list_eq. intros i.
  destruct (decide (i < length d)%nat).
  - rewrite lookup_slice, (blit_at_lookup _ _ _ _ _ Hb), decide_True by lia. f_equal. lia.
  - rewrite !lookup_ge_None_2; [done|lia|]. rewrite length_slice; lia.
Qed.

Lemma range_blit_other l l' d off off' n :
  blit_at l off d = Some l' -> off' + n <= off \/ off + Z.of_nat (length d) <= off' ->
  range l' off' n = range l off' n.
Proof.
  intros Hb Hn. apply range_ext; [by eapply blit_at_length|]. intros i Hi.
  rewrite (blit_at_lookup _ _ _ _ _ Hb), decide_False by lia. done.
Qed.

Lemma range_Forall (P : A -> Prop) l off n d : Forall P l -> range l off n = Some d -> Forall P d.
Proof.
  intros Hl. unfold range. case_bool_decide; [|done]. intros [= <-]. unfold slice. by apply Forall_take, Forall_drop.
Qed.

End arrays.

Lemma until_nul_app raw rest : until_nul (raw ++ 0 :: rest) = until_nul (raw ++ [0]).
Proof. induction raw as [|c raw IH]; [done|]. cbn. destruct (c =? 0); [done|]. by rewrite IH. Qed.

Lemma until_nul_some raw : exists t, until_nul (raw ++ [0]) = Some t.
Proof.
  induction raw as [|c raw [t IH]]; [by exists []|]. cbn. destruct (c =? 0); [by eexists|]. rewrite IH. by eexists.
Qed.

