(* ===== verification/ListH.v ===== *)
(** * The intrusive list interface [<list.h>]

    The kernel, the heap, the block layer and the file-system layer keep their
    queues in the intrusive doubly-linked lists of [<list.h>].  That header is
    not part of this repository, so it enters the development as an interface:
    [ListOps] names the operations the sources call, on an abstract type [links]
    that holds the link fields of every node, and [ListLaws] states the
    behaviour the sources rely on.  A node is in at most one list; each
    operation is specified by the sequence [contents l h] of nodes that
    [list_for_every_entry] visits from head [h].

    [ref_ops]/[ref_laws] instantiate the interface with a reference
    implementation, so every theorem proved against it can be evaluated. *)

From S2P Require Import Prelude.

Class ListOps (node head : Type) : Type := {
  links : Type;
  contents : links -> head -> list node;
  list_in_list : links -> node -> bool;
  list_add_head : head -> node -> links -> links;
  list_add_tail : head -> node -> links -> links;
  list_add_before : node -> node -> links -> links;
  list_delete : node -> links -> links;
}.

(** The neighbours of [n] in a sequence. *)
Fixpoint next_in {A} `{!EqDecision A} (n : A) (c : list A) : option A :=
  match c with
  | [] => None
  | x :: c' => if decide (x = n) then head c' else next_in n c'
  end.

Fixpoint prev_in {A} `{!EqDecision A} (n : A) (c : list A) : option A :=
  match c with
  | [] => None
  | x :: c' => match c' with
               | [] => None
               | y :: _ => if decide (y = n) then Some x else prev_in n c'
               end
  end.

Section derived.
Context {node head : Type} `{!ListOps node head}.

(** [list_is_empty], [list_peek_head_type] and [list_remove_head_type]. *)
Definition list_is_empty (l : links) (h : head) : bool :=
  match contents l h with [] => true | _ => false end.
Definition list_peek_head (l : links) (h : head) : option node :=
  match contents l h with [] => None | n :: _ => Some n end.
Definition list_remove_head (h : head) (l : links) : option node * links :=
  match contents l h with [] => (None, l) | n :: _ => (Some n, list_delete n l) end.

(** [list_next] and [list_prev_type]. *)
Definition list_next `{!EqDecision node} (l : links) (h : head) (n : node) : option node :=
  next_in n (contents l h).
Definition list_prev `{!EqDecision node} (l : links) (h : head) (n : node) : option node :=
  prev_in n (contents l h).
End derived.

(** Insertion of [n] in front of the first occurrence of [pos]. *)
Fixpoint insert_before {A} `{!EqDecision A} (pos n : A) (c : list A) : list A :=
  match c with
  | [] => []
  | x :: c' => if decide (x = pos) then n :: c else x :: insert_before pos n c'
  end.

(** Removal of every occurrence of [n]. *)
Fixpoint list_remove_all {A} `{!EqDecision A} (n : A) (c : list A) : list A :=
  match c with
  | [] => []
  | x :: c' => if decide (x = n) then list_remove_all n c' else x :: list_remove_all n c'
  end.

Class ListLaws (node head : Type) `{!EqDecision node} `{!EqDecision head}
    {LO : ListOps node head} : Type := {
  links_ok : links -> Prop;
  ok_nodup : forall l h, links_ok l -> NoDup (contents l h);
  ok_disjoint : forall l h1 h2 n,
    links_ok l -> n ∈ contents l h1 -> n ∈ contents l h2 -> h1 = h2;
  in_list_spec : forall l n,
    links_ok l -> list_in_list l n = true <-> exists h, n ∈ contents l h;
  add_head_ok : forall l h n,
    links_ok l -> list_in_list l n = false -> links_ok (list_add_head h n l);
  add_head_contents : forall l h n h',
    links_ok l -> list_in_list l n = false ->
    contents (list_add_head h n l) h' =
      if decide (h' = h) then n :: contents l h else contents l h';
  add_tail_ok : forall l h n,
    links_ok l -> list_in_list l n = false -> links_ok (list_add_tail h n l);
  add_tail_contents : forall l h n h',
    links_ok l -> list_in_list l n = false ->
    contents (list_add_tail h n l) h' =
      if decide (h' = h) then contents l h ++ [n] else contents l h';
  add_before_ok : forall l pos n,
    links_ok l -> list_in_list l pos = true -> list_in_list l n = false ->
    links_ok (list_add_before pos n l);
  add_before_contents : forall l pos n h',
    links_ok l -> list_in_list l pos = true -> list_in_list l n = false ->
    contents (list_add_before pos n l) h' = insert_before pos n (contents l h');
  delete_ok : forall l n,
    links_ok l -> list_in_list l n = true -> links_ok (list_delete n l);
  delete_contents : forall l n h',
    links_ok l -> list_in_list l n = true ->
    contents (list_delete n l) h' = list_remove_all n (contents l h');
}.

(** ** Facts about the two list functions of the specification *)

Section lists.
Context {A : Type} `{!EqDecision A}.
Implicit Types (c : list A) (n pos x : A).

Lemma elem_of_remove_all n c x : x ∈ list_remove_all n c <-> x ∈ c /\ x <> n.
Proof.
  induction c as [|y c IH]; simpl; [set_solver|].
  case_decide; [set_solver|]. rewrite !elem_of_cons, IH. naive_solver.
Qed.

Lemma remove_all_not_in n c : n ∉ c -> list_remove_all n c = c.
Proof.
  induction c as [|y c IH]; simpl; [done|]. intros H. apply not_elem_of_cons in H as [? ?].
  rewrite decide_False by done. f_equal. auto.
Qed.

Lemma remove_all_nodup n c : NoDup c -> NoDup (list_remove_all n c).
Proof.
  induction 1 as [|y c Hy Hc IH]; simpl; [constructor|].
  case_decide; [done|]. constructor; [|done]. rewrite elem_of_remove_all. naive_solver.
Qed.

Lemma remove_all_head n c : NoDup (n :: c) -> list_remove_all n (n :: c) = c.
Proof.
  intros H. apply NoDup_cons in H as [? ?]. simpl. rewrite decide_True by done.
  by apply remove_all_not_in.
Qed.

Lemma remove_all_app n c1 c2 :
  list_remove_all n (c1 ++ c2) = list_remove_all n c1 ++ list_remove_all n c2.
Proof.
  induction c1 as [|y c1 IH]; simpl; [done|]. case_decide; simpl; by rewrite IH.
Qed.

Lemma remove_all_length n c :
  NoDup c -> n ∈ c -> S (length (list_remove_all n c)) = length c.
Proof.
  induction 1 as [|y c Hy Hc IH]; simpl; [set_solver|]. intros Hin.
  case_decide as Hd.
  - subst. rewrite remove_all_not_in by done. done.
  - simpl. rewrite IH; set_solver.
Qed.

Lemma insert_before_not_in pos n c : pos ∉ c -> insert_before pos n c = c.
Proof.
  induction c as [|y c IH]; simpl; [done|]. intros H. apply not_elem_of_cons in H as [? ?].
  rewrite decide_False by done. f_equal. auto.
Qed.

Lemma elem_of_insert_before pos n c x :
  x ∈ insert_before pos n c <-> x ∈ c \/ (x = n /\ pos ∈ c).
Proof.
  induction c as [|y c IH]; simpl; [set_solver|].
  case_decide as Hd; [subst; set_solver|]. rewrite !elem_of_cons, IH. naive_solver.
Qed.

Lemma insert_before_nodup pos n c :
  NoDup c -> n ∉ c -> NoDup (insert_before pos n c).
Proof.
  induction 1 as [|y c Hy Hc IH]; simpl; intros Hn; [constructor|].
  apply not_elem_of_cons in Hn as [? ?].
  case_decide.
  - repeat constructor; set_solver.
  - constructor; [rewrite elem_of_insert_before; naive_solver | auto].
Qed.

Lemma insert_before_app pos n c1 c2 :
  pos ∉ c1 -> insert_before pos n (c1 ++ pos :: c2) = c1 ++ n :: pos :: c2.
Proof.
  induction c1 as [|y c1 IH]; simpl; intros H.
  - by rewrite decide_True.
  - apply not_elem_of_cons in H as [? ?]. rewrite decide_False by done. f_equal. auto.
Qed.
End lists.

Section neighbours.
Context {A : Type} `{!EqDecision A}.
Implicit Types (c : list A) (n : A).

Lemma next_in_app n c1 c2 : n ∉ c1 -> next_in n (c1 ++ n :: c2) = head c2.
Proof.
  induction c1 as [|x c1 IH]; simpl; intros H; [by rewrite decide_True|].
  apply not_elem_of_cons in H as [? ?]. rewrite decide_False by done. auto.
Qed.

Lemma prev_in_none n x c : n ∉ c -> prev_in n (x :: c) = None.
Proof.
  revert x. induction c as [|y c IH]; intros x H; [done|].
  apply not_elem_of_cons in H as [? ?]. simpl. rewrite decide_False by done. by apply IH.
Qed.

Lemma prev_in_app n c1 c2 : n ∉ c1 -> n ∉ c2 -> prev_in n (c1 ++ n :: c2) = last c1.
Proof.
  intros H1 H2. induction c1 as [|x c1 IH]; [by apply prev_in_none|].
  apply not_elem_of_cons in H1 as [? H1]. specialize (IH H1).
  destruct c1 as [|y c1]; simpl in *; [by rewrite decide_True|].
  apply not_elem_of_cons in H1 as [? _]. rewrite decide_False by done. done.
Qed.

End neighbours.

(** ** Derived laws *)

Section laws.
Context {node head : Type} `{!EqDecision node, !EqDecision head}.
Context {LO : ListOps node head} {LL : ListLaws node head}.
Implicit Types (l : links).

Lemma not_in_list l n : links_ok l ->
  list_in_list l n = false <-> forall h, n ∉ contents l h.
Proof.
  intros Hok. split.
  - intros Hf h Hin.
    assert (list_in_list l n = true) by (apply in_list_spec; eauto). congruence.
  - intros Hn. destruct (list_in_list l n) eqn:E; [|done].
    apply in_list_spec in E as [h Hh]; [|done]. by destruct (Hn h).
Qed.

Lemma in_contents l h n : links_ok l -> n ∈ contents l h -> list_in_list l n = true.
Proof. intros. apply in_list_spec; eauto. Qed.

Lemma remove_head_spec l h :
  links_ok l ->
  list_remove_head h l =
    match contents l h with
    | [] => (None, l)
    | n :: _ => (Some n, list_delete n l)
    end.
Proof. done. Qed.

(** Deleting the first node of [h] leaves the tail of [h] and every other list. *)
Lemma delete_head_contents l h n c h' :
  links_ok l -> contents l h = n :: c ->
  contents (list_delete n l) h' = if decide (h' = h) then c else contents l h'.
Proof.
  intros Hok Hc.
  assert (Hin : list_in_list l n = true).
  { apply (in_contents _ h); [done|]. rewrite Hc. left. }
  rewrite delete_contents by done. case_decide as Hd.
  - subst h'. rewrite Hc. apply remove_all_head. rewrite <- Hc. by apply ok_nodup.
  - apply remove_all_not_in. intros Hn. apply Hd.
    apply (ok_disjoint l _ _ n); [done|done|]. rewrite Hc. left.
Qed.

(** Deleting a node of [h] leaves every other list as it was. *)
Lemma delete_other_contents l h n h' :
  links_ok l -> n ∈ contents l h -> h' <> h ->
  contents (list_delete n l) h' = contents l h'.
Proof.
  intros Hok Hin Hne. rewrite delete_contents; [|done|by apply (in_contents _ h)].
  apply remove_all_not_in. intros Hn. apply Hne. by apply (ok_disjoint l _ _ n).
Qed.

Lemma delete_not_in l n : links_ok l -> list_in_list l n = true ->
  list_in_list (list_delete n l) n = false.
Proof.
  intros Hok Hin. apply not_in_list; [by apply delete_ok|].
  intros h. rewrite delete_contents by done. rewrite elem_of_remove_all. naive_solver.
Qed.

Lemma delete_in_list_ne l n m : links_ok l -> list_in_list l n = true -> m <> n ->
  list_in_list (list_delete n l) m = list_in_list l m.
Proof.
  intros Hok Hin Hne. apply eq_true_iff_eq.
  rewrite !in_list_spec by (try apply delete_ok; done).
  split; intros [h Hh]; exists h.
  - rewrite delete_contents, elem_of_remove_all in Hh by done. naive_solver.
  - rewrite delete_contents, elem_of_remove_all by done. naive_solver.
Qed.

Lemma add_head_in_list_ne l h n m : links_ok l -> list_in_list l n = false -> m <> n ->
  list_in_list (list_add_head h n l) m = list_in_list l m.
Proof.
  intros Hok Hin Hne. apply eq_true_iff_eq.
  rewrite !in_list_spec by (try apply add_head_ok; done).
  split; intros [h' Hh]; exists h'.
  - rewrite add_head_contents in Hh by done. case_decide; [set_solver|done].
  - rewrite add_head_contents by done. case_decide; [set_solver|done].
Qed.

Lemma add_tail_in_list_ne l h n m : links_ok l -> list_in_list l n = false -> m <> n ->
  list_in_list (list_add_tail h n l) m = list_in_list l m.
Proof.
  intros Hok Hin Hne. apply eq_true_iff_eq.
  rewrite !in_list_spec by (try apply add_tail_ok; done).
  split; intros [h' Hh]; exists h'.
  - rewrite add_tail_contents in Hh by done. case_decide; [set_solver|done].
  - rewrite add_tail_contents by done. case_decide; [set_solver|done].
Qed.

(** What [list_add_head] and [list_add_tail] have in common. *)
Record adds (add : head -> node -> links -> links) : Prop := {
  adds_ok : forall l h n, links_ok l -> list_in_list l n = false -> links_ok (add h n l);
  adds_other : forall l h n h', links_ok l -> list_in_list l n = false -> h' <> h ->
    contents (add h n l) h' = contents l h';
  adds_elem : forall l h n m, links_ok l -> list_in_list l n = false ->
    m ∈ contents (add h n l) h <-> m = n \/ m ∈ contents l h;
  adds_length : forall l h n, links_ok l -> list_in_list l n = false ->
    length (contents (add h n l) h) = S (length (contents l h));
}.

Lemma adds_head : adds list_add_head.
Proof.
  constructor; intros; rewrite ?add_head_contents by done; eauto using add_head_ok.
  - by rewrite decide_False.
  - rewrite decide_True by done. set_solver.
  - by rewrite decide_True.
Qed.

Lemma adds_tail : adds list_add_tail.
Proof.
  constructor; intros; rewrite ?add_tail_contents by done; eauto using add_tail_ok.
  - by rewrite decide_False.
  - rewrite decide_True by done. set_solver.
  - rewrite decide_True by done. rewrite length_app. simpl. lia.
Qed.

Lemma is_empty_false l h : list_is_empty l h = false <-> exists n, n ∈ contents l h.
Proof.
  unfold list_is_empty. destruct (contents l h) as [|n c]; split; try done.
  - intros [n ?]. set_solver.
  - exists n. set_solver.
Qed.
End laws.

#[export] Hint Resolve adds_head adds_tail : lk.
#[export] Hint Resolve add_head_ok add_tail_ok add_before_ok delete_ok : lk.

(** ** A reference implementation

    A link state is the sequence of every head together with the head each node
    is on. *)

Section reference.
Context (node head : Type) `{!EqDecision node, !EqDecision head}.

Record ref_links : Type := RefLinks {
  ref_seq : head -> list node;
  ref_on : node -> option head;
}.

Definition upd {A B} `{!EqDecision A} (f : A -> B) (a : A) (b : B) : A -> B :=
  fun x => if decide (x = a) then b else f x.

(** Every list empty: the links in zero-initialised storage. *)
Definition ref_empty : ref_links := RefLinks (fun _ => []) (fun _ => None).

Definition ref_ops : ListOps node head := {|
  links := ref_links;
  contents l h := ref_seq l h;
  list_in_list l n := match ref_on l n with Some _ => true | None => false end;
  list_add_head h n l :=
    RefLinks (upd (ref_seq l) h (n :: ref_seq l h)) (upd (ref_on l) n (Some h));
  list_add_tail h n l :=
    RefLinks (upd (ref_seq l) h (ref_seq l h ++ [n])) (upd (ref_on l) n (Some h));
  list_add_before pos n l :=
    match ref_on l pos with
    | Some h => RefLinks (upd (ref_seq l) h (insert_before pos n (ref_seq l h)))
                         (upd (ref_on l) n (Some h))
    | None => l
    end;
  list_delete n l :=
    match ref_on l n with
    | Some h => RefLinks (upd (ref_seq l) h (list_remove_all n (ref_seq l h)))
                         (upd (ref_on l) n None)
    | None => l
    end;
|}.

Definition ref_ok (l : ref_links) : Prop :=
  (forall h, NoDup (ref_seq l h)) /\
  (forall n h, n ∈ ref_seq l h <-> ref_on l n = Some h).

Lemma ref_empty_ok : ref_ok ref_empty.
Proof. split; simpl; [constructor|]. intros. split; [set_solver|done]. Qed.

Lemma ref_absent l n h : ref_ok l -> ref_on l n = None -> n ∉ ref_seq l h.
Proof. intros [_ Hon] E Hin. apply Hon in Hin. congruence. Qed.

Lemma ref_upd_ok l h c n (o : option head) :
  ref_ok l -> NoDup c ->
  (forall m, m ∈ c <-> (m ∈ ref_seq l h /\ m <> n) \/ (m = n /\ o = Some h)) ->
  (o = None \/ o = Some h) ->
  (forall h', h' <> h -> n ∉ ref_seq l h') ->
  ref_ok (RefLinks (upd (ref_seq l) h c) (upd (ref_on l) n o)).
Proof.
  intros [Hnd Hon] Hc Hm Ho Hn. split; simpl; unfold upd; intros x.
  - case_decide; auto.
  - intros h'. specialize (Hn h'). specialize (Hm x). specialize (Hon x).
    destruct (decide (h' = h)) as [->|Hh], (decide (x = n)) as [->|Hx]; naive_solver.
Qed.

#[refine] Definition ref_laws : @ListLaws node head _ _ ref_ops :=
  @Build_ListLaws node head _ _ ref_ops (ref_ok : @links _ _ ref_ops -> Prop)
    _ _ _ _ _ _ _ _ _ _ _.
Proof.
  all: simpl.
  - intros l h [Hnd _]. apply Hnd.
  - intros l h1 h2 n [_ Hon] H1 H2. apply Hon in H1, H2. congruence.
  - intros l n [Hnd Hon]. destruct (ref_on l n) eqn:E; split; try done.
    + intros _. exists h. by apply Hon.
    + intros [h Hh]. apply Hon in Hh. congruence.
  - intros l h n Hok E. destruct (ref_on l n) eqn:E'; [done|].
    apply ref_upd_ok; auto.
    + constructor; [by apply ref_absent|apply Hok].
    + intros m. rewrite elem_of_cons. pose proof (ref_absent l n h Hok E'). naive_solver.
    + intros. by apply ref_absent.
  - intros l h n h' _ _. unfold upd. by case_decide; subst.
  - intros l h n Hok E. destruct (ref_on l n) eqn:E'; [done|].
    apply ref_upd_ok; auto.
    + apply NoDup_app. split; [apply Hok|]. split; [|repeat constructor; set_solver].
      pose proof (ref_absent l n h Hok E'). set_solver.
    + intros m. rewrite elem_of_app, list_elem_of_singleton.
      pose proof (ref_absent l n h Hok E'). naive_solver.
    + intros. by apply ref_absent.
  - intros l h n h' _ _. unfold upd. by case_decide; subst.
  - intros l pos n Hok Ep E. destruct (ref_on l n) eqn:E'; [done|].
    destruct (ref_on l pos) as [h|] eqn:Eh; [|done].
    apply ref_upd_ok; auto.
    + apply insert_before_nodup; [apply Hok|by apply ref_absent].
    + intros m. rewrite elem_of_insert_before.
      pose proof (ref_absent l n h Hok E').
      assert (pos ∈ ref_seq l h) by by apply Hok. naive_solver.
    + intros. by apply ref_absent.
  - intros l pos n h' Hok Ep E. destruct (ref_on l pos) as [h|] eqn:Eh; [|done]. simpl.
    unfold upd. case_decide as Hd; [by subst|].
    rewrite insert_before_not_in; [done|].
    intros Hin. apply Hok in Hin. congruence.
  - intros l n Hok E. destruct (ref_on l n) as [h|] eqn:Eh; [|done].
    apply ref_upd_ok; auto.
    + apply remove_all_nodup, Hok.
    + intros m. rewrite elem_of_remove_all. naive_solver.
    + intros h' Hne Hin. apply Hok in Hin. congruence.
  - intros l n h' Hok E. destruct (ref_on l n) as [h|] eqn:Eh; [|done]. simpl.
    unfold upd. case_decide as Hd; [by subst|].
    rewrite remove_all_not_in; [done|].
    intros Hin. apply Hok in Hin. congruence.
Defined.
End reference.

Arguments ref_empty {node head}.
