(* ===== verification/Interfaces.v ===== *)
(** * Interfaces between components

    [EventIface]: what a client of [kernel/event.c] relies on for one event
    object created with [flags = 0] (a manual-reset event), as [lib/cbuf] does.
    [W] is the world the event lives in; [event_wait] is [None] when the caller
    has to block. *)

From S2P Require Import Prelude.

Class EventIface (W : Type) : Type := {
  ev_signalled : W -> bool;
  ev_init : W -> W;
  ev_signal : bool -> W -> W;
  ev_unsignal : W -> W;
  ev_wait : W -> option W;
  ev_init_law : forall w, ev_signalled (ev_init w) = false;
  ev_signal_law : forall b w, ev_signalled (ev_signal b w) = true;
  ev_unsignal_law : forall w, ev_signalled (ev_unsignal w) = false;
  ev_wait_law : forall w, ev_signalled w = true -> exists w',
    ev_wait w = Some w' /\ ev_signalled w' = true;
  ev_wait_blocks : forall w, ev_signalled w = false -> ev_wait w = None;
}.

(** The plain flag: the smallest world with a manual-reset event. *)
#[refine, export] Instance flag_event : EventIface bool := {|
  ev_signalled := fun b => b;
  ev_init := fun _ => false;
  ev_signal := fun _ _ => true;
  ev_unsignal := fun _ => false;
  ev_wait := fun b => if b then Some true else None;
|}.
Proof. all: intros; simplify_eq; eauto. Defined.
