(* ===== verification/Cbuf.v ===== *)
(** * Circular buffers: include/pow2.h and lib/cbuf/cbuf.c

    [cbuf] is [cbuf_t]: the two [uint] cursors, the log of the length, the
    storage and (in the world [W]) its event.  The operations are the bodies of
    cbuf.c between [enter_critical_section] and [exit_critical_section]; a
    [memcpy] that leaves the storage is [None].  The loops carry fuel
    [S (Z.to_nat len)], one unit per byte still to move and one for the exit
    test, which the theorems show is enough.

    The theorems relate the buffer to the queue of bytes [cbuf_contents]. *)

From S2P Require Import Prelude Interfaces.

(** ** include/pow2.h *)
Definition ispow2 (val : Z) : bool := Z.land (u32 (val - 1)) val =? 0.

(** [__builtin_ctz]: the index of the lowest set bit of a nonzero [uint]. *)
Fixpoint ctz_from (fuel : nat) (i val : Z) : Z :=
  match fuel with
  | O => i
  | S f => if Z.testbit val i then i else ctz_from f (i + 1) val
  end.
Definition builtin_ctz (val : Z) : Z := ctz_from 32 0 val.

Definition log2_uint (val : Z) : Z :=
  if negb (ispow2 val) then 0 else builtin_ctz val.
Definition valpow2 (valp2 : Z) : Z := u32 (Z.shiftl 1 valp2).
Definition modpow2 (val modp2 : Z) : Z :=
  u32 (Z.land val (u64 (Z.shiftl 1 modp2 - 1))).

Section cbuf.
Context {W : Type} {EV : EventIface W}.

Record cbuf : Type := Cbuf {
  head : Z;
  tail : Z;
  len_pow2 : Z;
  buf : list Z;
  event : W;
}.

Definition set_head (c : cbuf) (h : Z) : cbuf :=
  Cbuf h (tail c) (len_pow2 c) (buf c) (event c).
Definition set_tail (c : cbuf) (t : Z) : cbuf :=
  Cbuf (head c) t (len_pow2 c) (buf c) (event c).
Definition set_buf (c : cbuf) (b : list Z) : cbuf :=
  Cbuf (head c) (tail c) (len_pow2 c) b (event c).
Definition set_event (c : cbuf) (w : W) : cbuf :=
  Cbuf (head c) (tail c) (len_pow2 c) (buf c) w.

Definition INC_POINTER (c : cbuf) (ptr inc : Z) : Z :=
  modpow2 (u32 (ptr + inc)) (len_pow2 c).

Definition cbuf_initialize_etc (w : W) (len : Z) (storage : list Z) : cbuf :=
  Cbuf 0 0 (log2_uint (u32 len)) storage (ev_init w).

Definition cbuf_space_avail (c : cbuf) : Z :=
  let consumed := modpow2 (u32 (head c - tail c)) (len_pow2 c) in
  u32 (valpow2 (len_pow2 c) - consumed - 1).

Definition cbuf_space_used (c : cbuf) : Z :=
  modpow2 (u32 (head c - tail c)) (len_pow2 c).

(** The [while] loop of [cbuf_write]: the bytes [data] still to write, and the
    count written so far. *)
Fixpoint cbuf_write_loop (fuel : nat) (c : cbuf) (data : list Z) (pos : Z)
    : option (Z * cbuf) :=
  match fuel with
  | O => None
  | S f =>
    let remain := Z.of_nat (length data) in
    if (0 <? remain) && (0 <? cbuf_space_avail c) then
      let write_len :=
        if tail c <=? head c
        then Z.min (u32 (valpow2 (len_pow2 c) - head c)) remain
        else Z.min (u32 (tail c - head c - 1)) remain in
      if write_len =? 0 then Some (pos, c)
      else
        match blit (buf c) (Z.to_nat (head c)) (take (Z.to_nat write_len) data) with
        | None => None
        | Some b =>
          let c' := set_buf c b in
          let c' := set_head c' (INC_POINTER c' (head c') write_len) in
          cbuf_write_loop f c' (drop (Z.to_nat write_len) data) (pos + write_len)
        end
    else Some (pos, c)
  end.

Definition cbuf_write (c : cbuf) (data : list Z) (canreschedule : bool)
    : option (Z * cbuf) :=
  match cbuf_write_loop (S (length data)) c data 0 with
  | None => None
  | Some (pos, c') =>
    if negb (head c' =? tail c')
    then Some (pos, set_event c' (ev_signal canreschedule (event c')))
    else Some (pos, c')
  end.

(** The [while] loop of [cbuf_read]: [buflen] bytes still wanted, [acc] the
    bytes copied out so far. *)
Fixpoint cbuf_read_loop (fuel : nat) (c : cbuf) (buflen : Z) (acc : list Z)
    : option (list Z * cbuf) :=
  match fuel with
  | O => None
  | S f =>
    if (0 <? buflen) && negb (tail c =? head c) then
      let read_len :=
        if tail c <? head c
        then Z.min (u32 (head c - tail c)) buflen
        else Z.min (u32 (valpow2 (len_pow2 c) - tail c)) buflen in
      if Z.of_nat (length (buf c)) <? tail c + read_len then None
      else
        let got := slice (buf c) (Z.to_nat (tail c)) (Z.to_nat read_len) in
        let c' := set_tail c (INC_POINTER c (tail c) read_len) in
        cbuf_read_loop f c' (buflen - read_len) (acc ++ got)
    else Some (acc, c)
  end.

(** [cbuf_read] past its blocking point. *)
Definition cbuf_read_body (c : cbuf) (buflen : Z) : option (list Z * cbuf) :=
  if negb (tail c =? head c) then
    match cbuf_read_loop (S (Z.to_nat buflen)) c buflen [] with
    | None => None
    | Some (got, c') =>
      Some (got, if tail c' =? head c' then set_event c' (ev_unsignal (event c')) else c')
    end
  else Some ([], c).

(** What a reader sees: [Blocked] when [event_wait] puts it to sleep. *)
Inductive read_result : Type :=
| Blocked
| Done (r : option (list Z * cbuf)).

Definition cbuf_read (c : cbuf) (buflen : Z) (block : bool) : read_result :=
  if block then
    match ev_wait (event c) with
    | None => Blocked
    | Some w => Done (cbuf_read_body (set_event c w) buflen)
    end
  else Done (cbuf_read_body c buflen).

Definition cbuf_write_char (c : cbuf) (ch : Z) (canreschedule : bool)
    : option (Z * cbuf) :=
  if 0 <? cbuf_space_avail c then
    match blit (buf c) (Z.to_nat (head c)) [ch] with
    | None => None
    | Some b =>
      let c' := set_buf c b in
      let c' := set_head c' (INC_POINTER c' (head c') 1) in
      if negb (head c' =? tail c')
      then Some (1, set_event c' (ev_signal canreschedule (event c')))
      else Some (1, c')
    end
  else Some (0, c).

Definition cbuf_read_char_body (c : cbuf) : option (option Z * cbuf) :=
  if negb (tail c =? head c) then
    match buf c !! Z.to_nat (tail c) with
    | None => None
    | Some ch =>
      let c' := set_tail c (INC_POINTER c (tail c) 1) in
      Some (Some ch,
            if tail c' =? head c' then set_event c' (ev_unsignal (event c')) else c')
    end
  else Some (None, c).

Inductive read_char_result : Type :=
| BlockedChar
| DoneChar (r : option (option Z * cbuf)).

Definition cbuf_read_char (c : cbuf) (block : bool) : read_char_result :=
  if block then
    match ev_wait (event c) with
    | None => BlockedChar
    | Some w => DoneChar (cbuf_read_char_body (set_event c w))
    end
  else DoneChar (cbuf_read_char_body c).

(** ** The queue of bytes a buffer holds *)

Definition cbuf_size (c : cbuf) : Z := 2 ^ len_pow2 c.

(** Well-formedness: the length is a power of two that fits a [uint], the
    cursors are inside the storage. *)
Definition cbuf_ok (c : cbuf) : Prop :=
  0 <= len_pow2 c < 31 /\
  Z.of_nat (length (buf c)) = cbuf_size c /\
  0 <= head c < cbuf_size c /\
  0 <= tail c < cbuf_size c.

(** The number of bytes stored and the storage index of the [i]-th of them. *)
Definition used (c : cbuf) : Z :=
  if tail c <=? head c then head c - tail c else head c - tail c + cbuf_size c.
Definition slot (c : cbuf) (i : Z) : Z :=
  if tail c + i <? cbuf_size c then tail c + i else tail c + i - cbuf_size c.

Definition cbuf_contents (c : cbuf) : list Z :=
  (fun i => buf c !!! Z.to_nat (slot c (Z.of_nat i))) <$> seq 0 (Z.to_nat (used c)).

(** The event is signalled exactly while there is something to read. *)
Definition cbuf_event_ok (c : cbuf) : Prop :=
  ev_signalled (event c) = negb (tail c =? head c).

(** How many of [k] bytes fit behind those already stored. *)
Definition room_for (c : cbuf) (k : nat) : Z :=
  Z.min (Z.of_nat k) (cbuf_size c - used c - 1).

(** ** Arithmetic of the cursors *)

Lemma valpow2_size n : 0 <= n < 31 -> valpow2 n = 2 ^ n.
Proof.
  intros. unfold valpow2. rewrite Z.shiftl_1_l. apply u32_small.
  split; [lia|]. apply Z.pow_lt_mono_r; lia.
Qed.

Lemma modpow2_mod v n : 0 <= n < 32 -> 0 <= v -> modpow2 v n = v mod 2 ^ n.
Proof.
  intros Hn Hv. unfold modpow2. rewrite Z.shiftl_1_l.
  assert (2 ^ n < 2 ^ 32) by (apply Z.pow_lt_mono_r; lia).
  assert (1 <= 2 ^ n) by (pose proof (Z.pow_pos_nonneg 2 n); lia).
  rewrite u64_small by lia. rewrite land_mask by lia.
  apply u32_small. pose proof (Z.mod_pos_bound v (2 ^ n)). lia.
Qed.

Lemma ispow2_pow k : 0 <= k < 32 -> ispow2 (2 ^ k) = true.
Proof.
  intros Hk. unfold ispow2. assert (2 ^ k <= 2 ^ 31) by (apply Z.pow_le_mono_r; lia). assert (0 < 2 ^ k) by (apply Z.pow_pos_nonneg; lia).
  rewrite u32_small by lia. rewrite Z.land_comm. rewrite land_mask by lia. by rewrite Z.mod_same by lia.
Qed.

Lemma ispow2_inv v : 1 <= v < 2 ^ 32 -> ispow2 v = true -> exists k, 0 <= k < 32 /\ v = 2 ^ k.
Proof.
  intros Hv H. unfold ispow2 in H. rewrite u32_small in H by lia. apply Z.eqb_eq in H. exists (Z.log2 v).
  pose proof (Z.log2_spec v ltac:(lia)) as Hl. pose proof (Z.log2_nonneg v).
  assert (Z.log2 v < 32) by (apply Z.log2_lt_pow2; lia). split; [lia|].
  destruct (Z.eq_dec v (2 ^ Z.log2 v)) as [|Hne]; [done|]. exfalso.
  assert (Hb : Z.testbit (Z.land (v - 1) v) (Z.log2 v) = true); [|by rewrite H, Z.bits_0 in Hb].
  rewrite Z.land_spec. assert (Hlog : Z.log2 (v - 1) = Z.log2 v) by (apply Z.log2_unique; lia).
  rewrite <- Hlog at 1. rewrite !Z.bit_log2 by lia. done.
Qed.

Lemma size_bounds c : cbuf_ok c -> 1 <= cbuf_size c < 2 ^ 31.
Proof.
  intros (Hn & _). unfold cbuf_size. split.
  - pose proof (Z.pow_pos_nonneg 2 (len_pow2 c)). lia.
  - apply Z.pow_lt_mono_r; lia.
Qed.

Lemma used_bounds c : cbuf_ok c -> 0 <= used c < cbuf_size c.
Proof.
  intros (_ & _ & ? & ?). unfold used. destruct (Z.leb_spec (tail c) (head c)); lia.
Qed.

Lemma mod_diff a b n :
  0 <= n < 31 -> 0 <= a < 2 ^ n -> 0 <= b < 2 ^ n ->
  u32 (a - b) mod 2 ^ n = if b <=? a then a - b else a - b + 2 ^ n.
Proof.
  intros Hn Ha Hb. unfold u32.
  assert (E : 2 ^ 32 = 2 ^ n * 2 ^ (32 - n)).
  { rewrite <- Z.pow_add_r by lia. f_equal. lia. }
  rewrite E, Z.rem_mul_r by lia.
  rewrite Z.mul_comm, Z.mod_add, Z.mod_mod by lia.
  destruct (Z.leb_spec b a); [apply Z.mod_small; lia|].
  symmetry. apply Z.mod_unique with (-1); lia.
Qed.

Lemma space_used_eq c : cbuf_ok c -> cbuf_space_used c = used c.
Proof.
  intros (Hn & Hl & Hh & Ht). unfold cbuf_space_used.
  rewrite modpow2_mod by (auto; pose proof (u32_range (head c - tail c)); lia).
  by rewrite mod_diff.
Qed.

Lemma space_avail_eq c : cbuf_ok c -> cbuf_space_avail c = cbuf_size c - used c - 1.
Proof.
  intros Hok. pose proof (size_bounds c Hok). pose proof (used_bounds c Hok).
  unfold cbuf_space_avail. fold (cbuf_space_used c). rewrite space_used_eq by done.
  rewrite valpow2_size by apply Hok. apply u32_small. unfold cbuf_size in *. lia.
Qed.

Lemma inc_pointer_eq c p k :
  cbuf_ok c -> 0 <= p -> 0 <= k -> p + k < 2 * cbuf_size c ->
  INC_POINTER c p k = if p + k <? cbuf_size c then p + k else p + k - cbuf_size c.
Proof.
  intros Hok Hp Hk Hpk. pose proof (size_bounds c Hok). unfold INC_POINTER.
  rewrite u32_small by lia. rewrite modpow2_mod by (destruct Hok; lia).
  fold (cbuf_size c). destruct (Z.ltb_spec (p + k) (cbuf_size c)).
  - apply Z.mod_small. lia.
  - symmetry. apply Z.mod_unique with 1; lia.
Qed.

(** ** The queue *)

Lemma contents_length c : cbuf_ok c -> length (cbuf_contents c) = Z.to_nat (used c).
Proof. intros. unfold cbuf_contents. by rewrite length_fmap, length_seq. Qed.

Lemma slot_bounds c i : cbuf_ok c -> 0 <= i < cbuf_size c -> 0 <= slot c i < cbuf_size c.
Proof.
  intros Hok Hi. destruct Hok as (_ & _ & _ & ?). unfold slot.
  destruct (Z.ltb_spec (tail c + i) (cbuf_size c)); lia.
Qed.

Lemma contents_lookup c (i : nat) :
  cbuf_ok c -> (Z.of_nat i < used c) ->
  cbuf_contents c !! i = buf c !! Z.to_nat (slot c (Z.of_nat i)).
Proof.
  intros Hok Hi. pose proof (used_bounds c Hok). unfold cbuf_contents.
  rewrite list_lookup_fmap, lookup_seq_lt by lia. simpl.
  symmetry. apply list_lookup_lookup_total_lt.
  pose proof (slot_bounds c (Z.of_nat i) Hok). destruct Hok as (_ & ? & _). lia.
Qed.

Lemma contents_lookup_ge c (i : nat) :
  cbuf_ok c -> (used c <= Z.of_nat i) -> cbuf_contents c !! i = None.
Proof. intros. apply lookup_ge_None. rewrite contents_length by done. lia. Qed.

(** Two well-formed buffers hold the same bytes when they agree slot by slot. *)
Lemma contents_ext c l :
  cbuf_ok c -> used c = Z.of_nat (length l) ->
  (forall i, (i < length l)%nat -> buf c !! Z.to_nat (slot c (Z.of_nat i)) = l !! i) ->
  cbuf_contents c = l.
Proof.
  intros Hok Hu Hl. apply list_eq. intros i.
  destruct (decide (i < length l)%nat).
  - rewrite contents_lookup by (auto; lia). auto.
  - rewrite contents_lookup_ge by (auto; lia). symmetry. apply lookup_ge_None. lia.
Qed.

(** The slot of the [i]-th byte, free or used, counted from the head. *)
Lemma slot_used c i :
  cbuf_ok c -> 0 <= i -> head c + i < cbuf_size c -> used c + i < cbuf_size c ->
  slot c (used c + i) = head c + i.
Proof.
  intros (_ & _ & ? & ?) Hi Hfit. unfold slot, used. zcases; lia.
Qed.

Lemma slot_inj c i j :
  0 <= tail c < cbuf_size c -> 0 <= i < cbuf_size c -> 0 <= j < cbuf_size c ->
  slot c i = slot c j -> i = j.
Proof. unfold slot. intros. zcases; lia. Qed.

(** Moving the head over [k] slots that do not wrap past the tail. *)
Lemma advance_head c b k c' :
  cbuf_ok c -> length b = length (buf c) -> 0 <= k ->
  head c + k <= cbuf_size c -> used c + k < cbuf_size c ->
  c' = set_head (set_buf c b) (INC_POINTER (set_buf c b) (head c) k) ->
  cbuf_ok c' /\ used c' = used c + k.
Proof.
  intros Hok Hb Hk Hfit Huse ->. pose proof (size_bounds c Hok).
  pose proof Hok as (? & ? & ? & ?).
  assert (Hok1 : cbuf_ok (set_buf c b)).
  { repeat split; simpl; unfold cbuf_size in *; simpl; lia. }
  rewrite (inc_pointer_eq (set_buf c b)) by (auto; unfold cbuf_size in *; simpl; lia).
  change (cbuf_size (set_buf c b)) with (cbuf_size c).
  split.
  - unfold cbuf_ok, cbuf_size, used in *. simpl in *. zcases; lia.
  - unfold used, cbuf_size in *. simpl in *. zcases; lia.
Qed.

(** One contiguous copy of [d] at the head that fits the free space appends [d]. *)
Lemma write_step c d b c' :
  cbuf_ok c -> used c + Z.of_nat (length d) < cbuf_size c ->
  blit (buf c) (Z.to_nat (head c)) d = Some b ->
  c' = set_head (set_buf c b) (INC_POINTER (set_buf c b) (head c) (Z.of_nat (length d))) ->
  cbuf_ok c' /\ cbuf_contents c' = cbuf_contents c ++ d /\
  used c' = used c + Z.of_nat (length d).
Proof.
  intros Hok Hfit Hb Hc'. pose proof (used_bounds c Hok) as Hu.
  pose proof (blit_bound _ _ _ _ Hb) as Hbd.
  pose proof Hok as (Hn & Hl & Hh & Ht).
  destruct (advance_head c b (Z.of_nat (length d)) c') as [Hok' Hu'];
    [done|by eapply blit_length|lia|lia|lia|done|].
  split; [done|]. split; [|done]. apply contents_ext; [done| |].
  { rewrite Hu', length_app, contents_length by done. lia. }
  intros i Hi. rewrite length_app, contents_length in Hi by done.
  assert (slot c' (Z.of_nat i) = slot c (Z.of_nat i)) as -> by by subst.
  assert (buf c' = b) as -> by by subst. rewrite (blit_lookup _ _ _ _ _ Hb).
  pose proof (slot_bounds c (Z.of_nat i) Hok) as Hsb.
  destruct (decide (Z.of_nat i < used c)) as [Hlt|Hge].
  - rewrite lookup_app_l by (rewrite contents_length by done; lia).
    rewrite contents_lookup by done. rewrite decide_False; [done|]. intros Hin.
    pose proof (slot_used c (slot c (Z.of_nat i) - head c) Hok) as Hs.
    assert (Z.of_nat i = used c + (slot c (Z.of_nat i) - head c)); [|lia].
    apply (slot_inj c); lia.
  - rewrite lookup_app_r by (rewrite contents_length by done; lia).
    rewrite contents_length by done.
    replace (Z.of_nat i) with (used c + (Z.of_nat i - used c)) by lia.
    rewrite slot_used by (done || lia). rewrite decide_True by lia. f_equal. lia.
Qed.

Lemma write_len_eq c k :
  cbuf_ok c -> tail c <> 0 \/ used c + Z.of_nat k < cbuf_size c ->
  0 < Z.of_nat k -> 0 < cbuf_space_avail c ->
  let w := if tail c <=? head c
           then Z.min (u32 (valpow2 (len_pow2 c) - head c)) (Z.of_nat k)
           else Z.min (u32 (tail c - head c - 1)) (Z.of_nat k) in
  0 < w <= Z.of_nat k /\ used c + w < cbuf_size c /\ head c + w <= cbuf_size c.
Proof.
  intros Hok Hroom Hk. pose proof (size_bounds c Hok) as Hs.
  rewrite space_avail_eq by done. destruct Hok as (Hn & Hl & Hh & Ht).
  rewrite valpow2_size by done. fold (cbuf_size c). unfold used in *. simpl.
  intros Hav. destruct (Z.leb_spec (tail c) (head c)); rewrite u32_small by lia; lia.
Qed.

Lemma write_loop_step f c data pos w b :
  0 < Z.of_nat (length data) -> 0 < cbuf_space_avail c ->
  w = (if tail c <=? head c
       then Z.min (u32 (valpow2 (len_pow2 c) - head c)) (Z.of_nat (length data))
       else Z.min (u32 (tail c - head c - 1)) (Z.of_nat (length data))) ->
  w <> 0 -> blit (buf c) (Z.to_nat (head c)) (take (Z.to_nat w) data) = Some b ->
  cbuf_write_loop (S f) c data pos =
  cbuf_write_loop f (set_head (set_buf c b) (INC_POINTER (set_buf c b) (head c) w))
    (drop (Z.to_nat w) data) (pos + w).
Proof.
  intros Hd Ha Hw Hw0 Hb. simpl. rewrite <- Hw, Hb.
  rewrite !(proj2 (Z.ltb_lt 0 _)), (proj2 (Z.eqb_neq w 0)) by done. done.
Qed.

Lemma write_loop_nil f c pos : cbuf_write_loop (S f) c [] pos = Some (pos, c).
Proof. done. Qed.

Lemma write_loop_spec fuel c data pos :
  cbuf_ok c -> (length data < fuel)%nat ->
  tail c <> 0 \/ used c + Z.of_nat (length data) < cbuf_size c ->
  let n := room_for c (length data) in
  exists c', cbuf_write_loop fuel c data pos = Some (pos + n, c') /\ cbuf_ok c' /\
    cbuf_contents c' = cbuf_contents c ++ take (Z.to_nat n) data /\
    tail c' = tail c /\ event c' = event c /\ used c' = used c + n /\
    len_pow2 c' = len_pow2 c.
Proof.
  revert c data pos. induction fuel as [|f IH]; [lia|].
  intros c data pos Hok Hf Hroom n. pose proof (used_bounds c Hok) as Hu.
  unfold n, room_for in *. clear n. simpl.
  destruct (_ && _) eqn:Hgo.
  2:{ apply andb_false_iff in Hgo. rewrite space_avail_eq in Hgo by done.
      rewrite !Z.ltb_ge in Hgo. exists c.
      replace (Z.min _ _) with 0 by lia. simpl. rewrite app_nil_r, !Z.add_0_r. done. }
  bools. pose proof (write_len_eq c (length data) Hok Hroom) as (Hw & Hwu & Hwh);
    [done|done|].
  set (w := if tail c <=? head c then _ else _) in *.
  rewrite (proj2 (Z.eqb_neq w 0)) by lia.
  assert (Hlt : length (take (Z.to_nat w) data) = Z.to_nat w)
    by (rewrite length_take; lia).
  rewrite blit_Some by (rewrite Hlt; destruct Hok as (?&?&?&?); lia).
  set (b := _ ++ _). set (c1 := set_head _ _).
  destruct (write_step c (take (Z.to_nat w) data) b c1) as (Hok1 & Hc1 & Hu1);
    [done|lia|apply blit_Some; rewrite Hlt; destruct Hok as (?&?&?&?); lia
    |rewrite Hlt, Z2Nat.id by lia; done|].
  rewrite Hlt, Z2Nat.id in Hu1 by lia.
  destruct (IH c1 (drop (Z.to_nat w) data) (pos + w)) as (c' & -> & Hok' & Hc' & Ht' & He' & Hu' & Hp');
    rewrite ?length_drop in *; change (cbuf_size c1) with (cbuf_size c) in *;
    change (tail c1) with (tail c) in *; [done|lia|lia|].
  exists c'. split_and!; [do 2 f_equal; lia|done| |done|done|lia|done].
  rewrite Hc', Hc1, <- app_assoc. f_equal.
  rewrite take_take_drop. f_equal. lia.
Qed.

(** Consuming [k] bytes that do not run past the end of the storage. *)
Lemma read_step c k c' :
  cbuf_ok c -> 0 <= k <= used c -> tail c + k <= cbuf_size c ->
  c' = set_tail c (INC_POINTER c (tail c) k) ->
  cbuf_ok c' /\ used c' = used c - k /\
  cbuf_contents c = slice (buf c) (Z.to_nat (tail c)) (Z.to_nat k) ++ cbuf_contents c'.
Proof.
  intros Hok Hk Hfit ->. pose proof (used_bounds c Hok) as Hu.
  pose proof (size_bounds c Hok) as Hs. pose proof Hok as (Hn & Hl & Hh & Ht).
  rewrite inc_pointer_eq by (done || lia). set (c' := set_tail _ _).
  assert (Hok' : cbuf_ok c').
  { unfold cbuf_ok, c'. simpl. unfold cbuf_size in *. simpl in *. zcases; lia. }
  assert (Hu' : used c' = used c - k).
  { unfold used, c', cbuf_size in *. simpl in *. zcases; lia. }
  split; [done|]. split; [done|].
  assert (Hsl : length (slice (buf c) (Z.to_nat (tail c)) (Z.to_nat k)) = Z.to_nat k)
    by (rewrite length_slice by lia; lia).
  apply contents_ext; [done| |].
  { rewrite length_app, contents_length, Hsl by done. lia. }
  intros i Hi. rewrite length_app, contents_length, Hsl in Hi by done.
  destruct (decide (Z.of_nat i < k)) as [Hlt|Hge].
  - rewrite lookup_app_l by lia. rewrite lookup_slice by lia.
    f_equal. unfold slot. zcases; lia.
  - rewrite lookup_app_r, contents_lookup, Hsl by (done || lia).
    change (buf c') with (buf c). f_equal. f_equal. unfold slot, c', cbuf_size in *.
    simpl in *. zcases; lia.
Qed.

Lemma read_len_eq c k :
  cbuf_ok c -> 0 < k -> tail c <> head c ->
  let r := if tail c <? head c
           then Z.min (u32 (head c - tail c)) k
           else Z.min (u32 (valpow2 (len_pow2 c) - tail c)) k in
  0 < r <= k /\ r <= used c /\ tail c + r <= cbuf_size c.
Proof.
  intros Hok Hk. pose proof (size_bounds c Hok) as Hs.
  destruct Hok as (Hn & Hl & Hh & Ht).
  rewrite valpow2_size by done. fold (cbuf_size c). unfold used in *. simpl.
  intros Hne. destruct (Z.ltb_spec (tail c) (head c)); rewrite u32_small by lia;
    destruct (Z.leb_spec (tail c) (head c)); lia.
Qed.

Lemma empty_iff c : cbuf_ok c -> (tail c =? head c) = true <-> used c = 0.
Proof. intros (?&?&?&?). unfold used. rewrite Z.eqb_eq. zcases; lia. Qed.

Lemma contents_nil c : cbuf_ok c -> used c = 0 -> cbuf_contents c = [].
Proof. intros. apply nil_length_inv. rewrite contents_length by done. lia. Qed.

Lemma read_loop_spec fuel c k acc :
  cbuf_ok c -> 0 <= k < Z.of_nat fuel ->
  exists c', cbuf_read_loop fuel c k acc =
      Some (acc ++ take (Z.to_nat k) (cbuf_contents c), c') /\
    cbuf_ok c' /\ cbuf_contents c' = drop (Z.to_nat k) (cbuf_contents c) /\
    event c' = event c /\ len_pow2 c' = len_pow2 c /\ head c' = head c.
Proof.
  revert c k acc. induction fuel as [|f IH]; [lia|].
  intros c k acc Hok Hk. pose proof (used_bounds c Hok) as Hu. simpl.
  destruct (_ && _) eqn:Hgo.
  2:{ exists c. apply andb_false_iff in Hgo as [Hgo|Hgo].
      - bools. replace (Z.to_nat k) with 0%nat by lia. rewrite take_0, drop_0, app_nil_r. done.
      - apply negb_false_iff, empty_iff in Hgo; [|done].
        rewrite contents_nil by done. rewrite take_nil, drop_nil, app_nil_r. done. }
  bools. destruct (read_len_eq c k Hok) as (Hr & Hru & Hrt); [lia|done|].
  set (r := if tail c <? head c then _ else _) in *. clearbody r.
  pose proof (proj1 (proj2 Hok)) as Hl.
  rewrite (proj2 (Z.ltb_ge _ _)) by lia.
  set (c1 := set_tail _ _).
  destruct (read_step c r c1) as (Hok1 & Hu1 & Hc); [done|lia|lia|done|].
  destruct (IH c1 (k - r) (acc ++ slice (buf c) (Z.to_nat (tail c)) (Z.to_nat r)))
    as (c' & -> & Hok' & Hc' & ?); [done|lia|].
  assert (Hsl : length (slice (buf c) (Z.to_nat (tail c)) (Z.to_nat r)) = Z.to_nat r)
    by (destruct Hok as (?&?&?&?); rewrite length_slice by lia; lia).
  exists c'. rewrite Hc, take_app, drop_app, Hsl, Hc', <- app_assoc.
  rewrite (take_ge (slice _ _ _)), (drop_ge (slice _ _ _)) by lia.
  replace (Z.to_nat (k - r)) with (Z.to_nat k - Z.to_nat r)%nat by lia. done.
Qed.

Lemma contents_set_event c w : cbuf_contents (set_event c w) = cbuf_contents c.
Proof. done. Qed.

Lemma ok_set_event c w : cbuf_ok c -> cbuf_ok (set_event c w).
Proof. done. Qed.

Lemma empty_contents c : cbuf_ok c -> (tail c =? head c) = true <-> cbuf_contents c = [].
Proof.
  intros Hok. rewrite empty_iff by done. split; [by apply contents_nil|].
  intros E. pose proof (contents_length c Hok) as Hl. pose proof (used_bounds c Hok).
  rewrite E in Hl. simpl in Hl. lia.
Qed.

Lemma event_ok_used c :
  cbuf_ok c -> cbuf_event_ok c <-> ev_signalled (event c) = negb (used c =? 0).
Proof.
  intros Hok. unfold cbuf_event_ok. pose proof (empty_iff c Hok) as E.
  destruct (Z.eqb_spec (used c) 0), (tail c =? head c); naive_solver.
Qed.


Lemma read_body_spec c buflen :
  cbuf_ok c -> cbuf_event_ok c -> 0 <= buflen ->
  exists c', cbuf_read_body c buflen =
      Some (take (Z.to_nat buflen) (cbuf_contents c), c') /\
    cbuf_contents c' = drop (Z.to_nat buflen) (cbuf_contents c) /\
    cbuf_ok c' /\ cbuf_event_ok c'.
Proof.
  intros Hok Hev Hb. unfold cbuf_read_body. destruct (tail c =? head c) eqn:E; cbn [negb].
  { exists c. apply empty_contents in E; [|done]. rewrite E, take_nil, drop_nil. done. }
  destruct (read_loop_spec (S (Z.to_nat buflen)) c buflen []) as (c' & -> & Hok' & Hc' & He & Hp & Hh);
    [done|lia|].
  eexists. split; [done|]. destruct (tail c' =? head c') eqn:E'; split_and!; try done.
  - unfold cbuf_event_ok. simpl. by rewrite ev_unsignal_law, E'.
  - unfold cbuf_event_ok in *. by rewrite He, Hev, E, E'.
Qed.

(** The world in which a blocking reader goes on. *)
Lemma wait_ok c :
  cbuf_ok c -> cbuf_event_ok c ->
  match ev_wait (event c) with
  | None => cbuf_contents c = []
  | Some w => cbuf_contents c <> [] /\ cbuf_event_ok (set_event c w)
  end.
Proof.
  intros Hok Hev. unfold cbuf_event_ok in *. pose proof (empty_contents c Hok) as Hemp.
  destruct (tail c =? head c) eqn:E; simpl in *.
  - rewrite ev_wait_blocks by done. by apply Hemp.
  - destruct (ev_wait_law (event c) Hev) as (w & -> & Hw). simpl. rewrite Hw, E.
    split; [|done]. intros Hn. by apply Hemp in Hn.
Qed.

(** [cbuf_read] is a dequeue.  A blocking read sleeps exactly on an empty
    buffer; every other read returns the first [buflen] queued bytes, or all of
    them when fewer are queued, removes exactly those, stays inside the
    storage, and resets the event when it drained the queue. *)
Theorem cbuf_read_spec c buflen block :
  cbuf_ok c -> cbuf_event_ok c -> 0 <= buflen ->
  match cbuf_read c buflen block with
  | Blocked => block = true /\ cbuf_contents c = []
  | Done r => (block = true -> cbuf_contents c <> []) /\ exists c',
      r = Some (take (Z.to_nat buflen) (cbuf_contents c), c') /\
      cbuf_contents c' = drop (Z.to_nat buflen) (cbuf_contents c) /\
      cbuf_ok c' /\ cbuf_event_ok c'
  end.
Proof.
  intros Hok Hev Hb. unfold cbuf_read. pose proof (wait_ok c Hok Hev) as Hw.
  destruct block; [destruct (ev_wait (event c)) as [w|]; [destruct Hw|done]|].
  - split; [done|]. by apply (read_body_spec (set_event c w)).
  - split; [done|]. by apply read_body_spec.
Qed.

(** [cbuf_write_char] and [cbuf_read_char] are the one-byte enqueue and
    dequeue: a byte written to a buffer with room is queued last, and a byte
    read is the oldest one; both report whether they moved a byte. *)
Theorem cbuf_char_spec c ch resched :
  cbuf_ok c -> cbuf_event_ok c ->
  (exists n c', cbuf_write_char c ch resched = Some (n, c') /\
     cbuf_ok c' /\ cbuf_event_ok c' /\
     (if 0 <? cbuf_space_avail c
      then n = 1 /\ cbuf_contents c' = cbuf_contents c ++ [ch]
      else n = 0 /\ c' = c)) /\
  (exists c', cbuf_read_char c false = DoneChar (Some (hd_error (cbuf_contents c), c')) /\
     cbuf_ok c' /\ cbuf_event_ok c' /\
     cbuf_contents c' = List.tl (cbuf_contents c)).
Proof.
  intros Hok Hev. split.
  - unfold cbuf_write_char. destruct (Z.ltb_spec 0 (cbuf_space_avail c)) as [Hav|]; [|by eauto 10].
    rewrite space_avail_eq in Hav by done. pose proof Hok as (_ & Hl & Hh & _).
    rewrite blit_Some by (simpl; lia). set (b := _ ++ _). set (c1 := set_head _ _).
    destruct (write_step c [ch] b c1) as (Hok1 & Hc1 & Hu1);
      [done|simpl; lia|apply blit_Some; simpl; lia|done|].
    assert (E : (head c1 =? tail c1) = false).
    { apply not_true_iff_false. rewrite Z.eqb_sym, empty_iff, Hu1 by done.
      pose proof (used_bounds c Hok). simpl. lia. }
    rewrite E. cbn [negb]. eexists 1, _. split_and!; try done.
    unfold cbuf_event_ok. simpl in *. by rewrite ev_signal_law, Z.eqb_sym, E.
  - unfold cbuf_read_char, cbuf_read_char_body. destruct (tail c =? head c) eqn:E; cbn [negb].
    { exists c. apply empty_contents in E; [|done]. by rewrite E. }
    set (c1 := set_tail _ _). pose proof Hok as (_ & Hl & _ & Ht).
    apply not_true_iff_false in E as E1. rewrite empty_iff in E1 by done.
    pose proof (used_bounds c Hok).
    destruct (read_step c 1 c1) as (Hok1 & Hu1 & ->); [done|lia|lia|done|].
    destruct (lookup_lt_is_Some_2 (buf c) (Z.to_nat (tail c))) as [x Hx]; [lia|].
    rewrite Hx. unfold slice. rewrite (drop_S _ _ _ Hx). change (Z.to_nat 1) with 1%nat.
    rewrite firstn_cons, take_0. cbn [app hd_error tl].
    eexists. split; [done|]. destruct (tail c1 =? head c1) eqn:E'; split_and!; try done.
    all: unfold cbuf_event_ok in *. 
    + simpl in *. by rewrite ev_unsignal_law, E'.
    + rewrite E'. change (event c1) with (event c). by rewrite Hev, E.
Qed.

(** the guard of C1 is needed.  With the tail at the start of the storage,
    writing one byte more than the free space reports every byte as written
    and leaves the buffer empty: the head wraps onto the tail. *)
Theorem cbuf_write_overrun c data resched :
  cbuf_ok c -> tail c = 0 ->
  0 < cbuf_space_avail c -> Z.of_nat (length data) = cbuf_space_avail c + 1 ->
  exists c', cbuf_write c data resched = Some (Z.of_nat (length data), c') /\
    cbuf_contents c' = [] /\ event c' = event c.
Proof.
  intros Hok Ht Hav Hlen. unfold cbuf_write. pose proof (size_bounds c Hok).
  rewrite space_avail_eq in Hlen by done. pose proof Hok as (Hn & Hl & Hh & _).
  assert (Hu : used c = head c) by (unfold used; zcases; lia).
  destruct (length data) as [|n] eqn:En; [rewrite space_avail_eq in Hav; lia|].
  assert (Hw : cbuf_size c - head c = Z.of_nat (length data)) by lia.
  destruct (blit (buf c) (Z.to_nat (head c)) data) as [b|] eqn:Hb;
    [|by rewrite blit_Some in Hb by lia].
  rewrite (write_loop_step (S n) c data 0 (Z.of_nat (length data)) b); [|lia|done| |lia|].
  2:{ rewrite (proj2 (Z.leb_le _ _)), valpow2_size by (done || lia).
      fold (cbuf_size c). rewrite u32_small by lia. lia. }
  2:{ rewrite Nat2Z.id, take_ge by lia. done. }
  rewrite Nat2Z.id, drop_ge, write_loop_nil by lia. pose proof (blit_length _ _ _ _ Hb).
  rewrite (inc_pointer_eq (set_buf c b)) by
    (repeat split; simpl; unfold cbuf_size in *; simpl in *; lia).
  change (cbuf_size (set_buf c b)) with (cbuf_size c).
  rewrite (proj2 (Z.ltb_ge _ _)) by lia. cbn [head tail set_head set_buf].
  rewrite (proj2 (Z.eqb_eq _ _)) by lia. rewrite En. cbn [negb].
  eexists. split; [done|]. split; [|done].
  unfold cbuf_contents, used. cbn [head tail set_head set_buf]. rewrite Ht.
  replace (head c + _ - _) with 0 by lia. done.
Qed.

Lemma ctz_pow2 k : 0 <= k < 32 -> log2_uint (2 ^ k) = k.
Proof.
  intros Hk.
  assert (Hall : forallb (fun i => log2_uint (2 ^ Z.of_nat i) =? Z.of_nat i) (seq 0 32) = true)
    by by vm_compute.
  rewrite forallb_forall in Hall. specialize (Hall (Z.to_nat k)).
  rewrite Z2Nat.id, Z.eqb_eq in Hall by lia. apply Hall, in_seq. lia.
Qed.

(** [cbuf_initialize_etc] on storage of a power-of-two length below 2^31
    establishes the invariant of the other operations, with an empty queue. *)
Theorem cbuf_initialize_spec w k storage :
  0 <= k < 31 -> Z.of_nat (length storage) = 2 ^ k ->
  let c := cbuf_initialize_etc w (2 ^ k) storage in
  cbuf_ok c /\ cbuf_event_ok c /\ cbuf_contents c = [] /\ cbuf_space_avail c = 2 ^ k - 1.
Proof.
  intros Hk Hl c. assert (Hb : 1 <= 2 ^ k < 2 ^ 31).
  { pose proof (Z.pow_pos_nonneg 2 k). split; [lia|]. apply Z.pow_lt_mono_r; lia. }
  assert (Hlp : len_pow2 c = k) by (simpl; rewrite u32_small by lia; apply ctz_pow2; lia).
  assert (Hsz : cbuf_size c = 2 ^ k) by (unfold cbuf_size; by rewrite Hlp).
  assert (Hok : cbuf_ok c) by (unfold cbuf_ok; rewrite Hsz, Hlp; simpl; lia).
  split; [done|]. split; [apply ev_init_law|]. split; [done|].
  rewrite space_avail_eq, Hsz by done. unfold used. simpl. lia.
Qed.

End cbuf.
Arguments cbuf : clear implicits.

(** ** Witnesses *)

(** Four bytes of storage holding the queue [2; 3]. *)
Definition cbuf_ex : cbuf bool := Cbuf 3 1 2 [1; 2; 3; 4] true.

Lemma cbuf_ex_ok : cbuf_ok cbuf_ex /\ cbuf_event_ok cbuf_ex.
Proof. repeat split; vm_compute; congruence. Qed.


Lemma cbuf_read_spec_witness :
  match cbuf_read cbuf_ex 1 true with
  | Blocked => true = true /\ cbuf_contents cbuf_ex = []
  | Done r => (true = true -> cbuf_contents cbuf_ex <> []) /\ exists c',
      r = Some (take (Z.to_nat 1) (cbuf_contents cbuf_ex), c') /\
      cbuf_contents c' = drop (Z.to_nat 1) (cbuf_contents cbuf_ex) /\
      cbuf_ok c' /\ cbuf_event_ok c'
  end.
Proof. apply (cbuf_read_spec cbuf_ex 1 true); [apply cbuf_ex_ok..|lia]. Defined.

Lemma cbuf_char_spec_witness :
  (exists n c', cbuf_write_char cbuf_ex 7 false = Some (n, c') /\
     cbuf_ok c' /\ cbuf_event_ok c' /\
     (if 0 <? cbuf_space_avail cbuf_ex
      then n = 1 /\ cbuf_contents c' = cbuf_contents cbuf_ex ++ [7]
      else n = 0 /\ c' = cbuf_ex)) /\
  (exists c', cbuf_read_char cbuf_ex false = DoneChar (Some (hd_error (cbuf_contents cbuf_ex), c')) /\
     cbuf_ok c' /\ cbuf_event_ok c' /\
     cbuf_contents c' = List.tl (cbuf_contents cbuf_ex)).
Proof. apply (cbuf_char_spec cbuf_ex 7 false); apply cbuf_ex_ok. Defined.

Lemma cbuf_write_overrun_witness :
  let c := Cbuf 0 0 2 [0; 0; 0; 0] false in
  exists c', cbuf_write c [1; 2; 3; 4] false = Some (Z.of_nat (length [1; 2; 3; 4]), c') /\
    cbuf_contents c' = [] /\ event c' = event c.
Proof.
  apply (cbuf_write_overrun (Cbuf 0 0 2 [0; 0; 0; 0] false) [1; 2; 3; 4] false);
    [|done..]. repeat split; vm_compute; congruence.
Defined.

Lemma cbuf_initialize_spec_witness :
  let c := cbuf_initialize_etc false (2 ^ 2) [0; 0; 0; 0] in
  cbuf_ok c /\ cbuf_event_ok c /\ cbuf_contents c = [] /\ cbuf_space_avail c = 2 ^ 2 - 1.
Proof. apply (cbuf_initialize_spec false 2 [0; 0; 0; 0]); [lia|done]. Defined.
