(* ===== verification/Kernel.v ===== *)
(** * Kernel state, critical sections and timer queue

    [kstate] gathers the globals of kernel/thread.c and kernel/timer.c together
    with the objects they point to: thread structures, wait queues, timers, and
    the mutexes, events and semaphores built on them, each by address.  Link
    fields live in the abstract [links] of [ListH].

    A context switch leaves the suspended thread in the middle of a call chain.
    That chain is the list of [frame]s saved with the thread; [Sched.run_frames]
    runs what is left of each call when the thread is switched to again.

    The configuration is the one cboot.mk and platform/tegra_shared build:
    [LK_DEBUGLEVEL] 2, so every [ASSERT] and [DEBUG_ASSERT] is live (a failed
    one is [None]), and a periodic platform timer
    ([PLATFORM_HAS_DYNAMIC_TIMER] unset). *)

From S2P Require Import Prelude ListH.

(** ** Data *)

Inductive thread_state : Type :=
| THREAD_SUSPENDED | THREAD_READY | THREAD_RUNNING
| THREAD_BLOCKED | THREAD_SLEEPING | THREAD_DEATH.
#[export] Instance thread_state_eq : EqDecision thread_state.
Proof. solve_decision. Defined.

Definition NUM_PRIORITIES : Z := 32.
Definition LOWEST_PRIORITY : Z := 0.
Definition HIGHEST_PRIORITY : Z := NUM_PRIORITIES - 1.
Definition IDLE_PRIORITY : Z := LOWEST_PRIORITY.

Definition THREAD_FLAG_DETACHED : Z := 1.
Definition THREAD_FLAG_FREE_STACK : Z := 2.
Definition THREAD_FLAG_FREE_STRUCT : Z := 4.

(** The multi-character constants 'thrd', 'wait', 'timr', 'mutx', 'evnt', 'sema'. *)
Definition THREAD_MAGIC : Z := 0x74687264.
Definition WAIT_QUEUE_MAGIC : Z := 0x77616974.
Definition TIMER_MAGIC : Z := 0x74696d72.
Definition MUTEX_MAGIC : Z := 0x6d757478.
Definition EVENT_MAGIC : Z := 0x65766e74.
Definition SEMAPHORE_MAGIC : Z := 0x73656d61.

(** Wait queues by the object that embeds them. *)
Inductive wqid : Type :=
| WQ_retcode (t : Z) | WQ_mutex (m : Z) | WQ_event (e : Z) | WQ_sem (s : Z).
#[export] Instance wqid_eq : EqDecision wqid.
Proof. solve_decision. Defined.

(** Timers: the one on the stack of a sleeping or blocking thread, or an object. *)
Inductive timer_id : Type := TM_stack (t : Z) | TM (n : Z).
#[export] Instance timer_id_eq : EqDecision timer_id.
Proof. solve_decision. Defined.

(** List heads and the link fields embedded in the structures. *)
Inductive khead : Type := H_run (p : Z) | H_threads | H_wait (w : wqid) | H_timer.
#[export] Instance khead_eq : EqDecision khead.
Proof. solve_decision. Defined.
Inductive knode : Type := N_queue (t : Z) | N_tlist (t : Z) | N_timer (x : timer_id).
#[export] Instance knode_eq : EqDecision knode.
Proof. solve_decision. Defined.

Inductive timer_callback : Type :=
| CB_thread_sleep (t : Z) | CB_wait_queue_timeout (t : Z) | CB_user (f : Z).

Record timer : Type := Timer {
  tm_magic : Z;
  scheduled_time : Z;
  periodic_time : Z;
  callback : option timer_callback;
}.

Record wait_queue : Type := WaitQueue { wq_magic : Z; wq_count : Z }.

(** What is left to run of a call that gave up the processor. *)
Inductive frame : Type :=
| F_initial                      (* initial_thread_func, up to the entry point *)
| F_exit                         (* thread_exit, past thread_resched *)
| F_yield | F_preempt | F_block | F_sleep | F_resume
| F_wq_block (timeout : Z)       (* wait_queue_block, past thread_block *)
| F_wake (ret : Z)               (* wait_queue_wake_one / _all, past thread_resched *)
| F_wq_destroy (w : wqid)
| F_join (t : Z) (want : bool)
| F_mutex_acquire (m : Z) | F_mutex_release | F_mutex_destroy
| F_event_wait | F_event_signal_auto (e : Z) | F_event_signal | F_event_destroy
| F_sem_wait | F_sem_post | F_sem_timedwait (s : Z) | F_sem_destroy
| F_irq                          (* platform_irq, past thread_preempt *)
| F_idle.                        (* thread_become_idle, past thread_yield *)

Record thread : Type := Thread {
  magic : Z;
  priority : Z;
  state : thread_state;
  saved_critical_section_count : Z;
  remaining_quantum : Z;
  flags : Z;
  blocking_wait_queue : option wqid;
  wait_queue_block_ret : Z;
  stack : option Z;
  stack_size : Z;
  entry : Z;
  arg : Z;
  retcode : Z;
  name : string;
  frames : list frame;           (* the suspended call chain *)
  retval : Z;                    (* the value the last call returned to the thread *)
  joined : option Z;             (* what thread_join stored through its retcode pointer *)
}.

Record mutex : Type := Mutex { m_magic : Z; holder : option Z; m_count : Z }.
Record event : Type := Event { e_magic : Z; signalled : bool; e_flags : Z }.
Record semaphore : Type := Semaphore { s_magic : Z; s_count : Z }.

(** A call of [free]: a thread structure or its stack. *)
Inductive freed_block : Type := Freed_struct (t : Z) | Freed_stack (t : Z).

(** Field updates of a thread structure. *)
Definition t_magic (v : Z) (t : thread) : thread :=
  Thread v (priority t) (state t) (saved_critical_section_count t) (remaining_quantum t)
    (flags t) (blocking_wait_queue t) (wait_queue_block_ret t) (stack t) (stack_size t)
    (entry t) (arg t) (retcode t) (name t) (frames t) (retval t) (joined t).
Definition t_priority (v : Z) (t : thread) : thread :=
  Thread (magic t) v (state t) (saved_critical_section_count t) (remaining_quantum t)
    (flags t) (blocking_wait_queue t) (wait_queue_block_ret t) (stack t) (stack_size t)
    (entry t) (arg t) (retcode t) (name t) (frames t) (retval t) (joined t).
Definition t_state (v : thread_state) (t : thread) : thread :=
  Thread (magic t) (priority t) v (saved_critical_section_count t) (remaining_quantum t)
    (flags t) (blocking_wait_queue t) (wait_queue_block_ret t) (stack t) (stack_size t)
    (entry t) (arg t) (retcode t) (name t) (frames t) (retval t) (joined t).
Definition t_saved (v : Z) (t : thread) : thread :=
  Thread (magic t) (priority t) (state t) v (remaining_quantum t) (flags t)
    (blocking_wait_queue t) (wait_queue_block_ret t) (stack t) (stack_size t) (entry t)
    (arg t) (retcode t) (name t) (frames t) (retval t) (joined t).
Definition t_quantum (v : Z) (t : thread) : thread :=
  Thread (magic t) (priority t) (state t) (saved_critical_section_count t) v (flags t)
    (blocking_wait_queue t) (wait_queue_block_ret t) (stack t) (stack_size t) (entry t)
    (arg t) (retcode t) (name t) (frames t) (retval t) (joined t).
Definition t_flags (v : Z) (t : thread) : thread :=
  Thread (magic t) (priority t) (state t) (saved_critical_section_count t)
    (remaining_quantum t) v (blocking_wait_queue t) (wait_queue_block_ret t) (stack t)
    (stack_size t) (entry t) (arg t) (retcode t) (name t) (frames t) (retval t) (joined
    t).
Definition t_bwq (v : option wqid) (t : thread) : thread :=
  Thread (magic t) (priority t) (state t) (saved_critical_section_count t)
    (remaining_quantum t) (flags t) v (wait_queue_block_ret t) (stack t) (stack_size t)
    (entry t) (arg t) (retcode t) (name t) (frames t) (retval t) (joined t).
Definition t_bret (v : Z) (t : thread) : thread :=
  Thread (magic t) (priority t) (state t) (saved_critical_section_count t)
    (remaining_quantum t) (flags t) (blocking_wait_queue t) v (stack t) (stack_size t)
    (entry t) (arg t) (retcode t) (name t) (frames t) (retval t) (joined t).
Definition t_retcode (v : Z) (t : thread) : thread :=
  Thread (magic t) (priority t) (state t) (saved_critical_section_count t)
    (remaining_quantum t) (flags t) (blocking_wait_queue t) (wait_queue_block_ret t)
    (stack t) (stack_size t) (entry t) (arg t) v (name t) (frames t) (retval t) (joined
    t).
Definition t_name (v : string) (t : thread) : thread :=
  Thread (magic t) (priority t) (state t) (saved_critical_section_count t)
    (remaining_quantum t) (flags t) (blocking_wait_queue t) (wait_queue_block_ret t)
    (stack t) (stack_size t) (entry t) (arg t) (retcode t) v (frames t) (retval t) (joined
    t).
Definition t_frames (v : list frame) (t : thread) : thread :=
  Thread (magic t) (priority t) (state t) (saved_critical_section_count t)
    (remaining_quantum t) (flags t) (blocking_wait_queue t) (wait_queue_block_ret t)
    (stack t) (stack_size t) (entry t) (arg t) (retcode t) (name t) v (retval t) (joined
    t).
Definition t_retval (v : Z) (t : thread) : thread :=
  Thread (magic t) (priority t) (state t) (saved_critical_section_count t)
    (remaining_quantum t) (flags t) (blocking_wait_queue t) (wait_queue_block_ret t)
    (stack t) (stack_size t) (entry t) (arg t) (retcode t) (name t) (frames t) v (joined
    t).
Definition t_joined (v : option Z) (t : thread) : thread :=
  Thread (magic t) (priority t) (state t) (saved_critical_section_count t)
    (remaining_quantum t) (flags t) (blocking_wait_queue t) (wait_queue_block_ret t)
    (stack t) (stack_size t) (entry t) (arg t) (retcode t) (name t) (frames t) (retval t)
    v.

Open Scope lk_scope.

Section kernel.
Context {LO : ListOps knode khead}.

Record kstate : Type := KState {
  lnk : links;
  thr : Z -> thread;
  wqs : wqid -> wait_queue;
  tmr : timer_id -> timer;
  mtx : Z -> mutex;
  evt : Z -> event;
  sem : Z -> semaphore;
  current_thread : Z;
  idle_thread : option Z;
  run_queue_bitmap : Z;
  critical_section_count : Z;
  ints_enabled : bool;
  current_time : Z;
  freed : list freed_block;
}.

Definition set_lnk (v : links) (s : kstate) : kstate :=
  KState v (thr s) (wqs s) (tmr s) (mtx s) (evt s) (sem s) (current_thread s) (idle_thread
    s) (run_queue_bitmap s) (critical_section_count s) (ints_enabled s) (current_time s)
    (freed s).
Definition set_thrs (v : Z -> thread) (s : kstate) : kstate :=
  KState (lnk s) v (wqs s) (tmr s) (mtx s) (evt s) (sem s) (current_thread s) (idle_thread
    s) (run_queue_bitmap s) (critical_section_count s) (ints_enabled s) (current_time s)
    (freed s).
Definition set_wqs (v : wqid -> wait_queue) (s : kstate) : kstate :=
  KState (lnk s) (thr s) v (tmr s) (mtx s) (evt s) (sem s) (current_thread s) (idle_thread
    s) (run_queue_bitmap s) (critical_section_count s) (ints_enabled s) (current_time s)
    (freed s).
Definition set_tmrs (v : timer_id -> timer) (s : kstate) : kstate :=
  KState (lnk s) (thr s) (wqs s) v (mtx s) (evt s) (sem s) (current_thread s) (idle_thread
    s) (run_queue_bitmap s) (critical_section_count s) (ints_enabled s) (current_time s)
    (freed s).
Definition set_mtxs (v : Z -> mutex) (s : kstate) : kstate :=
  KState (lnk s) (thr s) (wqs s) (tmr s) v (evt s) (sem s) (current_thread s) (idle_thread
    s) (run_queue_bitmap s) (critical_section_count s) (ints_enabled s) (current_time s)
    (freed s).
Definition set_evts (v : Z -> event) (s : kstate) : kstate :=
  KState (lnk s) (thr s) (wqs s) (tmr s) (mtx s) v (sem s) (current_thread s) (idle_thread
    s) (run_queue_bitmap s) (critical_section_count s) (ints_enabled s) (current_time s)
    (freed s).
Definition set_sems (v : Z -> semaphore) (s : kstate) : kstate :=
  KState (lnk s) (thr s) (wqs s) (tmr s) (mtx s) (evt s) v (current_thread s) (idle_thread
    s) (run_queue_bitmap s) (critical_section_count s) (ints_enabled s) (current_time s)
    (freed s).
Definition set_current (v : Z) (s : kstate) : kstate :=
  KState (lnk s) (thr s) (wqs s) (tmr s) (mtx s) (evt s) (sem s) v (idle_thread s)
    (run_queue_bitmap s) (critical_section_count s) (ints_enabled s) (current_time s)
    (freed s).
Definition set_idle (v : option Z) (s : kstate) : kstate :=
  KState (lnk s) (thr s) (wqs s) (tmr s) (mtx s) (evt s) (sem s) (current_thread s) v
    (run_queue_bitmap s) (critical_section_count s) (ints_enabled s) (current_time s)
    (freed s).
Definition set_bitmap (v : Z) (s : kstate) : kstate :=
  KState (lnk s) (thr s) (wqs s) (tmr s) (mtx s) (evt s) (sem s) (current_thread s)
    (idle_thread s) v (critical_section_count s) (ints_enabled s) (current_time s) (freed
    s).
Definition set_crit (v : Z) (s : kstate) : kstate :=
  KState (lnk s) (thr s) (wqs s) (tmr s) (mtx s) (evt s) (sem s) (current_thread s)
    (idle_thread s) (run_queue_bitmap s) v (ints_enabled s) (current_time s) (freed s).
Definition set_ints (v : bool) (s : kstate) : kstate :=
  KState (lnk s) (thr s) (wqs s) (tmr s) (mtx s) (evt s) (sem s) (current_thread s)
    (idle_thread s) (run_queue_bitmap s) (critical_section_count s) v (current_time s)
    (freed s).
Definition set_time (v : Z) (s : kstate) : kstate :=
  KState (lnk s) (thr s) (wqs s) (tmr s) (mtx s) (evt s) (sem s) (current_thread s)
    (idle_thread s) (run_queue_bitmap s) (critical_section_count s) (ints_enabled s) v
    (freed s).
Definition set_freed (v : list freed_block) (s : kstate) : kstate :=
  KState (lnk s) (thr s) (wqs s) (tmr s) (mtx s) (evt s) (sem s) (current_thread s)
    (idle_thread s) (run_queue_bitmap s) (critical_section_count s) (ints_enabled s)
    (current_time s) v.

(** [t->field = v], [w->field = v], ... *)
Definition set_thr (t : Z) (f : thread -> thread) (s : kstate) : kstate :=
  set_thrs (upd (thr s) t (f (thr s t))) s.
Definition set_wq (w : wqid) (v : wait_queue) (s : kstate) : kstate :=
  set_wqs (upd (wqs s) w v) s.
Definition set_tmr (x : timer_id) (v : timer) (s : kstate) : kstate :=
  set_tmrs (upd (tmr s) x v) s.
Definition set_mtx (m : Z) (v : mutex) (s : kstate) : kstate :=
  set_mtxs (upd (mtx s) m v) s.
Definition set_evt (e : Z) (v : event) (s : kstate) : kstate :=
  set_evts (upd (evt s) e v) s.
Definition set_sem (x : Z) (v : semaphore) (s : kstate) : kstate :=
  set_sems (upd (sem s) x v) s.

(** ** include/kernel/thread.h: critical sections *)

Definition in_critical_section (s : kstate) : bool := 0 <? critical_section_count s.

Definition enter_critical_section : M kstate unit :=
  modify (fun s =>
    let s := if critical_section_count s =? 0 then set_ints false s else s in
    set_crit (critical_section_count s + 1) s).

Definition exit_critical_section : M kstate unit :=
  modify (fun s =>
    let s := set_crit (critical_section_count s - 1) s in
    if critical_section_count s =? 0 then set_ints true s else s).

Definition inc_critical_section : M kstate unit :=
  modify (fun s => set_crit (critical_section_count s + 1) s).
Definition dec_critical_section : M kstate unit :=
  modify (fun s => set_crit (critical_section_count s - 1) s).

(** ** include/sys/types.h: modular time *)

Definition INFINITE_TIME : Z := 2 ^ 64 - 1.
Definition TIME_GT (a b : Z) : bool := 0 <? s64 (a - b).
Definition TIME_LT (a b : Z) : bool := s64 (a - b) <? 0.

(** ** kernel/timer.c, up to the tick *)

Definition timer_initial_value : timer := Timer TIMER_MAGIC 0 0 None.

(** The link field is cleared as well; doing that to a queued timer would break
    the queue, so it is [None]. *)
Definition timer_initialize (x : timer_id) : M kstate unit :=
  let* queued := gets (fun s => list_in_list (lnk s) (N_timer x)) in
  assert_ (negb queued) ;;;
  modify (set_tmr x timer_initial_value).

Definition timer_of_node (n : knode) : option timer_id :=
  match n with N_timer x => Some x | _ => None end.

(** The [list_for_every_entry] loop of [insert_timer_in_queue]: the entry the
    new timer goes in front of. *)
Fixpoint timer_scan (tm : timer_id -> timer) (t : Z) (es : list knode)
    : option (option timer_id) :=
  match es with
  | [] => Some None
  | n :: es' =>
    match timer_of_node n with
    | None => None
    | Some e =>
      if TIME_GT (scheduled_time (tm e)) t then Some (Some e) else timer_scan tm t es'
    end
  end.

Definition insert_timer_in_queue (x : timer_id) : M kstate unit :=
  let* pos := getopt (fun s =>
    timer_scan (tmr s) (scheduled_time (tmr s x)) (contents (lnk s) H_timer)) in
  match pos with
  | Some e => modify (fun s => set_lnk (list_add_before (N_timer e) (N_timer x) (lnk s)) s)
  | None => modify (fun s => set_lnk (list_add_tail H_timer (N_timer x) (lnk s)) s)
  end.

Definition timer_set (x : timer_id) (delay period : Z) (cb : timer_callback)
    : M kstate unit :=
  let* m := gets (fun s => tm_magic (tmr s x)) in
  assert_ (m =? TIMER_MAGIC) ;;;
  let* queued := gets (fun s => list_in_list (lnk s) (N_timer x)) in
  assert_ (negb queued) ;;;
  let* now := gets current_time in
  modify (set_tmr x (Timer m (u64 (now + delay)) period (Some cb))) ;;;
  enter_critical_section ;;;
  insert_timer_in_queue x ;;;
  exit_critical_section.

Definition timer_set_oneshot (x : timer_id) (delay : Z) (cb : timer_callback)
    : M kstate unit :=
  timer_set x (if delay =? 0 then 1 else delay) 0 cb.

Definition timer_set_periodic (x : timer_id) (period : Z) (cb : timer_callback)
    : M kstate unit :=
  let period := if period =? 0 then 1 else period in
  timer_set x period period cb.

Definition timer_cancel (x : timer_id) : M kstate unit :=
  let* m := gets (fun s => tm_magic (tmr s x)) in
  assert_ (m =? TIMER_MAGIC) ;;;
  enter_critical_section ;;;
  let* queued := gets (fun s => list_in_list (lnk s) (N_timer x)) in
  when queued do modify (fun s => set_lnk (list_delete (N_timer x) (lnk s)) s) ;;;
  modify (fun s => set_tmr x (Timer m (scheduled_time (tmr s x)) 0 None) s) ;;;
  exit_critical_section.

End kernel.
