(* ===== verification/Sched.v ===== *)
(** * kernel/thread.c: threads, the scheduler and wait queues

    One definition per function, in the order of the file.  A function that can
    give up the processor takes the frames [k] of its callers: it ends either
    by running them (it returned) or by storing them with the current thread
    and running those of the thread it switched to. *)

From S2P Require Import Prelude ListH Kernel.

Open Scope lk_scope.

Section sched.
Context {LO : ListOps knode khead}.

Definition cur (s : kstate) : thread := thr s (current_thread s).
Definition set_cur (f : thread -> thread) (s : kstate) : kstate :=
  set_thr (current_thread s) f s.

(** ** Returning through suspended frames *)

(** [thread_join] past the wait. *)
Definition thread_join_tail (t : Z) (want : bool) : M kstate Z :=
  let* th := gets (fun s => thr s t) in
  assert_ (magic th =? THREAD_MAGIC) ;;;
  assert_ (bool_decide (state th = THREAD_DEATH)) ;;;
  assert_ (bool_decide (blocking_wait_queue th = None)) ;;;
  let* queued := gets (fun s => list_in_list (lnk s) (N_queue t)) in
  assert_ (negb queued) ;;;
  when want do modify (set_cur (t_joined (Some (retcode th)))) ;;;
  modify (fun s => set_lnk (list_delete (N_tlist t) (lnk s)) s) ;;;
  modify (set_thr t (t_magic 0)) ;;;
  exit_critical_section ;;;
  when negb (Z.land (flags th) THREAD_FLAG_FREE_STACK =? 0) && bool_decide (is_Some (stack th))
    do modify (fun s => set_freed (Freed_stack t :: freed s) s) ;;;
  when negb (Z.land (flags th) THREAD_FLAG_FREE_STRUCT =? 0)
    do modify (fun s => set_freed (Freed_struct t :: freed s) s) ;;;
  ret NO_ERROR.

(** What is left of each call once the processor is back; [v] is the value the
    call it was waiting for returned. *)
Definition run_frame (f : frame) (v : Z) : M kstate Z :=
  match f with
  | F_initial => exit_critical_section ;;; ret v
  | F_exit => panic
  | F_yield | F_preempt | F_block | F_sleep => exit_critical_section ;;; ret v
  | F_resume => exit_critical_section ;;; ret NO_ERROR
  | F_wq_block timeout =>
    let* t := gets current_thread in
    when negb (timeout =? INFINITE_TIME) do timer_cancel (TM_stack t) ;;;
    gets (fun s => wait_queue_block_ret (cur s))
  | F_wake r => ret r
  | F_wq_destroy w =>
    modify (fun s => set_wq w (WaitQueue 0 (wq_count (wqs s w))) s) ;;; ret v
  | F_join t want =>
    if v <? 0 then exit_critical_section ;;; ret v else thread_join_tail t want
  | F_mutex_acquire m =>
    (if v <? NO_ERROR then
       when v =? ERR_TIMED_OUT do
         modify (fun s => set_mtx m (Mutex (m_magic (mtx s m)) (holder (mtx s m))
                                           (m_count (mtx s m) - 1)) s)
     else
       modify (fun s => set_mtx m (Mutex (m_magic (mtx s m)) (Some (current_thread s))
                                         (m_count (mtx s m))) s)) ;;;
    exit_critical_section ;;; ret v
  | F_mutex_release => exit_critical_section ;;; ret NO_ERROR
  | F_mutex_destroy => exit_critical_section ;;; ret v
  | F_event_wait => exit_critical_section ;;; ret v
  | F_event_signal_auto e =>
    when v <=? 0 do
      modify (fun s => set_evt e (Event (e_magic (evt s e)) true (e_flags (evt s e))) s) ;;;
    exit_critical_section ;;; ret NO_ERROR
  | F_event_signal => exit_critical_section ;;; ret NO_ERROR
  | F_event_destroy => exit_critical_section ;;; ret v
  | F_sem_wait => exit_critical_section ;;; ret v
  | F_sem_post => exit_critical_section ;;; ret NO_ERROR
  | F_sem_timedwait x =>
    when (v <? NO_ERROR) && (v =? ERR_TIMED_OUT) do
      modify (fun s => set_sem x (Semaphore (s_magic (sem s x)) (s_count (sem s x) + 1)) s) ;;;
    exit_critical_section ;;; ret v
  | F_sem_destroy => exit_critical_section ;;; ret v
  | F_irq =>   (* the interrupted code keeps its registers *)
    dec_critical_section ;;; modify (set_ints true) ;;; gets (fun s => retval (cur s))
  | F_idle => ret v
  end.

Fixpoint run_frames (k : list frame) (v : Z) : M kstate unit :=
  match k with
  | [] => modify (set_cur (t_retval v))
  | f :: k' => let* v' := run_frame f v in run_frames k' v'
  end.

(** ** Run queue *)

Definition insert_in_run_queue (add : khead -> knode -> links -> links) (t : Z)
    : M kstate unit :=
  let* th := gets (fun s => thr s t) in
  assert_ (magic th =? THREAD_MAGIC) ;;;
  assert_ (bool_decide (state th = THREAD_READY)) ;;;
  let* queued := gets (fun s => list_in_list (lnk s) (N_queue t)) in
  assert_ (negb queued) ;;;
  let* c := gets in_critical_section in
  assert_ c ;;;
  (* run_queue[t->priority] *)
  assert_ ((0 <=? priority th) && (priority th <? NUM_PRIORITIES)) ;;;
  modify (fun s => set_lnk (add (H_run (priority th)) (N_queue t) (lnk s)) s) ;;;
  modify (fun s =>
    set_bitmap (Z.lor (run_queue_bitmap s) (u32 (Z.shiftl 1 (priority th)))) s).

Definition insert_in_run_queue_head : Z -> M kstate unit := insert_in_run_queue list_add_head.
Definition insert_in_run_queue_tail : Z -> M kstate unit := insert_in_run_queue list_add_tail.

(** [__builtin_clz] of a nonzero 32-bit value. *)
Definition builtin_clz (x : Z) : Z := 31 - Z.log2 x.

Definition queue_thread (n : knode) : option Z :=
  match n with N_queue t => Some t | _ => None end.

(** [list_remove_head_type(h, thread_t, queue_node)]. *)
Definition remove_head_thread (h : khead) : M kstate (option Z) :=
  let* l := gets lnk in
  let '(n, l') := list_remove_head h l in
  modify (set_lnk l') ;;;
  match n with
  | None => ret None
  | Some n => let* t := getopt (fun _ => queue_thread n) in ret (Some t)
  end.

(** The switch itself: [arch_context_switch] saves the frames of the old thread
    and goes on with those of the new one. *)
Definition context_switch (oldthread newthread : Z) (k : list frame) : M kstate unit :=
  modify (fun s => set_thr oldthread (t_saved (critical_section_count s)) s) ;;;
  modify (set_thr oldthread (t_frames k)) ;;;
  modify (set_current newthread) ;;;
  modify (fun s => set_crit (saved_critical_section_count (thr s newthread)) s) ;;;
  let* fs := gets (fun s => frames (thr s newthread)) in
  modify (set_thr newthread (t_frames [])) ;;;
  run_frames fs NO_ERROR.

Definition thread_resched (k : list frame) : M kstate unit :=
  let* c := gets in_critical_section in
  assert_ c ;;;
  let* oldthread := gets current_thread in
  assert_ (NUM_PRIORITIES <=? 32) ;;;
  let* bitmap := gets run_queue_bitmap in
  assert_ (negb (bitmap =? 0)) ;;;
  let next_queue := HIGHEST_PRIORITY - builtin_clz bitmap - (32 - NUM_PRIORITIES) in
  let* t := remove_head_thread (H_run next_queue) in
  let* e := gets (fun s => list_is_empty (lnk s) (H_run next_queue)) in
  when e do
    modify (fun s => set_bitmap (Z.land (run_queue_bitmap s)
                                        (u32 (Z.lnot (Z.shiftl 1 next_queue)))) s) ;;;
  match t with
  | None => panic
  | Some newthread =>
    modify (set_thr newthread (t_state THREAD_RUNNING)) ;;;
    if newthread =? oldthread then run_frames k NO_ERROR
    else
      let* q := gets (fun s => remaining_quantum (thr s newthread)) in
      when q <=? 0 do modify (set_thr newthread (t_quantum 5)) ;;;
      let* c := gets in_critical_section in
      assert_ c ;;;
      let* saved := gets (fun s => saved_critical_section_count (thr s newthread)) in
      assert_ (0 <? saved) ;;;
      context_switch oldthread newthread k
  end.

(** [ASSERT(current_thread->magic == THREAD_MAGIC); ASSERT(current_thread->state == st)] *)
Definition check_current (st : thread_state) : M kstate unit :=
  let* th := gets cur in
  assert_ (magic th =? THREAD_MAGIC) ;;;
  assert_ (bool_decide (state th = st)).

Definition thread_yield (k : list frame) : M kstate unit :=
  check_current THREAD_RUNNING ;;;
  enter_critical_section ;;;
  modify (set_cur (t_state THREAD_READY)) ;;;
  modify (set_cur (t_quantum 0)) ;;;
  let* t := gets current_thread in
  insert_in_run_queue_tail t ;;;
  thread_resched (F_yield :: k).

Definition thread_preempt (k : list frame) : M kstate unit :=
  check_current THREAD_RUNNING ;;;
  enter_critical_section ;;;
  modify (set_cur (t_state THREAD_READY)) ;;;
  let* t := gets current_thread in
  let* q := gets (fun s => remaining_quantum (cur s)) in
  (if 0 <? q then insert_in_run_queue_head t else insert_in_run_queue_tail t) ;;;
  thread_resched (F_preempt :: k).

Definition thread_block (k : list frame) : M kstate unit :=
  check_current THREAD_BLOCKED ;;;
  enter_critical_section ;;;
  thread_resched (F_block :: k).

(** [true] is [INT_RESCHEDULE]. *)
Definition thread_timer_tick : M kstate bool :=
  let* t := gets current_thread in
  let* i := gets idle_thread in
  if bool_decide (i = Some t) then ret false
  else
    modify (set_cur (fun th => t_quantum (remaining_quantum th - 1) th)) ;;;
    gets (fun s => remaining_quantum (cur s) <=? 0).

Definition thread_sleep_handler (t : Z) : M kstate bool :=
  let* th := gets (fun s => thr s t) in
  assert_ (magic th =? THREAD_MAGIC) ;;;
  assert_ (bool_decide (state th = THREAD_SLEEPING)) ;;;
  modify (set_thr t (t_state THREAD_READY)) ;;;
  insert_in_run_queue_head t ;;;
  ret true.

Definition thread_sleep (delay : Z) (k : list frame) : M kstate unit :=
  check_current THREAD_RUNNING ;;;
  let* t := gets current_thread in
  timer_initialize (TM_stack t) ;;;
  enter_critical_section ;;;
  timer_set_oneshot (TM_stack t) delay (CB_thread_sleep t) ;;;
  modify (set_cur (t_state THREAD_SLEEPING)) ;;;
  thread_resched (F_sleep :: k).

(** ** Wait queues *)

Definition check_wait_queue (w : wqid) : M kstate unit :=
  let* q := gets (fun s => wqs s w) in
  assert_ (wq_magic q =? WAIT_QUEUE_MAGIC) ;;;
  let* c := gets in_critical_section in
  assert_ c.

(** [wait->count += d] *)
Definition wq_add (w : wqid) (d : Z) : M kstate unit :=
  modify (fun s => set_wq w (WaitQueue (wq_magic (wqs s w)) (wq_count (wqs s w) + d)) s).

(** The list head is initialised as well; doing that to a head with nodes on it
    would lose them, so it is [None]. *)
Definition wait_queue_init (w : wqid) : M kstate unit :=
  let* e := gets (fun s => list_is_empty (lnk s) (H_wait w)) in
  assert_ e ;;;
  modify (set_wq w (WaitQueue WAIT_QUEUE_MAGIC 0)).

Definition wait_queue_block (w : wqid) (timeout : Z) (k : list frame) : M kstate unit :=
  let* q := gets (fun s => wqs s w) in
  assert_ (wq_magic q =? WAIT_QUEUE_MAGIC) ;;;
  let* th := gets cur in
  assert_ (bool_decide (state th = THREAD_RUNNING)) ;;;
  let* c := gets in_critical_section in
  assert_ c ;;;
  if timeout =? 0 then run_frames k ERR_TIMED_OUT
  else
    let* t := gets current_thread in
    modify (fun s => set_lnk (list_add_tail (H_wait w) (N_queue t) (lnk s)) s) ;;;
    wq_add w 1 ;;;
    modify (set_cur (t_state THREAD_BLOCKED)) ;;;
    modify (set_cur (t_bwq (Some w))) ;;;
    modify (set_cur (t_bret NO_ERROR)) ;;;
    when negb (timeout =? INFINITE_TIME) do
      (timer_initialize (TM_stack t) ;;;
       timer_set_oneshot (TM_stack t) timeout (CB_wait_queue_timeout t)) ;;;
    thread_block (F_wq_block timeout :: k).

(** [t->state = THREAD_READY; t->wait_queue_block_ret = err;
    t->blocking_wait_queue = NULL] on a thread just taken off [w]. *)
Definition wake_thread (w : wqid) (t err : Z) : M kstate unit :=
  wq_add w (-1) ;;;
  let* th := gets (fun s => thr s t) in
  assert_ (bool_decide (state th = THREAD_BLOCKED)) ;;;
  modify (set_thr t (t_state THREAD_READY)) ;;;
  modify (set_thr t (t_bret err)) ;;;
  modify (set_thr t (t_bwq None)).

(** [current_thread->state = THREAD_READY; insert_in_run_queue_head(current_thread)] *)
Definition requeue_current : M kstate unit :=
  modify (set_cur (t_state THREAD_READY)) ;;;
  let* c := gets current_thread in
  insert_in_run_queue_head c.

Definition wait_queue_wake_one (w : wqid) (reschedule : bool) (err : Z) (k : list frame)
    : M kstate unit :=
  check_wait_queue w ;;;
  let* t := remove_head_thread (H_wait w) in
  match t with
  | None => run_frames k 0
  | Some t =>
    wake_thread w t err ;;;
    when reschedule do requeue_current ;;;
    insert_in_run_queue_head t ;;;
    if reschedule then thread_resched (F_wake 1 :: k) else run_frames k 1
  end.

(** The [while] loop of [wait_queue_wake_all]; returns how many it woke. *)
Fixpoint wake_loop (fuel : nat) (w : wqid) (err n : Z) : M kstate Z :=
  match fuel with
  | O => panic
  | S f =>
    let* t := remove_head_thread (H_wait w) in
    match t with
    | None => ret n
    | Some t =>
      wake_thread w t err ;;;
      insert_in_run_queue_head t ;;;
      wake_loop f w err (n + 1)
    end
  end.

Definition wait_queue_wake_all (w : wqid) (reschedule : bool) (err : Z) (k : list frame)
    : M kstate unit :=
  check_wait_queue w ;;;
  let* cnt := gets (fun s => wq_count (wqs s w)) in
  when reschedule && (0 <? cnt) do requeue_current ;;;
  let* waiting := gets (fun s => contents (lnk s) (H_wait w)) in
  let* n := wake_loop (S (length waiting)) w err 0 in
  let* cnt := gets (fun s => wq_count (wqs s w)) in
  assert_ (cnt =? 0) ;;;
  if reschedule && (0 <? n) then thread_resched (F_wake n :: k) else run_frames k n.

Definition wait_queue_destroy (w : wqid) (reschedule : bool) (k : list frame) : M kstate unit :=
  check_wait_queue w ;;;
  wait_queue_wake_all w reschedule ERR_OBJECT_DESTROYED (F_wq_destroy w :: k).

Definition thread_unblock_from_wait_queue (t err : Z) : M kstate Z :=
  let* c := gets in_critical_section in
  assert_ c ;;;
  let* th := gets (fun s => thr s t) in
  assert_ (magic th =? THREAD_MAGIC) ;;;
  if negb (bool_decide (state th = THREAD_BLOCKED)) then ret ERR_NOT_BLOCKED
  else
    let* w := getopt (fun _ => blocking_wait_queue th) in
    let* q := gets (fun s => wqs s w) in
    assert_ (wq_magic q =? WAIT_QUEUE_MAGIC) ;;;
    let* queued := gets (fun s => list_in_list (lnk s) (N_queue t)) in
    assert_ queued ;;;
    modify (fun s => set_lnk (list_delete (N_queue t) (lnk s)) s) ;;;
    wq_add w (-1) ;;;
    modify (set_thr t (t_bwq None)) ;;;
    modify (set_thr t (t_state THREAD_READY)) ;;;
    modify (set_thr t (t_bret err)) ;;;
    insert_in_run_queue_head t ;;;
    ret NO_ERROR.

Definition wait_queue_timeout_handler (t : Z) : M kstate bool :=
  let* th := gets (fun s => thr s t) in
  assert_ (magic th =? THREAD_MAGIC) ;;;
  let* r := thread_unblock_from_wait_queue t ERR_TIMED_OUT in
  ret (NO_ERROR <=? r).

(** ** Thread life cycle *)

(** The structure is cleared, its link fields included; clearing the links of a
    queued thread would break that queue, so it is [None]. *)
Definition init_thread_struct (t : Z) (nm : string) : M kstate unit :=
  let* q := gets (fun s => list_in_list (lnk s) (N_queue t)) in
  let* l := gets (fun s => list_in_list (lnk s) (N_tlist t)) in
  assert_ (negb q && negb l) ;;;
  modify (set_thr t (fun _ =>
    Thread THREAD_MAGIC 0 THREAD_SUSPENDED 0 0 0 None 0 None 0 0 0 0
           (String.substring 0 31 nm) [] 0 None)).

(** [malloc_struct] and [malloc_stack] are what the two [malloc] calls return. *)
Definition thread_create_etc (malloc_struct malloc_stack : option Z)
    (t : option Z) (nm : string) (entry arg priority : Z) (stack : option Z) (stack_size : Z)
    : M kstate (option Z) :=
  let '(t, fl) := match t with
                  | Some t => (Some t, 0)
                  | None => (malloc_struct, THREAD_FLAG_FREE_STRUCT)
                  end in
  match t with
  | None => ret None
  | Some t =>
    init_thread_struct t nm ;;;
    wait_queue_init (WQ_retcode t) ;;;
    let stk := match stack with Some _ => None | None => malloc_stack end in
    let failed := bool_decide (stack = None) && bool_decide (malloc_stack = None) in
    let fl' := match stack with Some _ => fl | None => Z.lor fl THREAD_FLAG_FREE_STACK end in
    modify (set_thr t (fun th =>
      Thread (magic th) priority THREAD_SUSPENDED 1 (remaining_quantum th)
             (if failed then flags th else fl')
             None NO_ERROR stk (if failed then 0 else stack_size) entry arg 0 (name th)
             (if failed then [] else [F_initial]) (retval th) (joined th))) ;;;
    if failed then
      when negb (Z.land fl THREAD_FLAG_FREE_STRUCT =? 0)
        do modify (fun s => set_freed (Freed_struct t :: freed s) s) ;;;
      ret None
    else
      enter_critical_section ;;;
      modify (fun s => set_lnk (list_add_head H_threads (N_tlist t) (lnk s)) s) ;;;
      exit_critical_section ;;;
      ret (Some t)
  end.

Definition thread_create (malloc_struct malloc_stack : option Z)
    (nm : string) (entry arg priority stack_size : Z) : M kstate (option Z) :=
  thread_create_etc malloc_struct malloc_stack None nm entry arg priority None stack_size.

Definition thread_resume (t : Z) (k : list frame) : M kstate unit :=
  let* th := gets (fun s => thr s t) in
  assert_ (magic th =? THREAD_MAGIC) ;;;
  assert_ (negb (bool_decide (state th = THREAD_DEATH))) ;;;
  enter_critical_section ;;;
  if bool_decide (state th = THREAD_SUSPENDED) then
    modify (set_thr t (t_state THREAD_READY)) ;;;
    insert_in_run_queue_head t ;;;
    thread_yield (F_resume :: k)
  else run_frames (F_resume :: k) NO_ERROR.

Definition thread_join (t : Z) (want : bool) (timeout : Z) (k : list frame) : M kstate unit :=
  let* th := gets (fun s => thr s t) in
  assert_ (magic th =? THREAD_MAGIC) ;;;
  enter_critical_section ;;;
  if negb (Z.land (flags th) THREAD_FLAG_DETACHED =? 0) then
    exit_critical_section ;;; run_frames k ERR_THREAD_DETACHED
  else if negb (bool_decide (state th = THREAD_DEATH)) then
    wait_queue_block (WQ_retcode t) timeout (F_join t want :: k)
  else run_frames (F_join t want :: k) NO_ERROR.

Definition thread_detach (t : Z) (k : list frame) : M kstate unit :=
  let* th := gets (fun s => thr s t) in
  assert_ (magic th =? THREAD_MAGIC) ;;;
  enter_critical_section ;;;
  wait_queue_wake_all (WQ_retcode t) false ERR_THREAD_DETACHED [] ;;;
  let* th := gets (fun s => thr s t) in
  if bool_decide (state th = THREAD_DEATH) then
    modify (set_thr t (t_flags (Z.land (flags th) (u32 (Z.lnot THREAD_FLAG_DETACHED))))) ;;;
    exit_critical_section ;;;
    thread_join t false 0 k
  else
    modify (set_thr t (t_flags (Z.lor (flags th) THREAD_FLAG_DETACHED))) ;;;
    exit_critical_section ;;;
    run_frames k NO_ERROR.

(** [thread_detach] never gives up the processor: its result is in [retval]. *)
Definition thread_detach_and_resume (t : Z) (k : list frame) : M kstate unit :=
  thread_detach t [] ;;;
  let* err := gets (fun s => retval (cur s)) in
  if err <? 0 then run_frames k err else thread_resume t k.

Definition thread_exit (rc : Z) : M kstate unit :=
  check_current THREAD_RUNNING ;;;
  enter_critical_section ;;;
  modify (set_cur (t_state THREAD_DEATH)) ;;;
  modify (set_cur (t_retcode rc)) ;;;
  let* t := gets current_thread in
  let* th := gets cur in
  (if negb (Z.land (flags th) THREAD_FLAG_DETACHED =? 0) then
     modify (fun s => set_lnk (list_delete (N_tlist t) (lnk s)) s) ;;;
     modify (set_cur (t_magic 0)) ;;;
     when negb (Z.land (flags th) THREAD_FLAG_FREE_STACK =? 0) && bool_decide (is_Some (stack th))
       do modify (fun s => set_freed (Freed_stack t :: freed s) s) ;;;
     when negb (Z.land (flags th) THREAD_FLAG_FREE_STRUCT =? 0)
       do modify (fun s => set_freed (Freed_struct t :: freed s) s)
   else
     wait_queue_wake_all (WQ_retcode t) false 0 []) ;;;
  thread_resched [F_exit].

(** ** Boot *)

Definition thread_init_early (bootstrap_thread : Z) : M kstate unit :=
  init_thread_struct bootstrap_thread "bootstrap" ;;;
  wait_queue_init (WQ_retcode bootstrap_thread) ;;;
  modify (set_thr bootstrap_thread (fun th =>
    t_flags THREAD_FLAG_DETACHED (t_saved 1 (t_state THREAD_RUNNING
      (t_priority HIGHEST_PRIORITY th))))) ;;;
  modify (fun s => set_lnk (list_add_head H_threads (N_tlist bootstrap_thread) (lnk s)) s) ;;;
  modify (set_current bootstrap_thread).

Definition thread_set_name (nm : string) : M kstate unit :=
  modify (set_cur (t_name (String.substring 0 31 nm))).

Definition thread_set_priority (p : Z) : M kstate unit :=
  let p := if p <? LOWEST_PRIORITY then LOWEST_PRIORITY else p in
  let p := if HIGHEST_PRIORITY <? p then HIGHEST_PRIORITY else p in
  modify (set_cur (t_priority p)).

(** Up to the idle loop. *)
Definition thread_become_idle : M kstate unit :=
  thread_set_name "idle" ;;;
  thread_set_priority IDLE_PRIORITY ;;;
  modify (fun s => set_idle (Some (current_thread s)) s) ;;;
  exit_critical_section ;;;
  thread_yield [F_idle].

End sched.
