(* ===== verification/Sync.v ===== *)
(** * kernel/mutex.c, kernel/event.c, kernel/semaphore.c and the timer tick

    The synchronisation objects on top of the wait queues of [Sched], and the timer
    interrupt that drives sleeping and time-outs. *)

From S2P Require Import Prelude ListH Kernel Sched.

Open Scope lk_scope.

Section sync.
Context {LO : ListOps knode khead}.

(** ** kernel/mutex.c *)

Definition set_m_count (m : Z) (f : Z -> Z) : M kstate unit :=
  modify (fun s => set_mtx m (Mutex (m_magic (mtx s m)) (holder (mtx s m))
                                    (f (m_count (mtx s m)))) s).
Definition set_holder (m : Z) (h : option Z) : M kstate unit :=
  modify (fun s => set_mtx m (Mutex (m_magic (mtx s m)) h (m_count (mtx s m))) s).

Definition mutex_init (m : Z) : M kstate unit :=
  wait_queue_init (WQ_mutex m) ;;;
  modify (set_mtx m (Mutex MUTEX_MAGIC None 0)).

Definition mutex_destroy (m : Z) (k : list frame) : M kstate unit :=
  let* mx := gets (fun s => mtx s m) in
  assert_ (m_magic mx =? MUTEX_MAGIC) ;;;
  let* c := gets current_thread in
  assert_ (bool_decide (holder mx = None) || bool_decide (holder mx = Some c)) ;;;
  enter_critical_section ;;;
  modify (set_mtx m (Mutex 0 (holder mx) 0)) ;;;
  wait_queue_destroy (WQ_mutex m) true (F_mutex_destroy :: k).

Definition mutex_acquire_timeout (m timeout : Z) (k : list frame) : M kstate unit :=
  let* mx := gets (fun s => mtx s m) in
  assert_ (m_magic mx =? MUTEX_MAGIC) ;;;
  let* c := gets current_thread in
  assert_ (negb (bool_decide (holder mx = Some c))) ;;;
  enter_critical_section ;;;
  set_m_count m (fun n => n + 1) ;;;
  let* n := gets (fun s => m_count (mtx s m)) in
  if 1 <? n then wait_queue_block (WQ_mutex m) timeout (F_mutex_acquire m :: k)
  else run_frames (F_mutex_acquire m :: k) NO_ERROR.

Definition mutex_acquire (m : Z) (k : list frame) : M kstate unit :=
  mutex_acquire_timeout m INFINITE_TIME k.

Definition mutex_release (m : Z) (k : list frame) : M kstate unit :=
  let* mx := gets (fun s => mtx s m) in
  assert_ (m_magic mx =? MUTEX_MAGIC) ;;;
  let* c := gets current_thread in
  assert_ (bool_decide (holder mx = Some c)) ;;;
  enter_critical_section ;;;
  set_holder m None ;;;
  set_m_count m (fun n => n - 1) ;;;
  let* n := gets (fun s => m_count (mtx s m)) in
  if 1 <=? n then wait_queue_wake_one (WQ_mutex m) true NO_ERROR (F_mutex_release :: k)
  else run_frames (F_mutex_release :: k) NO_ERROR.

(** ** kernel/event.c *)

Definition EVENT_FLAG_AUTOUNSIGNAL : Z := 1.

Definition set_signalled (e : Z) (b : bool) : M kstate unit :=
  modify (fun s => set_evt e (Event (e_magic (evt s e)) b (e_flags (evt s e))) s).

Definition autounsignal (ev : event) : bool :=
  negb (Z.land (e_flags ev) EVENT_FLAG_AUTOUNSIGNAL =? 0).

Definition event_init (e : Z) (initial : bool) (fl : Z) : M kstate unit :=
  wait_queue_init (WQ_event e) ;;;
  modify (set_evt e (Event EVENT_MAGIC initial fl)).

Definition event_destroy (e : Z) (k : list frame) : M kstate unit :=
  let* ev := gets (fun s => evt s e) in
  assert_ (e_magic ev =? EVENT_MAGIC) ;;;
  enter_critical_section ;;;
  modify (set_evt e (Event 0 false 0)) ;;;
  wait_queue_destroy (WQ_event e) true (F_event_destroy :: k).

Definition event_wait_timeout (e timeout : Z) (k : list frame) : M kstate unit :=
  let* ev := gets (fun s => evt s e) in
  assert_ (e_magic ev =? EVENT_MAGIC) ;;;
  enter_critical_section ;;;
  if signalled ev then
    when autounsignal ev do set_signalled e false ;;;
    run_frames (F_event_wait :: k) NO_ERROR
  else wait_queue_block (WQ_event e) timeout (F_event_wait :: k).

Definition event_wait (e : Z) (k : list frame) : M kstate unit :=
  event_wait_timeout e INFINITE_TIME k.

Definition event_signal (e : Z) (reschedule : bool) (k : list frame) : M kstate unit :=
  let* ev := gets (fun s => evt s e) in
  assert_ (e_magic ev =? EVENT_MAGIC) ;;;
  enter_critical_section ;;;
  if negb (signalled ev) then
    if autounsignal ev then
      wait_queue_wake_one (WQ_event e) reschedule NO_ERROR (F_event_signal_auto e :: k)
    else
      set_signalled e true ;;;
      wait_queue_wake_all (WQ_event e) reschedule NO_ERROR (F_event_signal :: k)
  else run_frames (F_event_signal :: k) NO_ERROR.

Definition event_unsignal (e : Z) (k : list frame) : M kstate unit :=
  let* ev := gets (fun s => evt s e) in
  assert_ (e_magic ev =? EVENT_MAGIC) ;;;
  set_signalled e false ;;;
  run_frames k NO_ERROR.

(** ** kernel/semaphore.c *)

Definition set_s_count (x : Z) (f : Z -> Z) : M kstate unit :=
  modify (fun s => set_sem x (Semaphore (s_magic (sem s x)) (f (s_count (sem s x)))) s).

Definition sem_init (x value : Z) : M kstate unit :=
  wait_queue_init (WQ_sem x) ;;;
  modify (set_sem x (Semaphore SEMAPHORE_MAGIC (s32 value))).

Definition sem_destroy (x : Z) (k : list frame) : M kstate unit :=
  enter_critical_section ;;;
  set_s_count x (fun _ => 0) ;;;
  wait_queue_destroy (WQ_sem x) true (F_sem_destroy :: k).

Definition sem_post (x : Z) (k : list frame) : M kstate unit :=
  enter_critical_section ;;;
  set_s_count x (fun n => n + 1) ;;;
  let* n := gets (fun s => s_count (sem s x)) in
  if n <=? 0 then wait_queue_wake_one (WQ_sem x) true NO_ERROR (F_sem_post :: k)
  else run_frames (F_sem_post :: k) NO_ERROR.

Definition sem_wait (x : Z) (k : list frame) : M kstate unit :=
  enter_critical_section ;;;
  set_s_count x (fun n => n - 1) ;;;
  let* n := gets (fun s => s_count (sem s x)) in
  if n <? 0 then wait_queue_block (WQ_sem x) INFINITE_TIME (F_sem_wait :: k)
  else run_frames (F_sem_wait :: k) NO_ERROR.

Definition sem_trywait (x : Z) (k : list frame) : M kstate unit :=
  enter_critical_section ;;;
  let* n := gets (fun s => s_count (sem s x)) in
  if n <=? 0 then exit_critical_section ;;; run_frames k ERR_NOT_READY
  else
    set_s_count x (fun n => n - 1) ;;;
    exit_critical_section ;;; run_frames k NO_ERROR.

Definition sem_timedwait (x timeout : Z) (k : list frame) : M kstate unit :=
  enter_critical_section ;;;
  set_s_count x (fun n => n - 1) ;;;
  let* n := gets (fun s => s_count (sem s x)) in
  if n <? 0 then wait_queue_block (WQ_sem x) timeout (F_sem_timedwait x :: k)
  else run_frames (F_sem_timedwait x :: k) NO_ERROR.

(** ** kernel/timer.c: the tick *)

(** Callbacks the rest of the system registers: what each does to the kernel,
    and whether it asks for a reschedule. *)
Context (user_callback : Z -> timer_id -> Z -> M kstate bool).

Definition run_callback (cb : timer_callback) (x : timer_id) (now : Z) : M kstate bool :=
  match cb with
  | CB_thread_sleep t => thread_sleep_handler t
  | CB_wait_queue_timeout t => wait_queue_timeout_handler t
  | CB_user f => user_callback f x now
  end.

Definition peek_timer : M kstate (option timer_id) :=
  let* n := gets (fun s => list_peek_head (lnk s) H_timer) in
  match n with
  | None => ret None
  | Some n => let* x := getopt (fun _ => timer_of_node n) in ret (Some x)
  end.

(** One turn of the [for] loop on the head [x] of the queue. *)
Definition timer_fire (x : timer_id) (now : Z) : M kstate bool :=
  let* tm := gets (fun s => tmr s x) in
  assert_ (tm_magic tm =? TIMER_MAGIC) ;;;
  modify (fun s => set_lnk (list_delete (N_timer x) (lnk s)) s) ;;;
  let periodic := 0 <? periodic_time tm in
  let* cb := getopt (fun _ => callback tm) in
  let* r := run_callback cb x now in
  let* queued := gets (fun s => list_in_list (lnk s) (N_timer x)) in
  let* p := gets (fun s => periodic_time (tmr s x)) in
  when periodic && negb queued && (0 <? p) do
    (modify (fun s => let t := tmr s x in
       set_tmr x (Timer (tm_magic t) (u64 (now + p)) (periodic_time t) (callback t)) s) ;;;
     insert_timer_in_queue x) ;;;
  ret r.

Fixpoint timer_loop (fuel : nat) (now : Z) (r : bool) : M kstate bool :=
  match fuel with
  | O => panic
  | S f =>
    let* x := peek_timer in
    match x with
    | None => ret r
    | Some x =>
      let* due := gets (fun s => negb (TIME_LT now (scheduled_time (tmr s x)))) in
      if due then
        let* r' := timer_fire x now in
        timer_loop f now (r || r')
      else ret r
    end
  end.

Definition timer_tick (now : Z) : M kstate bool :=
  let* queue := gets (fun s => contents (lnk s) H_timer) in
  let* r := timer_loop (S (length queue)) now false in
  let* r' := thread_timer_tick in
  let* c := gets in_critical_section in
  assert_ c ;;;
  ret (r || r').

(** platform/tegra_shared: the timer interrupt, every [timer_interval] (10) ms;
    [ticks] is a [uint32_t]. *)
Definition timer_irq : M kstate bool :=
  modify (fun s => set_time (u32 (current_time s + 10)) s) ;;;
  let* now := gets current_time in
  timer_tick now.

Definition platform_irq : M kstate unit :=
  modify (set_ints false) ;;;
  inc_critical_section ;;;
  let* r := timer_irq in
  if (r : bool) then thread_preempt [F_irq] else run_frames [F_irq] NO_ERROR.

End sync.
