(* ===== verification/KInv.v ===== *)
(** * The kernel invariant

    [core X s] relates thread states, run queues, wait queues, the run-queue
    bitmap and the timer queue, for every thread but those of [X]: the threads
    an operation has in hand, which are on no queue.  [wf] is the invariant
    between calls: [core] with the current thread in hand and running.

    The lemmas of this file follow the primitive updates of kernel/thread.c and
    kernel/timer.c one by one; [Safety] composes them. *)

From S2P Require Import Prelude ListH Kernel Sched Sync.

Open Scope lk_scope.

(** ** Frames *)

(** How many critical sections a frame leaves. *)
Definition frame_exits (f : frame) : Z :=
  match f with F_wq_block _ | F_wake _ | F_wq_destroy _ | F_idle | F_exit => 0 | _ => 1 end.
Fixpoint exits (k : list frame) : Z :=
  match k with [] => 0 | f :: k' => frame_exits f + exits k' end.

(** The frames of the calls [Safety.kcall] covers. *)
Definition frame_simple (f : frame) : bool :=
  match f with
  | F_exit | F_join _ _ | F_wq_destroy _
  | F_mutex_destroy | F_event_destroy | F_sem_destroy => false
  | _ => true
  end.

(** An interrupt arrives only outside critical sections, so its frame is the
    outermost one and leaves the last section. *)
Definition irq_last (k : list frame) (c : Z) : Prop :=
  F_irq ∈ k -> exists k', k = k' ++ [F_irq] /\ (F_irq ∉ k') /\ exits k = c.

(** A frame that still has a stack timer to cancel. *)
Definition frame_timed (f : frame) : bool :=
  match f with F_wq_block timeout => negb (timeout =? INFINITE_TIME) | _ => false end.
Definition timed (k : list frame) : bool := existsb frame_timed k.

Fixpoint frames_ok (k : list frame) : bool :=
  match k with
  | [] => true
  | f :: k' => frame_simple f && negb (frame_timed f && timed k') && frames_ok k'
  end.

Section inv.
Context {LO : ListOps knode khead} {LL : ListLaws knode khead}.
Implicit Types (s : kstate) (t u : Z) (w : wqid) (X : list Z) (k : list frame).

Definition runq s (p : Z) : list knode := contents (lnk s) (H_run p).
Definition waitq s w : list knode := contents (lnk s) (H_wait w).
Definition timerq s : list knode := contents (lnk s) H_timer.

(** A thread that is not running and may run again. *)
Record suspended_ok s t : Prop := {
  so_magic : magic (thr s t) = THREAD_MAGIC;
  so_prio : 0 <= priority (thr s t) < NUM_PRIORITIES;
  so_saved : 0 < saved_critical_section_count (thr s t);
  so_exits : exits (frames (thr s t)) <= saved_critical_section_count (thr s t);
  so_irq : irq_last (frames (thr s t)) (saved_critical_section_count (thr s t));
  so_frames : frames_ok (frames (thr s t)) = true;
  so_timer : timed (frames (thr s t)) = true -> tm_magic (tmr s (TM_stack t)) = TIMER_MAGIC;
}.

(** Where a thread that nobody has in hand is. *)
Definition placed s t : Prop :=
  match state (thr s t) with
  | THREAD_READY => N_queue t ∈ runq s (priority (thr s t))
  | THREAD_BLOCKED => exists w, blocking_wait_queue (thr s t) = Some w /\ N_queue t ∈ waitq s w
  | THREAD_SLEEPING => N_timer (TM_stack t) ∈ timerq s /\
      callback (tmr s (TM_stack t)) = Some (CB_thread_sleep t)
  | THREAD_RUNNING => False
  | THREAD_SUSPENDED | THREAD_DEATH => True
  end.

Definition may_run s t : Prop :=
  match state (thr s t) with
  | THREAD_READY | THREAD_BLOCKED | THREAD_SLEEPING => True
  | THREAD_SUSPENDED => magic (thr s t) = THREAD_MAGIC
  | THREAD_RUNNING | THREAD_DEATH => False
  end.

(** The states a thread goes through between [wait_queue_block] and the
    cancellation of its time-out. *)
Definition in_wait (st : thread_state) : bool :=
  match st with THREAD_BLOCKED | THREAD_READY | THREAD_RUNNING => true | _ => false end.

(** What a queued timer is for. *)
Definition callback_ok s (x : timer_id) : Prop :=
  match callback (tmr s x) with
  | None => False
  | Some (CB_thread_sleep t) => x = TM_stack t /\
      (t = current_thread s \/
       magic (thr s t) = THREAD_MAGIC /\ state (thr s t) = THREAD_SLEEPING)
  | Some (CB_wait_queue_timeout t) => x = TM_stack t /\
      (t = current_thread s \/
       magic (thr s t) = THREAD_MAGIC /\ timed (frames (thr s t)) = true /\
       in_wait (state (thr s t)) = true)
  | Some (CB_user _) => exists n, x = TM n
  end.

(** Only driver timers repeat, and their period fits a signed [long]. *)
Definition period_ok (x : timer_id) (v : timer) : Prop :=
  0 <= periodic_time v < 2 ^ 63 /\
  (0 < periodic_time v -> tm_magic v = TIMER_MAGIC /\
     exists f n, callback v = Some (CB_user f) /\ x = TM n).

Lemma period_ok_oneshot x v : periodic_time v = 0 -> period_ok x v.
Proof. unfold period_ok. lia. Qed.

Record core X s : Prop := {
  c_links : links_ok (lnk s);
  c_run : forall p n, n ∈ runq s p -> 0 <= p < NUM_PRIORITIES /\
    exists t, n = N_queue t /\ (t ∉ X) /\ state (thr s t) = THREAD_READY /\
              priority (thr s t) = p;
  c_wait : forall w n, n ∈ waitq s w -> wq_magic (wqs s w) = WAIT_QUEUE_MAGIC /\
    exists t, n = N_queue t /\ (t ∉ X) /\ state (thr s t) = THREAD_BLOCKED /\
              blocking_wait_queue (thr s t) = Some w;
  c_count : forall w, wq_count (wqs s w) = Z.of_nat (length (waitq s w));
  c_timer : forall n, n ∈ timerq s -> exists x, n = N_timer x /\
    tm_magic (tmr s x) = TIMER_MAGIC /\ callback_ok s x;
  c_tlist : forall n, n ∈ contents (lnk s) H_threads -> exists t, n = N_tlist t;
  c_period : forall x, period_ok x (tmr s x);
  c_bitmap : 0 <= run_queue_bitmap s < 2 ^ 32;
  c_bits : forall p, 0 <= p < NUM_PRIORITIES ->
    Z.testbit (run_queue_bitmap s) p = negb (list_is_empty (lnk s) (H_run p));
  c_placed : forall t, (t ∉ X) -> placed s t;
  c_susp : forall t, (t ∉ X) -> t <> current_thread s -> may_run s t -> suspended_ok s t;
}.

(** The current thread between two calls. *)
Record running_ok s : Prop := {
  r_state : state (cur s) = THREAD_RUNNING;
  r_magic : magic (cur s) = THREAD_MAGIC;
  r_prio : 0 <= priority (cur s) < NUM_PRIORITIES;
  r_timer : N_timer (TM_stack (current_thread s)) ∉ timerq s;
  r_crit : 0 <= critical_section_count s;
  r_ints : ints_enabled s = (critical_section_count s =? 0);
}.

(** Once there is an idle thread it is running or ready. *)
Definition idle_ok s : Prop :=
  forall i, idle_thread s = Some i -> i = current_thread s \/ state (thr s i) = THREAD_READY.

(** The idle thread exists and somebody else is running: the processor can be
    given up for good. *)
Definition can_block s : Prop :=
  exists i, idle_thread s = Some i /\ i <> current_thread s.

Definition objects_ok s : Prop :=
  (forall m, m_magic (mtx s m) = MUTEX_MAGIC -> wq_magic (wqs s (WQ_mutex m)) = WAIT_QUEUE_MAGIC) /\
  (forall e, e_magic (evt s e) = EVENT_MAGIC -> wq_magic (wqs s (WQ_event e)) = WAIT_QUEUE_MAGIC).

Record wf s : Prop := {
  wf_core : core [current_thread s] s;
  wf_running : running_ok s;
  wf_idle : idle_ok s;
  wf_objects : objects_ok s;
}.

(** ** Membership facts *)

Lemma core_hand_not_queued X s t : core X s -> t ∈ X -> list_in_list (lnk s) (N_queue t) = false.
Proof.
  intros C Ht. apply not_in_list; [apply C|]. intros [p| |w|] Hin.
  - apply (c_run _ _ C) in Hin as (_ & u & ? & ? & _). simplify_eq. done.
  - apply (c_tlist _ _ C) in Hin as (u & ?). done.
  - apply (c_wait _ _ C) in Hin as (_ & u & ? & ? & _). simplify_eq. done.
  - apply (c_timer _ _ C) in Hin as (u & ? & _). done.
Qed.

Lemma core_timer_queued X s x : core X s ->
  list_in_list (lnk s) (N_timer x) = true <-> N_timer x ∈ timerq s.
Proof.
  intros C. rewrite in_list_spec by apply C. split; [|by eauto]. intros [[p| |w|] Hin]; [..|done].
  - apply (c_run _ _ C) in Hin as (_ & u & ? & _). done.
  - apply (c_tlist _ _ C) in Hin as (u & ?). done.
  - apply (c_wait _ _ C) in Hin as (_ & u & ? & _). done.
Qed.

Lemma core_timer_not_queued X s x : core X s ->
  N_timer x ∉ timerq s -> list_in_list (lnk s) (N_timer x) = false.
Proof. intros C H. rewrite <- core_timer_queued in H by done. by apply not_true_is_false. Qed.

Lemma core_mono X Y s : core X s -> (forall t, t ∈ X <-> t ∈ Y) -> core Y s.
Proof.
  intros C HXY. destruct C; constructor; auto.
  - intros p n Hn. destruct (c_run0 p n Hn) as (? & t & ? & ? & ?). split; [done|].
    exists t. by rewrite <- HXY.
  - intros w n Hn. destruct (c_wait0 w n Hn) as (? & t & ? & ? & ?). split; [done|].
    exists t. by rewrite <- HXY.
  - intros t Ht. apply c_placed0. by rewrite HXY.
  - intros t Ht. apply c_susp0. by rewrite HXY.
Qed.

Lemma core_hand_wait X s t w : core X s -> t ∈ X -> N_queue t ∉ waitq s w.
Proof. intros C Ht Hin. apply (c_wait _ _ C) in Hin as (_ & u & ? & ? & _). by simplify_eq. Qed.

Lemma core_hand_run X s t p : core X s -> t ∈ X -> N_queue t ∉ runq s p.
Proof. intros C Ht Hin. apply (c_run _ _ C) in Hin as (_ & u & ? & ? & _). by simplify_eq. Qed.

(** ** Updates of a thread in hand *)

Definition keeps_timer s t (f : thread -> thread) : Prop :=
  t = current_thread s \/ N_timer (TM_stack t) ∉ timerq s \/
  (magic (f (thr s t)) = magic (thr s t) /\ frames (f (thr s t)) = frames (thr s t) /\
   in_wait (state (thr s t)) = true /\ in_wait (state (f (thr s t))) = true).

Lemma set_thr_ne t f s u : u <> t -> thr (set_thr t f s) u = thr s u.
Proof. intros. simpl. unfold upd. by rewrite decide_False. Qed.
Lemma set_thr_eq t f s : thr (set_thr t f s) t = f (thr s t).
Proof. simpl. unfold upd. by rewrite decide_True. Qed.

Lemma placed_ne t f s u : u <> t -> placed (set_thr t f s) u <-> placed s u.
Proof. intros. unfold placed. by rewrite set_thr_ne. Qed.

Lemma suspended_ne t f s u : u <> t -> suspended_ok (set_thr t f s) u <-> suspended_ok s u.
Proof.
  intros Hu. pose proof (set_thr_ne t f s u Hu) as E.
  split; intros []; constructor; rewrite ?E in *; auto.
Qed.

Lemma callback_ok_set_thr t f s x :
  N_timer x ∈ timerq s -> keeps_timer s t f -> callback_ok s x -> callback_ok (set_thr t f s) x.
Proof.
  unfold callback_ok. intros Hin Hk. change (tmr (set_thr t f s)) with (tmr s).
  change (current_thread (set_thr t f s)) with (current_thread s).
  destruct (callback (tmr s x)) as [[u|u|]|]; auto; intros [-> Hx]; split; auto;
    destruct Hx as [|Hx]; auto; destruct (decide (u = t)) as [->|];
    rewrite ?set_thr_ne by done; auto; rewrite set_thr_eq;
    destruct Hk as [|[|(Em & Ef & H1 & H2)]]; auto; try done; right.
  - destruct Hx as [_ Hx]. by rewrite Hx in H1.
  - rewrite Em, Ef. naive_solver.
Qed.

Lemma core_set_thr X s t f : core X s -> t ∈ X -> keeps_timer s t f -> core X (set_thr t f s).
Proof.
  intros C Ht Hk.
  assert (Hne : forall u, u ∉ X -> u <> t) by (intros u Hu ->; done).
  pose proof (core_hand_not_queued _ _ _ C Ht).
  constructor; try apply C.
  - intros p n Hn. destruct (c_run _ _ C p n Hn) as (? & u & ? & Hu & ?). split; [done|].
    exists u. rewrite set_thr_ne by auto. done.
  - intros w n Hn. destruct (c_wait _ _ C w n Hn) as (? & u & ? & Hu & ?). split; [done|].
    exists u. rewrite set_thr_ne by auto. done.
  - intros n Hn. destruct (c_timer _ _ C n Hn) as (x & -> & ? & ?). exists x.
    split_and!; [done|done|]. by apply callback_ok_set_thr.
  - intros u Hu. apply placed_ne; [auto|]. by apply C.
  - intros u Hu Hc Hm. apply suspended_ne; [auto|]. apply (c_susp _ _ C); [done|done|].
    revert Hm. unfold may_run. by rewrite set_thr_ne by auto.
Qed.

Lemma core_set_cur X s f : core X s -> current_thread s ∈ X -> core X (set_cur f s).
Proof. intros. apply core_set_thr; [done..|by left]. Qed.

(** An update of any thread that keeps the fields the invariant reads. *)
Lemma core_set_other X s t f :
  core X s ->
  (forall th, state (f th) = state th /\ magic (f th) = magic th /\ priority (f th) = priority th /\
     saved_critical_section_count (f th) = saved_critical_section_count th /\
     frames (f th) = frames th /\ blocking_wait_queue (f th) = blocking_wait_queue th) ->
  core X (set_thr t f s).
Proof.
  intros C Hf. set (s' := set_thr t f s).
  assert (E : forall u, state (thr s' u) = state (thr s u) /\ magic (thr s' u) = magic (thr s u) /\
    priority (thr s' u) = priority (thr s u) /\
    saved_critical_section_count (thr s' u) = saved_critical_section_count (thr s u) /\
    frames (thr s' u) = frames (thr s u) /\ blocking_wait_queue (thr s' u) = blocking_wait_queue (thr s u)).
  { intros u. destruct (decide (u = t)) as [->|]; unfold s'; [rewrite set_thr_eq; apply Hf|].
    by rewrite set_thr_ne. }
  constructor; try apply C.
  - intros p n Hn. destruct (c_run _ _ C p n Hn) as (? & u & ? & Hu & ?). split; [done|].
    exists u. destruct (E u) as (-> & _ & -> & _). done.
  - intros w n Hn. destruct (c_wait _ _ C w n Hn) as (? & u & ? & Hu & ?). split; [done|].
    exists u. destruct (E u) as (-> & _ & _ & _ & _ & ->). done.
  - intros n Hn. destruct (c_timer _ _ C n Hn) as (x & -> & ? & Hcb). exists x.
    split_and!; [done|done|]. unfold callback_ok in *. change (tmr s') with (tmr s).
    change (current_thread s') with (current_thread s).
    destruct (callback (tmr s x)) as [[u|u|]|]; try done.
    + destruct (E u) as (-> & -> & _). done.
    + destruct (E u) as (-> & -> & _ & _ & -> & _). done.
  - intros u Hu. pose proof (c_placed _ _ C u Hu) as Hpl. unfold placed in *.
    destruct (E u) as (-> & _ & -> & _ & _ & ->). done.
  - intros u Hu Hc Hm. unfold may_run in Hm. destruct (E u) as (E1 & E2 & E3 & E4 & E5 & _).
    rewrite E1, E2 in Hm. destruct (c_susp _ _ C u Hu Hc Hm).
    constructor; rewrite ?E2, ?E3, ?E4, ?E5; done.
Qed.

(** ** The run-queue bitmap *)

Lemma bit_p p : 0 <= p < 32 -> u32 (Z.shiftl 1 p) = 2 ^ p.
Proof.
  intros. rewrite Z.shiftl_1_l. apply u32_small. split; [lia|]. apply Z.pow_lt_mono_r; lia.
Qed.

Lemma set_bit_range b p : 0 <= b < 2 ^ 32 -> 0 <= p < 32 ->
  0 <= Z.lor b (u32 (Z.shiftl 1 p)) < 2 ^ 32.
Proof.
  intros Hb Hp. rewrite bit_p by done. pose proof (Z.pow_pos_nonneg 2 p).
  assert (0 < Z.lor b (2 ^ p)).
  { assert (0 <= Z.lor b (2 ^ p)) by (apply Z.lor_nonneg; lia).
    assert (Z.lor b (2 ^ p) <> 0) by (rewrite Z.lor_eq_0_iff; lia). lia. }
  split; [lia|]. apply Z.log2_lt_pow2; [lia|]. rewrite Z.log2_lor, Z.log2_pow2 by lia.
  destruct (decide (b = 0)) as [->|]; [simpl; lia|].
  assert (Z.log2 b < 32) by (apply Z.log2_lt_pow2; lia). lia.
Qed.

Lemma set_bit_spec b p q : 0 <= p < 32 -> 0 <= q < 32 ->
  Z.testbit (Z.lor b (u32 (Z.shiftl 1 p))) q = (q =? p) || Z.testbit b q.
Proof.
  intros. rewrite bit_p, Z.lor_spec, Z.pow2_bits_eqb, orb_comm, Z.eqb_sym by lia. done.
Qed.

Lemma clear_bit_range b m : 0 <= b < 2 ^ 32 -> 0 <= m -> 0 <= Z.land b m < 2 ^ 32.
Proof.
  intros Hb Hm. split; [apply Z.land_nonneg; lia|].
  destruct (decide (b = 0)) as [->|]; [rewrite Z.land_0_l; lia|].
  destruct (decide (Z.land b m = 0)) as [->|Hn]; [lia|].
  assert (0 <= Z.land b m) by (apply Z.land_nonneg; lia).
  apply Z.log2_lt_pow2; [lia|]. pose proof (Z.log2_land b m).
  assert (Z.log2 b < 32) by (apply Z.log2_lt_pow2; lia). lia.
Qed.

Lemma clear_bit_spec b p q : 0 <= p < 32 -> 0 <= q < 32 ->
  Z.testbit (Z.land b (u32 (Z.lnot (Z.shiftl 1 p)))) q = negb (q =? p) && Z.testbit b q.
Proof.
  intros. rewrite Z.land_spec. unfold u32. rewrite Z.mod_pow2_bits_low by lia.
  rewrite Z.lnot_spec, Z.shiftl_1_l, Z.pow2_bits_eqb, andb_comm, Z.eqb_sym by lia. done.
Qed.

(** ** Putting a thread on a queue *)

Lemma add_other_queues X s t add h h' n :
  core X s -> t ∈ X -> adds add -> h' <> h ->
  n ∈ contents (add h (N_queue t) (lnk s)) h' <-> n ∈ contents (lnk s) h'.
Proof.
  intros C Ht Ha Hh. rewrite (adds_other add) by (done || apply C || by eapply core_hand_not_queued).
  done.
Qed.

(** The lists of [s] after [N_queue t] was put on [h]. *)
Record added (add : khead -> knode -> links -> links) s t h : Prop := {
  ad_ok : links_ok (add h (N_queue t) (lnk s));
  ad_other : forall h', h' <> h -> contents (add h (N_queue t) (lnk s)) h' = contents (lnk s) h';
  ad_elem : forall m, m ∈ contents (add h (N_queue t) (lnk s)) h <->
                      m = N_queue t \/ m ∈ contents (lnk s) h;
  ad_length : length (contents (add h (N_queue t) (lnk s)) h) = S (length (contents (lnk s) h));
}.

Lemma hand_added X s t add h : core X s -> t ∈ X -> adds add -> added add s t h.
Proof.
  intros C Ht Ha. pose proof (core_hand_not_queued _ _ _ C Ht). pose proof (c_links _ _ C).
  constructor; intros; eauto using adds_ok, adds_other, adds_length. by apply adds_elem.
Qed.

Definition put_ready (add : khead -> knode -> links -> links) t s : kstate :=
  set_bitmap (Z.lor (run_queue_bitmap s) (u32 (Z.shiftl 1 (priority (thr s t)))))
    (set_lnk (add (H_run (priority (thr s t))) (N_queue t) (lnk s)) s).

Lemma put_ready_runq add X s t p n : core X s -> t ∈ X -> adds add ->
  n ∈ runq (put_ready add t s) p <-> n ∈ runq s p \/ (n = N_queue t /\ p = priority (thr s t)).
Proof.
  intros C Ht Ha. pose proof (hand_added X s t add (H_run (priority (thr s t))) C Ht Ha) as [].
  unfold runq. simpl. destruct (decide (p = priority (thr s t))) as [->|Hp].
  - rewrite ad_elem0. naive_solver.
  - rewrite ad_other0 by congruence. naive_solver.
Qed.

Lemma put_tail_runq X s t p : core X s -> t ∈ X ->
  runq (put_ready list_add_tail t s) p =
    if decide (p = priority (thr s t)) then runq s p ++ [N_queue t] else runq s p.
Proof.
  intros C Ht. unfold runq. cbn.
  rewrite add_tail_contents by first [exact (c_links _ _ C) | by eapply core_hand_not_queued].
  destruct (decide (p = priority (thr s t))) as [->|]; [by rewrite decide_True|].
  by rewrite decide_False by congruence.
Qed.

Lemma put_head_runq X s t p : core X s -> t ∈ X ->
  runq (put_ready list_add_head t s) p =
    if decide (p = priority (thr s t)) then N_queue t :: runq s p else runq s p.
Proof.
  intros C Ht. unfold runq. cbn.
  rewrite add_head_contents by first [exact (c_links _ _ C) | by eapply core_hand_not_queued].
  destruct (decide (p = priority (thr s t))) as [->|]; [by rewrite decide_True|].
  by rewrite decide_False by congruence.
Qed.

Lemma core_put_ready add X s t :
  core (t :: X) s -> t ∉ X -> adds add ->
  state (thr s t) = THREAD_READY -> 0 <= priority (thr s t) < NUM_PRIORITIES ->
  (t <> current_thread s -> suspended_ok s t) ->
  core X (put_ready add t s).
Proof.
  intros C HtX Ha Hst Hp Hs.
  assert (Ht : t ∈ t :: X) by set_solver.
  pose proof (hand_added _ s t add (H_run (priority (thr s t))) C Ht Ha) as A.
  pose proof (fun p n => put_ready_runq add _ s t p n C Ht Ha) as R.
  assert (W : forall w, waitq (put_ready add t s) w = waitq s w) by (intros; by apply A).
  assert (T : timerq (put_ready add t s) = timerq s) by by apply A.
  constructor; rewrite ?T; try apply C.
  - apply A.
  - intros p n. rewrite R. intros [Hn|[-> ->]].
    + destruct (c_run _ _ C p n Hn) as (? & u & ? & ? & ?). set_solver.
    + split; [done|]. eauto 10.
  - intros w n. rewrite W. intros Hn.
    destruct (c_wait _ _ C w n Hn) as (? & u & ? & ? & ?). set_solver.
  - intros w. rewrite W. apply C.
  - intros n. simpl. rewrite (ad_other _ _ _ _ A) by done. apply C.
  - apply set_bit_range; [apply C|done].
  - intros p Hpr. simpl. rewrite set_bit_spec, (c_bits _ _ C) by done.
    apply eq_true_iff_eq. rewrite orb_true_iff, !negb_true_iff, !is_empty_false, Z.eqb_eq.
    setoid_rewrite R. unfold runq. naive_solver.
  - intros u Hu. destruct (decide (u = t)) as [->|Hut].
    + unfold placed. simpl. rewrite Hst. apply R. auto.
    + pose proof (c_placed _ _ C u) as Hpl. unfold placed in *. simpl in *. rewrite T.
      destruct (state (thr s u)); try (apply Hpl; set_solver).
      * apply R. left. apply Hpl. set_solver.
      * setoid_rewrite W. apply Hpl. set_solver.
  - intros u Hu Hc Hm. destruct (decide (u = t)) as [->|Hut].
    + destruct (Hs Hc). by constructor.
    + destruct (c_susp _ _ C u) as []; [set_solver|done|done|by constructor].
Qed.

(** ** Taking a thread off a queue *)

(** The lists of [s] after node [n] was taken off [h]. *)
Record deleted s (n : knode) (h : khead) : Prop := {
  de_ok : links_ok (list_delete n (lnk s));
  de_other : forall h', h' <> h -> contents (list_delete n (lnk s)) h' = contents (lnk s) h';
  de_self : contents (list_delete n (lnk s)) h = list_remove_all n (contents (lnk s) h);
  de_elem : forall m, m ∈ contents (list_delete n (lnk s)) h <->
                      m ∈ contents (lnk s) h /\ m <> n;
  de_length : S (length (contents (list_delete n (lnk s)) h)) = length (contents (lnk s) h);
}.

Lemma hand_deleted X s n h : core X s -> n ∈ contents (lnk s) h -> deleted s n h.
Proof.
  intros C Hn. pose proof (c_links _ _ C) as L. pose proof (in_contents _ _ _ L Hn) as Hin.
  assert (E : contents (list_delete n (lnk s)) h = list_remove_all n (contents (lnk s) h))
    by by apply delete_contents.
  constructor; rewrite ?E; auto using delete_ok.
  - intros h' Hh. by apply (delete_other_contents _ h).
  - intros m. apply elem_of_remove_all.
  - apply remove_all_length; [by apply ok_nodup|done].
Qed.

Definition pop_ready (p t : Z) s : kstate :=
  let s1 := set_lnk (list_delete (N_queue t) (lnk s)) s in
  if list_is_empty (lnk s1) (H_run p)
  then set_bitmap (Z.land (run_queue_bitmap s1) (u32 (Z.lnot (Z.shiftl 1 p)))) s1
  else s1.

Lemma pop_ready_fields p t s :
  let s' := pop_ready p t s in
  lnk s' = list_delete (N_queue t) (lnk s) /\ thr s' = thr s /\ wqs s' = wqs s /\
  tmr s' = tmr s /\ current_thread s' = current_thread s /\ idle_thread s' = idle_thread s /\
  critical_section_count s' = critical_section_count s /\
  mtx s' = mtx s /\ evt s' = evt s /\ sem s' = sem s.
Proof. unfold pop_ready. simpl. by destruct (list_is_empty _ _). Qed.

Lemma pop_ready_bitmap p t s X :
  core X s -> 0 <= p < NUM_PRIORITIES -> N_queue t ∈ runq s p ->
  0 <= run_queue_bitmap (pop_ready p t s) < 2 ^ 32 /\
  forall q, 0 <= q < NUM_PRIORITIES -> Z.testbit (run_queue_bitmap (pop_ready p t s)) q =
    negb (list_is_empty (list_delete (N_queue t) (lnk s)) (H_run q)).
Proof.
  intros C Hp Hin. pose proof (hand_deleted _ _ _ _ C Hin) as D.
  assert (Hq : forall q, q <> p ->
    list_is_empty (list_delete (N_queue t) (lnk s)) (H_run q) = list_is_empty (lnk s) (H_run q)).
  { intros q Hq. unfold list_is_empty. rewrite (de_other _ _ _ D) by congruence. done. }
  unfold pop_ready. simpl. destruct (list_is_empty _ _) eqn:E; simpl; split.
  - apply clear_bit_range; [apply C|]. apply u32_range.
  - intros q Hqr. rewrite clear_bit_spec, (c_bits _ _ C) by done.
    destruct (Z.eqb_spec q p) as [->|]; [by rewrite E|]. by rewrite Hq.
  - apply C.
  - intros q Hqr. rewrite (c_bits _ _ C) by done.
    destruct (Z.eq_dec q p) as [->|]; [|by rewrite Hq].
    rewrite E. f_equal. apply is_empty_false. eauto.
Qed.

Lemma core_pop_ready X s p t :
  core X s -> N_queue t ∈ runq s p -> core (t :: X) (pop_ready p t s).
Proof.
  intros C Hin. pose proof (hand_deleted _ _ _ _ C Hin) as D.
  destruct (c_run _ _ C p _ Hin) as (Hp & t' & [= <-] & HtX & Hst & Hpr).
  destruct (pop_ready_bitmap p t s X C Hp Hin) as [B1 B2].
  destruct (pop_ready_fields p t s) as (El & Et & Ew & Em & Ec & _).
  set (s' := pop_ready p t s) in *.
  assert (R : forall q n, n ∈ runq s' q <-> n ∈ runq s q /\ n <> N_queue t).
  { intros q n. unfold runq. rewrite El. destruct (decide (q = p)) as [->|Hq].
    - apply D.
    - rewrite (de_other _ _ _ D) by congruence. split; [|naive_solver]. intros Hn. split; [done|].
      intros ->. destruct (c_run _ _ C q _ Hn) as (_ & u & [= <-] & _ & _ & ?). congruence. }
  assert (W : forall w, waitq s' w = waitq s w)
    by (intros; unfold waitq; rewrite El; by apply D).
  assert (T : timerq s' = timerq s) by (unfold timerq; rewrite El; by apply D).
  constructor; rewrite ?El, ?T; try done.
  - apply D.
  - intros q n. rewrite R, Et. intros [Hn Hne].
    destruct (c_run _ _ C q n Hn) as (? & u & -> & ? & ?). split; [done|]. exists u. set_solver.
  - intros w n. rewrite W, Et, Ew. intros Hn.
    destruct (c_wait _ _ C w n Hn) as (? & u & -> & ? & ? & ?). split; [done|]. exists u.
    split_and!; try done. rewrite elem_of_cons. intros [->|]; [congruence|done].
  - intros w. rewrite W, Ew. apply C.
  - intros n Hn. unfold callback_ok. rewrite Et, Em, Ec. by apply C.
  - intros n. rewrite (de_other _ _ _ D) by done. apply C.
  - rewrite Em. apply C.
  - intros u Hu. apply not_elem_of_cons in Hu as [Hut Hu]. pose proof (c_placed _ _ C u Hu) as Hpl.
    unfold placed in *. rewrite Et, Em, T. destruct (state (thr s u)); try done.
    + apply R. split; [done|congruence].
    + by setoid_rewrite W.
  - intros u Hu. apply not_elem_of_cons in Hu as [Hut Hu]. rewrite Ec. intros Hc Hm.
    destruct (c_susp _ _ C u Hu Hc) as []; [unfold may_run in *; by rewrite Et in Hm|].
    constructor; by rewrite ?Et, ?Em.
Qed.

Definition take_waiter w t s : kstate :=
  let s1 := set_lnk (list_delete (N_queue t) (lnk s)) s in
  set_wq w (WaitQueue (wq_magic (wqs s w)) (wq_count (wqs s w) + -1)) s1.

Lemma core_take_waiter X s w t :
  core X s -> N_queue t ∈ waitq s w -> core (t :: X) (take_waiter w t s).
Proof.
  intros C Hin. pose proof (hand_deleted _ _ _ _ C Hin) as D.
  destruct (c_wait _ _ C w _ Hin) as (Hwm & t' & [= <-] & HtX & Hst & Hpr).
  set (s' := take_waiter w t s).
  assert (W : forall v n, n ∈ waitq s' v <-> n ∈ waitq s v /\ n <> N_queue t).
  { intros v n. unfold waitq. simpl. destruct (decide (v = w)) as [->|Hq].
    - apply D.
    - rewrite (de_other _ _ _ D) by congruence. split; [|naive_solver]. intros Hn. split; [done|].
      intros ->. destruct (c_wait _ _ C v _ Hn) as (_ & u & [= <-] & _ & _ & ?). congruence. }
  assert (R : forall p, runq s' p = runq s p) by (intros; by apply D).
  assert (T : timerq s' = timerq s) by by apply D.
  assert (Q : forall v, wqs s' v = if decide (v = w) then
    WaitQueue (wq_magic (wqs s w)) (wq_count (wqs s w) + -1) else wqs s v) by done.
  constructor; rewrite ?T; try apply C.
  - apply D.
  - intros p n. rewrite R. intros Hn.
    destruct (c_run _ _ C p n Hn) as (? & u & -> & ? & ? & ?). split; [done|]. exists u.
    split_and!; try done. rewrite elem_of_cons. intros [->|]; [congruence|done].
  - intros v n. rewrite W, Q. intros [Hn Hne].
    destruct (c_wait _ _ C v n Hn) as (? & u & -> & ? & ?). split; [by case_decide; subst|].
    exists u. set_solver.
  - intros v. rewrite Q. unfold waitq. simpl. case_decide as Hd; subst.
    + pose proof (de_length _ _ _ D). simpl. rewrite (c_count _ _ C w). unfold waitq. lia.
    + rewrite (de_other _ _ _ D) by congruence. apply C.
  - intros n. simpl. rewrite (de_other _ _ _ D) by done. apply C.
  - intros p Hp. simpl. rewrite (c_bits _ _ C) by done. unfold list_is_empty.
    rewrite (de_other _ _ _ D) by done. done.
  - intros u Hu. apply not_elem_of_cons in Hu as [Hut Hu]. pose proof (c_placed _ _ C u Hu) as Hpl.
    unfold placed in *. rewrite T. simpl. destruct (state (thr s u)); try done.
    + by rewrite R.
    + setoid_rewrite W. destruct Hpl as (v & ? & ?). exists v. split_and!; [done|done|congruence].
  - intros u Hu. apply not_elem_of_cons in Hu as [Hut Hu]. intros Hc Hm.
    destruct (c_susp _ _ C u Hu Hc Hm). by constructor.
Qed.

Definition put_waiting w t s : kstate :=
  set_wq w (WaitQueue (wq_magic (wqs s w)) (wq_count (wqs s w) + 1))
    (set_lnk (list_add_tail (H_wait w) (N_queue t) (lnk s)) s).

Lemma core_put_waiting X s w t :
  core (t :: X) s -> t ∉ X -> wq_magic (wqs s w) = WAIT_QUEUE_MAGIC ->
  t = current_thread s -> state (thr s t) = THREAD_BLOCKED ->
  blocking_wait_queue (thr s t) = Some w ->
  core X (put_waiting w t s).
Proof.
  intros C HtX Hwm Hcur Hst Hb.
  assert (Ht : t ∈ t :: X) by set_solver.
  pose proof (hand_added _ s t list_add_tail (H_wait w) C Ht adds_tail) as A.
  set (s' := put_waiting w t s).
  assert (W : forall v n, n ∈ waitq s' v <-> n ∈ waitq s v \/ (n = N_queue t /\ v = w)).
  { intros v n. unfold waitq. simpl. destruct (decide (v = w)) as [->|Hv].
    - rewrite (ad_elem _ _ _ _ A). naive_solver.
    - rewrite (ad_other _ _ _ _ A) by congruence. naive_solver. }
  assert (R : forall p, runq s' p = runq s p) by (intros; by apply A).
  assert (T : timerq s' = timerq s) by by apply A.
  assert (Q : forall v, wqs s' v = if decide (v = w) then
    WaitQueue (wq_magic (wqs s w)) (wq_count (wqs s w) + 1) else wqs s v) by done.
  constructor; rewrite ?T; try apply C.
  - apply A.
  - intros p n. rewrite R. intros Hn. destruct (c_run _ _ C p n Hn) as (? & u & ? & ? & ?).
    set_solver.
  - intros v n. rewrite W, Q. intros [Hn|[-> ->]].
    + destruct (c_wait _ _ C v n Hn) as (? & u & ? & ? & ?).
      split; [by case_decide; subst|]. set_solver.
    + rewrite decide_True by done. split; [done|]. by exists t.
  - intros v. rewrite Q. unfold waitq. simpl. case_decide as Hd.
    + subst v. simpl. rewrite (ad_length _ _ _ _ A), (c_count _ _ C w). unfold waitq. lia.
    + rewrite (ad_other _ _ _ _ A) by congruence. apply C.
  - intros n. simpl. rewrite (ad_other _ _ _ _ A) by done. apply C.
  - intros p Hp. simpl. rewrite (c_bits _ _ C) by done. unfold list_is_empty.
    rewrite (ad_other _ _ _ _ A) by done. done.
  - intros u Hu. destruct (decide (u = t)) as [->|Hut].
    + unfold placed. simpl. rewrite Hst. exists w. split; [done|]. apply W. auto.
    + pose proof (c_placed _ _ C u) as Hpl. unfold placed in *. rewrite T. simpl in *.
      destruct (state (thr s u)); try (apply Hpl; set_solver).
      * rewrite R. apply Hpl. set_solver.
      * setoid_rewrite W. destruct Hpl as (v & ? & ?); [set_solver|]. eauto.
  - intros u Hu Hc Hm. destruct (decide (u = t)) as [->|Hut]; [done|].
    destruct (c_susp _ _ C u) as []; [set_solver|done|done|by constructor].
Qed.

(** A thread on no queue may be taken in hand. *)
Lemma core_take_hand X s t :
  core X s -> state (thr s t) <> THREAD_READY -> state (thr s t) <> THREAD_BLOCKED ->
  core (t :: X) s.
Proof.
  intros C H1 H2. constructor; try apply C.
  - intros p n Hn. destruct (c_run _ _ C p n Hn) as (? & u & -> & ? & ? & ?). split; [done|].
    exists u. split_and!; try done. apply not_elem_of_cons. split; [congruence|done].
  - intros w n Hn. destruct (c_wait _ _ C w n Hn) as (? & u & -> & ? & ? & ?). split; [done|].
    exists u. split_and!; try done. apply not_elem_of_cons. split; [congruence|done].
  - intros u Hu. apply C. set_solver.
  - intros u Hu. apply (c_susp _ _ C). set_solver.
Qed.

(** A thread in hand that is dead, or suspended and ready to start, may be let go. *)
Lemma core_let_go X s t :
  core (t :: X) s ->
  state (thr s t) = THREAD_DEATH \/
  state (thr s t) = THREAD_SUSPENDED /\ (magic (thr s t) = THREAD_MAGIC -> suspended_ok s t) \/
  state (thr s t) = THREAD_SLEEPING /\ placed s t /\ t = current_thread s ->
  core X s.
Proof.
  intros C H. constructor; try apply C.
  - intros p n Hn. destruct (c_run _ _ C p n Hn) as (? & u & ? & ? & ?). set_solver.
  - intros w n Hn. destruct (c_wait _ _ C w n Hn) as (? & u & ? & ? & ?). set_solver.
  - intros u Hu. destruct (decide (u = t)) as [->|Hut]; [|apply C; set_solver].
    unfold placed in *. destruct (state (thr s t)) eqn:E; naive_solver.
  - intros u Hu Hc Hm. destruct (decide (u = t)) as [->|Hut]; [|apply (c_susp _ _ C); set_solver].
    unfold may_run in Hm. destruct H as [H|[[H ?]|(H & ? & ?)]]; rewrite H in Hm; [done|auto|done].
Qed.

(** ** Timers *)

Lemma core_set_tmr X s x v :
  core X s -> N_timer x ∉ timerq s -> tm_magic v = TIMER_MAGIC -> period_ok x v ->
  core X (set_tmr x v s).
Proof.
  intros C Hx Hm Hp. set (s' := set_tmr x v s).
  assert (E : forall y, tmr s' y = if decide (y = x) then v else tmr s y) by done.
  assert (Ne : forall y, N_timer y ∈ timerq s -> tmr s' y = tmr s y).
  { intros y Hy. rewrite E. case_decide; [by subst|done]. }
  constructor; try apply C.
  - intros n Hn. destruct (c_timer _ _ C n Hn) as (y & -> & ? & ?). exists y.
    unfold callback_ok. rewrite Ne by done. done.
  - intros y. rewrite E. case_decide; [by subst|apply C].
  - intros u Hu. pose proof (c_placed _ _ C u Hu) as Hpl. unfold placed in *.
    change (state (thr s' u)) with (state (thr s u)). destruct (state (thr s u)); try done.
    destruct Hpl as [Hq Hcb]. rewrite Ne by done. done.
  - intros u Hu Hc Hmr. destruct (c_susp _ _ C u Hu Hc Hmr). constructor; try done.
    intros Ht. rewrite E. case_decide; auto.
Qed.

Lemma core_timer_links X s l :
  core X s -> links_ok l -> (forall h, h <> H_timer -> contents l h = contents (lnk s) h) ->
  (forall n, n ∈ contents l H_timer -> exists x, n = N_timer x /\
     tm_magic (tmr s x) = TIMER_MAGIC /\ callback_ok s x) ->
  (forall t, t ∉ X -> state (thr s t) = THREAD_SLEEPING -> N_timer (TM_stack t) ∈ contents l H_timer) ->
  core X (set_lnk l s).
Proof.
  intros C Hl Ho Ht Hs. set (s' := set_lnk l s).
  assert (R : forall p, runq s' p = runq s p) by (intros; by apply Ho).
  assert (W : forall w, waitq s' w = waitq s w) by (intros; by apply Ho).
  constructor; try done; try apply C.
  - intros p n. rewrite R. apply C.
  - intros w n. rewrite W. apply C.
  - intros w. rewrite W. apply C.
  - intros n. simpl. rewrite Ho by done. apply C.
  - intros p Hp. simpl. rewrite (c_bits _ _ C) by done. unfold list_is_empty.
    by rewrite Ho.
  - intros u Hu. pose proof (c_placed _ _ C u Hu) as Hpl. pose proof (Hs u Hu) as Hsl.
    unfold placed in *. change (thr s') with (thr s) in *.
    destruct (state (thr s u)); try done.
    + by rewrite R.
    + by setoid_rewrite W.
    + split; [by apply Hsl|apply Hpl].
  - intros u Hu Hc Hm. destruct (c_susp _ _ C u Hu Hc Hm). by constructor.
Qed.

Lemma core_threads_links X s l :
  core X s -> links_ok l -> (forall h, h <> H_threads -> contents l h = contents (lnk s) h) ->
  (forall n, n ∈ contents l H_threads -> exists t, n = N_tlist t) ->
  core X (set_lnk l s).
Proof.
  intros C Hl Ho Ht. set (s' := set_lnk l s).
  assert (R : forall p, runq s' p = runq s p) by (intros; by apply Ho).
  assert (W : forall w, waitq s' w = waitq s w) by (intros; by apply Ho).
  assert (T : timerq s' = timerq s) by by apply Ho.
  constructor; rewrite ?T; try done; try apply C.
  - intros p n. rewrite R. apply C.
  - intros w n. rewrite W. apply C.
  - intros w. rewrite W. apply C.
  - intros p Hp. simpl. rewrite (c_bits _ _ C) by done. unfold list_is_empty.
    by rewrite Ho.
  - intros u Hu. pose proof (c_placed _ _ C u Hu) as Hpl. unfold placed in *. rewrite T.
    change (thr s') with (thr s). destruct (state (thr s u)); try done.
    + by rewrite R.
    + by setoid_rewrite W.
  - intros u Hu Hc Hm. destruct (c_susp _ _ C u Hu Hc Hm). by constructor.
Qed.

Lemma core_dequeue_timer X s x :
  core X s -> N_timer x ∈ timerq s ->
  (forall t, t ∉ X -> x = TM_stack t -> state (thr s t) <> THREAD_SLEEPING) ->
  core X (set_lnk (list_delete (N_timer x) (lnk s)) s).
Proof.
  intros C Hx Hs. pose proof (hand_deleted _ _ _ _ C Hx) as D.
  apply core_timer_links; try done; try apply D.
  - intros n Hn. apply (de_elem _ _ _ D) in Hn as [Hn _]. by apply C.
  - intros t Ht Hst. apply (de_elem _ _ _ D). pose proof (c_placed _ _ C t Ht) as Hpl.
    unfold placed in Hpl. rewrite Hst in Hpl. split; [apply Hpl|].
    intros [= <-]. by apply (Hs t).
Qed.

(** [core] reads only these fields. *)
Lemma core_same X s s' :
  core X s -> lnk s' = lnk s -> thr s' = thr s -> wqs s' = wqs s -> tmr s' = tmr s ->
  current_thread s' = current_thread s -> run_queue_bitmap s' = run_queue_bitmap s -> core X s'.
Proof.
  intros C E1 E2 E3 E4 E5 E6. destruct s, s'. simpl in *. subst.
  destruct C. constructor; try done.
  intros u Hu Hc Hm. destruct (c_susp0 u Hu Hc Hm). by constructor.
Qed.

(** What the timer operations leave alone. *)
Record timer_frame s s' : Prop := {
  tf_thr : thr s' = thr s;
  tf_wqs : wqs s' = wqs s;
  tf_mtx : mtx s' = mtx s;
  tf_evt : evt s' = evt s;
  tf_sem : sem s' = sem s;
  tf_current : current_thread s' = current_thread s;
  tf_idle : idle_thread s' = idle_thread s;
  tf_bitmap : run_queue_bitmap s' = run_queue_bitmap s;
  tf_crit : critical_section_count s' = critical_section_count s;
  tf_ints : ints_enabled s = (critical_section_count s =? 0) -> ints_enabled s' = ints_enabled s;
  tf_lists : forall h, h <> H_timer -> contents (lnk s') h = contents (lnk s) h;
}.

Lemma timer_frame_trans s1 s2 s3 : timer_frame s1 s2 -> timer_frame s2 s3 -> timer_frame s1 s3.
Proof.
  intros [] []. constructor; try congruence.
  - intros H. pose proof (tf_ints0 H) as E. rewrite tf_ints1; [done|]. by rewrite tf_crit0, E.
  - intros h Hh. by rewrite tf_lists1, tf_lists0.
Qed.

(** The scan stops in front of the first later entry. *)
Lemma timer_scan_spec tm t es :
  (forall n, n ∈ es -> exists x, n = N_timer x) ->
  exists l1 l2, es = l1 ++ l2 /\
    timer_scan tm t es = Some (match l2 with N_timer e :: _ => Some e | _ => None end) /\
    (forall y, N_timer y ∈ l1 -> TIME_GT (scheduled_time (tm y)) t = false) /\
    match l2 with
    | [] => True
    | n :: _ => exists e, n = N_timer e /\ TIME_GT (scheduled_time (tm e)) t = true
    end.
Proof.
  induction es as [|n es IH]; intros Hall.
  { exists [], []. split_and!; try done. intros y Hy. set_solver. }
  destruct (Hall n) as [x ->]; [set_solver|]. simpl. destruct (TIME_GT _ _) eqn:E.
  - exists [], (N_timer x :: es). split_and!; try done; [intros y Hy; set_solver|eauto].
  - destruct IH as (l1 & l2 & -> & -> & H1 & H2); [set_solver|].
    exists (N_timer x :: l1), l2. split_and!; try done.
    intros y Hy. apply elem_of_cons in Hy as [[= ->]|Hy]; auto.
Qed.

Lemma insert_timer_spec X s x :
  core X s -> N_timer x ∉ timerq s ->
  exists l1 l2 l, insert_timer_in_queue x s = Some (tt, set_lnk l s) /\
    timerq s = l1 ++ l2 /\ contents l H_timer = l1 ++ N_timer x :: l2 /\ links_ok l /\
    (forall h, h <> H_timer -> contents l h = contents (lnk s) h) /\
    (forall y, N_timer y ∈ l1 -> TIME_GT (scheduled_time (tmr s y)) (scheduled_time (tmr s x)) = false) /\
    match l2 with
    | [] => True
    | n :: _ => exists e, n = N_timer e /\
        TIME_GT (scheduled_time (tmr s e)) (scheduled_time (tmr s x)) = true
    end.
Proof.
  intros C Hx. pose proof (core_timer_not_queued _ _ _ C Hx) as Hq. pose proof (c_links _ _ C) as L.
  destruct (timer_scan_spec (tmr s) (scheduled_time (tmr s x)) (timerq s))
    as (l1 & l2 & E & Hscan & H1 & H2).
  { intros n Hn. destruct (c_timer _ _ C n Hn) as (y & ? & _). eauto. }
  exists l1, l2. unfold insert_timer_in_queue, bind, getopt. fold (timerq s). rewrite Hscan.
  destruct l2 as [|n l2].
  - eexists. split; [done|]. rewrite app_nil_r in E.
    split_and!; try done; [by rewrite app_nil_r| |by apply add_tail_ok|].
    + rewrite add_tail_contents, decide_True by done. by rewrite <- E.
    + intros h Hh. by rewrite add_tail_contents, decide_False by done.
  - destruct H2 as (e & -> & He).
    assert (Hin : N_timer e ∈ timerq s) by (rewrite E; set_solver).
    assert (Hle : list_in_list (lnk s) (N_timer e) = true) by by apply (in_contents _ H_timer).
    eexists. split; [done|]. split_and!; try done; [|by apply add_before_ok| |by eauto].
    + rewrite add_before_contents by done. fold (timerq s). rewrite E. apply insert_before_app.
      pose proof (ok_nodup _ H_timer L) as Hnd. fold (timerq s) in Hnd. rewrite E in Hnd.
      apply NoDup_app in Hnd as (_ & Hd & _). intros Hin'. apply (Hd _ Hin'). set_solver.
    + intros h Hh. rewrite add_before_contents by done. apply insert_before_not_in.
      intros Hn. apply Hh. by apply (ok_disjoint _ _ _ _ L Hn).
Qed.

Lemma core_enqueue_timer X s x l l1 l2 :
  core X s -> tm_magic (tmr s x) = TIMER_MAGIC -> callback_ok s x ->
  timerq s = l1 ++ l2 -> contents l H_timer = l1 ++ N_timer x :: l2 -> links_ok l ->
  (forall h, h <> H_timer -> contents l h = contents (lnk s) h) ->
  core X (set_lnk l s).
Proof.
  intros C Hm Hcb E El Hl Ho. apply core_timer_links; auto; rewrite El.
  - intros n Hn. assert (n = N_timer x \/ n ∈ timerq s) as [->|Hn'] by (rewrite E; set_solver).
    + eauto.
    + by apply C.
  - intros t Ht Hs. pose proof (c_placed _ _ C t Ht) as Hp. unfold placed in Hp. rewrite Hs in Hp.
    destruct Hp as [Hp _]. rewrite E in Hp. set_solver.
Qed.

(** ** Critical sections *)

(** Interrupts are masked exactly inside critical sections. *)
Definition ints_ok s : Prop := ints_enabled s = (critical_section_count s =? 0).

Record crit_frame (d : Z) s s' : Prop := {
  cf_lnk : lnk s' = lnk s;
  cf_thr : thr s' = thr s;
  cf_wqs : wqs s' = wqs s;
  cf_tmr : tmr s' = tmr s;
  cf_mtx : mtx s' = mtx s;
  cf_evt : evt s' = evt s;
  cf_sem : sem s' = sem s;
  cf_current : current_thread s' = current_thread s;
  cf_idle : idle_thread s' = idle_thread s;
  cf_bitmap : run_queue_bitmap s' = run_queue_bitmap s;
  cf_crit : critical_section_count s' = critical_section_count s + d;
  cf_ints : ints_ok s -> ints_ok s';
}.

Lemma wp_enter Q s : 0 <= critical_section_count s ->
  (forall s', crit_frame 1 s s' -> Q tt s') -> wp enter_critical_section Q s.
Proof.
  intros Hc HQ. apply wp_modify, HQ. destruct (Z.eqb_spec (critical_section_count s) 0) as [E|E];
    constructor; unfold ints_ok; simpl; auto; intros H; rewrite ?H.
  - by rewrite E.
  - rewrite (proj2 (Z.eqb_neq _ _) E). symmetry. apply Z.eqb_neq. lia.
Qed.

Lemma wp_exit Q s : 1 <= critical_section_count s ->
  (forall s', crit_frame (-1) s s' -> Q tt s') -> wp exit_critical_section Q s.
Proof.
  intros Hc HQ. apply wp_modify, HQ. simpl.
  destruct (Z.eqb_spec (critical_section_count s - 1) 0) as [E|E];
    constructor; unfold ints_ok; simpl; auto.
  - intros _. symmetry. by apply Z.eqb_eq.
  - intros ->. rewrite (proj2 (Z.eqb_neq _ _) E). apply Z.eqb_neq. lia.
Qed.

Lemma crit_core d X s s' : crit_frame d s s' -> core X s -> core X s'.
Proof. intros [] C. eapply core_same; eauto. Qed.

Lemma crit_timer_frame s s1 s2 s3 :
  0 <= critical_section_count s ->
  crit_frame 1 s s1 -> timer_frame s1 s2 -> crit_frame (-1) s2 s3 -> timer_frame s s3.
Proof.
  intros Hc [] [] []. constructor; try congruence.
  - rewrite cf_crit1, tf_crit0, cf_crit0. lia.
  - intros H. unfold ints_ok in *.
    assert (E2 : ints_enabled s2 = (critical_section_count s2 =? 0)).
    { rewrite tf_ints0, tf_crit0 by auto. auto. }
    rewrite (cf_ints1 E2), H, cf_crit1, tf_crit0, cf_crit0. f_equal. lia.
  - intros h Hh. by rewrite cf_lnk1, tf_lists0, cf_lnk0.
Qed.

(** ** Timer operations *)

Lemma set_lnk_timer_frame s l :
  (forall h, h <> H_timer -> contents l h = contents (lnk s) h) -> timer_frame s (set_lnk l s).
Proof. intros H. by constructor. Qed.

Lemma set_tmr_timer_frame s x v : timer_frame s (set_tmr x v s).
Proof. by constructor. Qed.

Lemma callback_ok_same s s' x :
  thr s' = thr s -> tmr s' x = tmr s x -> current_thread s' = current_thread s ->
  callback_ok s x -> callback_ok s' x.
Proof. unfold callback_ok. by intros -> -> ->. Qed.

Lemma wp_timer_initialize X s x Q :
  core X s -> N_timer x ∉ timerq s ->
  (forall s', core X s' -> timer_frame s s' -> lnk s' = lnk s ->
     tm_magic (tmr s' x) = TIMER_MAGIC -> Q tt s') ->
  wp (timer_initialize x) Q s.
Proof.
  intros C Hx HQ. unfold timer_initialize. wp_steps.
  - by rewrite (core_timer_not_queued _ _ _ C Hx).
  - apply HQ; [|apply set_tmr_timer_frame|done|simpl; unfold upd; by rewrite decide_True].
    apply core_set_tmr; [done|done|done|by apply period_ok_oneshot].
Qed.

Lemma wp_timer_set X s x delay period cb Q :
  core X s -> N_timer x ∉ timerq s -> tm_magic (tmr s x) = TIMER_MAGIC ->
  0 <= period < 2 ^ 63 -> (0 < period -> exists f n, cb = CB_user f /\ x = TM n) ->
  0 <= critical_section_count s ->
  (forall s', tmr s' x = Timer TIMER_MAGIC (u64 (current_time s + delay)) period (Some cb) ->
     thr s' = thr s -> current_thread s' = current_thread s -> callback_ok s' x) ->
  (forall s', core X s' -> timer_frame s s' -> N_timer x ∈ timerq s' ->
     callback (tmr s' x) = Some cb -> (forall n, n ∈ timerq s' -> n = N_timer x \/ n ∈ timerq s) ->
     tm_magic (tmr s' x) = TIMER_MAGIC -> Q tt s') ->
  wp (timer_set x delay period cb) Q s.
Proof.
  intros C Hx Hm Hp Hpu Hc Hcb HQ. unfold timer_set. wp_steps.
  - rewrite Hm. done.
  - by rewrite (core_timer_not_queued _ _ _ C Hx).
  - set (s1 := set_tmr _ _ s).
    assert (C1 : core X s1).
    { apply core_set_tmr; try done. split; [done|]. intros H0. split; [done|].
      destruct (Hpu H0) as (f & n & -> & ->). eauto. }
    assert (E1 : tmr s1 x = Timer TIMER_MAGIC (u64 (current_time s + delay)) period (Some cb)).
    { simpl. unfold upd. rewrite decide_True by done. by rewrite Hm. }
    apply wp_enter; [done|]. intros s2 F2.
    pose proof (crit_core _ _ _ _ F2 C1) as C2.
    destruct (insert_timer_spec X s2 x C2) as (l1 & l2 & l & Ei & E & El & Hl & Ho & _ & _).
    { unfold timerq. by rewrite (cf_lnk _ _ _ F2). }
    apply wp_bind. eapply wp_some; [exact Ei|].
    apply wp_exit; [simpl; rewrite (cf_crit _ _ _ F2); simpl; lia|]. intros s4 F4.
    assert (Cb : callback_ok s2 x).
    { apply Hcb; rewrite ?(cf_tmr _ _ _ F2), ?(cf_thr _ _ _ F2), ?(cf_current _ _ _ F2); done. }
    assert (C3 : core X (set_lnk l s2)).
    { eapply core_enqueue_timer; eauto. rewrite (cf_tmr _ _ _ F2), E1. done. }
    apply HQ.
    + by eapply crit_core.
    + eapply timer_frame_trans; [apply set_tmr_timer_frame|]. fold s1.
      eapply crit_timer_frame; [|exact F2|by apply set_lnk_timer_frame|exact F4]. done.
    + unfold timerq. rewrite (cf_lnk _ _ _ F4). simpl. rewrite El. set_solver.
    + rewrite (cf_tmr _ _ _ F4). simpl. rewrite (cf_tmr _ _ _ F2), E1. done.
    + intros n. unfold timerq. rewrite (cf_lnk _ _ _ F4). simpl. rewrite El.
      fold (timerq s). change (timerq s) with (timerq s1). unfold timerq.
      rewrite <- (cf_lnk _ _ _ F2). fold (timerq s2). rewrite E. set_solver.
    + rewrite (cf_tmr _ _ _ F4). simpl. rewrite (cf_tmr _ _ _ F2), E1. done.
Qed.

Lemma wp_timer_cancel X s x Q :
  core X s -> tm_magic (tmr s x) = TIMER_MAGIC -> 0 <= critical_section_count s ->
  (forall t, t ∉ X -> x = TM_stack t -> state (thr s t) <> THREAD_SLEEPING) ->
  (forall s', core X s' -> timer_frame s s' -> N_timer x ∉ timerq s' ->
     (forall n, n ∈ timerq s' -> n ∈ timerq s) -> Q tt s') ->
  wp (timer_cancel x) Q s.
Proof.
  intros C Hm Hc Hs HQ. unfold timer_cancel. wp_steps; [by rewrite Hm|].
  apply wp_enter; [done|]. intros s1 F1. pose proof (crit_core _ _ _ _ F1 C) as C1.
  apply wp_bind, wp_gets, wp_bind.
  assert (H : exists s2, (if list_in_list (lnk s1) (N_timer x)
      then modify (fun s => set_lnk (list_delete (N_timer x) (lnk s)) s) else ret tt) s1 = Some (tt, s2) /\
    core X s2 /\ timer_frame s1 s2 /\ (N_timer x ∉ timerq s2) /\ (forall n, n ∈ timerq s2 -> n ∈ timerq s1)).
  { destruct (list_in_list (lnk s1) (N_timer x)) eqn:Eq.
    - apply core_timer_queued with (X := X) in Eq; [|done]. eexists. split; [done|].
      pose proof (hand_deleted _ _ _ _ C1 Eq) as D. split_and!.
      + apply core_dequeue_timer; [done|done|]. rewrite (cf_thr _ _ _ F1). done.
      + apply set_lnk_timer_frame. apply D.
      + unfold timerq. simpl. rewrite (de_elem _ _ _ D). naive_solver.
      + intros n Hn. by apply (de_elem _ _ _ D) in Hn as [? _].
    - exists s1. split; [done|]. split_and!; try done.
      rewrite <- core_timer_queued by done. by rewrite Eq. }
  destruct H as (s2 & E2 & C2 & F2 & Hx2 & Hsub). eapply wp_some; [exact E2|].
  apply wp_bind, wp_modify. set (s3 := set_tmr _ _ s2).
  assert (C3 : core X s3).
  { apply core_set_tmr; [done|done|done|by apply period_ok_oneshot]. }
  apply wp_exit; [simpl; rewrite (tf_crit _ _ F2), (cf_crit _ _ _ F1); lia|].
  intros s4 F4. apply HQ.
  - by eapply crit_core.
  - eapply crit_timer_frame; [done|exact F1| |exact F4].
    eapply timer_frame_trans; [exact F2|apply set_tmr_timer_frame].
  - unfold timerq. by rewrite (cf_lnk _ _ _ F4).
  - intros n. unfold timerq. rewrite (cf_lnk _ _ _ F4). simpl.
    fold (timerq s2). rewrite <- (cf_lnk _ _ _ F1). apply Hsub.
Qed.

End inv.
