(* ===== verification/Safety.v ===== *)
(** * The scheduler and the wait queues never fail an assertion

    The operations of kernel/thread.c, run from a state that satisfies the
    invariant, end without a panic in a state that satisfies it again, whatever
    thread they switch to. *)

From S2P Require Import Prelude ListH Kernel Sched Sync KInv.

Open Scope lk_scope.

Section safety.
Context {LO : ListOps knode khead} {LL : ListLaws knode khead}.
Implicit Types (s : kstate) (t u : Z) (w : wqid) (X : list Z) (k : list frame).

(** ** Returning *)

(** The current thread [s] is about to run the frames [k]. *)
Record unwinding k s : Prop := {
  u_core : core [current_thread s] s;
  u_state : state (cur s) = THREAD_RUNNING;
  u_magic : magic (cur s) = THREAD_MAGIC;
  u_prio : 0 <= priority (cur s) < NUM_PRIORITIES;
  u_frames : frames_ok k = true;
  u_exits : exits k <= critical_section_count s;
  u_irq : irq_last k (critical_section_count s);
  u_ints : ints_ok s;
  u_tm : timed k = true -> tm_magic (tmr s (TM_stack (current_thread s))) = TIMER_MAGIC;
  u_timer : N_timer (TM_stack (current_thread s)) ∈ timerq s -> timed k = true;
  u_idle : idle_ok s;
  u_objects : objects_ok s;
}.

(** What returning leaves alone: every queue of threads, the other threads, and
    the state of the current one. *)
Record return_frame s s' : Prop := {
  rf_current : current_thread s' = current_thread s;
  rf_idle : idle_thread s' = idle_thread s;
  rf_thr : forall t, t <> current_thread s -> thr s' t = thr s t;
  rf_cur : exists v, thr s' (current_thread s) = t_retval v (cur s);
  rf_run : forall p, runq s' p = runq s p;
  rf_wait : forall w, waitq s' w = waitq s w;
  rf_wqs : wqs s' = wqs s;
}.

Lemma return_frame_refl s : return_frame s s.
Proof. constructor; auto. exists (retval (cur s)). unfold cur. by destruct (thr s _). Qed.

Lemma return_frame_trans s1 s2 s3 : return_frame s1 s2 -> return_frame s2 s3 -> return_frame s1 s3.
Proof.
  intros [] []. constructor; try congruence.
  - intros t Ht. rewrite rf_thr1, rf_thr0 by congruence. done.
  - destruct rf_cur0 as [v0 E0], rf_cur1 as [v1 E1]. exists v1.
    rewrite rf_current0 in *. unfold cur in *. rewrite E1, rf_current0, E0. done.
Qed.

(** ... having left [d] critical sections. *)
Definition returned (d : Z) s s' : Prop :=
  return_frame s s' /\ critical_section_count s' = critical_section_count s - d.

Lemma returned_refl s : returned 0 s s.
Proof. split; [apply return_frame_refl|lia]. Qed.

Lemma returned_trans d1 d2 s1 s2 s3 :
  returned d1 s1 s2 -> returned d2 s2 s3 -> returned (d1 + d2) s1 s3.
Proof. intros [F1 E1] [F2 E2]. split; [by eapply return_frame_trans|lia]. Qed.

Lemma exits_nonneg k : 0 <= exits k.
Proof. induction k as [|f k IH]; simpl; [lia|]. destruct f; simpl; lia. Qed.

Lemma irq_last_cons f k c : irq_last (f :: k) c -> irq_last k (c - frame_exits f).
Proof.
  intros H Hin. destruct H as (k' & E & Hn & Hc); [set_solver|].
  destruct k' as [|f' k']; simplify_eq/=; [set_solver|].
  exists k'. split_and!; [done|set_solver|lia].
Qed.

(** A state that differs from an unwinding one only in its critical-section
    count and in the fields the invariant does not read. *)
Lemma unwinding_step f k s s' :
  unwinding (f :: k) s -> frame_timed f = false ->
  lnk s' = lnk s -> thr s' = thr s -> wqs s' = wqs s -> tmr s' = tmr s ->
  current_thread s' = current_thread s -> idle_thread s' = idle_thread s ->
  run_queue_bitmap s' = run_queue_bitmap s ->
  (forall m, m_magic (mtx s' m) = m_magic (mtx s m)) ->
  (forall e, e_magic (evt s' e) = e_magic (evt s e)) ->
  critical_section_count s' = critical_section_count s - frame_exits f ->
  ints_ok s' ->
  unwinding k s' /\ returned (frame_exits f) s s'.
Proof.
  intros U Hf El Et Ew Em Ec Ei Eb Emx Eev Ecr Hi. destruct U.
  assert (Etc : cur s' = cur s) by (unfold cur; by rewrite Et, Ec).
  split; [|split; [|done]].
  - simpl in *. rewrite Hf in *. simpl in *.
    constructor; rewrite ?Etc, ?Ec, ?Em, ?Ecr; auto; try lia.
    + eapply core_same; eauto.
    + by bools.
    + by apply irq_last_cons.
    + unfold timerq. by rewrite El.
    + intros i. rewrite Ei, Ec, Et. apply u_idle0.
    + destruct u_objects0 as [H1 H2].
      split; intros; rewrite Ew; [apply H1; by rewrite <- Emx|apply H2; by rewrite <- Eev].
  - constructor; auto.
    + intros. by rewrite Et.
    + rewrite Et. exists (retval (cur s)). unfold cur. by destruct (thr s _).
    + intros. unfold runq. by rewrite El.
    + intros. unfold waitq. by rewrite El.
Qed.

(** [exit_critical_section] as the end of a frame. *)
Lemma wp_exit_frame f k s v (Q : Z -> kstate -> Prop) :
  unwinding (f :: k) s -> frame_timed f = false -> frame_exits f = 1 ->
  (forall s', unwinding k s' -> returned 1 s s' -> Q v s') ->
  wp (exit_critical_section ;;; ret v) Q s.
Proof.
  intros U Hf Hx HQ. pose proof (u_exits _ _ U) as He. simpl in He.
  pose proof (exits_nonneg k). apply wp_bind, wp_exit; [lia|]. intros s' F.
  apply wp_ret. destruct F.
  assert (unwinding k s' /\ returned 1 s s') as [U' F']; [rewrite <- Hx|by apply HQ].
  apply (unwinding_step f); try done; try congruence; [rewrite Hx; lia|by apply cf_ints, U].
Qed.

(** Changing the lock word of an object before the end of a frame. *)
Lemma unwinding_mtx k s m v :
  unwinding k s -> m_magic v = m_magic (mtx s m) ->
  unwinding k (set_mtx m v s) /\ returned 0 s (set_mtx m v s).
Proof.
  intros U Hm. destruct U. split.
  - constructor; try done; [by eapply core_same|].
    destruct u_objects0 as [H1 H2]. split; [|done]. intros m'. simpl. unfold upd.
    case_decide; subst; [rewrite Hm|]; auto.
  - split; [|simpl; lia]. constructor; try done. exists (retval (cur s)). unfold cur. simpl.
    by destruct (thr s _).
Qed.

Lemma unwinding_evt k s e v :
  unwinding k s -> e_magic v = e_magic (evt s e) ->
  unwinding k (set_evt e v s) /\ returned 0 s (set_evt e v s).
Proof.
  intros U Hm. destruct U. split.
  - constructor; try done; [by eapply core_same|].
    destruct u_objects0 as [H1 H2]. split; [done|]. intros m'. simpl. unfold upd.
    case_decide; subst; [rewrite Hm|]; auto.
  - split; [|simpl; lia]. constructor; try done. exists (retval (cur s)). unfold cur. simpl.
    by destruct (thr s _).
Qed.

Lemma unwinding_sem k s x v :
  unwinding k s -> unwinding k (set_sem x v s) /\ returned 0 s (set_sem x v s).
Proof.
  intros U. destruct U. split.
  - constructor; try done. by eapply core_same.
  - split; [|simpl; lia]. constructor; try done. exists (retval (cur s)). unfold cur. simpl.
    by destruct (thr s _).
Qed.

(** [wait_queue_block] once its thread runs again: the time-out is cancelled. *)
Lemma wp_wq_block_frame k s timeout v (Q : Z -> kstate -> Prop) :
  unwinding (F_wq_block timeout :: k) s ->
  (forall s', unwinding k s' -> returned 0 s s' ->
     Q (wait_queue_block_ret (cur s)) s') ->
  wp (run_frame (F_wq_block timeout) v) Q s.
Proof.
  intros U HQ. pose proof (exits_nonneg k). unfold run_frame. apply wp_bind, wp_gets, wp_bind.
  destruct (timeout =? INFINITE_TIME) eqn:E; simpl.
  { apply wp_ret, wp_gets. destruct U. simpl in *. rewrite E in *. simpl in *.
    apply HQ; [|apply returned_refl]. constructor; try done.
    apply irq_last_cons in u_irq0. simpl in u_irq0. by rewrite Z.sub_0_r in u_irq0. }
  pose proof (u_tm _ _ U) as Htm. simpl in Htm. rewrite E in Htm. simpl in Htm.
  pose proof (u_exits _ _ U) as Hex. simpl in Hex.
  pose proof (u_frames _ _ U) as Hfr. simpl in Hfr. rewrite E in Hfr. simpl in Hfr. bools.
  eapply wp_timer_cancel; [apply U|auto|lia| |].
  { intros t Ht [= <-]. set_solver. }
  intros s' C' F' Hx' _. apply wp_gets.
  assert (Ec : cur s' = cur s) by (unfold cur; by rewrite (tf_thr _ _ F'), (tf_current _ _ F')).
  rewrite Ec. apply HQ; destruct U, F'.
  - simpl in *. constructor; rewrite ?Ec, ?tf_current, ?tf_crit; auto.
    + apply irq_last_cons in u_irq0. simpl in u_irq0. by rewrite Z.sub_0_r in u_irq0.
    + unfold ints_ok in *. rewrite tf_ints, tf_crit by done. done.
    + congruence.
    + intros i. rewrite tf_idle, tf_current, tf_thr. apply u_idle0.
    + unfold objects_ok in *. by rewrite tf_mtx, tf_evt, tf_wqs.
  - split; [|lia]. constructor; auto.
    + intros. by rewrite tf_thr.
    + rewrite tf_thr. exists (retval (cur s)). unfold cur. by destruct (thr s _).
    + intros p. by apply tf_lists.
    + intros w. by apply tf_lists.
Qed.

Lemma wp_run_frame f k s v :
  unwinding (f :: k) s ->
  wp (run_frame f v) (fun v' s' => unwinding k s' /\ returned (frame_exits f) s s') s.
Proof.
  intros U. pose proof (u_frames _ _ U) as Hfr. simpl in Hfr. bools.
  destruct f; try done.
  (* frames that only leave their critical section *)
  all: try (eapply wp_exit_frame; [exact U|done|done|auto]; fail).
  - apply wp_wq_block_frame with k; [done|auto].
  - apply wp_ret. apply (unwinding_step (F_wake ret) k s s); try done; try apply U. simpl. lia.
  - (* mutex_acquire *)
    unfold run_frame. apply wp_bind.
    assert (H' : forall v', m_magic v' = m_magic (mtx s m) ->
      wp (exit_critical_section ;;; ret v)
        (fun _ s' => unwinding k s' /\ returned 1 s s') (set_mtx m v' s)).
    { intros v' Hv. destruct (unwinding_mtx _ _ m v' U Hv) as [U' F'].
      eapply wp_exit_frame; [exact U'|done|done|]. intros s' U2 F2. split; [done|]. exact (returned_trans _ _ _ _ _ F' F2). }
    case_if; [case_if|]; wp_step; try (by apply H').
    eapply wp_exit_frame; [exact U|done|done|auto].
  - (* event_signal, auto-unsignal *)
    unfold run_frame. apply wp_bind. case_if; wp_step.
    + destruct (unwinding_evt _ _ e (Event (e_magic (evt s e)) true (e_flags (evt s e))) U) as [U' F'];
        [done|]. eapply wp_exit_frame; [exact U'|done|done|]. intros s' U2 F2. split; [done|].
      exact (returned_trans _ _ _ _ _ F' F2).
    + eapply wp_exit_frame; [exact U|done|done|auto].
  - (* sem_timedwait *)
    unfold run_frame. apply wp_bind. case_if; wp_step.
    + destruct (unwinding_sem _ _ s0 (Semaphore (s_magic (sem s s0)) (s_count (sem s s0) + 1)) U)
        as [U' F']. eapply wp_exit_frame; [exact U'|done|done|]. intros s' U2 F2. split; [done|].
      exact (returned_trans _ _ _ _ _ F' F2).
    + eapply wp_exit_frame; [exact U|done|done|auto].
  - (* the end of an interrupt *)
    unfold run_frame. wp_steps.
    destruct (u_irq _ _ U) as (k' & Ek & Hk' & Hx); [set_solver|].
    destruct k' as [|f' k']; simplify_eq/=; [|set_solver].
    apply (unwinding_step F_irq [] s); try done. unfold ints_ok. simpl. rewrite <- Hx. done.
  - (* the idle loop *)
    apply wp_ret. apply (unwinding_step F_idle k s s); try done; try apply U. simpl. lia.
Qed.

Lemma wp_run_frames k s v :
  unwinding k s -> wp (run_frames k v) (fun _ s' => wf s' /\ returned (exits k) s s') s.
Proof.
  revert s v. induction k as [|f k IH]; intros s v U; simpl.
  - apply wp_modify. split.
    + destruct U. constructor; [by apply core_set_cur; [|set_solver]|..].
      * constructor; unfold cur in *; simpl; unfold upd; rewrite ?decide_True by done; try done.
        -- intros Hin. by apply u_timer0 in Hin.
      * intros i Hi. simpl. unfold upd. case_decide; [by left|]. by apply u_idle0.
      * done.
    + split; [|simpl; lia]. constructor; try done.
      * intros t Ht. simpl. unfold upd. by rewrite decide_False.
      * exists v. simpl. unfold upd. by rewrite decide_True.
  - apply wp_bind. eapply wp_mono; [by apply wp_run_frame|]. intros v' s1 [U1 F1].
    eapply wp_mono; [by apply IH|]. intros _ s2 [W2 F2].
    eauto using returned_trans.
Qed.

(** ** Rescheduling *)

Lemma set_lnk_id s : set_lnk (lnk s) s = s.
Proof. by destruct s. Qed.

Lemma wp_remove_head_some h s t r (Q : option Z -> kstate -> Prop) :
  contents (lnk s) h = N_queue t :: r ->
  Q (Some t) (set_lnk (list_delete (N_queue t) (lnk s)) s) ->
  wp (remove_head_thread h) Q s.
Proof.
  intros E HQ. unfold remove_head_thread. apply wp_bind, wp_gets.
  unfold list_remove_head. rewrite E. apply wp_bind, wp_modify, wp_bind. by apply (wp_getopt _ _ _ t).
Qed.

Lemma wp_remove_head_none h s (Q : option Z -> kstate -> Prop) :
  contents (lnk s) h = [] -> Q None s -> wp (remove_head_thread h) Q s.
Proof.
  intros E HQ. unfold remove_head_thread. apply wp_bind, wp_gets.
  unfold list_remove_head. rewrite E. apply wp_bind, wp_modify, wp_ret. by rewrite set_lnk_id.
Qed.

(** The thread at the head of the highest nonempty run queue. *)
Definition next_thread s p t r : Prop :=
  0 <= p < NUM_PRIORITIES /\ runq s p = N_queue t :: r /\
  (forall q, p < q < NUM_PRIORITIES -> runq s q = []).

Lemma bitmap_next s :
  core [] s -> (exists i, state (thr s i) = THREAD_READY) ->
  exists t r, next_thread s (Z.log2 (run_queue_bitmap s)) t r /\ run_queue_bitmap s <> 0.
Proof.
  intros C [i Hi]. pose proof (c_placed _ _ C i (not_elem_of_nil i)) as Hpl.
  unfold placed in Hpl. rewrite Hi in Hpl.
  destruct (c_run _ _ C _ _ Hpl) as (Hp & _).
  assert (Hb : run_queue_bitmap s <> 0).
  { intros E. pose proof (c_bits _ _ C _ Hp) as B. rewrite E, Z.bits_0 in B.
    symmetry in B. apply negb_false_iff in B.
    assert (list_is_empty (lnk s) (H_run (priority (thr s i))) = false); [|congruence].
    apply is_empty_false. eauto. }
  pose proof (c_bitmap _ _ C) as Hr.
  assert (Hlog : 0 <= Z.log2 (run_queue_bitmap s) < NUM_PRIORITIES).
  { split; [apply Z.log2_nonneg|]. apply Z.log2_lt_pow2; unfold NUM_PRIORITIES; lia. }
  assert (Hset : list_is_empty (lnk s) (H_run (Z.log2 (run_queue_bitmap s))) = false).
  { apply negb_true_iff. rewrite <- (c_bits _ _ C) by done. apply Z.bit_log2. lia. }
  apply is_empty_false in Hset as [n Hn].
  destruct (runq s (Z.log2 (run_queue_bitmap s))) as [|n' r] eqn:E; unfold runq in E; rewrite E in Hn;
    [set_solver|].
  destruct (c_run _ _ C (Z.log2 (run_queue_bitmap s)) n') as (_ & t & -> & _);
    [unfold runq; rewrite E; set_solver|].
  exists t, r. split; [|done]. split; [done|]. split; [done|]. intros q Hq.
  pose proof (c_bits _ _ C q) as B. rewrite Z.bits_above_log2 in B by lia.
  specialize (B ltac:(lia)). symmetry in B. apply negb_false_iff in B.
  unfold list_is_empty in B. unfold runq. by destruct (contents (lnk s) (H_run q)).
Qed.

(** The current thread has put itself where it has to be and saved nothing yet. *)
Record resched_pre k s : Prop := {
  p_core : core [] s;
  p_crit : 1 <= critical_section_count s;
  p_ints : ints_ok s;
  p_frames : may_run s (current_thread s) ->
    magic (cur s) = THREAD_MAGIC /\ 0 <= priority (cur s) < NUM_PRIORITIES /\
    frames_ok k = true /\ exits k <= critical_section_count s /\
    irq_last k (critical_section_count s) /\
    (timed k = true -> tm_magic (tmr s (TM_stack (current_thread s))) = TIMER_MAGIC);
  p_timer : N_timer (TM_stack (current_thread s)) ∈ timerq s ->
    callback (tmr s (TM_stack (current_thread s))) = Some (CB_thread_sleep (current_thread s)) /\
      magic (cur s) = THREAD_MAGIC /\ state (cur s) = THREAD_SLEEPING \/
    callback (tmr s (TM_stack (current_thread s))) = Some (CB_wait_queue_timeout (current_thread s)) /\
      magic (cur s) = THREAD_MAGIC /\ timed k = true /\ in_wait (state (cur s)) = true;
  p_ready : exists i, state (thr s i) = THREAD_READY;
  p_idle : forall i, idle_thread s = Some i -> state (thr s i) = THREAD_READY;
  p_objects : objects_ok s;
}.

(** What a reschedule does to the queues: the chosen thread leaves its run
    queue; threads other than the two involved are untouched. *)
Record switched k s s' : Prop := {
  sw_next : exists p t r, next_thread s p t r /\ current_thread s' = t /\
    runq s' p = r /\ (forall q, q <> p -> runq s' q = runq s q);
  sw_wait : forall w, waitq s' w = waitq s w;
  sw_thr : forall u, u <> current_thread s -> u <> current_thread s' -> thr s' u = thr s u;
  sw_old : current_thread s' <> current_thread s ->
    thr s' (current_thread s) = t_frames k (t_saved (critical_section_count s) (cur s));
  sw_wqs : wqs s' = wqs s;
  sw_idle : idle_thread s' = idle_thread s;
  sw_stay : current_thread s' = current_thread s ->
    critical_section_count s' = critical_section_count s - exits k;
  sw_go : current_thread s' <> current_thread s ->
    critical_section_count s' = saved_critical_section_count (thr s (current_thread s')) -
                                exits (frames (thr s (current_thread s')));
  sw_prio : priority (cur s') = priority (thr s (current_thread s'));
}.

(** The chosen thread taken off its queue and marked running. *)
Lemma core_pop_running s p t :
  core [] s -> N_queue t ∈ runq s p ->
  core [t] (set_thr t (t_state THREAD_RUNNING) (pop_ready p t s)).
Proof.
  intros C Hin. destruct (c_run _ _ C p _ Hin) as (_ & t' & [= <-] & _ & Hst & _).
  apply core_set_thr; [by apply core_pop_ready|set_solver|]. right; right.
  destruct (pop_ready_fields p t s) as (_ & -> & _). simpl. by rewrite Hst.
Qed.

(** The switch proper. *)
Definition switch_state k old new s : kstate :=
  let s1 := set_current new
    (set_thr old (t_frames k) (set_thr old (t_saved (critical_section_count s)) s)) in
  set_thr new (t_frames []) (set_crit (saved_critical_section_count (thr s1 new)) s1).

Lemma switch_thr k old new s u :
  new <> old ->
  thr (switch_state k old new s) u =
    if decide (u = new) then t_frames [] (thr s new)
    else if decide (u = old) then t_frames k (t_saved (critical_section_count s) (thr s old))
    else thr s u.
Proof.
  intros Hne. simpl. unfold upd. repeat case_decide; subst; try done.
Qed.

Lemma core_switch k s t :
  core [t] s -> t <> current_thread s -> 1 <= critical_section_count s ->
  (may_run s (current_thread s) ->
    magic (cur s) = THREAD_MAGIC /\ 0 <= priority (cur s) < NUM_PRIORITIES /\
    frames_ok k = true /\ exits k <= critical_section_count s /\
    irq_last k (critical_section_count s) /\
    (timed k = true -> tm_magic (tmr s (TM_stack (current_thread s))) = TIMER_MAGIC)) ->
  (N_timer (TM_stack (current_thread s)) ∈ timerq s ->
    callback (tmr s (TM_stack (current_thread s))) = Some (CB_thread_sleep (current_thread s)) /\
      magic (cur s) = THREAD_MAGIC /\ state (cur s) = THREAD_SLEEPING \/
    callback (tmr s (TM_stack (current_thread s))) = Some (CB_wait_queue_timeout (current_thread s)) /\
      magic (cur s) = THREAD_MAGIC /\ timed k = true /\ in_wait (state (cur s)) = true) ->
  core [t] (switch_state k (current_thread s) t s).
Proof.
  intros C Hne Hcr Hf Ht. set (old := current_thread s) in *. set (s' := switch_state k old t s).
  assert (E : forall u, u <> t -> state (thr s' u) = state (thr s u) /\
    priority (thr s' u) = priority (thr s u) /\ magic (thr s' u) = magic (thr s u) /\
    blocking_wait_queue (thr s' u) = blocking_wait_queue (thr s u)).
  { intros u Hu. unfold s'. rewrite switch_thr by done. rewrite (decide_False) by done.
    by case_decide; subst. }
  assert (N : forall u, u ∉ [t] -> u <> t) by set_solver.
  constructor; try apply C.
  - intros p n Hn. destruct (c_run _ _ C p n Hn) as (? & u & ? & Hu & ?). split; [done|].
    exists u. destruct (E u (N u Hu)) as (-> & -> & _). done.
  - intros w n Hn. destruct (c_wait _ _ C w n Hn) as (? & u & ? & Hu & ?). split; [done|].
    exists u. destruct (E u (N u Hu)) as (-> & _ & _ & ->). done.
  - intros n Hn. destruct (c_timer _ _ C n Hn) as (x & -> & Hm & Hcb). exists x.
    split_and!; [done|done|]. unfold callback_ok in *. change (tmr s') with (tmr s).
    change (current_thread s') with t. unfold s'.
    destruct (callback (tmr s x)) as [[u|u|]|] eqn:Ecb; try done; destruct Hcb as [-> Hcb];
      split; try done; destruct (decide (u = t)) as [->|Hu]; auto; right;
      rewrite switch_thr, decide_False by done; destruct (decide (u = old)) as [->|Ho].
    + destruct (Ht Hn) as [H|H]; [apply H|]. destruct H. congruence.
    + by destruct Hcb.
    + destruct (Ht Hn) as [H|H]; [destruct H; congruence|apply H].
    + by destruct Hcb.
  - intros u Hu. pose proof (c_placed _ _ C u Hu) as Hpl. unfold placed in *.
    destruct (E u (N u Hu)) as (-> & -> & _ & ->). done.
  - intros u Hu Hc Hm. unfold may_run in Hm. destruct (E u (N u Hu)) as (E1 & E2 & E3 & _).
    rewrite E1, E3 in Hm. destruct (decide (u = old)) as [->|Ho].
    + destruct (Hf Hm) as (? & ? & ? & ? & ? & ?).
      assert (Eo : thr s' old = t_frames k (t_saved (critical_section_count s) (thr s old))).
      { unfold s'. rewrite switch_thr by done. rewrite decide_False, decide_True by done. done. }
      constructor; rewrite Eo; simpl; auto; lia.
    + destruct (c_susp _ _ C u Hu Ho Hm).
      assert (Eo : thr s' u = thr s u).
      { unfold s'. rewrite switch_thr by done. rewrite !decide_False by auto. done. }
      constructor; rewrite Eo; auto.
Qed.

Lemma pop_head X s p t r q :
  core X s -> runq s p = N_queue t :: r ->
  runq (pop_ready p t s) q = if decide (q = p) then r else runq s q.
Proof.
  intros C Hr. unfold runq in *. destruct (pop_ready_fields p t s) as (-> & _).
  rewrite (delete_head_contents _ (H_run p) _ r) by (done || apply C).
  destruct (decide (q = p)) as [->|]; [by rewrite decide_True|by rewrite decide_False by congruence].
Qed.

Lemma pop_waitq X s p t r w :
  core X s -> runq s p = N_queue t :: r -> waitq (pop_ready p t s) w = waitq s w.
Proof.
  intros C Hr. unfold waitq. destruct (pop_ready_fields p t s) as (-> & _).
  rewrite (delete_head_contents _ (H_run p) _ r) by (done || apply C).
  by rewrite decide_False.
Qed.

Lemma pop_timerq X s p t r :
  core X s -> runq s p = N_queue t :: r -> timerq (pop_ready p t s) = timerq s.
Proof.
  intros C Hr. unfold timerq. destruct (pop_ready_fields p t s) as (-> & _).
  rewrite (delete_head_contents _ (H_run p) _ r) by (done || apply C).
  by rewrite decide_False.
Qed.

Lemma idle_after_pop s t s' :
  (forall i, idle_thread s = Some i -> state (thr s i) = THREAD_READY) ->
  idle_thread s' = idle_thread s -> current_thread s' = t ->
  (forall u, u <> t -> state (thr s' u) = state (thr s u)) -> idle_ok s'.
Proof.
  intros Hs Ei Ec Et i. rewrite Ei, Ec. intros Hi.
  destruct (decide (i = t)) as [->|Hn]; [by left|right]. rewrite Et; auto.
Qed.

Lemma may_run_ready s t : state (thr s t) = THREAD_READY -> may_run s t.
Proof. unfold may_run. by intros ->. Qed.

(** The chosen thread is the current one: [thread_resched] returns at once. *)
Lemma resched_same k s p r :
  resched_pre k s -> runq s p = N_queue (current_thread s) :: r ->
  unwinding k (set_thr (current_thread s) (t_state THREAD_RUNNING) (pop_ready p (current_thread s) s)).
Proof.
  intros P Hr. pose proof (p_core _ _ P) as C. set (t := current_thread s) in *.
  assert (Hin : N_queue t ∈ runq s p) by (rewrite Hr; set_solver).
  destruct (c_run _ _ C p _ Hin) as (_ & t' & [= <-] & _ & Hst & _).
  destruct (pop_ready_fields p t s) as (_ & Et & Ew & Em & Ec & Ei & Ecr & Emx & Eev & _).
  destruct (p_frames _ _ P (may_run_ready _ _ Hst)) as (H1 & H2 & H3 & H4 & H5 & H6).
  pose proof (pop_timerq _ _ _ _ _ C Hr) as Etq.
  assert (Ecur : cur (set_thr t (t_state THREAD_RUNNING) (pop_ready p t s)) =
                 t_state THREAD_RUNNING (cur s)).
  { unfold cur. simpl. unfold upd. rewrite Ec, decide_True by done. by rewrite Et. }
  constructor; rewrite ?Ecur; simpl; rewrite ?Ec, ?Em, ?Ecr; try done.
  - by apply core_pop_running.
  - pose proof (p_ints _ _ P) as Hi. unfold ints_ok in *. simpl. rewrite Ecr.
    unfold pop_ready. simpl. by destruct (list_is_empty _ _).
  - intros Hin'. change (timerq _) with (timerq (pop_ready p t s)) in Hin'. rewrite Etq in Hin'.
    destruct (p_timer _ _ P Hin') as [(_ & _ & Hs)|(_ & _ & Ht & _)]; [|done].
    unfold cur in Hs. fold t in Hs. congruence.
  - eapply (idle_after_pop s t); [exact (p_idle _ _ P)|done|done|].
    intros u Hu. simpl. unfold upd. rewrite decide_False by done. by rewrite Et.
  - pose proof (p_objects _ _ P) as Ho. unfold objects_ok in *. simpl. by rewrite Emx, Eev, Ew.
Qed.

(** It is another one, [s1] being the state with its quantum refilled: its
    frames run next. *)
Record popped s t q s1 : Prop := {
  pp_core : core [t] s1;
  pp_thr : forall u, thr s1 u =
    if decide (u = t) then t_quantum q (t_state THREAD_RUNNING (thr s t)) else thr s u;
  pp_rest : exists f b, s1 = set_bitmap b (set_thrs f (set_lnk (list_delete (N_queue t) (lnk s)) s));
}.

Lemma pop_running_popped s p t :
  core [] s -> N_queue t ∈ runq s p ->
  popped s t (remaining_quantum (thr s t))
    (set_thr t (t_state THREAD_RUNNING) (pop_ready p t s)).
Proof.
  intros C Hin. destruct (pop_ready_fields p t s) as (_ & Et & _).
  constructor; [by apply core_pop_running|..].
  - intros u. simpl. unfold upd. rewrite Et. case_decide; [|done]. subst. by destruct (thr s t).
  - unfold pop_ready. simpl. destruct (list_is_empty _ _); do 2 eexists; [done|].
    unfold set_thr, set_bitmap. simpl. done.
Qed.

Lemma popped_quantum s t q q' s1 :
  popped s t q s1 -> popped s t q' (set_thr t (t_quantum q') s1).
Proof.
  intros [C E (f & b & ->)]. constructor.
  - apply core_set_thr; [done|set_solver|]. right; right. rewrite E, decide_True by done. done.
  - intros u. destruct (decide (u = t)) as [->|Hu].
    + rewrite set_thr_eq, E, decide_True by done. done.
    + rewrite set_thr_ne, E, decide_False by done. done.
  - eexists _, b. done.
Qed.

Lemma resched_other k s p t r q s1 :
  resched_pre k s -> runq s p = N_queue t :: r -> t <> current_thread s ->
  popped s t q s1 ->
  unwinding (frames (thr s t)) (switch_state k (current_thread s) t s1).
Proof.
  intros P Hr Hne [C1 Ethr (f1 & b1 & Es1)]. pose proof (p_core _ _ P) as C.
  set (old := current_thread s) in *.
  assert (Hin : N_queue t ∈ runq s p) by (rewrite Hr; set_solver).
  destruct (c_run _ _ C p _ Hin) as (_ & t' & [= <-] & _ & Hst & _).
  assert (Ew : wqs s1 = wqs s) by by subst.
  assert (Em : tmr s1 = tmr s) by by subst.
  assert (Ec1 : current_thread s1 = old) by by subst.
  assert (Ecr : critical_section_count s1 = critical_section_count s) by by subst.
  assert (Etq : timerq s1 = timerq s).
  { subst. unfold timerq. simpl. rewrite (delete_head_contents _ (H_run p) _ r) by (done || apply C).
    by rewrite decide_False. }
  destruct (c_susp _ _ C t) as [S1 S2 S3 S4 S5 S6 S7]; [set_solver|done|by apply may_run_ready|].
  assert (Eold : cur s1 = cur s).
  { unfold cur. by rewrite Ethr, Ec1, decide_False. }
  assert (C2 : core [t] (switch_state k old t s1)).
  { rewrite <- Ec1. apply core_switch; rewrite ?Ec1, ?Eold, ?Ecr; try done.
    - apply P.
    - rewrite Em. intros Hm. apply (p_frames _ _ P). unfold may_run in *.
      by rewrite Ethr, decide_False in Hm by done.
    - rewrite Etq, Em. apply P. }
  assert (Ecur : cur (switch_state k old t s1) =
                 t_frames [] (t_quantum q (t_state THREAD_RUNNING (thr s t)))).
  { unfold cur. change (current_thread _) with t. rewrite switch_thr, decide_True by done.
    by rewrite Ethr, decide_True. }
  assert (Ecrit : critical_section_count (switch_state k old t s1) =
                  saved_critical_section_count (thr s t)).
  { simpl. unfold upd. rewrite !(decide_False (P := t = old)) by done. by rewrite Ethr, decide_True. }
  constructor; rewrite ?Ecur, ?Ecrit; try done.
  - unfold ints_ok. rewrite Ecrit.
    pose proof (p_ints _ _ P) as Hi. pose proof (p_crit _ _ P). unfold ints_ok in Hi.
    rewrite (proj2 (Z.eqb_neq _ _)) by lia. simpl. subst s1. simpl. rewrite Hi. apply Z.eqb_neq. lia.
  - simpl. by rewrite Em.
  - intros Hq. change (timerq _) with (timerq s1) in Hq. rewrite Etq in Hq.
    destruct (c_timer _ _ C _ Hq) as (x & [= <-] & _ & Hcb). unfold callback_ok in Hcb.
    destruct (callback _) as [[u|u|]|]; try done; [..|by destruct Hcb].
    + destruct Hcb as ([= <-] & [?|[_ ?]]); [done|congruence].
    + destruct Hcb as ([= <-] & [?|(_ & ? & _)]); done.
  - eapply (idle_after_pop s t); [exact (p_idle _ _ P)|by subst|done|].
    intros u Hu. rewrite switch_thr by done. rewrite decide_False by done.
    rewrite !Ethr. rewrite (decide_False (P := u = t)), (decide_False (P := old = t)) by auto.
    case_decide; by subst.
  - pose proof (p_objects _ _ P) as Ho. unfold objects_ok in *. by subst.
Qed.

Lemma switched_same k s s1 s2 p r :
  core [] s -> next_thread s p (current_thread s) r ->
  s1 = set_thr (current_thread s) (t_state THREAD_RUNNING) (pop_ready p (current_thread s) s) ->
  returned (exits k) s1 s2 -> switched k s s2.
Proof.
  intros C (Hp & Hr & Hhi) -> [[] Hcr].
  destruct (pop_ready_fields p (current_thread s) s) as (_ & Et & Ew & Em & Ec & Ei & Ecr & _).
  simpl in *. rewrite Ec in *. constructor; try congruence.
  - exists p, (current_thread s), r. split; [done|]. split; [done|].
    split; [|intros q Hq]; rewrite rf_run0; unfold runq; simpl;
      fold (runq (pop_ready p (current_thread s) s) p);
      fold (runq (pop_ready p (current_thread s) s) q) || idtac;
      rewrite (pop_head _ _ _ _ r) by done; [by rewrite decide_True|by rewrite decide_False].
  - intros w. rewrite rf_wait0. unfold waitq. simpl. by apply (pop_waitq [] s p _ r).
  - intros u Hu _. rewrite rf_thr0 by done. unfold upd. rewrite decide_False by done. by rewrite Et.
  - unfold cur. destruct rf_cur0 as [v E]. rewrite rf_current0, E. unfold cur. simpl. rewrite ?Ec. unfold upd.
    rewrite decide_True by done. simpl. by rewrite Et.
Qed.

Lemma switched_other k s s1 s2 p t r q :
  core [] s -> next_thread s p t r -> t <> current_thread s -> popped s t q s1 ->
  returned (exits (frames (thr s t))) (switch_state k (current_thread s) t s1) s2 -> switched k s s2.
Proof.
  intros C (Hp & Hr & Hhi) Hne [_ Ethr (f1 & b1 & Es1)] [[] Hcr].
  assert (Hl : forall h, contents (lnk s1) h = if decide (h = H_run p) then r else contents (lnk s) h).
  { intros h. subst s1. simpl. by apply delete_head_contents; [apply C|]. }
  change (current_thread (switch_state _ _ _ _)) with t in *.
  assert (Et : forall u, u <> t -> thr s2 u =
    if decide (u = current_thread s) then t_frames k (t_saved (critical_section_count s) (cur s)) else thr s u).
  { intros u Hu. rewrite rf_thr0, switch_thr by done. rewrite decide_False by done.
    rewrite !Ethr. rewrite (decide_False (P := u = t)), (decide_False (P := current_thread s = t)) by auto.
    by subst s1. }
  constructor.
  - exists p, t, r. split; [done|]. split; [done|]. split; [|intros q' Hq]; rewrite rf_run0;
      unfold runq; simpl; rewrite Hl; [by rewrite decide_True|by rewrite decide_False by congruence].
  - intros w. rewrite rf_wait0. unfold waitq. simpl. rewrite Hl. by rewrite decide_False.
  - intros u Hu Hu'. rewrite rf_current0 in Hu'. rewrite Et, decide_False by done. done.
  - intros _. rewrite Et, decide_True by auto. done.
  - rewrite rf_wqs0. by subst s1.
  - rewrite rf_idle0. by subst s1.
  - intros E. congruence.
  - intros _. rewrite Hcr, rf_current0. simpl. unfold upd. rewrite !decide_False by done.
    by rewrite Ethr, decide_True.
  - unfold cur. destruct rf_cur0 as [v E]. rewrite rf_current0, E. unfold cur.
    change (current_thread (switch_state _ _ _ _)) with t. rewrite switch_thr, decide_True by done.
    by rewrite Ethr, decide_True.
Qed.

Lemma wp_thread_resched k s :
  resched_pre k s -> wp (thread_resched k) (fun _ s' => wf s' /\ switched k s s') s.
Proof.
  intros P. pose proof (p_core _ _ P) as C. pose proof (p_crit _ _ P) as Hcr.
  destruct (bitmap_next s C) as (t & r & N & Hb); [apply P|]. pose proof N as (Hp & Hr & Hhi).
  unfold thread_resched. wp_steps; [apply Z.ltb_lt; lia|by apply negb_true_iff, Z.eqb_neq|].
  replace (HIGHEST_PRIORITY - builtin_clz _ - _) with (Z.log2 (run_queue_bitmap s))
    by (unfold HIGHEST_PRIORITY, builtin_clz, NUM_PRIORITIES; lia).
  set (p := Z.log2 (run_queue_bitmap s)) in *.
  assert (Hin : N_queue t ∈ runq s p) by (rewrite Hr; set_solver).
  eapply wp_remove_head_some; [exact Hr|]. apply wp_bind, wp_gets, wp_bind.
  match goal with |- wp _ ?R _ => enough (H : R tt (pop_ready p t s)) end.
  { unfold pop_ready in H. simpl in H. simpl. destruct (list_is_empty _ _); exact H. }
  apply wp_bind, wp_modify. pose proof (pop_running_popped s p t C Hin) as Pp.
  destruct (Z.eqb_spec t (current_thread s)) as [->|Hne].
  - eapply wp_mono; [apply wp_run_frames; by eapply resched_same|].
    intros _ s' [W F]. split; [done|]. by eapply switched_same.
  - apply wp_bind, wp_gets, wp_bind.
    match goal with |- wp _ ?R _ => enough (H : forall q s1, popped s t q s1 -> R tt s1) end.
    { case_if; wp_step; eapply H; [by eapply popped_quantum|done]. }
    intros q s1 P1. pose proof P1 as [C1 Ethr (f1 & b1 & Es1)].
    destruct (c_susp _ _ C t) as [_ _ S3 _ _ _ _];
      [set_solver|done|apply may_run_ready; by destruct (c_run _ _ C p _ Hin) as (_ & ? & [= <-] & _ & ? & _)|].
    wp_steps; [subst s1; apply Z.ltb_lt; simpl; lia
              |rewrite Ethr, decide_True by done; apply Z.ltb_lt; simpl; lia|].
    unfold context_switch. wp_steps.
    match goal with |- wp _ _ ?s' => change s' with (switch_state k (current_thread s) t s1) end.
    match goal with |- wp (run_frames ?fs _) _ _ => replace fs with (frames (thr s t)) end.
    + eapply wp_mono; [apply wp_run_frames; by eapply resched_other|].
      intros _ s' [W F]. split; [done|]. by eapply switched_other.
    + simpl. unfold upd. rewrite decide_False by done. rewrite decide_False by done.
      by rewrite Ethr, decide_True.
Qed.

(** ** Entering a call *)

Lemma wf_unwinding s : wf s -> unwinding [] s.
Proof.
  intros [C [] Hi Ho]. constructor; try done.
  intros Hin. set_solver.
Qed.

Lemma irq_last_push f k c : f <> F_irq -> irq_last k c -> irq_last (f :: k) (c + frame_exits f).
Proof.
  intros Hf H Hin. apply elem_of_cons in Hin as [|Hin]; [congruence|].
  destruct (H Hin) as (k' & -> & Hk & Hx). exists (f :: k').
  split_and!; [done|set_solver|]. simpl. lia.
Qed.

Lemma unwinding_enter f k s s' :
  unwinding k s -> crit_frame 1 s s' -> frame_simple f = true -> frame_timed f = false ->
  frame_exits f = 1 -> f <> F_irq -> unwinding (f :: k) s'.
Proof.
  intros [] F Hs Ht Hx Hi. pose proof (crit_core _ _ _ _ F u_core0) as C'. destruct F.
  assert (Ec : cur s' = cur s) by (unfold cur; by rewrite cf_thr, cf_current).
  constructor; rewrite ?Ec, ?cf_current, ?cf_tmr, ?cf_crit; simpl; rewrite ?Ht; auto; try lia.
  - by rewrite Hs.
  - replace (critical_section_count s + 1) with (critical_section_count s + frame_exits f) by lia.
    by apply irq_last_push.
  - unfold timerq. by rewrite cf_lnk.
  - intros i. rewrite cf_idle, cf_current, cf_thr. apply u_idle0.
  - unfold objects_ok. by rewrite cf_mtx, cf_evt, cf_wqs.
Qed.

Lemma wp_enter_call f k s (Q : unit -> kstate -> Prop) :
  unwinding k s -> frame_simple f = true -> frame_timed f = false -> frame_exits f = 1 -> f <> F_irq ->
  (forall s', unwinding (f :: k) s' -> crit_frame 1 s s' -> Q tt s') ->
  wp enter_critical_section Q s.
Proof.
  intros U Hs Ht Hx Hi HQ. apply wp_enter.
  - pose proof (u_exits _ _ U). pose proof (exits_nonneg k). lia.
  - intros s' F. apply HQ; [|done]. by eapply unwinding_enter.
Qed.

(** Changes to the queues and to other threads in the middle of a call. *)
Lemma unwinding_upd k s s' :
  unwinding k s -> core [current_thread s] s' -> cur s' = cur s ->
  current_thread s' = current_thread s -> idle_thread s' = idle_thread s ->
  critical_section_count s' = critical_section_count s -> ints_enabled s' = ints_enabled s ->
  tmr s' = tmr s -> (forall n, n ∈ timerq s' -> n ∈ timerq s) ->
  (forall u, state (thr s u) = THREAD_READY -> state (thr s' u) = THREAD_READY) ->
  mtx s' = mtx s -> evt s' = evt s -> (forall w, wq_magic (wqs s' w) = wq_magic (wqs s w)) ->
  unwinding k s'.
Proof.
  intros [] C' Ec Ecu Ei Ecr Eint Etm Etq Hr Emx Eev Ew.
  constructor; rewrite ?Ec, ?Ecu, ?Ecr, ?Etm; auto.
  - unfold ints_ok in *. by rewrite Eint, Ecr.
  - intros i. rewrite Ei, Ecu. intros Hi. destruct (u_idle0 i Hi); auto.
  - destruct u_objects0 as [H1 H2]. rewrite <- Emx in H1. rewrite <- Eev in H2.
    split; intros; rewrite Ew; auto.
Qed.

Lemma wp_insert_run add X s t (Q : unit -> kstate -> Prop) :
  core (t :: X) s -> magic (thr s t) = THREAD_MAGIC -> state (thr s t) = THREAD_READY ->
  0 <= priority (thr s t) < NUM_PRIORITIES -> 1 <= critical_section_count s ->
  Q tt (put_ready add t s) -> wp (insert_in_run_queue add t) Q s.
Proof.
  intros C Hm Hs Hp Hc HQ. unfold insert_in_run_queue.
  wp_steps; rewrite ?Hm, ?Hs; try done.
  - rewrite (core_hand_not_queued (t :: X)) by (done || set_solver). done.
  - apply Z.ltb_lt. lia.
  - apply andb_true_iff. rewrite Z.leb_le, Z.ltb_lt. lia.
Qed.

(** [s] is [s0] with only the current thread's structure changed. *)
Record cur_changed s0 s : Prop := {
  cc_rest : exists f, s = set_thrs f s0;
  cc_thr : forall u, u <> current_thread s0 -> thr s u = thr s0 u;
  cc_core : forall X, core X s0 -> current_thread s0 ∈ X -> core X s;
}.

Lemma cur_changed_refl s : cur_changed s s.
Proof. constructor; try done. exists (thr s). by destruct s. Qed.

Lemma cur_changed_set f s0 s : cur_changed s0 s -> cur_changed s0 (set_cur f s).
Proof.
  intros [(g & ->) Ht Hc]. constructor.
  - by eexists.
  - intros u Hu. unfold set_cur. rewrite set_thr_ne by done. by apply Ht.
  - intros X C Hin. apply core_set_cur; auto.
Qed.

Lemma cur_set f s : cur (set_cur f s) = f (cur s).
Proof. unfold cur, set_cur. rewrite <- set_thr_eq. done. Qed.

(** The current thread, made ready, puts itself on its run queue. *)
Lemma requeue_pre add k s0 s :
  adds add -> unwinding k s0 -> timed k = false -> 1 <= critical_section_count s0 ->
  cur_changed s0 s -> state (cur s) = THREAD_READY -> magic (cur s) = magic (cur s0) ->
  priority (cur s) = priority (cur s0) ->
  resched_pre k (put_ready add (current_thread s) s).
Proof.
  intros Ha [] Hk Hcr [(f & ->) Ht Hc] Hs Hm Hp. set (s := set_thrs f s0) in *.
  specialize (Hc _ u_core0 (list_elem_of_here _ _)).
  change (current_thread s0) with (current_thread s) in *.
  set (s' := put_ready add (current_thread s) s).
  assert (C : core [] s').
  { apply core_put_ready; try done; [set_solver|]. unfold cur in Hp. by rewrite Hp. }
  constructor; try done.
  - intros _. change (cur s') with (cur s). rewrite Hm, Hp. split_and!; try done; apply u_prio0.
  - intros Hin. assert (timerq s' = timerq s) as E.
    { eapply hand_added; [exact Hc|set_solver|done|done]. }
    rewrite E in Hin. specialize (u_timer0 Hin). congruence.
  - by exists (current_thread s).
  - intros i Hi. simpl. destruct (decide (i = current_thread s)) as [->|Hne]; [done|].
    destruct (u_idle0 i Hi) as [|Hr]; [done|]. by rewrite Ht.
Qed.

(** ... and gives up the processor. *)
Lemma wp_requeue add k s0 s :
  adds add -> unwinding k s0 -> timed k = false -> 1 <= critical_section_count s0 ->
  cur_changed s0 s -> state (cur s) = THREAD_READY -> magic (cur s) = magic (cur s0) ->
  priority (cur s) = priority (cur s0) ->
  wp (insert_in_run_queue add (current_thread s) ;;; thread_resched k)
    (fun _ s' => wf s' /\ switched k (put_ready add (current_thread s) s) s') s.
Proof.
  intros Ha U Hk Hc Cc Hs Hm Hp. destruct (cc_rest _ _ Cc) as (f & ->).
  apply wp_bind, (wp_insert_run add []).
  - apply (cc_core _ _ Cc); [exact (u_core _ _ U)|simpl; set_solver].
  - unfold cur in Hm. rewrite Hm. exact (u_magic _ _ U).
  - done.
  - unfold cur in Hp. rewrite Hp. exact (u_prio _ _ U).
  - done.
  - by apply wp_thread_resched, (requeue_pre _ _ s0).
Qed.

(** ** thread_yield, thread_preempt *)

Lemma wp_check_current k s (Q : unit -> kstate -> Prop) :
  unwinding k s -> Q tt s -> wp (check_current THREAD_RUNNING) Q s.
Proof.
  intros [] HQ. unfold check_current. wp_steps; [by rewrite u_magic0|by rewrite u_state0].
Qed.

(** The run queues once the current thread has joined the tail of its own. *)
Definition yieldq s (p : Z) : list knode :=
  if decide (p = priority (cur s)) then runq s p ++ [N_queue (current_thread s)] else runq s p.

Record yielded k s s' : Prop := {
  y_next : exists p t r, 0 <= p < NUM_PRIORITIES /\ yieldq s p = N_queue t :: r /\
    (forall q, p < q < NUM_PRIORITIES -> yieldq s q = []) /\ current_thread s' = t /\
    runq s' p = r /\ (forall q, q <> p -> runq s' q = yieldq s q);
  y_thr : forall u, u <> current_thread s -> u <> current_thread s' -> thr s' u = thr s u;
  y_idle : idle_thread s' = idle_thread s;
  y_stay : current_thread s' = current_thread s ->
    critical_section_count s' = critical_section_count s - exits k;
  y_go : current_thread s' <> current_thread s ->
    critical_section_count s' = saved_critical_section_count (thr s (current_thread s')) -
                                exits (frames (thr s (current_thread s')));
  y_prio : priority (cur s') = priority (thr s (current_thread s'));
}.

Lemma switched_yielded k s s1 s2 s' :
  crit_frame 1 s s1 -> core [current_thread s1] s1 -> cur_changed s1 s2 ->
  priority (cur s2) = priority (cur s1) ->
  switched (F_yield :: k) (put_ready list_add_tail (current_thread s2) s2) s' -> yielded k s s'.
Proof.
  intros F1 C1 Cc Ep Sw. pose proof (cc_rest _ _ Cc) as [f Es2].
  assert (Ec : current_thread s2 = current_thread s) by (rewrite Es2; exact (cf_current _ _ _ F1)).
  assert (Ep' : priority (thr s2 (current_thread s2)) = priority (cur s)).
  { unfold cur in *. by rewrite Ep, (cf_current _ _ _ F1), (cf_thr _ _ _ F1). }
  set (s3 := put_ready _ _ _) in *.
  assert (R : forall p, runq s3 p = yieldq s p).
  { intros p. unfold s3, yieldq. rewrite (put_tail_runq [current_thread s1]), Ep', Ec by
      (try (apply (cc_core _ _ Cc); [exact C1|]); rewrite ?Es2; simpl; set_solver).
    unfold runq. rewrite Es2. simpl. by rewrite (cf_lnk _ _ _ F1). }
  assert (Et : forall u, u <> current_thread s -> thr s3 u = thr s u).
  { intros u Hu. rewrite <- (cf_thr _ _ _ F1). apply (cc_thr _ _ Cc).
    by rewrite (cf_current _ _ _ F1). }
  change (current_thread s3) with (current_thread s2) in Sw.
  destruct Sw as [(p & t & r & (Hp & Hr & Hup) & Ecur & E1 & E2) _ Ht _ _ Hi Hs Hg Hpr].
  change (current_thread s3) with (current_thread s2) in *. rewrite Ec in *. constructor.
  - exists p, t, r. setoid_rewrite <- R. split_and!; try done; apply Hp.
  - intros u Hu Hu'. rewrite Ht by done. by apply Et.
  - rewrite Hi. change (idle_thread s2 = idle_thread s). rewrite Es2. exact (cf_idle _ _ _ F1).
  - intros E. rewrite Hs by done. change (critical_section_count s3) with (critical_section_count s2).
    rewrite Es2. simpl. rewrite (cf_crit _ _ _ F1). lia.
  - intros E. rewrite Hg by done. by rewrite Et.
  - rewrite Hpr. destruct (decide (current_thread s' = current_thread s)) as [E|E]; [|by rewrite Et].
    rewrite E. exact Ep'.
Qed.

Lemma wp_thread_yield_next k s :
  unwinding k s -> timed k = false -> wp (thread_yield k) (fun _ s' => wf s' /\ yielded k s s') s.
Proof.
  intros U Hk. unfold thread_yield. apply wp_bind, (wp_check_current k); [done|].
  apply wp_bind, (wp_enter_call F_yield k); [done..|]. intros s1 U1 F1.
  apply wp_bind, wp_modify, wp_bind, wp_modify, wp_bind, wp_gets.
  pose proof (u_exits _ _ U1) as Hx. simpl in Hx. pose proof (exits_nonneg k).
  set (s2 := set_cur _ _).
  assert (E2 : cur s2 = t_quantum 0 (t_state THREAD_READY (cur s1))) by (unfold s2; by rewrite !cur_set).
  assert (Cc : cur_changed s1 s2) by (repeat apply cur_changed_set; apply cur_changed_refl).
  eapply wp_mono; [apply (wp_requeue _ _ s1)|]; try done; try (by rewrite E2); [apply adds_tail|lia|].
  intros ? s' [W Sw]. split; [done|].
  eapply (switched_yielded k s s1); [done|apply U1|done|by rewrite E2|done].
Qed.

Lemma wp_thread_yield k s :
  unwinding k s -> timed k = false -> wp (thread_yield k) (fun _ s' => wf s') s.
Proof. intros U Hk. eapply wp_mono; [by apply wp_thread_yield_next|]. by intros ? ? []. Qed.

(** A yield by a thread of higher priority than every ready one comes back at once. *)
Lemma yielded_stays k s s' :
  yielded k s s' -> 0 <= priority (cur s) < NUM_PRIORITIES ->
  (forall p, priority (cur s) <= p -> runq s p = []) ->
  current_thread s' = current_thread s /\ (forall p, runq s' p = runq s p) /\
  idle_thread s' = idle_thread s /\ critical_section_count s' = critical_section_count s - exits k.
Proof.
  intros [(p & t & r & Hp & Hr & Hup & Ecur & E1 & E2) _ Hi Hs _ _] Hpc Hhi.
  assert (Hd : p = priority (cur s) /\ t = current_thread s /\ r = []).
  { unfold yieldq in *. destruct (decide (p = priority (cur s))) as [->|Hd].
    - rewrite Hhi in Hr by lia. by simplify_eq/=.
    - destruct (decide (priority (cur s) <= p)); [by rewrite Hhi in Hr|].
      specialize (Hup (priority (cur s))). rewrite decide_True in Hup by done.
      destruct (app_cons_not_nil (runq s (priority (cur s))) [] (N_queue (current_thread s))).
      symmetry. apply Hup. lia. }
  destruct Hd as (-> & -> & ->). split_and!; auto.
  intros q. destruct (decide (q = priority (cur s))) as [->|Hq]; [rewrite E1; symmetry; apply Hhi; lia|].
  rewrite E2 by done. unfold yieldq. by rewrite decide_False.
Qed.

Lemma wp_thread_preempt k s :
  unwinding k s -> timed k = false -> wp (thread_preempt k) (fun _ s' => wf s') s.
Proof.
  intros U Hk. unfold thread_preempt. apply wp_bind, (wp_check_current k); [done|].
  apply wp_bind, (wp_enter_call F_preempt k); [done..|]. intros s1 U1 F1.
  apply wp_bind, wp_modify, wp_bind, wp_gets, wp_bind, wp_gets.
  pose proof (u_exits _ _ U1) as Hx. simpl in Hx. pose proof (exits_nonneg k).
  case_if; (eapply wp_mono; [apply (wp_requeue _ _ s1)|by intros ? ? []]); try done;
    try (by rewrite !cur_set); auto with lk; try lia; apply cur_changed_set, cur_changed_refl.
Qed.

(** ** wait_queue_block *)

(** The stack timer of a thread about to block. *)
Record armed (timeout : Z) s s' : Prop := {
  ar_core : core [] s';
  ar_frame : timer_frame s s';
  ar_set : timeout <> INFINITE_TIME ->
    callback (tmr s' (TM_stack (current_thread s))) = Some (CB_wait_queue_timeout (current_thread s)) /\
    tm_magic (tmr s' (TM_stack (current_thread s))) = TIMER_MAGIC;
  ar_none : timeout = INFINITE_TIME -> N_timer (TM_stack (current_thread s)) ∉ timerq s';
}.

Lemma wp_arm timeout s :
  core [] s -> 0 <= critical_section_count s ->
  N_timer (TM_stack (current_thread s)) ∉ timerq s ->
  wp (when negb (timeout =? INFINITE_TIME) do
        (timer_initialize (TM_stack (current_thread s)) ;;;
         timer_set_oneshot (TM_stack (current_thread s)) timeout
           (CB_wait_queue_timeout (current_thread s))))
     (fun _ s' => armed timeout s s') s.
Proof.
  intros C Hc Hq. destruct (Z.eqb_spec timeout INFINITE_TIME) as [->|Hne]; simpl.
  { apply wp_ret. by constructor. }
  apply wp_bind. eapply wp_timer_initialize; [exact C|done|]. intros s1 C1 F1 El Hm.
  unfold timer_set_oneshot. eapply wp_timer_set; [exact C1| |done|lia|lia| | |].
  - unfold timerq. by rewrite El.
  - by rewrite (tf_crit _ _ F1).
  - intros s' E1 E2 E3. unfold callback_ok. rewrite E1. simpl. split; [done|left].
    by rewrite E3, (tf_current _ _ F1).
  - intros s' C' F' Hq' Hcb _ Hm'. constructor; try done.
    by eapply timer_frame_trans.
Qed.

Lemma block_pre timeout k s0 s1 s2 s3 w :
  unwinding k s0 -> timed k = false -> 1 <= critical_section_count s0 ->
  can_block s0 ->
  (exists f, s1 = set_thrs f s0) -> cur_changed s0 s1 ->
  cur s1 = t_bret NO_ERROR (t_bwq (Some w) (t_state THREAD_BLOCKED (cur s0))) ->
  armed timeout (put_waiting w (current_thread s0) s1) s2 -> 
  (forall w, wq_magic (wqs s2 w) = wq_magic (wqs s0 w)) ->
  crit_frame 1 s2 s3 ->
  resched_pre (F_block :: F_wq_block timeout :: k) s3.
Proof.
  intros U Hk Hc Hidle (f & ->) Cc Ecur [C2 F2 Hset Hnone] Hwq F3.
  change (current_thread (put_waiting w (current_thread s0) (set_thrs f s0))) with (current_thread s0) in *.
  assert (Ec : current_thread s3 = current_thread s0).
  { by rewrite (cf_current _ _ _ F3), (tf_current _ _ F2). }
  assert (Et : thr s3 = f) by by rewrite (cf_thr _ _ _ F3), (tf_thr _ _ F2).
  assert (Ecs : cur s3 = cur (set_thrs f s0)) by (unfold cur; rewrite Ec, Et; done).
  assert (Ecr : critical_section_count s3 = critical_section_count s0 + 1).
  { by rewrite (cf_crit _ _ _ F3), (tf_crit _ _ F2). }
  pose proof U as []. constructor; rewrite ?Ec, ?Ecs, ?Ecur, ?Ecr, ?(cf_tmr _ _ _ F3); try lia.
  - by eapply crit_core.
  - apply (cf_ints _ _ _ F3). unfold ints_ok in *.
    by rewrite (tf_ints _ _ F2), (tf_crit _ _ F2) by done.
  - intros _. simpl. split; [done|]. split; [done|].
    split; [rewrite Hk, u_frames0; by destruct (timeout =? _)|].
    split; [lia|]. split.
    + replace (critical_section_count s0 + 1) with
        (critical_section_count s0 + frame_exits (F_wq_block timeout) + frame_exits F_block)
        by (simpl; lia).
      apply irq_last_push; [done|]. by apply irq_last_push.
    + rewrite Hk, orb_false_r. intros Ht. apply Hset. by apply negb_true_iff, Z.eqb_neq in Ht.
  - unfold timerq. rewrite (cf_lnk _ _ _ F3). fold (timerq s2). intros Hin. right. simpl.
    destruct (Z.eqb_spec timeout INFINITE_TIME) as [->|Hne]; [by destruct (Hnone eq_refl)|].
    destruct (Hset Hne). done.
  - destruct Hidle as (i & Hi & Hne). exists i. rewrite Et.
    destruct (u_idle0 i Hi) as [|Hs]; [done|]. by rewrite <- (cc_thr _ _ Cc i Hne) in Hs.
  - intros i'. rewrite (cf_idle _ _ _ F3), (tf_idle _ _ F2), Et. intros Hi'.
    destruct Hidle as (i & Hi & Hne). change (idle_thread s0 = Some i') in Hi'.
    assert (i' = i) as -> by congruence.
    destruct (u_idle0 i Hi) as [|Hs]; [done|]. by rewrite <- (cc_thr _ _ Cc i Hne) in Hs.
  - destruct u_objects0 as [H1 H2].
    split; intros; rewrite (cf_wqs _ _ _ F3), Hwq;
      [apply H1; by rewrite (cf_mtx _ _ _ F3), (tf_mtx _ _ F2) in *
      |apply H2; by rewrite (cf_evt _ _ _ F3), (tf_evt _ _ F2) in *].
Qed.

(** What blocking does to the queues, in terms of the state [s0] of the call. *)
Definition blocked_on w timeout k s0 s' : Prop :=
  exists s3, switched (F_block :: F_wq_block timeout :: k) s3 s' /\
    current_thread s3 = current_thread s0 /\
    (forall p, runq s3 p = runq s0 p) /\
    (forall w', waitq s3 w' = if decide (w' = w) then waitq s0 w ++ [N_queue (current_thread s0)]
                              else waitq s0 w').

Lemma wp_wait_queue_block w timeout k s :
  unwinding k s -> timed k = false -> 1 <= critical_section_count s ->
  wq_magic (wqs s w) = WAIT_QUEUE_MAGIC ->
  timeout <> 0 -> can_block s ->
  wp (wait_queue_block w timeout k) (fun _ s' => wf s' /\ blocked_on w timeout k s s') s.
Proof.
  intros U Hk Hc Hw Ht Hi. unfold wait_queue_block.
  pose proof (u_state _ _ U) as Hst. pose proof (u_core _ _ U) as C.
  apply wp_bind, wp_gets, wp_bind, wp_assert; [by rewrite Hw|].
  apply wp_bind, wp_gets, wp_bind, wp_assert; [by rewrite Hst|].
  apply wp_bind, wp_gets, wp_bind, wp_assert; [apply Z.ltb_lt; lia|].
  rewrite (proj2 (Z.eqb_neq _ _)) by done. apply wp_bind, wp_gets.
  apply wp_bind, wp_modify, wp_bind, wp_modify, wp_bind, wp_modify, wp_bind, wp_modify,
    wp_bind, wp_modify.
  set (s1 := set_cur (t_bret NO_ERROR) (set_cur (t_bwq (Some w)) (set_cur (t_state THREAD_BLOCKED) s))).
  match goal with |- wp _ _ ?s' => change s' with (put_waiting w (current_thread s) s1) end.
  assert (Cc : cur_changed s s1) by (repeat apply cur_changed_set; apply cur_changed_refl).
  assert (Ecur : cur s1 = t_bret NO_ERROR (t_bwq (Some w) (t_state THREAD_BLOCKED (cur s))))
    by (unfold s1; by rewrite !cur_set).
  assert (C1 : core [current_thread s] s1) by (apply (cc_core _ _ Cc); [done|set_solver]).
  pose proof (hand_added _ s1 (current_thread s) list_add_tail (H_wait w) C1
    (list_elem_of_here _ _) adds_tail) as A.
  assert (C2 : core [] (put_waiting w (current_thread s) s1)).
  { apply core_put_waiting; try done; [set_solver|..];
      change (thr s1 (current_thread s)) with (cur s1); by rewrite Ecur. }
  apply wp_bind. eapply wp_mono;
    [apply (wp_arm timeout (put_waiting w (current_thread s) s1)); [done|simpl; lia|]|].
  { unfold timerq. simpl. rewrite (ad_other _ _ _ _ A) by done. intros Hin.
    apply (u_timer _ _ U) in Hin. congruence. }
  intros [] s2 Ar. pose proof Ar as [C3 F2 _ _]. unfold thread_block, check_current.
  assert (Ecs : cur s2 = cur s1) by (unfold cur; by rewrite (tf_thr _ _ F2), (tf_current _ _ F2)).
  wp_steps; rewrite ?Ecs, ?Ecur; [simpl; by rewrite (u_magic _ _ U)|done|].
  apply wp_enter; [rewrite (tf_crit _ _ F2); simpl; lia|]. intros s3 F3.
  eapply wp_mono; [apply wp_thread_resched|intros ? s' [W Sw]; split; [done|]].
  - eapply block_pre; try done; [by eexists|]. intros w'. rewrite (tf_wqs _ _ F2). simpl. unfold upd.
    by case_decide; subst.
  - exists s3. split; [done|]. split; [by rewrite (cf_current _ _ _ F3), (tf_current _ _ F2)|].
    unfold runq, waitq. rewrite (cf_lnk _ _ _ F3). split.
    + intros p. rewrite (tf_lists _ _ F2) by done. by apply (ad_other _ _ _ _ A).
    + intros w'. rewrite (tf_lists _ _ F2) by done. simpl.
      rewrite add_tail_contents by
        first [exact (c_links _ _ C1) | apply (core_hand_not_queued [current_thread s]); set_solver].
      destruct (decide (w' = w)) as [->|]; [by rewrite decide_True|by rewrite decide_False by congruence].
Qed.

(** Every outcome of [wait_queue_block]. *)
Lemma wp_wait_block_wf w timeout k s :
  unwinding k s -> timed k = false -> 1 <= critical_section_count s ->
  wq_magic (wqs s w) = WAIT_QUEUE_MAGIC -> can_block s ->
  wp (wait_queue_block w timeout k) (fun _ s' => wf s') s.
Proof.
  intros U Hk Hc Hw Hi. destruct (decide (timeout = 0)) as [->|Ht].
  - unfold wait_queue_block.
    apply wp_bind, wp_gets, wp_bind, wp_assert; [by rewrite Hw|].
    apply wp_bind, wp_gets, wp_bind, wp_assert; [by rewrite (u_state _ _ U)|].
    apply wp_bind, wp_gets, wp_bind, wp_assert; [apply Z.ltb_lt; lia|]. simpl.
    eapply wp_mono; [by apply wp_run_frames|by intros ? ? []].
  - eapply wp_mono; [by apply wp_wait_queue_block|by intros ? ? []].
Qed.

(** ** Waking *)

Lemma suspended_same s s' t :
  suspended_ok s t -> tmr s' = tmr s -> magic (thr s' t) = magic (thr s t) ->
  priority (thr s' t) = priority (thr s t) ->
  saved_critical_section_count (thr s' t) = saved_critical_section_count (thr s t) ->
  frames (thr s' t) = frames (thr s t) -> suspended_ok s' t.
Proof. intros [] E1 E2 E3 E4 E5. constructor; rewrite ?E1, ?E2, ?E3, ?E4, ?E5; auto. Qed.

Definition wake_fields (err : Z) (th : thread) : thread :=
  t_bwq None (t_bret err (t_state THREAD_READY th)).

(** [s'] is [s] with [t] taken off wait queue [w], awake and on its run queue. *)
Record woken X w t err s s' : Prop := {
  wo_core : core X s';
  wo_rest : exists f g l b, s' = set_bitmap b (set_thrs f (set_wqs g (set_lnk l s)));
  wo_thr : forall u, thr s' u = if decide (u = t) then wake_fields err (thr s t) else thr s u;
  wo_magic : forall v, wq_magic (wqs s' v) = wq_magic (wqs s v);
  wo_wait : forall v, waitq s' v = if decide (v = w) then list_remove_all (N_queue t) (waitq s w)
                                   else waitq s v;
  wo_run : forall p, runq s' p = if decide (p = priority (thr s t)) then N_queue t :: runq s p
                                 else runq s p;
  wo_timer : timerq s' = timerq s;
}.

Definition wake_state w t err s : kstate :=
  set_thr t (t_bwq None) (set_thr t (t_bret err) (set_thr t (t_state THREAD_READY)
    (take_waiter w t s))).

Lemma wake_state_thr w t err s u :
  thr (wake_state w t err s) u = if decide (u = t) then wake_fields err (thr s t) else thr s u.
Proof. simpl. unfold upd. repeat case_decide; subst; try done. Qed.

Lemma core_wake_state X w t err s :
  core X s -> N_queue t ∈ waitq s w -> core (t :: X) (wake_state w t err s).
Proof.
  intros C Hin. destruct (c_wait _ _ C w _ Hin) as (_ & t' & [= <-] & _ & Hst & _).
  pose proof (core_take_waiter _ _ _ _ C Hin) as C1. unfold wake_state.
  apply core_set_thr; [apply core_set_thr; [apply core_set_thr; [done|set_solver|]|set_solver|]|set_solver|];
    right; right; simpl; unfold upd; rewrite ?decide_True by done; simpl; by rewrite ?Hst.
Qed.

Lemma woken_put X w t err s s1 :
  core X s -> N_queue t ∈ waitq s w -> t <> current_thread s -> core (t :: X) s1 ->
  (forall u, thr s1 u = if decide (u = t) then wake_fields err (thr s t) else thr s u) ->
  (exists f g, s1 = set_thrs f (set_wqs g (set_lnk (list_delete (N_queue t) (lnk s)) s))) ->
  (forall v, wq_magic (wqs s1 v) = wq_magic (wqs s v)) ->
  woken X w t err s (put_ready list_add_head t s1).
Proof.
  intros C Hin Hne C1 Hthr (f1 & g1 & Es1) Hwm.
  destruct (c_wait _ _ C w _ Hin) as (_ & t' & [= <-] & HtX & Hst & _).
  pose proof (hand_deleted _ _ _ _ C Hin) as D.
  assert (Et : thr s1 t = wake_fields err (thr s t)) by by rewrite Hthr, decide_True.
  assert (So : suspended_ok s t) by (apply C; [done|done|unfold may_run; by rewrite Hst]).
  assert (Ep : priority (thr s1 t) = priority (thr s t)) by by rewrite Et.
  assert (L : forall h, contents (lnk (put_ready list_add_head t s1)) h =
    if decide (h = H_run (priority (thr s t))) then N_queue t :: contents (lnk s1) h else contents (lnk s1) h).
  { intros h. change (lnk (put_ready list_add_head t s1)) with
      (list_add_head (H_run (priority (thr s1 t))) (N_queue t) (lnk s1)).
    rewrite Ep, add_head_contents by
      first [exact (c_links _ _ C1) | apply (core_hand_not_queued (t :: X)); set_solver].
    by case_decide; subst. }
  assert (El : lnk s1 = list_delete (N_queue t) (lnk s)) by by subst s1.
  constructor; try done.
  - apply core_put_ready; [done|done|apply adds_head|by rewrite Et|rewrite Ep; apply So|].
    intros _. eapply suspended_same; [exact So|by subst s1|by rewrite Et..].
  - subst s1. by do 4 eexists.
  - intros v. unfold waitq. rewrite L, decide_False, El by done.
    destruct (decide (v = w)) as [->|]; [apply D|by rewrite (de_other _ _ _ D) by congruence].
  - intros p. unfold runq. rewrite L, El, (de_other _ _ _ D) by done.
    destruct (decide (p = priority (thr s t))) as [->|]; [by rewrite decide_True|by rewrite decide_False by congruence].
  - unfold timerq. rewrite L, decide_False, El by done. by rewrite (de_other _ _ _ D).
Qed.

Lemma wp_wake_insert X w t r err s (Q : unit -> kstate -> Prop) :
  core X s -> state (cur s) <> THREAD_BLOCKED -> 1 <= critical_section_count s ->
  waitq s w = N_queue t :: r -> (forall s', woken X w t err s s' -> Q tt s') ->
  wp (wake_thread w t err ;;; insert_in_run_queue_head t) Q
    (set_lnk (list_delete (N_queue t) (lnk s)) s).
Proof.
  intros C Hcur Hc Hr HQ. assert (Hin : N_queue t ∈ waitq s w) by (rewrite Hr; set_solver).
  destruct (c_wait _ _ C w _ Hin) as (_ & t' & [= <-] & HtX & Hst & _).
  assert (Hne : t <> current_thread s) by (intros ->; done).
  destruct (c_susp _ _ C t HtX Hne) as [Sm Sp _ _ _ _ _]; [unfold may_run; by rewrite Hst|].
  unfold wake_thread, wq_add. wp_steps; [simpl; by rewrite Hst|].
  match goal with |- wp _ _ ?s' => change s' with (wake_state w t err s) end.
  pose proof (wake_state_thr w t err s t) as Et. rewrite decide_True in Et by done.
  eapply (wp_insert_run _ X); rewrite ?Et; try done.
  - by apply core_wake_state.
  - apply HQ. apply woken_put; try done.
    + by apply core_wake_state.
    + intros u. apply wake_state_thr.
    + by do 2 eexists.
    + intros v. simpl. unfold upd. by case_decide; subst.
Qed.

(** The current thread is on its run queue again and other threads have been
    woken since [s0]. *)
Record progressed s0 s : Prop := {
  pg_rest : exists f g l b, s = set_bitmap b (set_thrs f (set_wqs g (set_lnk l s0)));
  pg_timer : timerq s = timerq s0;
  pg_magic : forall v, wq_magic (wqs s v) = wq_magic (wqs s0 v);
  pg_ready : forall u, u <> current_thread s0 ->
    state (thr s0 u) = THREAD_READY -> state (thr s u) = THREAD_READY;
}.

Lemma progressed_refl s : progressed s s.
Proof.
  constructor; try done. exists (thr s), (wqs s), (lnk s), (run_queue_bitmap s). by destruct s.
Qed.

Lemma progressed_trans s1 s2 s3 : progressed s1 s2 -> progressed s2 s3 -> progressed s1 s3.
Proof.
  intros [(f & g & l & b & ->) T1 M1 R1] [(f' & g' & l' & b' & ->) T2 M2 R2].
  constructor; [by do 4 eexists|congruence|congruence|]. intros u Hu Hr. apply R2; [done|]. auto.
Qed.

Lemma progressed_woken X w t err s s' : woken X w t err s s' -> progressed s s'.
Proof.
  intros []. constructor; auto. intros u Hu Hr. rewrite wo_thr0. case_decide; [done|done].
Qed.

Lemma ready_pre k s0 s :
  unwinding k s0 -> timed k = false -> 1 <= critical_section_count s0 -> core [] s ->
  progressed s0 s -> state (cur s) = THREAD_READY -> magic (cur s) = magic (cur s0) ->
  priority (cur s) = priority (cur s0) -> resched_pre k s.
Proof.
  intros [] Hk Hcr C [(f & g & l & b & Es) Ht Hm Hr] Hs Hmg Hp.
  assert (Ec : current_thread s = current_thread s0) by by subst.
  assert (Ecr : critical_section_count s = critical_section_count s0) by by subst.
  constructor; rewrite ?Ec, ?Ecr, ?Ht; try done.
  - by subst.
  - intros _. rewrite Hmg, Hp. split_and!; try done; try apply u_prio0. congruence.
  - intros Hin. apply u_timer0 in Hin. congruence.
  - exists (current_thread s0). by rewrite <- Ec.
  - intros i Hi. destruct (decide (i = current_thread s0)) as [->|Hne]; [by rewrite <- Ec|].
    destruct (u_idle0 i) as [|Hri]; [by subst|done|]. by apply Hr.
  - destruct u_objects0 as [H1 H2]. subst s. split; intros; rewrite Hm; auto.
Qed.

Lemma woken_unwinding k w t err s s' :
  unwinding k s -> woken [current_thread s] w t err s s' -> t <> current_thread s -> unwinding k s'.
Proof.
  intros U W Hne. pose proof W as [C (f & g & l & b & Es) Et Em _ _ Eq].
  eapply unwinding_upd; try exact U; try (by subst s').
  - unfold cur. rewrite Et. subst s'. simpl. by rewrite decide_False.
  - by rewrite Eq.
  - intros u Hu. rewrite Et. by case_decide.
Qed.

(** ** wait_queue_wake_one *)

(** [t] is woken with the current thread requeued in front of it first. *)
Lemma wp_requeue_insert k s0 s1 t :
  unwinding k s0 -> timed k = false -> 1 <= critical_section_count s0 -> progressed s0 s1 ->
  core [t; current_thread s0] s1 -> t <> current_thread s0 -> cur s1 = cur s0 ->
  magic (thr s1 t) = THREAD_MAGIC -> state (thr s1 t) = THREAD_READY -> suspended_ok s1 t ->
  wp (requeue_current ;;; insert_in_run_queue_head t) (fun _ s' => resched_pre k s' /\
     s' = put_ready list_add_head t (put_ready list_add_head (current_thread s0)
            (set_cur (t_state THREAD_READY) s1))) s1.
Proof.
  intros U Hk Hc Pg C Hne Ecur Hm Hs So. pose proof Pg as [(f & g & l & b & Es) _ _ _].
  assert (Ec : current_thread s1 = current_thread s0) by by subst.
  assert (Ecr : critical_section_count s1 = critical_section_count s0) by by subst.
  set (c := current_thread s0) in *. set (s2 := set_cur (t_state THREAD_READY) s1).
  assert (C2 : core [c; t] s2).
  { apply (core_mono [t; c]); [|set_solver]. apply core_set_cur; [done|]. rewrite Ec. set_solver. }
  assert (E2 : thr s2 c = t_state THREAD_READY (cur s1)).
  { unfold s2, set_cur. rewrite Ec, set_thr_eq. unfold cur. by rewrite Ec. }
  assert (E2t : thr s2 t = thr s1 t).
  { unfold s2, set_cur. rewrite set_thr_ne; [done|by rewrite Ec]. }
  assert (So2 : suspended_ok s2 t) by (eapply suspended_same; [exact So|done|by rewrite E2t..]).
  assert (Hpc : 0 <= priority (thr s2 c) < NUM_PRIORITIES).
  { rewrite E2. simpl. rewrite Ecur. exact (u_prio _ _ U). }
  unfold requeue_current. apply wp_bind, wp_bind, wp_modify. fold s2. apply wp_bind, wp_gets.
  change (current_thread s2) with (current_thread s1). rewrite Ec.
  eapply (wp_insert_run _ [t]); rewrite ?E2; simpl; rewrite ?Ecur; try done;
    [exact (u_magic _ _ U)|exact (u_prio _ _ U)|by rewrite Ecr|].
  assert (C3 : core [t] (put_ready list_add_head c s2)).
  { apply core_put_ready; [done|set_solver|apply adds_head|by rewrite E2|done|].
    change (current_thread s2) with (current_thread s1). by rewrite Ec. }
  set (s3 := put_ready list_add_head c s2) in *.
  assert (Hpt : 0 <= priority (thr s3 t) < NUM_PRIORITIES) by apply So2.
  eapply (wp_insert_run _ []); try done;
    try (change (thr s3 t) with (thr s2 t); by rewrite E2t);
    [change (1 <= critical_section_count s1); by rewrite Ecr|].
  split; [|done]. set (s4 := put_ready list_add_head t s3).
  assert (C4 : core [] s4).
  { apply core_put_ready; [done|set_solver|apply adds_head| |done|].
    - change (thr s3 t) with (thr s2 t). by rewrite E2t.
    - intros _. eapply suspended_same; [exact So2|done..]. }
  assert (E4 : cur s4 = t_state THREAD_READY (cur s0)).
  { unfold cur. change (thr s4 (current_thread s4)) with (thr s2 (current_thread s1)).
    rewrite Ec, E2, Ecur. done. }
  eapply ready_pre; try exact U; try done; rewrite ?E4; try done.
  eapply progressed_trans; [exact Pg|]. constructor.
  - by do 4 eexists.
  - unfold timerq. simpl. pose proof (hand_added _ s3 t list_add_head (H_run (priority (thr s3 t))) C3
      (list_elem_of_here _ _) adds_head) as A3.
    pose proof (hand_added _ s2 c list_add_head (H_run (priority (thr s2 c))) C2
      (list_elem_of_here _ _) adds_head) as A2.
    etransitivity; [by apply A3|]. by apply A2.
  - done.
  - intros u Hu Hr. change (thr s4 u) with (thr s2 u). unfold s2, set_cur.
    by rewrite set_thr_ne.
Qed.

Lemma wp_wake_thread X w t err s (Q : unit -> kstate -> Prop) :
  core X s -> N_queue t ∈ waitq s w -> Q tt (wake_state w t err s) ->
  wp (wake_thread w t err) Q (set_lnk (list_delete (N_queue t) (lnk s)) s).
Proof.
  intros C Hin HQ. destruct (c_wait _ _ C w _ Hin) as (_ & t' & [= <-] & _ & Hst & _).
  unfold wake_thread, wq_add. wp_steps. simpl. by rewrite Hst.
Qed.

Lemma progressed_wake_state X w t err s :
  core X s -> N_queue t ∈ waitq s w -> progressed s (wake_state w t err s).
Proof.
  intros C Hin. constructor.
  - exists (thr (wake_state w t err s)), (wqs (wake_state w t err s)),
      (lnk (wake_state w t err s)), (run_queue_bitmap s). done.
  - unfold timerq. simpl. by apply (hand_deleted _ _ _ _ C Hin).
  - intros v. simpl. unfold upd. by case_decide; subst.
  - intros u Hu Hr. rewrite wake_state_thr. by case_decide.
Qed.

Lemma wp_wake_one w reschedule err k s :
  unwinding k s -> timed k = false -> 1 <= critical_section_count s ->
  wq_magic (wqs s w) = WAIT_QUEUE_MAGIC ->
  wp (wait_queue_wake_one w reschedule err k) (fun _ s' => wf s') s.
Proof.
  intros U Hk Hc Hw. pose proof (u_core _ _ U) as C. unfold wait_queue_wake_one, check_wait_queue.
  wp_steps; [by rewrite Hw|apply Z.ltb_lt; lia|].
  destruct (waitq s w) as [|n r] eqn:Er.
  { eapply wp_remove_head_none; [exact Er|].
    eapply wp_mono; [by apply wp_run_frames|by intros ? ? []]. }
  assert (Hin : n ∈ waitq s w) by (rewrite Er; set_solver).
  destruct (c_wait _ _ C w _ Hin) as (_ & t & -> & HtX & Hst & _).
  assert (Hne : t <> current_thread s) by set_solver.
  eapply wp_remove_head_some; [exact Er|]. destruct reschedule.
  - apply wp_bind, (wp_wake_thread [current_thread s]); [done|done|].
    pose proof (wake_state_thr w t err s) as Et. pose proof (core_wake_state _ w t err s C Hin) as C1.
    set (s1 := wake_state w t err s) in *.
    assert (Et1 : thr s1 t = wake_fields err (thr s t)) by by rewrite Et, decide_True.
    assert (So : suspended_ok s t).
    { apply (c_susp _ _ C); [done|done|unfold may_run; by rewrite Hst]. }
    apply wp_bind, (wp_assoc _ (fun _ => insert_in_run_queue_head t)).
    eapply wp_mono; [apply (wp_requeue_insert (F_wake 1 :: k) s)|]; try done.
    + destruct U. constructor; try done. 
      apply (irq_last_push (F_wake 1)) in u_irq0; [|done]. by rewrite Z.add_0_r in u_irq0.
    + by eapply progressed_wake_state.
    + unfold cur. change (current_thread s1) with (current_thread s). by rewrite Et, decide_False by auto.
    + rewrite Et1. apply So.
    + by rewrite Et1.
    + eapply suspended_same; [exact So|done|by rewrite Et1..].
    + intros _ s' [P _]. eapply wp_mono; [by apply wp_thread_resched|by intros ? ? []].
  - apply wp_bind, (wp_assoc _ (fun _ => insert_in_run_queue_head t)).
    eapply (wp_wake_insert [current_thread s]); [done|by rewrite (u_state _ _ U)|lia|exact Er|].
    intros s' W. eapply wp_mono; [apply wp_run_frames; by eapply woken_unwinding|by intros ? ? []].
Qed.

(** ** wait_queue_wake_all *)

Definition node_priority s (n : knode) : Z :=
  match n with N_queue t => priority (thr s t) | _ => -1 end.

(** Everything on [w] was woken, last in front. *)
Record all_woken X w err s s' : Prop := {
  aw_core : core X s';
  aw_progress : progressed s s';
  aw_wait : forall v, waitq s' v = if decide (v = w) then [] else waitq s v;
  aw_run : forall p, runq s' p =
    rev (filter (fun n => node_priority s n = p) (waitq s w)) ++ runq s p;
  aw_thr : forall u, thr s' u = if decide (N_queue u ∈ waitq s w) then wake_fields err (thr s u)
                                else thr s u;
}.

Lemma all_woken_cons X w t r err s s1 s2 :
  core X s -> waitq s w = N_queue t :: r -> woken X w t err s s1 -> all_woken X w err s1 s2 ->
  all_woken X w err s s2.
Proof.
  intros C Er W [C2 P2 W2 R2 T2]. pose proof W as [C1 Rest Et Em Ew Ern Etm].
  assert (Hnd : NoDup (N_queue t :: r)) by (rewrite <- Er; apply ok_nodup, C).
  assert (Er1 : waitq s1 w = r).
  { rewrite Ew, decide_True, Er by done. by apply remove_all_head. }
  apply NoDup_cons in Hnd as [Hnt Hnd].
  constructor; auto.
  - eapply progressed_trans; [by eapply progressed_woken|done].
  - intros v. rewrite W2. case_decide; [done|]. by rewrite Ew, decide_False.
  - intros p. rewrite R2, Er1, Er, Ern, filter_cons. simpl.
    assert (Ef : filter (fun n => node_priority s1 n = p) r = filter (fun n => node_priority s n = p) r).
    { apply filter_ext_in. intros [u|u|x] Hu; simpl; try done. rewrite Et.
      rewrite decide_False; [done|]. intros ->. done. }
    rewrite Ef. destruct (decide (priority (thr s t) = p)) as [<-|Hp].
    + rewrite decide_True by done. simpl. by rewrite <- app_assoc.
    + by rewrite decide_False by congruence.
  - intros u. rewrite T2, Er1, Et, Er. destruct (decide (u = t)) as [->|Hu].
    + rewrite decide_False by done. rewrite decide_True by set_solver. done.
    + destruct (decide (N_queue u ∈ r)); [rewrite decide_True by set_solver; done|].
      rewrite decide_False; [done|]. intros Hin. apply elem_of_cons in Hin as [[= ->]|]; done.
Qed.

Lemma all_woken_nil X w err s : core X s -> waitq s w = [] -> all_woken X w err s s.
Proof.
  intros C Er. constructor; auto using progressed_refl.
  - intros v. by case_decide; subst.
  - intros p. by rewrite Er.
  - intros u. rewrite Er, decide_False by set_solver. done.
Qed.

Lemma wp_wake_loop fuel X w err n s :
  core X s -> state (cur s) <> THREAD_BLOCKED -> 1 <= critical_section_count s ->
  (length (waitq s w) < fuel)%nat ->
  wp (wake_loop fuel w err n)
     (fun n' s' => n' = n + Z.of_nat (length (waitq s w)) /\ all_woken X w err s s') s.
Proof.
  revert s n. induction fuel as [|f IH]; intros s n C Hst Hc Hf; [lia|]. simpl.
  apply wp_bind. destruct (waitq s w) as [|nd r] eqn:Er.
  { eapply wp_remove_head_none; [exact Er|]. apply wp_ret. split; [simpl; lia|].
    by apply all_woken_nil. }
  assert (Hin : nd ∈ waitq s w) by (rewrite Er; set_solver).
  destruct (c_wait _ _ C w _ Hin) as (_ & t & -> & HtX & Hs & _).
  eapply wp_remove_head_some; [exact Er|].
  apply wp_bind, (wp_assoc _ (fun _ => insert_in_run_queue_head t)).
  eapply (wp_wake_insert X); [done|done|done|exact Er|]. intros s1 W.
  pose proof W as [C1 (f1 & g1 & l1 & b1 & E1) Et _ Ew _ _].
  assert (Er1 : waitq s1 w = r).
  { rewrite Ew, decide_True, Er by done. apply remove_all_head. rewrite <- Er. apply ok_nodup, C. }
  eapply wp_mono; [apply IH|].
  - done.
  - unfold cur. rewrite Et. subst s1. simpl. case_decide; [done|done].
  - by subst s1.
  - rewrite Er1. simpl in Hf. lia.
  - intros n' s2 [-> A]. split; [rewrite Er1; simpl; lia|]. by eapply all_woken_cons.
Qed.

Definition requeued s : kstate :=
  put_ready list_add_head (current_thread s) (set_cur (t_state THREAD_READY) s).

Lemma wp_requeue_current k s (Q : unit -> kstate -> Prop) :
  unwinding k s -> 1 <= critical_section_count s ->
  (core [] (requeued s) -> progressed s (requeued s) ->
   cur (requeued s) = t_state THREAD_READY (cur s) ->
   (forall w, waitq (requeued s) w = waitq s w) -> Q tt (requeued s)) ->
  wp requeue_current Q s.
Proof.
  intros U Hc HQ. unfold requeue_current. apply wp_bind, wp_modify, wp_bind, wp_gets.
  set (s1 := set_cur (t_state THREAD_READY) s).
  assert (C1 : core [current_thread s] s1) by (apply core_set_cur; [apply U|set_solver]).
  assert (E1 : thr s1 (current_thread s) = t_state THREAD_READY (cur s))
    by (unfold s1, set_cur; by rewrite set_thr_eq).
  pose proof (hand_added _ s1 (current_thread s) list_add_head
    (H_run (priority (thr s1 (current_thread s)))) C1 (list_elem_of_here _ _) adds_head) as A.
  change (current_thread s1) with (current_thread s).
  eapply (wp_insert_run _ []); rewrite ?E1;
    [exact C1|exact (u_magic _ _ U)|done|exact (u_prio _ _ U)|exact Hc|]. apply HQ.
  - change (requeued s) with (put_ready list_add_head (current_thread s) s1).
    apply core_put_ready; [exact C1|set_solver|apply adds_head|by rewrite E1
      |rewrite E1; exact (u_prio _ _ U)|done].
  - constructor; [by do 4 eexists|by apply A|done|]. intros u Hu Hr.
    change (state (thr s1 u) = THREAD_READY). unfold s1, set_cur. by rewrite set_thr_ne.
  - done.
  - intros w. by apply A.
Qed.

Lemma unwinding_woken k w err s s' :
  unwinding k s -> all_woken [current_thread s] w err s s' -> unwinding k s'.
Proof.
  intros U [C P W R T]. pose proof P as [(f & g & l & b & Es) Et Em Hr].
  assert (Hcur : cur s' = cur s).
  { unfold cur. rewrite T. subst s'. simpl. rewrite decide_False; [done|].
    apply (core_hand_wait [current_thread s]); [apply U|set_solver]. }
  eapply unwinding_upd; try exact U; try done; try (by subst s').
  - by rewrite Et.
  - intros u Hu. rewrite T. by case_decide.
Qed.

Lemma wp_wake_all w reschedule err k s :
  unwinding k s -> timed k = false -> 1 <= critical_section_count s ->
  wq_magic (wqs s w) = WAIT_QUEUE_MAGIC ->
  wp (wait_queue_wake_all w reschedule err k) (fun _ s' => wf s') s.
Proof.
  intros U Hk Hc Hw. pose proof (u_core _ _ U) as C. unfold wait_queue_wake_all, check_wait_queue.
  wp_steps; [by rewrite Hw|apply Z.ltb_lt; lia|]. rewrite (c_count _ _ C).
  destruct (reschedule && (0 <? Z.of_nat (length (waitq s w)))) eqn:Er.
  - apply andb_true_iff in Er as [-> Hn]. apply Z.ltb_lt in Hn.
    apply (wp_requeue_current k); [done|done|]. intros C1 P1 E1 W1. set (s1 := requeued s) in *.
    apply wp_bind, wp_gets, wp_bind. fold (waitq s1 w).
    eapply wp_mono; [apply (wp_wake_loop _ []); [done|by rewrite E1|done|lia]|].
    intros n s2 [-> A]. pose proof A as [C2 P2 W2 _ T2]. apply wp_bind, wp_gets, wp_bind, wp_assert.
    { by rewrite (c_count _ _ C2), W2, decide_True. }
    rewrite W1. rewrite (proj2 (Z.ltb_lt _ _)) by lia. simpl.
    eapply wp_mono; [apply wp_thread_resched|by intros ? ? []].
    assert (E2 : cur s2 = cur s1).
    { pose proof P2 as [(f & g & l & b & Es) _ _ _]. unfold cur. rewrite T2. subst s2. simpl.
      rewrite decide_False; [done|]. rewrite W1.
      apply (core_hand_wait [current_thread s]); [done|set_solver]. }
    eapply (ready_pre _ s); rewrite ?E2, ?E1; try done.
    + destruct U. constructor; try done.
      apply (irq_last_push (F_wake (0 + Z.of_nat (length (waitq s w))))) in u_irq0; [|done].
      by rewrite Z.add_0_r in u_irq0.
    + by eapply progressed_trans.
  - apply wp_ret, wp_bind, wp_gets, wp_bind. fold (waitq s w).
    eapply wp_mono; [apply (wp_wake_loop _ [current_thread s]); [done|by rewrite (u_state _ _ U)|done|lia]|].
    intros n s2 [-> A]. pose proof A as [C2 P2 W2 _ T2]. apply wp_bind, wp_gets, wp_bind, wp_assert.
    { by rewrite (c_count _ _ C2), W2, decide_True. }
    rewrite Z.add_0_l, Er. eapply wp_mono; [apply wp_run_frames; by eapply unwinding_woken|by intros ? ? []].
Qed.

End safety.
