(* ===== verification/KSafe.v ===== *)
(** * Mutexes, events, semaphores and thread calls keep the invariant

    The operations of kernel/mutex.c, event.c and semaphore.c and the remaining
    thread operations, in total-correctness form: from a well-formed state each
    runs to completion and leaves a well-formed state, in which another thread
    may be running. *)

From S2P Require Import Prelude ListH Kernel Sched Sync KInv Safety.

Open Scope lk_scope.

Section ksafe.
Context {LO : ListOps knode khead} {LL : ListLaws knode khead}.
Implicit Types (s : kstate) (t u : Z) (w : wqid) (X : list Z) (k : list frame).

Lemma wf_wp_frames k s v : unwinding k s -> wp (run_frames k v) (fun _ s' => wf s') s.
Proof. intros U. eapply wp_mono; [by apply wp_run_frames|by intros ? ? []]. Qed.

Lemma crit_ge k s : unwinding k s -> 0 < exits k -> 1 <= critical_section_count s.
Proof. intros U. pose proof (u_exits _ _ U). lia. Qed.

Lemma can_block_crit d s s' : crit_frame d s s' -> can_block s -> can_block s'.
Proof. intros [] (i & ? & ?). exists i. by rewrite cf_idle, cf_current. Qed.

(** ** Mutexes *)

Lemma wp_mutex_acquire m timeout s :
  wf s -> m_magic (mtx s m) = MUTEX_MAGIC -> holder (mtx s m) <> Some (current_thread s) ->
  can_block s ->
  wp (mutex_acquire_timeout m timeout []) (fun _ s' => wf s') s.
Proof.
  intros W Hm Hh Hi. unfold mutex_acquire_timeout.
  apply wp_bind, wp_gets, wp_bind, wp_assert; [by rewrite Hm|].
  apply wp_bind, wp_gets, wp_bind, wp_assert; [by rewrite bool_decide_false|].
  apply wp_bind, (wp_enter_call (F_mutex_acquire m) []); [by apply wf_unwinding|done..|].
  intros s1 U1 F1. apply wp_bind, wp_modify, wp_bind, wp_gets.
  destruct (unwinding_mtx _ _ m (Mutex (m_magic (mtx s1 m)) (holder (mtx s1 m)) (m_count (mtx s1 m) + 1))
    U1) as [U2 _]; [done|].
  case_if; [|by apply wf_wp_frames].
  apply wp_wait_block_wf; [done|done|by eapply crit_ge|..].
  - simpl. rewrite (cf_wqs _ _ _ F1). by apply (wf_objects _ W).
  - exact (can_block_crit _ _ _ F1 Hi).
Qed.

Lemma wp_mutex_release m s :
  wf s -> m_magic (mtx s m) = MUTEX_MAGIC -> holder (mtx s m) = Some (current_thread s) ->
  wp (mutex_release m []) (fun _ s' => wf s') s.
Proof.
  intros W Hm Hh. unfold mutex_release.
  apply wp_bind, wp_gets, wp_bind, wp_assert; [by rewrite Hm|].
  apply wp_bind, wp_gets, wp_bind, wp_assert; [by rewrite bool_decide_true|].
  apply wp_bind, (wp_enter_call F_mutex_release []); [by apply wf_unwinding|done..|].
  intros s1 U1 F1. apply wp_bind, wp_modify, wp_bind, wp_modify, wp_bind, wp_gets.
  match goal with |- wp _ _ (set_mtx m ?v2 (set_mtx m ?v1 s1)) =>
    destruct (unwinding_mtx _ _ m v1 U1) as [U2 _]; [done|];
    destruct (unwinding_mtx _ _ m v2 U2) as [U3 _]; [done|] end.
  case_if; [|by apply wf_wp_frames].
  apply wp_wake_one; [done|done|by eapply crit_ge|].
  simpl. rewrite (cf_wqs _ _ _ F1). by apply (wf_objects _ W).
Qed.

(** ** Events *)

Lemma wp_event_wait e timeout s :
  wf s -> e_magic (evt s e) = EVENT_MAGIC -> can_block s ->
  wp (event_wait_timeout e timeout []) (fun _ s' => wf s') s.
Proof.
  intros W Hm Hi. unfold event_wait_timeout, set_signalled.
  apply wp_bind, wp_gets, wp_bind, wp_assert; [by rewrite Hm|].
  apply wp_bind, (wp_enter_call F_event_wait []); [by apply wf_unwinding|done..|].
  intros s1 U1 F1. case_if.
  - apply wp_bind. case_if; wp_step; apply wf_wp_frames; [|done].
    by apply (unwinding_evt _ _ _ _ U1).
  - apply wp_wait_block_wf; [done|done|by eapply crit_ge|..].
    + rewrite (cf_wqs _ _ _ F1). by apply (wf_objects _ W).
    + exact (can_block_crit _ _ _ F1 Hi).
Qed.

Lemma wp_event_signal e reschedule s :
  wf s -> e_magic (evt s e) = EVENT_MAGIC ->
  wp (event_signal e reschedule []) (fun _ s' => wf s') s.
Proof.
  intros W Hm. unfold event_signal.
  apply wp_bind, wp_gets, wp_bind, wp_assert; [by rewrite Hm|].
  pose proof (proj2 (wf_objects _ W) e Hm) as Hw.
  assert (He : forall f, frame_simple f = true -> frame_timed f = false -> frame_exits f = 1 -> f <> F_irq ->
    forall s', crit_frame 1 s s' -> unwinding [f] s').
  { intros. eapply unwinding_enter; eauto using wf_unwinding. }
  apply wp_bind, wp_enter; [apply (wf_running _ W)|]. intros s1 F1.
  assert (Hc : 1 <= critical_section_count s1).
  { rewrite (cf_crit _ _ _ F1). pose proof (r_crit _ (wf_running _ W)). lia. }
  case_if; [case_if|].
  - apply wp_wake_one; [by apply He|done|done|]. by rewrite (cf_wqs _ _ _ F1).
  - apply wp_bind, wp_modify.
    apply wp_wake_all; [|done|done|simpl; by rewrite (cf_wqs _ _ _ F1)].
    apply unwinding_evt; [by apply He|done].
  - apply wf_wp_frames. by apply He.
Qed.

Lemma wp_event_unsignal e s :
  wf s -> e_magic (evt s e) = EVENT_MAGIC -> wp (event_unsignal e []) (fun _ s' => wf s') s.
Proof.
  intros W Hm. unfold event_unsignal.
  apply wp_bind, wp_gets, wp_bind, wp_assert; [by rewrite Hm|].
  apply wp_bind, wp_modify, wf_wp_frames. by apply (unwinding_evt _ _ _ _ (wf_unwinding _ W)).
Qed.

(** ** Semaphores *)

Lemma wp_sem_count f s x g (Q : unit -> kstate -> Prop) :
  unwinding f s ->
  (forall s', unwinding f s' -> wqs s' = wqs s -> idle_thread s' = idle_thread s ->
     current_thread s' = current_thread s ->
     critical_section_count s' = critical_section_count s -> Q tt s') ->
  wp (set_s_count x g) Q s.
Proof. intros U HQ. apply wp_modify, HQ; try done. by apply unwinding_sem. Qed.

Lemma wp_sem_post x s :
  wf s -> wq_magic (wqs s (WQ_sem x)) = WAIT_QUEUE_MAGIC ->
  wp (sem_post x []) (fun _ s' => wf s') s.
Proof.
  intros W Hw. unfold sem_post.
  apply wp_bind, (wp_enter_call F_sem_post []); [by apply wf_unwinding|done..|]. intros s1 U1 F1.
  apply wp_bind. eapply wp_sem_count; [done|]. intros s2 U2 E2 _ _ _.
  apply wp_bind, wp_gets. case_if; [|by apply wf_wp_frames].
  apply wp_wake_one; [done|done|by eapply crit_ge|]. by rewrite E2, (cf_wqs _ _ _ F1).
Qed.

Lemma wp_sem_timedwait x timeout s :
  wf s -> wq_magic (wqs s (WQ_sem x)) = WAIT_QUEUE_MAGIC -> can_block s ->
  wp (sem_timedwait x timeout []) (fun _ s' => wf s') s.
Proof.
  intros W Hw Hi. unfold sem_timedwait.
  apply wp_bind, (wp_enter_call (F_sem_timedwait x) []); [by apply wf_unwinding|done..|]. intros s1 U1 F1.
  apply wp_bind. eapply wp_sem_count; [done|]. intros s2 U2 E2 Ei Ec _.
  apply wp_bind, wp_gets. case_if; [|by apply wf_wp_frames].
  apply wp_wait_block_wf; [done|done|by eapply crit_ge|by rewrite E2, (cf_wqs _ _ _ F1)|].
  unfold can_block. rewrite Ei, Ec. exact (can_block_crit _ _ _ F1 Hi).
Qed.

Lemma wp_sem_wait x s :
  wf s -> wq_magic (wqs s (WQ_sem x)) = WAIT_QUEUE_MAGIC -> can_block s ->
  wp (sem_wait x []) (fun _ s' => wf s') s.
Proof.
  intros W Hw Hi. unfold sem_wait.
  apply wp_bind, (wp_enter_call F_sem_wait []); [by apply wf_unwinding|done..|]. intros s1 U1 F1.
  apply wp_bind. eapply wp_sem_count; [done|]. intros s2 U2 E2 Ei Ec _.
  apply wp_bind, wp_gets. case_if; [|by apply wf_wp_frames].
  apply wp_wait_block_wf; [done|done|by eapply crit_ge|by rewrite E2, (cf_wqs _ _ _ F1)|].
  unfold can_block. rewrite Ei, Ec. exact (can_block_crit _ _ _ F1 Hi).
Qed.

Lemma wp_sem_trywait x s : wf s -> wp (sem_trywait x []) (fun _ s' => wf s') s.
Proof.
  intros W. unfold sem_trywait.
  apply wp_bind, (wp_enter_call F_sem_wait []); [by apply wf_unwinding|done..|]. intros s1 U1 F1.
  assert (Hx : forall v s', unwinding [F_sem_wait] s' ->
    wp (exit_critical_section ;;; run_frames [] v) (fun _ s' => wf s') s').
  { intros v s' U. change (wp (run_frames [F_sem_wait] v) (fun _ s' => wf s') s').
    by apply wf_wp_frames. }
  apply wp_bind, wp_gets. case_if; [by apply Hx|].
  apply wp_bind. eapply wp_sem_count; [done|]. intros s2 U2 _ _ _ _. by apply Hx.
Qed.

(** ** Sleeping *)

Lemma wp_thread_sleep delay s :
  wf s -> can_block s ->
  wp (thread_sleep delay []) (fun _ s' => wf s') s.
Proof.
  intros W Hi. pose proof (wf_unwinding _ W) as U. pose proof (r_timer _ (wf_running _ W)) as Hq.
  unfold thread_sleep. apply wp_bind, (wp_check_current []); [done|]. apply wp_bind, wp_gets, wp_bind.
  eapply wp_timer_initialize; [apply W|done|]. intros s1 C1 F1 El1 Hm1.
  apply wp_bind, wp_enter; [rewrite (tf_crit _ _ F1); apply (wf_running _ W)|]. intros s2 F2.
  apply wp_bind. pose proof (r_crit _ (wf_running _ W)) as Hc.
  eapply wp_timer_set; [eapply crit_core; [exact F2|exact C1]|..].
  - unfold timerq. by rewrite (cf_lnk _ _ _ F2), El1.
  - by rewrite (cf_tmr _ _ _ F2).
  - lia.
  - lia.
  - rewrite (cf_crit _ _ _ F2), (tf_crit _ _ F1). lia.
  - intros s' E1 E2 E3. unfold callback_ok. rewrite E1. simpl. split; [done|left].
    by rewrite E3, (cf_current _ _ _ F2), (tf_current _ _ F1).
  - intros s3 C3 F3 Hq3 Hcb3 _ Hm3. apply wp_bind, wp_modify.
    eapply wp_mono; [apply wp_thread_resched|by intros ? ? []].
    assert (Ec3 : current_thread s3 = current_thread s)
      by by rewrite (tf_current _ _ F3), (cf_current _ _ _ F2), (tf_current _ _ F1).
    assert (Ecr : critical_section_count s3 = critical_section_count s + 1)
      by by rewrite (tf_crit _ _ F3), (cf_crit _ _ _ F2), (tf_crit _ _ F1).
    assert (Et3 : thr s3 = thr s)
      by by rewrite (tf_thr _ _ F3), (cf_thr _ _ _ F2), (tf_thr _ _ F1).
    set (s4 := set_cur (t_state THREAD_SLEEPING) s3).
    assert (E4 : cur s4 = t_state THREAD_SLEEPING (cur s)).
    { unfold s4. rewrite cur_set. unfold cur. by rewrite Et3, Ec3. }
    assert (C4 : core [] s4).
    { apply (core_let_go [] s4 (current_thread s)); [apply core_set_cur; rewrite ?Ec3; [done|set_solver]|].
      right; right. unfold placed.
      change (current_thread s4) with (current_thread s3). rewrite Ec3.
      replace (thr s4 (current_thread s)) with (cur s4) by (unfold cur; by rewrite <- Ec3).
      rewrite E4. split; [done|]. split; [|done]. simpl. split; [done|]. by rewrite Hcb3. }
    destruct U. constructor; try done.
    + simpl. lia.
    + unfold ints_ok in *. simpl. rewrite (tf_ints _ _ F3).
      * rewrite Ecr. pose proof (cf_ints _ _ _ F2) as H2. unfold ints_ok in H2.
        rewrite (cf_crit _ _ _ F2), (tf_crit _ _ F1) in H2. rewrite H2; [done|].
        by rewrite (tf_ints _ _ F1).
      * apply (cf_ints _ _ _ F2). unfold ints_ok. by rewrite (tf_ints _ _ F1), (tf_crit _ _ F1).
    + intros _. rewrite E4. simpl. rewrite Ecr. split_and!; try done; try apply u_prio; try lia.
      intros Hin. apply elem_of_cons in Hin as [|Hin]; [done|set_solver].
    + intros _. left. change (current_thread s4) with (current_thread s3). rewrite Ec3, E4.
      simpl. done.
    + destruct Hi as (i & Hii & Hne). exists i. simpl. rewrite Ec3. unfold upd.
      rewrite decide_False, Et3 by done. by destruct (u_idle i Hii).
    + intros i'. simpl. rewrite (tf_idle _ _ F3), (cf_idle _ _ _ F2), (tf_idle _ _ F1), Ec3, Et3.
      intros Hi'. destruct Hi as (i & Hii & Hne). assert (i' = i) as -> by congruence.
      unfold upd. rewrite decide_False by done. by destruct (u_idle i Hii).
    + unfold objects_ok in *. simpl.
      by rewrite (tf_mtx _ _ F3), (cf_mtx _ _ _ F2), (tf_mtx _ _ F1),
        (tf_evt _ _ F3), (cf_evt _ _ _ F2), (tf_evt _ _ F1),
        (tf_wqs _ _ F3), (cf_wqs _ _ _ F2), (tf_wqs _ _ F1).
Qed.

(** ** thread_resume *)

Lemma suspended_no_timer X s t :
  core X s -> t <> current_thread s -> state (thr s t) <> THREAD_SLEEPING ->
  in_wait (state (thr s t)) = false -> N_timer (TM_stack t) ∉ timerq s.
Proof.
  intros C Hc Hs Hw Hin. destruct (c_timer _ _ C _ Hin) as (x & [= <-] & _ & Hcb).
  unfold callback_ok in Hcb. destruct (callback _) as [[u|u|]|]; try done.
  - destruct Hcb as ([= <-] & [?|[_ ?]]); done.
  - destruct Hcb as ([= <-] & [?|(_ & _ & ?)]); [done|congruence].
  - by destruct Hcb.
Qed.

(** Making a suspended thread ready, in the middle of a call. *)
Lemma resume_ready k t s (Q : unit -> kstate -> Prop) :
  unwinding k s -> 1 <= critical_section_count s ->
  magic (thr s t) = THREAD_MAGIC -> state (thr s t) = THREAD_SUSPENDED ->
  (forall s', unwinding k s' -> current_thread s' = current_thread s -> cur s' = cur s ->
     idle_thread s' = idle_thread s -> critical_section_count s' = critical_section_count s ->
     (forall u, u <> t -> thr s' u = thr s u) -> thr s' t = t_state THREAD_READY (thr s t) ->
     (forall p, runq s' p = if decide (p = priority (thr s t)) then N_queue t :: runq s p
                            else runq s p) -> Q tt s') ->
  wp (modify (set_thr t (t_state THREAD_READY)) ;;; insert_in_run_queue_head t) Q s.
Proof.
  intros U Hc Hm Hs HQ. pose proof (u_core _ _ U) as C.
  assert (Hne : t <> current_thread s).
  { intros ->. pose proof (u_state _ _ U). unfold cur in *. congruence. }
  assert (So : suspended_ok s t).
  { apply (c_susp _ _ C); [set_solver|done|]. unfold may_run. by rewrite Hs. }
  apply wp_bind, wp_modify. set (s2 := set_thr t (t_state THREAD_READY) s).
  assert (E2 : thr s2 t = t_state THREAD_READY (thr s t)) by apply set_thr_eq.
  assert (C2 : core [t; current_thread s] s2).
  { apply core_set_thr; [|set_solver|].
    - apply core_take_hand; [done|by rewrite Hs..].
    - right; left. eapply suspended_no_timer; [exact C|done|by rewrite Hs..]. }
  assert (So2 : suspended_ok s2 t) by (eapply suspended_same; [exact So|done|by rewrite E2..]).
  apply (wp_insert_run _ [current_thread s]);
    [done|by rewrite E2|by rewrite E2|rewrite E2; apply So|done|].
  pose proof (hand_added _ s2 t list_add_head (H_run (priority (thr s2 t))) C2
    (list_elem_of_here _ _) adds_head) as A.
  assert (Ec : cur (put_ready list_add_head t s2) = cur s).
  { unfold cur. change (thr s2 (current_thread s) = thr s (current_thread s)). by apply set_thr_ne. }
  apply HQ; try done.
  - eapply unwinding_upd; try exact U; try done.
    + apply core_put_ready; [done|set_solver|apply adds_head|by rewrite E2|rewrite E2; apply So|done].
    + intros n Hn. unfold timerq in Hn. by rewrite (ad_other _ _ _ _ A) in Hn.
    + intros u Hu. change (state (thr s2 u) = THREAD_READY).
      destruct (decide (u = t)) as [->|]; [by rewrite E2|]. unfold s2. by rewrite set_thr_ne.
  - intros u Hu. by apply set_thr_ne.
  - intros p. rewrite (put_head_runq [t; current_thread s]), E2 by set_solver. done.
Qed.

Lemma wp_thread_resume t s :
  wf s -> magic (thr s t) = THREAD_MAGIC -> state (thr s t) <> THREAD_DEATH ->
  wp (thread_resume t []) (fun _ s' => wf s') s.
Proof.
  intros W Hm Hd. unfold thread_resume.
  apply wp_bind, wp_gets, wp_bind, wp_assert; [by rewrite Hm|].
  apply wp_bind, wp_assert; [by rewrite bool_decide_false|].
  apply wp_bind, (wp_enter_call F_resume []); [by apply wf_unwinding|done..|]. intros s1 U1 F1.
  case_bool_decide as Hs; [|by apply wf_wp_frames]. rewrite <- (cf_thr _ _ _ F1) in Hm, Hs.
  apply wp_bind, (wp_assoc _ (fun _ => insert_in_run_queue_head t)).
  apply (resume_ready [F_resume]); [done|by eapply crit_ge|done|done|].
  intros s2 U2 _ _ _ _ _ _ _. by apply wp_thread_yield.
Qed.

(** Resuming a thread of lower priority does not give up the processor. *)
Lemma wp_thread_resume_stays t s :
  wf s -> magic (thr s t) = THREAD_MAGIC -> state (thr s t) = THREAD_SUSPENDED ->
  priority (thr s t) < priority (cur s) -> (forall p, priority (cur s) <= p -> runq s p = []) ->
  wp (thread_resume t []) (fun _ s' => wf s' /\ current_thread s' = current_thread s /\
        idle_thread s' = idle_thread s /\ critical_section_count s' = critical_section_count s /\
        thr s' t = t_state THREAD_READY (thr s t) /\
        (forall p, runq s' p = if decide (p = priority (thr s t)) then N_queue t :: runq s p
                               else runq s p)) s.
Proof.
  intros W Hm Hs Hp Hhi. unfold thread_resume.
  apply wp_bind, wp_gets, wp_bind, wp_assert; [by rewrite Hm|].
  apply wp_bind, wp_assert; [by rewrite Hs|].
  apply wp_bind, (wp_enter_call F_resume []); [by apply wf_unwinding|done..|]. intros s1 U1 F1.
  rewrite bool_decide_true by done. rewrite <- (cf_thr _ _ _ F1) in Hm, Hs, Hp.
  apply wp_bind, (wp_assoc _ (fun _ => insert_in_run_queue_head t)).
  apply (resume_ready [F_resume]); [done|by eapply crit_ge|done|done|].
  intros s2 U2 Ec Ecur Ei Ecr Eo Et Er.
  assert (E1 : cur s1 = cur s) by (unfold cur; by rewrite (cf_current _ _ _ F1), (cf_thr _ _ _ F1)).
  assert (R1 : forall p, runq s1 p = runq s p) by (intros p; unfold runq; by rewrite (cf_lnk _ _ _ F1)).
  eapply wp_mono; [by apply (wp_thread_yield_next [F_resume])|]. intros ? s' [W' Y].
  destruct (yielded_stays _ _ _ Y) as (E1' & E2' & E3' & E4').
  { exact (u_prio _ _ U2). }
  { intros p. rewrite Ecur, E1. intros Hle. rewrite Er, decide_False, R1 by lia. by apply Hhi. }
  split; [done|]. rewrite E1', E3', E4', Ec, Ei, Ecr, (cf_current _ _ _ F1), (cf_idle _ _ _ F1),
    (cf_crit _ _ _ F1). split_and!; [done|done|simpl; lia|..].
  - rewrite (y_thr _ _ _ Y), Et, (cf_thr _ _ _ F1); [done|..];
      rewrite ?E1', Ec, (cf_current _ _ _ F1); intros ->;
      rewrite (cf_thr _ _ _ F1) in Hs; pose proof (r_state _ (wf_running _ W)); unfold cur in *; congruence.
  - intros p. rewrite E2', Er, R1. by rewrite (cf_thr _ _ _ F1).
Qed.

Lemma wf_set_cur f s :
  wf s -> state (f (cur s)) = state (cur s) -> magic (f (cur s)) = magic (cur s) ->
  0 <= priority (f (cur s)) < NUM_PRIORITIES -> wf (set_cur f s).
Proof.
  intros [C [] Hi Ho] Es Em Hp. assert (Ec : cur (set_cur f s) = f (cur s)) by apply cur_set.
  constructor; try done.
  - apply core_set_cur; [done|set_solver].
  - constructor; rewrite ?Ec, ?Es, ?Em; done.
  - intros i Hii. change (current_thread (set_cur _ s)) with (current_thread s).
    destruct (Hi i Hii) as [|Hs]; [by left|]. destruct (decide (i = current_thread s)); [by left|right].
    unfold set_cur. by rewrite set_thr_ne.
Qed.

Lemma wp_thread_set_priority p s :
  wf s -> wp (thread_set_priority p) (fun _ s' => wf s') s.
Proof.
  intros W. apply wp_modify, wf_set_cur; try done. simpl.
  unfold HIGHEST_PRIORITY, LOWEST_PRIORITY, NUM_PRIORITIES. zcases; lia.
Qed.

(** ** thread_exit *)

(** The exiting thread [current_thread s0] on its way to the final reschedule. *)
Record exiting s0 s : Prop := {
  ex_core : core [current_thread s0] s;
  ex_current : current_thread s = current_thread s0;
  ex_state : state (cur s) = THREAD_DEATH;
  ex_crit : critical_section_count s = critical_section_count s0 + 1;
  ex_ints : ints_ok s;
  ex_timer : timerq s = timerq s0;
  ex_idle : idle_thread s = idle_thread s0;
  ex_ready : forall u, u <> current_thread s0 ->
    state (thr s0 u) = THREAD_READY -> state (thr s u) = THREAD_READY;
  ex_mtx : mtx s = mtx s0;
  ex_evt : evt s = evt s0;
  ex_wqs : forall w, wq_magic (wqs s w) = wq_magic (wqs s0 w);
}.

Lemma exit_pre s0 s :
  wf s0 -> can_block s0 -> exiting s0 s -> resched_pre [F_exit] s.
Proof.
  intros W Hni []. pose proof (wf_running _ W) as R.
  constructor; rewrite ?ex_current0, ?ex_timer0; try done.
  - apply (core_let_go [] s (current_thread s0)); [done|left].
    unfold cur in ex_state0. by rewrite ex_current0 in ex_state0.
  - pose proof (r_crit _ R). lia.
  - intros Hm. unfold may_run in Hm. unfold cur in ex_state0. rewrite ex_current0 in ex_state0.
    by rewrite ex_state0 in Hm.
  - intros Hin. by destruct (r_timer _ R).
  - destruct Hni as (i & Hii & Hne). exists i. destruct (wf_idle _ W i Hii); [done|]. auto.
  - intros i'. rewrite ex_idle0. intros Hi'. destruct Hni as (i & Hii & Hne).
    assert (i' = i) as -> by congruence. destruct (wf_idle _ W i Hii); [done|]. auto.
  - destruct (wf_objects _ W) as [H1 H2].
    split; intros; rewrite ex_wqs0; [apply H1|apply H2]; congruence.
Qed.

Lemma exiting_set_cur f s0 s :
  exiting s0 s -> state (f (cur s)) = THREAD_DEATH -> exiting s0 (set_cur f s).
Proof.
  intros [] Hf. constructor; try done.
  - apply core_set_cur; [done|]. rewrite ex_current0. set_solver.
  - by rewrite cur_set.
  - intros u Hu Hr. unfold set_cur. rewrite set_thr_ne by by rewrite ex_current0. auto.
Qed.

Lemma exiting_start rc s s1 :
  wf s -> crit_frame 1 s s1 ->
  exiting s (set_cur (t_retcode rc) (set_cur (t_state THREAD_DEATH) s1)).
Proof.
  intros W F1. set (s2 := set_cur _ _).
  assert (Cc : cur_changed s1 s2) by (repeat apply cur_changed_set; apply cur_changed_refl).
  assert (C1 : core [current_thread s] s1) by (eapply crit_core; [exact F1|apply W]).
  destruct F1. constructor; try done.
  - apply (cc_core _ _ Cc); [done|]. rewrite cf_current. set_solver.
  - unfold s2. by rewrite !cur_set.
  - apply cf_ints. apply W.
  - unfold timerq. simpl. by rewrite cf_lnk.
  - intros u Hu Hr. rewrite (cc_thr _ _ Cc) by by rewrite cf_current. by rewrite cf_thr.
  - intros w. simpl. by rewrite cf_wqs.
Qed.

(** The calls of [free] only extend the log. *)
Lemma wp_free (b : bool) blk s (Q : unit -> kstate -> Prop) :
  (forall l, Q tt (set_freed l s)) ->
  wp (when b do modify (fun s => set_freed (blk :: freed s) s)) Q s.
Proof.
  intros HQ. destruct b; [apply wp_modify, HQ|]. apply wp_ret. specialize (HQ (freed s)).
  by destruct s.
Qed.

Lemma exiting_freed l s0 s : exiting s0 s -> exiting s0 (set_freed l s).
Proof. intros []. constructor; try done. by eapply core_same. Qed.

(** A detached thread leaves the thread list. *)
Lemma exiting_unlisted s0 s :
  exiting s0 s -> N_tlist (current_thread s0) ∈ contents (lnk s) H_threads ->
  exiting s0 (set_lnk (list_delete (N_tlist (current_thread s0)) (lnk s)) s).
Proof.
  intros [] Hl. pose proof (hand_deleted _ _ _ _ ex_core0 Hl) as D. constructor; try done.
  - apply core_threads_links; [done|apply D|apply D|]. intros n Hn.
    apply (de_elem _ _ _ D) in Hn as [Hn _]. by apply (c_tlist _ _ ex_core0).
  - unfold timerq. simpl. by rewrite (de_other _ _ _ D).
Qed.

(** A joinable one wakes the threads that wait for it. *)
Lemma wp_exit_notify w s0 s :
  0 <= critical_section_count s0 ->
  exiting s0 s -> wq_magic (wqs s0 w) = WAIT_QUEUE_MAGIC ->
  wp (wait_queue_wake_all w false 0 []) (fun _ s' => exiting s0 s') s.
Proof.
  intros Hc X Hw. pose proof X as [].
  unfold wait_queue_wake_all, check_wait_queue.
  wp_steps; [by rewrite ex_wqs0, Hw|apply Z.ltb_lt; lia|].
  apply wp_ret, wp_bind, wp_gets, wp_bind.
  eapply wp_mono; [apply (wp_wake_loop _ [current_thread s0]); [done|by rewrite ex_state0|lia|unfold waitq; lia]|].
  intros n s3 [-> A]. pose proof A as [C3 P3 W3 _ T3].
  pose proof P3 as [(f & g & l & b & E3) Et3 Em3 Hr3].
  apply wp_bind, wp_gets, wp_bind, wp_assert; [by rewrite (c_count _ _ C3), W3, decide_True|].
  assert (Ecur : cur s3 = cur s).
  { unfold cur. rewrite T3. subst s3. simpl. rewrite decide_False; [done|]. rewrite ex_current0.
    apply (core_hand_wait [current_thread s0]); [done|set_solver]. }
  apply wp_modify, exiting_set_cur; [|simpl; by rewrite Ecur].
  constructor; try done; try (by subst s3); try (by rewrite ?Ecur).
  - by rewrite Et3.
  - intros u Hu Hr. apply Hr3; [by rewrite ex_current0|auto].
  - intros v. by rewrite Em3.
Qed.

Lemma wp_thread_exit rc s :
  wf s -> can_block s ->
  N_tlist (current_thread s) ∈ contents (lnk s) H_threads ->
  wq_magic (wqs s (WQ_retcode (current_thread s))) = WAIT_QUEUE_MAGIC ->
  wp (thread_exit rc) (fun _ s' => wf s') s.
Proof.
  intros W Hi Hl Hw. pose proof (r_crit _ (wf_running _ W)) as Hc.
  unfold thread_exit. apply wp_bind, (wp_check_current []); [by apply wf_unwinding|].
  apply wp_bind, wp_enter; [done|]. intros s1 F1.
  apply wp_bind, wp_modify, wp_bind, wp_modify, wp_bind, wp_gets, wp_bind, wp_gets, wp_bind.
  pose proof (exiting_start rc _ _ W F1) as X2. set (s2 := set_cur _ _) in *.
  rewrite (ex_current _ _ X2).
  assert (Fin : forall s', exiting s s' -> wp (thread_resched [F_exit]) (fun _ s' => wf s') s').
  { intros s' X. eapply wp_mono; [apply wp_thread_resched; by eapply exit_pre|by intros ? ? []]. }
  case_if.
  - apply wp_bind, wp_modify, wp_bind, wp_modify, wp_bind, wp_free. intros l1. apply wp_free. intros l2.
    apply Fin, exiting_freed, exiting_freed, exiting_set_cur; [apply exiting_unlisted|]; try done.
    + change (lnk s2) with (lnk s1). by rewrite (cf_lnk _ _ _ F1).
    + exact (ex_state _ _ X2).
  - eapply wp_mono; [by eapply wp_exit_notify|]. auto.
Qed.

(** ** thread_create_etc *)

Lemma core_wq_init X s w :
  core X s -> waitq s w = [] -> core X (set_wq w (WaitQueue WAIT_QUEUE_MAGIC 0) s).
Proof.
  intros C Hw. constructor; try apply C.
  - intros v n Hn. destruct (c_wait _ _ C v n Hn) as (Hm & H). split; [|done]. simpl. unfold upd.
    by case_decide.
  - intros v. simpl. unfold upd. case_decide; [|apply C]. subst v. simpl.
    change (waitq (set_wq w _ s) w) with (waitq s w). by rewrite Hw.
  - intros u Hu Hc Hm. destruct (c_susp _ _ C u Hu Hc Hm). by constructor.
Qed.

(** The state of a creation in progress: [t] in hand, nothing else changed. *)
Record creating t s0 s : Prop := {
  cr_core : core [t; current_thread s0] s;
  cr_rest : exists f g l, s = set_freed l (set_thrs f (set_wqs g s0));
  cr_thr : forall u, u <> t -> thr s u = thr s0 u;
  cr_magic : forall v, v <> WQ_retcode t -> wqs s v = wqs s0 v;
}.

Lemma creating_thr t f s0 s :
  t <> current_thread s0 -> N_timer (TM_stack t) ∉ timerq s0 -> creating t s0 s ->
  creating t s0 (set_thr t f s).
Proof.
  intros Hne Hq [C (g & h & l & ->) E1 E2]. constructor.
  - apply core_set_thr; [done|set_solver|]. by right; left.
  - by do 3 eexists.
  - intros u Hu. rewrite set_thr_ne by done. auto.
  - done.
Qed.

Lemma creating_wq_init t s0 s :
  waitq s0 (WQ_retcode t) = [] -> creating t s0 s ->
  creating t s0 (set_wq (WQ_retcode t) (WaitQueue WAIT_QUEUE_MAGIC 0) s).
Proof.
  intros Hw [C (g & h & l & ->) E1 E2]. constructor.
  - by apply core_wq_init.
  - by do 3 eexists.
  - done.
  - intros v Hv. simpl. unfold upd. rewrite decide_False by done. by apply E2.
Qed.

Lemma wf_freed l s : wf s -> wf (set_freed l s).
Proof. intros [C [] Hi Ho]. constructor; try done. by eapply core_same. Qed.

(** A new thread that is suspended at its entry point completes the creation. *)
Lemma creating_done t s0 s :
  wf s0 -> t <> current_thread s0 -> creating t s0 s -> state (thr s0 t) <> THREAD_READY ->
  state (thr s t) = THREAD_SUSPENDED -> suspended_ok s t -> wf s.
Proof.
  intros [C R Hi Ho] Hne [C' (g & h & l & Es) E1 E2] Hs0 Hs So.
  assert (Ec : current_thread s = current_thread s0) by by subst.
  assert (Ecur : cur s = cur s0) by (unfold cur; rewrite Ec; auto).
  constructor; rewrite ?Ec.
  - apply (core_let_go _ _ t); [done|]. right; left. done.
  - destruct R. constructor; rewrite ?Ecur; by subst s.
  - intros i Hii. rewrite Ec. destruct (Hi i) as [|Hr]; [by subst s|by left|right].
    rewrite E1; [done|]. by intros ->.
  - destruct Ho as [H1 H2].
    split; intros; rewrite E2 by done; [apply H1|apply H2]; by subst s.
Qed.

Lemma wf_add_thread t s :
  wf s -> list_in_list (lnk s) (N_tlist t) = false ->
  wf (set_lnk (list_add_head H_threads (N_tlist t) (lnk s)) s).
Proof.
  intros [C [] Hi Ho] Hn. pose proof (c_links _ _ C) as L.
  assert (Hl : forall h, h <> H_threads ->
    contents (list_add_head H_threads (N_tlist t) (lnk s)) h = contents (lnk s) h).
  { intros h Hh. by apply (adds_other _ adds_head). }
  constructor; try done.
  - apply core_threads_links; [done|by apply add_head_ok|done|].
    intros n. rewrite (adds_elem _ adds_head) by done. intros [->|Hin]; [eauto|].
    by apply (c_tlist _ _ C).
  - constructor; try done. unfold timerq. simpl. by rewrite Hl.
Qed.

Lemma wf_crit_frame s1 s2 s3 s4 l :
  wf s1 -> crit_frame 1 s1 s2 -> s3 = set_lnk l s2 -> crit_frame (-1) s3 s4 ->
  wf (set_lnk l s1) -> wf s4.
Proof.
  intros [_ R Hi Ho] F2 -> F4 [C' R' _ _]. destruct F2, F4. simpl in *.
  assert (Ecu : current_thread s4 = current_thread s1) by congruence.
  assert (Eth : thr s4 = thr s1) by congruence.
  assert (Etm : timerq s4 = timerq (set_lnk l s1)) by (unfold timerq; by rewrite cf_lnk0).
  assert (Ecur : cur s4 = cur s1) by (unfold cur; by rewrite Ecu, Eth).
  destruct R, R'. constructor; rewrite ?Ecu.
  - eapply core_same; [exact C'|..]; simpl; congruence.
  - constructor; rewrite ?Ecur, ?Etm, ?Ecu; try done; try lia.
    apply cf_ints0. unfold ints_ok. simpl. apply cf_ints. done.
  - intros i Hii. rewrite Ecu, Eth. apply Hi. congruence.
  - unfold objects_ok in *. by rewrite cf_mtx0, cf_evt0, cf_wqs0, cf_mtx, cf_evt, cf_wqs.
Qed.

Definition creatable s t : Prop :=
  t <> current_thread s /\
  (state (thr s t) = THREAD_SUSPENDED \/ state (thr s t) = THREAD_DEATH) /\
  list_in_list (lnk s) (N_tlist t) = false /\ waitq s (WQ_retcode t) = [].

(** What a successful creation leaves behind. *)
Record created (p t : Z) s s' : Prop := {
  cd_current : current_thread s' = current_thread s;
  cd_idle : idle_thread s' = idle_thread s;
  cd_crit : critical_section_count s' = critical_section_count s;
  cd_thr : forall u, u <> t -> thr s' u = thr s u;
  cd_new : magic (thr s' t) = THREAD_MAGIC /\ state (thr s' t) = THREAD_SUSPENDED /\
           priority (thr s' t) = p /\ frames (thr s' t) = [F_initial] /\
           saved_critical_section_count (thr s' t) = 1;
  cd_wq : wqs s' (WQ_retcode t) = WaitQueue WAIT_QUEUE_MAGIC 0;
  cd_lists : forall h, h <> H_threads -> contents (lnk s') h = contents (lnk s) h;
}.

Lemma wp_thread_create_etc m1 m2 (ot : option Z) nm en ar p stk sz s :
  wf s -> 0 <= p < NUM_PRIORITIES ->
  (forall t, match ot with Some t' => Some t' | None => m1 end = Some t -> creatable s t) ->
  wp (thread_create_etc m1 m2 ot nm en ar p stk sz)
     (fun r s' => wf s' /\ (forall t, r = Some t -> created p t s s') /\
        (m2 <> None -> r = match ot with Some t => Some t | None => m1 end)) s.
Proof.
  intros W Hp Ht. unfold thread_create_etc.
  destruct (match ot with Some t0 => (Some t0, 0) | None => (m1, THREAD_FLAG_FREE_STRUCT) end)
    as [[t|] fl] eqn:E; [|apply wp_ret; split_and!; [done..|by destruct ot; simplify_eq]].
  destruct (Ht t) as (Hne & Hs & Hl & Hw); [by destruct ot; simplify_eq|].
  pose proof (wf_core _ W) as C.
  assert (Hq : N_timer (TM_stack t) ∉ timerq s).
  { eapply suspended_no_timer; [exact C|done|by destruct Hs as [->| ->]..]. }
  assert (C0 : core [t; current_thread s] s)
    by (apply core_take_hand; [done|by destruct Hs as [->| ->]..]).
  assert (Cr0 : creating t s s).
  { constructor; try done. exists (thr s), (wqs s), (freed s). by destruct s. }
  unfold init_thread_struct, wait_queue_init.
  apply wp_bind, wp_bind, wp_gets, wp_bind, wp_gets, wp_bind, wp_assert.
  { rewrite Hl, (core_hand_not_queued _ _ _ C0) by set_solver. done. }
  apply wp_modify. match goal with |- wp _ _ (set_thr t ?f s) => set (f1 := f) end.
  pose proof (creating_thr t f1 s s Hne Hq Cr0) as Cr1. set (s1 := set_thr t f1 s) in *.
  apply wp_bind, wp_bind, wp_gets, wp_bind, wp_assert.
  { unfold list_is_empty. simpl. unfold waitq in Hw. by rewrite Hw. }
  apply wp_modify. pose proof (creating_wq_init t s s1 Hw Cr1) as Cr2. set (s2 := set_wq _ _ s1) in *.
  apply wp_bind, wp_modify. match goal with |- wp _ _ (set_thr t ?f s2) => set (f3 := f) end.
  pose proof (creating_thr t f3 s s2 Hne Hq Cr2) as Cr3. set (s3 := set_thr t f3 s2) in *.
  assert (E3 : thr s3 t = f3 (f1 (thr s t))).
  { unfold s3. rewrite set_thr_eq. change (thr s2 t) with (thr s1 t). unfold s1. by rewrite set_thr_eq. }
  assert (So : state (thr s3 t) = THREAD_SUSPENDED /\ suspended_ok s3 t).
  { rewrite E3. split; [done|]. clearbody s3. 
    assert (Hf : frames (f3 (f1 (thr s t))) = [] \/ frames (f3 (f1 (thr s t))) = [F_initial]).
    { unfold f3. simpl. destruct (_ && _); auto. }
    destruct Hf as [Hf|Hf]; constructor; rewrite E3, ?Hf; try done; try exact Hp; try (unfold f3; simpl; lia);
      intros Hin; set_solver. }
  assert (W3 : wf s3).
  { apply (creating_done t s s3 W Hne Cr3); [by destruct Hs as [->| ->]|apply So..]. }
  assert (Ew : wqs s3 (WQ_retcode t) = WaitQueue WAIT_QUEUE_MAGIC 0).
  { simpl. unfold upd. by rewrite decide_True. }
  destruct (bool_decide (stk = None) && bool_decide (m2 = None)) eqn:Ef.
  - apply wp_bind, wp_free. intros l. apply wp_ret. apply andb_prop in Ef as [_ ->%bool_decide_eq_true].
    split_and!; [by apply wf_freed|done..].
  - apply wp_bind, wp_enter; [apply W3|]. intros s4 F4.
    apply wp_bind, wp_modify, wp_bind, wp_exit.
    { simpl. rewrite (cf_crit _ _ _ F4). pose proof (r_crit _ (wf_running _ W3)). lia. }
    intros s5 F5. apply wp_ret. destruct (cr_rest _ _ _ Cr3) as (g & h & l & Es).
    split_and!; [| |by destruct ot; simplify_eq].
    + eapply wf_crit_frame; [exact W3|exact F4|done|exact F5|].
      rewrite (cf_lnk _ _ _ F4). by apply wf_add_thread.
    + intros ? [= <-]. assert (E5 : thr s5 = thr s3) by by rewrite (cf_thr _ _ _ F5), <- (cf_thr _ _ _ F4).
      constructor; rewrite ?E5; try (by apply Cr3).
      * rewrite (cf_current _ _ _ F5). exact (cf_current _ _ _ F4).
      * rewrite (cf_idle _ _ _ F5). exact (cf_idle _ _ _ F4).
      * rewrite (cf_crit _ _ _ F5). simpl. rewrite (cf_crit _ _ _ F4). simpl. lia.
      * by rewrite E3.
      * rewrite (cf_wqs _ _ _ F5). simpl. by rewrite (cf_wqs _ _ _ F4).
      * intros h' Hh. rewrite (cf_lnk _ _ _ F5). simpl. rewrite (cf_lnk _ _ _ F4).
        by rewrite (adds_other _ adds_head) by (done || apply C).
Qed.

End ksafe.
