(* ===== verification/KTick.v ===== *)
(** * The timer interrupt

    [timer_tick] fires every timer that is due, in queue order, and leaves a
    queue whose head is still to come; each turn of its loop lowers the number
    of due timers, so it ends.  Driver callbacks enter through [callbacks_ok]:
    what the rules in include/kernel/timer.h ask of a callback that runs in
    interrupt context. *)

From S2P Require Import Prelude ListH Kernel Sched Sync KInv Safety KSafe.

Open Scope lk_scope.

Section tick.
Context {LO : ListOps knode khead} {LL : ListLaws knode khead}.
Implicit Types (s : kstate) (t u : Z) (w : wqid) (X : list Z) (k : list frame) (x : timer_id).

Definition due_node s (now : Z) (n : knode) : bool :=
  match n with N_timer x => negb (TIME_LT now (scheduled_time (tmr s x))) | _ => false end.
Definition due_count (now : Z) s : nat := length (List.filter (due_node s now) (timerq s)).

(** A callback keeps the kernel well formed, does not switch threads and does
    not arm a timer that is due already. *)
Definition callbacks_ok (user_callback : Z -> timer_id -> Z -> M kstate bool) : Prop :=
  forall f x now k s,
    unwinding k s -> timed k = false -> 1 <= critical_section_count s ->
    wp (user_callback f x now)
       (fun _ s' => unwinding k s' /\ (due_count now s' <= due_count now s)%nat) s.

Lemma filter_remove_lt {A} `{!EqDecision A} (f : A -> bool) n (l : list A) :
  n ∈ l -> f n = true ->
  (length (List.filter f (list_remove_all n l)) < length (List.filter f l))%nat.
Proof.
  assert (Hle : forall l, (length (List.filter f (list_remove_all n l)) <= length (List.filter f l))%nat).
  { induction l0 as [|y l0 IH]; simpl; [lia|]. case_decide; destruct (f y) eqn:E; simpl;
      rewrite ?E; simpl; lia. }
  induction l as [|y l IH]; intros Hin Hf; [set_solver|]. simpl. case_decide as Hd.
  - subst. rewrite Hf. simpl. specialize (Hle l). lia.
  - apply elem_of_cons in Hin as [|Hin]; [congruence|]. specialize (IH Hin Hf). simpl.
    destruct (f y); simpl; lia.
Qed.

Lemma due_count_eq now s s' :
  timerq s' = timerq s -> tmr s' = tmr s -> due_count now s' = due_count now s.
Proof. unfold due_count, due_node. by intros -> ->. Qed.

Definition without_timer x s : kstate := set_lnk (list_delete (N_timer x) (lnk s)) s.

Lemma due_count_delete X now s x :
  core X s -> N_timer x ∈ timerq s -> due_node s now (N_timer x) = true ->
  (due_count now (without_timer x s) < due_count now s)%nat.
Proof.
  intros C Hin Hd. unfold due_count. change (due_node (without_timer x s) now) with (due_node s now).
  unfold timerq. simpl. rewrite (de_self _ _ _ (hand_deleted _ _ _ _ C Hin)).
  by apply filter_remove_lt.
Qed.

(** ** The kernel's own callbacks *)

Lemma wp_sleep_handler k t s :
  unwinding k s -> 1 <= critical_section_count s -> t <> current_thread s ->
  magic (thr s t) = THREAD_MAGIC -> state (thr s t) = THREAD_SLEEPING ->
  N_timer (TM_stack t) ∈ timerq s ->
  wp (thread_sleep_handler t) (fun _ s' => unwinding k s' /\
       timerq s' = timerq (without_timer (TM_stack t) s) /\ tmr s' = tmr s)
     (without_timer (TM_stack t) s).
Proof.
  intros U Hc Hne Hm Hs Hin. pose proof (u_core _ _ U) as C.
  pose proof (hand_deleted _ _ _ _ C Hin) as D. set (s1 := without_timer (TM_stack t) s).
  assert (So : suspended_ok s t).
  { apply (c_susp _ _ C); [set_solver|done|unfold may_run; by rewrite Hs]. }
  assert (C1 : core [t; current_thread s] s1).
  { apply core_dequeue_timer; [|done|].
    - apply core_take_hand; [done|by rewrite Hs..].
    - intros u Hu [= <-]. set_solver. }
  unfold thread_sleep_handler.
  apply wp_bind, wp_gets, wp_bind, wp_assert; [simpl; by rewrite Hm|].
  apply wp_bind, wp_assert; [simpl; by rewrite Hs|]. apply wp_bind, wp_modify.
  set (s2 := set_thr t (t_state THREAD_READY) s1).
  assert (E2 : thr s2 t = t_state THREAD_READY (thr s t)) by exact (set_thr_eq t _ s1).
  assert (C2 : core [t; current_thread s] s2).
  { apply core_set_thr; [done|set_solver|]. right; left. unfold timerq. simpl.
    rewrite (de_elem _ _ _ D). naive_solver. }
  apply wp_bind, (wp_insert_run _ [current_thread s]);
    [done|by rewrite E2|by rewrite E2|rewrite E2; apply So|done|]. apply wp_ret.
  pose proof (hand_added _ s2 t list_add_head (H_run (priority (thr s2 t))) C2
    (list_elem_of_here _ _) adds_head) as A.
  assert (Et : timerq (put_ready list_add_head t s2) = timerq s1) by by apply A.
  split; [|done]. eapply unwinding_upd; try exact U; try done.
  - apply core_put_ready; [done|set_solver|apply adds_head|by rewrite E2|rewrite E2; apply So|].
    intros _. eapply suspended_same; [exact So|done|by rewrite E2..].
  - unfold cur. change (thr s2 (current_thread s) = thr s1 (current_thread s)). by apply set_thr_ne.
  - intros n. rewrite Et. intros Hn. by apply (de_elem _ _ _ D) in Hn as [? _].
  - intros u Hu. change (state (thr s2 u) = THREAD_READY).
    destruct (decide (u = t)) as [->|]; [by rewrite E2|]. unfold s2. rewrite set_thr_ne by done. done.
Qed.

Definition unblock_state w t err s : kstate :=
  set_thr t (t_bret err) (set_thr t (t_state THREAD_READY) (set_thr t (t_bwq None) (take_waiter w t s))).

Lemma unblock_state_thr w t err s u :
  thr (unblock_state w t err s) u = if decide (u = t) then wake_fields err (thr s t) else thr s u.
Proof. simpl. unfold upd. repeat case_decide; subst; try done. Qed.

Lemma core_unblock_state X w t err s :
  core X s -> N_queue t ∈ waitq s w -> core (t :: X) (unblock_state w t err s).
Proof.
  intros C Hin. destruct (c_wait _ _ C w _ Hin) as (_ & t' & [= <-] & _ & Hst & _).
  pose proof (core_take_waiter _ _ _ _ C Hin) as C1. unfold unblock_state.
  apply core_set_thr; [apply core_set_thr; [apply core_set_thr; [done|set_solver|]|set_solver|]|set_solver|];
    right; right; simpl; unfold upd; rewrite ?decide_True by done; simpl; by rewrite ?Hst.
Qed.

(** [thread_unblock_from_wait_queue] on a blocked thread takes it off its queue
    and makes it ready with the given result; on any other it reports
    [ERR_NOT_BLOCKED] and changes nothing. *)
Lemma wp_unblock X t err s (Q : Z -> kstate -> Prop) :
  core X s -> t ∉ X -> t <> current_thread s -> 1 <= critical_section_count s ->
  magic (thr s t) = THREAD_MAGIC ->
  (state (thr s t) <> THREAD_BLOCKED -> Q ERR_NOT_BLOCKED s) ->
  (forall w s', blocking_wait_queue (thr s t) = Some w -> N_queue t ∈ waitq s w ->
     woken X w t err s s' -> Q NO_ERROR s') ->
  wp (thread_unblock_from_wait_queue t err) Q s.
Proof.
  intros C HtX Hne Hc Hm Hno Hyes. unfold thread_unblock_from_wait_queue.
  apply wp_bind, wp_gets, wp_bind, wp_assert; [apply Z.ltb_lt; lia|].
  apply wp_bind, wp_gets, wp_bind, wp_assert; [by rewrite Hm|].
  case_bool_decide as Hb; simpl; [|by apply wp_ret, Hno].
  pose proof (c_placed _ _ C t HtX) as Hpl. unfold placed in Hpl. rewrite Hb in Hpl.
  destruct Hpl as (w & Hw & Hin). destruct (c_wait _ _ C w _ Hin) as (Hwm & _).
  assert (So : suspended_ok s t) by (apply (c_susp _ _ C); [done|done|unfold may_run; by rewrite Hb]).
  apply wp_bind, (wp_getopt _ _ _ w); [done|]. apply wp_bind, wp_gets, wp_bind, wp_assert; [by rewrite Hwm|].
  apply wp_bind, wp_gets, wp_bind, wp_assert; [by apply (in_contents _ (H_wait w)); [apply C|]|].
  unfold wq_add. apply wp_bind, wp_modify, wp_bind, wp_modify, wp_bind, wp_modify, wp_bind, wp_modify,
    wp_bind, wp_modify.
  match goal with |- wp _ _ ?s' => change s' with (unblock_state w t err s) end.
  pose proof (unblock_state_thr w t err s t) as Et. rewrite decide_True in Et by done.
  apply wp_bind, (wp_insert_run _ X); [by apply core_unblock_state|by rewrite Et|by rewrite Et
    |rewrite Et; apply So|done|]. apply wp_ret.
  apply (Hyes w); [done|done|]. apply woken_put; try done.
  - by apply core_unblock_state.
  - intros u. apply unblock_state_thr.
  - by do 2 eexists.
  - intros v. simpl. unfold upd. by case_decide; subst.
Qed.

Lemma wp_timeout_handler k t s :
  unwinding k s -> 1 <= critical_section_count s -> t <> current_thread s ->
  magic (thr s t) = THREAD_MAGIC ->
  wp (wait_queue_timeout_handler t) (fun _ s' => unwinding k s' /\
       timerq s' = timerq s /\ tmr s' = tmr s) s.
Proof.
  intros U Hc Hne Hm. unfold wait_queue_timeout_handler.
  apply wp_bind, wp_gets, wp_bind, wp_assert; [by rewrite Hm|]. apply wp_bind.
  eapply wp_unblock; [apply U|set_solver|done|done|done|..].
  - intros _. by apply wp_ret.
  - intros w s' Hw Hin W. apply wp_ret. split; [by eapply woken_unwinding|].
    pose proof W as [_ (f & g & l & b & ->) _ _ _ _ Et]. done.
Qed.

Lemma unwinding_set_cur k f s :
  unwinding k s -> state (f (cur s)) = state (cur s) -> magic (f (cur s)) = magic (cur s) ->
  priority (f (cur s)) = priority (cur s) -> unwinding k (set_cur f s).
Proof.
  intros [] H1 H2 H3. constructor; rewrite ?cur_set; try done; try congruence.
  - apply core_set_cur; [done|set_solver].
  - intros i Hi. destruct (decide (i = current_thread s)) as [->|]; [by left|right].
    destruct (u_idle i Hi) as [|Hr]; [done|]. unfold set_cur. by rewrite set_thr_ne.
Qed.

(** ** Firing one timer *)

Section fire.
Context (user_callback : Z -> timer_id -> Z -> M kstate bool) (Hcb : callbacks_ok user_callback).

(** A driver timer off the queue leaves the invariant as it was. *)
Lemma unwinding_without k s n :
  unwinding k s -> N_timer (TM n) ∈ timerq s -> unwinding k (without_timer (TM n) s).
Proof.
  intros U Hin. pose proof (hand_deleted _ _ _ _ (u_core _ _ U) Hin) as D.
  eapply unwinding_upd; try exact U; try done.
  - by apply core_dequeue_timer; [apply U|..].
  - intros m Hm. by apply (de_elem _ _ _ D) in Hm as [? _].
Qed.

Lemma wp_callback k x now s cb :
  unwinding k s -> timed k = false -> 1 <= critical_section_count s ->
  N_timer x ∈ timerq s -> callback (tmr s x) = Some cb ->
  wp (run_callback user_callback cb x now)
     (fun _ s' => unwinding k s' /\ (due_count now s' <= due_count now (without_timer x s))%nat)
     (without_timer x s).
Proof.
  intros U Hk Hc Hin Ecb. pose proof (u_core _ _ U) as C.
  destruct (c_timer _ _ C _ Hin) as (x' & [= <-] & _ & Hok). unfold callback_ok in Hok.
  rewrite Ecb in Hok.
  assert (Hcur : forall t, x = TM_stack t -> t <> current_thread s).
  { intros t -> ->. apply (u_timer _ _ U) in Hin. congruence. }
  destruct cb as [t|t|f]; simpl.
  - destruct Hok as [-> [|[Hm Hs]]]; [by destruct (Hcur t)|].
    eapply wp_mono; [by apply (wp_sleep_handler k); auto|]. intros b s' (U' & E1 & E2).
    split; [done|]. by rewrite (due_count_eq _ _ _ E1 E2).
  - destruct Hok as [-> [|(Hm & _ & Hw)]]; [by destruct (Hcur t)|].
    assert (U1 : unwinding k (without_timer (TM_stack t) s)).
    { pose proof (hand_deleted _ _ _ _ C Hin) as D. eapply unwinding_upd; try exact U; try done.
      - apply core_dequeue_timer; [done|done|]. intros u _ [= <-] E. by rewrite E in Hw.
      - intros m Hm'. by apply (de_elem _ _ _ D) in Hm' as [? _]. }
    eapply wp_mono; [by apply (wp_timeout_handler k); auto|]. intros b s' (U' & E1 & E2).
    split; [done|]. by rewrite (due_count_eq _ _ _ E1 E2).
  - destruct Hok as [n ->]. apply Hcb; [|done|done]. by apply unwinding_without.
Qed.

(** A period below 2^63 puts the next expiry after [now]. *)
Lemma next_not_due now p :
  0 <= now < 2 ^ 64 -> 0 < p < 2 ^ 63 -> TIME_LT now (u64 (now + p)) = true.
Proof.
  intros Hn Hp. unfold TIME_LT, s64, sgn, u64. apply Z.ltb_lt.
  replace ((now - (now + p) mod 2 ^ 64) mod 2 ^ 64) with (2 ^ 64 - p).
  - rewrite (proj2 (Z.ltb_ge _ _)); [lia|]. change (2 ^ (64 - 1)) with (2 ^ 63). lia.
  - rewrite Zminus_mod_idemp_r. replace (now - (now + p)) with (- p) by lia.
    apply Z.mod_unique with (-1); lia.
Qed.

(** Putting a driver timer back for its next period. *)
Lemma wp_requeue_timer k x now s :
  unwinding k s -> 0 <= now < 2 ^ 64 -> N_timer x ∉ timerq s -> 0 < periodic_time (tmr s x) ->
  let p := periodic_time (tmr s x) in
  wp (modify (fun s => let t := tmr s x in
        set_tmr x (Timer (tm_magic t) (u64 (now + p)) (periodic_time t) (callback t)) s) ;;;
      insert_timer_in_queue x)
     (fun _ s' => unwinding k s' /\ due_count now s' = due_count now s) s.
Proof.
  intros U Hn Hq Hp p. unfold p. clear p. pose proof (u_core _ _ U) as C.
  destruct (c_period _ _ C x) as [Hr Hper]. destruct (Hper Hp) as (Hm & f & n & Ecb & Ex).
  apply wp_bind, wp_modify. cbv beta zeta.
  match goal with |- wp _ _ (set_tmr x ?v' s) => set (v := v') end. set (s1 := set_tmr x v s).
  assert (C1 : core [current_thread s] s1) by (apply core_set_tmr; done).
  assert (Ev : tmr s1 x = v) by (simpl; unfold upd; by rewrite decide_True).
  assert (Eo : forall y, y <> x -> tmr s1 y = tmr s y) by (intros; simpl; unfold upd; by rewrite decide_False).
  destruct (insert_timer_spec _ s1 x C1) as (l1 & l2 & l & Ei & El & Ec & Hl & Ho & _ & _); [done|].
  eapply wp_some; [exact Ei|].
  assert (C2 : core [current_thread s] (set_lnk l s1)).
  { eapply core_enqueue_timer; eauto; [by rewrite Ev|]. unfold callback_ok. rewrite Ev. simpl.
    rewrite Ecb. eauto. }
  assert (Hdue : forall y, N_timer y ∈ l1 ++ l2 -> tmr s1 y = tmr s y).
  { intros y Hy. apply Eo. intros ->. apply Hq. change (timerq s) with (timerq s1). by rewrite El. }
  split.
  - destruct U. constructor; try done.
    + change (tmr (set_lnk l s1)) with (tmr s1). rewrite Eo by by subst x. done.
    + unfold timerq. simpl. rewrite Ec. intros Hin. apply u_timer.
      change (timerq s) with (timerq s1). rewrite El. subst x. set_solver.
  - unfold due_count. change (timerq (set_lnk l s1)) with (contents l H_timer). rewrite Ec.
    change (timerq s) with (timerq s1). rewrite El, !List.filter_app. cbn [List.filter due_node].
    change (tmr (set_lnk l s1)) with (tmr s1). rewrite Ev. cbn [v scheduled_time].
    rewrite next_not_due by (done || lia). simpl.
    f_equal. f_equal; apply filter_ext_in_bool; intros [|?|y] Hy; try done; unfold due_node;
      change (tmr (set_lnk l s1)) with (tmr s1); rewrite Hdue by set_solver; done.
Qed.

Lemma wp_timer_fire k x now s :
  unwinding k s -> timed k = false -> 1 <= critical_section_count s -> 0 <= now < 2 ^ 64 ->
  N_timer x ∈ timerq s -> due_node s now (N_timer x) = true ->
  wp (timer_fire user_callback x now)
     (fun _ s' => unwinding k s' /\ (due_count now s' < due_count now s)%nat) s.
Proof.
  intros U Hk Hc Hn Hin Hd. pose proof (u_core _ _ U) as C.
  destruct (c_timer _ _ C _ Hin) as (x' & [= <-] & Hm & Hok).
  destruct (callback (tmr s x)) as [cb|] eqn:Ecb; [|unfold callback_ok in Hok; by rewrite Ecb in Hok].
  unfold timer_fire. apply wp_bind, wp_gets, wp_bind, wp_assert; [by rewrite Hm|].
  apply wp_bind, wp_modify, wp_bind, (wp_getopt _ _ _ cb); [done|]. apply wp_bind.
  eapply wp_mono; [by apply (wp_callback k)|]. intros b s2 [U2 D2].
  pose proof (due_count_delete _ now s x C Hin Hd).
  apply wp_bind, wp_gets, wp_bind, wp_gets, wp_bind. case_if; [|by apply wp_ret, wp_ret; split; [|lia]].
  bools. eapply wp_mono; [apply (wp_requeue_timer k); try done|].
  - intros Hq. rewrite <- (core_timer_queued [current_thread s2]) in Hq by apply U2. congruence.
  - intros ? s3 [U3 E3]. apply wp_ret. split; [done|lia].
Qed.

(** The loop ends after at most as many turns as there are due timers; the
    timer it stops at is still to come. *)
Lemma wp_timer_loop fuel k now r s :
  unwinding k s -> timed k = false -> 1 <= exits k -> 0 <= now < 2 ^ 64 ->
  (due_count now s < fuel)%nat ->
  wp (timer_loop user_callback fuel now r)
     (fun _ s' => unwinding k s' /\
        forall n, head (timerq s') = Some n -> due_node s' now n = false) s.
Proof.
  revert r s. induction fuel as [|f IH]; intros r s U Hk Hx Hn Hf; [lia|].
  pose proof (u_core _ _ U) as C. simpl. apply wp_bind. unfold peek_timer, list_peek_head.
  apply wp_bind, wp_gets. fold (timerq s). destruct (timerq s) as [|n q] eqn:Eq.
  { apply wp_ret, wp_ret. split; [done|]. by rewrite Eq. }
  assert (Hin : n ∈ timerq s) by (rewrite Eq; set_solver).
  destruct (c_timer _ _ C _ Hin) as (x & -> & _).
  apply wp_bind, (wp_getopt _ _ _ x); [done|]. apply wp_ret, wp_bind, wp_gets.
  match goal with |- wp (if ?b then _ else _) _ _ => destruct b eqn:Hd end.
  - apply wp_bind. eapply wp_mono; [apply (wp_timer_fire k); try done; apply (crit_ge _ _ U); lia|].
    intros b s1 [U1 D1]. apply IH; try done. lia.
  - apply wp_ret. split; [done|]. rewrite Eq. by intros ? [= <-].
Qed.

Lemma due_count_le now s : (due_count now s <= length (timerq s))%nat.
Proof. unfold due_count. apply List.filter_length_le. Qed.

(** ** The interrupt *)

Lemma wp_timer_tick k now s :
  unwinding k s -> timed k = false -> 1 <= exits k -> 0 <= now < 2 ^ 64 ->
  wp (timer_tick user_callback now) (fun _ s' => unwinding k s') s.
Proof.
  intros U Hk Hx Hn. unfold timer_tick. apply wp_bind, wp_gets, wp_bind. fold (timerq s).
  eapply wp_mono; [apply (wp_timer_loop _ k); try done; pose proof (due_count_le now s); lia|].
  intros b s1 [U1 _]. apply wp_bind. unfold thread_timer_tick. apply wp_bind, wp_gets, wp_bind, wp_gets.
  assert (Fin : forall b' s', unwinding k s' ->
    wp (let* c := gets in_critical_section in assert_ c ;;; ret (b || b')) (fun _ s' => unwinding k s') s').
  { intros b' s' U'. apply wp_bind, wp_gets, wp_bind, wp_assert; [|by apply wp_ret].
    apply Z.ltb_lt. pose proof (crit_ge _ _ U'). lia. }
  case_if; [by apply wp_ret, Fin|]. apply wp_bind, wp_modify, wp_gets, Fin. by apply unwinding_set_cur.
Qed.

Lemma unwinding_irq s s' :
  wf s -> critical_section_count s = 0 ->
  s' = set_time (u32 (current_time s + 10)) (set_crit 1 (set_ints false s)) -> unwinding [F_irq] s'.
Proof.
  intros [C [] Hi Ho] Hc ->. constructor; try done.
  - by eapply core_same.
  - intros _. exists []. split_and!; [done|set_solver|done].
Qed.

Lemma wp_platform_irq s :
  wf s -> critical_section_count s = 0 ->
  wp (platform_irq user_callback) (fun _ s' => wf s') s.
Proof.
  intros W Hc. unfold platform_irq, timer_irq, inc_critical_section.
  apply wp_bind, wp_modify, wp_bind, wp_modify, wp_bind, wp_bind, wp_modify, wp_bind, wp_gets.
  pose proof (u32_range (current_time s + 10)) as Hr.
  eapply wp_mono; [apply (wp_timer_tick [F_irq]); try done|].
  - apply (unwinding_irq s); [done|done|]. simpl. by rewrite Hc.
  - simpl. lia.
  - intros [|] s2 U2; [by apply wp_thread_preempt|by apply wf_wp_frames].
Qed.

End fire.
End tick.
