(* ===== verification/KMain.v ===== *)
(** * Boot and the calls of the running system

    [lk_main] is the kernel part of top/main.c: it turns zero-initialised
    storage into a system with an idle thread and the bootstrap2 thread.
    [kcall] collects what a running thread can ask of the kernel and the timer
    interrupt; [legal] is the documented precondition of each.  The theorems
    say that boot succeeds and that from then on no legal call reaches an
    [ASSERT], a [DEBUG_ASSERT], a [panic] or an endless loop. *)

From S2P Require Import Prelude ListH Kernel Sched Sync KInv Safety KSafe KTick.

Open Scope lk_scope.

Section kmain.
Context {LO : ListOps knode khead}.
Implicit Types (s : kstate).

(** ** top/main.c *)

Definition zero_thread : thread :=
  Thread 0 0 THREAD_SUSPENDED 0 0 0 None 0 None 0 0 0 0 EmptyString [] 0 None.

(** The kernel's storage at entry: zero, every list head initialised. *)
Definition zeroed (l : links) : kstate :=
  KState l (fun _ => zero_thread) (fun _ => WaitQueue 0 0) (fun _ => Timer 0 0 0 None)
    (fun _ => Mutex 0 None 0) (fun _ => Event 0 false 0) (fun _ => Semaphore 0 0)
    0 None 0 0 false 0 [].

Definition DEFAULT_PRIORITY : Z := NUM_PRIORITIES / 2.

(** [timer_init]: the head is initialised again, so it has to be empty. *)
Definition timer_init : M kstate unit :=
  let* e := gets (fun s => list_is_empty (lnk s) H_timer) in
  assert_ e.

(** The part of [lk_main] that sets up threads; [bootstrap2] is the address of
    the entry point, the two [malloc]s are those of [thread_create].  The
    result is not checked for [NULL]: [thread_detach(NULL)] is [None]. *)
Definition lk_main (bootstrap_thread bootstrap2 stack_size : Z) (malloc_struct malloc_stack : option Z)
    : M kstate unit :=
  inc_critical_section ;;;
  thread_init_early bootstrap_thread ;;;
  timer_init ;;;
  let* t := thread_create malloc_struct malloc_stack "bootstrap2" bootstrap2 0
              DEFAULT_PRIORITY stack_size in
  match t with
  | None => panic
  | Some t =>
    thread_detach t [] ;;;
    thread_resume t [] ;;;
    thread_become_idle
  end.

(** ** The calls *)

Inductive kcall : Type :=
| C_yield | C_sleep (delay : Z) | C_set_priority (p : Z) | C_resume (t : Z)
| C_create (malloc_struct malloc_stack t : option Z) (nm : string) (entry arg priority : Z)
           (stack : option Z) (stack_size : Z)
| C_detach (t : Z) | C_exit (retcode : Z)
| C_mutex_init (m : Z) | C_mutex_acquire (m timeout : Z) | C_mutex_release (m : Z)
| C_event_init (e : Z) (initial : bool) (flags : Z) | C_event_wait (e timeout : Z)
| C_event_signal (e : Z) (reschedule : bool) | C_event_unsignal (e : Z)
| C_sem_init (x value : Z) | C_sem_post (x : Z) | C_sem_wait (x : Z) | C_sem_trywait (x : Z)
| C_sem_timedwait (x timeout : Z)
| C_timer_initialize (n : Z) | C_timer_oneshot (n delay f : Z) | C_timer_periodic (n period f : Z)
| C_timer_cancel (n : Z)
| C_irq.

Context (user_callback : Z -> timer_id -> Z -> M kstate bool).

Definition exec (c : kcall) : M kstate unit :=
  match c with
  | C_yield => thread_yield []
  | C_sleep d => thread_sleep d []
  | C_set_priority p => thread_set_priority p
  | C_resume t => thread_resume t []
  | C_create m1 m2 t nm en ar p stk sz => thread_create_etc m1 m2 t nm en ar p stk sz ;;; ret tt
  | C_detach t => thread_detach t []
  | C_exit rc => thread_exit rc
  | C_mutex_init m => mutex_init m
  | C_mutex_acquire m timeout => mutex_acquire_timeout m timeout []
  | C_mutex_release m => mutex_release m []
  | C_event_init e i f => event_init e i f
  | C_event_wait e timeout => event_wait_timeout e timeout []
  | C_event_signal e r => event_signal e r []
  | C_event_unsignal e => event_unsignal e []
  | C_sem_init x v => sem_init x v
  | C_sem_post x => sem_post x []
  | C_sem_wait x => sem_wait x []
  | C_sem_trywait x => sem_trywait x []
  | C_sem_timedwait x timeout => sem_timedwait x timeout []
  | C_timer_initialize n => timer_initialize (TM n)
  | C_timer_oneshot n d f => timer_set_oneshot (TM n) d (CB_user f)
  | C_timer_periodic n p f => timer_set_periodic (TM n) p (CB_user f)
  | C_timer_cancel n => timer_cancel (TM n)
  | C_irq => platform_irq user_callback
  end.

Definition legal (c : kcall) s : Prop :=
  match c with
  | C_yield | C_set_priority _ | C_sem_trywait _ => True
  | C_sleep _ => can_block s
  | C_resume t => magic (thr s t) = THREAD_MAGIC /\ state (thr s t) <> THREAD_DEATH
  | C_create m1 _ t _ _ _ p _ _ => 0 <= p < NUM_PRIORITIES /\
      forall t', match t with Some t => Some t | None => m1 end = Some t' -> creatable s t'
  | C_detach t => magic (thr s t) = THREAD_MAGIC /\ state (thr s t) <> THREAD_DEATH /\
      wq_magic (wqs s (WQ_retcode t)) = WAIT_QUEUE_MAGIC
  | C_exit _ => can_block s /\ N_tlist (current_thread s) ∈ contents (lnk s) H_threads /\
      wq_magic (wqs s (WQ_retcode (current_thread s))) = WAIT_QUEUE_MAGIC
  | C_mutex_init m => waitq s (WQ_mutex m) = []
  | C_mutex_acquire m _ => m_magic (mtx s m) = MUTEX_MAGIC /\
      holder (mtx s m) <> Some (current_thread s) /\ can_block s
  | C_mutex_release m => m_magic (mtx s m) = MUTEX_MAGIC /\
      holder (mtx s m) = Some (current_thread s)
  | C_event_init e _ _ => waitq s (WQ_event e) = []
  | C_event_wait e _ => e_magic (evt s e) = EVENT_MAGIC /\ can_block s
  | C_event_signal e _ | C_event_unsignal e => e_magic (evt s e) = EVENT_MAGIC
  | C_sem_init x _ => waitq s (WQ_sem x) = []
  | C_sem_post x => wq_magic (wqs s (WQ_sem x)) = WAIT_QUEUE_MAGIC
  | C_sem_wait x | C_sem_timedwait x _ =>
      wq_magic (wqs s (WQ_sem x)) = WAIT_QUEUE_MAGIC /\ can_block s
  | C_timer_initialize n => N_timer (TM n) ∉ timerq s
  | C_timer_oneshot n _ _ => tm_magic (tmr s (TM n)) = TIMER_MAGIC /\ (N_timer (TM n) ∉ timerq s)
  | C_timer_periodic n p _ => tm_magic (tmr s (TM n)) = TIMER_MAGIC /\ (N_timer (TM n) ∉ timerq s) /\
      0 <= p < 2 ^ 63
  | C_timer_cancel n => tm_magic (tmr s (TM n)) = TIMER_MAGIC
  | C_irq => ints_enabled s = true
  end.

(** The states of a running system. *)
Inductive reachable (s0 : kstate) : kstate -> Prop :=
| reach_start : reachable s0 s0
| reach_step s c s' :
    reachable s0 s -> legal c s -> exec c s = Some (tt, s') -> reachable s0 s'.

End kmain.

Section theorems.
Context {LO : ListOps knode khead} {LL : ListLaws knode khead}.
Implicit Types (s : kstate) (k : list frame) (w : wqid).

(** ** Initialising objects *)

Lemma wf_objects_init w s (W : wf s) s' :
  waitq s w = [] -> s' = set_wq w (WaitQueue WAIT_QUEUE_MAGIC 0) s -> wf s'.
Proof.
  destruct W as [C [] Hi [H1 H2]]. intros Hw ->. constructor; try done; [by apply core_wq_init|].
  split; intros; simpl; unfold upd; case_decide; try done; [by apply H1|by apply H2].
Qed.

Lemma wp_wait_queue_init w s (Q : unit -> kstate -> Prop) :
  waitq s w = [] -> Q tt (set_wq w (WaitQueue WAIT_QUEUE_MAGIC 0) s) -> wp (wait_queue_init w) Q s.
Proof.
  intros Hw HQ. unfold wait_queue_init. apply wp_bind, wp_gets, wp_bind, wp_assert; [|by apply wp_modify].
  unfold list_is_empty, waitq in *. by rewrite Hw.
Qed.

Lemma wp_mutex_init m s : wf s -> waitq s (WQ_mutex m) = [] -> wp (mutex_init m) (fun _ s' => wf s') s.
Proof.
  intros W Hw. unfold mutex_init. apply wp_bind, wp_wait_queue_init; [done|]. apply wp_modify.
  pose proof (wf_objects_init (WQ_mutex m) s W _ Hw eq_refl) as [C [] Hi [H1 H2]].
  constructor; try done; [by eapply core_same|]. split; [|done]. intros m'. simpl. unfold upd.
  repeat case_decide; try done; [congruence|]. intros. apply (proj1 (wf_objects _ W)). done.
Qed.

Lemma wp_event_init e i f s : wf s -> waitq s (WQ_event e) = [] -> wp (event_init e i f) (fun _ s' => wf s') s.
Proof.
  intros W Hw. unfold event_init. apply wp_bind, wp_wait_queue_init; [done|]. apply wp_modify.
  pose proof (wf_objects_init (WQ_event e) s W _ Hw eq_refl) as [C [] Hi [H1 H2]].
  constructor; try done; [by eapply core_same|]. split; [done|]. intros m'. simpl. unfold upd.
  repeat case_decide; try done; [congruence|]. intros. apply (proj2 (wf_objects _ W)). done.
Qed.

Lemma wp_sem_init x v s : wf s -> waitq s (WQ_sem x) = [] -> wp (sem_init x v) (fun _ s' => wf s') s.
Proof.
  intros W Hw. unfold sem_init. apply wp_bind, wp_wait_queue_init; [done|]. apply wp_modify.
  pose proof (wf_objects_init (WQ_sem x) s W _ Hw eq_refl) as [C [] Hi Ho].
  constructor; try done. by eapply core_same.
Qed.

(** ** Driver timers *)

Lemma wf_timer_frame s s' x :
  wf s -> timer_frame s s' -> core [current_thread s] s' ->
  (forall n, n ∈ timerq s' -> n = N_timer (TM x) \/ n ∈ timerq s) -> wf s'.
Proof.
  intros [C [] Hi Ho] [] C' Hq.
  assert (Ec : cur s' = cur s) by (unfold cur; by rewrite tf_thr, tf_current).
  constructor; rewrite ?tf_current; try done.
  - constructor; rewrite ?Ec, ?tf_current, ?tf_crit; try done.
    + intros Hin. by destruct (Hq _ Hin).
    + by rewrite tf_ints.
  - intros i. rewrite tf_idle, tf_current, tf_thr. apply Hi.
  - unfold objects_ok in *. by rewrite tf_mtx, tf_evt, tf_wqs.
Qed.

Lemma wp_user_timer n d p f s :
  wf s -> tm_magic (tmr s (TM n)) = TIMER_MAGIC -> N_timer (TM n) ∉ timerq s -> 0 <= p < 2 ^ 63 ->
  wp (timer_set (TM n) d p (CB_user f)) (fun _ s' => wf s') s.
Proof.
  intros W Hm Hq Hp. eapply wp_timer_set; [apply W|done|done|done|eauto|apply (wf_running _ W)|..].
  - intros s' E _ _. unfold callback_ok. rewrite E. simpl. eauto.
  - intros s' C' F' _ _ Hn _. by eapply (wf_timer_frame s).
Qed.

Lemma wp_user_timer_cancel n s :
  wf s -> tm_magic (tmr s (TM n)) = TIMER_MAGIC -> wp (timer_cancel (TM n)) (fun _ s' => wf s') s.
Proof.
  intros W Hm. eapply wp_timer_cancel; [apply W|done|apply (wf_running _ W)|done|].
  intros s' C' F' _ Hn. eapply (wf_timer_frame s _ n); auto.
Qed.

Lemma wp_user_timer_initialize n s :
  wf s -> N_timer (TM n) ∉ timerq s -> wp (timer_initialize (TM n)) (fun _ s' => wf s') s.
Proof.
  intros W Hq. eapply wp_timer_initialize; [apply W|done|]. intros s' C' F' El _.
  eapply (wf_timer_frame s _ n); auto. unfold timerq. rewrite El. auto.
Qed.

(** ** thread_detach on a thread that has not exited *)

(** [wait_queue_wake_all] without a reschedule returns to its caller. *)
Lemma wp_wake_all_quiet w err k s :
  unwinding k s -> 1 <= critical_section_count s -> wq_magic (wqs s w) = WAIT_QUEUE_MAGIC ->
  wp (wait_queue_wake_all w false err []) (fun _ s' => unwinding k s' /\ exists s2,
       all_woken [current_thread s] w err s s2 /\ unwinding k s2 /\
       s' = set_cur (t_retval (Z.of_nat (length (waitq s w)))) s2) s.
Proof.
  intros U Hc Hw. pose proof (u_core _ _ U) as C. unfold wait_queue_wake_all, check_wait_queue.
  wp_steps; [by rewrite Hw|apply Z.ltb_lt; lia|]. apply wp_ret, wp_bind, wp_gets, wp_bind. fold (waitq s w).
  eapply wp_mono; [apply (wp_wake_loop _ [current_thread s]); [done|by rewrite (u_state _ _ U)|done|lia]|].
  intros n s2 [-> A]. pose proof A as [C2 _ W2 _ _].
  apply wp_bind, wp_gets, wp_bind, wp_assert; [by rewrite (c_count _ _ C2), W2, decide_True|].
  pose proof (unwinding_woken _ _ _ _ _ U A) as U2. cbn [andb run_frames]. apply wp_modify.
  rewrite Z.add_0_l. split; [by apply unwinding_set_cur|eauto].
Qed.

Lemma wp_wake_quiet w err k s :
  unwinding k s -> 1 <= critical_section_count s -> wq_magic (wqs s w) = WAIT_QUEUE_MAGIC ->
  wp (wait_queue_wake_all w false err []) (fun _ s' => unwinding k s' /\
       current_thread s' = current_thread s /\ idle_thread s' = idle_thread s /\
       critical_section_count s' = critical_section_count s /\
       (forall t, magic (thr s' t) = magic (thr s t)) /\
       (forall t, state (thr s t) <> THREAD_DEATH -> state (thr s' t) <> THREAD_DEATH) /\
       (waitq s w = [] -> (forall p, runq s' p = runq s p) /\ priority (cur s') = priority (cur s) /\
          forall t, t <> current_thread s -> thr s' t = thr s t)) s.
Proof.
  intros U Hc Hw. eapply wp_mono; [by apply (wp_wake_all_quiet _ _ k)|].
  intros _ s' [U' (s2 & A & _ & ->)]. split; [done|]. pose proof A as [_ P2 _ R2 T2].
  pose proof P2 as [(f & g & l & b & Es) _ _ _].
  assert (Ec : current_thread s2 = current_thread s) by by subst s2.
  assert (E : forall t, state (thr (set_cur (t_retval (Z.of_nat (length (waitq s w)))) s2) t) =
                        state (thr s2 t) /\
                        magic (thr (set_cur (t_retval (Z.of_nat (length (waitq s w)))) s2) t) =
                        magic (thr s2 t)).
  { intros t. unfold set_cur. destruct (decide (t = current_thread s2)) as [->|].
    - by rewrite set_thr_eq.
    - by rewrite set_thr_ne. }
  split_and!; try (by subst s2).
  - intros t. rewrite (proj2 (E t)), T2. by case_decide.
  - intros t. rewrite (proj1 (E t)), T2. by case_decide.
  - intros Hn. rewrite Hn in *. split_and!.
    + intros p. exact (R2 p).
    + rewrite cur_set. simpl. unfold cur. by rewrite Ec, T2, decide_False by set_solver.
    + intros t Ht. unfold set_cur. rewrite set_thr_ne by congruence.
      by rewrite T2, decide_False by set_solver.
Qed.

(** Nobody joins [t]: only its flags and the caller's return value change. *)
Record detached t s s' : Prop := {
  dt_run : forall p, runq s' p = runq s p;
  dt_prio : priority (cur s') = priority (cur s);
  dt_thr : exists fl, thr s' t = t_flags fl (thr s t);
}.

Lemma wp_thread_detach t s :
  wf s -> magic (thr s t) = THREAD_MAGIC -> state (thr s t) <> THREAD_DEATH ->
  wq_magic (wqs s (WQ_retcode t)) = WAIT_QUEUE_MAGIC ->
  wp (thread_detach t []) (fun _ s' => wf s' /\ critical_section_count s' = critical_section_count s /\
       current_thread s' = current_thread s /\ idle_thread s' = idle_thread s /\
       (waitq s (WQ_retcode t) = [] -> t <> current_thread s -> detached t s s')) s.
Proof.
  intros W Hm Hd Hw. unfold thread_detach. apply wp_bind, wp_gets, wp_bind, wp_assert; [by rewrite Hm|].
  apply wp_bind, (wp_enter_call F_resume []); [by apply wf_unwinding|done..|]. intros s1 U1 F1. apply wp_bind.
  eapply wp_mono; [apply (wp_wake_quiet _ _ [F_resume]); [done|by eapply crit_ge|by rewrite (cf_wqs _ _ _ F1)]|].
  intros ? s2 (U2 & Ec2 & Ei2 & Ecr2 & Em2 & Hd2 & Hs2). apply wp_bind, wp_gets.
  rewrite (cf_thr _ _ _ F1) in *. rewrite bool_decide_false by auto. apply wp_bind, wp_modify.
  set (f := t_flags _). set (s3 := set_thr t f s2).
  assert (Et : forall u, state (thr s3 u) = state (thr s2 u) /\ magic (thr s3 u) = magic (thr s2 u)).
  { intros u. unfold s3. destruct (decide (u = t)) as [->|]; [by rewrite set_thr_eq|by rewrite set_thr_ne]. }
  assert (Ecur : state (cur s3) = state (cur s2) /\ magic (cur s3) = magic (cur s2) /\
    priority (cur s3) = priority (cur s2)).
  { unfold cur. change (current_thread s3) with (current_thread s2).
    unfold s3. destruct (decide (current_thread s2 = t)) as [->|]; [by rewrite set_thr_eq|by rewrite set_thr_ne]. }
  assert (U3 : unwinding [F_resume] s3).
  { destruct U2, Ecur as (E1 & E2 & E3). constructor; try done; rewrite ?E1, ?E2, ?E3; try done.
    - by apply core_set_other.
    - intros i Hi. change (current_thread s3) with (current_thread s2). rewrite (proj1 (Et i)). auto. }
  match goal with |- wp _ ?Q s3 => change (wp (run_frames [F_resume] NO_ERROR) Q s3) end.
  eapply wp_mono; [by apply wp_run_frames|]. intros ? s4 [W4 [[] Ecr4]].
  change (current_thread s3) with (current_thread s2) in *. rewrite Ec2, (cf_current _ _ _ F1) in *.
  split; [done|]. split; [|split; [done|split]].
  - rewrite Ecr4. simpl. rewrite Ecr2, (cf_crit _ _ _ F1). lia.
  - rewrite rf_idle. simpl. by rewrite Ei2, (cf_idle _ _ _ F1).
  - intros Hn Hne. unfold waitq in Hs2. rewrite (cf_lnk _ _ _ F1) in Hs2.
    destruct (Hs2 Hn) as (R & P & T). constructor.
    + intros p. rewrite rf_run. change (runq s2 p = runq s p). rewrite R.
      unfold runq. by rewrite (cf_lnk _ _ _ F1).
    + destruct rf_cur as [v Ev]. unfold cur at 1. rewrite rf_current, Ev.
      change (priority (t_retval v (cur s3))) with (priority (cur s3)).
      rewrite (proj2 (proj2 Ecur)), P. unfold cur. by rewrite (cf_current _ _ _ F1), (cf_thr _ _ _ F1).
    + eexists. rewrite rf_thr by done. unfold s3. rewrite set_thr_eq. unfold f. by rewrite T.
Qed.

(** ** Every call *)

Section calls.
Context (user_callback : Z -> timer_id -> Z -> M kstate bool).
Context (Hcb : callbacks_ok user_callback).

Lemma exec_wf c s : wf s -> legal c s -> wp (exec user_callback c) (fun _ s' => wf s') s.
Proof.
  intros W. pose proof (wf_unwinding _ W) as U. destruct c; simpl; intros L; destruct_and?.
  - by apply wp_thread_yield.
  - by apply wp_thread_sleep.
  - by apply wp_thread_set_priority.
  - by apply wp_thread_resume.
  - apply wp_bind. eapply wp_mono; [by apply wp_thread_create_etc|]. intros r s' [W' _]. by apply wp_ret.
  - eapply wp_mono; [by apply wp_thread_detach|]. by intros ? ? [].
  - by apply wp_thread_exit.
  - by apply wp_mutex_init.
  - by apply wp_mutex_acquire.
  - by apply wp_mutex_release.
  - by apply wp_event_init.
  - by apply wp_event_wait.
  - by apply wp_event_signal.
  - by apply wp_event_unsignal.
  - by apply wp_sem_init.
  - by apply wp_sem_post.
  - by apply wp_sem_wait.
  - by apply wp_sem_trywait.
  - by apply wp_sem_timedwait.
  - by apply wp_user_timer_initialize.
  - by apply wp_user_timer.
  - unfold timer_set_periodic. apply wp_user_timer; try done. zcases; lia.
  - by apply wp_user_timer_cancel.
  - apply wp_platform_irq; [done|done|]. rewrite (r_ints _ (wf_running _ W)) in L. lia.
Qed.

Lemma reachable_wf s0 s : wf s0 -> reachable user_callback s0 s -> wf s.
Proof.
  intros W0. induction 1 as [|s c s' _ IH L E]; [done|].
  pose proof (exec_wf c s IH L) as H. unfold wp in H. by rewrite E in H.
Qed.

End calls.

(** ** Boot *)

Section boot.
Context (l : links) (b : Z).
Context (Hl : links_ok l) (He : forall h, contents l h = []).

(** The state thread_init_early leaves. *)
Record booting s : Prop := {
  bt_wf : wf s;
  bt_crit : critical_section_count s = 1;
  bt_current : current_thread s = b;
  bt_idle : idle_thread s = None;
  bt_prio : priority (cur s) = HIGHEST_PRIORITY;
  bt_thr : forall u, u <> b -> thr s u = zero_thread;
  bt_lists : forall h, contents (lnk s) h = if decide (h = H_threads) then [N_tlist b] else [];
}.

Lemma boot_early (Q : unit -> kstate -> Prop) :
  (forall s, booting s -> Q tt s) ->
  wp (inc_critical_section ;;; thread_init_early b) Q (zeroed l).
Proof.
  intros HQ. apply wp_bind, wp_modify. unfold thread_init_early, init_thread_struct.
  assert (Hq : forall n, list_in_list l n = false).
  { intros n. apply not_in_list; [done|]. intros h. rewrite He. set_solver. }
  apply wp_bind, wp_bind, wp_gets, wp_bind, wp_gets, wp_bind, wp_assert; [cbn; by rewrite !Hq|].
  apply wp_modify, wp_bind, wp_wait_queue_init; [apply He|].
  apply wp_bind, wp_modify, wp_bind, wp_modify, wp_modify, HQ.
  match goal with |- booting ?s1 => set (s := s1) end.
  assert (L : forall h, contents (lnk s) h = if decide (h = H_threads) then [N_tlist b] else []).
  { intros h. unfold s. cbn. rewrite add_head_contents, !He by done. done. }
  assert (T : forall u, u <> b -> thr s u = zero_thread).
  { intros u Hu. unfold s. cbn. unfold upd. by rewrite !decide_False. }
  assert (Eb : exists th, thr s b = th /\ state th = THREAD_RUNNING /\ magic th = THREAD_MAGIC /\
    priority th = HIGHEST_PRIORITY).
  { eexists. split; [done|]. unfold s. cbn. unfold upd. rewrite !decide_True by done. done. }
  destruct Eb as (th & Eb & E1 & E2 & E3).
  constructor; try done; [|change (priority (thr s b) = HIGHEST_PRIORITY); by rewrite Eb]. constructor.
  - constructor; unfold runq, waitq, timerq; try done;
      try (intros *; rewrite L, decide_False by done; by intros ?%elem_of_nil).
    + unfold s. cbn. by apply add_head_ok.
    + intros w. rewrite L, decide_False by done. unfold s. cbn. unfold upd. by repeat case_decide.
    + intros n. rewrite L, decide_True by done. intros ->%list_elem_of_singleton. eauto.
    + intros p _. unfold list_is_empty. rewrite L, decide_False by done. by rewrite Z.testbit_0_l.
    + intros u Hu. unfold placed. rewrite T by set_solver. done.
    + intros u Hu _. unfold may_run. rewrite T by set_solver. done.
  - constructor; unfold cur; change (current_thread s) with b; rewrite ?Eb; try done.
    + by rewrite E3.
    + unfold timerq. rewrite L, decide_False by done. apply not_elem_of_nil.
  - done.
  - split; intros m Hm; discriminate Hm.
Qed.

(** The set-up of bootstrap2 by the bootstrap thread, which runs at the
    highest priority and keeps the processor. *)
Lemma boot_second s t stk bootstrap2 sz (m : M kstate unit) (Q : unit -> kstate -> Prop) :
  booting s -> t <> b ->
  (forall s', wf s' -> critical_section_count s' = 1 -> current_thread s' = b ->
     idle_thread s' = None ->
     saved_critical_section_count (thr s' t) = 1 -> frames (thr s' t) = [F_initial] ->
     (forall p, runq s' p = if decide (p = DEFAULT_PRIORITY) then [N_queue t] else []) ->
     wp m Q s') ->
  wp (let* t := thread_create (Some t) (Some stk) "bootstrap2" bootstrap2 0 DEFAULT_PRIORITY sz in
      match t with
      | None => panic
      | Some t => thread_detach t [] ;;; thread_resume t [] ;;; m
      end) Q s.
Proof.
  intros [W Hc Hcur Hi Hp Ht Hls] Hne HQ. apply wp_bind. unfold thread_create.
  eapply wp_mono; [apply wp_thread_create_etc; [done|done|]|].
  { intros ? [= <-]. unfold creatable. rewrite Hcur, Ht by done. split_and!; [done|by left|..].
    - apply not_in_list; [apply W|]. intros h. rewrite Hls. case_decide; set_solver.
    - unfold waitq. by rewrite Hls, decide_False. }
  intros r s1 (W1 & Hr & E). rewrite E in Hr by done. rewrite E by done. clear r E.
  destruct (Hr t eq_refl) as [Ec Ei Ecr Et (En1 & En2 & En3 & En4 & En5) Ew El]. apply wp_bind.
  eapply wp_mono; [apply wp_thread_detach; [done|done|by rewrite En2|by rewrite Ew]|].
  intros _ s2 (W2 & Ecr2 & Ec2 & Ei2 & D).
  destruct D as [R2 P2 (fl & T2)].
  { unfold waitq. rewrite El by done. by rewrite Hls, decide_False. }
  { congruence. }
  assert (R : forall p, runq s2 p = []).
  { intros p. rewrite R2. unfold runq. rewrite El by done. by rewrite Hls, decide_False. }
  assert (P : priority (cur s2) = HIGHEST_PRIORITY).
  { rewrite P2. unfold cur in *. by rewrite Ec, Et by congruence. }
  apply wp_bind. eapply wp_mono; [apply wp_thread_resume_stays; [done|rewrite T2..|done]|]; try done.
  { simpl. rewrite P, En3. done. }
  intros [] s3 (W3 & Ec3 & Ei3 & Ecr3 & T3 & R3). rewrite T2 in *. simpl in *. rewrite En3 in R3.
  apply HQ; try congruence.
  - by rewrite T3.
  - by rewrite T3.
  - intros p. by rewrite R3, R.
Qed.

Lemma wf_crit d s s' : wf s -> 0 <= critical_section_count s + d -> crit_frame d s s' -> wf s'.
Proof.
  intros [C [] Hi Ho] Hc F. pose proof (crit_core _ _ _ _ F C) as C'. destruct F.
  assert (Ec : cur s' = cur s) by (unfold cur; by rewrite cf_thr, cf_current).
  constructor; rewrite ?cf_current; try done.
  - constructor; rewrite ?Ec, ?cf_current, ?cf_crit; try done; try lia.
    + unfold timerq. by rewrite cf_lnk.
    + rewrite <- cf_crit. by apply cf_ints.
  - intros i. rewrite cf_idle, cf_current, cf_thr. apply Hi.
  - unfold objects_ok in *. by rewrite cf_mtx, cf_evt, cf_wqs.
Qed.

(** thread_become_idle hands the processor to bootstrap2. *)
Lemma boot_idle s t :
  wf s -> critical_section_count s = 1 -> current_thread s = b -> idle_thread s = None -> t <> b ->
  saved_critical_section_count (thr s t) = 1 -> frames (thr s t) = [F_initial] ->
  (forall p, runq s p = if decide (p = DEFAULT_PRIORITY) then [N_queue t] else []) ->
  wp thread_become_idle (fun _ s' => wf s' /\ current_thread s' = t /\ idle_thread s' = Some b /\
       critical_section_count s' = 0) s.
Proof.
  intros W Hc Hcur Hi Hne Hs Hf Hr. unfold thread_become_idle, thread_set_name, thread_set_priority.
  pose proof (r_prio _ (wf_running _ W)) as Hp0.
  apply wp_bind, wp_modify, wp_bind, wp_modify, wp_bind, wp_modify, wp_bind.
  set (nm := t_name _). set (pr := t_priority _). set (s2 := set_cur pr (set_cur nm s)).
  assert (W2 : wf s2).
  { unfold s2. apply wf_set_cur; try done. by apply wf_set_cur. }
  assert (W3 : wf (set_idle (Some (current_thread s2)) s2)).
  { destruct W2 as [C [] _ Ho]. constructor; try done; [by eapply core_same|].
    intros i [= <-]. by left. }
  apply wp_exit; [simpl; lia|]. intros s4 F4.
  assert (W4 : wf s4) by (eapply wf_crit; [exact W3| |exact F4]; simpl; lia).
  assert (U4 : unwinding [F_idle] s4).
  { destruct (wf_unwinding _ W4). constructor; try done. intros Hin. by apply list_elem_of_singleton in Hin. }
  assert (Ec : current_thread s4 = b) by (rewrite (cf_current _ _ _ F4); exact Hcur).
  assert (Ep : priority (cur s4) = IDLE_PRIORITY).
  { unfold cur. rewrite (cf_thr _ _ _ F4), Ec, <- Hcur.
    change (priority (cur s2) = IDLE_PRIORITY). unfold s2. by rewrite cur_set. }
  assert (Et : thr s4 t = thr s t).
  { rewrite (cf_thr _ _ _ F4). change (thr s2 t = thr s t). unfold s2, set_cur.
    rewrite !set_thr_ne; [done|simpl; congruence..]. }
  assert (R : forall p, runq s4 p = if decide (p = DEFAULT_PRIORITY) then [N_queue t] else []).
  { intros p. rewrite <- Hr. unfold runq. by rewrite (cf_lnk _ _ _ F4). }
  eapply wp_mono; [by apply (wp_thread_yield_next [F_idle])|]. intros _ s' [W' Y]. split; [done|].
  enough (Ecur : current_thread s' = t).
  { split; [done|]. split; [rewrite (y_idle _ _ _ Y), (cf_idle _ _ _ F4); simpl; congruence|].
    rewrite (y_go _ _ _ Y) by congruence. rewrite Ecur, Et, Hs, Hf. done. }
  destruct (y_next _ _ _ Y) as (p & u & r & Hp & Hq & Hhi & -> & _). unfold yieldq in *. rewrite Ep in *.
  destruct (decide (p = DEFAULT_PRIORITY)) as [->|Hd].
  - rewrite R, decide_False, decide_True in Hq by done. by simplify_eq.
  - destruct (decide (p < DEFAULT_PRIORITY)) as [Hlt|].
    + specialize (Hhi DEFAULT_PRIORITY). rewrite R, decide_False, decide_True in Hhi by done.
      by discriminate Hhi.
    + rewrite decide_False, R, decide_False in Hq; [done|done|]. unfold DEFAULT_PRIORITY, IDLE_PRIORITY in *.
      intros ->. by compute in n.
Qed.

Lemma boot_wp t stk bootstrap2 sz :
  t <> b ->
  wp (lk_main b bootstrap2 sz (Some t) (Some stk)) (fun _ s' => wf s' /\ current_thread s' = t /\
       idle_thread s' = Some b /\ critical_section_count s' = 0) (zeroed l).
Proof.
  intros Hne. unfold lk_main. apply wp_bind, (wp_assoc _ (fun _ => thread_init_early b)), boot_early.
  intros s B. apply wp_bind. unfold timer_init. apply wp_bind, wp_gets, wp_assert.
  { unfold list_is_empty. by rewrite (bt_lists _ B), decide_False. }
  apply boot_second; [done|done|]. intros. by apply boot_idle.
Qed.

End boot.

End theorems.
