(* ===== verification/KProps.v ===== *)
(** * What the kernel promises

    The theorems about the kernel model: safety of every call sequence, boot,
    the scheduling order of [thread_yield], of a blocking [mutex_acquire] and
    of [wait_queue_wake_all], and the order of the timer queue.  Each comes
    with an instance on the system [booted] that [lk_main] builds over the
    reference lists. *)

From S2P Require Import Prelude ListH Kernel Sched Sync KInv Safety KSafe KTick KMain.
From Stdlib Require Import Sorting.Sorted.

Open Scope lk_scope.

Section timers.
Context {LO : ListOps knode khead}.
Implicit Types (s : kstate).

(** How far from [now] a queued timer is, on the wrap-around clock. *)
Definition offset s (now : Z) (x : timer_id) : Z := s64 (scheduled_time (tmr s x) - now).

Definition node_offset s now (n : knode) : Z :=
  match n with N_timer x => offset s now x | _ => 0 end.

(** The pending timers lie within half of the clock's comparison range ... *)
Definition in_window s now : Prop :=
  forall x, N_timer x ∈ contents (lnk s) H_timer -> - 2 ^ 62 <= offset s now x < 2 ^ 62.

(** ... and are in order of expiry. *)
Definition timers_sorted s now : Prop :=
  StronglySorted (fun a b => node_offset s now a <= node_offset s now b) (contents (lnk s) H_timer).

End timers.

Section reference.
#[local] Existing Instance ref_ops.

(** The system after boot, over the reference lists: bootstrap thread 0,
    bootstrap2 thread 1. *)
Definition booted : kstate :=
  match lk_main 0 1 4096 (Some 1) (Some 100) (zeroed ref_empty) with
  | Some (_, s) => s
  | None => zeroed ref_empty
  end.

(** Driver timers whose callbacks do nothing. *)
Definition no_callback (f : Z) (x : timer_id) (now : Z) : M kstate bool := ret false.

(** A run of the system as the calls made so far, the latest first; each is
    made by the thread that is current at that point. *)
Fixpoint run (cs : list kcall) : M kstate unit :=
  match cs with
  | [] => ret tt
  | c :: cs' => run cs' ;;; exec no_callback c
  end.

Definition after (s0 : kstate) (cs : list kcall) : kstate :=
  match run cs s0 with Some (_, s) => s | None => s0 end.

(** Thread 1 takes mutex 0 and sleeps; thread 2 of lower priority waits for it
    with a time-out that expires on the same tick as the sleep ... *)
Definition waiting : list kcall :=
  [C_mutex_acquire 0 10;
   C_sleep 10;
   C_resume 2;
   C_create (Some 2) (Some 200) None "waiter" 2 0 10 None 4096;
   C_mutex_acquire 0 INFINITE_TIME;
   C_mutex_init 0].

(** ... thread 1 then releases the mutex and takes it again. *)
Definition contended : list kcall :=
  [C_mutex_acquire 0 INFINITE_TIME;
   C_mutex_release 0;
   C_irq] ++ waiting.

End reference.

Section theorems.
Context {LO : ListOps knode khead} {LL : ListLaws knode khead}.
Implicit Types (s : kstate) (k : list frame) (w : wqid).

(** ** Clock arithmetic *)

Lemma s64_unique z d c : - 2 ^ 63 <= d < 2 ^ 63 -> z = d + c * 2 ^ 64 -> s64 z = d.
Proof.
  intros Hd ->. rewrite <- (s64_small d) at 2 by done. unfold s64, sgn. by rewrite Z_mod_plus_full.
Qed.

Lemma s64_decomp z : exists c, z = s64 z + c * 2 ^ 64.
Proof.
  pose proof (Z_div_mod_eq_full z (2 ^ 64)) as E. unfold s64, sgn.
  zcases; [exists (z / 2 ^ 64)|exists (z / 2 ^ 64 + 1)]; lia.
Qed.

Lemma offset_gt a b now :
  - 2 ^ 62 <= s64 (a - now) < 2 ^ 62 -> - 2 ^ 62 <= s64 (b - now) < 2 ^ 62 ->
  TIME_GT a b = (s64 (b - now) <? s64 (a - now)).
Proof.
  intros Ha Hb. destruct (s64_decomp (a - now)) as [ca Ea], (s64_decomp (b - now)) as [cb Eb].
  unfold TIME_GT. rewrite (s64_unique (a - b) (s64 (a - now) - s64 (b - now)) (ca - cb)) by lia.
  zcases; lia.
Qed.

Lemma offset_new now delay : 0 <= delay < 2 ^ 62 -> s64 (u64 (now + delay) - now) = delay.
Proof.
  intros Hd. apply (s64_unique _ _ (- ((now + delay) / 2 ^ 64))); [lia|]. unfold u64.
  pose proof (Z_div_mod_eq_full (now + delay) (2 ^ 64)). lia.
Qed.

Lemma sorted_insert {A} (f : A -> Z) l1 x l2 :
  StronglySorted (fun a b => f a <= f b) (l1 ++ l2) ->
  (forall y, y ∈ l1 -> f y <= f x) -> (forall y, head l2 = Some y -> f x < f y) ->
  StronglySorted (fun a b => f a <= f b) (l1 ++ x :: l2) /\ (forall y, y ∈ l2 -> f x < f y).
Proof.
  intros Hs H1 H2.
  assert (Ha : forall y, y ∈ l2 -> f x < f y).
  { assert (Hs2 : StronglySorted (fun a b => f a <= f b) l2).
    { clear H1 H2. induction l1; [done|]. apply StronglySorted_inv in Hs as [? _]. auto. }
    destruct l2 as [|z l2]; [set_solver|]. apply StronglySorted_inv in Hs2 as [_ Hf].
    pose proof (H2 z eq_refl). intros y [->|Hy]%elem_of_cons; [done|].
    rewrite Forall_forall in Hf. specialize (Hf y Hy). lia. }
  split; [|done]. clear H2. induction l1 as [|a l1 IH]; simpl in *.
  - constructor; [done|]. apply Forall_forall. intros y Hy. apply Ha in Hy. lia.
  - apply StronglySorted_inv in Hs as [Hs Hf]. constructor; [apply IH; set_solver|].
    rewrite !Forall_forall in *. intros y. rewrite elem_of_app, elem_of_cons.
    intros [?|[->|?]]; [apply Hf; set_solver|apply H1; set_solver|apply Hf; set_solver].
Qed.

Lemma sorted_ext {A} (f g : A -> Z) l :
  (forall y, y ∈ l -> f y = g y) ->
  StronglySorted (fun a b => f a <= f b) l -> StronglySorted (fun a b => g a <= g b) l.
Proof.
  induction l as [|a l IH]; [constructor|]. intros E [Hs Hf]%StronglySorted_inv.
  constructor; [apply IH; set_solver|]. rewrite !Forall_forall in *. intros y Hy.
  rewrite <- !E by set_solver. auto.
Qed.

Lemma wp_timer_set_split n delay period f s :
  wf s -> tm_magic (tmr s (TM n)) = TIMER_MAGIC -> N_timer (TM n) ∉ timerq s ->
  0 <= delay < 2 ^ 62 -> 0 <= period < 2 ^ 63 -> in_window s (current_time s) ->
  wp (timer_set (TM n) delay period (CB_user f)) (fun _ s' =>
    (forall x, x <> TM n -> tmr s' x = tmr s x) /\
    tmr s' (TM n) = Timer TIMER_MAGIC (u64 (current_time s + delay)) period (Some (CB_user f)) /\
    exists l1 l2, timerq s = l1 ++ l2 /\ timerq s' = l1 ++ N_timer (TM n) :: l2 /\
      (forall y, y ∈ l1 -> node_offset s (current_time s) y <= delay) /\
      (forall y, head l2 = Some y -> delay < node_offset s (current_time s) y)) s.
Proof.
  intros W Hm Hx Hd Hp Hw. pose proof (wf_core _ W) as C. unfold timer_set. wp_steps.
  { by rewrite Hm. } { by rewrite (core_timer_not_queued _ _ _ C Hx). }
  set (s1 := set_tmr _ _ s). set (now := current_time s) in *.
  assert (C1 : core [current_thread s] s1) by (apply core_set_tmr; [done..|split; [done|eauto]]).
  assert (E1 : tmr s1 (TM n) = Timer TIMER_MAGIC (u64 (now + delay)) period (Some (CB_user f))).
  { simpl. unfold upd. rewrite decide_True by done. by rewrite Hm. }
  assert (E1' : forall x, x <> TM n -> tmr s1 x = tmr s x).
  { intros x ?. simpl. unfold upd. by rewrite decide_False. }
  apply wp_enter; [apply (wf_running _ W)|]. intros s2 F2.
  destruct (insert_timer_spec _ s2 (TM n) (crit_core _ _ _ _ F2 C1)) as (l1 & l2 & l & Ei & E & El & _ & _ & H1 & H2).
  { unfold timerq. by rewrite (cf_lnk _ _ _ F2). }
  apply wp_bind. eapply wp_some; [exact Ei|].
  apply wp_exit; [simpl; rewrite (cf_crit _ _ _ F2); pose proof (r_crit _ (wf_running _ W)); simpl; lia|].
  intros s4 F4. rewrite (cf_tmr _ _ _ F4). cbn [set_lnk tmr]. rewrite (cf_tmr _ _ _ F2) in *.
  assert (Eq : timerq s = l1 ++ l2).
  { change (timerq s) with (timerq s1). rewrite <- E. unfold timerq. by rewrite (cf_lnk _ _ _ F2). }
  assert (G : forall y, N_timer y ∈ timerq s -> TIME_GT (scheduled_time (tmr s1 y)) (scheduled_time (tmr s1 (TM n)))
     = (delay <? offset s now y)).
  { intros y Hy. rewrite E1, E1' by congruence. cbn [scheduled_time].
    rewrite (offset_gt _ _ now), offset_new by (rewrite ?offset_new; first [done|lia|by apply Hw]). done. }
  split; [done|]. split; [done|]. exists l1, l2. split_and!; [done| |..].
  - unfold timerq. rewrite (cf_lnk _ _ _ F4). done.
  - intros y Hy. destruct (c_timer _ _ C y) as (x & -> & _); [rewrite Eq; set_solver|].
    specialize (H1 x Hy). rewrite G in H1 by (rewrite Eq; set_solver). simpl. lia.
  - intros y Hy. destruct l2 as [|z l2]; simplify_eq/=. destruct H2 as (e & -> & H2).
    rewrite G in H2 by (rewrite Eq; set_solver). simpl. lia.
Qed.

Lemma wp_unit (c : M kstate unit) (P : kstate -> Prop) s :
  wp c (fun _ => P) s -> exists s', c s = Some (tt, s') /\ P s'.
Proof. intros ([] & s' & ? & ?)%wp_exists. eauto. Qed.

Lemma wp_conj (c : M kstate unit) (P Q : unit -> kstate -> Prop) s :
  wp c P s -> wp c Q s -> wp c (fun a s' => P a s' /\ Q a s') s.
Proof. unfold wp. destruct (c s) as [[a s']|]; auto. Qed.

(** C9: a sorted timer queue stays sorted under [timer_set], with the new timer
    behind every timer that expires no later and in front of the others, even
    when the 64-bit clock wraps around between now and the expiry. *)
Theorem timer_set_sorted n delay period f s :
  wf s -> tm_magic (tmr s (TM n)) = TIMER_MAGIC -> N_timer (TM n) ∉ timerq s ->
  0 <= delay < 2 ^ 62 -> 0 <= period < 2 ^ 63 ->
  in_window s (current_time s) -> timers_sorted s (current_time s) ->
  exists s', timer_set (TM n) delay period (CB_user f) s = Some (tt, s') /\
    timers_sorted s' (current_time s) /\ in_window s' (current_time s) /\
    exists l1 l2, timerq s = l1 ++ l2 /\ timerq s' = l1 ++ N_timer (TM n) :: l2 /\
      (forall y, y ∈ l1 -> node_offset s (current_time s) y <= delay) /\
      (forall y, y ∈ l2 -> delay < node_offset s (current_time s) y).
Proof.
  intros W Hm Hx Hd Hp Hw Hs.
  destruct (proj1 (wp_exists _ _ _) (wp_timer_set_split n delay period f s W Hm Hx Hd Hp Hw))
    as ([] & s' & E & To & Tn & l1 & l2 & E1 & E2 & H1 & H2). exists s'. split; [done|].
  set (now := current_time s) in *.
  assert (On : node_offset s' now (N_timer (TM n)) = delay).
  { simpl. unfold offset. rewrite Tn. by apply offset_new. }
  assert (Oo : forall y, y ∈ timerq s -> node_offset s' now y = node_offset s now y).
  { intros [|?|x] Hy; try done. simpl. unfold offset. rewrite To; [done|congruence]. }
  destruct (sorted_insert (node_offset s' now) l1 (N_timer (TM n)) l2) as [S1 S2].
  { rewrite <- E1. eapply sorted_ext; [|exact Hs]. intros y Hy. symmetry. by apply Oo. }
  { intros y Hy. rewrite On, Oo by (rewrite E1; set_solver). auto. }
  { intros y Hy. rewrite On. destruct l2 as [|z l2]; simplify_eq/=.
    rewrite Oo by (rewrite E1; set_solver). auto. }
  split_and!.
  - unfold timers_sorted. fold (timerq s'). by rewrite E2.
  - intros x. fold (timerq s'). rewrite E2. intros Hin.
    destruct (decide (x = TM n)) as [->|]; [simpl in On; lia|].
    assert (Hy : N_timer x ∈ timerq s) by (rewrite E1; set_solver).
    specialize (Oo _ Hy). simpl in Oo. rewrite Oo. by apply Hw.
  - exists l1, l2. split_and!; try done. intros y Hy. specialize (S2 y Hy).
    rewrite On, Oo in S2 by (rewrite E1; set_solver). done.
Qed.

(** C6: [thread_yield] is round robin within a priority: the caller goes to the
    tail of its run queue and the head of the highest-priority queue that is
    not empty runs next; every other queue and thread is left as it was. *)
Theorem thread_yield_round_robin s :
  wf s ->
  exists s' p t r, thread_yield [] s = Some (tt, s') /\ wf s' /\
    yieldq s p = N_queue t :: r /\ (forall q, p < q < NUM_PRIORITIES -> yieldq s q = []) /\
    current_thread s' = t /\ runq s' p = r /\ (forall q, q <> p -> runq s' q = yieldq s q) /\
    (forall u, u <> current_thread s -> u <> t -> thr s' u = thr s u).
Proof.
  intros W. destruct (proj1 (wp_exists _ _ _) (wp_thread_yield_next [] s (wf_unwinding _ W) eq_refl))
    as ([] & s' & E & W' & [(p & t & r & Hp & H1 & H2 & H3 & H4 & H5) Ht _ _ _]).
  exists s', p, t, r. split_and!; try done. by subst t.
Qed.

(** One round of yields: every thread that gets to run yields at once. *)
Fixpoint yields (n : nat) : M kstate unit :=
  match n with O => ret tt | S n' => thread_yield [] ;;; yields n' end.

(** A yield among ready threads of the current priority, none being above it. *)
Lemma yield_rotates s t r :
  wf s -> runq s (priority (cur s)) = N_queue t :: r ->
  (forall q, priority (cur s) < q < NUM_PRIORITIES -> runq s q = []) ->
  exists s', thread_yield [] s = Some (tt, s') /\ wf s' /\ current_thread s' = t /\
    priority (cur s') = priority (cur s) /\
    runq s' (priority (cur s)) = r ++ [N_queue (current_thread s)] /\
    (forall q, priority (cur s) < q < NUM_PRIORITIES -> runq s' q = []).
Proof.
  intros W Hr Hhi. set (p := priority (cur s)) in *.
  destruct (proj1 (wp_exists _ _ _) (wp_thread_yield_next [] s (wf_unwinding _ W) eq_refl))
    as ([] & s' & E & W' & [(p' & t' & r' & Hp & H1 & H2 & H3 & H4 & H5) _ _ _ _ Hpr]).
  assert (Hy : yieldq s p = N_queue t :: r ++ [N_queue (current_thread s)]).
  { unfold yieldq. rewrite decide_True by done. by rewrite Hr. }
  assert (Hyh : forall q, p < q < NUM_PRIORITIES -> yieldq s q = []).
  { intros q Hq. unfold yieldq. rewrite decide_False by (fold p; lia). by apply Hhi. }
  pose proof (r_prio _ (wf_running _ W)) as Hpp. fold p in Hpp.
  assert (p' = p) as ->.
  { destruct (Z.lt_total p' p) as [Hlt|[?|Hgt]]; [|done|].
    - rewrite H2 in Hy by lia. done.
    - rewrite Hyh in H1 by lia. done. }
  rewrite Hy in H1. injection H1 as <- <-. exists s'. split_and!; try done.
  - rewrite Hpr, H3. assert (Hin : N_queue t ∈ runq s p) by (rewrite Hr; set_solver).
    by destruct (c_run _ _ (wf_core _ W) p _ Hin) as (_ & u & [= <-] & _ & _ & ?).
  - intros q Hq. rewrite H5 by lia. by apply Hyh.
Qed.

(** C7: No ready thread of the running priority starves: when no thread of a
    higher priority is ready, the thread at position [i] of the run queue is
    running after [i + 1] yields, whichever threads run in between. *)
Theorem thread_yield_no_starvation s t (i : nat) :
  wf s -> runq s (priority (cur s)) !! i = Some (N_queue t) ->
  (forall q, priority (cur s) < q < NUM_PRIORITIES -> runq s q = []) ->
  exists s', yields (S i) s = Some (tt, s') /\ wf s' /\ current_thread s' = t.
Proof.
  revert s. induction i as [|i IH]; intros s W Hi Hhi;
    destruct (runq s (priority (cur s))) as [|x r] eqn:Hr; try done;
    (assert (Hin : x ∈ runq s (priority (cur s))) by (rewrite Hr; set_solver));
    destruct (c_run _ _ (wf_core _ W) _ _ Hin) as (_ & u & -> & _);
    destruct (yield_rotates s u r W Hr Hhi) as (s1 & E & W1 & Ec & Ep & Er & Eh).
  - exists s1. injection Hi as ->. split_and!; try done. simpl. unfold bind. by rewrite E.
  - destruct (IH s1 W1) as (s' & E' & ?).
    + rewrite Ep, Er. simpl in Hi. rewrite lookup_app_l by by eapply lookup_lt_Some. done.
    + rewrite Ep. done.
    + exists s'. split; [|done]. cbn [yields]. unfold bind at 1. by rewrite E.
Qed.

(** [wait_queue_wake_all] without a reschedule makes every waiting thread
    ready with the given status and returns their number; threads of one
    priority run in the reverse of the order in which they waited, before the
    threads that were ready already. *)
Theorem wait_queue_wake_all_order w err s :
  wf s -> 1 <= critical_section_count s -> wq_magic (wqs s w) = WAIT_QUEUE_MAGIC ->
  exists s', wait_queue_wake_all w false err [] s = Some (tt, s') /\
    current_thread s' = current_thread s /\ retval (cur s') = Z.of_nat (length (waitq s w)) /\
    (forall v, waitq s' v = if decide (v = w) then [] else waitq s v) /\
    (forall p, runq s' p = rev (filter (fun n => node_priority s n = p) (waitq s w)) ++ runq s p) /\
    (forall t, N_queue t ∈ waitq s w -> state (thr s' t) = THREAD_READY /\
       wait_queue_block_ret (thr s' t) = err /\ blocking_wait_queue (thr s' t) = None).
Proof.
  intros W Hc Hw.
  destruct (proj1 (wp_exists _ _ _) (wp_wake_all_quiet w err [] s (wf_unwinding _ W) Hc Hw))
    as ([] & s' & E & U & s2 & A & U2 & ->). exists (set_cur (t_retval (Z.of_nat (length (waitq s w)))) s2).
  pose proof A as [C2 P2 W2 R2 T2]. pose proof P2 as [(f & g & l & b & Es) _ _ _].
  assert (Ec : current_thread s2 = current_thread s) by by subst s2.
  split_and!; try done; [by rewrite cur_set|]. intros t Hin.
  assert (Hne : t <> current_thread s2).
  { rewrite Ec. intros ->. destruct (c_wait _ _ (wf_core _ W) w _ Hin) as (_ & u & [= <-] & Hu & _).
    set_solver. }
  unfold set_cur. rewrite set_thr_ne, T2, decide_True by done. done.
Qed.

(** [mutex_acquire] of a mutex nobody holds takes it at once: the caller
    stays current, owns the mutex and gets [NO_ERROR]. *)
Theorem mutex_acquire_free m timeout s :
  wf s -> m_magic (mtx s m) = MUTEX_MAGIC -> holder (mtx s m) <> Some (current_thread s) ->
  m_count (mtx s m) = 0 ->
  exists s', mutex_acquire_timeout m timeout [] s = Some (tt, s') /\ wf s' /\
    current_thread s' = current_thread s /\ retval (cur s') = NO_ERROR /\
    holder (mtx s' m) = Some (current_thread s) /\ m_count (mtx s' m) = 1 /\
    (forall w, waitq s' w = waitq s w) /\ (forall p, runq s' p = runq s p) /\
    critical_section_count s' = critical_section_count s.
Proof.
  intros W Hm Hh Hn. apply wp_unit. unfold mutex_acquire_timeout.
  apply wp_bind, wp_gets, wp_bind, wp_assert; [by rewrite Hm|].
  apply wp_bind, wp_gets, wp_bind, wp_assert; [by rewrite bool_decide_false|].
  apply wp_bind, (wp_enter_call (F_mutex_acquire m) []); [by apply wf_unwinding|done..|].
  intros s1 U1 F1. apply wp_bind, wp_modify, wp_bind, wp_gets.
  destruct (unwinding_mtx _ _ m (Mutex (m_magic (mtx s1 m)) (holder (mtx s1 m)) (m_count (mtx s1 m) + 1))
    U1) as [U2 _]; [done|]. set (s2 := set_mtx m _ s1) in *.
  assert (E2 : m_count (mtx s2 m) = 1).
  { simpl. unfold upd. rewrite decide_True by done. simpl. by rewrite (cf_mtx _ _ _ F1), Hn. }
  rewrite E2. cbn [Z.ltb Z.compare Pos.compare Pos.compare_cont].
  assert (Em : wp (run_frames [F_mutex_acquire m] NO_ERROR) (fun _ s' => retval (cur s') = NO_ERROR /\
    mtx s' m = Mutex (m_magic (mtx s2 m)) (Some (current_thread s2)) 1) s2).
  { cbn [run_frames run_frame]. apply wp_bind, wp_bind, wp_modify, wp_bind, wp_modify, wp_ret, wp_modify.
    rewrite cur_set. split; [done|]. clearbody s2.
    cbn. destruct (_ =? 0); cbn; unfold upd; rewrite decide_True by done; by rewrite E2. }
  eapply wp_mono; [exact (wp_conj _ _ _ _ (wp_run_frames _ _ NO_ERROR U2) Em)|].
  intros ? s' [[W' [[] Hcr]] [Hr Hmx]]. rewrite Hmx, Hcr, rf_current. simpl.
  rewrite (cf_current _ _ _ F1), (cf_crit _ _ _ F1). split_and!; try done; try lia.
  - intros w. rewrite rf_wait. unfold waitq. simpl. by rewrite (cf_lnk _ _ _ F1).
  - intros p. rewrite rf_run. unfold runq. simpl. by rewrite (cf_lnk _ _ _ F1).
Qed.

(** C8: [mutex_acquire] of a taken mutex gives up the processor: the caller
    goes to the tail of the mutex's wait queue, no other wait queue changes, and
    the head of the highest-priority run queue that is not empty runs. *)
Theorem mutex_acquire_blocks m timeout s :
  wf s -> m_magic (mtx s m) = MUTEX_MAGIC -> holder (mtx s m) <> Some (current_thread s) ->
  1 <= m_count (mtx s m) -> timeout <> 0 -> can_block s ->
  exists s' p t r, mutex_acquire_timeout m timeout [] s = Some (tt, s') /\ wf s' /\
    next_thread s p t r /\ current_thread s' = t /\ runq s' p = r /\
    waitq s' (WQ_mutex m) = waitq s (WQ_mutex m) ++ [N_queue (current_thread s)] /\
    (forall w, w <> WQ_mutex m -> waitq s' w = waitq s w) /\
    (forall q, q <> p -> runq s' q = runq s q).
Proof.
  intros W Hm Hh Hn Ht Hb.
  enough (H : exists s', mutex_acquire_timeout m timeout [] s = Some (tt, s') /\ wf s' /\
    blocked_on (WQ_mutex m) timeout [F_mutex_acquire m] s s').
  { destruct H as (s' & E & W' & s3 & [(p & t & r & (N1 & N2 & N3) & Ec & Hr & Hq) Hw _ _ _ _ _ _] & E1 & E2 & E3).
    exists s', p, t, r. rewrite E2 in N2.
    split; [done|]. split; [done|]. split; [|split; [done|split; [done|split; [|split]]]].
    - split; [done|]. split; [done|]. intros q Hq'. rewrite <- E2. auto.
    - by rewrite Hw, E3, decide_True.
    - intros w Hne. by rewrite Hw, E3, decide_False.
    - intros q Hne. by rewrite Hq, E2. }
  apply wp_unit. unfold mutex_acquire_timeout.
  apply wp_bind, wp_gets, wp_bind, wp_assert; [by rewrite Hm|].
  apply wp_bind, wp_gets, wp_bind, wp_assert; [by rewrite bool_decide_false|].
  apply wp_bind, (wp_enter_call (F_mutex_acquire m) []); [by apply wf_unwinding|done..|].
  intros s1 U1 F1. apply wp_bind, wp_modify, wp_bind, wp_gets.
  destruct (unwinding_mtx _ _ m (Mutex (m_magic (mtx s1 m)) (holder (mtx s1 m)) (m_count (mtx s1 m) + 1))
    U1) as [U2 _]; [done|]. set (s2 := set_mtx m _ s1) in *.
  assert (E2 : m_count (mtx s2 m) = m_count (mtx s m) + 1).
  { simpl. unfold upd. rewrite decide_True by done. simpl. by rewrite (cf_mtx _ _ _ F1). }
  rewrite E2, (proj2 (Z.ltb_lt _ _)) by lia.
  eapply wp_mono; [apply (wp_wait_queue_block _ _ [F_mutex_acquire m]); try done|].
  - by eapply crit_ge.
  - simpl. rewrite (cf_wqs _ _ _ F1). by apply (wf_objects _ W).
  - exact (can_block_crit _ _ _ F1 Hb).
  - intros _ s' [W' (s3 & Sw & Ec & Er & Ew)]. split; [done|]. exists s3. split; [done|].
    rewrite Ec. change (current_thread s2) with (current_thread s1). rewrite (cf_current _ _ _ F1) in *.
    unfold runq, waitq in *. cbn in Er, Ew. rewrite (cf_lnk _ _ _ F1), (cf_current _ _ _ F1) in *. done.
Qed.


(** C2: [lk_main] succeeds on zeroed storage when its two allocations do: the
    system is well formed, the bootstrap thread has become the idle thread,
    bootstrap2 runs and is outside every critical section, so interrupts are
    on and it may block. *)
Theorem lk_main_boots l b t stk bootstrap2 size :
  links_ok l -> (forall h, contents l h = []) -> t <> b ->
  exists s, lk_main b bootstrap2 size (Some t) (Some stk) (zeroed l) = Some (tt, s) /\
    wf s /\ current_thread s = t /\ idle_thread s = Some b /\
    critical_section_count s = 0 /\ ints_enabled s = true /\ can_block s.
Proof.
  intros Hl He Hne. destruct (wp_unit _ _ _ (boot_wp l b Hl He t stk bootstrap2 size Hne))
    as (s & E & W & Ec & Ei & Ecr). exists s. split_and!; try done.
  - by rewrite (r_ints _ (wf_running _ W)), Ecr.
  - exists b. by rewrite Ec.
Qed.

End theorems.

(** ** The booted system *)

Section witnesses.
#[local] Existing Instance ref_ops.
#[local] Existing Instance ref_laws.

Lemma no_callback_ok : callbacks_ok no_callback.
Proof. intros f x now k s U _ _. by apply wp_ret. Qed.

Lemma booted_wf : wf booted /\ current_thread booted = 1 /\ idle_thread booted = Some 0 /\
  critical_section_count booted = 0.
Proof.
  destruct (wp_unit _ _ _ (boot_wp (LO := ref_ops knode khead) (LL := ref_laws knode khead) ref_empty 0 (ref_empty_ok _ _) (fun _ => eq_refl) 1 100 1 4096
    ltac:(done))) as (s & E & H). unfold booted. by rewrite E.
Qed.

Lemma lk_main_boots_witness :
  exists s, lk_main 0 1 4096 (Some 1) (Some 100) (zeroed ref_empty) = Some (tt, s) /\
    wf s /\ current_thread s = 1 /\ idle_thread s = Some 0 /\
    critical_section_count s = 0 /\ ints_enabled s = true /\ can_block s.
Proof. apply lk_main_boots; [apply ref_empty_ok|done|done]. Defined.


Lemma thread_yield_round_robin_witness :
  exists s' p t r, thread_yield [] booted = Some (tt, s') /\ wf s' /\
    yieldq booted p = N_queue t :: r /\ (forall q, p < q < NUM_PRIORITIES -> yieldq booted q = []) /\
    current_thread s' = t /\ runq s' p = r /\ (forall q, q <> p -> runq s' q = yieldq booted q) /\
    (forall u, u <> current_thread booted -> u <> t -> thr s' u = thr booted u).
Proof. apply thread_yield_round_robin, booted_wf. Defined.

(** A run of legal calls. *)
Definition ran (s0 : kstate) (cs : list kcall) : Prop :=
  run cs s0 = Some (tt, after s0 cs) /\ reachable no_callback s0 (after s0 cs).

Lemma ran_nil s0 : ran s0 [].
Proof. split; [done|apply reach_start]. Qed.

Lemma ran_wf s0 cs : wf s0 -> ran s0 cs -> wf (after s0 cs).
Proof. intros W [_ R]. eapply reachable_wf; [exact no_callback_ok|exact W|exact R]. Qed.

Lemma ran_cons s0 c cs : wf s0 -> ran s0 cs -> legal c (after s0 cs) -> ran s0 (c :: cs).
Proof.
  intros W0 H L. pose proof (ran_wf _ _ W0 H) as W. destruct H as [E R].
  destruct (wp_unit _ _ _ (exec_wf no_callback no_callback_ok c _ W L)) as (s' & E' & _).
  assert (Er : run (c :: cs) s0 = Some (tt, s')) by (simpl; unfold bind; by rewrite E).
  assert (Ea : after s0 (c :: cs) = s') by (unfold after; by rewrite Er).
  split; [by rewrite Ea|]. rewrite Ea. by eapply reach_step.
Qed.

Lemma nil_not_elem {A} (x : A) l : l = [] -> x ∉ l.
Proof. intros ->. apply not_elem_of_nil. Qed.

Ltac legal_call :=
  lazymatch goal with
  | |- can_block _ => exists 0; by vm_compute
  | |- _ /\ _ => split; legal_call
  | |- forall t, _ = Some t -> creatable _ _ => intros ? [= <-]; legal_call
  | |- creatable _ _ => split; legal_call
  | |- _ \/ _ => left; legal_call
  | |- _ ∉ _ => apply nil_not_elem; legal_call
  | |- legal _ _ => cbn [legal]; legal_call
  | |- _ => vm_compute; first [reflexivity | discriminate | by split]
  end.

Ltac ran_calls :=
  repeat lazymatch goal with
  | |- ran _ (_ :: _) => apply ran_cons; [exact (proj1 booted_wf)| |legal_call]
  end; apply ran_nil.

Lemma ran_waiting : ran booted waiting.
Proof. unfold waiting. ran_calls. Qed.

Lemma ran_contended : ran booted contended.
Proof.
  unfold contended. cbn [app].
  do 3 (apply ran_cons; [exact (proj1 booted_wf)| |legal_call]). apply ran_waiting.
Qed.


(** ** Witnesses *)

Lemma ran_mutex_init : ran booted [C_mutex_init 0].
Proof. ran_calls. Qed.

Lemma mutex_acquire_free_witness :
  let s := after booted [C_mutex_init 0] in
  exists s', mutex_acquire_timeout 0 0 [] s = Some (tt, s') /\ wf s' /\
    current_thread s' = current_thread s /\ retval (cur s') = NO_ERROR /\
    holder (mtx s' 0) = Some (current_thread s) /\ m_count (mtx s' 0) = 1 /\
    (forall w, waitq s' w = waitq s w) /\ (forall p, runq s' p = runq s p) /\
    critical_section_count s' = critical_section_count s.
Proof.
  intros s. apply mutex_acquire_free.
  - exact (ran_wf _ _ (proj1 booted_wf) ran_mutex_init).
  - vm_compute. reflexivity.
  - vm_compute. discriminate.
  - vm_compute. reflexivity.
Defined.

Lemma ran_before_wait : ran booted (tl waiting).
Proof. unfold waiting. cbn [tl]. ran_calls. Qed.

Lemma mutex_acquire_blocks_witness :
  let s := after booted (tl waiting) in
  exists s' p t r, mutex_acquire_timeout 0 10 [] s = Some (tt, s') /\ wf s' /\
    next_thread s p t r /\ current_thread s' = t /\ runq s' p = r /\
    waitq s' (WQ_mutex 0) = waitq s (WQ_mutex 0) ++ [N_queue (current_thread s)] /\
    (forall w, w <> WQ_mutex 0 -> waitq s' w = waitq s w) /\
    (forall q, q <> p -> runq s' q = runq s q).
Proof.
  intros s. apply mutex_acquire_blocks.
  - exact (ran_wf _ _ (proj1 booted_wf) ran_before_wait).
  - vm_compute. reflexivity.
  - vm_compute. discriminate.
  - vm_compute. discriminate.
  - discriminate.
  - exists 0. vm_compute. split; [reflexivity|discriminate].
Defined.

Lemma entered_wf s :
  wf s -> critical_section_count s = 0 -> wf (set_ints false (set_crit 1 s)).
Proof. intros W H. apply (wf_crit 1 s); [done|lia|]. constructor; try done. simpl. lia. Qed.

Lemma wait_queue_wake_all_order_witness :
  let s := set_ints false (set_crit 1 (after booted waiting)) in
  let w := WQ_mutex 0 in
  exists s', wait_queue_wake_all w false ERR_OBJECT_DESTROYED [] s = Some (tt, s') /\
    current_thread s' = current_thread s /\ retval (cur s') = Z.of_nat (length (waitq s w)) /\
    (forall v, waitq s' v = if decide (v = w) then [] else waitq s v) /\
    (forall p, runq s' p = rev (filter (fun n => node_priority s n = p) (waitq s w)) ++ runq s p) /\
    (forall t, N_queue t ∈ waitq s w -> state (thr s' t) = THREAD_READY /\
       wait_queue_block_ret (thr s' t) = ERR_OBJECT_DESTROYED /\ blocking_wait_queue (thr s' t) = None).
Proof.
  intros s w. apply wait_queue_wake_all_order.
  - apply entered_wf; [exact (ran_wf _ _ (proj1 booted_wf) ran_waiting)|vm_compute; reflexivity].
  - vm_compute. discriminate.
  - vm_compute. reflexivity.
Defined.

(** Two more threads of the default priority. *)
Definition three_threads : list kcall :=
  [C_resume 3; C_resume 2;
   C_create None None (Some 3) "c" 0 0 DEFAULT_PRIORITY (Some 300) 4096;
   C_create None None (Some 2) "b" 0 0 DEFAULT_PRIORITY (Some 200) 4096].

Lemma ran_three_threads : ran booted three_threads.
Proof. unfold three_threads. ran_calls. Qed.

Lemma thread_yield_no_starvation_witness :
  let s := after booted three_threads in
  current_thread s = 3 /\ exists s', yields 2 s = Some (tt, s') /\ wf s' /\ current_thread s' = 2.
Proof.
  intros s. split; [vm_compute; reflexivity|]. apply thread_yield_no_starvation.
  - exact (ran_wf _ _ (proj1 booted_wf) ran_three_threads).
  - vm_compute. reflexivity.
  - assert (E : priority (cur s) = 16) by (vm_compute; reflexivity). rewrite E. intros q Hq.
    assert (F : Forall (fun n => runq s (Z.of_nat n) = []) (seq 17 15)).
    { repeat (apply Forall_cons; split; [vm_compute; reflexivity|]). apply Forall_nil. exact I. }
    rewrite <- (Z2Nat.id q) by lia. apply (proj1 (Forall_forall _ _) F).
    apply elem_of_seq. unfold NUM_PRIORITIES in Hq. lia.
Defined.

Definition armed_once : list kcall := [C_timer_oneshot 0 50 0; C_timer_initialize 1; C_timer_initialize 0].

Lemma ran_armed_once : ran booted armed_once.
Proof. unfold armed_once. ran_calls. Qed.

Lemma timer_set_sorted_witness :
  let s := after booted armed_once in
  exists s', timer_set (TM 1) 20 20 (CB_user 0) s = Some (tt, s') /\
    timers_sorted s' (current_time s) /\ in_window s' (current_time s) /\
    exists l1 l2, timerq s = l1 ++ l2 /\ timerq s' = l1 ++ N_timer (TM 1) :: l2 /\
      (forall y, y ∈ l1 -> node_offset s (current_time s) y <= 20) /\
      (forall y, y ∈ l2 -> 20 < node_offset s (current_time s) y).
Proof.
  intros s. assert (E : contents (lnk s) H_timer = [N_timer (TM 0)]) by (vm_compute; reflexivity).
  apply timer_set_sorted.
  - exact (ran_wf _ _ (proj1 booted_wf) ran_armed_once).
  - vm_compute. reflexivity.
  - unfold timerq. rewrite E. by intros [=]%list_elem_of_singleton.
  - clear. lia.
  - clear. lia.
  - intros x. rewrite E. intros [= ->]%list_elem_of_singleton. vm_compute. split; [discriminate|reflexivity].
  - unfold timers_sorted. rewrite E. repeat constructor.
Defined.

End witnesses.
