(* ===== verification/Blocks.v ===== *)
(** * Blocks of memory

    Address ranges as the heap uses them: lists of pairwise disjoint blocks, and
    the sorted lists without adjacent blocks that are the free list's normal
    form.  [insert_block] is the reference definition of freeing a block. *)

From S2P Require Import Prelude.

(** A block is its address and its length. *)
Definition block : Type := (Z * Z)%type.

Definition blk_end (b : block) : Z := b.1 + b.2.
Definition inside (b : block) (a : Z) : Prop := b.1 <= a < blk_end b.
Definition apart (b1 b2 : block) : Prop := blk_end b1 <= b2.1 \/ blk_end b2 <= b1.1.

Fixpoint disj (bs : list block) : Prop :=
  match bs with
  | [] => True
  | b :: bs' => Forall (apart b) bs' /\ disj bs'
  end.

Definition covers (bs : list block) (a : Z) : Prop := exists b, b ∈ bs /\ inside b a.

Fixpoint total (bs : list block) : Z :=
  match bs with [] => 0 | b :: bs' => b.2 + total bs' end.

(** Sorted by address, no empty block, no two blocks that touch. *)
Fixpoint coalesced (bs : list block) : Prop :=
  match bs with
  | [] => True
  | b :: bs' => 0 < b.2 /\ (forall x, x ∈ bs' -> blk_end b < x.1) /\ coalesced bs'
  end.

Definition join_next (b : block) (bs : list block) : list block :=
  match bs with
  | x :: bs' => if blk_end b =? x.1 then (b.1, b.2 + x.2) :: bs' else b :: x :: bs'
  | [] => [b]
  end.

(** Adding a block to a sorted list, merged with the neighbours it touches. *)
Fixpoint insert_block (b : block) (bs : list block) : list block :=
  match bs with
  | [] => [b]
  | x :: bs' =>
    if b.1 <? x.1 then join_next b (x :: bs')
    else if blk_end x =? b.1 then join_next (x.1, x.2 + b.2) bs'
    else x :: insert_block b bs'
  end.

(** ** Disjointness *)

Lemma apart_sym b1 b2 : apart b1 b2 -> apart b2 b1.
Proof. unfold apart. tauto. Qed.

#[export] Instance disj_perm : Proper ((≡ₚ) ==> iff) disj.
Proof.
  intros l1 l2 H. induction H as [|x l1 l2 H IH|x y l|l1 l2 l3 _ IH1 _ IH2]; simpl.
  - done.
  - by rewrite IH, H.
  - rewrite !Forall_cons. split; intros ((Ha & ?) & ? & ?); apply apart_sym in Ha; tauto.
  - by rewrite IH1.
Qed.

Lemma disj_app bs1 bs2 :
  disj (bs1 ++ bs2) <-> disj bs1 /\ disj bs2 /\ forall b1 b2, b1 ∈ bs1 -> b2 ∈ bs2 -> apart b1 b2.
Proof.
  induction bs1 as [|b bs1 IH]; simpl.
  { split; [intros; split_and!; try done; set_solver|tauto]. }
  rewrite IH, Forall_app, !Forall_forall. set_solver.
Qed.

Lemma disj_in b1 b2 bs : disj (b1 :: bs) -> b2 ∈ bs -> apart b1 b2.
Proof. intros [H _] Hin. by apply (proj1 (Forall_forall _ _) H). Qed.

Lemma apart_inside b1 b2 a : apart b1 b2 -> inside b1 a -> ~ inside b2 a.
Proof. unfold apart, inside. lia. Qed.

(** A block cut in two. *)
Lemma disj_cut c l n bs : 0 <= n <= l -> disj ((c, l) :: bs) -> disj ((c, n) :: (c + n, l - n) :: bs).
Proof.
  intros Hn [H1 H2]. simpl. rewrite Forall_cons, !Forall_forall in *. split_and!; try done.
  - unfold apart, blk_end. simpl. lia.
  - intros x Hx. specialize (H1 x Hx). unfold apart, blk_end in *. simpl in *. lia.
  - intros x Hx. specialize (H1 x Hx). unfold apart, blk_end in *. simpl in *. lia.
Qed.

(** Two blocks that touch, made one. *)
Lemma disj_glue c l1 l2 bs :
  0 < l1 -> 0 < l2 -> Forall (fun x => 0 < x.2) bs ->
  disj ((c, l1) :: (c + l1, l2) :: bs) -> disj ((c, l1 + l2) :: bs).
Proof.
  intros H1 H2 Hp [Ha [Hb Hd]]. split; [|done]. rewrite Forall_cons in Ha. rewrite !Forall_forall in *.
  destruct Ha as [_ Ha]. intros x Hx. specialize (Ha x Hx). specialize (Hb x Hx). specialize (Hp x Hx).
  unfold apart, blk_end in *. simpl in *. lia.
Qed.

(** ** Normal forms *)

Lemma covers_cons b bs a : covers (b :: bs) a <-> inside b a \/ covers bs a.
Proof. unfold covers. set_solver. Qed.

Lemma covers_app bs1 bs2 a : covers (bs1 ++ bs2) a <-> covers bs1 a \/ covers bs2 a.
Proof. unfold covers. set_solver. Qed.

#[export] Instance covers_perm : Proper ((≡ₚ) ==> (=) ==> iff) covers.
Proof. intros l1 l2 H a _ <-. unfold covers. by setoid_rewrite H. Qed.

Lemma coalesced_above b bs a : coalesced (b :: bs) -> covers bs a -> blk_end b < a.
Proof.
  intros (_ & H & _) (x & Hx & Ha). specialize (H x Hx). unfold inside in Ha. lia.
Qed.

Lemma coalesced_disj bs : coalesced bs -> disj bs.
Proof.
  induction bs as [|b bs IH]; simpl; [done|]. intros (H1 & H2 & H3). split; [|auto].
  apply Forall_forall. intros x Hx. specialize (H2 x Hx). unfold apart. lia.
Qed.

(** A normal form is determined by the bytes it covers. *)
Lemma coalesced_canonical bs1 bs2 :
  coalesced bs1 -> coalesced bs2 -> (forall a, covers bs1 a <-> covers bs2 a) -> bs1 = bs2.
Proof.
  revert bs2. induction bs1 as [|[c1 l1] bs1 IH]; intros [|[c2 l2] bs2] C1 C2 E; [done|..].
  - destruct (proj2 (E c2)) as (x & ? & _); [|set_solver].
    apply covers_cons. left. destruct C2 as [? _]. unfold inside, blk_end. simpl in *. lia.
  - destruct (proj1 (E c1)) as (x & ? & _); [|set_solver].
    apply covers_cons. left. destruct C1 as [? _]. unfold inside, blk_end. simpl in *. lia.
  - pose proof (fun a => coalesced_above _ _ a C1) as A1. pose proof (fun a => coalesced_above _ _ a C2) as A2.
    destruct C1 as (P1 & _ & C1), C2 as (P2 & _ & C2).
    assert (E' : forall a, (c1 <= a < c1 + l1 \/ covers bs1 a) <-> (c2 <= a < c2 + l2 \/ covers bs2 a)).
    { intros a. specialize (E a). by rewrite !covers_cons in E. }
    unfold blk_end in *. simpl in *.
    assert (c1 = c2) as <-.
    { destruct (proj1 (E' c1)) as [|H%A2]; [lia|..]; destruct (proj2 (E' c2)) as [|H'%A1]; lia. }
    assert (l1 = l2) as <-.
    { destruct (Z.lt_trichotomy l1 l2) as [Hl|[|Hl]]; [|done|].
      - destruct (proj2 (E' (c1 + l1))) as [|H%A1]; lia.
      - destruct (proj1 (E' (c1 + l2))) as [|H%A2]; lia. }
    f_equal. apply IH; [done..|]. intros a. specialize (E' a). specialize (A1 a). specialize (A2 a).
    split; intros Hc; [apply A1 in Hc as ?|apply A2 in Hc as ?]; naive_solver lia.
Qed.

(** ** insert_block *)

Lemma insert_skip b x bs : x.1 <= b.1 -> blk_end x <> b.1 -> insert_block b (x :: bs) = x :: insert_block b bs.
Proof. intros H1 H2. simpl. zcases; try lia; done. Qed.

Lemma insert_skip_app b bs1 bs2 :
  (forall x, x ∈ bs1 -> x.1 <= b.1 /\ blk_end x <> b.1) ->
  insert_block b (bs1 ++ bs2) = bs1 ++ insert_block b bs2.
Proof.
  induction bs1 as [|x bs1 IH]; intros H; [done|]. cbn [app].
  destruct (H x); [set_solver|]. rewrite insert_skip by done. f_equal. apply IH. set_solver.
Qed.

Lemma insert_here b bs :
  (forall x, head bs = Some x -> b.1 < x.1) -> insert_block b bs = join_next b bs.
Proof. destruct bs as [|x bs]; [done|]. intros H. specialize (H x eq_refl). simpl. zcases; lia || done. Qed.

Lemma insert_block_Forall (P : block -> Prop) b bs :
  (forall c l1 l2, P (c, l1) -> P (c + l1, l2) -> P (c, l1 + l2)) ->
  P b -> Forall P bs -> Forall P (insert_block b bs).
Proof.
  intros Hg Hb Hbs.
  assert (J : forall b' bs', P b' -> Forall P bs' -> Forall P (join_next b' bs')).
  { intros [c l] [|[cx lx] bs'] Hb' Hbs'; [by constructor|]. apply Forall_cons in Hbs' as [Hx Hbs'].
    simpl. unfold blk_end. simpl. zcases; subst; repeat constructor; auto. }
  induction Hbs as [|[cx lx] bs Hx Hbs IH]; [by constructor|]. cbn [insert_block]. unfold blk_end.
  destruct b as [c l]. simpl fst. simpl snd. zcases; subst; auto using Forall_cons.
Qed.

Lemma join_next_covers b bs a :
  0 < b.2 -> Forall (fun x => 0 < x.2) bs -> covers (join_next b bs) a <-> inside b a \/ covers bs a.
Proof.
  intros Hb Hbs. destruct bs as [|x bs]; simpl; [by rewrite covers_cons|].
  apply Forall_cons in Hbs as [Hx _].
  zcases; rewrite !covers_cons; unfold inside, blk_end in *; simpl; [|done].
  rewrite <- Logic.or_assoc. f_equiv. lia.
Qed.

Lemma join_next_coalesced b bs :
  0 < b.2 -> coalesced bs -> (forall x, x ∈ bs -> blk_end b <= x.1) -> coalesced (join_next b bs).
Proof.
  intros Hb Hc Hx. destruct bs as [|x bs]; simpl; [split_and!; [done|set_solver|done]|].
  pose proof Hc as (P & N & C). pose proof (Hx x (list_elem_of_here _ _)).
  destruct (Z.eqb_spec (blk_end b) x.1).
  - simpl. split_and!; [lia| |done]. intros y Hy. specialize (N y Hy). unfold blk_end in *. simpl. lia.
  - split; [done|]. split; [|done]. intros y [->|Hy]%elem_of_cons; [lia|]. specialize (N y Hy).
    unfold blk_end in *. lia.
Qed.

Lemma coalesced_pos bs : coalesced bs -> Forall (fun x => 0 < x.2) bs.
Proof. induction bs as [|x bs IH]; simpl; [constructor|]. intros (? & _ & ?). constructor; auto. Qed.

Section insert.
Context (b : block) (Hb : 0 < b.2).

Lemma insert_block_covers bs a :
  Forall (fun x => 0 < x.2) bs -> covers (insert_block b bs) a <-> inside b a \/ covers bs a.
Proof.
  induction 1 as [|x bs Hx Hbs IH]; [cbn [insert_block]; by rewrite covers_cons|]. cbn [insert_block].
  destruct (Z.ltb_spec b.1 x.1); [apply join_next_covers; [done|by constructor]|].
  destruct (Z.eqb_spec (blk_end x) b.1) as [E|].
  - rewrite join_next_covers, covers_cons by (try done; simpl; lia).
    rewrite <- Logic.or_assoc. f_equiv. unfold inside, blk_end in *. simpl. lia.
  - rewrite !covers_cons, IH. tauto.
Qed.

Lemma insert_block_coalesced bs :
  coalesced bs -> Forall (apart b) bs -> coalesced (insert_block b bs).
Proof.
  induction bs as [|x bs IH]; intros Hc Ha; [split_and!; [done|set_solver|done]|].
  pose proof Hc as (P & N & C). apply Forall_cons in Ha as [Hax Ha]. rewrite Forall_forall in Ha.
  cbn [insert_block]. destruct (Z.ltb_spec b.1 x.1).
  { apply join_next_coalesced; [done|done|]. intros y [->|Hy]%elem_of_cons.
    - unfold apart, blk_end in *. lia.
    - specialize (N y Hy). unfold apart, blk_end in *. lia. }
  assert (Hy : forall y, y ∈ bs -> blk_end x <= b.1 -> b.1 < y.1 -> blk_end b <= y.1).
  { intros y Hy _ ?. specialize (Ha y Hy). pose proof (proj1 (Forall_forall _ _) (coalesced_pos _ C) y Hy).
    unfold apart, blk_end in *. simpl in *. lia. }
  assert (Hxb : blk_end x <= b.1) by (unfold apart, blk_end in *; lia).
  destruct (Z.eqb_spec (blk_end x) b.1) as [E|].
  - apply join_next_coalesced; [simpl; lia|done|]. intros y Hin. specialize (Hy y Hin Hxb).
    specialize (N y Hin). unfold blk_end in *. simpl. lia.
  - split; [done|]. split; [|apply IH; [done|by apply Forall_forall]].
    intros y Hin. pose proof (insert_block_covers bs y.1 (coalesced_pos _ C)) as Hcov.
    assert (0 < y.2).
    { apply (proj1 (Forall_forall (fun x => 0 < x.2) (insert_block b bs))); [|done].
      apply insert_block_Forall; [simpl; lia|done|by apply coalesced_pos]. }
    destruct (proj1 Hcov) as [Hi|Hi].
    + exists y. split; [done|]. unfold inside, blk_end. lia.
    + unfold inside in Hi. lia.
    + eapply coalesced_above; [exact Hc|done].
Qed.

Lemma insert_block_total bs : total (insert_block b bs) = b.2 + total bs.
Proof.
  assert (J : forall b' bs', total (join_next b' bs') = b'.2 + total bs').
  { intros b' [|x bs']; simpl; [lia|]. zcases; simpl; lia. }
  induction bs as [|x bs IH]; cbn [insert_block]; [done|].
  zcases; rewrite ?J; simpl; lia.
Qed.

Lemma apart_spec b1 b2 :
  0 < b1.2 -> 0 < b2.2 -> apart b1 b2 <-> forall a, inside b1 a -> ~ inside b2 a.
Proof.
  intros H1 H2. split; [intros; by eapply apart_inside|]. intros H.
  pose proof (H b1.1). pose proof (H b2.1). unfold inside, apart, blk_end in *. lia.
Qed.

Lemma insert_block_disj bs O :
  coalesced bs -> Forall (fun x => 0 < x.2) O -> disj (b :: bs ++ O) -> disj (insert_block b bs ++ O).
Proof.
  intros Hc HO [Ha Hd]. apply Forall_app in Ha as [Ha HaO].
  apply disj_app in Hd as (_ & HdO & Hx). apply disj_app. split; [|split; [done|]].
  - by apply coalesced_disj, insert_block_coalesced.
  - intros x o Hin Ho. rewrite Forall_forall in *.
    assert (Hpos : 0 < x.2).
    { apply (proj1 (Forall_forall (fun x => 0 < x.2) (insert_block b bs))); [|done].
      apply insert_block_Forall; [simpl; lia|done|by apply coalesced_pos]. }
    apply apart_spec; [done|by apply HO|]. intros a Hxa Hoa.
    destruct (proj1 (insert_block_covers bs a (coalesced_pos _ Hc))) as [Hi|(y & Hy & Hi)].
    + by exists x.
    + by apply (apart_inside _ _ a (HaO o Ho)).
    + by apply (apart_inside _ _ a (Hx y o Hy Ho)).
Qed.
End insert.

Lemma total_bound lo hi bs :
  coalesced bs -> Forall (fun b => lo <= b.1 /\ blk_end b <= hi) bs -> lo <= hi -> total bs <= hi - lo.
Proof.
  revert lo. induction bs as [|b bs IH]; simpl; intros lo Hc Hf Hle; [lia|].
  destruct Hc as (P & N & C). apply Forall_cons in Hf as [[? ?] Hf].
  enough (total bs <= hi - blk_end b) by (unfold blk_end in *; lia).
  apply IH; [done| |done]. rewrite Forall_forall in *. intros x Hx. specialize (N x Hx).
  specialize (Hf x Hx). lia.
Qed.

Lemma total_nonneg bs : coalesced bs -> 0 <= total bs.
Proof. induction bs as [|b bs IH]; simpl; [lia|]. intros (? & _ & ?%IH). lia. Qed.

Lemma coalesced_app bs1 bs2 :
  coalesced (bs1 ++ bs2) <->
  coalesced bs1 /\ coalesced bs2 /\ (forall x y, x ∈ bs1 -> y ∈ bs2 -> blk_end x < y.1).
Proof.
  induction bs1 as [|b bs1 IH]; simpl; [set_solver|]. rewrite IH. split.
  - intros (P & N & C1 & C2 & X). split_and!; try done; [set_solver|].
    intros x y [->|Hx]%elem_of_cons Hy; [apply N; set_solver|auto].
  - intros ((P & N & C1) & C2 & X). split_and!; try done; [|set_solver].
    intros y [Hy|Hy]%elem_of_app; [auto|]. apply X; set_solver.
Qed.

(** Removing a block, or its front, from a normal form. *)
Lemma coalesced_remove bs1 b bs2 : coalesced (bs1 ++ b :: bs2) -> coalesced (bs1 ++ bs2).
Proof.
  rewrite !coalesced_app. intros (C1 & (_ & _ & C2) & X). split_and!; try done.
  intros x y Hx Hy. apply X; set_solver.
Qed.

Lemma coalesced_trim bs1 c l n bs2 :
  0 <= n < l -> coalesced (bs1 ++ (c, l) :: bs2) -> coalesced (bs1 ++ (c + n, l - n) :: bs2).
Proof.
  intros Hn. rewrite !coalesced_app. intros (C1 & (P & N & C2) & X). split; [done|]. split.
  - split; [simpl; lia|]. split; [|done]. intros x Hx. specialize (N x Hx). unfold blk_end in *. simpl in *. lia.
  - intros x y Hx [->|Hy]%elem_of_cons; [|apply X; set_solver].
    specialize (X x (c, l) Hx (list_elem_of_here _ _)). simpl in *. lia.
Qed.

Lemma total_app bs1 bs2 : total (bs1 ++ bs2) = total bs1 + total bs2.
Proof. induction bs1; simpl; lia. Qed.
