(* ===== verification/Heap.v ===== *)
(** * lib/heap/heap.c: the first-fit heap

    The heap keeps its free chunks on a list sorted by address and merges
    neighbours when a chunk is freed.  A chunk is the address of its
    [struct free_heap_chunk]; the fields that live inside the heap's memory
    ([chunk->len], and [magic], [ptr] and [size] of the [alloc_struct_begin] in
    front of an allocation) are words of [mem] at the offsets the compiler gives
    them, so a header overwritten by a neighbour would show.  The list nodes are
    the interface of [<list.h>].  The configuration is that of the other
    components: assertions on ([LK_DEBUGLEVEL] is 2), [DEBUG_HEAP] off. *)

From S2P Require Import Prelude ListH.

Open Scope lk_scope.

(** [free_list] and [delayed_free_list] of [theheap], and the local list of
    [heap_free_delayed_list]. *)
Inductive heap_head : Type := H_free | H_delayed | H_list.

#[export] Instance heap_head_eq_dec : EqDecision heap_head.
Proof. solve_decision. Defined.

(** ** Data *)

Definition HEAP_MAGIC : Z := 1212498256. (* 'HEAP' *)
Definition sizeof_free_heap_chunk : Z := 24.
Definition sizeof_alloc_struct_begin : Z := 24.
Definition sizeof_ptr : Z := 8.

(** [ROUNDUP(a, b)] with [a] and [b] of type [size_t] ... *)
Definition ROUNDUP (a b : Z) : Z := Z.land (u64 (a + (b - 1))) (u64 (Z.lnot (b - 1))).

(** ... and with [b] an [unsigned int]: the mask is computed in 32 bits and
    zero-extended. *)
Definition ROUNDUP_uint (a b : Z) : Z := Z.land (u64 (a + u32 (b - 1))) (u32 (Z.lnot (u32 (b - 1)))).

Section heap.
Context {LO : ListOps Z heap_head}.

Record heap : Type := Heap {
  base : Z;
  len : Z;
  remaining : Z;
  low_watermark : Z;
  lock : bool;
  lnk : links;
  mem : Z -> Z;
}.
Implicit Types (s : heap).

Definition set_remaining v s := Heap (base s) (len s) v (low_watermark s) (lock s) (lnk s) (mem s).
Definition set_low v s := Heap (base s) (len s) (remaining s) v (lock s) (lnk s) (mem s).
Definition set_lock v s := Heap (base s) (len s) (remaining s) (low_watermark s) v (lnk s) (mem s).
Definition set_lnk v s := Heap (base s) (len s) (remaining s) (low_watermark s) (lock s) v (mem s).
Definition store (a v : Z) s :=
  Heap (base s) (len s) (remaining s) (low_watermark s) (lock s) (lnk s) (upd (mem s) a v).

(** [chunk->len], behind the two pointers of the list node. *)
Definition len_at (chunk : Z) : Z := chunk + 16.
Definition chunk_len s (chunk : Z) : Z := mem s (len_at chunk).

(** The fields of the [alloc_struct_begin] in front of [ptr]. *)
Definition as_magic (ptr : Z) : Z := ptr - 24.
Definition as_ptr (ptr : Z) : Z := ptr - 16.
Definition as_size (ptr : Z) : Z := ptr - 8.

(** The lock as the calling thread sees it: taking it twice is the panic of
    [mutex_acquire]. *)
Definition lock_heap : M heap unit :=
  let* held := gets lock in
  assert_ (negb held) ;;; modify (set_lock true).
Definition unlock_heap : M heap unit :=
  let* held := gets lock in
  assert_ held ;;; modify (set_lock false).

(** The address of [theheap.free_list]: what [next_chunk] points to when
    [list_for_every_entry] runs off the end of the list. *)
Context (free_list : Z).

(** ** heap_insert_free_chunk *)

(** The loop: the first chunk of the list above [chunk]. *)
Fixpoint find_next (chunk : Z) (es : list Z) : option Z :=
  match es with
  | [] => None
  | next :: es' => if chunk <? next then Some next else find_next chunk es'
  end.

(** The insertion in front of it, or at the tail; the result is [next_chunk]. *)
Definition link_chunk (chunk chunk_end : Z) : M heap (option Z) :=
  let* next := gets (fun s => find_next chunk (contents (lnk s) H_free)) in
  match next with
  | Some n =>
    assert_ (chunk_end <=? n) ;;;
    modify (fun s => set_lnk (list_add_before n chunk (lnk s)) s) ;;;
    ret (Some n)
  | None =>
    modify (fun s => set_lnk (list_add_tail H_free chunk (lnk s)) s) ;;;
    ret None
  end.

(** Extend the previous chunk; the result is the new [chunk]. *)
Definition merge_last (chunk : Z) : M heap Z :=
  let* last := gets (fun s => list_prev (lnk s) H_free chunk) in
  match last with
  | None => ret chunk
  | Some p =>
    let* merge := gets (fun s => u64 (p + chunk_len s p) =? chunk) in
    if (merge : bool) then
      modify (fun s => store (len_at p) (u64 (chunk_len s p + chunk_len s chunk)) s) ;;;
      modify (fun s => set_lnk (list_delete chunk (lnk s)) s) ;;;
      ret p
    else ret chunk
  end.

(** Take over the next chunk.  Without one, [next_chunk] is the list head. *)
Definition merge_next (chunk : Z) (next : option Z) : M heap unit :=
  let next_chunk := match next with Some n => n | None => free_list end in
  let* merge := gets (fun s => u64 (chunk + chunk_len s chunk) =? next_chunk) in
  when merge do
    match next with
    | None => panic
    | Some n =>
      modify (fun s => store (len_at chunk) (u64 (chunk_len s chunk + chunk_len s n)) s) ;;;
      modify (fun s => set_lnk (list_delete n (lnk s)) s)
    end.

Definition heap_insert_free_chunk (chunk : Z) : M heap Z :=
  let* l := gets (fun s => chunk_len s chunk) in
  let chunk_end := u64 (chunk + l) in
  lock_heap ;;;
  modify (fun s => set_remaining (u64 (remaining s + l)) s) ;;;
  let* next := link_chunk chunk chunk_end in
  let* chunk := merge_last chunk in
  merge_next chunk next ;;;
  unlock_heap ;;;
  ret chunk.

Definition heap_create_free_chunk (ptr l : Z) : M heap Z :=
  assert_ (l mod sizeof_ptr =? 0) ;;;
  modify (store (len_at ptr) l) ;;;
  ret ptr.

(** ** The delayed free list *)

(** Both loops of [heap_free_delayed_list]; [fuel] bounds the number of turns. *)
Fixpoint drain (fuel : nat) : M heap unit :=
  match fuel with
  | O => panic
  | S f =>
    let* c := gets (fun s => list_peek_head (lnk s) H_delayed) in
    match c with
    | None => ret tt
    | Some c =>
      modify (fun s => set_lnk (list_delete c (lnk s)) s) ;;;
      modify (fun s => set_lnk (list_add_head H_list c (lnk s)) s) ;;;
      drain f
    end
  end.

Fixpoint insert_all (fuel : nat) : M heap unit :=
  match fuel with
  | O => panic
  | S f =>
    let* c := gets (fun s => list_peek_head (lnk s) H_list) in
    match c with
    | None => ret tt
    | Some c =>
      modify (fun s => set_lnk (list_delete c (lnk s)) s) ;;;
      heap_insert_free_chunk c ;;;
      insert_all f
    end
  end.

Definition heap_free_delayed_list : M heap unit :=
  let* n := gets (fun s => length (contents (lnk s) H_delayed)) in
  drain (S n) ;;;
  insert_all (S n).

Definition flush_delayed : M heap unit :=
  let* empty := gets (fun s => list_is_empty (lnk s) H_delayed) in
  when negb empty do heap_free_delayed_list.

(** ** heap_alloc *)

(** Taking [chunk] off the list and cutting it down to [size] bytes. *)
Definition split_chunk (chunk size : Z) : M heap unit :=
  let* next_node := gets (fun s => list_next (lnk s) H_free chunk) in
  modify (fun s => set_lnk (list_delete chunk (lnk s)) s) ;;;
  let* l := gets (fun s => chunk_len s chunk) in
  when u64 (size + sizeof_free_heap_chunk) <? l do
    (let* newchunk := heap_create_free_chunk (u64 (chunk + size)) (u64 (l - size)) in
     modify (store (len_at chunk) (u64 (l - u64 (l - size)))) ;;;
     match next_node with
     | Some n => modify (fun s => set_lnk (list_add_before n newchunk (lnk s)) s)
     | None => modify (fun s => set_lnk (list_add_tail H_free newchunk (lnk s)) s)
     end).

(** The body of the walk for the chunk that is big enough. *)
Definition take_chunk (chunk size alignment : Z) : M heap Z :=
  split_chunk chunk size ;;;
  let* l := gets (fun s => chunk_len s chunk) in
  assert_ (size <=? l) ;;;
  let ptr := u64 (chunk + sizeof_alloc_struct_begin) in
  let ptr := if 0 <? alignment then ROUNDUP_uint ptr alignment else ptr in
  modify (store (as_magic ptr) HEAP_MAGIC) ;;;
  modify (store (as_ptr ptr) chunk) ;;;
  modify (store (as_size ptr) l) ;;;
  modify (fun s => set_remaining (u64 (remaining s - l)) s) ;;;
  modify (fun s => if remaining s <? low_watermark s then set_low (remaining s) s else s) ;;;
  ret ptr.

(** The walk through the list; [0] is [NULL]. *)
Fixpoint alloc_walk (es : list Z) (size alignment : Z) : M heap Z :=
  match es with
  | [] => ret 0
  | chunk :: es' =>
    let* l := gets (fun s => chunk_len s chunk) in
    assert_ (l mod sizeof_ptr =? 0) ;;;
    if size <=? l then take_chunk chunk size alignment
    else alloc_walk es' size alignment
  end.

(** The size and the alignment the walk looks for. *)
Definition alloc_size (size : Z) : Z :=
  let size := u64 (size + sizeof_alloc_struct_begin) in
  let size := if size <? sizeof_free_heap_chunk then sizeof_free_heap_chunk else size in
  ROUNDUP size sizeof_ptr.

Definition heap_alloc (size alignment : Z) : M heap Z :=
  flush_delayed ;;;
  if negb (Z.land alignment (u32 (alignment - 1)) =? 0) then ret 0
  else
    let size := alloc_size size in
    let '(alignment, size) :=
      if 0 <? alignment then
        let alignment := if alignment <? 16 then 16 else alignment in
        (alignment, u64 (size + alignment))
      else (alignment, size) in
    lock_heap ;;;
    let* es := gets (fun s => contents (lnk s) H_free) in
    let* ptr := alloc_walk es size alignment in
    unlock_heap ;;;
    ret ptr.

(** ** heap_free *)

Definition heap_free (ptr : Z) : M heap unit :=
  if ptr =? 0 then ret tt
  else
    let* m := gets (fun s => mem s (as_magic ptr)) in
    assert_ (m =? HEAP_MAGIC) ;;;
    let* p := gets (fun s => mem s (as_ptr ptr)) in
    let* l := gets (fun s => mem s (as_size ptr)) in
    let* chunk := heap_create_free_chunk p l in
    heap_insert_free_chunk chunk ;;;
    ret tt.

Definition heap_delayed_free (ptr : Z) : M heap unit :=
  let* m := gets (fun s => mem s (as_magic ptr)) in
  assert_ (m =? HEAP_MAGIC) ;;;
  let* p := gets (fun s => mem s (as_ptr ptr)) in
  let* l := gets (fun s => mem s (as_size ptr)) in
  let* chunk := heap_create_free_chunk p l in
  modify (fun s => set_lnk (list_add_head H_delayed chunk (lnk s)) s).

(** ** Statistics and set-up *)

Record heap_stats : Type := Heap_stats {
  heap_start : Z;
  heap_len : Z;
  heap_free_bytes : Z;
  heap_max_chunk : Z;
  heap_low_watermark : Z;
}.

Fixpoint stats_walk (s : heap) (es : list Z) (free max : Z) : Z * Z :=
  match es with
  | [] => (free, max)
  | c :: es' =>
    stats_walk s es' (u64 (free + chunk_len s c))
               (if max <? chunk_len s c then chunk_len s c else max)
  end.

Definition heap_get_stats : M heap heap_stats :=
  flush_delayed ;;;
  lock_heap ;;;
  let* st := gets (fun s =>
    let '(free, max) := stats_walk s (contents (lnk s) H_free) 0 0 in
    Heap_stats (base s) (len s) free max (low_watermark s)) in
  unlock_heap ;;;
  ret st.

Definition heap_add_block (ptr l : Z) : M heap unit :=
  let* chunk := heap_create_free_chunk ptr l in
  heap_insert_free_chunk chunk ;;;
  ret tt.

(** [heap_init] from storage whose list heads are initialised and empty. *)
Definition heap_init (HEAP_START HEAP_LEN : Z) : M heap unit :=
  modify (fun s => Heap HEAP_START HEAP_LEN 0 HEAP_LEN false (lnk s) (mem s)) ;;;
  let* b := gets base in
  let* l := gets len in
  let* chunk := heap_create_free_chunk b l in
  heap_insert_free_chunk chunk ;;;
  ret tt.

End heap.
