(* ===== verification/HeapInv.v ===== *)
(** * The heap invariant

    The free chunks, the chunks waiting on the delayed list and the live
    allocations are pairwise disjoint blocks of the arena; the free list is in
    normal form; the header of every live allocation is intact; the counters
    agree with the free list.  [wp_insert] says that [heap_insert_free_chunk] is
    [insert_block] on the free list. *)

From S2P Require Import Prelude ListH Blocks Heap.

Open Scope lk_scope.

(** A live allocation: the pointer the caller got, and the chunk behind it. *)
Record alloc : Type := Alloc { a_ptr : Z; a_chunk : Z; a_size : Z }.
Definition a_block (a : alloc) : block := (a_chunk a, a_size a).

(** The arena [lo, hi) and the address of [theheap.free_list], which lies in
    the program's data below it. *)
Class Arena : Type := {
  lo : Z;
  hi : Z;
  free_list : Z;
  arena_lo : 0 < lo;
  arena_hi : lo <= hi < 2 ^ 64 - 4096;
  arena_head : 0 <= free_list < lo;
}.

Section inv.
Context {LO : ListOps Z heap_head} {LL : ListLaws Z heap_head} {AR : Arena}.
Let Hlo : 0 < lo := arena_lo.
Let Hhi : lo <= hi < 2 ^ 64 - 4096 := arena_hi.
Let Hfl : 0 <= free_list < lo := arena_head.
Implicit Types (s : heap) (A : list alloc) (O : list block).

Definition blocks_of s (h : heap_head) : list block :=
  map (fun c => (c, chunk_len s c)) (contents (lnk s) h).
Definition free_blocks s : list block := blocks_of s H_free.
Definition pending s : list block := blocks_of s H_delayed ++ blocks_of s H_list.

Definition block_ok (b : block) : Prop :=
  lo <= b.1 /\ 24 <= b.2 /\ blk_end b <= hi /\ b.1 mod 8 = 0 /\ b.2 mod 8 = 0.

Record header_ok s (a : alloc) : Prop := {
  ho_magic : mem s (as_magic (a_ptr a)) = HEAP_MAGIC;
  ho_ptr : mem s (as_ptr (a_ptr a)) = a_chunk a;
  ho_size : mem s (as_size (a_ptr a)) = a_size a;
  ho_in : a_chunk a + 24 <= a_ptr a <= a_chunk a + a_size a;
}.

(** Everything that is not on the free list: the pending chunks, the live
    allocations and the blocks [O] an operation has in hand. *)
Definition others O A s : list block := pending s ++ map a_block A ++ O.

Record hcore O A s : Prop := {
  hc_links : links_ok (lnk s);
  hc_free : coalesced (free_blocks s);
  hc_ok : Forall block_ok (free_blocks s ++ others O A s);
  hc_disj : disj (free_blocks s ++ others O A s);
  hc_hdr : Forall (header_ok s) A;
  hc_rem : remaining s = total (free_blocks s);
  hc_low : 0 <= low_watermark s;
}.

Record hinv A s : Prop := {
  hv_core : hcore [] A s;
  hv_list : contents (lnk s) H_list = [];
  hv_lock : lock s = false;
}.

Lemma block_ok_pos b : block_ok b -> 0 < b.2.
Proof. intros (_ & ? & _). lia. Qed.

Lemma block_ok_glue c l1 l2 : block_ok (c, l1) -> block_ok (c + l1, l2) -> block_ok (c, l1 + l2).
Proof.
  unfold block_ok, blk_end. simpl. intros (? & ? & ? & ? & ?) (? & ? & ? & ? & ?).
  split_and!; try lia; try done. rewrite Zplus_mod, H3, H8. done.
Qed.

Lemma in_blocks s h b : b ∈ blocks_of s h <-> b.1 ∈ contents (lnk s) h /\ b.2 = chunk_len s b.1.
Proof.
  unfold blocks_of. rewrite list_elem_of_fmap. split.
  - intros (c & -> & ?). done.
  - intros [? E]. exists b.1. destruct b; simpl in *. by subst.
Qed.

(** A chunk on one of the three lists is one of the blocks. *)
Lemma listed_block O A s h c :
  c ∈ contents (lnk s) h -> (c, chunk_len s c) ∈ free_blocks s ++ others O A s.
Proof.
  intros Hc. assert (Hb : (c, chunk_len s c) ∈ blocks_of s h) by by apply in_blocks.
  unfold others, pending. rewrite !elem_of_app. destruct h; tauto.
Qed.

(** A block in hand is on no list. *)
Lemma hand_not_listed O A s b : hcore (b :: O) A s -> list_in_list (lnk s) b.1 = false.
Proof.
  intros C. apply not_in_list; [apply C|]. intros h Hin.
  pose proof (listed_block (b :: O) A s h b.1 Hin) as Hb.
  pose proof (hc_disj _ _ _ C) as D. pose proof (hc_ok _ _ _ C) as K.
  assert (P : free_blocks s ++ others (b :: O) A s ≡ₚ b :: free_blocks s ++ others O A s).
  { unfold others. solve_Permutation. }
  assert (Hb' : (b.1, chunk_len s b.1) ∈ free_blocks s ++ others O A s) by by apply listed_block with h.
  rewrite P in D, K. pose proof (disj_in _ _ _ D Hb') as Ha.
  apply Forall_cons in K as [Kb K]. rewrite Forall_forall in K. specialize (K _ Hb').
  apply block_ok_pos in Kb, K. unfold apart, blk_end in Ha. simpl in *. lia.
Qed.

(** ** The free list as blocks *)

(** [s'] differs from [s] in the free list and in the bytes of [T]. *)
Record only_free (T : list block) s s' : Prop := {
  of_links : links_ok (lnk s');
  of_other : forall h, h <> H_free -> contents (lnk s') h = contents (lnk s) h;
  of_mem : forall a, mem s' a <> mem s a -> covers T a;
  of_low : low_watermark s' = low_watermark s;
  of_base : base s' = base s;
  of_len : len s' = len s;
  of_lock : lock s' = lock s;
  of_rem : remaining s' = remaining s;
}.

Lemma only_free_refl T s : links_ok (lnk s) -> only_free T s s.
Proof. by constructor. Qed.

Lemma only_free_trans T s1 s2 s3 : only_free T s1 s2 -> only_free T s2 s3 -> only_free T s1 s3.
Proof.
  intros [] []. constructor; try congruence.
  - intros h Hh. rewrite of_other1, of_other0; done.
  - intros a Ha. destruct (decide (mem s2 a = mem s1 a)) as [E|]; [|auto].
    apply of_mem1. congruence.
Qed.

Lemma only_free_mono T T' s s' : (forall a, covers T a -> covers T' a) -> only_free T s s' -> only_free T' s s'.
Proof. intros H []. constructor; auto. Qed.

(** What [blocks_of] sees of a store. *)
Lemma blocks_store s h a v :
  (forall c, c ∈ contents (lnk s) h -> len_at c <> a) ->
  blocks_of (store a v s) h = blocks_of s h.
Proof.
  intros H. unfold blocks_of. apply map_ext_in. intros c Hc%list_elem_of_In. f_equal.
  unfold chunk_len. simpl. unfold upd. by rewrite decide_False by auto.
Qed.

Lemma map_store s L a v :
  (forall c, c ∈ L -> len_at c <> a) ->
  map (fun c => (c, chunk_len (store a v s) c)) L = map (fun c => (c, chunk_len s c)) L.
Proof.
  intros H. apply map_ext_in. intros c Hc%list_elem_of_In. f_equal.
  unfold chunk_len. simpl. unfold upd. by rewrite decide_False by auto.
Qed.

Lemma len_at_inj c c' : len_at c = len_at c' -> c = c'.
Proof. unfold len_at. lia. Qed.

Lemma chunk_len_store c v s : chunk_len (store (len_at c) v s) c = v.
Proof. unfold chunk_len. simpl. unfold upd. by rewrite decide_True. Qed.

(** A free list split around [c]. *)
Definition split_at s L c R : Prop :=
  links_ok (lnk s) /\ contents (lnk s) H_free = L ++ c :: R.

Lemma split_nodup s L c R : split_at s L c R -> (c ∉ L) /\ (c ∉ R) /\ NoDup L /\ NoDup R.
Proof.
  intros [Hl E]. pose proof (ok_nodup _ H_free Hl) as N. rewrite E in N.
  apply NoDup_app in N as (? & Hx & [? ?]%NoDup_cons). split_and!; try done.
  intros Hc. by apply (Hx c Hc), list_elem_of_here.
Qed.

(** Extending [p] by the following chunk [c] and taking [c] off the list. *)
Definition absorbed (p c : Z) s : heap :=
  set_lnk (list_delete c (lnk s)) (store (len_at p) (chunk_len s p + chunk_len s c) s).

Lemma absorbed_split s L p c R :
  links_ok (lnk s) -> contents (lnk s) H_free = L ++ p :: c :: R ->
  split_at (absorbed p c s) L p R /\
  free_blocks (absorbed p c s) =
    map (fun x => (x, chunk_len s x)) L ++ (p, chunk_len s p + chunk_len s c) ::
    map (fun x => (x, chunk_len s x)) R /\
  (24 <= chunk_len s p -> only_free [(p, chunk_len s p)] s (absorbed p c s)).
Proof.
  intros Hl E. assert (Hin : c ∈ contents (lnk s) H_free) by (rewrite E; set_solver).
  assert (Hc : list_in_list (lnk s) c = true) by by apply (in_contents _ H_free).
  destruct (split_nodup s (L ++ [p]) c R) as (N1 & N2 & _); [split; [done|]; by rewrite <- app_assoc|].
  destruct (split_nodup s L p (c :: R)) as (N3 & N4 & _); [by split|].
  assert (E' : contents (lnk (absorbed p c s)) H_free = L ++ p :: R).
  { simpl. rewrite delete_contents, E by done.
    replace (L ++ p :: c :: R) with ((L ++ [p]) ++ c :: R) by by rewrite <- app_assoc.
    rewrite remove_all_app, remove_all_not_in by done. simpl.
    rewrite decide_True, remove_all_not_in by done. by rewrite <- app_assoc. }
  split; [|split].
  - split; [by apply delete_ok|done].
  - unfold free_blocks, blocks_of. rewrite E', map_app, map_cons. f_equal; [|f_equal].
    + apply map_store. intros x Hx ->%len_at_inj. done.
    + f_equal. apply chunk_len_store.
    + apply map_store. intros x Hx ->%len_at_inj. set_solver.
  - intros Hp. constructor; try done; [by apply delete_ok|..].
    + intros h Hh. by apply (delete_other_contents _ H_free).
    + intros a Ha. simpl in Ha. unfold upd in Ha. case_decide; [subst|done]. exists (p, chunk_len s p).
      split; [set_solver|]. unfold inside, blk_end, len_at. simpl. lia.
Qed.

(** ** heap_insert_free_chunk *)

Lemma find_next_spec c es :
  exists L R, es = L ++ R /\ find_next c es = head R /\ (forall x, x ∈ L -> x <= c) /\
    (forall n, head R = Some n -> c < n).
Proof.
  induction es as [|x es IH]; [exists [], []; set_solver|]. simpl.
  destruct (Z.ltb_spec c x).
  - exists [], (x :: es). split_and!; try done; [set_solver|]. by intros n [= <-].
  - destruct IH as (L & R & -> & -> & H1 & H2). exists (x :: L), R. split_and!; try done. set_solver.
Qed.

Definition lens s (L : list Z) : list block := map (fun c => (c, chunk_len s c)) L.

Lemma lens_app s L R : lens s (L ++ R) = lens s L ++ lens s R.
Proof. apply map_app. Qed.

Lemma wp_link_chunk c chunk_end s (Q : option Z -> heap -> Prop) :
  links_ok (lnk s) -> list_in_list (lnk s) c = false ->
  (forall n, n ∈ contents (lnk s) H_free -> c < n -> chunk_end <= n) ->
  (forall L R s', contents (lnk s) H_free = L ++ R -> split_at s' L c R -> mem s' = mem s ->
     (forall T, only_free T s s') -> (forall x, x ∈ L -> x <= c) -> (forall n, head R = Some n -> c < n) ->
     Q (head R) s') ->
  wp (link_chunk c chunk_end) Q s.
Proof.
  intros Hl Hc Hend HQ. unfold link_chunk. apply wp_bind, wp_gets.
  destruct (find_next_spec c (contents (lnk s) H_free)) as (L & R & E & -> & H1 & H2).
  pose proof (ok_nodup _ H_free Hl) as N. rewrite E in N. apply NoDup_app in N as (_ & N & _).
  destruct R as [|n R]; cbn [head].
  - apply wp_bind, wp_modify, wp_ret. apply (HQ L []); try done.
    + split; [by apply add_tail_ok|]. simpl. rewrite add_tail_contents, decide_True, E by done.
      by rewrite app_nil_r.
    + intros T. constructor; try done; [by apply add_tail_ok|].
      intros h Hh. simpl. by rewrite add_tail_contents, decide_False.
  - assert (Hn : n ∈ contents (lnk s) H_free) by (rewrite E; set_solver).
    assert (Hin : list_in_list (lnk s) n = true) by by apply (in_contents _ H_free).
    apply wp_bind, wp_assert; [by apply Z.leb_le, Hend, H2|]. apply wp_bind, wp_modify, wp_ret.
    apply (HQ L (n :: R)); try done.
    + split; [by apply add_before_ok|]. simpl. rewrite add_before_contents, E by done.
      apply insert_before_app. intros HL. by apply (N n HL), list_elem_of_here.
    + intros T. constructor; try done; [by apply add_before_ok|].
      intros h Hh. simpl. rewrite add_before_contents by done. apply insert_before_not_in.
      intros Hn'. apply Hh. by apply (ok_disjoint (lnk s) _ _ n).
Qed.

Lemma wp_merge_last L c R s (Q : Z -> heap -> Prop) :
  split_at s L c R -> Forall block_ok (free_blocks s) ->
  (forall L0 p, L = L0 ++ [p] -> p + chunk_len s p <> c -> Q c s) ->
  (L = [] -> Q c s) ->
  (forall L0 p s', L = L0 ++ [p] -> p + chunk_len s p = c -> split_at s' L0 p R ->
     free_blocks s' = lens s L0 ++ (p, chunk_len s p + chunk_len s c) :: lens s R ->
     only_free [(p, chunk_len s p)] s s' -> Q p s') ->
  wp (merge_last c) Q s.
Proof.
  intros Sp K Q1 Q2 Q3. destruct (split_nodup _ _ _ _ Sp) as (N1 & N2 & _). pose proof Sp as [Hl E].
  unfold merge_last, list_prev. apply wp_bind, wp_gets. rewrite E, prev_in_app by done.
  destruct L as [|p L0 _] using rev_ind; [by apply wp_ret, Q2|].
  rewrite last_snoc. unfold free_blocks, blocks_of in K. rewrite E, <- app_assoc, map_app in K.
  apply Forall_app in K as [_ [Kp [Kc _]%Forall_cons]%Forall_cons].
  destruct Kp as (? & ? & Hp & _), Kc as (? & ? & Hc & _). unfold blk_end in *. cbn [fst snd] in *.
  apply wp_bind, wp_gets. rewrite u64_small by lia. destruct (Z.eqb_spec (p + chunk_len s p) c) as [Em|].
  - apply wp_bind, wp_modify, wp_bind, wp_modify, wp_ret. rewrite u64_small by lia.
    destruct (absorbed_split s L0 p c R Hl) as (S' & F' & O'); [by rewrite E, <- app_assoc|].
    eapply (Q3 L0 p (absorbed p c s)); auto.
  - by apply wp_ret, (Q1 L0 p).
Qed.

Lemma wp_merge_next L c R s (Q : unit -> heap -> Prop) :
  split_at s L c R -> Forall block_ok (free_blocks s) ->
  (forall s', free_blocks s' = lens s L ++ join_next (c, chunk_len s c) (lens s R) ->
     only_free [(c, chunk_len s c)] s s' -> Q tt s') ->
  wp (merge_next free_list c (head R)) Q s.
Proof.
  intros [Hl E] K HQ. unfold merge_next. apply wp_bind, wp_gets.
  assert (F : free_blocks s = lens s L ++ (c, chunk_len s c) :: lens s R).
  { unfold free_blocks, blocks_of. by rewrite E, map_app. }
  rewrite F in K. apply Forall_app in K as [_ [Kc KR]%Forall_cons].
  destruct Kc as (? & ? & Hc & _). unfold blk_end in *. cbn [fst snd] in *. rewrite u64_small by lia.
  destruct R as [|n R]; cbn [head].
  - rewrite (proj2 (Z.eqb_neq _ _)) by lia. apply wp_ret, HQ; [by rewrite F|by apply only_free_refl].
  - cbn [lens map join_next] in HQ. unfold blk_end in HQ. cbn [fst snd] in HQ.
    destruct (Z.eqb_spec (c + chunk_len s c) n) as [Em|].
    + apply Forall_cons in KR as [(? & ? & Hn & _) _]. unfold blk_end in *. cbn [fst snd] in *.
      apply wp_bind, wp_modify, wp_modify. rewrite u64_small by lia.
      destruct (absorbed_split s L c n R Hl E) as (S' & F' & O'). apply HQ; [exact F'|auto].
    + apply wp_ret, HQ; [by rewrite F|by apply only_free_refl].
Qed.

Lemma free_split s L c R :
  split_at s L c R -> free_blocks s = lens s L ++ (c, chunk_len s c) :: lens s R.
Proof. intros [_ E]. unfold free_blocks, blocks_of. by rewrite E, map_app. Qed.

(** [insert_block] at the place the loop finds. *)
Lemma insert_at s L c l R :
  coalesced (lens s L ++ lens s R) -> (forall x, x ∈ L -> x <= c) ->
  (forall n, head R = Some n -> c < n) ->
  insert_block (c, l) (lens s L ++ lens s R) =
    match last L with
    | Some p => if decide (p + chunk_len s p = c)
                then lens s (removelast L) ++ join_next (p, chunk_len s p + l) (lens s R)
                else lens s L ++ join_next (c, l) (lens s R)
    | None => join_next (c, l) (lens s R)
    end.
Proof.
  intros Hc HL HR.
  assert (Hh : forall x, head (lens s R) = Some x -> (c, l).1 < x.1).
  { destruct R as [|n R]; [done|]. intros x [= <-]. by apply HR. }
  destruct L as [|p L0 _] using rev_ind; [by apply insert_here|].
  rewrite last_snoc, removelast_last.
  assert (H0 : forall x, x ∈ lens s L0 -> x.1 <= (c, l).1 /\ blk_end x <> (c, l).1).
  { unfold lens in Hc. rewrite map_app, <- app_assoc in Hc. simpl in Hc.
    assert (p <= c) by (apply HL; set_solver).
    intros x Hx. enough (blk_end x < p).
    { apply list_elem_of_fmap in Hx as (y & -> & Hy). split; simpl in *; [|lia]. apply HL. set_solver. }
    clear -Hc Hx. fold (lens s L0) in Hc. induction (lens s L0) as [|y L IH]; [set_solver|].
    destruct Hc as (_ & Hn & Hc). apply elem_of_cons in Hx as [->|Hx]; [|auto].
    apply (Hn (p, chunk_len s p)). set_solver. }
  replace (lens s (L0 ++ [p])) with (lens s L0 ++ [(p, chunk_len s p)]) by by rewrite lens_app.
  rewrite <- app_assoc, insert_skip_app by done. cbn [app]. case_decide as Hd.
  - f_equal. cbn [insert_block]. unfold blk_end. cbn [fst snd]. rewrite Hd, Z.eqb_refl.
    rewrite (proj2 (Z.ltb_ge _ _)); [done|]. apply HL. set_solver.
  - rewrite insert_skip by (try (simpl; apply HL; set_solver); done).
    rewrite insert_here by done. by rewrite <- app_assoc.
Qed.

Record inserted (c l : Z) s s' : Prop := {
  is_free : free_blocks s' = insert_block (c, l) (free_blocks s);
  is_links : links_ok (lnk s');
  is_other : forall h, h <> H_free -> contents (lnk s') h = contents (lnk s) h;
  is_mem : forall a, mem s' a <> mem s a -> covers ((c, l) :: free_blocks s) a;
  is_low : low_watermark s' = low_watermark s;
  is_base : base s' = base s /\ len s' = len s;
  is_lock : lock s' = false;
  is_rem : remaining s' = remaining s + l;
}.

(** The two merges, from the list with [c] linked in. *)
Lemma wp_merge L c l R s0 s (Q : heap -> Prop) :
  split_at s L c R -> mem s = mem s0 -> chunk_len s c = l -> free_blocks s0 = lens s0 (L ++ R) ->
  coalesced (free_blocks s0) -> Forall block_ok ((c, l) :: free_blocks s0) ->
  (forall x, x ∈ L -> x <= c) -> (forall n, head R = Some n -> c < n) ->
  (forall s', free_blocks s' = insert_block (c, l) (free_blocks s0) ->
     only_free ((c, l) :: free_blocks s0) s s' -> Q s') ->
  wp (merge_last c) (fun chunk => wp (merge_next free_list chunk (head R)) (fun _ => Q)) s.
Proof.
  intros Sp Em El F0 Hc K HL HR HQ.
  assert (EL : forall X, lens s0 X = lens s X) by (intros; unfold lens, chunk_len; by rewrite Em).
  rewrite EL, lens_app in F0.
  assert (Ks : Forall block_ok (free_blocks s)).
  { rewrite (free_split _ _ _ _ Sp), El, F0, Forall_cons, !Forall_app in *. rewrite Forall_cons. tauto. }
  rewrite F0 in Hc. pose proof (insert_at s L c l R Hc HL HR) as I. rewrite <- F0 in I.
  assert (Sub : forall x, x ∈ lens s L ++ lens s R -> forall a, covers [x] a -> covers ((c, l) :: free_blocks s0) a).
  { intros x Hx a (y & ->%list_elem_of_singleton & Hi). apply covers_cons. right. exists x. by rewrite F0. }
  assert (Sc : forall a, covers [(c, l)] a -> covers ((c, l) :: free_blocks s0) a).
  { intros a (y & ->%list_elem_of_singleton & Hi). apply covers_cons. by left. }
  assert (None_ : (last L = None -> L = []) /\ (forall p, last L = Some p -> p + chunk_len s p <> c) ->
    wp (merge_next free_list c (head R)) (fun _ => Q) s).
  { intros [H1 H2]. apply (wp_merge_next L c R); [done|done|]. intros s' F' O'. apply HQ.
    - rewrite F', El, I. destruct (last L) as [p|]; [by rewrite decide_False by auto|].
      by rewrite H1.
    - rewrite El in O'. by apply (only_free_mono [(c, l)]). }
  apply (wp_merge_last L c R); [done|done|..].
  - intros L0 p -> Hp. apply None_. rewrite last_snoc. split; [done|]. by intros ? [= <-].
  - intros ->. apply None_. by split.
  - intros L0 p s1 -> Hp S1 F1 O1. pose proof (free_split _ _ _ _ S1) as F1'. rewrite F1 in F1'.
    apply app_inj_1 in F1' as [E1 [= E2 E3]]; [|unfold lens; by rewrite !length_map].
    rewrite last_snoc, removelast_last, decide_True in I by done. apply (wp_merge_next L0 p R); [done|..].
    + rewrite F1. rewrite (free_split _ _ _ _ Sp), lens_app, <- app_assoc in Ks.
      apply Forall_app in Ks as [K1 [K2 [K3 K4]%Forall_cons]%Forall_cons].
      apply Forall_app. split; [done|]. constructor; [|done]. apply block_ok_glue; [done|by rewrite Hp].
    + intros s' F' O'. apply HQ.
      * rewrite F', I, <- E1, <- E3, <- E2, El. done.
      * eapply only_free_trans.
        -- eapply only_free_mono; [|exact O1]. apply Sub. rewrite lens_app. set_solver.
        -- eapply only_free_mono; [|exact O'].
           intros a (y & ->%list_elem_of_singleton & Hi). rewrite <- E2 in Hi. apply covers_cons. rewrite F0.
           assert (Hp' : (p, chunk_len s p) ∈ lens s (L0 ++ [p]) ++ lens s R) by (rewrite lens_app; set_solver).
           destruct (decide (a < c)); [right; exists (p, chunk_len s p)|left]; [split; [done|]|];
             unfold inside, blk_end in *; simpl in *; lia.
Qed.

Lemma others_perm b O A s : free_blocks s ++ others (b :: O) A s ≡ₚ b :: free_blocks s ++ others O A s.
Proof. unfold others. solve_Permutation. Qed.

Lemma arena_bound bs : coalesced bs -> Forall block_ok bs -> 0 <= total bs <= hi - lo.
Proof.
  intros C K. split; [by apply total_nonneg|]. apply total_bound; [done| |lia].
  eapply Forall_impl; [exact K|]. intros b (? & _ & ? & _). done.
Qed.

Lemma wp_insert_raw O A s c l (Q : Z -> heap -> Prop) :
  hcore ((c, l) :: O) A s -> lock s = false -> chunk_len s c = l ->
  (forall r s', inserted c l s s' -> Q r s') ->
  wp (heap_insert_free_chunk free_list c) Q s.
Proof.
  intros C Hlk El HQ. pose proof (hand_not_listed _ _ _ _ C) as Hc. cbn [fst] in Hc.
  pose proof (hc_links _ _ _ C) as Hl. pose proof (hc_ok _ _ _ C) as K. pose proof (hc_disj _ _ _ C) as D.
  rewrite others_perm in K, D. apply Forall_cons in K as [Kc [Kf _]%Forall_app]. pose proof Kc as (? & ? & Hend & _).
  unfold blk_end in Hend. cbn [fst snd] in *.
  unfold heap_insert_free_chunk, lock_heap, unlock_heap.
  apply wp_bind, wp_gets, wp_bind, wp_bind, wp_gets, wp_bind, wp_assert; [by rewrite Hlk|].
  apply wp_modify, wp_bind, wp_modify. set (s1 := set_remaining _ _). rewrite El, u64_small by lia.
  apply wp_bind, wp_link_chunk; [done|done|..].
  { intros n Hn Hlt. pose proof (disj_in _ (n, chunk_len s n) _ D) as Ha.
    assert (Hn' : (n, chunk_len s n) ∈ free_blocks s) by by apply in_blocks.
    rewrite Forall_forall in Kf. specialize (Kf _ Hn').
    destruct Ha as [Ha|Ha]; [set_solver|..]; unfold block_ok, blk_end in *; cbn [fst snd] in *; lia. }
  intros L R s2 E S2 M2 O2 HL HR. apply wp_bind.
  eapply wp_mono; [apply (wp_merge L c l R s s2 (fun s3 =>
    free_blocks s3 = insert_block (c, l) (free_blocks s) /\ only_free ((c, l) :: free_blocks s) s2 s3))|]; auto.
  - unfold chunk_len. by rewrite M2.
  - unfold free_blocks, blocks_of. change (lnk s) with (lnk s1). by rewrite E.
  - apply C.
  - intros chunk s3 H3. apply wp_bind. eapply wp_mono; [exact H3|]. intros _ s4 [F4 O4].
    apply wp_bind, wp_bind, wp_gets, wp_bind. specialize (O2 []).
    assert (lock s4 = true) as -> by (rewrite (of_lock _ _ _ O4), (of_lock _ _ _ O2); done).
    apply wp_assert, wp_modify, wp_ret, HQ; [done|]. destruct O4.
    constructor; try done; simpl.
    + intros h Hh. by rewrite of_other0, (of_other _ _ _ O2).
    + intros a Ha. apply of_mem0. rewrite M2. exact Ha.
    + by rewrite of_low0, (of_low _ _ _ O2).
    + rewrite of_base0, of_len0, (of_base _ _ _ O2), (of_len _ _ _ O2). done.
    + rewrite of_rem0, (of_rem _ _ _ O2). simpl. rewrite El. apply u64_small.
      rewrite (hc_rem _ _ _ C). pose proof (total_nonneg _ (hc_free _ _ _ C)).
      assert (Ha : Forall (apart (c, l)) (free_blocks s)) by (destruct D as [D _]; by apply Forall_app in D as [? _]).
      assert (Hb : 0 <= total (insert_block (c, l) (free_blocks s)) <= hi - lo).
      { apply arena_bound; [apply insert_block_coalesced; [simpl; lia|apply C|done]|].
        apply insert_block_Forall; [exact block_ok_glue|done|done]. }
      rewrite insert_block_total in Hb. simpl in Hb. lia.
Qed.

(** ** Framing: blocks apart from what changed *)

(** Every block of [T] is apart from every block of [F]. *)
Definition away (T F : list block) : Prop := forall t f, t ∈ T -> f ∈ F -> apart t f.

Lemma away_covers T F f a : away T F -> f ∈ F -> inside f a -> ~ covers T a.
Proof. intros H Hf Hi (t & Ht & Hti). by apply (apart_inside t f a (H t f Ht Hf)). Qed.

Lemma frame_lens T s s' L :
  (forall a, mem s' a <> mem s a -> covers T a) -> away T (lens s L) ->
  (forall c, c ∈ L -> 24 <= chunk_len s c) -> lens s' L = lens s L.
Proof.
  intros Hm Ha Hk. apply map_ext_in. intros c Hc%list_elem_of_In. f_equal.
  destruct (decide (chunk_len s' c = chunk_len s c)) as [|Hne]; [done|]. specialize (Hk c Hc).
  destruct (away_covers T (lens s L) (c, chunk_len s c) (len_at c) Ha).
  - apply list_elem_of_fmap. eauto.
  - unfold inside, blk_end, len_at. simpl. lia.
  - by apply Hm.
Qed.

Lemma frame_headers T s s' A :
  (forall a, mem s' a <> mem s a -> covers T a) -> away T (map a_block A) ->
  Forall (header_ok s) A -> Forall (header_ok s') A.
Proof.
  intros Hm Ha HA. rewrite Forall_forall in *. intros a Hin. destruct (HA a Hin) as [H1 H2 H3 H4].
  assert (E : forall x, a_chunk a <= x < a_chunk a + a_size a -> mem s' x = mem s x).
  { intros x Hx. destruct (decide (mem s' x = mem s x)) as [|Hne]; [done|].
    destruct (away_covers T (map a_block A) (a_block a) x Ha); [|done|by apply Hm].
    apply list_elem_of_fmap. eauto. }
  constructor; try done; rewrite E; try done; unfold as_magic, as_ptr, as_size; lia.
Qed.

Lemma pending_lens s : pending s = lens s (contents (lnk s) H_delayed ++ contents (lnk s) H_list).
Proof. unfold pending, blocks_of. by rewrite lens_app. Qed.

(** The part of the state that is not the free list, after a change to [T]. *)
Lemma frame_others T O A s s' :
  (forall a, mem s' a <> mem s a -> covers T a) ->
  (forall h, h <> H_free -> contents (lnk s') h = contents (lnk s) h) ->
  away T (others O A s) -> Forall block_ok (others O A s) -> Forall (header_ok s) A ->
  pending s' = pending s /\ Forall (header_ok s') A.
Proof.
  intros Hm Hh Ha Hk HA.
  assert (Ep : pending s' = pending s).
  { rewrite !pending_lens, !Hh by done. apply (frame_lens T); [done|..].
    - intros t f Ht Hf. apply Ha; [done|]. unfold others. rewrite pending_lens. set_solver.
    - intros c Hc. rewrite Forall_forall in Hk. apply (Hk (c, chunk_len s c)).
      unfold others. rewrite pending_lens, elem_of_app. left. apply list_elem_of_fmap. eauto. }
  split; [done|]. apply (frame_headers T s); [done| |done].
  intros t f Ht Hf. apply Ha; [done|]. unfold others. set_solver.
Qed.

Lemma disj_away b bs1 bs2 : disj (b :: bs1 ++ bs2) -> away (b :: bs1) bs2.
Proof.
  intros [Hb (_ & _ & Hx)%disj_app] t f [->|Ht]%elem_of_cons Hf; [|by apply Hx].
  rewrite Forall_forall in Hb. apply Hb. set_solver.
Qed.

Lemma inserted_core O A c l s s' :
  hcore ((c, l) :: O) A s -> inserted c l s s' -> hcore O A s' /\ pending s' = pending s.
Proof.
  intros C I. pose proof (hc_ok _ _ _ C) as K. pose proof (hc_disj _ _ _ C) as D.
  rewrite others_perm in K, D. apply Forall_cons in K as [Kc [Kf Ko]%Forall_app].
  assert (Hl : 0 < (c, l).2) by by apply block_ok_pos in Kc.
  destruct (frame_others ((c, l) :: free_blocks s) O A s s') as [Ep Eh];
    [apply I|apply I|by apply disj_away|done|apply C|]. split; [|done].
  assert (Eo : others O A s' = others O A s) by (unfold others; by rewrite Ep).
  assert (Ha : Forall (apart (c, l)) (free_blocks s)) by (destruct D as [D _]; by apply Forall_app in D as [? _]).
  destruct I. constructor; rewrite ?is_free0, ?Eo; try done.
  - by apply insert_block_coalesced; [|apply C|].
  - apply Forall_app. split; [|done]. apply insert_block_Forall; [exact block_ok_glue|done|done].
  - apply insert_block_disj; [done|apply C| |done]. eapply Forall_impl; [exact Ko|]. exact block_ok_pos.
  - rewrite insert_block_total, is_rem0, (hc_rem _ _ _ C). simpl. lia.
  - rewrite is_low0. apply C.
Qed.

Lemma wp_insert O A s c l (Q : Z -> heap -> Prop) :
  hcore ((c, l) :: O) A s -> lock s = false -> chunk_len s c = l ->
  (forall r s', hcore O A s' -> inserted c l s s' -> pending s' = pending s -> Q r s') ->
  wp (heap_insert_free_chunk free_list c) Q s.
Proof.
  intros C Hlk El HQ. eapply wp_insert_raw; [done..|]. intros r s' I.
  destruct (inserted_core _ _ _ _ _ _ C I). by apply HQ.
Qed.

End inv.
