(* ===== verification/HeapSafe.v ===== *)
(** * The heap operations preserve the invariant

    One lemma per operation of lib/heap/heap.c, in total-correctness form. *)

From S2P Require Import Prelude ListH Blocks Heap HeapInv.

Open Scope lk_scope.

Section safe.
Context {LO : ListOps Z heap_head} {LL : ListLaws Z heap_head} {AR : Arena}.
Let Hlo : 0 < lo := arena_lo.
Let Hhi : lo <= hi < 2 ^ 64 - 4096 := arena_hi.
Let Hfl : 0 <= free_list < lo := arena_head.
Implicit Types (s : heap) (A : list alloc) (O : list block).

(** ** Moving blocks between the lists, the callers and the hand *)

(** A rearrangement of the blocks outside the free list. *)
Lemma hcore_perm O A s O' A' s' :
  hcore O A s -> links_ok (lnk s') -> contents (lnk s') H_free = contents (lnk s) H_free ->
  mem s' = mem s -> remaining s' = remaining s -> low_watermark s' = low_watermark s ->
  others O' A' s' ≡ₚ others O A s -> Forall (header_ok s) A' -> hcore O' A' s'.
Proof.
  intros [] Hl Ef Em Er Elo P HA.
  assert (F : free_blocks s' = free_blocks s) by (unfold free_blocks, blocks_of, chunk_len; by rewrite Ef, Em).
  constructor; rewrite ?F, ?P, ?Er, ?Elo; try done.
  eapply Forall_impl; [exact HA|]. intros a []. by constructor; rewrite ?Em.
Qed.

(** The caller gives [a] back. *)
Lemma hcore_release O a A s : hcore O (a :: A) s -> hcore (a_block a :: O) A s.
Proof.
  intros C. eapply hcore_perm; try exact C; try done; [apply C| |].
  - unfold others. simpl. solve_Permutation.
  - pose proof (hc_hdr _ _ _ C) as H. by apply Forall_cons in H as [_ H].
Qed.

Lemma pending_perm s h :
  h <> H_free -> pending s ≡ₚ lens s (contents (lnk s) h) ++ lens s (contents (lnk s) (match h with H_delayed => H_list | _ => H_delayed end)).
Proof. intros Hh. unfold pending, blocks_of. fold (lens s). by destruct h; [done| |rewrite (comm (++))]. Qed.

Lemma hcore_pop h c r O A s :
  h <> H_free -> hcore O A s -> contents (lnk s) h = c :: r ->
  hcore ((c, chunk_len s c) :: O) A (set_lnk (list_delete c (lnk s)) s).
Proof.
  intros Hh C E. pose proof (hc_links _ _ _ C) as Hl.
  assert (Hin : list_in_list (lnk s) c = true) by (apply (in_contents _ h); [done|]; rewrite E; set_solver).
  pose proof (fun h' => delete_head_contents _ h c r h' Hl E) as D.
  eapply hcore_perm; try exact C; try done; [by apply delete_ok|..|apply C].
  - simpl. by rewrite D, decide_False.
  - unfold others. rewrite !(pending_perm _ h) by done. cbn [lnk set_lnk].
    rewrite !D, decide_True, decide_False, E by (by destruct h).
    change (lens (set_lnk (list_delete c (lnk s)) s)) with (lens s). cbn [lens map]. solve_Permutation.
Qed.

Lemma hcore_push h c l O A s :
  h <> H_free -> hcore ((c, l) :: O) A s -> chunk_len s c = l ->
  hcore O A (set_lnk (list_add_head h c (lnk s)) s).
Proof.
  intros Hh C El. pose proof (hc_links _ _ _ C) as Hl.
  assert (Hc : list_in_list (lnk s) (c, l).1 = false) by by eapply hand_not_listed. cbn [fst] in Hc.
  pose proof (fun h' => add_head_contents _ h c h' Hl Hc) as D.
  eapply hcore_perm; try exact C; try done; [by apply add_head_ok|..|apply C].
  - simpl. by rewrite D, decide_False.
  - unfold others. rewrite !(pending_perm _ h) by done. cbn [lnk set_lnk].
    rewrite !D, decide_True, decide_False by (by destruct h).
    change (lens (set_lnk (list_add_head h c (lnk s)) s)) with (lens s). cbn [lens map]. rewrite El.
    solve_Permutation.
Qed.

(** A write inside a block in hand. *)
Lemma hcore_store b O A s a v :
  hcore (b :: O) A s -> inside b a ->
  hcore (b :: O) A (store a v s) /\ free_blocks (store a v s) = free_blocks s /\
  pending (store a v s) = pending s.
Proof.
  intros C Ha. pose proof (hc_ok _ _ _ C) as K. pose proof (hc_disj _ _ _ C) as D.
  rewrite others_perm in K, D. pose proof (fun x => disj_in _ x _ D) as Hb. apply Forall_cons in K as [_ K].
  assert (Hm : forall x, mem (store a v s) x <> mem s x -> covers [b] x).
  { intros x. simpl. unfold upd. case_decide; [subst|done]. intros _. exists b. set_solver. }
  assert (F : free_blocks (store a v s) = free_blocks s).
  { apply (frame_lens [b]); [done|..].
    - intros t f ->%list_elem_of_singleton Hf. apply Hb. rewrite elem_of_app. by left.
    - intros c Hc. apply Forall_app in K as [K _]. rewrite Forall_forall in K.
      apply (K (c, chunk_len s c)). by apply in_blocks. }
  destruct (frame_others [b] O A s (store a v s)) as [Ep Eh]; try done.
  { intros t f ->%list_elem_of_singleton Hf. apply Hb. rewrite elem_of_app. by right. }
  { by apply Forall_app in K as [_ ?]. }
  { apply C. }
  split_and!; [|done|done].
  assert (P : others (b :: O) A (store a v s) = others (b :: O) A s) by (unfold others; by rewrite Ep).
  destruct C. constructor; rewrite ?F, ?P; done.
Qed.

Lemma hcore_hand b O A s : hcore (b :: O) A s -> block_ok b.
Proof.
  intros C. pose proof (hc_ok _ _ _ C) as K. rewrite others_perm in K. by apply Forall_cons in K as [? _].
Qed.

Lemma wp_create p l O A s (Q : Z -> heap -> Prop) :
  hcore ((p, l) :: O) A s ->
  (forall s', s' = store (len_at p) l s -> hcore ((p, l) :: O) A s' -> chunk_len s' p = l ->
     free_blocks s' = free_blocks s -> pending s' = pending s -> Q p s') ->
  wp (heap_create_free_chunk p l) Q s.
Proof.
  intros C HQ. destruct (hcore_hand _ _ _ _ C) as (_ & ? & _ & _ & Hm). simpl in *.
  unfold heap_create_free_chunk. apply wp_bind, wp_assert; [by apply Z.eqb_eq|].
  apply wp_bind, wp_modify, wp_ret. destruct (hcore_store (p, l) O A s (len_at p) l) as (C' & F' & P').
  - done.
  - unfold inside, blk_end, len_at. simpl. lia.
  - apply HQ; try done. apply chunk_len_store.
Qed.

(** ** Giving memory back *)

(** The common part of [heap_free] and [heap_delayed_free]. *)
Lemma wp_take_back {B} a A s (k : Z -> M heap B) (Q : B -> heap -> Prop) :
  hinv (a :: A) s ->
  (forall s', hcore [a_block a] A s' -> chunk_len s' (a_chunk a) = a_size a -> lock s' = false ->
     free_blocks s' = free_blocks s -> pending s' = pending s -> lnk s' = lnk s ->
     remaining s' = remaining s ->
     base s' = base s -> len s' = len s -> wp (k (a_chunk a)) Q s') ->
  wp (let* m := gets (fun s => mem s (as_magic (a_ptr a))) in
      assert_ (m =? HEAP_MAGIC) ;;;
      let* p := gets (fun s => mem s (as_ptr (a_ptr a))) in
      let* l := gets (fun s => mem s (as_size (a_ptr a))) in
      let* chunk := heap_create_free_chunk p l in
      k chunk) Q s.
Proof.
  intros [C Hl Hk] HQ. pose proof (hc_hdr _ _ _ C) as H. apply Forall_cons in H as [[H1 H2 H3 H4] _].
  apply wp_bind, wp_gets, wp_bind, wp_assert; [by rewrite H1|]. apply wp_bind, wp_gets, wp_bind, wp_gets.
  rewrite H2, H3. apply wp_bind. apply hcore_release in C.
  eapply wp_create; [exact C|]. intros s' E C' El F' P'. subst s'. by apply HQ.
Qed.

Lemma live_not_null a A s : hinv (a :: A) s -> a_ptr a <> 0.
Proof.
  intros [C _ _]. pose proof (hc_hdr _ _ _ C) as H. apply Forall_cons in H as [[_ _ _ H] _].
  apply hcore_release, hcore_hand in C as (? & _). simpl in *. lia.
Qed.

Lemma wp_heap_free a A s :
  hinv (a :: A) s ->
  wp (heap_free free_list (a_ptr a)) (fun _ s' => hinv A s' /\
    free_blocks s' = insert_block (a_block a) (free_blocks s) /\
    remaining s' = remaining s + a_size a /\
    contents (lnk s') H_delayed = contents (lnk s) H_delayed) s.
Proof.
  intros V. unfold heap_free. rewrite (proj2 (Z.eqb_neq _ _)) by by eapply live_not_null.
  apply (wp_take_back a A s); [done|]. intros s' C' El Hk F' P' Lk Er _ _. apply wp_bind.
  eapply (wp_insert [] A); [exact C'|done|done|]. intros r s2 C2 [I1 I2 I3 I4 _ _ I7 I8] P2. apply wp_ret.
  split; [constructor; [done| |done]|].
  - rewrite I3, Lk by done. apply V.
  - rewrite I1, I8, F', Er, I3, Lk by done. done.
Qed.

Lemma wp_heap_delayed_free a A s :
  hinv (a :: A) s ->
  wp (heap_delayed_free (a_ptr a)) (fun _ s' => hinv A s' /\
    free_blocks s' = free_blocks s /\ remaining s' = remaining s /\
    pending s' = a_block a :: pending s) s.
Proof.
  intros V. unfold heap_delayed_free. apply (wp_take_back a A s); [done|].
  intros s' C' El Hk F' P' Lk Er _ _. apply wp_modify.
  assert (Hc : list_in_list (lnk s') (a_block a).1 = false) by by eapply hand_not_listed.
  pose proof (fun h => add_head_contents _ H_delayed _ h (hc_links _ _ _ C') Hc) as D. simpl in D.
  split; [constructor; [by eapply hcore_push| |done]|split; [|split]].
  - simpl. rewrite D, decide_False, Lk by done. apply V.
  - rewrite <- F'. unfold free_blocks, blocks_of. simpl. by rewrite D, decide_False.
  - done.
  - rewrite <- P', !pending_lens. simpl. rewrite !D, decide_True, decide_False by done.
    unfold lens. simpl. f_equal. unfold a_block. by rewrite <- El.
Qed.

(** ** The delayed list *)

Lemma wp_drain fuel A s :
  hcore [] A s -> lock s = false -> (length (contents (lnk s) H_delayed) < fuel)%nat ->
  wp (drain fuel) (fun _ s' => hcore [] A s' /\ lock s' = false /\ contents (lnk s') H_delayed = [] /\
    free_blocks s' = free_blocks s /\ pending s' ≡ₚ pending s /\
    length (contents (lnk s') H_list) =
      (length (contents (lnk s) H_delayed) + length (contents (lnk s) H_list))%nat) s.
Proof.
  revert s. induction fuel as [|f IH]; intros s C Hk Hf; [lia|]. simpl. apply wp_bind, wp_gets.
  unfold list_peek_head. destruct (contents (lnk s) H_delayed) as [|c r] eqn:E; [by apply wp_ret|].
  apply wp_bind, wp_modify, wp_bind, wp_modify. pose proof (hc_links _ _ _ C) as Hl.
  pose proof (hcore_pop H_delayed c r [] A s ltac:(done) C E) as C1. set (s1 := set_lnk _ s) in *.
  pose proof (hcore_push H_list c _ [] A s1 ltac:(done) C1 eq_refl) as C2.
  assert (Hc : list_in_list (lnk s1) c = false).
  { apply delete_not_in; [done|]. apply (in_contents _ H_delayed); [done|]. rewrite E. set_solver. }
  pose proof (fun h => delete_head_contents _ H_delayed c r h Hl E) as D1.
  pose proof (fun h => add_head_contents _ H_list c h (hc_links _ _ _ C1) Hc) as D2. simpl in D2.
  set (s2 := set_lnk _ s1) in *. change (mem s2) with (mem s) in *.
  assert (L2 : forall h, contents (lnk s2) h = match h with H_delayed => r | H_list => c :: contents (lnk s) H_list
                                              | H_free => contents (lnk s) H_free end).
  { intros h. simpl. rewrite D2, !D1. by destruct h. }
  eapply wp_mono; [apply IH; [done|done|rewrite L2; simpl in Hf; lia]|].
  intros _ s3 (C3 & K3 & E3 & F3 & P3 & N3). rewrite !L2 in N3. simpl in *.
  split; [done|]. split; [done|]. split; [done|]. split; [|split; [|lia]].
  - rewrite F3. unfold free_blocks, blocks_of. by rewrite L2.
  - rewrite P3, !pending_lens, !L2, E. change (lens s2) with (lens s). rewrite !lens_app. simpl.
    solve_Permutation.
Qed.

Lemma wp_insert_all fuel A s :
  hcore [] A s -> lock s = false -> contents (lnk s) H_delayed = [] ->
  (length (contents (lnk s) H_list) < fuel)%nat ->
  wp (insert_all free_list fuel) (fun _ s' => hinv A s' /\ contents (lnk s') H_delayed = [] /\
    (forall x, covers (free_blocks s') x <-> covers (free_blocks s ++ pending s) x)) s.
Proof.
  revert s. induction fuel as [|f IH]; intros s C Hk Hd Hf; [lia|]. simpl. apply wp_bind, wp_gets.
  unfold list_peek_head. destruct (contents (lnk s) H_list) as [|c r] eqn:E.
  { apply wp_ret. split; [by constructor|]. split; [done|]. intros x.
    rewrite pending_lens, Hd, E. simpl. by rewrite app_nil_r. }
  apply wp_bind, wp_modify, wp_bind.
  pose proof (fun h => delete_head_contents _ H_list c r h (hc_links _ _ _ C) E) as D.
  pose proof (hcore_pop H_list c r [] A s ltac:(done) C E) as C1. set (s1 := set_lnk _ s) in *.
  eapply wp_insert; [exact C1|done|done|]. intros _ s2 C2 I P2.
  assert (P1 : pending s = (c, chunk_len s c) :: pending s1).
  { rewrite !pending_lens. simpl. rewrite !D, E, Hd. done. }
  assert (F1 : free_blocks s1 = free_blocks s) by (unfold free_blocks, blocks_of; simpl; by rewrite D).
  eapply wp_mono; [apply IH; [done|apply I|..]|].
  - rewrite (is_other _ _ _ _ I) by done. simpl. by rewrite D.
  - rewrite (is_other _ _ _ _ I) by done. simpl. rewrite D. simpl in *. lia.
  - intros _ s3 (V3 & E3 & Cv). split; [done|]. split; [done|]. intros x.
    rewrite Cv, P2, P1, (is_free _ _ _ _ I), F1, !covers_app, covers_cons.
    rewrite insert_block_covers; [tauto| |apply coalesced_pos, C].
    apply hcore_hand, block_ok_pos in C1. exact C1.
Qed.

Lemma wp_flush A s :
  hinv A s ->
  wp (flush_delayed free_list) (fun _ s' => hinv A s' /\ contents (lnk s') H_delayed = [] /\
    (forall x, covers (free_blocks s') x <-> covers (free_blocks s ++ pending s) x)) s.
Proof.
  intros [C Hl Hk]. unfold flush_delayed. apply wp_bind, wp_gets. unfold list_is_empty.
  destruct (contents (lnk s) H_delayed) as [|c r] eqn:E; cbn [negb].
  { apply wp_ret. split; [by constructor|]. split; [done|]. intros x.
    rewrite pending_lens, Hl, E. simpl. by rewrite app_nil_r. }
  unfold heap_free_delayed_list. apply wp_bind, wp_gets, wp_bind.
  eapply wp_mono; [apply (wp_drain _ A); [done|done|lia]|].
  intros _ s1 (C1 & K1 & E1 & F1 & P1 & N1). eapply wp_mono; [apply (wp_insert_all _ A); try done|].
  - rewrite N1, Hl. simpl. lia.
  - intros _ s2 (V2 & E2 & Cv). split; [done|]. split; [done|]. intros x. by rewrite Cv, F1, P1.
Qed.

(** ** Sizes and alignment *)

Lemma ROUNDUP_8 a : 0 <= a -> a + 7 < 2 ^ 64 ->
  a <= ROUNDUP a sizeof_ptr <= a + 7 /\ ROUNDUP a sizeof_ptr mod 8 = 0.
Proof.
  intros Ha Hb. unfold ROUNDUP, sizeof_ptr. change (8 - 1) with 7. rewrite (u64_small (a + 7)) by lia.
  change (u64 (Z.lnot 7)) with (Z.lnot (2 ^ 3 - 1) mod 2 ^ 64). rewrite land_high_mask by lia.
  change (2 ^ 3) with 8. pose proof (Z.mod_pos_bound (a + 7) 8). split; [lia|].
  by apply sub_mod_mod.
Qed.

Lemma alloc_size_spec n : 0 <= n < 2 ^ 64 - 32 ->
  n + 24 <= alloc_size n <= n + 31 /\ alloc_size n mod 8 = 0.
Proof.
  intros Hn. unfold alloc_size, sizeof_alloc_struct_begin, sizeof_free_heap_chunk.
  rewrite u64_small by lia. rewrite (proj2 (Z.ltb_ge _ _)) by lia.
  destruct (ROUNDUP_8 (n + 24)) as [? ?]; [lia..|]. split; [lia|done].
Qed.

Lemma ROUNDUP_uint_spec a k : 0 <= k < 32 -> 0 <= a -> a + 2 ^ k <= 2 ^ 32 ->
  a <= ROUNDUP_uint a (2 ^ k) < a + 2 ^ k /\ ROUNDUP_uint a (2 ^ k) mod 2 ^ k = 0.
Proof.
  intros Hk Ha Hb. unfold ROUNDUP_uint.
  assert (Hp : 0 < 2 ^ k < 2 ^ 32) by (split; [apply Z.pow_pos_nonneg|apply Z.pow_lt_mono_r]; lia).
  rewrite (u32_small (2 ^ k - 1)), (u64_small (a + _)) by lia.
  unfold u32. rewrite land_high_mask by lia.
  pose proof (Z.mod_pos_bound (a + (2 ^ k - 1)) (2 ^ k)). split; [lia|]. apply sub_mod_mod. lia.
Qed.

Lemma pow2_align k : 0 <= k < 32 -> Z.land (2 ^ k) (u32 (2 ^ k - 1)) = 0.
Proof.
  intros Hk. assert (Hp : 0 < 2 ^ k < 2 ^ 32) by (split; [apply Z.pow_pos_nonneg|apply Z.pow_lt_mono_r]; lia).
  rewrite u32_small by lia. replace (2 ^ k - 1) with (Z.ones k) by (rewrite Z.ones_equiv; lia).
  rewrite Z.land_ones by lia. apply Z.mod_same. lia.
Qed.

(** ** Taking a chunk off the free list *)

(** A change of the free list that moves blocks to or from the hand. *)
Lemma hcore_refree O O' A s s' :
  hcore O A s -> links_ok (lnk s') -> (forall h, h <> H_free -> contents (lnk s') h = contents (lnk s) h) ->
  mem s' = mem s -> low_watermark s' = low_watermark s -> remaining s' = total (free_blocks s') ->
  coalesced (free_blocks s') -> free_blocks s' ++ O' ≡ₚ free_blocks s ++ O -> hcore O' A s'.
Proof.
  intros [] Hl Hh Em El Er Hc P.
  assert (Ep : pending s' = pending s).
  { rewrite !pending_lens, !Hh by done. unfold lens, chunk_len. by rewrite Em. }
  assert (P' : free_blocks s' ++ others O' A s' ≡ₚ free_blocks s ++ others O A s).
  { unfold others. rewrite Ep, !app_assoc. rewrite (comm (++) _ O'), (comm (++) _ O), !app_assoc.
    do 2 f_equiv. by rewrite (comm (++) O'), (comm (++) O). }
  constructor; rewrite ?P', ?El; try done.
  eapply Forall_impl; [exact hc_hdr|]. intros a []. by constructor; rewrite ?Em.
Qed.

(** The hand gives a block with a header in place to the caller. *)
Lemma hcore_give a O A s : hcore (a_block a :: O) A s -> header_ok s a -> hcore O (a :: A) s.
Proof.
  intros C H. eapply hcore_perm; try exact C; try done; [apply C| |].
  - unfold others. simpl. solve_Permutation.
  - constructor; [done|apply C].
Qed.

(** A block in hand cut in two. *)
Lemma hcore_cut c l n O A s :
  hcore ((c, l) :: O) A s -> 24 <= n -> n mod 8 = 0 -> 24 <= l - n ->
  hcore ((c, n) :: (c + n, l - n) :: O) A s.
Proof.
  intros C H1 H2 H3. pose proof (hcore_hand _ _ _ _ C) as (K1 & K2 & K3 & K4 & K5).
  destruct C. unfold blk_end in *. cbn [fst snd] in *.
  assert (P : free_blocks s ++ others ((c, n) :: (c + n, l - n) :: O) A s ≡ₚ
    (c, n) :: (c + n, l - n) :: free_blocks s ++ others O A s).
  { by rewrite !others_perm. }
  rewrite others_perm in hc_ok, hc_disj.
  constructor; rewrite ?P; try done; [|by apply disj_cut; [lia|]].
  apply Forall_cons in hc_ok as [_ K]. repeat constructor; unfold blk_end; cbn [fst snd]; try lia; try done.
  - rewrite Zplus_mod, K4, H2. done.
  - rewrite Zminus_mod, K5, H2. done.
Qed.

(** [s'] is [s] with [l'] bytes at [c] taken off the free list, and the counter
    still to be adjusted. *)
Record split_off A c l' s s' : Prop := {
  so_core : hcore [(c, l')] A (set_remaining (remaining s - l') s');
  so_len : chunk_len s' c = l';
  so_rem : remaining s' = remaining s;
  so_lock : lock s' = lock s;
  so_other : forall h, h <> H_free -> contents (lnk s') h = contents (lnk s) h;
  so_free : forall x, covers (free_blocks s) x <-> inside (c, l') x \/ covers (free_blocks s') x;
}.

(** Linking [c2] in where a chunk was deleted. *)
Lemma link_back L R c2 s :
  links_ok (lnk s) -> contents (lnk s) H_free = L ++ R -> list_in_list (lnk s) c2 = false ->
  let l := match head R with Some n => list_add_before n c2 (lnk s)
                           | None => list_add_tail H_free c2 (lnk s) end in
  links_ok l /\ contents l H_free = L ++ c2 :: R /\
  (forall h, h <> H_free -> contents l h = contents (lnk s) h).
Proof.
  intros Hl E Hc. pose proof (ok_nodup _ H_free Hl) as N. rewrite E in N. apply NoDup_app in N as (_ & N & _).
  destruct R as [|n R]; simpl.
  - split_and!; [by apply add_tail_ok| |].
    + rewrite add_tail_contents, decide_True, E by done. by rewrite app_nil_r.
    + intros h Hh. by rewrite add_tail_contents, decide_False.
  - assert (Hn : n ∈ contents (lnk s) H_free) by (rewrite E; set_solver).
    assert (Hin : list_in_list (lnk s) n = true) by by apply (in_contents _ H_free).
    split_and!; [by apply add_before_ok| |].
    + rewrite add_before_contents, E by done. apply insert_before_app. intros HL.
      by apply (N n HL), list_elem_of_here.
    + intros h Hh. rewrite add_before_contents by done. apply insert_before_not_in.
      intros Hn'. apply Hh. by apply (ok_disjoint (lnk s) _ _ n).
Qed.

(** The chunk itself off the list. *)
Lemma hcore_unfree L c R A s :
  hcore [] A s -> contents (lnk s) H_free = L ++ c :: R ->
  let s1 := set_lnk (list_delete c (lnk s)) s in
  contents (lnk s1) H_free = L ++ R /\
  (forall h, h <> H_free -> contents (lnk s1) h = contents (lnk s) h) /\
  hcore [(c, chunk_len s c)] A (set_remaining (remaining s - chunk_len s c) s1).
Proof.
  intros C E s1. pose proof (hc_links _ _ _ C) as Hl.
  assert (Hin : c ∈ contents (lnk s) H_free) by (rewrite E; set_solver).
  assert (Hc : list_in_list (lnk s) c = true) by by apply (in_contents _ H_free).
  destruct (split_nodup s L c R) as (N1 & N2 & _); [by split|].
  assert (E1 : contents (lnk s1) H_free = L ++ R).
  { simpl. rewrite delete_contents, E, remove_all_app by done. simpl.
    by rewrite decide_True, !remove_all_not_in by done. }
  assert (O1 : forall h, h <> H_free -> contents (lnk s1) h = contents (lnk s) h).
  { intros h Hh. by apply (delete_other_contents _ H_free). }
  assert (F : free_blocks s = lens s L ++ (c, chunk_len s c) :: lens s R) by (by apply free_split).
  assert (F1 : free_blocks s1 = lens s L ++ lens s R).
  { unfold free_blocks, blocks_of. rewrite E1. apply map_app. }
  split; [done|]. split; [done|].
  eapply (hcore_refree []); [exact C|by apply delete_ok|done|done|done|..];
    change (free_blocks (set_remaining _ s1)) with (free_blocks s1); rewrite F1.
  - simpl. rewrite (hc_rem _ _ _ C), F, !total_app. simpl. lia.
  - pose proof (hc_free _ _ _ C) as Hf. rewrite F in Hf. exact (coalesced_remove _ _ _ Hf).
  - rewrite F, app_nil_r. solve_Permutation.
Qed.

Lemma hcore_hands O O' A s : O ≡ₚ O' -> hcore O A s -> hcore O' A s.
Proof.
  intros P C. eapply hcore_perm; try exact C; try done; [apply C| |apply C].
  unfold others. by rewrite P.
Qed.

(** The headers of the two parts. *)
Lemma hcore_two_parts c l n A s :
  hcore [(c, n); (c + n, l - n)] A s -> let s3 := store (len_at c) n (store (len_at (c + n)) (l - n) s) in
  hcore [(c + n, l - n); (c, n)] A s3 /\ free_blocks s3 = free_blocks s /\
  chunk_len s3 c = n /\ chunk_len s3 (c + n) = l - n.
Proof.
  intros C s3. pose proof (hcore_hand _ _ _ _ C) as (_ & K1 & _).
  apply (hcore_hands _ [(c + n, l - n); (c, n)]) in C; [|solve_Permutation].
  pose proof (hcore_hand _ _ _ _ C) as (_ & K2 & _). cbn [fst snd] in *.
  destruct (hcore_store (c + n, l - n) [(c, n)] A s (len_at (c + n)) (l - n) C) as (C2 & F2 & _);
    [unfold inside, blk_end, len_at; simpl; lia|].
  apply (hcore_hands _ [(c, n); (c + n, l - n)]) in C2; [|solve_Permutation].
  destruct (hcore_store _ _ _ _ (len_at c) n C2) as (C3 & F3 & _);
    [unfold inside, blk_end, len_at; simpl; lia|].
  split_and!; [|unfold s3; by rewrite F3|apply chunk_len_store|].
  - eapply hcore_hands; [|exact C3]. solve_Permutation.
  - unfold chunk_len, s3. simpl. unfold upd. rewrite decide_False, decide_True; [done..|unfold len_at; lia].
Qed.

Lemma free_of s L : contents (lnk s) H_free = L -> free_blocks s = lens s L.
Proof. by intros <-. Qed.

Lemma wp_split_chunk L c R size A s :
  hcore [] A s -> contents (lnk s) H_free = L ++ c :: R ->
  24 <= size <= chunk_len s c -> size mod 8 = 0 ->
  wp (split_chunk c size) (fun _ s' => exists l', size <= l' /\ split_off A c l' s s') s.
Proof.
  intros C E Hs Hm. set (l := chunk_len s c) in *.
  destruct (hcore_unfree L c R A s C E) as (E1 & O1 & C1). set (s1 := set_lnk _ s) in *. fold l in C1.
  pose proof (hcore_hand _ _ _ _ C1) as (K1 & K2 & K3 & K4 & K5). unfold blk_end in K3. cbn [fst snd] in *.
  destruct (split_nodup s L c R) as (N1 & N2 & _); [split; [apply C|done]|].
  assert (F : free_blocks s = lens s L ++ (c, l) :: lens s R) by (apply free_split; split; [apply C|done]).
  unfold split_chunk, list_next, sizeof_free_heap_chunk.
  apply wp_bind, wp_gets, wp_bind, wp_modify, wp_bind, wp_gets. rewrite E, next_in_app by done.
  fold s1. change (chunk_len s1 c) with l. rewrite (u64_small (size + 24)) by lia.
  destruct (Z.ltb_spec (size + 24) l) as [Hlt|].
  2:{ apply wp_ret. exists l. split; [lia|]. constructor; try done. intros x. rewrite F.
      rewrite (free_of _ _ E1). change (lens s1) with (lens s). rewrite lens_app, !covers_app, covers_cons. tauto. }
  rewrite !u64_small by lia. replace (l - (l - size)) with size by lia.
  apply (hcore_cut _ _ size) in C1; [|lia..]. set (r := remaining s - l) in *.
  unfold heap_create_free_chunk, sizeof_ptr.
  apply wp_bind, wp_bind, wp_assert; [apply Z.eqb_eq; by rewrite Zminus_mod, K5, Hm|].
  apply wp_bind, wp_modify, wp_ret, wp_bind, wp_modify.
  destruct (hcore_two_parts c l size A (set_remaining r s1) C1) as (C3 & F3 & L3 & L3').
  set (s3 := store (len_at c) size (store (len_at (c + size)) (l - size) s1)).
  change (store _ _ (store _ _ (set_remaining r s1))) with (set_remaining r s3) in *.
  assert (Hc2 : list_in_list (lnk s3) (c + size) = false)
    by exact (hand_not_listed [(c, size)] A (set_remaining r s3) (c + size, l - size) C3).
  destruct (link_back L R (c + size) s3 (hc_links _ _ _ C3) E1 Hc2) as (Hl4 & E4 & O4).
  assert (F3' : lens s3 L = lens s L /\ lens s3 R = lens s R).
  { assert (Ef : lens s3 L ++ lens s3 R = lens s L ++ lens s R).
    { rewrite <- !lens_app. change (lens s3 (L ++ R)) with (lens (set_remaining r s3) (L ++ R)).
      rewrite <- (free_of (set_remaining r s3) (L ++ R) E1), F3. exact (free_of s1 (L ++ R) E1). }
    apply app_inj_1 in Ef as [? ?]; [done|]. unfold lens. by rewrite !length_map. }
  match goal with |- wp ?m ?Q _ => enough (H : Q tt (set_lnk (match head R with
    | Some n => list_add_before n (c + size) (lnk s3) | None => list_add_tail H_free (c + size) (lnk s3) end) s3)) end.
  { destruct (head R); exact H. }
  cbv beta. set (lk := match head R with Some _ => _ | None => _ end) in *.
  assert (F4 : free_blocks (set_lnk lk s3) = lens s L ++ (c + size, l - size) :: lens s R).
  { rewrite (free_of (set_lnk lk s3) _ E4), lens_app. change (lens (set_lnk lk s3)) with (lens s3).
    cbn [lens map]. fold (lens s3 R). rewrite (proj1 F3'), (proj2 F3'). do 2 f_equal. f_equal. exact L3'. }
  exists size. split; [lia|]. constructor; try done.
  - eapply (hcore_refree _ _ _ _ _ C3); try done.
    + change (free_blocks (set_remaining _ ?x)) with (free_blocks x). rewrite F4. simpl.
      rewrite (hc_rem _ _ _ C), F, !total_app. simpl. lia.
    + change (free_blocks (set_remaining _ ?x)) with (free_blocks x). rewrite F4.
      pose proof (hc_free _ _ _ C) as Hf. rewrite F in Hf. apply coalesced_trim; [lia|exact Hf].
    + change (free_blocks (set_remaining _ ?x)) with (free_blocks x) at 1. rewrite F4, F3.
      change (free_blocks (set_remaining r s1)) with (free_blocks s1). rewrite (free_of _ _ E1).
      change (lens s1) with (lens s). rewrite lens_app. solve_Permutation.
  - intros h Hh. rewrite <- O1 by done. apply O4, Hh.
  - intros x. rewrite F, F4, !covers_app, !covers_cons. unfold inside, blk_end. cbn [fst snd].
    assert (c <= x < c + l <-> c <= x < c + size \/ c + size <= x < c + size + (l - size)) by lia. tauto.
Qed.

Lemma hcore_low v O A s : hcore O A s -> 0 <= v -> hcore O A (set_low v s).
Proof.
  intros [] Hv. constructor; try done. eapply Forall_impl; [exact hc_hdr|]. intros a []. by constructor.
Qed.

(** ** heap_alloc *)

(** [size] bytes are enough for [n] at alignment [al]; the alignment is computed
    in 32 bits, so the arena has to lie below 4 GB when one is asked for. *)
Definition fits (al size n : Z) : Prop :=
  0 <= n /\ (al = 0 /\ n + 24 <= size \/
             exists k, al = 2 ^ k /\ 4 <= k < 32 /\ n + 24 + al <= size /\ hi <= 2 ^ 32).

Definition place (c al : Z) : Z :=
  let ptr := u64 (c + sizeof_alloc_struct_begin) in
  if 0 <? al then ROUNDUP_uint ptr al else ptr.

Lemma pow2_mod8 k x : 4 <= k -> x mod 2 ^ k = 0 -> x mod 8 = 0.
Proof.
  intros Hk H. apply Z.mod_divide in H as [q ->]; [|apply Z.pow_nonzero; lia].
  replace k with (3 + (k - 3)) by lia. rewrite Z.pow_add_r by lia. change (2 ^ 3) with 8.
  rewrite (Z.mul_comm 8), Z.mul_assoc. by apply Z.mod_mul.
Qed.

Lemma place_spec c al size n :
  fits al size n -> lo <= c -> c + size <= hi -> c mod 8 = 0 ->
  c + 24 <= place c al /\ place c al + n <= c + size /\ place c al mod 8 = 0 /\
  (0 < al -> place c al mod al = 0).
Proof.
  intros [Hn Hf] Hc Hs Hm. unfold place, sizeof_alloc_struct_begin. destruct Hf as [[-> ?]|(k & -> & ? & ? & ?)].
  - simpl. rewrite u64_small by lia. split_and!; try lia. by rewrite Zplus_mod, Hm.
  - assert (Hp : 0 < 2 ^ k) by (apply Z.pow_pos_nonneg; lia). rewrite (proj2 (Z.ltb_lt _ _)) by done.
    rewrite u64_small by lia. destruct (ROUNDUP_uint_spec (c + 24) k) as [? Hr]; [lia..|].
    split_and!; try lia; apply (pow2_mod8 k); [lia|done].
Qed.

(** What a successful walk did: chunk [c] of length [l'] now belongs to the
    caller, and the free list covers that much less. *)
Record taken al size n c l' A s ptr s' : Prop := {
  tk_ptr : 0 < ptr /\ ptr mod 8 = 0 /\ (0 < al -> ptr mod al = 0);
  tk_room : c + 24 <= ptr /\ ptr + n <= c + size /\ size <= l';
  tk_core : hcore [] (Alloc ptr c l' :: A) s';
  tk_lock : lock s' = lock s;
  tk_other : forall h, h <> H_free -> contents (lnk s') h = contents (lnk s) h;
  tk_free : forall x, covers (free_blocks s) x <-> inside (c, l') x \/ covers (free_blocks s') x;
}.

Lemma wp_take_chunk L c R al size n A s :
  hcore [] A s -> contents (lnk s) H_free = L ++ c :: R ->
  size <= chunk_len s c -> size mod 8 = 0 -> fits al size n ->
  wp (take_chunk c size al) (fun ptr s' => exists l', taken al size n c l' A s ptr s') s.
Proof.
  intros C E Hs Hm Hf.
  assert (H24 : 24 <= size) by (destruct Hf as [? [[_ ?]|(k & -> & ? & ? & _)]]; [|pose proof (Z.pow_nonneg 2 k)]; lia).
  unfold take_chunk. apply wp_bind. eapply wp_mono; [by apply (wp_split_chunk L c R size A)|].
  intros _ s1 (l' & Hl' & [C1 L1 R1 K1 O1 F1]). pose proof (hcore_hand _ _ _ _ C1) as (B1 & _ & B3 & B4 & _).
  unfold blk_end in B3. cbn [fst snd] in *.
  destruct (place_spec c al size n) as (P1 & P2 & P3 & P4); [done|lia..|done|].
  apply wp_bind, wp_gets, wp_bind, wp_assert; [rewrite L1; by apply Z.leb_le|].
  change (if 0 <? al then _ else _) with (place c al). rewrite L1. set (ptr := place c al) in *.
  apply wp_bind, wp_modify, wp_bind, wp_modify, wp_bind, wp_modify, wp_bind, wp_modify, wp_bind, wp_modify, wp_ret.
  assert (Hn : 0 <= n) by apply Hf.
  set (s4 := store (as_size ptr) l' (store (as_ptr ptr) c (store (as_magic ptr) HEAP_MAGIC s1))).
  set (s5 := set_remaining _ s4).
  assert (C4 : hcore [(c, l')] A (set_remaining (remaining s - l') s4) /\ free_blocks s4 = free_blocks s1).
  { destruct (hcore_store _ _ _ _ (as_magic ptr) HEAP_MAGIC C1) as (C2 & F2 & _).
    { unfold inside, blk_end, as_magic. simpl. lia. }
    destruct (hcore_store _ _ _ _ (as_ptr ptr) c C2) as (C3 & F3 & _).
    { unfold inside, blk_end, as_ptr. simpl. lia. }
    destruct (hcore_store _ _ _ _ (as_size ptr) l' C3) as (C4 & F4 & _).
    { unfold inside, blk_end, as_size. simpl. lia. }
    split; [exact C4|]. rewrite F3, F2 in F4. exact F4. }
  destruct C4 as [C4 F4].
  assert (E5 : set_remaining (remaining s - l') s4 = s5).
  { unfold s5. f_equal. change (remaining s4) with (remaining s1). rewrite R1.
    pose proof (hc_rem _ _ _ C4) as Er. simpl in Er. pose proof (arena_bound (free_blocks s4)) as Hb.
    symmetry. apply u64_small. rewrite Er.
    destruct Hb; [apply C4| |change (free_blocks (set_remaining _ s4)) with (free_blocks s4); lia].
    pose proof (hc_ok _ _ _ C4) as K. by apply Forall_app in K as [K _]. }
  rewrite E5 in C4.
  assert (G : hcore [] (Alloc ptr c l' :: A) s5).
  { apply (hcore_give (Alloc ptr c l')); [done|]. constructor; cbn [a_ptr a_chunk a_size]; try lia;
      unfold s5; cbn; unfold upd, as_magic, as_ptr, as_size; repeat case_decide; lia || done. }
  match goal with |- context [if ?t then ?a else ?b] => set (s6 := if t then a else b) end.
  assert (E6 : exists v, s6 = set_low v s5 /\ 0 <= v).
  { unfold s6. destruct (_ <? _); [exists (remaining s5)|exists (low_watermark s5)]; (split; [done|]).
    - rewrite (hc_rem _ _ _ G). by apply total_nonneg, G.
    - apply G. }
  destruct E6 as (v & -> & Hv). exists l'. constructor; try done.
  - split_and!; try done; lia.
  - by apply hcore_low.
  - intros x. rewrite F1, <- F4. done.
Qed.

Lemma wp_alloc_walk P es al size n A s :
  hcore [] A s -> contents (lnk s) H_free = P ++ es -> size mod 8 = 0 -> fits al size n ->
  wp (alloc_walk es size al) (fun ptr s' =>
    ptr = 0 /\ s' = s /\ (forall c, c ∈ es -> chunk_len s c < size) \/
    exists c l', taken al size n c l' A s ptr s') s.
Proof.
  intros C E Hm Hf. revert P E. induction es as [|c es IH]; intros P E; simpl.
  { apply wp_ret. left. set_solver. }
  assert (Hc : c ∈ contents (lnk s) H_free) by (rewrite E; set_solver).
  pose proof (hc_ok _ _ _ C) as K. apply Forall_app in K as [K _]. rewrite Forall_forall in K.
  destruct (K (c, chunk_len s c)) as (_ & _ & _ & _ & Km); [by apply in_blocks|].
  apply wp_bind, wp_gets, wp_bind, wp_assert; [by apply Z.eqb_eq|].
  destruct (Z.leb_spec size (chunk_len s c)).
  - eapply wp_mono; [by apply (wp_take_chunk P c es al size n A)|]. intros ptr s' [l' T]. right. eauto.
  - eapply wp_mono; [apply (IH (P ++ [c])); by rewrite <- app_assoc|].
    intros ptr s' [(-> & -> & Hs)|]; [left|by right]. split_and!; try done. set_solver.
Qed.

(** The alignment the walk uses. *)
Definition walk_align (al : Z) : Z := if 0 <? al then if al <? 16 then 16 else al else al.
Definition walk_size (n al : Z) : Z := alloc_size n + walk_align al.

(** An alignment [heap_alloc] can serve. *)
Definition align_ok (al : Z) : Prop := al = 0 \/ exists k, al = 2 ^ k /\ 0 <= k < 31 /\ hi <= 2 ^ 32.

Lemma walk_fits n al :
  0 <= n < 2 ^ 63 -> align_ok al ->
  fits (walk_align al) (walk_size n al) n /\ walk_size n al mod 8 = 0 /\ walk_size n al < 2 ^ 64 /\
  (forall p, 0 < al -> p mod walk_align al = 0 -> p mod al = 0) /\ Z.land al (u32 (al - 1)) = 0 /\ 0 <= al.
Proof.
  intros Hn Ha. unfold walk_size, walk_align. destruct (alloc_size_spec n) as [Hs Hm]; [lia|].
  destruct Ha as [->|(k & -> & Hk & Hh)].
  { simpl. rewrite Z.add_0_r. split_and!; try done; try lia. split; [lia|]. left. lia. }
  assert (Hp : 0 < 2 ^ k <= 2 ^ 30) by (split; [apply Z.pow_pos_nonneg|apply Z.pow_le_mono_r]; lia).
  rewrite (proj2 (Z.ltb_lt 0 _)) by lia. rewrite pow2_align by lia.
  destruct (Z.ltb_spec (2 ^ k) 16) as [Hlt|Hge].
  - assert (k < 4) by (change 16 with (2 ^ 4) in Hlt; apply Z.pow_lt_mono_r_iff in Hlt; lia).
    split_and!; try done; try lia.
    + split; [lia|]. right. exists 4. split_and!; try done; lia.
    + rewrite Zplus_mod, Hm. done.
    + intros p _ Hp'. apply Z.mod_divide in Hp' as [q ->]; [|lia]. change 16 with (2 ^ 4).
      replace 4 with (4 - k + k) by lia. rewrite Z.pow_add_r, Z.mul_assoc by lia. apply Z.mod_mul. lia.
  - assert (4 <= k) by (change 16 with (2 ^ 4) in Hge; apply Z.pow_le_mono_r_iff in Hge; lia).
    split_and!; try done; try lia.
    + split; [lia|]. right. exists k. split_and!; try done; lia.
    + rewrite Zplus_mod, Hm. rewrite (pow2_mod8 k (2 ^ k)); [done|lia|]. apply Z.mod_same. lia.
Qed.

Lemma wp_heap_alloc n al A s :
  hinv A s -> 0 <= n < 2 ^ 63 -> align_ok al ->
  wp (heap_alloc free_list n al) (fun ptr s' => exists s1,
    hinv A s1 /\ contents (lnk s1) H_delayed = [] /\
    (forall x, covers (free_blocks s1) x <-> covers (free_blocks s ++ pending s) x) /\
    (ptr = 0 /\ s' = s1 /\ (forall b, b ∈ free_blocks s1 -> b.2 < walk_size n al) \/
     exists c l, taken (walk_align al) (walk_size n al) n c l A s1 ptr s' /\
       (0 < al -> ptr mod al = 0) /\ hinv (Alloc ptr c l :: A) s')) s.
Proof.
  intros V Hn Ha. destruct (walk_fits n al Hn Ha) as (Hf & Hm & Hw & Hd & Hl & Hal).
  unfold heap_alloc. apply wp_bind. eapply wp_mono; [by apply wp_flush|].
  intros _ s1 (V1 & E1 & Cv1). rewrite Hl. cbn [negb Z.eqb]. 
  match goal with |- wp (let '(x, y) := ?t in _) _ _ => assert (Et : t = (walk_align al, walk_size n al)) end.
  { assert (Hr : 0 <= walk_size n al < 2 ^ 64).
    { split; [|done]. destruct Hf as [? [[_ ?]|(k & -> & _ & ? & _)]]; [|pose proof (Z.pow_nonneg 2 k)]; lia. }
    revert Hr. unfold walk_size, walk_align. destruct (Z.ltb_spec 0 al); intros Hr.
    - by rewrite u64_small by done.
    - assert (al = 0) as -> by lia. by rewrite Z.add_0_r. }
  rewrite Et. clear Et. pose proof V1 as [C1 L1 K1]. unfold lock_heap, unlock_heap.
  apply wp_bind, wp_bind, wp_gets, wp_bind, wp_assert; [by rewrite K1|].
  apply wp_modify, wp_bind, wp_gets, wp_bind. set (s2 := set_lock true s1).
  assert (C2 : hcore [] A s2).
  { eapply hcore_perm; try exact C1; try done; apply C1. }
  eapply wp_mono; [by apply (wp_alloc_walk [] _ _ _ n A s2)|]. intros ptr s3 W.
  assert (Hk : lock s3 = true).
  { destruct W as [(-> & -> & _)|(c & l & T)]; [done|]. by rewrite (tk_lock _ _ _ _ _ _ _ _ _ T). }
  apply wp_bind, wp_bind, wp_gets, wp_bind, wp_assert; [done|]. apply wp_modify, wp_ret.
  exists s1. split; [done|]. split; [done|]. split; [done|]. destruct W as [(-> & -> & Hs)|(c & l & T)]; [left|right].
  - split; [done|]. split; [by destruct s1; simpl in *; subst|]. intros b Hb. apply in_blocks in Hb as [Hb ->]. by apply Hs.
  - exists c, l. assert (C3 : hcore [] (Alloc ptr c l :: A) (set_lock false s3)).
    { destruct T. eapply hcore_perm; try exact tk_core0; try done; apply tk_core0. }
    split; [|split].
    + destruct T. constructor; done.
    + intros H0. apply Hd; [done|]. apply T. unfold walk_align. rewrite (proj2 (Z.ltb_lt _ _)) by done. zcases; lia.
    + constructor; [done| |done]. simpl. rewrite (tk_other _ _ _ _ _ _ _ _ _ T) by done. done.
Qed.

End safe.
