(* ===== verification/HeapProps.v ===== *)
(** * What the heap promises

    [heap_init] establishes the invariant; [heap_alloc] returns memory nobody
    else has, or fails only when no chunk is large enough; [heap_free] and
    [heap_delayed_free] give it back; allocating and freeing leaves the free
    list as it was.  Two inputs on which the code goes wrong are at the end. *)

From S2P Require Import Prelude ListH Blocks Heap HeapInv HeapSafe.

Open Scope lk_scope.

Section props.
Context {LO : ListOps Z heap_head} {LL : ListLaws Z heap_head} {AR : Arena}.
Implicit Types (s : heap) (A : list alloc).

Lemma wp_heap_exists {B} (m : M heap B) (Q : B -> heap -> Prop) s :
  wp m Q s -> exists r s', m s = Some (r, s') /\ Q r s'.
Proof. by intros ?%wp_exists. Qed.

Lemma wp_exists_unit (m : M heap unit) (P : heap -> Prop) s :
  wp m (fun _ => P) s -> exists s', m s = Some (tt, s') /\ P s'.
Proof. intros ([] & s' & ? & ?)%wp_exists. eauto. Qed.

Lemma stats_walk_spec s es free max :
  0 <= free -> (forall c, c ∈ es -> 0 <= chunk_len s c) -> free + total (lens s es) < 2 ^ 64 ->
  exists m, stats_walk s es free max = (free + total (lens s es), m) /\
    max <= m /\ (forall c, c ∈ es -> chunk_len s c <= m) /\
    (m = max \/ exists c, c ∈ es /\ m = chunk_len s c).
Proof.
  revert free max. induction es as [|c es IH]; intros free max Hf Hc Ht; simpl in *.
  { exists max. rewrite Z.add_0_r. split_and!; try done; [set_solver|by left]. }
  assert (0 <= total (lens s es)).
  { clear -Hc. induction es as [|x es IH]; simpl; [lia|].
    pose proof (Hc x ltac:(set_solver)). enough (0 <= total (lens s es)) by lia. apply IH. set_solver. }
  pose proof (Hc c ltac:(set_solver)). rewrite u64_small by lia.
  destruct (IH (free + chunk_len s c) (if max <? chunk_len s c then chunk_len s c else max))
    as (m & E & Ha & Hb & Hd); [lia|set_solver|lia|].
  exists m. rewrite E. split; [f_equal; lia|]. destruct (Z.ltb_spec max (chunk_len s c)).
  - split; [lia|]. split; [intros x [->|]%elem_of_cons; [lia|auto]|]. set_solver.
  - split; [lia|]. split; [intros x [->|]%elem_of_cons; [lia|auto]|]. set_solver.
Qed.

Lemma stats_walk_mem s s' es free max :
  mem s' = mem s -> stats_walk s' es free max = stats_walk s es free max.
Proof.
  intros E. revert free max. induction es as [|c es IH]; intros; [done|]. simpl.
  unfold chunk_len. by rewrite E, IH.
Qed.

(** C14: [heap_alloc] of [n] bytes either fails, and then no free chunk is large
    enough once the delayed frees are done, or returns a pointer with the
    alignment asked for to [n] bytes of a chunk that was free and is disjoint
    from every free chunk and every other live allocation (the invariant of the
    new state); the header in front of the pointer and those of the other
    allocations are intact. *)
Theorem heap_alloc_spec n al A s :
  hinv A s -> 0 <= n < 2 ^ 63 -> align_ok al ->
  exists ptr s', heap_alloc free_list n al s = Some (ptr, s') /\
    (ptr = 0 /\ hinv A s' /\ (forall b, b ∈ free_blocks s' -> b.2 < walk_size n al) \/
     exists c l, hinv (Alloc ptr c l :: A) s' /\ 0 < ptr /\ c + 24 <= ptr /\ ptr + n <= c + l /\
       ptr mod 8 = 0 /\ (0 < al -> ptr mod al = 0) /\
       forall x, covers (free_blocks s ++ pending s) x <-> inside (c, l) x \/ covers (free_blocks s') x).
Proof.
  intros V Hn Ha. destruct (wp_heap_exists _ _ _ (wp_heap_alloc n al A s V Hn Ha))
    as (ptr & s' & E & s1 & V1 & _ & Cv & H). exists ptr, s'. split; [done|].
  destruct H as [(-> & -> & H)|(c & l & [[? [? _]] [? [? ?]] _ _ _ Hc] & Hal & V')]; [by left|right].
  exists c, l. split_and!; try done; [lia|]. intros x. by rewrite <- Cv.
Qed.

(** C15: [heap_free] of a live allocation succeeds, adds exactly its chunk to
    the free list, merged with the neighbours it touches, and adds its size to
    the free count. *)
Theorem heap_free_spec a A s :
  hinv (a :: A) s ->
  exists s', heap_free free_list (a_ptr a) s = Some (tt, s') /\ hinv A s' /\
    free_blocks s' = insert_block (a_block a) (free_blocks s) /\
    (forall x, covers (free_blocks s') x <-> inside (a_block a) x \/ covers (free_blocks s) x) /\
    remaining s' = remaining s + a_size a.
Proof.
  intros V. destruct (wp_heap_exists _ _ _ (wp_heap_free a A s V)) as ([] & s' & E & V' & F & R & _).
  exists s'. split_and!; try done. intros x. rewrite F. pose proof (hv_core _ _ V) as C.
  apply insert_block_covers; [|apply coalesced_pos, C].
  apply hcore_release, hcore_hand, block_ok_pos in C. exact C.
Qed.

(** C16: freeing what was just allocated restores the free list, chunk by chunk,
    and the free count. *)
Theorem heap_alloc_free_roundtrip n al A s ptr s1 :
  hinv A s -> contents (lnk s) H_delayed = [] -> 0 <= n < 2 ^ 63 -> align_ok al ->
  heap_alloc free_list n al s = Some (ptr, s1) ->
  exists s2, heap_free free_list ptr s1 = Some (tt, s2) /\ hinv A s2 /\
    free_blocks s2 = free_blocks s /\ remaining s2 = remaining s.
Proof.
  intros V Hd Hn Ha E. destruct (wp_heap_exists _ _ _ (wp_heap_alloc n al A s V Hn Ha))
    as (p & s' & E' & s0 & V0 & _ & Cv & H). rewrite E in E'. injection E' as <- <-.
  assert (Hp : pending s = []) by (rewrite pending_lens, Hd, (hv_list _ _ V); done).
  rewrite Hp, app_nil_r in Cv.
  assert (F0 : free_blocks s0 = free_blocks s) by (apply coalesced_canonical; [apply V0|apply V|done]).
  assert (Rem : forall s', hinv A s' -> free_blocks s' = free_blocks s -> remaining s' = remaining s).
  { intros s' V' F. rewrite (hc_rem _ _ _ (hv_core _ _ V')), F. symmetry. apply V. }
  destruct H as [(-> & -> & _)|(c & l & T & _ & V1)].
  { exists s0. split_and!; auto. }
  destruct (wp_heap_exists _ _ _ (wp_heap_free _ A s1 V1)) as ([] & s2 & E2 & V2 & F2 & _).
  assert (F : free_blocks s2 = free_blocks s).
  { apply coalesced_canonical; [apply V2|apply V|]. intros x. rewrite F2, insert_block_covers.
    - by rewrite <- Cv, (tk_free _ _ _ _ _ _ _ _ _ T).
    - pose proof (hcore_hand _ _ _ _ (hcore_release _ _ _ _ (hv_core _ _ V1))) as K. by apply block_ok_pos in K.
    - apply coalesced_pos, V1. }
  exists s2. split_and!; auto.
Qed.

(** a chunk freed with [heap_delayed_free] leaves the free list alone and is
    back on it after the next [heap_get_stats]; the statistics report the bytes
    of the free list and the size of its largest chunk. *)
Theorem heap_delayed_free_spec a A s :
  hinv (a :: A) s ->
  exists s1 s2 st, heap_delayed_free (a_ptr a) s = Some (tt, s1) /\ hinv A s1 /\
    free_blocks s1 = free_blocks s /\
    heap_get_stats free_list s1 = Some (st, s2) /\ hinv A s2 /\
    (forall x, covers (free_blocks s2) x <->
               inside (a_block a) x \/ covers (free_blocks s ++ pending s) x) /\
    heap_free_bytes st = total (free_blocks s2) /\ remaining s2 = heap_free_bytes st /\
    (forall b, b ∈ free_blocks s2 -> b.2 <= heap_max_chunk st).
Proof.
  intros V. destruct (wp_heap_exists _ _ _ (wp_heap_delayed_free a A s V)) as ([] & s1 & E1 & V1 & F1 & _ & P1).
  destruct (wp_heap_exists _ _ _ (wp_flush A s1 V1)) as ([] & s2 & E2 & V2 & D2 & Cv).
  pose proof (hv_core _ _ V2) as C2. pose proof (hc_ok _ _ _ C2) as K. apply Forall_app in K as [K _].
  pose proof (arena_bound _ (hc_free _ _ _ C2) K) as B. pose proof arena_hi. pose proof arena_lo.
  destruct (stats_walk_spec s2 (contents (lnk s2) H_free) 0 0) as (m & Es & _ & Hm & _); [lia| |change (lens s2 _) with (free_blocks s2); lia|].
  { intros c Hc. rewrite Forall_forall in K. destruct (K (c, chunk_len s2 c)) as (_ & ? & _); [by apply in_blocks|].
    simpl in *. lia. }
  exists s1, s2, (Heap_stats (base s2) (len s2) (total (free_blocks s2)) m (low_watermark s2)).
  split_and!; try done.
  - unfold heap_get_stats, lock_heap, unlock_heap, bind, gets, modify, assert_, ret.
    rewrite E2, (hv_lock _ _ V2). simpl. rewrite (stats_walk_mem s2) by done. rewrite Es.
    do 2 f_equal. pose proof (hv_lock _ _ V2) as Hk. destruct s2. simpl in *. by rewrite Hk.
  - intros x. rewrite Cv, F1, P1. rewrite !covers_app, covers_cons. tauto.
  - apply C2.
  - intros b Hb. apply in_blocks in Hb as [Hb ->]. by apply Hm.
Qed.

Lemma heap_init_ok s :
  links_ok (lnk s) -> (forall h, contents (lnk s) h = []) ->
  lo mod 8 = 0 -> (hi - lo) mod 8 = 0 -> 24 <= hi - lo ->
  exists s', heap_init free_list lo (hi - lo) s = Some (tt, s') /\ hinv [] s' /\
    free_blocks s' = [(lo, hi - lo)] /\ remaining s' = hi - lo.
Proof.
  intros Hl He H1 H2 H3. apply wp_exists_unit. unfold heap_init.
  apply wp_bind, wp_modify, wp_bind, wp_gets, wp_bind, wp_gets. cbn [base len].
  match goal with |- wp _ _ ?s0 => set (s1 := s0) end.
  assert (Hf : forall h, blocks_of s1 h = []) by (intros h; unfold blocks_of; simpl; by rewrite He).
  assert (C : hcore [(lo, hi - lo)] [] s1).
  { assert (Eo : free_blocks s1 ++ others [(lo, hi - lo)] [] s1 = [(lo, hi - lo)]).
    { unfold free_blocks, others, pending. by rewrite !Hf. }
    pose proof arena_lo. pose proof arena_hi.
    constructor; rewrite ?Eo; try done; try (unfold free_blocks; rewrite Hf; done).
    - repeat constructor; unfold blk_end; simpl; try lia; done.
    - simpl. lia. }
  apply wp_bind. eapply wp_create; [exact C|]. intros s2 -> C2 L2 F2 P2. apply wp_bind.
  eapply wp_insert; [exact C2|done|done|]. intros _ s3 C3 I P3. apply wp_ret.
  assert (F3 : free_blocks s3 = [(lo, hi - lo)]).
  { rewrite (is_free _ _ _ _ I), F2. unfold free_blocks. by rewrite Hf. }
  split; [constructor; [done| |apply I]|split; [done|]].
  - rewrite (is_other _ _ _ _ I) by done. apply He.
  - rewrite (hc_rem _ _ _ C3), F3. simpl. lia.
Qed.

(** [heap_init] on an aligned arena makes one free chunk of all of it. *)
Theorem heap_init_spec s :
  links_ok (lnk s) -> (forall h, contents (lnk s) h = []) ->
  lo mod 8 = 0 -> (hi - lo) mod 8 = 0 -> 24 <= hi - lo ->
  exists s', heap_init free_list lo (hi - lo) s = Some (tt, s') /\ hinv [] s' /\
    free_blocks s' = [(lo, hi - lo)] /\ remaining s' = hi - lo.
Proof. exact (heap_init_ok s). Qed.

(** a size within 24 bytes of 2^64 wraps around when the header is added:
    the request succeeds whenever any chunk is free, with a chunk that ends long
    before the [n] bytes asked for. *)
Theorem heap_alloc_wraps n A s :
  hinv A s -> contents (lnk s) H_delayed = [] -> free_blocks s <> [] ->
  2 ^ 64 - 24 <= n < 2 ^ 64 ->
  exists ptr s' c l, heap_alloc free_list n 0 s = Some (ptr, s') /\ hinv (Alloc ptr c l :: A) s' /\
    c < ptr /\ c + l <= hi < ptr + n.
Proof.
  intros V Hd Hne Hn.
  assert (E0 : heap_alloc free_list n 0 s = heap_alloc free_list 0 0 s).
  { unfold heap_alloc. assert (Es : alloc_size n = alloc_size 0) by
      (unfold alloc_size, sizeof_alloc_struct_begin, sizeof_free_heap_chunk, u64;
       replace ((n + 24) mod 2 ^ 64) with (n + 24 - 2 ^ 64) by (apply (Z.mod_unique_pos _ _ 1); lia);
       rewrite (proj2 (Z.ltb_lt _ _)) by lia; reflexivity).
    by rewrite Es. }
  destruct (wp_heap_exists _ _ _ (wp_heap_alloc 0 0 A s V ltac:(lia) (or_introl eq_refl)))
    as (ptr & s' & E & s1 & V1 & _ & Cv & H). rewrite <- E0 in E.
  assert (Hp : pending s = []) by (rewrite pending_lens, Hd, (hv_list _ _ V); done).
  rewrite Hp, app_nil_r in Cv.
  assert (F1 : free_blocks s1 = free_blocks s) by (apply coalesced_canonical; [apply V1|apply V|done]).
  destruct H as [(_ & _ & H)|(c & l & T & _ & V')].
  - destruct (free_blocks s) as [|b bs] eqn:Eb; [done|]. specialize (H b). rewrite F1 in H.
    pose proof (hc_ok _ _ _ (hv_core _ _ V)) as K. rewrite Eb in K. apply Forall_cons in K as [(_ & K & _) _].
    change (walk_size 0 0) with 24 in H. specialize (H ltac:(set_solver)). lia.
  - exists ptr, s', c, l. pose proof (tk_room _ _ _ _ _ _ _ _ _ T).
    pose proof (hcore_hand _ _ _ _ (hcore_release _ _ _ _ (hv_core _ _ V'))) as (K1 & _ & K3 & _).
    unfold blk_end in K3. simpl in *. pose proof arena_hi. pose proof arena_lo. split_and!; try done; lia.
Qed.

End props.

(** ** A concrete heap *)

Section witnesses.
#[local] Existing Instance ref_ops.
#[local] Existing Instance ref_laws.

Definition blank : heap := Heap 0 0 0 0 false ref_empty (fun _ => 0).

(** 4 KB at address 8192, the heap structure below it. *)
#[local] Instance small_arena : Arena.
Proof. refine {| lo := 8192; hi := 12288; free_list := 4096 |}; lia. Defined.

Definition fresh : heap :=
  match heap_init free_list lo (hi - lo) blank with Some (_, s) => s | None => blank end.

(** 100 bytes at alignment 16, then 200 bytes at alignment 64. *)
Definition alloc_in (n al : Z) (s : heap) : Z * heap :=
  match heap_alloc free_list n al s with Some (p, s') => (p, s') | None => (0, s) end.
Definition first_ptr : Z := (alloc_in 100 16 fresh).1.
Definition one : heap := (alloc_in 100 16 fresh).2.
Definition first_alloc : alloc := Alloc first_ptr (mem one (as_ptr first_ptr)) (mem one (as_size first_ptr)).

Lemma fresh_inv : hinv [] fresh.
Proof.
  destruct (heap_init_ok blank) as (s' & E & V & _);
    [apply ref_empty_ok|done|reflexivity|reflexivity|vm_compute; discriminate|].
  unfold fresh. by rewrite E.
Qed.

Lemma small_align k : 0 <= k < 31 -> align_ok (2 ^ k).
Proof. intros Hk. right. exists k. split_and!; [done|apply Hk..|vm_compute; discriminate]. Qed.

Lemma one_inv : hinv [first_alloc] one.
Proof.
  destruct (wp_heap_exists _ _ _ (wp_heap_alloc 100 16 [] fresh fresh_inv ltac:(lia) (small_align 4 ltac:(lia))))
    as (p & s' & E & s1 & _ & _ & _ & H).
  assert (Ep : p = first_ptr /\ s' = one) by (unfold first_ptr, one, alloc_in; by rewrite E).
  destruct Ep as [-> ->]. destruct H as [(Hp & _)|(c & l & _ & _ & V)]; [by vm_compute in Hp|].
  pose proof (hc_hdr _ _ _ (hv_core _ _ V)) as Hh. apply Forall_cons in Hh as [[_ H2 H3 _] _].
  unfold first_alloc. cbn [a_ptr a_chunk a_size] in *. rewrite H2, H3. exact V.
Qed.

Lemma heap_init_spec_witness :
  exists s', heap_init free_list lo (hi - lo) blank = Some (tt, s') /\ hinv [] s' /\
    free_blocks s' = [(lo, hi - lo)] /\ remaining s' = hi - lo.
Proof.
  apply heap_init_spec; [apply ref_empty_ok|done|reflexivity|reflexivity|].
  vm_compute. discriminate.
Defined.

Lemma heap_alloc_spec_witness :
  exists ptr s', heap_alloc free_list 200 64 one = Some (ptr, s') /\
    (ptr = 0 /\ hinv [first_alloc] s' /\ (forall b, b ∈ free_blocks s' -> b.2 < walk_size 200 64) \/
     exists c l, hinv (Alloc ptr c l :: [first_alloc]) s' /\ 0 < ptr /\ c + 24 <= ptr /\ ptr + 200 <= c + l /\
       ptr mod 8 = 0 /\ (0 < 64 -> ptr mod 64 = 0) /\
       forall x, covers (free_blocks one ++ pending one) x <-> inside (c, l) x \/ covers (free_blocks s') x).
Proof. apply heap_alloc_spec; [exact one_inv|lia|apply (small_align 6); lia]. Defined.

Lemma heap_free_spec_witness :
  exists s', heap_free free_list (a_ptr first_alloc) one = Some (tt, s') /\ hinv [] s' /\
    free_blocks s' = insert_block (a_block first_alloc) (free_blocks one) /\
    (forall x, covers (free_blocks s') x <-> inside (a_block first_alloc) x \/ covers (free_blocks one) x) /\
    remaining s' = remaining one + a_size first_alloc.
Proof. apply heap_free_spec, one_inv. Defined.

Lemma heap_alloc_free_roundtrip_witness :
  exists s2, heap_free free_list first_ptr one = Some (tt, s2) /\ hinv [] s2 /\
    free_blocks s2 = free_blocks fresh /\ remaining s2 = remaining fresh.
Proof.
  apply (heap_alloc_free_roundtrip 100 16 [] fresh).
  - exact fresh_inv.
  - vm_compute. reflexivity.
  - lia.
  - apply (small_align 4). lia.
  - assert (H : heap_alloc free_list 100 16 fresh <> None) by (vm_compute; discriminate).
    unfold first_ptr, one, alloc_in. destruct (heap_alloc free_list 100 16 fresh) as [[p s']|]; [reflexivity|].
    destruct (H eq_refl).
Defined.

Lemma heap_delayed_free_spec_witness :
  exists s1 s2 st, heap_delayed_free (a_ptr first_alloc) one = Some (tt, s1) /\ hinv [] s1 /\
    free_blocks s1 = free_blocks one /\
    heap_get_stats free_list s1 = Some (st, s2) /\ hinv [] s2 /\
    (forall x, covers (free_blocks s2) x <->
               inside (a_block first_alloc) x \/ covers (free_blocks one ++ pending one) x) /\
    heap_free_bytes st = total (free_blocks s2) /\ remaining s2 = heap_free_bytes st /\
    (forall b, b ∈ free_blocks s2 -> b.2 <= heap_max_chunk st).
Proof. apply heap_delayed_free_spec, one_inv. Defined.

Lemma heap_alloc_wraps_witness :
  exists ptr s' c l, heap_alloc free_list (2 ^ 64 - 8) 0 fresh = Some (ptr, s') /\
    hinv (Alloc ptr c l :: []) s' /\ c < ptr /\ c + l <= hi < ptr + (2 ^ 64 - 8).
Proof.
  apply heap_alloc_wraps.
  - exact fresh_inv.
  - vm_compute. reflexivity.
  - vm_compute. discriminate.
  - lia.
Defined.

End witnesses.

Section above_4g.
#[local] Existing Instance ref_ops.

(** the alignment mask is 32 bits wide: on a heap at 4 GB an aligned
    request returns a pointer below the heap, and the header is written there. *)
Theorem heap_alloc_above_4g :
  exists s s' ptr, heap_init 4096 (2 ^ 32) 65536 (Heap 0 0 0 0 false ref_empty (fun _ => 0)) = Some (tt, s) /\
    heap_alloc 4096 100 16 s = Some (ptr, s') /\ 0 < ptr < 2 ^ 32 /\
    mem s' (as_magic ptr) = HEAP_MAGIC.
Proof.
  eexists _, _, _. split; [vm_compute; reflexivity|].
  split; [vm_compute; reflexivity|]. split; [|vm_compute; reflexivity]. vm_compute. split; reflexivity.
Qed.

End above_4g.
