(* ===== verification/Mem.v ===== *)
(** * Byte-addressed memory and the [mem*] routines of lib/libc/string

    A memory is a finite map from addresses to bytes; an access to an address
    outside it is undefined and panics.  [ld]/[st] are the byte accesses of the
    code and [ld64]/[st64] its accesses through [word *], which additionally
    require an address aligned to eight bytes.  The module holds [memcpy],
    [memmove], [memset], [memcmp], [memchr], [memscan], [bcopy] and [bzero] as
    they are written, with [int] and [size_t] arithmetic at their widths, and
    the lemmas on sequences of bytes that the string routines share. *)

From S2P Require Import Prelude.
Local Open Scope lk_scope.

Abbreviation mem := (gmap Z Z).

Definition ld (a : Z) : M mem Z := getopt (fun m => m !! a).
Definition st (a v : Z) : M mem unit :=
  let* _ := ld a in modify (fun m => <[a := u8 v]> m).

(** ** Little-endian words *)

Fixpoint le_bytes (n : nat) (v : Z) : list Z :=
  match n with O => [] | S n' => u8 v :: le_bytes n' (v / 2 ^ 8) end.

Fixpoint ld_list (n : nat) (a : Z) : M mem (list Z) :=
  match n with
  | O => ret []
  | S n' => let* b := ld a in let* l := ld_list n' (a + 1) in ret (b :: l)
  end.

Fixpoint st_list (a : Z) (l : list Z) : M mem unit :=
  match l with [] => ret tt | b :: l' => st a b ;;; st_list (a + 1) l' end.

Definition lsize : Z := 8.
Definition lmask : Z := lsize - 1.

Definition ld64 (a : Z) : M mem Z :=
  assert_ (Z.land a lmask =? 0) ;;;
  let* l := ld_list 8 a in ret (le_value l).
Definition st64 (a v : Z) : M mem unit :=
  assert_ (Z.land a lmask =? 0) ;;; st_list a (le_bytes 8 v).

(** ** Copying loops

    Each returns the two pointers where the loop leaves them. *)

(** [for (; len > 0; len--) *d++ = *s++;] *)
Fixpoint byte_up (len : nat) (d s : Z) : M mem (Z * Z) :=
  match len with
  | O => ret (d, s)
  | S len' => let* b := ld s in st d b ;;; byte_up len' (d + 1) (s + 1)
  end.

(** [for (; len > 0; len--) { *(word * )d = *(word * )s; d += lsize; s += lsize; }] *)
Fixpoint word_up (len : nat) (d s : Z) : M mem (Z * Z) :=
  match len with
  | O => ret (d, s)
  | S len' =>
      let* w := ld64 s in st64 d w ;;; word_up len' (d + lsize) (s + lsize)
  end.

(** [for (; len > 0; len--) *--d = *--s;] *)
Fixpoint byte_down (len : nat) (d s : Z) : M mem (Z * Z) :=
  match len with
  | O => ret (d, s)
  | S len' =>
      let* b := ld (s - 1) in st (d - 1) b ;;; byte_down len' (d - 1) (s - 1)
  end.

Fixpoint word_down (len : nat) (d s : Z) : M mem (Z * Z) :=
  match len with
  | O => ret (d, s)
  | S len' =>
      let* w := ld64 (s - lsize) in
      st64 (d - lsize) w ;;; word_down len' (d - lsize) (s - lsize)
  end.

(** An [int] loop counter that starts at [z]. *)
Definition trips (z : Z) : nat := Z.to_nat (s32 z).

(** The part of [memcpy] and of the ascending half of [memmove] that follows
    the early return: their text is the same. *)
Definition copy_up (dest src count : Z) : M mem unit :=
  let* (d, s, count) :=
    (if negb (Z.land (Z.lor dest src) lmask =? 0) then
       let len :=
         if negb (Z.land (Z.lxor dest src) lmask =? 0) || (count <? lsize)
         then s32 count
         else s32 (lsize - Z.land dest lmask) in
       let* (d, s) := byte_up (Z.to_nat len) dest src in
       ret (d, s, u64 (count - len))
     else ret (dest, src, count)) in
  let* (d, s) := word_up (trips (count / lsize)) d s in
  byte_up (trips (Z.land count lmask)) d s ;;; ret tt.

Definition memcpy (dest src count : Z) : M mem Z :=
  if (count =? 0) || (dest =? src) then ret dest
  else copy_up dest src count ;;; ret dest.

Definition copy_down (dest src count : Z) : M mem unit :=
  let d := dest + count in
  let s := src + count in
  let* (d, s, count) :=
    (if negb (Z.land (Z.lor d s) lmask =? 0) then
       let len :=
         if negb (Z.land (Z.lxor d s) lmask =? 0) || (count <=? lsize)
         then s32 count
         else s32 (Z.land d lmask) in
       let* (d, s) := byte_down (Z.to_nat len) d s in
       ret (d, s, u64 (count - len))
     else ret (d, s, count)) in
  let* (d, s) := word_down (trips (count / lsize)) d s in
  byte_down (trips (Z.land count lmask)) d s ;;; ret tt.

Definition memmove (dest src count : Z) : M mem Z :=
  if (count =? 0) || (dest =? src) then ret dest
  else
    (if s64 dest <? s64 src then copy_up dest src count
     else copy_down dest src count) ;;;
    ret dest.

Definition bcopy (src dest count : Z) : M mem unit := memcpy dest src count ;;; ret tt.

(** ** Filling *)

(** [for (; len > 0; len--) *xs++ = c;] *)
Fixpoint byte_fill (len : nat) (xs c : Z) : M mem Z :=
  match len with
  | O => ret xs
  | S len' => st xs c ;;; byte_fill len' (xs + 1) c
  end.

Fixpoint word_fill (len : nat) (xs cc : Z) : M mem Z :=
  match len with
  | O => ret xs
  | S len' => st64 xs cc ;;; word_fill len' (xs + lsize) cc
  end.

(** [cc |= cc << 8; cc |= cc << 16;] on an [int]. *)
Definition spread (c : Z) : Z :=
  let cc := Z.land c 255 in
  let cc := Z.lor cc (s32 (Z.shiftl cc 8)) in
  Z.lor cc (s32 (Z.shiftl cc 16)).

Definition memset (s c count : Z) : M mem Z :=
  let xs := s in
  let len := Z.land (u64 (- s)) lmask in
  let* (xs, count) :=
    (if len <? count then
       let count := count - len in
       let cc := spread c in
       let* xs := byte_fill (Z.to_nat len) xs c in
       let* xs := word_fill (Z.to_nat (count / lsize)) xs cc in
       ret (xs, Z.land count lmask)
     else ret (xs, count)) in
  byte_fill (Z.to_nat count) xs c ;;; ret s.

Definition bzero (dst count : Z) : M mem unit := memset dst 0 count ;;; ret tt.

(** ** Searching and comparing *)

Fixpoint memcmp_loop (count : nat) (su1 su2 res : Z) : M mem Z :=
  match count with
  | O => ret res
  | S count' =>
      let* a := ld su1 in
      let* b := ld su2 in
      let res := s8 (a - b) in
      if negb (res =? 0) then ret res else memcmp_loop count' (su1 + 1) (su2 + 1) res
  end.
Definition memcmp (cs ct count : Z) : M mem Z := memcmp_loop (Z.to_nat count) cs ct 0.

(** [NULL] is the address 0. *)
Fixpoint memchr_loop (len : nat) (b x : Z) : M mem Z :=
  match len with
  | O => ret 0
  | S len' => let* v := ld b in if v =? x then ret b else memchr_loop len' (b + 1) x
  end.
Definition memchr (buf c len : Z) : M mem Z := memchr_loop (Z.to_nat len) buf (Z.land c 255).

Fixpoint memscan_loop (size : nat) (p c : Z) : M mem Z :=
  match size with
  | O => ret p
  | S size' => let* v := ld p in if v =? c then ret p else memscan_loop size' (p + 1) c
  end.
Definition memscan (addr c size : Z) : M mem Z := memscan_loop (Z.to_nat size) addr c.
