(* ===== verification/MemSpec.v ===== *)
(** * Sequences of bytes in memory, and what the [mem*] routines compute

    [holds m a l] says that the bytes [l] are stored at [a]; [store m a l] is
    the memory after they have been written there.  Each routine of Mem is
    given its result as an equation between memories: the copying loops in
    either direction, the two halves of [memmove], [memset] and the searches. *)

From S2P Require Import Prelude Mem.
Local Open Scope lk_scope.

(** ** Sequences of bytes *)

Abbreviation zlen l := (Z.of_nat (length l)).

Definition byte (b : Z) : Prop := 0 <= b < 2 ^ 8.

Fixpoint holds (m : mem) (a : Z) (l : list Z) : Prop :=
  match l with [] => True | b :: l' => m !! a = Some b /\ holds m (a + 1) l' end.

Fixpoint store (m : mem) (a : Z) (l : list Z) : mem :=
  match l with [] => m | b :: l' => store (<[a := b]> m) (a + 1) l' end.

(** Every address of [a .. a + n) can be accessed. *)
Definition mapped (m : mem) (a n : Z) : Prop := forall x, a <= x < a + n -> is_Some (m !! x).

(** [a .. a + n) and [b .. b + k) have no address in common. *)
Definition separate (a n b k : Z) : Prop := a + n <= b \/ b + k <= a.

Lemma store_lookup m a l x :
  store m a l !! x =
  if decide (a <= x < a + zlen l) then l !! Z.to_nat (x - a) else m !! x.
Proof.
  revert m a. induction l as [|b l IH]; intros m a; cbn [store length].
  { rewrite decide_False by lia. done. }
  rewrite IH. destruct (decide (x = a)) as [->|].
  { rewrite decide_False, decide_True by lia. rewrite lookup_insert_eq.
    by replace (Z.to_nat (a - a)) with 0%nat by lia. }
  rewrite lookup_insert_ne by done. destruct (decide (a + 1 <= x < _)).
  - rewrite decide_True by lia. by replace (Z.to_nat (x - a)) with (S (Z.to_nat (x - (a + 1)))) by lia.
  - rewrite decide_False by lia. done.
Qed.

Lemma holds_lookup m a l :
  holds m a l <-> forall x, a <= x < a + zlen l -> m !! x = l !! Z.to_nat (x - a).
Proof.
  revert a. induction l as [|b l IH]; intros a; cbn [holds length]; [naive_solver lia|].
  rewrite IH. split.
  - intros [Hb Hl] x Hx. destruct (decide (x = a)) as [->|].
    { by replace (Z.to_nat (a - a)) with 0%nat by lia. }
    rewrite Hl by lia. by replace (Z.to_nat (x - a)) with (S (Z.to_nat (x - (a + 1)))) by lia.
  - intros Hl. split.
    { rewrite Hl by lia. by replace (Z.to_nat (a - a)) with 0%nat by lia. }
    intros x Hx. rewrite Hl by lia.
    by replace (Z.to_nat (x - a)) with (S (Z.to_nat (x - (a + 1)))) by lia.
Qed.

Lemma holds_app m a l1 l2 : holds m a (l1 ++ l2) <-> holds m a l1 /\ holds m (a + zlen l1) l2.
Proof.
  revert a. induction l1 as [|b l1 IH]; intros a; cbn [holds app length].
  { rewrite Z.add_0_r. naive_solver. }
  rewrite IH. replace (a + 1 + zlen l1) with (a + Z.of_nat (S (length l1))) by lia. naive_solver.
Qed.

Lemma holds_ext m m' a l :
  holds m a l -> (forall x, a <= x < a + zlen l -> m' !! x = m !! x) -> holds m' a l.
Proof. rewrite !holds_lookup. intros Hm He x Hx. rewrite He by done. by apply Hm. Qed.

Lemma holds_store m a l : holds (store m a l) a l.
Proof. rewrite holds_lookup. intros x Hx. by rewrite store_lookup, decide_True. Qed.

Lemma holds_store_ne m a l b l' :
  separate a (zlen l) b (zlen l') -> holds m b l' -> holds (store m a l) b l'.
Proof.
  intros Hs Hh. apply holds_ext with m; [done|]. intros x Hx.
  rewrite store_lookup, decide_False; [done|]. unfold separate in Hs. lia.
Qed.

Lemma holds_mapped m a l : holds m a l -> mapped m a (zlen l).
Proof.
  intros Hh x Hx. rewrite holds_lookup in Hh. rewrite Hh by lia.
  apply lookup_lt_is_Some. lia.
Qed.

Lemma mapped_sub m a n b k : mapped m a n -> a <= b -> b + k <= a + n -> mapped m b k.
Proof. intros Hm ?? x Hx. apply Hm. lia. Qed.

Lemma mapped_store m a l b n : mapped m b n -> mapped (store m a l) b n.
Proof.
  intros Hm x Hx. rewrite store_lookup. case_decide; [|by apply Hm].
  apply lookup_lt_is_Some. lia.
Qed.

Lemma mapped_insert m a v b n : mapped m b n -> mapped (<[a := v]> m) b n.
Proof. intros Hm. exact (mapped_store m a [v] b n Hm). Qed.

Lemma store_app m a l1 l2 : store m a (l1 ++ l2) = store (store m a l1) (a + zlen l1) l2.
Proof.
  revert m a. induction l1 as [|b l1 IH]; intros m a; cbn [store app length].
  { by rewrite Z.add_0_r. }
  rewrite IH. f_equal. lia.
Qed.

(** Writes to separate ranges commute. *)
Lemma store_comm m a l b l' :
  separate a (zlen l) b (zlen l') -> store (store m a l) b l' = store (store m b l') a l.
Proof.
  intros Hs. apply map_eq. intros x. rewrite !store_lookup. unfold separate in Hs.
  repeat case_decide; first [done|lia].
Qed.

(** Writing back what is there changes nothing. *)
Lemma store_id m a l : holds m a l -> store m a l = m.
Proof.
  intros Hh. apply map_eq. intros x. rewrite store_lookup. case_decide; [|done].
  symmetry. by apply holds_lookup.
Qed.

Lemma mapped_holds m a n : 0 <= n -> mapped m a n -> exists l, zlen l = n /\ holds m a l.
Proof.
  intros Hn. revert a. pattern n. apply natlike_ind; [..|done].
  - intros a _. by exists [].
  - clear n Hn. intros n Hn IH a Hm.
    destruct (IH (a + 1)) as (l & Hl & Hh); [apply mapped_sub with a (Z.succ n); [done|lia..]|].
    destruct (Hm a) as [b Hb]; [lia|]. exists (b :: l). split; [cbn [length]; lia|done].
Qed.

(** ** Byte and word accesses *)

Lemma ld_run m a b : m !! a = Some b -> ld a m = Some (b, m).
Proof. unfold ld, getopt. by intros ->. Qed.

Lemma st_run m a v : is_Some (m !! a) -> st a v m = Some (tt, <[a := u8 v]> m).
Proof. intros [b Hb]. unfold st. by rewrite (bind_some _ _ _ _ _ (ld_run _ _ _ Hb)). Qed.

Lemma ld_list_run m a l : holds m a l -> ld_list (length l) a m = Some (l, m).
Proof.
  revert a. induction l as [|b l IH]; intros a; [done|]. intros [Hb Hl]. cbn [length ld_list].
  rewrite (bind_some _ _ _ _ _ (ld_run _ _ _ Hb)).
  by rewrite (bind_some _ _ _ _ _ (IH _ Hl)).
Qed.

Lemma st_list_run m a l :
  mapped m a (zlen l) -> st_list a l m = Some (tt, store m a (map u8 l)).
Proof.
  revert m a. induction l as [|b l IH]; intros m a Hm; [done|]. cbn [length] in Hm.
  cbn [st_list map store].
  rewrite (bind_some _ _ _ _ _ (st_run m a b (Hm a ltac:(lia)))). apply IH.
  apply mapped_insert. apply mapped_sub with a (Z.of_nat (S (length l))); [done|lia..].
Qed.

Lemma land_lmask a : Z.land a lmask = a mod 8.
Proof. exact (land_mask a 3 ltac:(lia)). Qed.

Lemma lor_aligned a b : Z.land (Z.lor a b) lmask = 0 <-> a mod 8 = 0 /\ b mod 8 = 0.
Proof. by rewrite Z.land_lor_distr_l, !land_lmask, Z.lor_eq_0_iff. Qed.

Lemma lxor_aligned a b : Z.land (Z.lxor a b) lmask = 0 <-> a mod 8 = b mod 8.
Proof.
  rewrite <- !land_lmask.
  assert (E : Z.land (Z.lxor a b) lmask = Z.lxor (Z.land a lmask) (Z.land b lmask)).
  { apply Z.bits_inj'. intros i Hi. rewrite !Z.lxor_spec, !Z.land_spec, Z.lxor_spec.
    by destruct (Z.testbit a i), (Z.testbit b i), (Z.testbit lmask i). }
  rewrite E. apply Z.lxor_eq_0_iff.
Qed.

Lemma le_bytes_value l : Forall byte l -> le_bytes (length l) (le_value l) = l.
Proof.
  induction 1 as [|b l Hb Hl IH]; [done|]. cbn [length le_bytes le_value]. unfold byte in Hb.
  f_equal.
  - unfold u8. rewrite (Z.mul_comm (2 ^ 8)), Z.mod_add by lia. by apply Z.mod_small.
  - rewrite (Z.mul_comm (2 ^ 8)), Z.div_add, (Z.div_small b) by lia. exact IH.
Qed.

Lemma le_bytes_length n v : length (le_bytes n v) = n.
Proof. revert v. induction n; intros v; cbn; [done|]. by f_equal. Qed.

Lemma le_bytes_u8 n v : map u8 (le_bytes n v) = le_bytes n v.
Proof.
  revert v. induction n as [|n IH]; intros v; [done|]. cbn [le_bytes map]. f_equal; [|apply IH].
  apply u8_small, u8_range.
Qed.

Lemma map_u8 l : Forall byte l -> map u8 l = l.
Proof. induction 1 as [|b l Hb Hl IH]; [done|]. cbn. f_equal; [by apply u8_small|done]. Qed.

Lemma ld64_run m a l :
  a mod 8 = 0 -> length l = 8%nat -> holds m a l -> ld64 a m = Some (le_value l, m).
Proof.
  intros Ha Hl Hh. unfold ld64. rewrite land_lmask, Ha, Z.eqb_refl.
  cbn [assert_]. rewrite (bind_some _ _ _ tt m) by done. rewrite <- Hl.
  by rewrite (bind_some _ _ _ _ _ (ld_list_run _ _ _ Hh)).
Qed.

Lemma st64_run m a v :
  a mod 8 = 0 -> mapped m a 8 -> st64 a v m = Some (tt, store m a (le_bytes 8 v)).
Proof.
  intros Ha Hm. unfold st64. rewrite land_lmask, Ha, Z.eqb_refl. cbn [assert_].
  rewrite (bind_some _ _ _ tt m) by done.
  rewrite st_list_run by (by rewrite le_bytes_length). by rewrite le_bytes_u8.
Qed.

(** ** The copying loops *)

(** An ascending copy is right when the destination does not start inside the
    source, a descending one when the source does not start inside the
    destination. *)
Definition up_ok (d s n : Z) : Prop := d <= s \/ s + n <= d.
Definition down_ok (d s n : Z) : Prop := s <= d \/ d + n <= s.

Lemma u8_byte b : byte b -> u8 b = b.
Proof. apply u8_small. Qed.

Lemma byte_up_run m d s l :
  holds m s l -> Forall byte l -> mapped m d (zlen l) -> up_ok d s (zlen l) ->
  byte_up (length l) d s m = Some ((d + zlen l, s + zlen l), store m d l).
Proof.
  revert m d s. induction l as [|b l IH]; intros m d s.
  { intros. cbn. by rewrite !Z.add_0_r. }
  intros [Hb Hl] HB Hm Hu. apply Forall_cons in HB as [HBb HBl]. cbn [length byte_up store] in *.
  unfold up_ok in *.
  rewrite (bind_some _ _ _ _ _ (ld_run _ _ _ Hb)).
  rewrite (bind_some _ _ _ _ _ (st_run m d b (Hm d ltac:(lia)))), u8_byte by done.
  rewrite IH; [do 3 f_equal; lia| |done|..].
  - apply (holds_store_ne m d [b]); [|done]. unfold separate. cbn [length]. lia.
  - apply mapped_insert. apply mapped_sub with d (Z.of_nat (S (length l))); [done|lia..].
  - lia.
Qed.

Lemma split8 (l : list Z) n :
  length l = (8 * S n)%nat ->
  exists w l', l = w ++ l' /\ length w = 8%nat /\ length l' = (8 * n)%nat.
Proof.
  intros Hl. exists (take 8 l), (drop 8 l). rewrite take_drop, length_take, length_drop. split; [done|lia].
Qed.

Lemma word_up_run m d s l n :
  length l = (8 * n)%nat ->
  d mod 8 = 0 -> s mod 8 = 0 -> holds m s l -> Forall byte l ->
  mapped m d (zlen l) -> up_ok d s (zlen l) ->
  word_up n d s m = Some ((d + zlen l, s + zlen l), store m d l).
Proof.
  revert m d s l. induction n as [|n IH]; intros m d s l Hlen Hd Hs Hh HB Hm Hu.
  { destruct l; [|cbn in Hlen; lia]. cbn. by rewrite !Z.add_0_r. }
  apply split8 in Hlen as (w & l' & -> & Hw & Hl'). rewrite length_app in *.
  apply holds_app in Hh as [Hhw Hhl]. apply Forall_app in HB as [HBw HBl].
  rewrite Hw in *. unfold up_ok in *. cbn [word_up].
  rewrite (bind_some _ _ _ _ _ (ld64_run m s w Hs Hw Hhw)).
  rewrite (bind_some _ _ _ _ _ (st64_run m d _ Hd (mapped_sub _ _ _ d 8 Hm ltac:(lia) ltac:(lia)))).
  rewrite <- Hw, le_bytes_value by done. unfold lsize.
  rewrite (IH _ _ _ l'); [|done|by rewrite Zplus_mod, Hd|by rewrite Zplus_mod, Hs|..].
  - rewrite store_app, Hw. do 3 f_equal; lia.
  - apply holds_store_ne; [|by apply Hhl]. unfold separate. rewrite Hw. lia.
  - done.
  - apply mapped_store. apply mapped_sub with d (Z.of_nat (8 + length l')); [done|lia..].
  - lia.
Qed.

Lemma byte_down_run m d s l :
  holds m (s - zlen l) l -> Forall byte l -> mapped m (d - zlen l) (zlen l) ->
  down_ok (d - zlen l) (s - zlen l) (zlen l) ->
  byte_down (length l) d s m = Some ((d - zlen l, s - zlen l), store m (d - zlen l) l).
Proof.
  revert m d s. induction l as [|b l IH] using rev_ind; intros m d s.
  { intros. cbn. by rewrite !Z.sub_0_r. }
  rewrite length_app, Nat.add_1_r. intros Hh HB Hm Hu. unfold down_ok in *.
  apply holds_app in Hh as [Hl [Hb _]]. apply Forall_app in HB as [HBl [HBb _]%Forall_cons].
  cbn [byte_down] in *.
  replace (s - Z.of_nat (S (length l)) + zlen l) with (s - 1) in Hb by lia.
  rewrite (bind_some _ _ _ _ _ (ld_run _ _ _ Hb)).
  rewrite (bind_some _ _ _ _ _ (st_run m (d - 1) b (Hm (d - 1) ltac:(lia)))), u8_byte by done.
  replace (s - Z.of_nat (S (length l))) with (s - 1 - zlen l) in * by lia.
  replace (d - Z.of_nat (S (length l))) with (d - 1 - zlen l) in * by lia.
  rewrite IH; [| |done|..].
  - rewrite store_app. do 2 f_equal. change (<[d - 1:=b]> m) with (store m (d - 1) [b]).
    rewrite store_comm; [f_equal; lia|]. unfold separate. cbn [length]. lia.
  - apply (holds_store_ne m (d - 1) [b]); [|done]. unfold separate. cbn [length]. lia.
  - apply mapped_insert. apply mapped_sub with (d - 1 - zlen l) (Z.of_nat (S (length l))); [done|lia..].
  - lia.
Qed.

Lemma split8_last (l : list Z) n :
  length l = (8 * S n)%nat ->
  exists l' w, l = l' ++ w /\ length w = 8%nat /\ length l' = (8 * n)%nat.
Proof.
  intros Hl. exists (take (8 * n) l), (drop (8 * n) l).
  rewrite take_drop, length_take, length_drop. split; [done|lia].
Qed.

Lemma word_down_run m d s l n :
  length l = (8 * n)%nat ->
  d mod 8 = 0 -> s mod 8 = 0 -> holds m (s - zlen l) l -> Forall byte l ->
  mapped m (d - zlen l) (zlen l) -> down_ok (d - zlen l) (s - zlen l) (zlen l) ->
  word_down n d s m = Some ((d - zlen l, s - zlen l), store m (d - zlen l) l).
Proof.
  revert m d s l. induction n as [|n IH]; intros m d s l Hlen Hd Hs Hh HB Hm Hu.
  { destruct l; [|cbn in Hlen; lia]. cbn. by rewrite !Z.sub_0_r. }
  apply split8_last in Hlen as (l' & w & -> & Hw & Hl'). rewrite length_app in *.
  apply holds_app in Hh as [Hhl Hhw]. apply Forall_app in HB as [HBl HBw].
  rewrite Hw in *. unfold down_ok in *. cbn [word_down]. unfold lsize.
  assert (Hd8 : (d - 8) mod 8 = 0) by (by rewrite Zminus_mod, Hd).
  assert (Hs8 : (s - 8) mod 8 = 0) by (by rewrite Zminus_mod, Hs).
  replace (s - Z.of_nat (length l' + 8) + zlen l') with (s - 8) in Hhw by lia.
  rewrite (bind_some _ _ _ _ _ (ld64_run m (s - 8) w Hs8 Hw Hhw)).
  rewrite (bind_some _ _ _ _ _ (st64_run m (d - 8) _ Hd8 (mapped_sub _ _ _ (d - 8) 8 Hm ltac:(lia) ltac:(lia)))).
  rewrite <- Hw, le_bytes_value by done. rewrite Hw.
  replace (s - Z.of_nat (length l' + 8)) with (s - 8 - zlen l') in * by lia.
  replace (d - Z.of_nat (length l' + 8)) with (d - 8 - zlen l') in * by lia.
  rewrite (IH _ _ _ l'); [|done|done|done|..].
  - rewrite store_app. do 2 f_equal. rewrite store_comm; [f_equal; lia|].
    unfold separate. rewrite Hw. lia.
  - apply holds_store_ne; [|done]. unfold separate. rewrite Hw. lia.
  - done.
  - apply mapped_store. apply mapped_sub with (d - 8 - zlen l') (Z.of_nat (length l' + 8)); [done|lia..].
  - lia.
Qed.

(** ** [memcpy] and [memmove] *)

Lemma trips_len (l : list Z) z : z = zlen l -> zlen l < 2 ^ 31 -> trips z = length l.
Proof. intros -> ?. unfold trips. rewrite s32_small by lia. lia. Qed.

(** A sequence as whole words followed by fewer than eight bytes, and as fewer
    than eight bytes followed by whole words. *)
Lemma words_tail (l : list Z) :
  exists w t, l = w ++ t /\ length w = (8 * (length l / 8))%nat /\ length t = (length l mod 8)%nat.
Proof.
  exists (take (8 * (length l / 8)) l), (drop (8 * (length l / 8)) l).
  pose proof (Nat.div_mod_eq (length l) 8). rewrite take_drop, length_take, length_drop.
  split; [done|lia].
Qed.

Lemma head_words (l : list Z) :
  exists t w, l = t ++ w /\ length w = (8 * (length l / 8))%nat /\ length t = (length l mod 8)%nat.
Proof.
  exists (take (length l mod 8) l), (drop (length l mod 8) l).
  pose proof (Nat.div_mod_eq (length l) 8). rewrite take_drop, length_take, length_drop.
  split; [done|lia].
Qed.

Lemma trips_words n : Z.of_nat n < 2 ^ 31 -> trips (Z.of_nat n / lsize) = (n / 8)%nat.
Proof.
  intros. unfold trips, lsize. pose proof (Z.div_lt_upper_bound (Z.of_nat n) 8 (2 ^ 31)).
  pose proof (Z.div_pos (Z.of_nat n) 8). rewrite s32_small by lia.
  change 8 with (Z.of_nat 8). rewrite <- Nat2Z.inj_div. lia.
Qed.

Lemma trips_rest n : trips (Z.land (Z.of_nat n) lmask) = (n mod 8)%nat.
Proof.
  rewrite land_lmask. unfold trips. pose proof (Z.mod_pos_bound (Z.of_nat n) 8).
  rewrite s32_small by lia. change 8 with (Z.of_nat 8). rewrite <- Nat2Z.inj_mod. lia.
Qed.

Lemma rest_up_run m d s l :
  (l = [] \/ d mod 8 = 0 /\ s mod 8 = 0) -> zlen l < 2 ^ 31 ->
  holds m s l -> Forall byte l -> mapped m d (zlen l) -> up_ok d s (zlen l) ->
  (let* (d, s) := word_up (trips (zlen l / lsize)) d s in
   byte_up (trips (Z.land (zlen l) lmask)) d s ;;; ret tt) m = Some (tt, store m d l).
Proof.
  intros [->|[Hd Hs]] Hn Hh HB Hm Hu; [done|]. rewrite trips_words, trips_rest by done.
  destruct (words_tail l) as (w & t & Hl & Hw & Ht). rewrite <- Ht.
  remember (length l / 8)%nat as k. clear Heqk Ht. subst l. rewrite length_app in *.
  apply holds_app in Hh as [Hhw Hht]. apply Forall_app in HB as [HBw HBt]. unfold up_ok in *.
  rewrite (bind_some _ _ _ _ _ (word_up_run m d s w k Hw Hd Hs Hhw HBw
    (mapped_sub _ _ _ d (zlen w) Hm ltac:(lia) ltac:(lia)) ltac:(unfold up_ok; lia))).
  erewrite bind_some; [by rewrite store_app|]. apply byte_up_run; [|done|..].
  - apply holds_store_ne; [|done]. unfold separate. lia.
  - apply mapped_store. apply mapped_sub with d (Z.of_nat (length w + length t)); [done|lia..].
  - unfold up_ok. lia.
Qed.

Lemma rest_down_run m d s l :
  (l = [] \/ d mod 8 = 0 /\ s mod 8 = 0) -> zlen l < 2 ^ 31 ->
  holds m (s - zlen l) l -> Forall byte l -> mapped m (d - zlen l) (zlen l) ->
  down_ok (d - zlen l) (s - zlen l) (zlen l) ->
  (let* (d, s) := word_down (trips (zlen l / lsize)) d s in
   byte_down (trips (Z.land (zlen l) lmask)) d s ;;; ret tt) m = Some (tt, store m (d - zlen l) l).
Proof.
  intros [->|[Hd Hs]] Hn Hh HB Hm Hu; [done|]. rewrite trips_words, trips_rest by done.
  destruct (head_words l) as (t & w & Hl & Hw & Ht). rewrite <- Ht.
  remember (length l / 8)%nat as k. clear Heqk Ht. subst l. rewrite length_app in *.
  apply holds_app in Hh as [Hht Hhw]. apply Forall_app in HB as [HBt HBw]. unfold down_ok in *.
  replace (s - Z.of_nat (length t + length w)) with (s - zlen w - zlen t) in * by lia.
  replace (d - Z.of_nat (length t + length w)) with (d - zlen w - zlen t) in * by lia.
  replace (s - zlen w - zlen t + zlen t) with (s - zlen w) in Hhw by lia.
  rewrite (bind_some _ _ _ _ _ (word_down_run m d s w k Hw Hd Hs Hhw HBw
    (mapped_sub _ _ _ (d - zlen w) (zlen w) Hm ltac:(lia) ltac:(lia)) ltac:(unfold down_ok; lia))).
  erewrite bind_some.
  2: { apply byte_down_run; [|done|..].
    - apply holds_store_ne; [|done]. unfold separate. lia.
    - apply mapped_store. apply mapped_sub with (d - zlen w - zlen t) (Z.of_nat (length t + length w)); [done|lia..].
    - unfold down_ok. lia. }
  unfold ret. do 2 f_equal. rewrite store_app, store_comm by (unfold separate; lia). f_equal. lia.
Qed.

(** How many bytes the byte mover takes before the word loop. *)
Lemma lead_up d s n len :
  0 <= n < 2 ^ 31 ->
  len = (if negb (Z.land (Z.lxor d s) lmask =? 0) || (n <? lsize)
         then s32 n else s32 (lsize - Z.land d lmask)) ->
  0 <= len <= n /\ (n - len = 0 \/ (d + len) mod 8 = 0 /\ (s + len) mod 8 = 0).
Proof.
  intros Hn ->. rewrite (land_lmask d). pose proof (Z.mod_pos_bound d 8 ltac:(lia)).
  destruct (Z.eqb_spec (Z.land (Z.lxor d s) lmask) 0) as [X|X]; cbn [negb orb]; unfold lsize;
    [|rewrite s32_small by lia; lia].
  apply lxor_aligned in X. destruct (Z.ltb_spec n 8); rewrite s32_small by lia; [lia|].
  split; [lia|right].
  pose proof (Z_div_mod_eq_full d 8). pose proof (Z_div_mod_eq_full s 8).
  split; apply Z.mod_divide; [lia| |lia|].
  - exists (d / 8 + 1). lia.
  - exists (s / 8 + 1). lia.
Qed.

Lemma lead_down d s n len :
  0 <= n < 2 ^ 31 ->
  len = (if negb (Z.land (Z.lxor d s) lmask =? 0) || (n <=? lsize)
         then s32 n else s32 (Z.land d lmask)) ->
  0 <= len <= n /\ (n - len = 0 \/ (d - len) mod 8 = 0 /\ (s - len) mod 8 = 0).
Proof.
  intros Hn ->. rewrite (land_lmask d). pose proof (Z.mod_pos_bound d 8 ltac:(lia)).
  destruct (Z.eqb_spec (Z.land (Z.lxor d s) lmask) 0) as [X|X]; cbn [negb orb]; unfold lsize;
    [|rewrite s32_small by lia; lia].
  apply lxor_aligned in X. destruct (Z.leb_spec n 8); rewrite s32_small by lia; [lia|].
  split; [lia|right]. split; [|rewrite X]; apply sub_mod_mod; lia.
Qed.

Lemma copy_up_run m d s l :
  zlen l < 2 ^ 31 -> holds m s l -> Forall byte l -> mapped m d (zlen l) -> up_ok d s (zlen l) ->
  copy_up d s (zlen l) m = Some (tt, store m d l).
Proof.
  intros Hn Hh HB Hm Hu. unfold copy_up.
  destruct (Z.eqb_spec (Z.land (Z.lor d s) lmask) 0) as [E|E]; cbn [negb].
  { rewrite (bind_some _ _ _ (d, s, zlen l) m) by done.
    apply rest_up_run; [right; by apply lor_aligned|done..]. }
  set (len := if _ || _ then _ else _).
  destruct (lead_up d s (zlen l) len ltac:(lia) eq_refl) as [Hr Ha]. clearbody len.
  assert (exists h t, l = h ++ t /\ zlen h = len) as (h & t & -> & <-).
  { exists (take (Z.to_nat len) l), (drop (Z.to_nat len) l).
    rewrite take_drop, length_take. split; [done|lia]. }
  rewrite Nat2Z.id, length_app in *. unfold up_ok in *.
  apply holds_app in Hh as [Hhh Hht]. apply Forall_app in HB as [HBh HBt].
  erewrite bind_some.
  2: { rewrite (bind_some _ _ _ _ _ (byte_up_run m d s h Hhh HBh
         (mapped_sub _ _ _ d (zlen h) Hm ltac:(lia) ltac:(lia)) ltac:(unfold up_ok; lia))).
       done. }
  rewrite u64_small by lia. replace (Z.of_nat (length h + length t) - zlen h) with (zlen t) in * by lia.
  cbv beta iota. rewrite rest_up_run; [by rewrite store_app| |lia| |done|..].
  - destruct Ha as [Ha|Ha]; [left; destruct t; [done|cbn in Ha; lia]|by right].
  - apply holds_store_ne; [|done]. unfold separate. lia.
  - apply mapped_store. apply mapped_sub with d (Z.of_nat (length h + length t)); [done|lia..].
  - unfold up_ok. lia.
Qed.

Lemma copy_down_run m d s l :
  zlen l < 2 ^ 31 -> holds m s l -> Forall byte l -> mapped m d (zlen l) -> down_ok d s (zlen l) ->
  copy_down d s (zlen l) m = Some (tt, store m d l).
Proof.
  intros Hn Hh HB Hm Hu. unfold copy_down.
  replace (store m d l) with (store m (d + zlen l - zlen l) l) by (f_equal; lia).
  replace s with (s + zlen l - zlen l) in Hh, Hu by lia.
  replace d with (d + zlen l - zlen l) in Hm, Hu by lia.
  generalize dependent (s + zlen l). generalize dependent (d + zlen l). clear d s. intros d Hm s Hh Hu.
  destruct (Z.eqb_spec (Z.land (Z.lor d s) lmask) 0) as [E|E]; cbn [negb].
  { rewrite (bind_some _ _ _ (d, s, zlen l) m) by done.
    apply rest_down_run; [right; by apply lor_aligned|done..]. }
  set (len := if _ || _ then _ else _).
  destruct (lead_down d s (zlen l) len ltac:(lia) eq_refl) as [Hr Ha]. clearbody len.
  assert (exists t h, l = t ++ h /\ zlen h = len) as (t & h & -> & <-).
  { exists (take (length l - Z.to_nat len) l), (drop (length l - Z.to_nat len) l).
    rewrite take_drop, length_drop. split; [done|lia]. }
  rewrite Nat2Z.id, length_app in *. unfold down_ok in *.
  apply holds_app in Hh as [Hht Hhh]. apply Forall_app in HB as [HBt HBh].
  replace (s - Z.of_nat (length t + length h)) with (s - zlen h - zlen t) in * by lia.
  replace (d - Z.of_nat (length t + length h)) with (d - zlen h - zlen t) in * by lia.
  replace (s - zlen h - zlen t + zlen t) with (s - zlen h) in Hhh by lia.
  erewrite bind_some.
  2: { rewrite (bind_some _ _ _ _ _ (byte_down_run m d s h Hhh HBh
         (mapped_sub _ _ _ (d - zlen h) (zlen h) Hm ltac:(lia) ltac:(lia)) ltac:(unfold down_ok; lia))).
       done. }
  rewrite u64_small by lia. replace (Z.of_nat (length t + length h) - zlen h) with (zlen t) in * by lia.
  cbv beta iota. rewrite rest_down_run; [| |lia| |done|..].
  - do 2 f_equal. rewrite store_app, store_comm by (unfold separate; lia). f_equal. lia.
  - destruct Ha as [Ha|Ha]; [left; destruct t; [done|cbn in Ha; lia]|by right].
  - apply holds_store_ne; [|done]. unfold separate. lia.
  - apply mapped_store. apply mapped_sub with (d - zlen h - zlen t) (Z.of_nat (length t + length h)); [done|lia..].
  - unfold down_ok. lia.
Qed.

Lemma memcpy_run m d s l :
  zlen l < 2 ^ 31 -> holds m s l -> Forall byte l -> mapped m d (zlen l) -> up_ok d s (zlen l) ->
  memcpy d s (zlen l) m = Some (d, store m d l).
Proof.
  intros Hn Hh HB Hm Hu. unfold memcpy.
  destruct (Z.eqb_spec (zlen l) 0) as [E|E]; [by destruct l|].
  destruct (Z.eqb_spec d s) as [->|]; cbn [orb]; [by rewrite store_id|].
  by rewrite (bind_some _ _ _ _ _ (copy_up_run m d s l Hn Hh HB Hm Hu)).
Qed.

(** The comparison of [memmove] is made on [long]: it orders the addresses of
    one half of the address space. *)
Definition same_half (a b : Z) : Prop :=
  (0 <= a < 2 ^ 63 /\ 0 <= b < 2 ^ 63) \/ (2 ^ 63 <= a < 2 ^ 64 /\ 2 ^ 63 <= b < 2 ^ 64).

Lemma s64_lt a b : same_half a b -> (s64 a <? s64 b) = (a <? b).
Proof.
  unfold same_half, s64, sgn. intros H.
  rewrite !(Z.mod_small _ (2 ^ 64)) by lia. change (64 - 1) with 63.
  zcases; lia.
Qed.

Lemma memmove_run m d s l :
  zlen l < 2 ^ 31 -> same_half d s -> holds m s l -> Forall byte l -> mapped m d (zlen l) ->
  memmove d s (zlen l) m = Some (d, store m d l).
Proof.
  intros Hn Hsh Hh HB Hm. unfold memmove.
  destruct (Z.eqb_spec (zlen l) 0) as [E|E]; [by destruct l|].
  destruct (Z.eqb_spec d s) as [->|]; cbn [orb]; [by rewrite store_id|].
  rewrite s64_lt by done. destruct (Z.ltb_spec d s).
  - rewrite (bind_some _ _ _ _ _ (copy_up_run m d s l Hn Hh HB Hm ltac:(unfold up_ok; lia))). done.
  - rewrite (bind_some _ _ _ _ _ (copy_down_run m d s l Hn Hh HB Hm ltac:(unfold down_ok; lia))). done.
Qed.

(** ** [memset] *)

Lemma byte_fill_run m xs c n :
  mapped m xs (Z.of_nat n) ->
  byte_fill n xs c m = Some (xs + Z.of_nat n, store m xs (replicate n (u8 c))).
Proof.
  revert m xs. induction n as [|n IH]; intros m xs Hm; cbn [byte_fill].
  { by rewrite Z.add_0_r. }
  rewrite (bind_some _ _ _ _ _ (st_run m xs c (Hm xs ltac:(lia)))).
  rewrite IH; [cbn [replicate store]; do 2 f_equal; lia|].
  apply mapped_insert. apply mapped_sub with xs (Z.of_nat (S n)); [done|lia..].
Qed.

Definition words (k : nat) (w : Z) : list Z := concat (replicate k (le_bytes 8 w)).

Lemma words_length k w : length (words k w) = (8 * k)%nat.
Proof.
  unfold words. induction k as [|k IH]; [done|].
  cbn [replicate concat]. rewrite length_app, IH, le_bytes_length. lia.
Qed.

Lemma words_lookup k w i :
  (i < 8 * k)%nat -> words k w !! i = le_bytes 8 w !! (i mod 8)%nat.
Proof.
  revert i. induction k as [|k IH]; intros i Hi; [lia|]. unfold words. cbn [replicate concat].
  destruct (decide (i < 8)%nat) as [Hlt|Hge].
  - rewrite lookup_app_l by (by rewrite le_bytes_length). by rewrite Nat.mod_small.
  - rewrite lookup_app_r by (rewrite le_bytes_length; lia). rewrite le_bytes_length.
    fold (words k w). rewrite IH by lia. f_equal.
    replace i with (i - 8 + 1 * 8)%nat at 2 by lia. by rewrite Nat.Div0.mod_add.
Qed.

Lemma word_fill_run m xs w k :
  xs mod 8 = 0 -> mapped m xs (8 * Z.of_nat k) ->
  word_fill k xs w m = Some (xs + 8 * Z.of_nat k, store m xs (words k w)).
Proof.
  revert m xs. induction k as [|k IH]; intros m xs Ha Hm; cbn [word_fill].
  { by rewrite Z.add_0_r. }
  rewrite (bind_some _ _ _ _ _ (st64_run m xs w Ha (mapped_sub _ _ _ xs 8 Hm ltac:(lia) ltac:(lia)))).
  unfold lsize. rewrite IH.
  - unfold words. cbn [replicate concat]. rewrite store_app, le_bytes_length.
    do 2 f_equal. lia.
  - by rewrite Zplus_mod, Ha.
  - apply mapped_store. apply mapped_sub with xs (8 * Z.of_nat (S k)); [done|lia..].
Qed.

(** The upper half of the word that [memset] writes is the sign of its lower
    half, an [int]. *)
Definition high_byte (c : Z) : Z := if u8 c <? 128 then 0 else 255.

Lemma le_bytes_spread c :
  le_bytes 8 (spread c) =
  [u8 c; u8 c; u8 c; u8 c; high_byte c; high_byte c; high_byte c; high_byte c].
Proof.
  assert (E : spread c = spread (u8 c)).
  { unfold spread. change 255 with (2 ^ 8 - 1). rewrite !land_mask by lia.
    unfold u8. by rewrite Zmod_mod. }
  unfold high_byte. rewrite E. clear E. pose proof (u8_range c) as Hb. generalize dependent (u8 c).
  intros b Hb.
  assert (T : forallb (fun i => let b := Z.of_nat i in
      bool_decide (le_bytes 8 (spread b) =
        let h := if b <? 128 then 0 else 255 in [b; b; b; b; h; h; h; h])) (seq 0 256) = true)
    by (vm_compute; reflexivity).
  rewrite forallb_forall in T. specialize (T (Z.to_nat b)).
  rewrite Z2Nat.id in T by lia. apply bool_decide_eq_true in T; [exact T|].
  apply in_seq. lia.
Qed.

(** The addresses [memset] writes word by word. *)
Definition up8 (a : Z) : Z := a + (- a) mod 8.
Definition down8 (a : Z) : Z := a - a mod 8.

Definition memset_byte (s c n x : Z) : Z :=
  if (up8 s <=? x) && (x <? down8 (s + n)) && (4 <=? x mod 8) then high_byte c else u8 c.

Lemma store_fill_lookup m a k c x :
  store m a (replicate k (u8 c)) !! x =
  if decide (a <= x < a + Z.of_nat k) then Some (u8 c) else m !! x.
Proof.
  rewrite store_lookup, length_replicate. case_decide; [|done].
  apply lookup_replicate_2. lia.
Qed.

Lemma store_words_lookup m a k c x :
  a mod 8 = 0 ->
  store m a (words k (spread c)) !! x =
  if decide (a <= x < a + 8 * Z.of_nat k)
  then Some (if 4 <=? x mod 8 then high_byte c else u8 c) else m !! x.
Proof.
  intros Ha. rewrite store_lookup, words_length, Nat2Z.inj_mul. change (Z.of_nat 8) with 8.
  case_decide; [|done]. rewrite words_lookup by lia. rewrite le_bytes_spread.
  assert (E : (Z.to_nat (x - a) mod 8)%nat = Z.to_nat (x mod 8)).
  { apply Nat2Z.inj. rewrite Nat2Z.inj_mod, !Z2Nat.id by (try apply Z.mod_pos_bound; lia).
    change (Z.of_nat 8) with 8. by rewrite Zminus_mod, Ha, Z.sub_0_r, Zmod_mod. }
  rewrite E. pose proof (Z.mod_pos_bound x 8 ltac:(lia)).
  assert (Hc : x mod 8 = 0 \/ x mod 8 = 1 \/ x mod 8 = 2 \/ x mod 8 = 3 \/
               x mod 8 = 4 \/ x mod 8 = 5 \/ x mod 8 = 6 \/ x mod 8 = 7) by lia.
  by decompose [or] Hc; match goal with H : x mod 8 = _ |- _ => rewrite H end.
Qed.

Lemma memset_run m s c n :
  0 <= s -> 0 <= n -> s + n <= 2 ^ 64 -> mapped m s n ->
  exists m', memset s c n m = Some (s, m') /\
    forall x, m' !! x = if decide (s <= x < s + n) then Some (memset_byte s c n x) else m !! x.
Proof.
  intros Hs Hn Hsn Hm. unfold memset, memset_byte, up8, down8. rewrite !land_lmask.
  assert (El : u64 (- s) mod 8 = (- s) mod 8).
  { unfold u64. change (2 ^ 64) with (8 * 2 ^ 61). rewrite Z.rem_mul_r by lia.
    by rewrite Z.mul_comm, Z.mod_add, Zmod_mod by lia. }
  unfold lsize. rewrite El. pose proof (Z.mod_pos_bound (- s) 8 ltac:(lia)) as Hb.
  assert (Ha : (s + (- s) mod 8) mod 8 = 0) by (by rewrite Zplus_mod_idemp_r, Z.add_opp_diag_r).
  pose proof (Z.mod_pos_bound (s + n) 8 ltac:(lia)) as Hbn.
  destruct (Z.ltb_spec ((- s) mod 8) n) as [Hlt|Hge].
  2: { rewrite (bind_some _ _ _ (s, n) m) by done. cbv beta iota.
       erewrite bind_some by (apply byte_fill_run; by rewrite Z2Nat.id).
       eexists. split; [done|]. intros x. rewrite store_fill_lookup, Z2Nat.id by done.
       case_decide; [|done]. zcases; cbn [andb]; first [done|lia]. }
  remember ((- s) mod 8) as len eqn:Elen. clear Elen El.
  pose proof (Z_div_mod_eq_full (n - len) 8) as Hdm.
  pose proof (Z.mod_pos_bound (n - len) 8 ltac:(lia)) as Hr.
  assert (Er : (s + n) mod 8 = (n - len) mod 8).
  { replace (s + n) with ((s + len) + (n - len)) by lia. by rewrite Zplus_mod, Ha, Z.add_0_l, Zmod_mod. }
  pose proof (Z.div_pos (n - len) 8 ltac:(lia) ltac:(lia)) as Hq.
  rewrite Er. clear Er Hbn.
  remember ((n - len) mod 8) as r eqn:Hr'. remember ((n - len) / 8) as q eqn:Hq'. clear Hr' Hq'.
  erewrite bind_some.
  2: { erewrite bind_some by (apply byte_fill_run; rewrite Z2Nat.id by lia;
         apply mapped_sub with s n; [done|lia..]).
       rewrite Z2Nat.id by lia.
       erewrite bind_some by (apply word_fill_run; [done|]; apply mapped_store;
         rewrite Z2Nat.id by lia; apply mapped_sub with s n; [done|lia..]).
       done. }
  cbv beta iota. rewrite Z2Nat.id by lia.
  erewrite bind_some by (apply byte_fill_run; do 2 apply mapped_store; rewrite Z2Nat.id by lia;
    apply mapped_sub with s n; [done|lia..]).
  eexists. split; [done|]. intros x.
  rewrite store_fill_lookup, store_words_lookup, store_fill_lookup, !Z2Nat.id by first [done|lia].
  repeat case_decide; try lia; zcases; cbn [andb]; first [done|lia].
Qed.

(** ** Comparing *)

(** The difference of the first bytes that differ, 0 if none do. *)
Fixpoint first_diff (l1 l2 : list Z) : Z :=
  match l1, l2 with
  | a :: l1', b :: l2' => if a =? b then first_diff l1' l2' else a - b
  | _, _ => 0
  end.

Lemma s8_diff a b : byte a -> byte b -> (s8 (a - b) =? 0) = (a =? b).
Proof.
  unfold byte, s8, sgn. intros Ha Hb. change (8 - 1) with 7.
  pose proof (Z_div_mod_eq_full (a - b) (2 ^ 8)).
  pose proof (Z.mod_pos_bound (a - b) (2 ^ 8) ltac:(lia)).
  zcases; first [done|lia].
Qed.

Lemma memcmp_run m a b l1 l2 :
  length l1 = length l2 -> Forall byte l1 -> Forall byte l2 -> holds m a l1 -> holds m b l2 ->
  memcmp a b (zlen l1) m = Some (s8 (first_diff l1 l2), m).
Proof.
  unfold memcmp. rewrite Nat2Z.id. change 0 with (s8 0) at 1. revert a b l2.
  induction l1 as [|x l1 IH]; intros a b [|y l2] Hl H1 H2; try done.
  injection Hl as Hl. apply Forall_cons in H1 as [Hx H1]. apply Forall_cons in H2 as [Hy H2].
  intros [Ha Ha'] [Hb Hb']. cbn [length memcmp_loop].
  rewrite (bind_some _ _ _ _ _ (ld_run _ _ _ Ha)), (bind_some _ _ _ _ _ (ld_run _ _ _ Hb)).
  rewrite s8_diff by done. cbn [first_diff]. destruct (Z.eqb_spec x y) as [->|]; cbn [negb]; [|done].
  rewrite Z.sub_diag. by apply IH.
Qed.

Lemma first_diff_eq l1 l2 : length l1 = length l2 -> (first_diff l1 l2 = 0 <-> l1 = l2).
Proof.
  revert l2. induction l1 as [|a l1 IH]; intros [|b l2] Hl; try done. injection Hl as Hl.
  cbn [first_diff]. destruct (Z.eqb_spec a b) as [->|].
  - rewrite IH by done. split; [by intros ->|by intros [=]].
  - split; [lia|by intros [=]].
Qed.

Lemma first_diff_range l1 l2 :
  Forall byte l1 -> Forall byte l2 -> - 255 <= first_diff l1 l2 <= 255.
Proof.
  intros H1. revert l2. induction H1 as [|a l1 Ha H1 IH]; intros [|b l2] H2; try done.
  apply Forall_cons in H2 as [Hb H2]. cbn [first_diff]. unfold byte in *.
  destruct (Z.eqb_spec a b); [by apply IH|lia].
Qed.

(** What the truncation to [signed char] keeps of a difference of bytes. *)
Lemma s8_sign d : - 255 <= d <= 255 ->
  (s8 d = 0 <-> d = 0) /\ (- 128 <= d <= 127 -> s8 d = d) /\
  (d < - 128 -> 0 < s8 d) /\ (127 < d -> s8 d < 0).
Proof.
  intros Hd. unfold s8, sgn. change (8 - 1) with 7.
  pose proof (Z_div_mod_eq_full d (2 ^ 8)). pose proof (Z.mod_pos_bound d (2 ^ 8) ltac:(lia)).
  zcases; lia.
Qed.

(** ** Searching *)

Fixpoint index_of (x : Z) (l : list Z) : option nat :=
  match l with
  | [] => None
  | y :: l' => if y =? x then Some O else S <$> index_of x l'
  end.

Lemma memchr_run m a c l :
  holds m a l ->
  memchr a c (zlen l) m =
  Some (match index_of (Z.land c 255) l with Some i => a + Z.of_nat i | None => 0 end, m).
Proof.
  unfold memchr. rewrite Nat2Z.id. generalize (Z.land c 255) as x. intros x. revert a.
  induction l as [|y l IH]; intros a; [done|]. intros [Ha Hl]. cbn [length memchr_loop index_of].
  rewrite (bind_some _ _ _ _ _ (ld_run _ _ _ Ha)). destruct (y =? x).
  { by rewrite Z.add_0_r. }
  rewrite IH by done. destruct (index_of x l) as [i|]; cbn; [|done]. do 2 f_equal. lia.
Qed.

Lemma memscan_run m a c l :
  holds m a l ->
  memscan a c (zlen l) m =
  Some (a + match index_of c l with Some i => Z.of_nat i | None => zlen l end, m).
Proof.
  unfold memscan. rewrite Nat2Z.id. revert a.
  induction l as [|y l IH]; intros a; [cbn; by rewrite Z.add_0_r|]. intros [Ha Hl].
  cbn [length memscan_loop index_of].
  rewrite (bind_some _ _ _ _ _ (ld_run _ _ _ Ha)). destruct (y =? c).
  { by rewrite Z.add_0_r. }
  rewrite IH by done. destruct (index_of c l) as [i|]; cbn; do 2 f_equal; lia.
Qed.
