(* ===== verification/CStr.v ===== *)
(** * The string routines of lib/libc: string/str*.c, ctype.c and atoi.c

    Each routine is written over the byte memory of Mem, pointer by pointer.
    [char] is unsigned on the target.  A loop that runs until it meets a NUL
    byte visits consecutive addresses, so it makes at most as many steps as
    there are mapped bytes; [fuelled] gives it one more than that.  Objects are
    smaller than the address space, so an index never wraps. *)

From S2P Require Import Prelude Mem.
Local Open Scope lk_scope.

Definition fuelled {A} (f : nat -> M mem A) : M mem A := fun m => f (S (size m)) m.

(** ** lib/libc/ctype.c *)

Definition isblank (c : Z) : bool := (c =? 32) || (c =? 9).
Definition isspace (c : Z) : bool :=
  (c =? 32) || (c =? 12) || (c =? 10) || (c =? 13) || (c =? 9) || (c =? 11).
Definition islower (c : Z) : bool := (97 <=? c) && (c <=? 122).
Definition isupper (c : Z) : bool := (65 <=? c) && (c <=? 90).
Definition isdigit (c : Z) : bool := (48 <=? c) && (c <=? 57).
Definition isalpha (c : Z) : bool := isupper c || islower c.
Definition isalnum (c : Z) : bool := isalpha c || isdigit c.
Definition isxdigit (c : Z) : bool :=
  isdigit c || ((97 <=? c) && (c <=? 102)) || ((65 <=? c) && (c <=? 70)).
Definition isgraph (c : Z) : bool := (32 <? c) && (c <? 127).
Definition iscntrl (c : Z) : bool := (c <? 32) || (c =? 127).
Definition isprint (c : Z) : bool := (32 <=? c) && (c <? 127).
Definition ispunct (c : Z) : bool := isgraph c && negb (isalnum c).
Definition tolower (c : Z) : Z := if (65 <=? c) && (c <=? 90) then c + (97 - 65) else c.
Definition toupper (c : Z) : Z := if (97 <=? c) && (c <=? 122) then c + (65 - 97) else c.

(** ** Lengths *)

Fixpoint strlen_loop (fuel : nat) (s i : Z) : M mem Z :=
  match fuel with
  | O => panic
  | S fuel' =>
      let* c := ld (s + i) in
      if c =? 0 then ret i else strlen_loop fuel' s (i + 1)
  end.
Definition strlen (s : Z) : M mem Z := fuelled (fun f => strlen_loop f s 0).

(** [for (sc = s; count-- && *sc != '\0'; ++sc);] *)
Fixpoint strnlen_loop (count : nat) (sc : Z) : M mem Z :=
  match count with
  | O => ret sc
  | S count' =>
      let* c := ld sc in
      if c =? 0 then ret sc else strnlen_loop count' (sc + 1)
  end.
Definition strnlen (s count : Z) : M mem Z :=
  let* sc := strnlen_loop (Z.to_nat count) s in ret (sc - s).

(** ** Comparing *)

Fixpoint strcmp_loop (fuel : nat) (cs ct : Z) : M mem Z :=
  match fuel with
  | O => panic
  | S fuel' =>
      let* a := ld cs in
      let* b := ld ct in
      let res := s8 (a - b) in
      if negb (res =? 0) || (a =? 0) then ret res
      else strcmp_loop fuel' (cs + 1) (ct + 1)
  end.
Definition strcmp (cs ct : Z) : M mem Z := fuelled (fun f => strcmp_loop f cs ct).
Definition strcoll (s1 s2 : Z) : M mem Z := strcmp s1 s2.

Fixpoint strncmp_loop (count : nat) (cs ct res : Z) : M mem Z :=
  match count with
  | O => ret res
  | S count' =>
      let* a := ld cs in
      let* b := ld ct in
      let res := s8 (a - b) in
      if negb (res =? 0) || (a =? 0) then ret res
      else strncmp_loop count' (cs + 1) (ct + 1) res
  end.
Definition strncmp (cs ct count : Z) : M mem Z := strncmp_loop (Z.to_nat count) cs ct 0.

Fixpoint strnicmp_loop (len : nat) (s1 s2 c1 c2 : Z) : M mem Z :=
  match len with
  | O => ret (c1 - c2)
  | S len' =>
      let* c1 := ld s1 in
      let* c2 := ld s2 in
      if c1 =? 0 then ret (c1 - c2)
      else if c2 =? 0 then ret (c1 - c2)
      else if c1 =? c2 then strnicmp_loop len' (s1 + 1) (s2 + 1) c1 c2
      else
        let c1 := u8 (tolower c1) in
        let c2 := u8 (tolower c2) in
        if negb (c1 =? c2) then ret (c1 - c2)
        else strnicmp_loop len' (s1 + 1) (s2 + 1) c1 c2
  end.
Definition strnicmp (s1 s2 len : Z) : M mem Z := strnicmp_loop (Z.to_nat len) s1 s2 0 0.

(** ** Searching; [NULL] is 0 *)

Fixpoint strchr_loop (fuel : nat) (s c : Z) : M mem Z :=
  match fuel with
  | O => panic
  | S fuel' =>
      let* b := ld s in
      if b =? c then ret s
      else if b =? 0 then ret 0
      else strchr_loop fuel' (s + 1) c
  end.
Definition strchr (s c : Z) : M mem Z := fuelled (fun f => strchr_loop f s (u8 c)).

Fixpoint strrchr_loop (fuel : nat) (s c last : Z) : M mem Z :=
  match fuel with
  | O => panic
  | S fuel' =>
      let* b := ld s in
      if b =? 0 then ret last
      else strrchr_loop fuel' (s + 1) c (if b =? c then s else last)
  end.
Definition strrchr (s c : Z) : M mem Z :=
  fuelled (fun f => strrchr_loop f s c (if negb (c =? 0) then 0 else s)).

(** The inner loop of [strpbrk] and [strspn]: does the string at [ct] hold [x]? *)
Fixpoint in_set (fuel : nat) (ct x : Z) : M mem bool :=
  match fuel with
  | O => panic
  | S fuel' =>
      let* b := ld ct in
      if b =? 0 then ret false
      else if x =? b then ret true
      else in_set fuel' (ct + 1) x
  end.

Fixpoint strpbrk_loop (fuel : nat) (sc1 ct : Z) : M mem Z :=
  match fuel with
  | O => panic
  | S fuel' =>
      let* b := ld sc1 in
      if b =? 0 then ret 0
      else
        let* hit := fuelled (fun f => in_set f ct b) in
        if hit then ret sc1 else strpbrk_loop fuel' (sc1 + 1) ct
  end.
Definition strpbrk (cs ct : Z) : M mem Z := fuelled (fun f => strpbrk_loop f cs ct).

Fixpoint strspn_loop (fuel : nat) (p accept count : Z) : M mem Z :=
  match fuel with
  | O => panic
  | S fuel' =>
      let* b := ld p in
      if b =? 0 then ret count
      else
        let* hit := fuelled (fun f => in_set f accept b) in
        if hit then strspn_loop fuel' (p + 1) accept (count + 1) else ret count
  end.
Definition strspn (s accept : Z) : M mem Z := fuelled (fun f => strspn_loop f s accept 0).

(** [while (l1 >= l2) { l1--; if (!memcmp(s1, s2, l2)) return s1; s1++; }]; the
    counter falls at every turn and starts at [l1]. *)
Fixpoint strstr_loop (fuel : nat) (s1 s2 l1 l2 : Z) : M mem Z :=
  match fuel with
  | O => panic
  | S fuel' =>
      if l2 <=? l1 then
        let* r := memcmp s1 s2 (u64 l2) in
        if r =? 0 then ret s1 else strstr_loop fuel' (s1 + 1) s2 (l1 - 1) l2
      else ret 0
  end.
Definition strstr (s1 s2 : Z) : M mem Z :=
  let* l2 := strlen s2 in
  let l2 := s32 l2 in
  if l2 =? 0 then ret s1
  else
    let* l1 := strlen s1 in
    let l1 := s32 l1 in
    strstr_loop (S (Z.to_nat (l1 - l2 + 1))) s1 s2 l1 l2.

(** ** Copying *)

(** The copying loop of [strcpy] and [strcat], up to and with the NUL *)
Fixpoint copy_string (fuel : nat) (dest src : Z) : M mem unit :=
  match fuel with
  | O => panic
  | S fuel' =>
      let* c := ld src in
      st dest c ;;;
      if c =? 0 then ret tt else copy_string fuel' (dest + 1) (src + 1)
  end.
Definition strcpy (dest src : Z) : M mem Z :=
  fuelled (fun f => copy_string f dest src) ;;; ret dest.

(** The search for the end of the destination *)
Fixpoint find_end (fuel : nat) (dest : Z) : M mem Z :=
  match fuel with
  | O => panic
  | S fuel' =>
      let* c := ld dest in
      if c =? 0 then ret dest else find_end fuel' (dest + 1)
  end.
Definition strcat (dest src : Z) : M mem Z :=
  let* d := fuelled (fun f => find_end f dest) in
  fuelled (fun f => copy_string f d src) ;;;
  ret dest.

Fixpoint strncpy_loop (count : nat) (dest src : Z) : M mem unit :=
  match count with
  | O => ret tt
  | S count' =>
      let* c := ld src in
      st dest c ;;;
      if c =? 0 then ret tt else strncpy_loop count' (dest + 1) (src + 1)
  end.
Definition strncpy (dest src count : Z) : M mem Z :=
  strncpy_loop (Z.to_nat count) dest src ;;; ret dest.

Fixpoint strncat_loop (count : nat) (dest src : Z) : M mem unit :=
  match count with
  | O => ret tt
  | S count' =>
      let* c := ld src in
      st dest c ;;;
      if c =? 0 then ret tt
      else if Nat.eqb count' 0 then st (dest + 1) 0
      else strncat_loop count' (dest + 1) (src + 1)
  end.
Definition strncat (dest src count : Z) : M mem Z :=
  if 0 <? count then
    let* d := fuelled (fun f => find_end f dest) in
    strncat_loop (Z.to_nat count) d src ;;;
    ret dest
  else ret dest.

(** [for (i = 0; (i < s - 1) && src[i]; i++) dst[i] = src[i];] with [left] turns
    before the size bound stops it. *)
Fixpoint bounded_copy (left : nat) (dst src i : Z) : M mem Z :=
  match left with
  | O => ret i
  | S left' =>
      let* c := ld (src + i) in
      if c =? 0 then ret i
      else st (dst + i) c ;;; bounded_copy left' dst src (i + 1)
  end.

Definition strlcpy (dst src s : Z) : M mem Z :=
  if s =? 0 then strlen src
  else
    let* i := bounded_copy (Z.to_nat (s - 1)) dst src 0 in
    st (dst + i) 0 ;;;
    let* l := strlen (src + i) in
    ret (i + l).

Definition strlcat (dst src s : Z) : M mem Z :=
  let* j := strnlen dst s in
  if s =? 0 then
    let* l := strlen src in ret (j + l)
  else
    let dst := dst + j in
    let* i := bounded_copy (Z.to_nat (s - 1)) dst src 0 in
    st (dst + i) 0 ;;;
    let* l := strlen (src + i) in
    ret (j + i + l).

Definition strxfrm (dest src n : Z) : M mem Z :=
  let* len := strlen src in
  (when negb (n =? 0) do
     (let copy_len := if len <? n then len else n - 1 in
      memcpy dest src copy_len ;;; st (dest + copy_len) 0)) ;;;
  ret len.

(** ** [strtok]: [save] is the static [___strtok]; its new value is returned with
    the token *)
Definition strtok (s ct save : Z) : M mem (Z * Z) :=
  let sbegin := if negb (s =? 0) then s else save in
  if sbegin =? 0 then ret (0, save)
  else
    let* k := strspn sbegin ct in
    let sbegin := sbegin + k in
    let* c := ld sbegin in
    if c =? 0 then ret (0, 0)
    else
      let* send := strpbrk sbegin ct in
      if negb (send =? 0) then
        let* c := ld send in
        if negb (c =? 0) then st send 0 ;;; ret (sbegin, send + 1)
        else ret (sbegin, send)
      else ret (sbegin, send).

(** ** lib/libc/atoi.c *)

Definition hexval (c : Z) : Z :=
  if (48 <=? c) && (c <=? 57) then c - 48
  else if (97 <=? c) && (c <=? 102) then c - 97 + 10
  else if (65 <=? c) && (c <=? 70) then c - 65 + 10
  else 0.

(** The digit loops, for a type whose wrap-around is [wrap]. *)
Fixpoint hex_loop (wrap : Z -> Z) (fuel : nat) (num value : Z) : M mem Z :=
  match fuel with
  | O => panic
  | S fuel' =>
      let* c := ld num in
      if negb (c =? 0) && isxdigit c
      then hex_loop wrap fuel' (num + 1) (wrap (value * 16 + hexval c))
      else ret value
  end.

Fixpoint dec_loop (wrap : Z -> Z) (fuel : nat) (num value : Z) : M mem Z :=
  match fuel with
  | O => panic
  | S fuel' =>
      let* c := ld num in
      if negb (c =? 0) && isdigit c
      then dec_loop wrap fuel' (num + 1) (wrap (value * 10 + c - 48))
      else ret value
  end.

(** [num[0] == '0' && num[1] == 'x'] *)
Definition hex_prefix (num : Z) : M mem bool :=
  let* a := ld num in
  if a =? 48 then let* b := ld (num + 1) in ret (b =? 120) else ret false.

Definition atol (num : Z) : M mem Z :=
  let* hex := hex_prefix num in
  if hex then fuelled (fun f => hex_loop s64 f (num + 2) 0)
  else
    let* c := ld num in
    if c =? 45 then
      let* value := fuelled (fun f => dec_loop s64 f (num + 1) 0) in
      ret (s64 (- value))
    else fuelled (fun f => dec_loop s64 f num 0).

Definition atoul (num : Z) : M mem Z :=
  let* hex := hex_prefix num in
  if hex then fuelled (fun f => hex_loop u64 f (num + 2) 0)
  else fuelled (fun f => dec_loop u64 f num 0).

Definition atoull (num : Z) : M mem Z :=
  let* hex := hex_prefix num in
  if hex then fuelled (fun f => hex_loop u64 f (num + 2) 0)
  else fuelled (fun f => dec_loop u64 f num 0).

Definition atoi (num : Z) : M mem Z := let* v := atol num in ret (s32 v).
Definition atoui (num : Z) : M mem Z := let* v := atoul num in ret (u32 v).
