(* ===== verification/CStrSpec.v ===== *)
(** * What the string routines compute

    [cstr m a s] says that memory holds the NUL-terminated string [s] at [a].
    Every routine of CStr is given its result on such strings, which includes
    that its loops end: the fuel of a loop over consecutive mapped addresses is
    never used up. *)

From S2P Require Import Prelude Mem MemSpec CStr.
Local Open Scope lk_scope.

Definition char (c : Z) : Prop := 0 < c < 2 ^ 8.

Definition cstr (m : mem) (a : Z) (s : list Z) : Prop :=
  Forall char s /\ holds m a (s ++ [0]).

Lemma char_byte s : Forall char s -> Forall byte (s ++ [0]).
Proof.
  intros H. apply Forall_app. split; [|by repeat constructor].
  eapply Forall_impl; [exact H|]. unfold char, byte. lia.
Qed.

Lemma cstr_nil m a : cstr m a [] <-> m !! a = Some 0.
Proof. unfold cstr. cbn. intuition. Qed.

Lemma cstr_cons m a c s :
  cstr m a (c :: s) <-> m !! a = Some c /\ char c /\ cstr m (a + 1) s.
Proof. unfold cstr. rewrite Forall_cons. cbn [app holds]. tauto. Qed.

Lemma cstr_app m a s1 s2 :
  cstr m a (s1 ++ s2) <-> Forall char s1 /\ holds m a s1 /\ cstr m (a + zlen s1) s2.
Proof. unfold cstr. rewrite <- app_assoc, Forall_app, holds_app. tauto. Qed.

Lemma zlen_snoc (s : list Z) x : zlen (s ++ [x]) = zlen s + 1.
Proof. rewrite length_app. cbn [length]. lia. Qed.

Lemma mapped_size m a n : mapped m a (Z.of_nat n) -> (n <= size m)%nat.
Proof.
  intros Hm. set (l := (fun i => a + Z.of_nat i) <$> seq 0 n).
  assert (Hn : NoDup l) by (apply NoDup_fmap_2; [intros ???; lia|apply NoDup_seq]).
  assert (Hl : (list_to_set l : gset Z) ⊆ dom m).
  { intros x. rewrite elem_of_list_to_set, elem_of_dom. subst l.
    rewrite list_elem_of_fmap. intros (i & -> & Hi). apply elem_of_seq in Hi. apply Hm. lia. }
  apply subseteq_size in Hl. rewrite size_list_to_set, size_dom in Hl by done. subst l.
  by rewrite length_fmap, length_seq in Hl.
Qed.

Lemma cstr_size m a s : cstr m a s -> (length s < size m)%nat.
Proof.
  intros [_ Hh]. apply holds_mapped, mapped_size in Hh. rewrite length_app in Hh. cbn in Hh. lia.
Qed.

Lemma cstr_ext m m' a s :
  cstr m a s -> (forall x, a <= x <= a + zlen s -> m' !! x = m !! x) -> cstr m' a s.
Proof.
  intros [Hc Hh] He. split; [done|]. eapply holds_ext; [done|]. intros x Hx. apply He.
  rewrite zlen_snoc in Hx. lia.
Qed.

Lemma cstr_store_ne m a l b s :
  separate a (zlen l) b (zlen s + 1) -> cstr m b s -> cstr (store m a l) b s.
Proof.
  intros Hs [Hc Hh]. split; [done|]. apply holds_store_ne; [|done]. by rewrite zlen_snoc.
Qed.

Lemma cstr_store m a s : Forall char s -> cstr (store m a (s ++ [0])) a s.
Proof. intros Hs. split; [done|]. apply holds_store. Qed.

Lemma char_eq0 c : char c -> (c =? 0) = false.
Proof. unfold char. intros. apply Z.eqb_neq. lia. Qed.

(** ** Lengths *)

Lemma strlen_loop_run m s l i f :
  cstr m (s + i) l -> (length l < f)%nat -> strlen_loop f s i m = Some (i + zlen l, m).
Proof.
  revert i f. induction l as [|c l IH]; intros i [|f] Hs Hf; try (cbn in Hf; lia).
  - apply cstr_nil in Hs. cbn [strlen_loop]. run (ld_run _ _ _ Hs). cbn. by rewrite Z.add_0_r.
  - apply cstr_cons in Hs as (Hc & Hch & Hs). cbn [strlen_loop]. run (ld_run _ _ _ Hc).
    rewrite char_eq0 by done. cbn [length] in *. rewrite IH; [do 2 f_equal; lia| |lia].
    by replace (s + (i + 1)) with (s + i + 1) by lia.
Qed.

Lemma strlen_run m a s : cstr m a s -> strlen a m = Some (zlen s, m).
Proof.
  intros Hs. unfold strlen, fuelled. pose proof (cstr_size _ _ _ Hs).
  rewrite (strlen_loop_run m a s 0); [done| |lia]. by rewrite Z.add_0_r.
Qed.

Lemma strnlen_loop_run m a s n :
  cstr m a s -> strnlen_loop n a m = Some (a + Z.of_nat (min (length s) n), m).
Proof.
  revert a s. induction n as [|n IH]; intros a s Hs; cbn [strnlen_loop].
  { rewrite Nat.min_0_r. by rewrite Z.add_0_r. }
  destruct s as [|c s].
  - apply cstr_nil in Hs. run (ld_run _ _ _ Hs). cbn. by rewrite Z.add_0_r.
  - apply cstr_cons in Hs as (Hc & Hch & Hs). run (ld_run _ _ _ Hc).
    rewrite char_eq0 by done. rewrite (IH _ s) by done. cbn [length]. do 2 f_equal. lia.
Qed.

Lemma strnlen_run m a s n :
  0 <= n -> cstr m a s -> strnlen a n m = Some (Z.min (zlen s) n, m).
Proof.
  intros Hn Hs. unfold strnlen. run (strnlen_loop_run m a s (Z.to_nat n) Hs).
  unfold ret. do 2 f_equal. lia.
Qed.

(** ** Comparing *)

Lemma strcmp_loop_run m a b s1 s2 f :
  cstr m a s1 -> cstr m b s2 -> (length s1 < f)%nat ->
  strcmp_loop f a b m = Some (s8 (first_diff (s1 ++ [0]) (s2 ++ [0])), m).
Proof.
  revert a b s2 f. induction s1 as [|x s1 IH]; intros a b s2 [|f] H1 H2 Hf; try (cbn in Hf; lia);
    cbn [strcmp_loop].
  - apply cstr_nil in H1. run (ld_run _ _ _ H1). destruct s2 as [|y s2].
    + apply cstr_nil in H2. by run (ld_run _ _ _ H2).
    + apply cstr_cons in H2 as (Hy & Hc & _). run (ld_run _ _ _ Hy). rewrite Z.eqb_refl, orb_true_r.
      cbn [app first_diff]. by rewrite (Z.eqb_sym 0), char_eq0.
  - apply cstr_cons in H1 as (Hx & Hcx & H1). run (ld_run _ _ _ Hx).
    cbn [length] in Hf. destruct s2 as [|y s2].
    + apply cstr_nil in H2. run (ld_run _ _ _ H2). rewrite (char_eq0 x), orb_false_r by done. cbn [app first_diff].
      rewrite s8_diff by (unfold char, byte in *; lia). by rewrite char_eq0.
    + apply cstr_cons in H2 as (Hy & Hcy & H2). run (ld_run _ _ _ Hy). rewrite (char_eq0 x), orb_false_r by done. cbn [app first_diff].
      rewrite s8_diff by (unfold char, byte in *; lia).
      destruct (Z.eqb_spec x y); cbn [negb]; [|done]. apply IH; [done..|lia].
Qed.

Lemma strcmp_run m a b s1 s2 :
  cstr m a s1 -> cstr m b s2 ->
  strcmp a b m = Some (s8 (first_diff (s1 ++ [0]) (s2 ++ [0])), m).
Proof.
  intros H1 H2. unfold strcmp, fuelled. apply strcmp_loop_run; [done..|].
  pose proof (cstr_size _ _ _ H1). lia.
Qed.

Lemma strncmp_loop_run m a b s1 s2 n :
  cstr m a s1 -> cstr m b s2 ->
  strncmp_loop n a b 0 m = Some (s8 (first_diff (take n (s1 ++ [0])) (take n (s2 ++ [0]))), m).
Proof.
  revert a b s1 s2. induction n as [|n IH]; intros a b s1 s2 H1 H2; cbn [strncmp_loop]; [done|].
  destruct s1 as [|x s1].
  - apply cstr_nil in H1. run (ld_run _ _ _ H1). destruct s2 as [|y s2].
    + apply cstr_nil in H2. run (ld_run _ _ _ H2). cbn [app take first_diff].
      by rewrite Z.eqb_refl, orb_true_r, !take_nil.
    + apply cstr_cons in H2 as (Hy & Hc & _). run (ld_run _ _ _ Hy). rewrite Z.eqb_refl, orb_true_r.
      cbn [app take first_diff]. by rewrite (Z.eqb_sym 0), char_eq0.
  - apply cstr_cons in H1 as (Hx & Hcx & H1). run (ld_run _ _ _ Hx).
    destruct s2 as [|y s2].
    + apply cstr_nil in H2. run (ld_run _ _ _ H2). rewrite (char_eq0 x), orb_false_r by done. cbn [app take first_diff].
      rewrite s8_diff by (unfold char, byte in *; lia). by rewrite char_eq0.
    + apply cstr_cons in H2 as (Hy & Hcy & H2). run (ld_run _ _ _ Hy). rewrite (char_eq0 x), orb_false_r by done. cbn [app take first_diff].
      rewrite s8_diff by (unfold char, byte in *; lia).
      destruct (Z.eqb_spec x y) as [->|]; cbn [negb]; [|done]. rewrite Z.sub_diag. by apply IH.
Qed.

Lemma strncmp_run m a b s1 s2 n :
  0 <= n -> cstr m a s1 -> cstr m b s2 ->
  strncmp a b n m =
  Some (s8 (first_diff (take (Z.to_nat n) (s1 ++ [0])) (take (Z.to_nat n) (s2 ++ [0]))), m).
Proof. intros Hn H1 H2. by apply strncmp_loop_run. Qed.

(** Two strings are equal when their difference, the terminators included, is 0. *)
Lemma first_diff_cstr s1 s2 :
  Forall char s1 -> Forall char s2 -> (first_diff (s1 ++ [0]) (s2 ++ [0]) = 0 <-> s1 = s2).
Proof.
  intros H1. revert s2. induction H1 as [|x s1 Hx H1 IH]; intros s2 H2; destruct H2 as [|y s2 Hy H2];
    cbn [app first_diff].
  - done.
  - rewrite (Z.eqb_sym 0), char_eq0 by done. unfold char in Hy. split; [lia|done].
  - rewrite char_eq0 by done. unfold char in Hx. split; [lia|done].
  - destruct (Z.eqb_spec x y) as [->|].
    + rewrite IH by done. split; [by intros ->|by intros [=]].
    + split; [lia|by intros [=]].
Qed.

(** ** Searching *)

Lemma strchr_loop_run m a s c f :
  cstr m a s -> (length s < f)%nat ->
  strchr_loop f a c m =
  Some (match index_of c (s ++ [0]) with Some i => a + Z.of_nat i | None => 0 end, m).
Proof.
  revert a f. induction s as [|x s IH]; intros a [|f] Hs Hf; try (cbn in Hf; lia); cbn [strchr_loop].
  - apply cstr_nil in Hs. run (ld_run _ _ _ Hs). cbn [app index_of]. destruct (0 =? c); [|done].
    by rewrite Z.add_0_r.
  - apply cstr_cons in Hs as (Hx & Hc & Hs). run (ld_run _ _ _ Hx). cbn [app index_of length] in *.
    rewrite char_eq0 by done. destruct (x =? c); [by rewrite Z.add_0_r|].
    rewrite IH by (done || lia). destruct (index_of c (s ++ [0])); cbn; [|done]. do 2 f_equal. lia.
Qed.

(** [strchr] finds the first occurrence; looking for NUL gives the terminator. *)
Lemma strchr_run m a s c :
  cstr m a s ->
  strchr a c m =
  Some (match index_of (u8 c) (s ++ [0]) with Some i => a + Z.of_nat i | None => 0 end, m).
Proof.
  intros Hs. unfold strchr, fuelled. apply strchr_loop_run; [done|].
  pose proof (cstr_size _ _ _ Hs). lia.
Qed.

(** The index of the last occurrence. *)
Fixpoint last_index (x : Z) (l : list Z) : option nat :=
  match l with
  | [] => None
  | y :: l' =>
      match last_index x l' with
      | Some i => Some (S i)
      | None => if y =? x then Some O else None
      end
  end.

Lemma strrchr_loop_run m a s c last f :
  cstr m a s -> (length s < f)%nat ->
  strrchr_loop f a c last m =
  Some (match last_index c s with Some i => a + Z.of_nat i | None => last end, m).
Proof.
  revert a last f. induction s as [|x s IH]; intros a last [|f] Hs Hf; try (cbn in Hf; lia);
    cbn [strrchr_loop].
  - apply cstr_nil in Hs. by run (ld_run _ _ _ Hs).
  - apply cstr_cons in Hs as (Hx & Hc & Hs). run (ld_run _ _ _ Hx). cbn [last_index length] in *.
    rewrite char_eq0 by done. rewrite IH by (done || lia).
    destruct (last_index c s); [do 2 f_equal; lia|]. destruct (x =? c); [by rewrite Z.add_0_r|done].
Qed.

Lemma strrchr_run m a s c :
  cstr m a s -> c <> 0 ->
  strrchr a c m =
  Some (match last_index c s with Some i => a + Z.of_nat i | None => 0 end, m).
Proof.
  intros Hs Hc. unfold strrchr, fuelled. apply Z.eqb_neq in Hc. rewrite Hc.
  apply strrchr_loop_run; [done|]. pose proof (cstr_size _ _ _ Hs). lia.
Qed.

(** Membership in a delimiter string, and the parts of a string before and from
    the first character for which [p] fails. *)
Definition among (d : list Z) (x : Z) : bool := existsb (Z.eqb x) d.

Fixpoint prefix_while (p : Z -> bool) (s : list Z) : list Z :=
  match s with [] => [] | x :: s' => if p x then x :: prefix_while p s' else [] end.
Fixpoint drop_while (p : Z -> bool) (s : list Z) : list Z :=
  match s with [] => [] | x :: s' => if p x then drop_while p s' else s end.

Lemma while_app p s : prefix_while p s ++ drop_while p s = s.
Proof. induction s as [|x s IH]; cbn; [done|]. destruct (p x); cbn; [by rewrite IH|done]. Qed.

Lemma in_set_loop_run m ct d x f :
  cstr m ct d -> (length d < f)%nat -> in_set f ct x m = Some (among d x, m).
Proof.
  revert ct f. induction d as [|y d IH]; intros ct [|f] Hd Hf; try (cbn in Hf; lia); cbn [in_set].
  - apply cstr_nil in Hd. by run (ld_run _ _ _ Hd).
  - apply cstr_cons in Hd as (Hy & Hc & Hd). run (ld_run _ _ _ Hy). rewrite char_eq0 by done.
    cbn [among existsb length] in *. destruct (x =? y); [done|]. rewrite IH by (done || lia). done.
Qed.

Lemma in_set_run m ct d x :
  cstr m ct d -> fuelled (fun f => in_set f ct x) m = Some (among d x, m).
Proof.
  intros Hd. unfold fuelled. apply in_set_loop_run; [done|]. pose proof (cstr_size _ _ _ Hd). lia.
Qed.

Lemma strpbrk_loop_run m a ct s d f :
  cstr m a s -> cstr m ct d -> (length s < f)%nat ->
  strpbrk_loop f a ct m =
  Some (match drop_while (fun x => negb (among d x)) s with
        | [] => 0
        | _ => a + zlen (prefix_while (fun x => negb (among d x)) s)
        end, m).
Proof.
  intros Hs Hd. revert a f Hs. induction s as [|x s IH]; intros a [|f] Hs Hf; try (cbn in Hf; lia);
    cbn [strpbrk_loop].
  - apply cstr_nil in Hs. by run (ld_run _ _ _ Hs).
  - apply cstr_cons in Hs as (Hx & Hc & Hs). run (ld_run _ _ _ Hx). rewrite char_eq0 by done.
    run (in_set_run m ct d x Hd). cbn [length prefix_while drop_while] in *.
    destruct (among d x); cbn [negb length]; [by rewrite Z.add_0_r|].
    rewrite IH by (done || lia).
    destruct (drop_while (fun x => negb (among d x)) s); [done|]. do 2 f_equal. lia.
Qed.

Lemma strpbrk_run m a ct s d :
  cstr m a s -> cstr m ct d ->
  strpbrk a ct m =
  Some (match drop_while (fun x => negb (among d x)) s with
        | [] => 0
        | _ => a + zlen (prefix_while (fun x => negb (among d x)) s)
        end, m).
Proof.
  intros Hs Hd. unfold strpbrk, fuelled. apply strpbrk_loop_run; [done..|].
  pose proof (cstr_size _ _ _ Hs). lia.
Qed.

Lemma strspn_loop_run m a ct s d n f :
  cstr m a s -> cstr m ct d -> (length s < f)%nat ->
  strspn_loop f a ct n m = Some (n + zlen (prefix_while (among d) s), m).
Proof.
  intros Hs Hd. revert a n f Hs. induction s as [|x s IH]; intros a n [|f] Hs Hf;
    try (cbn in Hf; lia); cbn [strspn_loop].
  - apply cstr_nil in Hs. run (ld_run _ _ _ Hs). cbn. by rewrite Z.add_0_r.
  - apply cstr_cons in Hs as (Hx & Hc & Hs). run (ld_run _ _ _ Hx). rewrite char_eq0 by done.
    run (in_set_run m ct d x Hd). cbn [length prefix_while] in *.
    destruct (among d x); cbn [length]; [|by rewrite Z.add_0_r].
    rewrite IH by (done || lia). do 2 f_equal. lia.
Qed.

Lemma strspn_run m a ct s d :
  cstr m a s -> cstr m ct d -> strspn a ct m = Some (zlen (prefix_while (among d) s), m).
Proof.
  intros Hs Hd. unfold strspn, fuelled. rewrite (strspn_loop_run m a ct s d 0); [done..|].
  pose proof (cstr_size _ _ _ Hs). lia.
Qed.

(** Where [s2] first occurs in [s1]. *)
Fixpoint find_sub (s1 s2 : list Z) : option nat :=
  if bool_decide (take (length s2) s1 = s2) then Some O
  else match s1 with [] => None | _ :: s1' => S <$> find_sub s1' s2 end.

Lemma find_sub_short s1 s2 : (length s1 < length s2)%nat -> find_sub s1 s2 = None.
Proof.
  induction s1 as [|x s1 IH]; intros Hl; cbn [find_sub]; rewrite bool_decide_false.
  - done.
  - intros E. apply (f_equal length) in E. rewrite length_take in E. cbn in *. lia.
  - rewrite IH; [done|]. cbn in Hl. lia.
  - intros E. apply (f_equal length) in E. rewrite length_take in E. cbn in *. lia.
Qed.

Lemma strstr_loop_run m a b s1 s2 f :
  cstr m a s1 -> cstr m b s2 -> zlen s2 < 2 ^ 31 ->
  (Z.to_nat (zlen s1 - zlen s2 + 1) < f)%nat ->
  strstr_loop f a b (zlen s1) (zlen s2) m =
  Some (match find_sub s1 s2 with Some i => a + Z.of_nat i | None => 0 end, m).
Proof.
  revert a f. induction s1 as [|x s1 IH]; intros a [|f] H1 H2 Hl Hf; try lia; cbn [strstr_loop].
  { destruct (Z.leb_spec (zlen s2) (zlen (@nil Z))) as [Hle|Hle].
    - destruct s2; [|cbn in Hle; lia]. transitivity (Some (a + 0, m)); [|done].
      by rewrite Z.add_0_r.
    - by rewrite find_sub_short by lia. }
  destruct (Z.leb_spec (zlen s2) (zlen (x :: s1))) as [Hle|Hle].
  - set (w := take (length s2) (x :: s1)).
    assert (Hw : length w = length s2) by (subst w; rewrite length_take; lia).
    assert (Hc : memcmp a b (u64 (zlen s2)) m = Some (s8 (first_diff w s2), m)).
    { destruct H1 as [Hc1 Hh1]. destruct H2 as [Hc2 Hh2].
      apply char_byte in Hc1. apply char_byte, Forall_app in Hc2 as [Hc2 _].
      apply holds_app in Hh2 as [Hh2 _]. rewrite <- (take_drop (length s2) (x :: s1)) in Hh1, Hc1.
      rewrite <- app_assoc in Hh1, Hc1. apply holds_app in Hh1 as [Hh1 _].
      apply Forall_app in Hc1 as [Hc1 _]. rewrite u64_small by lia. rewrite <- Hw.
      by apply memcmp_run. }
    run Hc. cbn [find_sub]. fold w.
    destruct (s8_sign (first_diff w s2)) as [Hz _].
    { apply first_diff_range; [|destruct H2 as [Hc2%char_byte%Forall_app _]; tauto].
      destruct H1 as [Hc1%char_byte%Forall_app _]. subst w. apply Forall_take. tauto. }
    rewrite (first_diff_eq w s2 Hw) in Hz.
    destruct (Z.eqb_spec (s8 (first_diff w s2)) 0) as [E|E].
    + rewrite bool_decide_true by tauto. by rewrite Z.add_0_r.
    + rewrite bool_decide_false by tauto. apply cstr_cons in H1 as (_ & _ & H1).
      replace (zlen (x :: s1) - 1) with (zlen s1) by (cbn [length]; lia).
      rewrite IH; [|done..|cbn [length] in *; lia].
      destruct (find_sub s1 s2); cbn; [|done]. do 2 f_equal. lia.
  - by rewrite find_sub_short by lia.
Qed.

Lemma strstr_run m a b s1 s2 :
  cstr m a s1 -> cstr m b s2 -> zlen s1 < 2 ^ 31 -> zlen s2 < 2 ^ 31 ->
  strstr a b m =
  Some (match find_sub s1 s2 with Some i => a + Z.of_nat i | None => 0 end, m).
Proof.
  intros H1 H2 Hl1 Hl2. unfold strstr. run (strlen_run _ _ _ H2). rewrite s32_small by lia.
  destruct (Z.eqb_spec (zlen s2) 0) as [E|E].
  - destruct s2; [|done]. destruct s1; cbn [find_sub length take]; rewrite bool_decide_true by done;
      by rewrite Z.add_0_r.
  - run (strlen_run _ _ _ H1). rewrite s32_small by lia. apply strstr_loop_run; [done..|lia].
Qed.

(** ** Copying *)

Lemma copy_string_run m d a s f :
  cstr m a s -> mapped m d (zlen s + 1) -> up_ok d a (zlen s + 1) -> (length s < f)%nat ->
  copy_string f d a m = Some (tt, store m d (s ++ [0])).
Proof.
  unfold up_ok. revert m d a f. induction s as [|c s IH]; intros m d a [|f] Hs Hm Hu Hf;
    try (cbn in Hf; lia); cbn [copy_string app store length] in *.
  - apply cstr_nil in Hs. run (ld_run _ _ _ Hs). run (st_run m d 0 (Hm d ltac:(lia))). done.
  - apply cstr_cons in Hs as (Hc & Hch & Hs). run (ld_run _ _ _ Hc).
    run (st_run m d c (Hm d ltac:(lia))). rewrite char_eq0, u8_small by (unfold char in *; lia).
    apply IH; [|..|lia].
    + apply (cstr_store_ne m d [c]); [|done]. unfold separate. cbn [length]. lia.
    + apply mapped_insert. apply mapped_sub with d (Z.of_nat (S (length s)) + 1); [done|lia..].
    + lia.
Qed.

Lemma strcpy_run m d a s :
  cstr m a s -> mapped m d (zlen s + 1) -> up_ok d a (zlen s + 1) ->
  strcpy d a m = Some (d, store m d (s ++ [0])).
Proof.
  intros Hs Hm Hu. unfold strcpy, fuelled. pose proof (cstr_size _ _ _ Hs).
  erewrite bind_some; [done|]. apply copy_string_run; [done..|lia].
Qed.

Lemma find_end_run m a s f :
  cstr m a s -> (length s < f)%nat -> find_end f a m = Some (a + zlen s, m).
Proof.
  revert a f. induction s as [|c s IH]; intros a [|f] Hs Hf; try (cbn in Hf; lia); cbn [find_end].
  - apply cstr_nil in Hs. run (ld_run _ _ _ Hs). cbn. by rewrite Z.add_0_r.
  - apply cstr_cons in Hs as (Hc & Hch & Hs). run (ld_run _ _ _ Hc). rewrite char_eq0 by done.
    cbn [length] in *. rewrite IH by (done || lia). do 2 f_equal. lia.
Qed.

(** [strcat] appends: the destination then holds the concatenation. *)
Lemma strcat_run m d a s t :
  cstr m d t -> cstr m a s -> mapped m d (zlen t + zlen s + 1) ->
  separate d (zlen t + zlen s + 1) a (zlen s + 1) ->
  strcat d a m = Some (d, store m (d + zlen t) (s ++ [0])).
Proof.
  intros Ht Hs Hm Hsep. unfold strcat, separate in *. erewrite bind_some.
  2: { apply find_end_run; [exact Ht|]. pose proof (cstr_size _ _ _ Ht). lia. }
  erewrite bind_some; [done|]. unfold fuelled. apply copy_string_run; [done|..].
  - apply mapped_sub with d (zlen t + zlen s + 1); [done|lia..].
  - unfold up_ok. lia.
  - pose proof (cstr_size _ _ _ Hs). lia.
Qed.

Lemma strncpy_run m d a s n :
  cstr m a s -> mapped m d (Z.of_nat n) -> separate d (Z.of_nat n) a (zlen s + 1) ->
  strncpy d a (Z.of_nat n) m = Some (d, store m d (take n (s ++ [0]))).
Proof.
  intros Hs Hm Hsep. unfold strncpy. rewrite Nat2Z.id. erewrite bind_some; [done|].
  clear -Hs Hm Hsep. unfold separate in *.
  revert m d a s Hs Hm Hsep. induction n as [|n IH]; intros m d a s Hs Hm Hsep; cbn [strncpy_loop]; [done|].
  destruct s as [|c s].
  - apply cstr_nil in Hs. run (ld_run _ _ _ Hs). run (st_run m d 0 (Hm d ltac:(lia))).
    cbn [app take]. by rewrite take_nil.
  - apply cstr_cons in Hs as (Hc & Hch & Hs). run (ld_run _ _ _ Hc).
    run (st_run m d c (Hm d ltac:(lia))). rewrite char_eq0, u8_small by (unfold char in *; lia).
    cbn [app take store length] in *. apply IH.
    + apply (cstr_store_ne m d [c]); [|done]. unfold separate. cbn [length]. lia.
    + apply mapped_insert. apply mapped_sub with d (Z.of_nat (S n)); [done|lia..].
    + lia.
Qed.

Lemma strncat_loop_run m d a s n :
  (0 < n)%nat -> cstr m a s -> mapped m d (Z.of_nat n + 1) ->
  separate d (Z.of_nat n + 1) a (zlen s + 1) ->
  strncat_loop n d a m = Some (tt, store m d (take n s ++ [0])).
Proof.
  unfold separate. revert m d a s. induction n as [|n IH]; intros m d a s Hn Hs Hm Hsep; [lia|].
  cbn [strncat_loop]. destruct s as [|c s].
  - apply cstr_nil in Hs. run (ld_run _ _ _ Hs). run (st_run m d 0 (Hm d ltac:(lia))). done.
  - apply cstr_cons in Hs as (Hc & Hch & Hs). run (ld_run _ _ _ Hc).
    run (st_run m d c (Hm d ltac:(lia))). rewrite char_eq0, u8_small by (unfold char in *; lia).
    cbn [app take store length] in *. destruct (Nat.eqb_spec n 0) as [->|].
    + rewrite st_run; [done|]. apply (mapped_insert m d c (d + 1) 1); [|lia].
      apply mapped_sub with d (Z.of_nat 1 + 1); [done|lia..].
    + apply IH; [lia|..|lia].
      * apply (cstr_store_ne m d [c]); [|done]. unfold separate. cbn [length]. lia.
      * apply mapped_insert. apply mapped_sub with d (Z.of_nat (S n) + 1); [done|lia..].
Qed.

Lemma strncat_run m d a s t n :
  (0 < n)%nat -> cstr m d t -> cstr m a s -> mapped m d (zlen t + Z.of_nat n + 1) ->
  separate d (zlen t + Z.of_nat n + 1) a (zlen s + 1) ->
  strncat d a (Z.of_nat n) m = Some (d, store m (d + zlen t) (take n s ++ [0])).
Proof.
  intros Hn Ht Hs Hm Hsep. unfold strncat, separate in *.
  destruct (Z.ltb_spec 0 (Z.of_nat n)); [|lia]. rewrite Nat2Z.id. erewrite bind_some.
  2: { apply find_end_run; [exact Ht|]. pose proof (cstr_size _ _ _ Ht). lia. }
  erewrite bind_some; [done|]. apply (strncat_loop_run _ _ _ s); [done|done|..].
  - apply mapped_sub with d (zlen t + Z.of_nat n + 1); [done|lia..].
  - unfold separate. lia.
Qed.

(** The bounded copy of [strlcpy] and [strlcat], with the NUL written after it. *)
Lemma bounded_copy_run m d a s n i :
  cstr m (a + i) s -> mapped m (d + i) (Z.of_nat (min n (length s))) ->
  separate (d + i) (Z.of_nat (min n (length s))) (a + i) (zlen s + 1) ->
  bounded_copy n d a i m = Some (i + Z.of_nat (min n (length s)), store m (d + i) (take n s)).
Proof.
  unfold separate. revert m s i. induction n as [|n IH]; intros m s i Hs Hm Hsep;
    cbn [bounded_copy]; [by rewrite Z.add_0_r|]. destruct s as [|c s].
  - apply cstr_nil in Hs. run (ld_run _ _ _ Hs). cbn. by rewrite Z.add_0_r.
  - apply cstr_cons in Hs as (Hc & Hch & Hs). run (ld_run _ _ _ Hc). rewrite char_eq0 by done.
    cbn [length Nat.min] in *.
    run (st_run m (d + i) c (Hm (d + i) ltac:(lia))). rewrite u8_small by (unfold char in *; lia).
    rewrite <- !Z.add_assoc in *. rewrite (IH _ s).
    + cbn [take store]. rewrite <- !Z.add_assoc. do 2 f_equal. lia.
    + apply (cstr_store_ne m (d + i) [c]); [|done]. unfold separate. cbn [length]. lia.
    + apply mapped_insert. apply mapped_sub with (d + i) (Z.of_nat (S (n `min` length s))); [done|lia..].
    + lia.
Qed.

Lemma cstr_drop m a s k :
  (k <= length s)%nat -> cstr m a s -> cstr m (a + Z.of_nat k) (drop k s).
Proof.
  intros Hk Hs. rewrite <- (take_drop k s) in Hs. apply cstr_app in Hs as (_ & _ & Hs).
  rewrite length_take, Nat.min_l in Hs by done. done.
Qed.

Lemma bounded_string_run m d a s n :
  0 < n -> cstr m a s -> mapped m d (Z.min n (zlen s + 1)) ->
  separate d (Z.min n (zlen s + 1)) a (zlen s + 1) ->
  (let* i := bounded_copy (Z.to_nat (n - 1)) d a 0 in
   st (d + i) 0 ;;; let* l := strlen (a + i) in ret (i + l)) m =
  Some (zlen s, store m d (take (Z.to_nat (n - 1)) s ++ [0])).
Proof.
  intros Hn Hs Hm Hsep. unfold separate in *. erewrite bind_some.
  2: { apply (bounded_copy_run _ _ _ s); rewrite Z.add_0_r; [done|..].
       - apply mapped_sub with d (Z.min n (zlen s + 1)); [done|lia..].
       - rewrite Z.add_0_r. unfold separate. lia. }
  rewrite !Z.add_0_r, Z.add_0_l. set (k := (Z.to_nat (n - 1) `min` length s)%nat).
  run (st_run (store m d (take (Z.to_nat (n - 1)) s)) (d + Z.of_nat k) 0
    (mapped_store _ _ _ _ _ Hm (d + Z.of_nat k) ltac:(lia))).
  rewrite store_app, length_take. fold k. cbn [store]. change (u8 0) with 0.
  assert (Hd : cstr (<[d + Z.of_nat k := 0]> (store m d (take (Z.to_nat (n - 1)) s)))
                 (a + Z.of_nat k) (drop k s)).
  { apply cstr_drop; [lia|]. change (<[_ := 0]> ?m) with (store m (d + Z.of_nat k) [0]).
    apply cstr_store_ne; [unfold separate; cbn [length]; lia|].
    apply cstr_store_ne; [unfold separate; rewrite length_take; lia|done]. }
  run (strlen_run _ _ _ Hd). unfold ret. rewrite length_drop. do 2 f_equal. lia.
Qed.

Lemma strlcpy_run m d a s n :
  0 < n -> cstr m a s -> mapped m d (Z.min n (zlen s + 1)) ->
  separate d (Z.min n (zlen s + 1)) a (zlen s + 1) ->
  strlcpy d a n m = Some (zlen s, store m d (take (Z.to_nat (n - 1)) s ++ [0])).
Proof.
  intros Hn Hs Hm Hsep. unfold strlcpy. destruct (Z.eqb_spec n 0); [lia|].
  by apply bounded_string_run.
Qed.

(** [strlcat] leaves room for [n - 1] characters of the source, however long the
    destination already is. *)
Lemma strlcat_run m d a s t n :
  zlen t < n -> cstr m d t -> cstr m a s ->
  mapped m d (zlen t + Z.min n (zlen s + 1)) ->
  separate d (zlen t + Z.min n (zlen s + 1)) a (zlen s + 1) ->
  strlcat d a n m = Some (zlen t + zlen s, store m (d + zlen t) (take (Z.to_nat (n - 1)) s ++ [0])).
Proof.
  intros Hn Ht Hs Hm Hsep. unfold strlcat, separate in *.
  run (strnlen_run m d t n ltac:(lia) Ht). rewrite Z.min_l by lia.
  destruct (Z.eqb_spec n 0); [lia|].
  pose proof (bounded_string_run m (d + zlen t) a s n ltac:(lia) Hs) as Hr.
  unfold separate in Hr. specialize (Hr ltac:(apply mapped_sub with d (zlen t + Z.min n (zlen s + 1)); [done|lia..]) ltac:(lia)).
  revert Hr. unfold bind. destruct (bounded_copy _ _ _ _ m) as [[i m1]|]; [|done].
  destruct (st _ _ m1) as [[[] m2]|]; [|done]. destruct (strlen _ m2) as [[l m3]|]; [|done].
  unfold ret. intros [= <- <-]. do 2 f_equal. lia.
Qed.

Lemma strxfrm_run m d a s n :
  0 < n < 2 ^ 31 -> cstr m a s -> mapped m d (Z.min n (zlen s + 1)) ->
  separate d (Z.min n (zlen s + 1)) a (zlen s + 1) ->
  strxfrm d a n m = Some (zlen s, store m d (take (Z.to_nat (n - 1)) s ++ [0])).
Proof.
  intros Hn Hs Hm Hsep. unfold strxfrm, separate in *. run (strlen_run _ _ _ Hs).
  destruct (Z.eqb_spec n 0); [lia|]. cbn [negb].
  set (k := if zlen s <? n then zlen s else n - 1).
  assert (Hk : k = zlen (take (Z.to_nat (n - 1)) s)).
  { subst k. rewrite length_take. zcases; lia. }
  rewrite length_take in Hk.
  assert (Hc : memcpy d a k m = Some (d, store m d (take (Z.to_nat (n - 1)) s))).
  { rewrite Hk, <- length_take. destruct Hs as [Hc Hh]. apply memcpy_run; rewrite ?length_take; [lia|..].
    - apply holds_app in Hh as [Hh _]. rewrite <- (take_drop (Z.to_nat (n - 1)) s) in Hh.
      by apply holds_app in Hh as [Hh _].
    - apply Forall_take. apply char_byte, Forall_app in Hc. tauto.
    - apply mapped_sub with d (Z.min n (zlen s + 1)); [done|lia..].
    - unfold up_ok. lia. }
  erewrite bind_some; [done|]. run Hc.
  rewrite st_run by (apply (mapped_store _ _ _ _ _ Hm); lia).
  rewrite store_app, length_take. cbn [store]. change (u8 0) with 0. rewrite Hk. done.
Qed.

(** ** [strtok] *)

(** The fields of [s] between delimiters, and those that are not empty. *)
Fixpoint split (d s : list Z) : list (list Z) :=
  match s with
  | [] => [[]]
  | x :: s' =>
      match split d s' with
      | [] => [[]]
      | h :: t => if among d x then [] :: h :: t else (x :: h) :: t
      end
  end.
Definition nonempty (s : list Z) : bool := match s with [] => false | _ => true end.
Definition tokens (d s : list Z) : list (list Z) := List.filter nonempty (split d s).

(** The loop a caller writes around [strtok]: [t = strtok(s, ct)], then
    [t = strtok(NULL, ct)] until it is [NULL]. *)
Fixpoint strtok_all (fuel : nat) (s ct save : Z) : M mem (list Z) :=
  match fuel with
  | O => panic
  | S fuel' =>
      let* (t, save) := strtok s ct save in
      if t =? 0 then ret []
      else let* ts := strtok_all fuel' 0 ct save in ret (t :: ts)
  end.

Lemma split_ne d s : exists h t, split d s = h :: t.
Proof.
  induction s as [|x s (h & t & IH)]; cbn [split]; [eauto|]. rewrite IH.
  destruct (among d x); eauto.
Qed.

Lemma tokens_skip d s : tokens d (drop_while (among d) s) = tokens d s.
Proof.
  unfold tokens. induction s as [|x s IH]; cbn [drop_while]; [done|].
  destruct (among d x) eqn:E; [|done]. rewrite IH. cbn [split].
  destruct (split_ne d s) as (h & t & ->). by rewrite E.
Qed.

Lemma split_field d s :
  split d s =
  prefix_while (fun x => negb (among d x)) s ::
  match drop_while (fun x => negb (among d x)) s with [] => [] | _ :: r => split d r end.
Proof.
  induction s as [|x s IH]; cbn [split prefix_while drop_while]; [done|].
  destruct (among d x) eqn:E; cbn [negb].
  - by destruct (split_ne d s) as (h & t & ->).
  - by rewrite IH.
Qed.

Lemma drop_while_head p s x r : drop_while p s = x :: r -> p x = false.
Proof.
  induction s as [|y s IH]; cbn [drop_while]; [done|]. destruct (p y) eqn:E; [done|].
  by intros [= <- <-].
Qed.

Lemma tokens_step d s :
  tokens d s =
  match drop_while (among d) s with
  | [] => []
  | r => prefix_while (fun x => negb (among d x)) r ::
         match drop_while (fun x => negb (among d x)) r with [] => [] | _ :: r' => tokens d r' end
  end.
Proof.
  rewrite <- tokens_skip. destruct (drop_while (among d) s) as [|x r] eqn:E; [done|].
  apply drop_while_head in E. unfold tokens at 1. rewrite split_field.
  cbn [prefix_while drop_while]. rewrite E. cbn [negb List.filter nonempty]. f_equal.
  by destruct (drop_while _ r).
Qed.

(** One call on a string, from either argument. *)
Lemma strtok_run m p save a ct s d :
  (if negb (p =? 0) then p else save) = a -> 0 < a -> cstr m a s -> cstr m ct d ->
  let a' := a + zlen (prefix_while (among d) s) in
  strtok p ct save m =
  match drop_while (among d) s with
  | [] => Some ((0, 0), m)
  | r =>
      let tok := prefix_while (fun x => negb (among d x)) r in
      match drop_while (fun x => negb (among d x)) r with
      | [] => Some ((a', 0), m)
      | _ => Some ((a', a' + zlen tok + 1), <[a' + zlen tok := 0]> m)
      end
  end.
Proof.
  intros Hp Ha Hs Hd a'. unfold strtok. rewrite Hp. destruct (Z.eqb_spec a 0); [lia|].
  run (strspn_run _ _ _ _ _ Hs Hd). fold a'.
  assert (Hr : cstr m a' (drop_while (among d) s)).
  { rewrite <- (while_app (among d) s) in Hs. by apply cstr_app in Hs as (_ & _ & Hs). }
  assert (0 < a') by (subst a'; lia). clearbody a'.
  destruct (drop_while (among d) s) as [|x r] eqn:E.
  { apply cstr_nil in Hr. by run (ld_run _ _ _ Hr). }
  pose proof Hr as (Hx & Hc & _)%cstr_cons. run (ld_run _ _ _ Hx). rewrite char_eq0 by done.
  run (strpbrk_run _ _ _ _ _ Hr Hd).
  rewrite <- (while_app (fun x => negb (among d x)) (x :: r)) in Hr.
  destruct (drop_while (fun x => negb (among d x)) (x :: r)) as [|y r'] eqn:E2; [done|].
  apply cstr_app in Hr as (_ & _ & (Hy & Hcy & _)%cstr_cons).
  destruct (Z.eqb_spec (a' + zlen (prefix_while (fun x => negb (among d x)) (x :: r))) 0) as [|_]; [lia|].
  cbn [negb]. run (ld_run _ _ _ Hy). rewrite char_eq0 by done. cbn [negb].
  by run (st_run _ _ 0 (mk_is_Some _ _ Hy)).
Qed.

Lemma strtok_done ct m : strtok 0 ct 0 m = Some ((0, 0), m).
Proof. done. Qed.

(** Outside of [a .. a + n) the memories agree. *)
Definition same_outside (m m' : mem) (a n : Z) : Prop :=
  forall x, ~ (a <= x < a + n) -> m' !! x = m !! x.

Lemma cstr_same_outside m m' a n b s :
  same_outside m m' a n -> separate a n b (zlen s + 1) -> cstr m b s -> cstr m' b s.
Proof.
  intros Ho Hs Hc. eapply cstr_ext; [done|]. intros x Hx. apply Ho. unfold separate in Hs. lia.
Qed.

Lemma strtok_all_run m p save a ct s d f :
  (if negb (p =? 0) then p else save) = a -> 0 < a -> cstr m a s -> cstr m ct d ->
  separate a (zlen s) ct (zlen d + 1) -> (length s + 1 < f)%nat ->
  exists ps m', strtok_all f p ct save m = Some (ps, m') /\
    Forall2 (cstr m') ps (tokens d s) /\ same_outside m m' a (zlen s).
Proof.
  revert m p save a f.
  induction s as [s IH] using (well_founded_induction (well_founded_ltof _ length)). unfold ltof in IH.
  intros m p save a [|f] Hp Ha Hs Hd Hsep Hf; [lia|]. cbn [strtok_all]. unfold separate in Hsep.
  pose proof (strtok_run m p save a ct s d Hp Ha Hs Hd) as Hrun. cbv zeta in Hrun.
  rewrite tokens_step. set (a' := a + zlen (prefix_while (among d) s)) in *.
  pose proof (f_equal length (while_app (among d) s)) as Hls. rewrite length_app in Hls.
  assert (Hr : cstr m a' (drop_while (among d) s)).
  { rewrite <- (while_app (among d) s) in Hs. by apply cstr_app in Hs as (_ & _ & Hs). }
  destruct (drop_while (among d) s) as [|x r] eqn:E.
  { run Hrun. exists [], m. split_and!; [done|constructor|done]. }
  set (nd := fun x => negb (among d x)) in *.
  pose proof (f_equal length (while_app nd (x :: r))) as Hlr. rewrite length_app in Hlr.
  rewrite <- (while_app nd (x :: r)) in Hr.
  set (tok := prefix_while nd (x :: r)) in *.
  destruct (drop_while nd (x :: r)) as [|y r'] eqn:E2; run Hrun; cbv beta iota;
    (destruct (Z.eqb_spec a' 0) as [|_]; [lia|]).
  - destruct f as [|f]; [lia|]. cbn [strtok_all]. erewrite bind_some; [|by run (strtok_done ct m)].
    exists [a'], m. rewrite app_nil_r in Hr. split_and!; [done|constructor; [exact Hr|rewrite E2; constructor]|done].
  - cbn [length] in *. apply cstr_app in Hr as (Hct & Hht & (Hy & _ & Hr)%cstr_cons).
    destruct (IH r' ltac:(lia) (<[a' + zlen tok := 0]> m) 0 (a' + zlen tok + 1) (a' + zlen tok + 1) f)
      as (ps & m' & Hps & Hall & Hout).
    + done.
    + lia.
    + apply (cstr_store_ne m _ [0]); [unfold separate; cbn [length]; lia|done].
    + apply (cstr_store_ne m _ [0]); [unfold separate; cbn [length]; lia|done].
    + unfold separate. lia.
    + lia.
    + run Hps. exists (a' :: ps), m'. split_and!; [done| |].
      * constructor; [change (cstr m' a' tok)|rewrite E2; exact Hall]. eapply cstr_same_outside; [exact Hout|unfold separate; lia|].
        split; [done|]. apply holds_app. split.
        { apply (holds_store_ne m _ [0]); [unfold separate; cbn [length]; lia|done]. }
        split; [by rewrite lookup_insert_eq|done].
      * intros z Hz. rewrite Hout by lia. apply lookup_insert_ne. lia.
Qed.
