(* ===== verification/Printf.v ===== *)
(** * Number formatting: the digit routines of lib/libc/printf.c

    [longlong_to_string] and [longlong_to_hexstring] fill the tail of a buffer
    from its end; the result pointer and the sign character are returned.  The
    loop over the digits is given 20 turns (16 for hexadecimal), the number of
    digits of the largest 64-bit value. *)

From S2P Require Import Prelude Mem.
Local Open Scope lk_scope.

Definition LONGFLAG : Z := 1.
Definition LONGLONGFLAG : Z := 2.
Definition HALFFLAG : Z := 4.
Definition HALFHALFFLAG : Z := 8.
Definition SIZETFLAG : Z := 16.
Definition INTMAXFLAG : Z := 32.
Definition PTRDIFFFLAG : Z := 64.
Definition ALTFLAG : Z := 128.
Definition CAPSFLAG : Z := 256.
Definition SHOWSIGNFLAG : Z := 512.
Definition SIGNEDFLAG : Z := 1024.
Definition LEFTFORMATFLAG : Z := 2048.
Definition LEADZEROFLAG : Z := 4096.
Definition BLANKPOSFLAG : Z := 8192.

Definition flag_set (flag f : Z) : bool := negb (Z.land flag f =? 0).

(** [while (n >= 10) { digit = n % 10; n /= 10; buf[--pos] = digit + '0'; }] *)
Fixpoint dec_digits (fuel : nat) (buf pos n : Z) : M mem (Z * Z) :=
  if 10 <=? n then
    match fuel with
    | O => panic
    | S fuel' =>
        let digit := n mod 10 in
        st (buf + (pos - 1)) (digit + 48) ;;;
        dec_digits fuel' buf (pos - 1) (n / 10)
    end
  else ret (pos, n).

Definition longlong_to_string (buf n len flag : Z) : M mem (Z * Z) :=
  let pos := len in
  let negative := flag_set flag SIGNEDFLAG && (s64 n <? 0) in
  let n := if negative then u64 (- n) else n in
  st (buf + (pos - 1)) 0 ;;;
  let* (pos, n) := dec_digits 20 buf (pos - 1) n in
  st (buf + (pos - 1)) (n + 48) ;;;
  let signchar :=
    if negative then 45
    else if flag_set flag SHOWSIGNFLAG then 43
    else if flag_set flag BLANKPOSFLAG then 32
    else 0 in
  ret (buf + (pos - 1), signchar).

Definition hextable : list Z :=
  [48; 49; 50; 51; 52; 53; 54; 55; 56; 57; 97; 98; 99; 100; 101; 102].
Definition hextable_caps : list Z :=
  [48; 49; 50; 51; 52; 53; 54; 55; 56; 57; 65; 66; 67; 68; 69; 70].

(** [do { digit = u % 16; u /= 16; buf[--pos] = table[digit]; } while (u != 0);] *)
Fixpoint hex_digits (fuel : nat) (table : list Z) (buf pos u : Z) : M mem Z :=
  match fuel with
  | O => panic
  | S fuel' =>
      let digit := u mod 16 in
      let u := u / 16 in
      let* c := getopt (fun _ => table !! Z.to_nat digit) in
      st (buf + (pos - 1)) c ;;;
      if negb (u =? 0) then hex_digits fuel' table buf (pos - 1) u else ret (pos - 1)
  end.

Definition longlong_to_hexstring (buf u len flag : Z) : M mem Z :=
  let pos := len in
  let table := if flag_set flag CAPSFLAG then hextable_caps else hextable in
  st (buf + (pos - 1)) 0 ;;;
  let* pos := hex_digits 16 table buf (pos - 1) u in
  ret (buf + pos).
