(* ===== verification/LibcProps.v ===== *)
(** * Theorems on lib/libc

    What [memmove], [memset], the string comparison, [strlcpy], [strlcat],
    [strtok] and the number formatting do on every input, with the limits of
    the implementations. *)

From S2P Require Import Prelude Mem MemSpec CStr CStrSpec Printf.
Local Open Scope lk_scope.

(** ** Formatting and parsing numbers *)

(** Parsing a sequence of digits without wrap-around. *)
Definition number (base : Z) (val : Z -> Z) (s : list Z) : Z :=
  foldl (fun v c => v * base + val c) 0 s.

Lemma foldl_number base val s v :
  foldl (fun v c => v * base + val c) v s = v * base ^ zlen s + number base val s.
Proof.
  unfold number. revert v. induction s as [|c s IH]; intros v; cbn [foldl length].
  { cbn. lia. }
  rewrite IH, (IH (0 * base + val c)). rewrite Nat2Z.inj_succ, Z.pow_succ_r by lia. ring.
Qed.

Lemma number_cons base val c s :
  number base val (c :: s) = val c * base ^ zlen s + number base val s.
Proof. unfold number at 1. cbn [foldl]. by rewrite foldl_number, Z.mul_0_l, Z.add_0_l. Qed.

Lemma dec_loop_run m a s v f :
  cstr m a s -> Forall (fun c => isdigit c = true) s -> (length s < f)%nat -> 0 <= v < 2 ^ 64 ->
  dec_loop u64 f a v m = Some (u64 (v * 10 ^ zlen s + number 10 (fun c => c - 48) s), m).
Proof.
  revert a v f. induction s as [|c s IH]; intros a v [|f] Hs Hd Hf Hv; try (cbn in Hf; lia);
    cbn [dec_loop].
  - apply cstr_nil in Hs. run (ld_run _ _ _ Hs). cbn [Z.eqb negb andb]. unfold number.
    cbn [foldl length]. rewrite u64_small; [|rewrite Z.add_0_r]; rewrite Z.mul_1_r; [|done].
    by rewrite Z.add_0_r.
  - apply cstr_cons in Hs as (Hc & Hch & Hs). run (ld_run _ _ _ Hc).
    apply Forall_cons in Hd as [Hdc Hd]. rewrite char_eq0, Hdc by done. cbn [negb andb length] in *.
    rewrite IH by (first [done|lia|apply u64_range]). do 2 f_equal. rewrite number_cons.
    unfold u64. rewrite Zplus_mod, Zmult_mod_idemp_l, <- Zplus_mod. f_equal.
    rewrite Nat2Z.inj_succ, Z.pow_succ_r by lia. ring.
Qed.

Lemma hex_loop_run m a s v f :
  cstr m a s -> Forall (fun c => isxdigit c = true) s -> (length s < f)%nat -> 0 <= v < 2 ^ 64 ->
  hex_loop u64 f a v m = Some (u64 (v * 16 ^ zlen s + number 16 hexval s), m).
Proof.
  revert a v f. induction s as [|c s IH]; intros a v [|f] Hs Hd Hf Hv; try (cbn in Hf; lia);
    cbn [hex_loop].
  - apply cstr_nil in Hs. run (ld_run _ _ _ Hs). cbn [Z.eqb negb andb]. unfold number.
    cbn [foldl length]. rewrite u64_small; [|rewrite Z.add_0_r]; rewrite Z.mul_1_r; [|done].
    by rewrite Z.add_0_r.
  - apply cstr_cons in Hs as (Hc & Hch & Hs). run (ld_run _ _ _ Hc).
    apply Forall_cons in Hd as [Hdc Hd]. rewrite char_eq0, Hdc by done. cbn [negb andb length] in *.
    rewrite IH by (first [done|lia|apply u64_range]). do 2 f_equal. rewrite number_cons.
    unfold u64. rewrite Zplus_mod, Zmult_mod_idemp_l, <- Zplus_mod. f_equal.
    rewrite Nat2Z.inj_succ, Z.pow_succ_r by lia. ring.
Qed.

Definition dec : list Z -> Z := number 10 (fun c => c - 48).
Definition decimal (s : list Z) : Prop := Forall (fun c => isdigit c = true) s.

Lemma isdigit_val d : 0 <= d < 10 -> isdigit (d + 48) = true /\ char (d + 48).
Proof. unfold isdigit, char. intros. split; [|lia]. zcases; (done || lia). Qed.

Lemma same_outside_trans m1 m2 m3 a n :
  same_outside m1 m2 a n -> same_outside m2 m3 a n -> same_outside m1 m3 a n.
Proof. intros H1 H2 x Hx. by rewrite H2, H1. Qed.

Lemma same_outside_insert m a v b n :
  b <= a < b + n -> same_outside m (<[a := v]> m) b n.
Proof. intros Ha x Hx. apply lookup_insert_ne. lia. Qed.

Lemma mapped_outside m m' a n b k : mapped m b k -> same_outside m m' a n -> mapped m' a n -> mapped m' b k.
Proof.
  intros Hm Ho Hm' x Hx. destruct (decide (a <= x < a + n)) as [Hin|Hout]; [by apply Hm'|].
  rewrite Ho by done. by apply Hm.
Qed.

(** Putting one more character in front of a string. *)
Lemma cstr_push m a c s :
  char c -> cstr m (a + 1) s -> cstr (<[a := c]> m) a (c :: s).
Proof.
  intros Hc Hs. apply cstr_cons. split_and!; [apply lookup_insert_eq|done|].
  apply (cstr_store_ne m a [c]); [unfold separate; cbn [length]; lia|done].
Qed.

(** The numeral of [n]: its digits in [base], the most significant first. *)
Fixpoint numeral (f : nat) (base : Z) (digit : Z -> Z) (n : Z) : list Z :=
  match f with
  | O => []
  | S f' => (if n <? base then [] else numeral f' base digit (n / base)) ++ [digit (n mod base)]
  end.
Definition dec_str (n : Z) : list Z := numeral 21 10 (fun d => d + 48) n.
Definition hex_str (table : list Z) (n : Z) : list Z := numeral 16 16 (fun d => nth (Z.to_nat d) table 0) n.

Lemma numeral_step f base digit n ds :
  base <= n -> numeral f base digit (n / base) ++ digit (n mod base) :: ds = numeral (S f) base digit n ++ ds.
Proof. intros Hn. cbn [numeral]. rewrite (proj2 (Z.ltb_ge n base) Hn), <- app_assoc. done. Qed.

Lemma dec_digits_run f m buf pos n ds :
  0 <= n < 10 ^ (Z.of_nat f + 1) -> Z.of_nat f < pos -> mapped m buf pos ->
  cstr m (buf + pos) ds -> decimal ds ->
  exists pos' n' ds' m', dec_digits f buf pos n m = Some ((pos', n'), m') /\
    cstr m' (buf + pos') ds' /\ decimal ds' /\ 0 <= n' < 10 /\ (0 < n -> 0 < n') /\ 0 < pos' <= pos /\
    n' * 10 ^ zlen ds' + dec ds' = n * 10 ^ zlen ds + dec ds /\
    n' + 48 :: ds' = numeral (S f) 10 (fun d => d + 48) n ++ ds /\ pos' + zlen ds' = pos + zlen ds /\
    mapped m' buf pos' /\ same_outside m m' buf pos.
Proof.
  revert m pos n ds. induction f as [|f IH]; intros m pos n ds Hn Hp Hm Hs Hd; cbn [dec_digits];
    (destruct (Z.leb_spec 10 n) as [Hge|Hlt];
     [|exists pos, n, ds, m; split_and!; try first [done|lia|by intros ??];
       cbn [numeral]; by rewrite (proj2 (Z.ltb_lt n 10)), Z.mod_small by lia]).
  { exfalso. change (10 ^ _) with 10 in Hn. lia. }
  rewrite Nat2Z.inj_succ, <- Z.add_1_l, <- Z.add_assoc, Z.pow_add_r in Hn by lia. change (10 ^ 1) with 10 in Hn.
  pose proof (Z_div_mod_eq_full n 10) as En. pose proof (Z.mod_pos_bound n 10 ltac:(lia)) as Hr.
  destruct (isdigit_val (n mod 10) Hr) as [Hdg Hch].
  run (st_run m (buf + (pos - 1)) (n mod 10 + 48) (Hm (buf + (pos - 1)) ltac:(lia))). rewrite u8_small by (unfold char in *; lia).
  destruct (IH (<[buf + (pos - 1) := n mod 10 + 48]> m) (pos - 1) (n / 10) (n mod 10 + 48 :: ds))
    as (pos' & n' & ds' & m' & E & Hs' & Hd' & Hn' & Hpos & Hp' & Ev & En' & Hl' & Hm' & Ho).
  - split; [apply Z.div_pos; lia|apply Z.div_lt_upper_bound; lia].
  - lia.
  - apply mapped_insert. apply mapped_sub with buf pos; [done|lia..].
  - apply cstr_push; [done|]. by replace (buf + (pos - 1) + 1) with (buf + pos) by lia.
  - by constructor.
  - exists pos', n', ds', m'. split_and!; try first [done|lia].
    + rewrite Ev. unfold dec. rewrite number_cons. cbn [length]. rewrite Nat2Z.inj_succ, Z.pow_succ_r by lia.
      rewrite En at 3. ring.
    + rewrite En'. by apply (numeral_step (S f) 10 (fun d => d + 48)).
    + rewrite Hl'. cbn [length]. lia.
    + intros x Hx. rewrite Ho by lia. apply lookup_insert_ne. lia.
Qed.

(** The string [longlong_to_string] leaves: decimal digits without a leading
    zero, at most 20 of them, whose value is the number; and the sign. *)
Definition sign_char (flag n : Z) : Z :=
  if flag_set flag SIGNEDFLAG && (s64 n <? 0) then 45
  else if flag_set flag SHOWSIGNFLAG then 43
  else if flag_set flag BLANKPOSFLAG then 32
  else 0.

Lemma longlong_to_string_run m buf n flag :
  0 <= n < 2 ^ 64 -> mapped m buf 32 ->
  let v := if flag_set flag SIGNEDFLAG then Z.abs (s64 n) else n in
  exists p sign s m', longlong_to_string buf n 32 flag m = Some ((p, sign), m') /\
    s = dec_str v /\ sign = sign_char flag n /\ p + zlen s = buf + 31 /\ cstr m' p s /\ decimal s /\ dec s = v /\ (0 < v -> head s <> Some 48) /\ s <> [] /\
    (sign = 45 <-> flag_set flag SIGNEDFLAG = true /\ s64 n < 0) /\
    buf <= p < buf + 32 /\ same_outside m m' buf 32.
Proof.
  intros Hn Hm v. unfold longlong_to_string. cbv zeta.
  unfold sign_char. set (negative := _ && _). set (n0 := if negative then _ else _).
  assert (Hn0 : 0 <= n0 < 10 ^ (Z.of_nat 20 + 1)).
  { subst n0. destruct negative; [pose proof (u64_range (- n))|]; change (10 ^ _) with 1000000000000000000000; lia. }
  assert (Ev : n0 = v /\ (negative = true <-> flag_set flag SIGNEDFLAG = true /\ s64 n < 0)).
  { subst v n0 negative. destruct (flag_set flag SIGNEDFLAG); cbn [andb]; [|naive_solver].
    unfold s64, sgn, u64. rewrite (Z.mod_small n) by done. change (64 - 1) with 63.
    destruct (Z.ltb_spec n (2 ^ 63)); [destruct (Z.ltb_spec n 0); [lia|]; split; [lia|split; [done|lia]]|].
    destruct (Z.ltb_spec (n - 2 ^ 64) 0); [|lia]. split; [|split; [lia|done]].
    rewrite Z.mod_opp_l_nz by (rewrite ?Z.mod_small; lia). rewrite Z.mod_small by lia. lia. }
  clearbody n0 negative. destruct Ev as [-> Hneg].
  run (st_run m (buf + (32 - 1)) 0 (Hm (buf + (32 - 1)) ltac:(lia))). change (u8 0) with 0.
  destruct (dec_digits_run 20 (<[buf + (32 - 1) := 0]> m) buf (32 - 1) v [])
    as (pos' & n' & ds' & m' & E & Hs' & Hd' & Hn' & Hpos & Hp' & Ev & En & Hl & Hm' & Ho).
  { done. } { lia. }
  { apply mapped_insert. apply mapped_sub with buf 32; [done|lia..]. }
  { apply cstr_nil, lookup_insert_eq. } { constructor. }
  run E. cbv beta iota. destruct (isdigit_val n' Hn') as [Hdg Hch].
  run (st_run m' (buf + (pos' - 1)) (n' + 48) (Hm' (buf + (pos' - 1)) ltac:(lia))). rewrite u8_small by (unfold char in *; lia).
  eexists _, _, (n' + 48 :: ds'), _. split; [done|]. split_and!.
  - rewrite En. by rewrite app_nil_r.
  - done.
  - cbn [length] in *. lia.
  - apply cstr_push; [done|]. by replace (buf + (pos' - 1) + 1) with (buf + pos') by lia.
  - by constructor.
  - unfold dec in *. rewrite number_cons. cbn in Ev. lia.
  - cbn. intros Hv [=]. lia.
  - done.
  - rewrite <- Hneg. destruct negative; [done|]. split; [|done]. by repeat case_if.
  - lia.
  - lia.
  - intros x Hx. rewrite lookup_insert_ne by lia. rewrite Ho by lia. apply lookup_insert_ne. lia.
Qed.

Definition hex : list Z -> Z := number 16 hexval.
Definition hexadecimal (s : list Z) : Prop := Forall (fun c => isxdigit c = true) s.

Lemma hextable_val table d :
  table = hextable \/ table = hextable_caps -> 0 <= d < 16 ->
  exists c, table !! Z.to_nat d = Some c /\ hexval c = d /\ isxdigit c = true /\ char c.
Proof.
  intros Ht Hd.
  assert (T : forallb (fun i => forallb (fun t : list Z =>
      match t !! i with
      | Some c => (hexval c =? Z.of_nat i) && isxdigit c && (0 <? c) && (c <? 2 ^ 8)
      | None => false
      end) [hextable; hextable_caps]) (seq 0 16) = true) by (vm_compute; reflexivity).
  rewrite forallb_forall in T. specialize (T (Z.to_nat d) ltac:(apply in_seq; lia)).
  rewrite forallb_forall in T.
  specialize (T table ltac:(destruct Ht as [-> | ->]; [by left|by right; left])).
  destruct (table !! Z.to_nat d) as [c|]; [|done]. exists c. bools. unfold char. split_and!; done || lia.
Qed.

Lemma hex_digits_run f m table buf pos n ds :
  table = hextable \/ table = hextable_caps ->
  0 <= n < 16 ^ Z.of_nat f -> (0 < f)%nat -> Z.of_nat f <= pos -> mapped m buf pos ->
  cstr m (buf + pos) ds -> hexadecimal ds ->
  exists pos' ds' m', hex_digits f table buf pos n m = Some (pos', m') /\
    cstr m' (buf + pos') ds' /\ hexadecimal ds' /\ pos - Z.of_nat f <= pos' < pos /\
    hex ds' = n * 16 ^ zlen ds + hex ds /\
    ds' = numeral f 16 (fun d => nth (Z.to_nat d) table 0) n ++ ds /\ pos' + zlen ds' = pos + zlen ds /\
    same_outside m m' buf pos.
Proof.
  intros Ht. revert m pos n ds. induction f as [|f IH]; intros m pos n ds Hn Hf Hp Hm Hs Hd; [lia|].
  cbn [hex_digits].
  pose proof (Z_div_mod_eq_full n 16) as En. pose proof (Z.mod_pos_bound n 16 ltac:(lia)) as Hr.
  destruct (hextable_val table (n mod 16) Ht Hr) as (c & Hc & Hv & Hx & Hch).
  rewrite (bind_some _ _ m c m) by (unfold getopt; by rewrite Hc).
  run (st_run m (buf + (pos - 1)) c (Hm (buf + (pos - 1)) ltac:(lia))).
  rewrite u8_small by (unfold char in *; lia).
  set (m1 := <[buf + (pos - 1) := c]> m).
  assert (Hs1 : cstr m1 (buf + (pos - 1)) (c :: ds)).
  { apply cstr_push; [done|]. by replace (buf + (pos - 1) + 1) with (buf + pos) by lia. }
  assert (Hv1 : hex (c :: ds) = n mod 16 * 16 ^ zlen ds + hex ds) by (unfold hex; by rewrite number_cons, Hv).
  assert (Ho1 : same_outside m m1 buf pos) by (apply same_outside_insert; lia).
  destruct (Z.eqb_spec (n / 16) 0) as [E|E]; cbn [negb].
  { assert (n < 16) by (apply Z.div_small_iff in E; lia).
    exists (pos - 1), (c :: ds), m1. split_and!; try first [done|lia].
    - by constructor.
    - cbn [numeral]. rewrite (proj2 (Z.ltb_lt n 16)) by lia. cbn [app]. f_equal. symmetry. by apply nth_lookup_Some.
    - cbn [length]. lia. }
  rewrite Nat2Z.inj_succ, Z.pow_succ_r in Hn by lia.
  destruct f as [|f]; [cbn in Hn; lia|].
  destruct (IH m1 (pos - 1) (n / 16) (c :: ds)) as (pos' & ds' & m' & Er & Hs' & Hd' & Hp' & Hv' & En' & Hl' & Ho).
  - split; [apply Z.div_pos; lia|apply Z.div_lt_upper_bound; lia].
  - lia.
  - lia.
  - apply mapped_insert. apply mapped_sub with buf pos; [done|lia..].
  - done.
  - by constructor.
  - exists pos', ds', m'. split_and!; try first [done|lia].
    + rewrite Hv', Hv1. cbn [length]. rewrite (Nat2Z.inj_succ (length ds)), Z.pow_succ_r by lia.
      rewrite En at 3. ring.
    + rewrite En', <- (numeral_step (S f)).
      * do 2 f_equal. symmetry. by apply nth_lookup_Some.
      * destruct (Z_lt_le_dec n 16); [|done]. rewrite Z.div_small in E; lia.
    + rewrite Hl'. cbn [length]. lia.
    + intros x Hx'. rewrite Ho by lia. by apply Ho1.
Qed.

Lemma longlong_to_hexstring_run m buf n flag :
  0 <= n < 2 ^ 64 -> mapped m buf 32 ->
  exists p s m', longlong_to_hexstring buf n 32 flag m = Some (p, m') /\
    s = hex_str (if flag_set flag CAPSFLAG then hextable_caps else hextable) n /\ p + zlen s = buf + 31 /\
    cstr m' p s /\ hexadecimal s /\ hex s = n /\ buf + 15 <= p < buf + 32 /\ same_outside m m' buf 32.
Proof.
  intros Hn Hm. unfold longlong_to_hexstring.
  run (st_run m (buf + (32 - 1)) 0 (Hm (buf + (32 - 1)) ltac:(lia))). change (u8 0) with 0.
  destruct (hex_digits_run 16 (<[buf + (32 - 1) := 0]> m)
    (if flag_set flag CAPSFLAG then hextable_caps else hextable) buf (32 - 1) n [])
    as (pos' & s & m' & E & Hs & Hd & Hp & Hv & En & Hl & Ho).
  { destruct (flag_set _ _); tauto. } { done. } { lia. } { lia. }
  { apply mapped_insert. apply mapped_sub with buf 32; [done|lia..]. }
  { apply cstr_nil, lookup_insert_eq. } { constructor. }
  run E. exists (buf + pos'), s, m'. split_and!; try first [done|lia].
  - rewrite En. by rewrite app_nil_r.
  - cbn [length] in Hl. lia.
  - rewrite Hv. cbn. lia.
  - intros x Hx. rewrite Ho by lia. apply lookup_insert_ne. lia.
Qed.

(** ** Parsing *)

Lemma isxdigit_char c : isdigit c = true -> c <> 120.
Proof. unfold isdigit. intros H ->. done. Qed.

Lemma atoull_decimal m a s :
  cstr m a s -> decimal s -> s <> [] -> atoull a m = Some (u64 (dec s), m).
Proof.
  intros Hs Hd Hne. unfold atoull.
  assert (Hp : hex_prefix a m = Some (false, m)).
  { destruct s as [|c s]; [done|]. unfold hex_prefix. pose proof Hs as (Hc & Hch & Hs')%cstr_cons.
    run (ld_run _ _ _ Hc). destruct (c =? 48); [|done]. destruct s as [|c' s].
    - apply cstr_nil in Hs'. by run (ld_run _ _ _ Hs').
    - apply cstr_cons in Hs' as (Hc' & _). run (ld_run _ _ _ Hc').
      apply Forall_cons in Hd as [_ [Hd _]%Forall_cons]. apply isxdigit_char in Hd.
      apply Z.eqb_neq in Hd. by rewrite Hd. }
  run Hp. unfold fuelled. pose proof (cstr_size _ _ _ Hs).
  rewrite (dec_loop_run _ _ s) by (done || lia). by rewrite Z.mul_0_l, Z.add_0_l.
Qed.

Lemma atoull_hexadecimal m a s :
  cstr m a (48 :: 120 :: s) -> hexadecimal s -> atoull a m = Some (u64 (hex s), m).
Proof.
  intros Hs Hd. unfold atoull. apply cstr_cons in Hs as (Ha & _ & (Hb & _ & Hs)%cstr_cons).
  assert (Hp : hex_prefix a m = Some (true, m)).
  { unfold hex_prefix. run (ld_run _ _ _ Ha). rewrite Z.eqb_refl. by run (ld_run _ _ _ Hb). }
  run Hp. unfold fuelled. pose proof (cstr_size _ _ _ Hs).
  replace (a + 2) with (a + 1 + 1) by lia.
  rewrite (hex_loop_run _ _ s) by (done || lia). by rewrite Z.mul_0_l, Z.add_0_l.
Qed.

(** ** The theorems *)

(** C17: [memmove] moves any range of up to 2 GiB correctly, however source and
    destination overlap and whatever their alignment: afterwards the
    destination holds the bytes the source held before the call and no other
    byte has changed.  Every access through a [word] pointer is aligned. *)
Theorem memmove_correct (m : mem) (d s : Z) (l : list Z) :
  zlen l < 2 ^ 31 -> same_half d s -> Forall byte l ->
  holds m s l -> mapped m d (zlen l) ->
  exists m', memmove d s (zlen l) m = Some (d, m') /\
    holds m' d l /\ same_outside m m' d (zlen l).
Proof.
  intros Hn Hsh HB Hh Hm. exists (store m d l). split_and!; [by apply memmove_run|apply holds_store|].
  intros x Hx. by rewrite store_lookup, decide_False.
Qed.

Lemma memmove_correct_witness :
  exists m', memmove 1003 1000 10 (store ∅ 1000 [1; 2; 3; 4; 5; 6; 7; 8; 9; 10; 0; 0; 0]) = Some (1003, m') /\
    holds m' 1003 [1; 2; 3; 4; 5; 6; 7; 8; 9; 10].
Proof.
  destruct (memmove_correct (store ∅ 1000 [1; 2; 3; 4; 5; 6; 7; 8; 9; 10; 0; 0; 0]) 1003 1000
    [1; 2; 3; 4; 5; 6; 7; 8; 9; 10]) as (m' & E & Hh & _).
  - done.
  - unfold same_half. lia.
  - repeat (constructor; [unfold byte; lia|]). constructor.
  - repeat split.
  - apply mapped_sub with 1000 13; [|cbn; lia..]. apply (holds_mapped _ _ _ (holds_store ∅ 1000 [1; 2; 3; 4; 5; 6; 7; 8; 9; 10; 0; 0; 0])).
  - exists m'. split; [exact E|exact Hh].
Defined.

(** [memset] writes every byte of the range and nothing else, but not
    always the byte it was asked for: in each whole aligned word the upper four
    bytes are 0 for a value below 0x80 and 0xff otherwise, because the pattern
    is built in an [int].  The result is therefore right for 0 and 0xff and for
    ranges that contain no aligned word. *)
Theorem memset_spec (m : mem) (s c n : Z) :
  0 <= s -> 0 <= n -> s + n <= 2 ^ 64 -> mapped m s n ->
  exists m', memset s c n m = Some (s, m') /\ same_outside m m' s n /\
    (forall x, s <= x < s + n -> m' !! x = Some (memset_byte s c n x)) /\
    ((u8 c = 0 \/ u8 c = 255 \/ down8 (s + n) <= up8 s) ->
     forall x, s <= x < s + n -> m' !! x = Some (u8 c)).
Proof.
  intros Hs Hn Hsn Hm. destruct (memset_run m s c n Hs Hn Hsn Hm) as (m' & E & Hl).
  exists m'. split_and!; [done|..].
  - intros x Hx. by rewrite Hl, decide_False.
  - intros x Hx. by rewrite Hl, decide_True.
  - intros Hc x Hx. rewrite Hl, decide_True by done. f_equal. unfold memset_byte, high_byte.
    destruct Hc as [-> | [-> | Hc]]; [by destruct (_ && _)..|]. zcases; cbn [andb]; first [done|lia].
Qed.

(** [memset(buf, 1, 8)] on an aligned buffer leaves 0x0000000001010101. *)
Lemma memset_spec_witness :
  exists m', memset 64 1 8 (store ∅ 64 (replicate 8 7)) = Some (64, m') /\
    m' !! 67 = Some 1 /\ m' !! 68 = Some 0.
Proof.
  destruct (memset_spec (store ∅ 64 (replicate 8 7)) 64 1 8) as (m' & E & _ & Hl & _).
  - lia.
  - lia.
  - lia.
  - apply (holds_mapped _ _ _ (holds_store ∅ 64 (replicate 8 7))).
  - exists m'. split; [exact E|]. split; [exact (Hl 67 ltac:(lia))|exact (Hl 68 ltac:(lia))].
Defined.

(** [strcmp] and [memcmp] return 0 exactly when the strings, or the ranges,
    are equal, and read nothing beyond them.  Their sign orders the operands
    only while the first bytes that differ are less than 128 apart: the
    difference is truncated to a [signed char], which turns larger ones round. *)
Theorem compare_spec (m : mem) (a b : Z) (s1 s2 l1 l2 : list Z) :
  cstr m a s1 -> cstr m b s2 ->
  holds m a l1 -> holds m b l2 -> Forall byte l1 -> Forall byte l2 -> length l1 = length l2 ->
  let dm := first_diff l1 l2 in
  let ds := first_diff (s1 ++ [0]) (s2 ++ [0]) in
  (exists r, memcmp a b (zlen l1) m = Some (r, m) /\ (r = 0 <-> l1 = l2) /\
     (- 128 <= dm <= 127 -> r = dm) /\ (dm < - 128 -> 0 < r) /\ (127 < dm -> r < 0)) /\
  (exists r, strcmp a b m = Some (r, m) /\ (r = 0 <-> s1 = s2) /\
     (- 128 <= ds <= 127 -> r = ds) /\ (ds < - 128 -> 0 < r) /\ (127 < ds -> r < 0)).
Proof.
  intros H1 H2 Hh1 Hh2 HB1 HB2 Hl dm ds. split.
  - exists (s8 dm). split; [by apply memcmp_run|]. rewrite <- (first_diff_eq l1 l2 Hl).
    apply s8_sign. by apply first_diff_range.
  - exists (s8 ds). split; [by apply strcmp_run|].
    destruct H1 as [H1 _], H2 as [H2 _]. rewrite <- (first_diff_cstr s1 s2 H1 H2).
    apply s8_sign, first_diff_range; by apply char_byte.
Qed.

(** One string starts with 0x01, the other with 0x90: the first compares as greater. *)
Lemma compare_spec_witness :
  exists r, strcmp 10 20 (store (store ∅ 10 [1; 0]) 20 [144; 0]) =
    Some (r, store (store ∅ 10 [1; 0]) 20 [144; 0]) /\ 0 < r.
Proof.
  destruct (compare_spec (store (store ∅ 10 [1; 0]) 20 [144; 0]) 10 20 [1] [144] [1] [144])
    as [_ (r & E & _ & _ & Hr & _)].
  - split; [repeat constructor|repeat split].
  - split; [repeat constructor|repeat split].
  - repeat split.
  - repeat split.
  - constructor; [unfold byte; lia|constructor].
  - constructor; [unfold byte; lia|constructor].
  - done.
  - exists r. split; [exact E|apply Hr; reflexivity].
Defined.

(** [strlcpy] returns the length of the source, leaves the longest prefix of
    it that fits, NUL-terminated, and writes no byte at or beyond the size it is
    given, which is all the room the destination needs. *)
Theorem strlcpy_spec (m : mem) (d a n : Z) (s : list Z) :
  0 < n -> cstr m a s -> mapped m d (Z.min n (zlen s + 1)) ->
  separate d (Z.min n (zlen s + 1)) a (zlen s + 1) ->
  exists m', strlcpy d a n m = Some (zlen s, m') /\
    cstr m' d (take (Z.to_nat (n - 1)) s) /\ cstr m' a s /\
    same_outside m m' d (Z.min n (zlen s + 1)).
Proof.
  intros Hn Hs Hm Hsep. exists (store m d (take (Z.to_nat (n - 1)) s ++ [0])).
  assert (Hlen : zlen (take (Z.to_nat (n - 1)) s ++ [0]) = Z.min n (zlen s + 1)).
  { rewrite zlen_snoc, length_take. lia. }
  split_and!.
  - by apply strlcpy_run.
  - apply cstr_store, Forall_take. by destruct Hs.
  - apply cstr_store_ne; [by rewrite Hlen|done].
  - intros x Hx. rewrite store_lookup, Hlen, decide_False by done. done.
Qed.

(** ["abcdef"] into a buffer of four bytes. *)
Lemma strlcpy_spec_witness :
  exists m', strlcpy 20 10 4 (store (store ∅ 10 [97; 98; 99; 100; 101; 102; 0]) 20 [7; 7; 7; 7]) = Some (6, m') /\
    cstr m' 20 [97; 98; 99].
Proof.
  destruct (strlcpy_spec (store (store ∅ 10 [97; 98; 99; 100; 101; 102; 0]) 20 [7; 7; 7; 7]) 20 10 4
    [97; 98; 99; 100; 101; 102]) as (m' & E & Hs & _).
  - lia.
  - split; [repeat (constructor; [unfold char; lia|]); constructor|repeat split].
  - apply (holds_mapped _ 20 [7; 7; 7; 7]). apply holds_store.
  - right. cbn. lia.
  - exists m'. split; [exact E|exact Hs].
Defined.

(** [strlcat] appends at most [n - 1] characters of the source and a NUL
    behind the string already in the destination.  It returns the length it
    tried to make, and the result is the full concatenation when that fits into
    [n] bytes; but the bound ignores the characters already there, so otherwise
    the terminator lands at or beyond [d + n], outside the buffer. *)
Theorem strlcat_spec (m : mem) (d a n : Z) (t s : list Z) :
  zlen t < n -> cstr m d t -> cstr m a s ->
  mapped m d (zlen t + Z.min n (zlen s + 1)) ->
  separate d (zlen t + Z.min n (zlen s + 1)) a (zlen s + 1) ->
  exists m', strlcat d a n m = Some (zlen t + zlen s, m') /\
    cstr m' d (t ++ take (Z.to_nat (n - 1)) s) /\
    (zlen t + zlen s < n -> cstr m' d (t ++ s) /\ same_outside m m' d n) /\
    (n <= zlen t + zlen s -> 0 < zlen t ->
     exists x, d + n <= x /\ m' !! x = Some 0 /\ x = d + zlen t + Z.min (n - 1) (zlen s)).
Proof.
  intros Hn Ht Hs Hm Hsep. set (w := take (Z.to_nat (n - 1)) s).
  assert (Hlen : zlen w = Z.min (n - 1) (zlen s)) by (subst w; rewrite length_take; lia).
  exists (store m (d + zlen t) (w ++ [0])).
  assert (Hc : cstr (store m (d + zlen t) (w ++ [0])) d (t ++ w)).
  { apply cstr_app. destruct Ht as [Hct Hht]. split_and!; [done|..].
    - apply holds_app in Hht as [Hht _]. apply holds_store_ne; [unfold separate; lia|done].
    - apply cstr_store. subst w. apply Forall_take. by destruct Hs. }
  split_and!; [by apply strlcat_run|done|..].
  - intros Hfit. split.
    + assert (Ew : w = s) by (apply take_ge; lia). by rewrite Ew in *.
    + intros x Hx. rewrite store_lookup, decide_False; [done|]. rewrite zlen_snoc. lia.
  - intros Hbig Hpos. exists (d + zlen t + zlen w). split_and!; [lia| |by rewrite Hlen].
    rewrite <- Z.add_assoc, <- Nat2Z.inj_add, <- length_app.
    destruct Hc as [_ Hc]. by apply holds_app in Hc as [_ [Hc _]].
Qed.

(** A buffer of four bytes that holds ["ab"], and ["cdef"] to append: the NUL is
    written to its sixth byte. *)
Lemma strlcat_spec_witness :
  exists m', strlcat 20 10 4 (store (store ∅ 10 [99; 100; 101; 102; 0]) 20 [97; 98; 0; 7; 7; 7]) = Some (6, m') /\
    exists x, 20 + 4 <= x /\ m' !! x = Some 0.
Proof.
  destruct (strlcat_spec (store (store ∅ 10 [99; 100; 101; 102; 0]) 20 [97; 98; 0; 7; 7; 7]) 20 10 4
    [97; 98] [99; 100; 101; 102]) as (m' & E & _ & _ & Hx).
  - cbn. lia.
  - split; [repeat (constructor; [unfold char; lia|]); constructor|repeat split].
  - split; [repeat (constructor; [unfold char; lia|]); constructor|repeat split].
  - apply (holds_mapped _ 20 [97; 98; 0; 7; 7; 7]). apply holds_store.
  - right. cbn. lia.
  - exists m'. split; [exact E|]. destruct Hx as (x & Hx & Hz & _); [cbn; lia|cbn; lia|].
    exists x. split; [exact Hx|exact Hz].
Defined.

(** A caller that loops over [strtok] gets the fields of the string between
    delimiters, without the empty ones, in order: the loop ends, the pointers
    it collects hold exactly these strings when it has ended (later calls do
    not disturb earlier tokens), and only the string itself is written to. *)
Theorem strtok_tokens (m : mem) (a ct save : Z) (s d : list Z) (f : nat) :
  0 < a -> cstr m a s -> cstr m ct d -> separate a (zlen s) ct (zlen d + 1) ->
  (length s + 1 < f)%nat ->
  exists ps m', strtok_all f a ct save m = Some (ps, m') /\
    Forall2 (cstr m') ps (tokens d s) /\ same_outside m m' a (zlen s).
Proof.
  intros Ha. apply strtok_all_run; [|done]. apply Z.lt_neq, not_eq_sym, Z.eqb_neq in Ha. by rewrite Ha.
Qed.

(** ["a,,b"] split at commas. *)
Lemma strtok_tokens_witness :
  exists ps m', strtok_all 6 10 20 0 (store (store ∅ 10 [97; 44; 44; 98; 0]) 20 [44; 0]) = Some (ps, m') /\
    Forall2 (cstr m') ps [[97]; [98]].
Proof.
  destruct (strtok_tokens (store (store ∅ 10 [97; 44; 44; 98; 0]) 20 [44; 0]) 10 20 0 [97; 44; 44; 98] [44] 6)
    as (ps & m' & E & Hall & _).
  - lia.
  - split; [repeat (constructor; [unfold char; lia|]); constructor|repeat split].
  - split; [repeat (constructor; [unfold char; lia|]); constructor|repeat split].
  - left. cbn. lia.
  - cbn. lia.
  - exists ps, m'. split; [exact E|exact Hall].
Defined.

(** Numbers survive printing and parsing.  What [longlong_to_string] writes
    for a 64-bit value (its magnitude, when it is printed as signed, the sign
    character then being ['-'] exactly for a negative one) is read back by
    [atoull] as that value; what [longlong_to_hexstring] writes is read back
    once [0x] stands in front of it.  Neither writes outside its 32-byte buffer. *)
Theorem number_roundtrip (m : mem) (buf n flag : Z) :
  0 <= n < 2 ^ 64 -> mapped m buf 32 ->
  (exists p sign m1, longlong_to_string buf n 32 flag m = Some ((p, sign), m1) /\
     atoull p m1 = Some (if flag_set flag SIGNEDFLAG then Z.abs (s64 n) else n, m1) /\
     (sign = 45 <-> flag_set flag SIGNEDFLAG = true /\ s64 n < 0) /\ same_outside m m1 buf 32) /\
  (exists p m2, longlong_to_hexstring buf n 32 flag m = Some (p, m2) /\
     atoull (p - 2) (store m2 (p - 2) [48; 120]) = Some (n, store m2 (p - 2) [48; 120]) /\
     buf <= p - 2 /\ same_outside m m2 buf 32).
Proof.
  intros Hn Hm. split.
  - destruct (longlong_to_string_run m buf n flag Hn Hm)
      as (p & sign & s & m1 & E & _ & _ & _ & Hs & Hd & Hv & _ & Hne & Hsign & _ & Ho).
    exists p, sign, m1. split_and!; [done| |done|done].
    rewrite (atoull_decimal m1 p s) by done. rewrite Hv, u64_small; [done|].
    pose proof (sgn_range 64 n ltac:(lia)). unfold s64 in *. change (64 - 1) with 63 in *.
    destruct (flag_set flag SIGNEDFLAG); lia.
  - destruct (longlong_to_hexstring_run m buf n flag Hn Hm) as (p & s & m2 & E & _ & _ & Hs & Hd & Hv & Hp & Ho).
    exists p, m2. split_and!; [done| |lia|done].
    rewrite (atoull_hexadecimal _ _ s); [by rewrite Hv, u64_small| |done].
    cbn [store]. apply cstr_cons. split_and!.
    + rewrite lookup_insert_ne, lookup_insert_eq by lia. done.
    + unfold char. lia.
    + apply cstr_push; [unfold char; lia|]. replace (p - 2 + 1 + 1) with p by lia.
      apply (cstr_store_ne m2 _ [48]); [unfold separate; cbn; lia|done].
Qed.

(** -2^63, the value whose magnitude does not fit a [long long]. *)
Lemma number_roundtrip_witness :
  exists p m1, longlong_to_string 100 (2 ^ 63) 32 SIGNEDFLAG (store ∅ 100 (replicate 32 0)) = Some ((p, 45), m1) /\
    atoull p m1 = Some (2 ^ 63, m1).
Proof.
  destruct (number_roundtrip (store ∅ 100 (replicate 32 0)) 100 (2 ^ 63) SIGNEDFLAG)
    as [(p & sign & m1 & E & Hp & Hs & _) _].
  - lia.
  - apply (holds_mapped _ 100 (replicate 32 0)). apply holds_store.
  - assert (Es : sign = 45) by (apply Hs; split; reflexivity).
    exists p, m1. split; [rewrite E, Es; reflexivity|exact Hp].
Defined.
