(* ===== verification/Format.v ===== *)
(** * Formatted output: the engine of lib/libc/printf.c and its callers

    [_printf_engine] reads a format string from memory and hands pieces of text
    to an output function; the state is memory, the state of that function, the
    arguments still to be taken and the count of characters written.  An
    argument is the 64-bit slot that [va_arg] reads.  The arrays on the stack
    and the literal of a null string have addresses, [num_buffer], [temp] and
    [null_str].  [goto exit] on an error of the output function ends the run, so
    the engine is written with continuations: [k] is what is left to do.  Loops
    over a string are given as many turns as memory has bytes, plus one.

    [vsnprintf] is the engine with an output function that fills a bounded
    buffer; [_dvprintf] of lib/debug/debug.c the one with the console's, whose
    state is the list of characters put out. *)

From S2P Require Import Prelude Mem CStr Printf.
Local Open Scope lk_scope.

Definition s16 (z : Z) : Z := sgn 16 z.
Definition u16 (z : Z) : Z := z mod 2 ^ 16.
Definition SIZE_MAX : Z := 2 ^ 64 - 1.
Definition INT_MAX : Z := 2 ^ 31 - 1.

Section engine.
Context {T : Type} (out : Z -> Z -> M (mem * T) Z) (num_buffer temp null_str : Z).

Record pstate : Type := {
  p_mem : mem;
  p_user : T;
  ap : list Z;
  chars_written : Z;
}.

Definition on_mem {A} (c : M mem A) : M pstate A := fun s =>
  match c (p_mem s) with
  | Some (a, m) => Some (a, {| p_mem := m; p_user := p_user s; ap := ap s; chars_written := chars_written s |})
  | None => None
  end.

Definition va_arg : M pstate Z := fun s =>
  match ap s with
  | a :: ap' => Some (a, {| p_mem := p_mem s; p_user := p_user s; ap := ap'; chars_written := chars_written s |})
  | [] => None
  end.

Definition call_out (str len : Z) : M pstate Z := fun s =>
  match out str len (p_mem s, p_user s) with
  | Some (err, (m, t)) => Some (err, {| p_mem := m; p_user := t; ap := ap s; chars_written := chars_written s |})
  | None => None
  end.

Definition count_written (n : Z) (s : pstate) : pstate :=
  {| p_mem := p_mem s; p_user := p_user s; ap := ap s; chars_written := u64 (chars_written s + n) |}.

(** The two macros; the continuation gets the new [err]. *)
Definition OUTPUT_STRING (str len : Z) (k : Z -> M pstate Z) : M pstate Z :=
  let* err := call_out str len in
  if err <? 0 then ret err else modify (count_written err) ;;; k err.
Definition OUTPUT_CHAR (c : Z) (k : M pstate Z) : M pstate Z :=
  on_mem (st temp c) ;;; OUTPUT_STRING temp 1 (fun _ => k).

(** [for (; format_num > bound; format_num--) OUTPUT_CHAR(c);] *)
Fixpoint pad_loop (fuel : nat) (c bound format_num : Z) (k : M pstate Z) : M pstate Z :=
  match fuel with
  | O => panic
  | S fuel' =>
      if bound <? format_num then OUTPUT_CHAR c (pad_loop fuel' c bound (format_num - 1) k) else k
  end.
Definition pad (c bound format_num : Z) (k : M pstate Z) : M pstate Z :=
  pad_loop (S (Z.to_nat format_num)) c bound format_num k.

(** The label [_output_string]. *)
Definition output_field (s flags format_num signchar : Z) (k : M pstate Z) : M pstate Z :=
  if flag_set flags LEFTFORMATFLAG then
    OUTPUT_STRING s SIZE_MAX (fun err => pad 32 (u32 err) format_num k)
  else
    let* string_len := on_mem (strlen s) in
    let sign := negb (signchar =? 0) in
    let format_num := if sign && (0 <? format_num) then format_num - 1 else format_num in
    let zero := flag_set flags LEADZEROFLAG in
    let number := OUTPUT_STRING s SIZE_MAX (fun _ => k) in
    let padded := pad (if zero then 48 else 32) string_len format_num
      (if negb zero && sign then OUTPUT_CHAR signchar number else number) in
    if zero && sign then OUTPUT_CHAR signchar padded else padded.

(** The [va_arg] of the signed and of the unsigned conversions. *)
Definition signed_arg (flags a : Z) : Z :=
  if flag_set flags LONGLONGFLAG then s64 a
  else if flag_set flags LONGFLAG then s64 a
  else if flag_set flags HALFHALFFLAG then s8 a
  else if flag_set flags HALFFLAG then s16 a
  else if flag_set flags SIZETFLAG then s64 a
  else if flag_set flags INTMAXFLAG then s64 a
  else if flag_set flags PTRDIFFFLAG then s64 a
  else s32 a.
Definition unsigned_arg (flags a : Z) : Z :=
  if flag_set flags LONGLONGFLAG then u64 a
  else if flag_set flags LONGFLAG then u64 a
  else if flag_set flags HALFHALFFLAG then u8 a
  else if flag_set flags HALFFLAG then u16 a
  else if flag_set flags SIZETFLAG then u64 a
  else if flag_set flags INTMAXFLAG then u64 a
  else if flag_set flags PTRDIFFFLAG then u64 a
  else u32 a.

(** The object [%n] stores to. *)
Definition n_width (flags : Z) : nat :=
  if flag_set flags LONGLONGFLAG then 8
  else if flag_set flags LONGFLAG then 8
  else if flag_set flags HALFHALFFLAG then 1
  else if flag_set flags HALFFLAG then 2
  else if flag_set flags SIZETFLAG then 8
  else 4.

Definition hex_field (flags format_num : Z) (k : M pstate Z) : M pstate Z :=
  let* a := va_arg in
  let* s := on_mem (longlong_to_hexstring num_buffer (unsigned_arg flags a) 32 flags) in
  let field := output_field s flags format_num 0 k in
  if flag_set flags ALTFLAG then
    OUTPUT_CHAR 48 (OUTPUT_CHAR (if flag_set flags CAPSFLAG then 88 else 120) field)
  else field.

(** The [switch] on the conversion character [c]; [k] is the next turn of the
    outer loop. *)
Definition convert (c flags format_num : Z) (k : M pstate Z) : M pstate Z :=
  if c =? 37 then OUTPUT_CHAR 37 k
  else if c =? 99 then let* a := va_arg in OUTPUT_CHAR (u8 a) k
  else if c =? 115 then
    let* s := va_arg in
    output_field (if s =? 0 then null_str else s) (Z.ldiff flags LEADZEROFLAG) format_num 0 k
  else if (c =? 105) || (c =? 100) then
    let* a := va_arg in
    let flags' := Z.lor flags SIGNEDFLAG in
    let* (s, signchar) := on_mem (longlong_to_string num_buffer (u64 (signed_arg flags a)) 32 flags') in
    output_field s flags' format_num signchar k
  else if c =? 117 then
    let* a := va_arg in
    let* (s, signchar) := on_mem (longlong_to_string num_buffer (unsigned_arg flags a) 32 flags) in
    output_field s flags format_num signchar k
  else if c =? 112 then hex_field (Z.lor flags (Z.lor LONGFLAG ALTFLAG)) format_num k
  else if c =? 88 then hex_field (Z.lor flags CAPSFLAG) format_num k
  else if c =? 120 then hex_field flags format_num k
  else if c =? 110 then
    let* ptr := va_arg in
    let* n := gets chars_written in
    on_mem (st_list ptr (le_bytes (n_width flags) n)) ;;; k
  else OUTPUT_CHAR 37 (OUTPUT_CHAR c k).

(** The flag characters and digits: the new flags and number, or [None] for the
    characters that end the format. *)
Definition format_char (c flags format_num : Z) : option (Z * Z) :=
  if (48 <=? c) && (c <=? 57) then
    Some (if (c =? 48) && (format_num =? 0) then Z.lor flags LEADZEROFLAG else flags,
          u32 (u32 (format_num * 10) + (c - 48)))
  else if c =? 46 then Some (flags, format_num)
  else if c =? 45 then Some (Z.lor flags LEFTFORMATFLAG, format_num)
  else if c =? 43 then Some (Z.lor flags SHOWSIGNFLAG, format_num)
  else if c =? 32 then Some (Z.lor flags BLANKPOSFLAG, format_num)
  else if c =? 35 then Some (Z.lor flags ALTFLAG, format_num)
  else if c =? 108 then
    Some (Z.lor (if flag_set flags LONGFLAG then Z.lor flags LONGLONGFLAG else flags) LONGFLAG, format_num)
  else if c =? 104 then
    Some (Z.lor (if flag_set flags HALFFLAG then Z.lor flags HALFHALFFLAG else flags) HALFFLAG, format_num)
  else if c =? 122 then Some (Z.lor flags SIZETFLAG, format_num)
  else if c =? 106 then Some (Z.lor flags INTMAXFLAG, format_num)
  else if c =? 116 then Some (Z.lor flags PTRDIFFFLAG, format_num)
  else None.

(** The loop at [next_format]: the conversion character (0 at the end of the
    string), the position behind it, the flags and the number. *)
Fixpoint next_format (fuel : nat) (fmt flags format_num : Z) : M pstate (Z * Z * Z * Z) :=
  match fuel with
  | O => panic
  | S fuel' =>
      let* c := on_mem (ld fmt) in
      if c =? 0 then ret (0, fmt + 1, flags, format_num)
      else match format_char c flags format_num with
      | Some (flags', format_num') => next_format fuel' (fmt + 1) flags' format_num'
      | None => ret (c, fmt + 1, flags, format_num)
      end
  end.

(** The characters in front of a [%] or of the end. *)
Fixpoint scan_literal (fuel : nat) (fmt string_len : Z) : M pstate (Z * Z * Z) :=
  match fuel with
  | O => panic
  | S fuel' =>
      let* c := on_mem (ld fmt) in
      if (c =? 0) || (c =? 37) then ret (c, fmt + 1, string_len)
      else scan_literal fuel' (fmt + 1) (string_len + 1)
  end.

Definition engine_exit : M pstate Z := let* n := gets chars_written in ret (s32 n).

Fixpoint engine_loop (fuel n : nat) (fmt : Z) : M pstate Z :=
  match n with
  | O => panic
  | S n' =>
      let* (c, fmt', string_len) := scan_literal fuel fmt 0 in
      OUTPUT_STRING fmt string_len (fun _ =>
        if c =? 0 then engine_exit
        else
          let* (c, fmt', flags, format_num) := next_format fuel fmt' 0 0 in
          if c =? 0 then engine_exit
          else convert c flags format_num (engine_loop fuel n' fmt'))
  end.

Definition printf_engine (fmt : Z) (args : list Z) : M (mem * T) Z := fun '(m, t) =>
  match engine_loop (S (size m)) (S (size m)) fmt {| p_mem := m; p_user := t; ap := args; chars_written := 0 |} with
  | Some (r, s) => Some (r, (p_mem s, p_user s))
  | None => None
  end.
End engine.
Arguments pstate T : clear implicits.

(** ** [vsnprintf] *)

Record output_args : Type := { outstr : Z; out_len : Z; out_pos : Z }.

Definition next_pos (t : output_args) : output_args :=
  {| outstr := outstr t; out_len := out_len t; out_pos := out_pos t + 1 |}.

Definition lift_mem {T A} (c : M mem A) : M (mem * T) A := fun '(m, t) =>
  match c m with Some (a, m') => Some (a, (m', t)) | None => None end.

Fixpoint vsnprintf_loop (fuel : nat) (str len count : Z) : M (mem * output_args) Z :=
  match fuel with
  | O => panic
  | S fuel' =>
      if count <? len then
        let* c := lift_mem (ld str) in
        if c =? 0 then ret count
        else
          let* t := gets snd in
          (when out_pos t <? out_len t do
             (lift_mem (st (outstr t + out_pos t) c) ;;; modify (fun '(m, t) => (m, next_pos t)))) ;;;
          vsnprintf_loop fuel' (str + 1) len (count + 1)
      else ret count
  end.
Definition vsnprintf_output (str len : Z) : M (mem * output_args) Z := fun s =>
  (let* count := vsnprintf_loop (S (size (fst s))) str len 0 in ret (s32 count)) s.

Section callers.
Context (num_buffer temp null_str : Z).

Definition vsnprintf (str len fmt : Z) (args : list Z) : M mem Z := fun m =>
  match printf_engine vsnprintf_output num_buffer temp null_str fmt args
          (m, {| outstr := str; out_len := len; out_pos := 0 |}) with
  | Some (wlen, (m, t)) =>
      (st (if len <=? out_pos t then u64 (str + (len - 1)) else str + wlen) 0 ;;; ret wlen) m
  | None => None
  end.
Definition vsprintf (str fmt : Z) (args : list Z) : M mem Z := vsnprintf str INT_MAX fmt args.

(** ** The console *)

Fixpoint dputs_loop (fuel : nat) (str len count : Z) : M (mem * list Z) Z :=
  match fuel with
  | O => panic
  | S fuel' =>
      if count <? len then
        let* c := lift_mem (ld str) in
        if c =? 0 then ret count
        else modify (fun '(m, t) => (m, t ++ [c])) ;;; dputs_loop fuel' (str + 1) len (count + 1)
      else ret count
  end.
Definition dprintf_output_func (str len : Z) : M (mem * list Z) Z := fun s =>
  (let* count := dputs_loop (S (size (fst s))) str len 0 in ret (s32 count)) s.

Definition dvprintf (fmt : Z) (args : list Z) : M (mem * list Z) Z :=
  printf_engine dprintf_output_func num_buffer temp null_str fmt args.
End callers.
