(* ===== verification/FormatSpec.v ===== *)
(** * What formatted output writes

    [formats strs fmt args o]: the format [fmt] with the arguments [args]
    stands for the text [o], where [strs] gives the strings that pointer
    arguments refer to.  The engine hands exactly that text, piece by piece, to
    any output function that meets [OutLaws]. *)

From S2P Require Import Prelude Mem MemSpec CStr CStrSpec Printf LibcProps Format.
Local Open Scope lk_scope.

(** ** The text of a format *)

(** A text of at least [num] characters with its sign. *)
Definition field (flags num sign : Z) (s : list Z) : list Z :=
  if flag_set flags LEFTFORMATFLAG then s ++ replicate (Z.to_nat (num - zlen s)) 32
  else
    let signs := if sign =? 0 then [] else [sign] in
    let fill := Z.to_nat (num - zlen signs - zlen s) in
    if flag_set flags LEADZEROFLAG then signs ++ replicate fill 48 ++ s
    else replicate fill 32 ++ signs ++ s.

Definition sign_of (flags : Z) (neg : bool) : Z :=
  if neg then 45
  else if flag_set flags SHOWSIGNFLAG then 43
  else if flag_set flags BLANKPOSFLAG then 32
  else 0.

Definition signed_text (flags num x : Z) : list Z :=
  field flags num (sign_of flags (x <? 0)) (dec_str (Z.abs x)).
Definition hex_text (flags num x : Z) : list Z :=
  let caps := flag_set flags CAPSFLAG in
  (if flag_set flags ALTFLAG then [48; if caps then 88 else 120] else []) ++
  field flags num 0 (hex_str (if caps then hextable_caps else hextable) x).

(** ["<null>"]. *)
Definition null_text : list Z := [60; 110; 117; 108; 108; 62].

(** The text of one conversion and the arguments left; [None] when an argument
    is missing, when a pointer is not to a string, and for [%n], which writes
    to memory. *)
Definition conversion (strs : Z -> option (list Z)) (c flags num : Z) (args : list Z) : option (list Z * list Z) :=
  if c =? 37 then Some ([37], args)
  else if c =? 110 then None
  else if negb (existsb (Z.eqb c) [99; 115; 105; 100; 117; 112; 88; 120]) then Some ([37; c], args)
  else match args with
  | [] => None
  | a :: args' =>
      (fun o => (o, args')) <$>
      if c =? 99 then Some (if u8 a =? 0 then [] else [u8 a])
      else if c =? 115 then
        field (Z.ldiff flags LEADZEROFLAG) num 0 <$> (if a =? 0 then Some null_text else strs a)
      else if (c =? 105) || (c =? 100) then Some (signed_text flags num (signed_arg flags a))
      else if c =? 117 then Some (field flags num (sign_of flags false) (dec_str (unsigned_arg flags a)))
      else if c =? 112 then
        Some (hex_text (Z.lor flags (Z.lor LONGFLAG ALTFLAG)) num
                (unsigned_arg (Z.lor flags (Z.lor LONGFLAG ALTFLAG)) a))
      else if c =? 88 then
        Some (hex_text (Z.lor flags CAPSFLAG) num (unsigned_arg (Z.lor flags CAPSFLAG) a))
      else Some (hex_text flags num (unsigned_arg flags a))
  end.

(** Flags, number and conversion character behind a [%]; [None] when the
    string ends first. *)
Fixpoint directive (flags num : Z) (l : list Z) : option (Z * Z * Z * list Z) :=
  match l with
  | [] => None
  | c :: l' =>
      match format_char c flags num with
      | Some (flags', num') => directive flags' num' l'
      | None => Some (c, flags, num, l')
      end
  end.

Definition literal (l : list Z) : Prop := Forall (fun c => c <> 37) l.

Inductive formats (strs : Z -> option (list Z)) : list Z -> list Z -> list Z -> Prop :=
| F_end lit args : literal lit -> formats strs lit args lit
| F_cut lit ds args : literal lit -> directive 0 0 ds = None -> formats strs (lit ++ 37 :: ds) args lit
| F_conv lit ds c flags num rest args args' o o' :
    literal lit -> directive 0 0 ds = Some (c, flags, num, rest) ->
    conversion strs c flags num args = Some (o, args') -> formats strs rest args' o' ->
    formats strs (lit ++ 37 :: ds) args (lit ++ o ++ o').

(** ** Output functions *)

Section laws.
Context {T : Type} (out : Z -> Z -> M (mem * T) Z).

(** The text [l] at [str], of length [len] or ended by a NUL before that, is
    not in memory the output function writes. *)
Record source (own : Z -> Prop) (m : mem) (str len : Z) (l : list Z) : Prop := {
  so_chars : Forall char l;
  so_holds : holds m str l;
  so_own : forall x, str <= x < str + zlen l -> ~ own x;
  so_end : len = zlen l \/ zlen l < len /\ m !! (str + zlen l) = Some 0 /\ ~ own (str + zlen l);
}.

(** [Written h m t]: the text put out so far is [h].  At most [cap] characters
    are put out in all. *)
Class OutLaws (Written : list Z -> mem -> T -> Prop) (own : Z -> Prop) (cap : Z) : Prop := {
  out_law : forall h m t str len l,
    Written h m t -> source own m str len l -> zlen (h ++ l) <= cap ->
    exists m' t', out str len (m, t) = Some (zlen l, (m', t')) /\ Written (h ++ l) m' t' /\
      forall x, ~ own x -> m' !! x = m !! x;
  out_stable : forall h m m' t,
    Written h m t -> (forall x, own x -> m' !! x = m !! x) -> Written h m' t;
}.
End laws.
Arguments out_law {T out Written own cap OutLaws}.
Arguments out_stable {T out Written own cap OutLaws}.

(** ** Facts about texts *)

Lemma zlen_app {A} (l1 l2 : list A) : zlen (l1 ++ l2) = zlen l1 + zlen l2.
Proof. rewrite length_app. lia. Qed.

Lemma bit_or flags f g : flag_set (Z.lor flags f) g = flag_set flags g || flag_set f g.
Proof.
  unfold flag_set. rewrite Z.land_lor_distr_l, <- negb_andb. f_equal.
  apply eq_true_iff_eq. rewrite andb_true_iff, !Z.eqb_eq, Z.lor_eq_0_iff. done.
Qed.

(** Flags from the format never contain the one that only conversions set. *)
Lemma format_char_unsigned c flags num flags' num' :
  format_char c flags num = Some (flags', num') -> flag_set flags SIGNEDFLAG = false ->
  flag_set flags' SIGNEDFLAG = false.
Proof.
  intros H Hf. unfold format_char in H. repeat case_if; try discriminate; injection H as <- _;
    rewrite ?bit_or, ?Hf; reflexivity.
Qed.

Lemma directive_unsigned flags num l c flags' num' rest :
  directive flags num l = Some (c, flags', num', rest) -> flag_set flags SIGNEDFLAG = false ->
  flag_set flags' SIGNEDFLAG = false.
Proof.
  revert flags num. induction l as [|x l IH]; intros flags num; cbn [directive]; [done|].
  destruct (format_char x flags num) as [[f1 n1]|] eqn:E.
  - intros H Hf. eapply IH; [exact H|]. by eapply format_char_unsigned.
  - by intros [= <- <- <- <-].
Qed.

Lemma directive_rest flags num l c flags' num' rest :
  directive flags num l = Some (c, flags', num', rest) -> exists pre, l = pre ++ c :: rest.
Proof.
  revert flags num. induction l as [|x l IH]; intros flags num; cbn [directive]; [done|].
  destruct (format_char x flags num) as [[f1 n1]|].
  - intros H. destruct (IH _ _ H) as [pre ->]. by exists (x :: pre).
  - intros [= <- <- <- <-]. by exists [].
Qed.

Lemma format_num_range c flags num flags' num' :
  format_char c flags num = Some (flags', num') -> 0 <= num < 2 ^ 32 -> 0 <= num' < 2 ^ 32.
Proof.
  intros H Hn. unfold format_char in H. repeat case_if; try discriminate; injection H as _ <-;
    first [done|apply u32_range].
Qed.

Lemma directive_range flags num l c flags' num' rest :
  directive flags num l = Some (c, flags', num', rest) -> 0 <= num < 2 ^ 32 -> 0 <= num' < 2 ^ 32.
Proof.
  revert flags num. induction l as [|x l IH]; intros flags num; cbn [directive]; [done|].
  destruct (format_char x flags num) as [[f1 n1]|] eqn:E.
  - intros H Hn. eapply IH; [exact H|]. by eapply format_num_range.
  - by intros [= <- <- <- <-].
Qed.

(** Computations that never unmap memory. *)
Definition keeps {A} (c : M mem A) : Prop := forall m a m' x,
  c m = Some (a, m') -> is_Some (m !! x) -> is_Some (m' !! x).

Lemma keep_ret {A} (a : A) : keeps (ret a).
Proof. by intros m a' m' x [= <- <-]. Qed.
Lemma keep_bind {A B} (c : M mem A) (f : A -> M mem B) : keeps c -> (forall a, keeps (f a)) -> keeps (bind c f).
Proof.
  intros Hc Hf m b m' x. unfold bind. destruct (c m) as [[a m1]|] eqn:E; [|done]. intros E2 Hx.
  eapply Hf; [exact E2|]. by eapply Hc.
Qed.
Lemma keeps_getopt {A} (f : mem -> option A) : keeps (getopt f).
Proof. intros m a m' x. unfold getopt. destruct (f m); [|done]. by intros [= _ <-]. Qed.
Lemma keeps_st a v : keeps (st a v).
Proof.
  apply keep_bind; [apply keeps_getopt|]. intros _ m u m' x [= _ <-] Hx.
  destruct (decide (x = a)) as [->|]; [rewrite lookup_insert_eq; eauto|by rewrite lookup_insert_ne].
Qed.
#[local] Hint Resolve keep_ret keep_bind keeps_getopt keeps_st : lk.

Lemma keeps_dec_digits f buf pos n : keeps (dec_digits f buf pos n).
Proof.
  revert pos n. induction f as [|f IH]; intros pos n; cbn [dec_digits]; destruct (10 <=? n); auto with lk.
  by intros m a m' x.
Qed.
Lemma keeps_hex_digits f table buf pos u : keeps (hex_digits f table buf pos u).
Proof.
  revert pos u. induction f as [|f IH]; intros pos u; cbn [hex_digits]; [by intros m a m' x|].
  apply keep_bind; [auto with lk|]. intros c. apply keep_bind; [auto with lk|]. intros _. destruct (negb _); auto with lk.
Qed.
Lemma keeps_to_string buf n len flag : keeps (longlong_to_string buf n len flag).
Proof.
  apply keep_bind; [auto with lk|]. intros _. apply keep_bind; [apply keeps_dec_digits|]. intros [pos' n'].
  auto with lk.
Qed.
Lemma keeps_to_hexstring buf u len flag : keeps (longlong_to_hexstring buf u len flag).
Proof.
  apply keep_bind; [auto with lk|]. intros _. apply keep_bind; [apply keeps_hex_digits|]. auto with lk.
Qed.

(** ** The engine *)

Section engine.
Context {T : Type} (out : Z -> Z -> M (mem * T) Z) (num_buffer temp null_str : Z).
Context {Written : list Z -> mem -> T -> Prop} {own : Z -> Prop} {cap : Z} {OL : OutLaws out Written own cap}.
Context (m0 : mem).
Implicit Types (s : pstate T) (h l : list Z) (k : M (pstate T) Z).

Definition priv (x : Z) : Prop := num_buffer <= x < num_buffer + 32 \/ x = temp.

(** Memory the engine and the output function leave alone. *)
Definition quiet (a n : Z) : Prop := forall x, a <= x < a + n -> ~ own x /\ ~ priv x.

Hypotheses (Hpriv : forall x, priv x -> ~ own x) (Hcap : cap < 2 ^ 31)
  (Htemp : ~ (num_buffer <= temp < num_buffer + 32)).

Record einv h s : Prop := {
  ei_written : Written h (p_mem s) (p_user s);
  ei_count : chars_written s = zlen h;
  ei_frame : forall x, ~ own x -> ~ priv x -> p_mem s !! x = m0 !! x;
  ei_temp : is_Some (p_mem s !! temp);
  ei_num : mapped (p_mem s) num_buffer 32;
}.

Lemma OUTPUT_STRING_run h s str len l kk :
  einv h s -> source own (p_mem s) str len l -> zlen (h ++ l) <= cap ->
  exists s', OUTPUT_STRING out str len kk s = kk (zlen l) s' /\ einv (h ++ l) s' /\ ap s' = ap s /\
    forall x, ~ own x -> p_mem s' !! x = p_mem s !! x.
Proof using OL Hpriv Hcap.
  intros Hs Hl Hc. destruct (out_law h (p_mem s) (p_user s) str len l (ei_written _ _ Hs) Hl Hc) as (m' & t' & E & Hw & Hf).
  eexists. split.
  { unfold OUTPUT_STRING, call_out. unfold bind at 1. rewrite E. destruct (Z.ltb_spec (zlen l) 0); [lia|]. reflexivity. }
  pose proof (ei_count _ _ Hs) as Hn. rewrite zlen_app in Hc. split; [|done]. split; cbn.
  - done.
  - rewrite Hn, u64_small, zlen_app by lia. done.
  - intros x Hx Hp. rewrite Hf by done. by apply (ei_frame _ _ Hs).
  - rewrite Hf by (apply Hpriv; by right). apply Hs.
  - intros x Hx. rewrite Hf by (apply Hpriv; by left). by apply (ei_num _ _ Hs).
Qed.

(** A store to the engine's own memory. *)
Lemma einv_store h s m' :
  einv h s -> (forall x, ~ priv x -> m' !! x = p_mem s !! x) ->
  (forall x, is_Some (p_mem s !! x) -> is_Some (m' !! x)) ->
  einv h {| p_mem := m'; p_user := p_user s; ap := ap s; chars_written := chars_written s |}.
Proof using OL Hpriv.
  intros Hs Hf Hd. split; cbn.
  - eapply out_stable; [apply Hs|]. intros x Hx. apply Hf. intros Hp. by apply (Hpriv x).
  - apply Hs.
  - intros x Hx Hp. rewrite Hf by done. by apply (ei_frame _ _ Hs).
  - apply Hd, Hs.
  - intros x Hx. by apply Hd, (ei_num _ _ Hs).
Qed.

Definition text_of (c : Z) : list Z := if c =? 0 then [] else [c].

Lemma OUTPUT_CHAR_run h s c k :
  einv h s -> 0 <= c < 2 ^ 8 -> zlen (h ++ text_of c) <= cap ->
  exists s', OUTPUT_CHAR out temp c k s = k s' /\ einv (h ++ text_of c) s' /\ ap s' = ap s /\
    forall x, ~ own x -> x <> temp -> p_mem s' !! x = p_mem s !! x.
Proof using OL Hpriv Hcap.
  intros Hs Hc Hn. set (s1 := {| p_mem := <[temp := c]> (p_mem s); p_user := p_user s; ap := ap s;
    chars_written := chars_written s |}).
  assert (H1 : einv h s1).
  { apply einv_store; [done|..].
    - intros x Hx. apply lookup_insert_ne. intros <-. apply Hx. by right.
    - intros x Hx. destruct (decide (x = temp)) as [->|]; [rewrite lookup_insert_eq; eauto|by rewrite lookup_insert_ne]. }
  assert (Hto : ~ own temp) by (apply Hpriv; by right).
  assert (Hsrc : source own (p_mem s1) temp 1 (text_of c)).
  { unfold text_of. destruct (Z.eqb_spec c 0) as [->|Hne]; split; cbn.
    - constructor.
    - done.
    - intros x Hx. lia.
    - right. rewrite Z.add_0_r, lookup_insert_eq. split_and!; [lia|done|done].
    - constructor; [unfold char; lia|constructor].
    - by rewrite lookup_insert_eq.
    - intros x Hx. by replace x with temp by lia.
    - by left. }
  destruct (OUTPUT_STRING_run h s1 temp 1 (text_of c) (fun _ => k) H1 Hsrc Hn) as (s' & E & Hs' & Ha & Hf).
  exists s'. split_and!; [|done|done|].
  - unfold OUTPUT_CHAR. unfold bind at 1. unfold on_mem. rewrite (st_run (p_mem s) temp c (ei_temp _ _ Hs)).
    rewrite u8_small by lia. exact E.
  - intros x Hx Hne. rewrite Hf by done. cbn. by apply lookup_insert_ne.
Qed.

Lemma pad_loop_S f c bound num k :
  pad_loop out temp (S f) c bound num k =
    if bound <? num then OUTPUT_CHAR out temp c (pad_loop out temp f c bound (num - 1) k) else k.
Proof. done. Qed.

Lemma pad_run h s c bound num k :
  einv h s -> 0 < c < 2 ^ 8 -> 0 <= num -> zlen h + Z.of_nat (Z.to_nat (num - bound)) <= cap -> 0 <= bound ->
  exists s', pad out temp c bound num k s = k s' /\ einv (h ++ replicate (Z.to_nat (num - bound)) c) s' /\ ap s' = ap s /\
    forall x, ~ own x -> x <> temp -> p_mem s' !! x = p_mem s !! x.
Proof using OL Hpriv Hcap.
  intros Hs Hc Hn Hcp Hb. unfold pad. remember (Z.to_nat num) as f eqn:Ef.
  assert (Hf : num <= Z.of_nat f) by lia. clear Ef. revert h s num Hs Hn Hcp Hf.
  induction f as [|f IH]; intros h s num Hs Hn Hcp Hf; rewrite pad_loop_S.
  { destruct (Z.ltb_spec bound num); [lia|]. exists s. replace (Z.to_nat (num - bound)) with 0%nat by lia.
    cbn [replicate]. rewrite app_nil_r. done. }
  destruct (Z.ltb_spec bound num).
  - assert (Et : text_of c = [c]) by (unfold text_of; by rewrite (proj2 (Z.eqb_neq c 0)) by lia).
    destruct (OUTPUT_CHAR_run h s c (pad_loop out temp (S f) c bound (num - 1) k) Hs) as (s1 & E1 & H1 & A1 & F1);
      [lia|rewrite Et, zlen_app; cbn; lia|]. rewrite Et in H1.
    destruct (IH (h ++ [c]) s1 (num - 1) H1) as (s' & E & H' & A' & F'); [lia|rewrite zlen_app; cbn; lia|lia|].
    exists s'. split_and!; [by rewrite E1| |congruence|].
    + replace (Z.to_nat (num - bound)) with (S (Z.to_nat (num - 1 - bound))) by lia. cbn [replicate].
      by rewrite cons_middle, app_assoc.
    + intros x Hx Hne. rewrite F', F1 by done. done.
  - exists s. replace (Z.to_nat (num - bound)) with 0%nat by lia. cbn [replicate]. rewrite app_nil_r. done.
Qed.

(** A string the output function and the character buffer do not overlap. *)
Definition clear_of (a n : Z) : Prop := forall x, a <= x < a + n -> ~ own x /\ x <> temp.

Lemma cstr_source m a txt : cstr m a txt -> clear_of a (zlen txt + 1) -> zlen txt < SIZE_MAX ->
  source own m a SIZE_MAX txt.
Proof using Type.
  intros [Hc Hh] Hcl Hl. apply holds_app in Hh as [Hh [H0 _]]. split; [done|done|..].
  - intros x Hx. apply Hcl. lia.
  - right. split_and!; [done|done|]. apply Hcl. lia.
Qed.

Lemma cstr_clear m m' a txt :
  cstr m a txt -> clear_of a (zlen txt + 1) ->
  (forall x, ~ own x -> x <> temp -> m' !! x = m !! x) -> cstr m' a txt.
Proof using Type.
  intros Hc Hcl Hf. eapply cstr_ext; [done|]. intros x Hx. destruct (Hcl x); [lia|]. by apply Hf.
Qed.

Lemma on_mem_run {A} (c : M mem A) s a m' :
  c (p_mem s) = Some (a, m') ->
  on_mem c s = Some (a, {| p_mem := m'; p_user := p_user s; ap := ap s; chars_written := chars_written s |}).
Proof using Type. unfold on_mem. by intros ->. Qed.

Lemma pstate_eta s : {| p_mem := p_mem s; p_user := p_user s; ap := ap s; chars_written := chars_written s |} = s.
Proof using Type. by destruct s. Qed.

Lemma output_string_run h s a txt kk :
  einv h s -> cstr (p_mem s) a txt -> clear_of a (zlen txt + 1) -> zlen (h ++ txt) <= cap ->
  exists s', OUTPUT_STRING out a SIZE_MAX kk s = kk (zlen txt) s' /\ einv (h ++ txt) s' /\ ap s' = ap s.
Proof using OL Hpriv Hcap.
  intros Hs Hc Hcl Hn. destruct (OUTPUT_STRING_run h s a SIZE_MAX txt kk Hs) as (s' & E & Hs' & Ha & _); [|done|by eauto].
  apply cstr_source; [done|done|]. rewrite zlen_app in Hn. unfold SIZE_MAX. lia.
Qed.

Lemma field_left_run h s a txt flags num sign k :
  flag_set flags LEFTFORMATFLAG = true ->
  einv h s -> cstr (p_mem s) a txt -> clear_of a (zlen txt + 1) -> 0 <= num ->
  zlen (h ++ field flags num sign txt) <= cap ->
  exists s', output_field out temp a flags num sign k s = k s' /\ einv (h ++ field flags num sign txt) s' /\ ap s' = ap s.
Proof using OL Hpriv Hcap.
  intros Hf Hs Hc Hcl Hn Hcp. unfold output_field, field in *. rewrite Hf in *. rewrite app_assoc in *.
  rewrite zlen_app, length_replicate in Hcp.
  destruct (output_string_run h s a txt (fun err => pad out temp 32 (u32 err) num k) Hs Hc Hcl) as (s1 & E1 & H1 & A1); [lia|].
  rewrite zlen_app in Hcp.
  destruct (pad_run (h ++ txt) s1 32 (zlen txt) num k H1) as (s' & E & H' & A' & _); [lia|lia|rewrite zlen_app; lia|lia|].
  exists s'. split_and!; [|done|congruence]. rewrite E1, u32_small by lia. exact E.
Qed.

(** The sign, when there is one. *)
Lemma sign_run h s sign k :
  einv h s -> 0 <= sign < 2 ^ 8 -> zlen (h ++ text_of sign) <= cap ->
  exists s', (if negb (sign =? 0) then OUTPUT_CHAR out temp sign k else k) s = k s' /\ einv (h ++ text_of sign) s' /\
    ap s' = ap s /\ forall x, ~ own x -> x <> temp -> p_mem s' !! x = p_mem s !! x.
Proof using OL Hpriv Hcap.
  intros Hs Hsg Hn. destruct (Z.eqb_spec sign 0) as [->|Hne]; cbn [negb]; [|by apply OUTPUT_CHAR_run].
  exists s. unfold text_of. cbn. by rewrite app_nil_r.
Qed.

(** Text, fill and sign in the order of the format, then the number. *)
Lemma field_right_run h s a txt flags num sign k :
  flag_set flags LEFTFORMATFLAG = false ->
  einv h s -> cstr (p_mem s) a txt -> clear_of a (zlen txt + 1) -> 0 <= num -> 0 <= sign < 2 ^ 8 ->
  zlen (h ++ field flags num sign txt) <= cap ->
  exists s', output_field out temp a flags num sign k s = k s' /\ einv (h ++ field flags num sign txt) s' /\ ap s' = ap s.
Proof using OL Hpriv Hcap.
  intros Hf Hs Hc Hcl Hn Hsg Hcp. unfold output_field, field in *. rewrite Hf in *. cbv zeta in *.
  run (on_mem_run (strlen a) s _ _ (strlen_run _ _ _ Hc)). rewrite pstate_eta.
  change (if sign =? 0 then [] else [sign]) with (text_of sign) in *.
  set (num' := if negb (sign =? 0) && (0 <? num) then num - 1 else num).
  assert (En : Z.to_nat (num - zlen (text_of sign) - zlen txt) = Z.to_nat (num' - zlen txt) /\ 0 <= num').
  { subst num'. unfold text_of. destruct (Z.eqb_spec sign 0); cbn [negb andb length]; [lia|].
    destruct (Z.ltb_spec 0 num); cbn [length]; lia. }
  destruct En as [En Hn']. rewrite En in *. clear En. set (number := OUTPUT_STRING _ _ _ _).
  assert (Hnum : forall h' s', einv h' s' -> cstr (p_mem s') a txt -> zlen (h' ++ txt) <= cap ->
    exists s2, number s' = k s2 /\ einv (h' ++ txt) s2 /\ ap s2 = ap s')
    by (intros h' s' H1 H2 H3; exact (output_string_run h' s' a txt (fun _ => k) H1 H2 Hcl H3)).
  destruct (flag_set flags LEADZEROFLAG); cbn [negb andb] in *; rewrite !zlen_app, length_replicate in Hcp.
  - destruct (sign_run h s sign (pad out temp 48 (zlen txt) num' number) Hs Hsg) as (s1 & -> & H1 & A1 & F1);
      [rewrite zlen_app; lia|].
    destruct (pad_run (h ++ text_of sign) s1 48 (zlen txt) num' number H1) as (s2 & -> & H2 & A2 & F2);
      [lia|lia|rewrite zlen_app; lia|lia|].
    destruct (Hnum _ s2 H2) as (s3 & -> & H3 & A3); [|rewrite !zlen_app, length_replicate; lia|].
    { eapply cstr_clear; [by eapply cstr_clear|done|done]. }
    exists s3. split_and!; [done| |congruence]. by rewrite <- !app_assoc in H3.
  - destruct (pad_run h s 32 (zlen txt) num' (if negb (sign =? 0) then OUTPUT_CHAR out temp sign number else number) Hs)
      as (s1 & -> & H1 & A1 & F1); [lia|lia|lia|lia|].
    destruct (sign_run _ s1 sign number H1 Hsg) as (s2 & -> & H2 & A2 & F2);
      [rewrite !zlen_app, length_replicate; lia|].
    destruct (Hnum _ s2 H2) as (s3 & -> & H3 & A3); [|rewrite !zlen_app, length_replicate; lia|].
    { eapply cstr_clear; [by eapply cstr_clear|done|done]. }
    exists s3. split_and!; [done| |congruence]. by rewrite <- !app_assoc in H3.
Qed.

Lemma output_field_run h s a txt flags num sign k :
  einv h s -> cstr (p_mem s) a txt -> clear_of a (zlen txt + 1) -> 0 <= num -> 0 <= sign < 2 ^ 8 ->
  zlen (h ++ field flags num sign txt) <= cap ->
  exists s', output_field out temp a flags num sign k s = k s' /\ einv (h ++ field flags num sign txt) s' /\ ap s' = ap s.
Proof using OL Hpriv Hcap.
  intros. destruct (flag_set flags LEFTFORMATFLAG) eqn:E; [by apply field_left_run|by apply field_right_run].
Qed.

(** ** Conversions *)

Lemma num_clear a n : num_buffer <= a -> a + n <= num_buffer + 32 -> clear_of a n.
Proof using Hpriv Htemp. intros H1 H2 x Hx. split; [apply Hpriv; left; lia|]. intros ->. lia. Qed.

Lemma quiet_clear a n : quiet a n -> clear_of a n.
Proof using Type. intros H x Hx. destruct (H x Hx) as [? Hp]. split; [done|]. intros ->. apply Hp. by right. Qed.

Lemma quiet_cstr h s a txt : einv h s -> cstr m0 a txt -> quiet a (zlen txt + 1) -> cstr (p_mem s) a txt.
Proof using Type.
  intros Hs Hc Hq. eapply cstr_ext; [done|]. intros x Hx. destruct (Hq x); [lia|]. by apply (ei_frame _ _ Hs).
Qed.

(** A number in the engine's buffer, printed. *)
Lemma num_field_run h s m' p txt flags num sign k :
  einv h s -> same_outside (p_mem s) m' num_buffer 32 -> (forall x, is_Some (p_mem s !! x) -> is_Some (m' !! x)) ->
  cstr m' p txt -> num_buffer <= p -> p + zlen txt = num_buffer + 31 -> 0 <= num -> 0 <= sign < 2 ^ 8 ->
  zlen (h ++ field flags num sign txt) <= cap ->
  exists s', output_field out temp p flags num sign k
      {| p_mem := m'; p_user := p_user s; ap := ap s; chars_written := chars_written s |} = k s' /\
    einv (h ++ field flags num sign txt) s' /\ ap s' = ap s.
Proof using OL Hpriv Hcap Htemp.
  intros Hs Ho Hk Hc Hp1 Hp2 Hn Hsg Hcp.
  set (s1 := Build_pstate _ _ _ _). change (ap s) with (ap s1).
  apply output_field_run; try done; [|apply num_clear; lia].
  apply einv_store; [done| |done]. intros x Hx. apply Ho. intros Hin. apply Hx. by left.
Qed.

Lemma sign_char_range flags n : 0 <= sign_char flags n < 2 ^ 8.
Proof using Type. unfold sign_char. repeat case_if; lia. Qed.

Lemma dec_field_run h s n flags num k :
  einv h s -> 0 <= n < 2 ^ 64 -> 0 <= num ->
  let v := if flag_set flags SIGNEDFLAG then Z.abs (s64 n) else n in
  zlen (h ++ field flags num (sign_char flags n) (dec_str v)) <= cap ->
  exists s', (let* (p, sign) := on_mem (longlong_to_string num_buffer n 32 flags) in
              output_field out temp p flags num sign k) s = k s' /\
    einv (h ++ field flags num (sign_char flags n) (dec_str v)) s' /\ ap s' = ap s.
Proof using OL Hpriv Hcap Htemp.
  intros Hs Hn Hnum v Hcp.
  destruct (longlong_to_string_run (p_mem s) num_buffer n flags Hn (ei_num _ _ Hs))
    as (p & sign & txt & m' & E & Et & Es & Hl & Hc & _ & _ & _ & _ & _ & Hp & Ho).
  run (on_mem_run _ _ _ _ E). fold v in Et. subst txt sign.
  apply num_field_run; try done; [|lia|apply sign_char_range]. intros x Hx. by eapply keeps_to_string.
Qed.

Lemma hex_field_run h s a args flags num k :
  einv h s -> ap s = a :: args -> 0 <= unsigned_arg flags a < 2 ^ 64 -> 0 <= num ->
  zlen (h ++ hex_text flags num (unsigned_arg flags a)) <= cap ->
  exists s', hex_field out num_buffer temp flags num k s = k s' /\
    einv (h ++ hex_text flags num (unsigned_arg flags a)) s' /\ ap s' = args.
Proof using OL Hpriv Hcap Htemp.
  intros Hs Ha Hn Hnum Hcp. unfold hex_text in *. set (table := if flag_set flags CAPSFLAG then hextable_caps else hextable) in *.
  destruct (longlong_to_hexstring_run (p_mem s) num_buffer _ flags Hn (ei_num _ _ Hs))
    as (p & txt & m' & E & Et & Hl & Hc & _ & _ & Hp & Ho). fold table in Et. subst txt.
  set (s1 := {| p_mem := p_mem s; p_user := p_user s; ap := args; chars_written := chars_written s |}).
  set (s2 := {| p_mem := m'; p_user := p_user s; ap := args; chars_written := chars_written s |}).
  assert (H1 : einv h s1) by (destruct Hs; by split).
  assert (H2 : einv h s2).
  { apply (einv_store h s1); [done|..].
    - intros x Hx. apply Ho. intros Hin. apply Hx. by left.
    - intros x Hx. by eapply keeps_to_hexstring. }
  assert (Hcl : clear_of p (zlen (hex_str table (unsigned_arg flags a)) + 1)) by (apply num_clear; lia).
  unfold hex_field. rewrite (bind_some va_arg _ s a s1) by (unfold va_arg; by rewrite Ha).
  rewrite (bind_some _ _ s1 p s2 (on_mem_run _ s1 p m' E)). cbv zeta.
  destruct (flag_set flags ALTFLAG); [|by apply (output_field_run h s2)].
  set (x := if flag_set flags CAPSFLAG then 88 else 120) in *.
  assert (Hx : 0 <= x < 2 ^ 8 /\ text_of x = [x]) by (unfold x; destruct (flag_set flags CAPSFLAG); by repeat split).
  destruct Hx as [Hx Ex]. rewrite !zlen_app in Hcp. cbn [length] in Hcp.
  set (fld := output_field _ _ _ _ _ _ _).
  destruct (OUTPUT_CHAR_run h s2 48 (OUTPUT_CHAR out temp x fld) H2) as (s3 & -> & H3 & A3 & F3); [lia|rewrite zlen_app; cbn; lia|].
  destruct (OUTPUT_CHAR_run _ s3 x fld H3 Hx) as (s4 & -> & H4 & A4 & F4); [rewrite Ex, !zlen_app; cbn; lia|].
  rewrite Ex in H4. rewrite <- app_assoc in H4. change (text_of 48 ++ [x]) with [48; x] in H4.
  destruct (output_field_run _ s4 p (hex_str table (unsigned_arg flags a)) flags num 0 k H4) as (s5 & E5 & H5 & A5); try done; try lia.
  - eapply cstr_clear; [eapply (cstr_clear m'); [done|done|exact F3]|done|exact F4].
  - rewrite !zlen_app. cbn [length]. lia.
  - exists s5. split_and!; [done| |by rewrite A5, A4, A3]. by rewrite <- app_assoc in H5.
Qed.

Lemma unsigned_arg_range flags a : 0 <= unsigned_arg flags a < 2 ^ 64.
Proof using Type.
  unfold unsigned_arg, u16. pose proof (u64_range a). pose proof (u8_range a). pose proof (u32_range a).
  pose proof (Z.mod_pos_bound a (2 ^ 16) ltac:(lia)). repeat case_if; lia.
Qed.

Lemma signed_arg_range flags a : - 2 ^ 63 <= signed_arg flags a < 2 ^ 63.
Proof using Type.
  unfold signed_arg, s64, s32, s16, s8. pose proof (sgn_range 64 a). pose proof (sgn_range 32 a).
  pose proof (sgn_range 16 a). pose proof (sgn_range 8 a). repeat case_if; lia.
Qed.

Lemma s64_u64 x : - 2 ^ 63 <= x < 2 ^ 63 -> s64 (u64 x) = x.
Proof using Type.
  intros Hx. rewrite <- (s64_small x) at 2 by done. unfold s64, sgn, u64. by rewrite Z.mod_mod by lia.
Qed.

Lemma field_signed flags num sign txt : field (Z.lor flags SIGNEDFLAG) num sign txt = field flags num sign txt.
Proof using Type. unfold field. rewrite !bit_or. by rewrite !orb_false_r. Qed.

Lemma sign_char_signed flags x :
  - 2 ^ 63 <= x < 2 ^ 63 -> sign_char (Z.lor flags SIGNEDFLAG) (u64 x) = sign_of flags (x <? 0).
Proof using Type.
  intros Hx. unfold sign_char, sign_of. rewrite !bit_or, s64_u64 by done.
  change (flag_set SIGNEDFLAG SIGNEDFLAG) with true. change (flag_set SIGNEDFLAG SHOWSIGNFLAG) with false.
  change (flag_set SIGNEDFLAG BLANKPOSFLAG) with false. by rewrite orb_true_r, !orb_false_r.
Qed.

Context (strs : Z -> option (list Z)).
Hypotheses (Hnull : cstr m0 null_str null_text) (Hnullq : quiet null_str 7)
  (Hstrs : forall a txt, strs a = Some txt -> cstr m0 a txt /\ quiet a (zlen txt + 1)).

Lemma va_arg_run h s a args :
  einv h s -> ap s = a :: args -> exists s', va_arg s = Some (a, s') /\ einv h s' /\ ap s' = args.
Proof using Type.
  intros Hs Ha. eexists. split; [unfold va_arg; by rewrite Ha|]. split; [|done]. destruct Hs. by split.
Qed.

Lemma signed_run h s a args flags num k :
  einv h s -> ap s = a :: args -> 0 <= num -> zlen (h ++ signed_text flags num (signed_arg flags a)) <= cap ->
  exists s', (let* a := va_arg in
      let flags' := Z.lor flags SIGNEDFLAG in
      let* (s, signchar) := on_mem (longlong_to_string num_buffer (u64 (signed_arg flags a)) 32 flags') in
      output_field out temp s flags' num signchar k) s = k s' /\
    einv (h ++ signed_text flags num (signed_arg flags a)) s' /\ ap s' = args.
Proof using OL Hpriv Hcap Htemp.
  intros Hs Ha Hn Hcp. destruct (va_arg_run h s a args Hs Ha) as (s1 & E1 & H1 & A1). run E1. cbv zeta.
  pose proof (signed_arg_range flags a) as Hr. set (x := signed_arg flags a) in *.
  pose proof (dec_field_run h s1 (u64 x) (Z.lor flags SIGNEDFLAG) num k H1 (u64_range x) Hn) as H. cbv zeta in H.
  rewrite sign_char_signed, field_signed, bit_or, s64_u64 in H by done.
  change (flag_set SIGNEDFLAG SIGNEDFLAG) with true in H. rewrite orb_true_r in H.
  destruct (H Hcp) as (s' & E & Hs' & A'). exists s'. split_and!; [done|done|congruence].
Qed.

Lemma string_run h s a args txt flags num k :
  einv h s -> ap s = a :: args -> 0 <= num -> (if a =? 0 then Some null_text else strs a) = Some txt ->
  zlen (h ++ field flags num 0 txt) <= cap ->
  exists s', (let* p := va_arg in output_field out temp (if p =? 0 then null_str else p) flags num 0 k) s = k s' /\
    einv (h ++ field flags num 0 txt) s' /\ ap s' = args.
Proof using OL Hpriv Hcap Hnull Hnullq Hstrs.
  intros Hs Ha Hn Ht Hcp. destruct (va_arg_run h s a args Hs Ha) as (s1 & E1 & H1 & A1). run E1.
  assert (Hq : cstr m0 (if a =? 0 then null_str else a) txt /\ quiet (if a =? 0 then null_str else a) (zlen txt + 1)).
  { destruct (a =? 0); [injection Ht as <-; done|by apply Hstrs]. }
  destruct Hq as [Hc Hq].
  destruct (output_field_run h s1 _ txt flags num 0 k H1 (quiet_cstr _ _ _ _ H1 Hc Hq) (quiet_clear _ _ Hq))
    as (s' & E & Hs' & A'); [done|lia|done|]. exists s'. split_and!; [done|done|congruence].
Qed.

Lemma unknown_run h s c k :
  einv h s -> 0 < c < 2 ^ 8 -> zlen (h ++ [37; c]) <= cap ->
  exists s', OUTPUT_CHAR out temp 37 (OUTPUT_CHAR out temp c k) s = k s' /\ einv (h ++ [37; c]) s' /\ ap s' = ap s.
Proof using OL Hpriv Hcap.
  intros Hs Hc Hcp. assert (Et : text_of c = [c]) by (unfold text_of; by rewrite (proj2 (Z.eqb_neq c 0)) by lia).
  rewrite zlen_app in Hcp. cbn [length] in Hcp.
  destruct (OUTPUT_CHAR_run h s 37 (OUTPUT_CHAR out temp c k) Hs) as (s1 & -> & H1 & A1 & _);
    [lia|rewrite zlen_app; cbn; lia|].
  destruct (OUTPUT_CHAR_run _ s1 c k H1) as (s2 & -> & H2 & A2 & _); [lia|rewrite Et, !zlen_app; cbn; lia|].
  exists s2. rewrite Et in H2. rewrite <- app_assoc in H2. split_and!; [done|done|congruence].
Qed.

Lemma convert_run h s c flags num args o args' k :
  einv h s -> ap s = args -> conversion strs c flags num args = Some (o, args') ->
  flag_set flags SIGNEDFLAG = false -> 0 <= num -> char c -> zlen (h ++ o) <= cap ->
  exists s', convert out num_buffer temp null_str c flags num k s = k s' /\ einv (h ++ o) s' /\ ap s' = args'.
Proof using OL Hpriv Hcap Htemp Hnull Hnullq Hstrs.
  intros Hs Ha Hcv Hu Hn Hc Hcp. unfold char in Hc. unfold conversion, convert in *.
  destruct (Z.eqb_spec c 37) as [->|N1].
  { injection Hcv as <- <-. destruct (OUTPUT_CHAR_run h s 37 k Hs) as (s' & ? & ? & A & _); [lia|done|].
    exists s'. split_and!; [done|done|congruence]. }
  destruct (Z.eqb_spec c 110) as [->|N2]; [done|].
  destruct (existsb _ _) eqn:Ex; cbn [negb] in Hcv.
  2: { injection Hcv as <- <-. cbn [existsb] in Ex. repeat (apply orb_false_iff in Ex as [? Ex]).
    repeat match goal with H : (c =? _) = false |- _ => rewrite H; clear H end. cbn [orb].
    destruct (unknown_run h s c k Hs Hc Hcp) as (s' & ? & ? & ?). exists s'. split_and!; [done|done|congruence]. }
  destruct args as [|a args]; [done|]. apply fmap_Some in Hcv as (o1 & Ho & [= -> ->]).
  destruct (Z.eqb_spec c 99) as [->|N3].
  { injection Ho as <-. destruct (va_arg_run h s a args Hs Ha) as (s1 & E1 & H1 & A1). run E1.
    destruct (OUTPUT_CHAR_run h s1 (u8 a) k H1 (u8_range a)) as (s' & ? & ? & A & _); [done|].
    exists s'. split_and!; [done|done|congruence]. }
  destruct (Z.eqb_spec c 115) as [->|N4].
  { apply fmap_Some in Ho as (txt & Ht & ->). by apply string_run with (txt := txt) (a := a). }
  destruct ((c =? 105) || (c =? 100)) eqn:E5; [injection Ho as <-; by apply signed_run|].
  destruct (Z.eqb_spec c 117) as [->|N6].
  { injection Ho as <-. destruct (va_arg_run h s a args Hs Ha) as (s1 & E1 & H1 & A1). run E1.
    pose proof (dec_field_run h s1 _ flags num k H1 (unsigned_arg_range flags a) Hn) as H. cbv zeta in H.
    unfold sign_char in H. rewrite Hu in H. cbn [andb] in H.
    destruct (H Hcp) as (s' & E & Hs' & A'). exists s'. split_and!; [done|done|congruence]. }
  destruct (Z.eqb_spec c 112) as [->|N7].
  { injection Ho as <-. apply hex_field_run; try done. apply unsigned_arg_range. }
  destruct (Z.eqb_spec c 88) as [->|N8].
  { injection Ho as <-. apply hex_field_run; try done. apply unsigned_arg_range. }
  assert (c = 120) as ->.
  { cbn [existsb] in Ex. repeat (apply orb_true_iff in Ex as [Ex|Ex]); rewrite ?Ex in *; bools; try lia; try done. }
  injection Ho as <-. apply hex_field_run; try done. apply unsigned_arg_range.
Qed.

(** ** The loop over the format *)

Lemma ld_mem_run s a b : p_mem s !! a = Some b -> on_mem (ld a) s = Some (b, s).
Proof using Type. intros H. rewrite (on_mem_run (ld a) s b (p_mem s) (ld_run _ _ _ H)). by rewrite pstate_eta. Qed.

Lemma next_format_run s f fmt l flags num :
  cstr (p_mem s) fmt l -> (length l < f)%nat ->
  exists c fmt' flags' num', next_format f fmt flags num s = Some ((c, fmt', flags', num'), s) /\
    match directive flags num l with
    | None => c = 0
    | Some (c', flags2, num2, rest) =>
        c = c' /\ char c /\ flags' = flags2 /\ num' = num2 /\ fmt' + zlen rest = fmt + zlen l
    end.
Proof using Type.
  revert fmt l flags num. induction f as [|f IH]; intros fmt l flags num Hc Hf; [lia|]. cbn [next_format].
  destruct l as [|x l]; cbn [directive].
  - apply cstr_nil in Hc. run (ld_mem_run _ _ _ Hc). cbn [Z.eqb]. by eexists _, _, _, _.
  - apply cstr_cons in Hc as (Hx & Hch & Hc). run (ld_mem_run _ _ _ Hx). rewrite (char_eq0 x) by done.
    cbn [length] in Hf. destruct (format_char x flags num) as [[f1 n1]|].
    + destruct (IH (fmt + 1) l f1 n1 Hc ltac:(lia)) as (c & fmt' & flags' & num' & E & H). eexists _, _, _, _.
      split; [exact E|]. destruct (directive f1 n1 l) as [[[[??]?]?]|]; [|done]. cbn [length]. split_and!; try apply H. lia.
    + eexists _, _, _, _. split; [done|]. split_and!; try done. cbn [length]. lia.
Qed.

Lemma scan_literal_run s f fmt lit rest n :
  cstr (p_mem s) fmt (lit ++ rest) -> literal lit -> rest = [] \/ head rest = Some 37 -> (length lit < f)%nat ->
  scan_literal f fmt n s = Some ((default 0 (head rest), fmt + zlen lit + 1, n + zlen lit), s).
Proof using Type.
  intros Hc Hl Hr. revert fmt lit n Hc Hl. induction f as [|f IH]; intros fmt lit n Hc Hl Hf; [lia|]. cbn [scan_literal].
  destruct lit as [|x lit]; cbn [app length] in *.
  - rewrite !Z.add_0_r. destruct Hr as [->|Hr].
    + apply cstr_nil in Hc. run (ld_mem_run _ _ _ Hc). done.
    + destruct rest as [|y rest]; [done|]. injection Hr as ->. apply cstr_cons in Hc as (Hx & _).
      run (ld_mem_run _ _ _ Hx). done.
  - apply cstr_cons in Hc as (Hx & Hch & Hc). apply Forall_cons in Hl as [Hne Hl]. run (ld_mem_run _ _ _ Hx).
    rewrite (char_eq0 x), (proj2 (Z.eqb_neq x 37)) by done. cbn [orb].
    rewrite (IH (fmt + 1) lit (n + 1)) by (done || lia).
    replace (Z.of_nat (S (length lit))) with (1 + zlen lit) by lia. by rewrite !Z.add_assoc.
Qed.

Lemma literal_run h s fmt lit rest kk :
  einv h s -> cstr m0 fmt (lit ++ rest) -> quiet fmt (zlen (lit ++ rest) + 1) -> zlen (h ++ lit) <= cap ->
  exists s', OUTPUT_STRING out fmt (zlen lit) kk s = kk (zlen lit) s' /\ einv (h ++ lit) s' /\ ap s' = ap s.
Proof using OL Hpriv Hcap.
  intros Hs Hc Hq Hcp. destruct (quiet_cstr _ _ _ _ Hs Hc Hq) as [Hch Hh]. rewrite zlen_app in Hq.
  destruct (OUTPUT_STRING_run h s fmt (zlen lit) lit kk Hs) as (s' & ? & ? & ? & _); [|done|by eauto].
  rewrite <- app_assoc in Hh. apply holds_app in Hh as [Hh _]. apply Forall_app in Hch as [Hch _].
  split; [done|done| |by left]. intros x Hx. apply Hq. lia.
Qed.

Lemma exit_run h s : einv h s -> zlen h <= cap -> engine_exit s = Some (zlen h, s).
Proof using Hcap.
  intros Hs Hh. unfold engine_exit. cbn [bind gets]. unfold bind, gets, ret. rewrite (ei_count _ _ Hs), s32_small by lia. done.
Qed.

(** One turn of the loop up to the conversion. *)
Lemma percent_run h s f n a lit ds :
  einv h s -> cstr m0 a (lit ++ 37 :: ds) -> quiet a (zlen (lit ++ 37 :: ds) + 1) -> literal lit ->
  (length (lit ++ 37%Z :: ds) < f)%nat -> zlen (h ++ lit) <= cap ->
  exists s1 c fmt' flags num,
    engine_loop out num_buffer temp null_str f (S n) a s =
      (if c =? 0 then engine_exit
       else convert out num_buffer temp null_str c flags num (engine_loop out num_buffer temp null_str f n fmt')) s1 /\
    einv (h ++ lit) s1 /\ ap s1 = ap s /\
    match directive 0 0 ds with
    | None => c = 0
    | Some (c', flags2, num2, rest) =>
        c = c' /\ char c /\ flags = flags2 /\ num = num2 /\ fmt' + zlen rest = a + zlen lit + 1 + zlen ds
    end.
Proof using OL Hpriv Hcap.
  intros Hs Hc Hq Hl Hf Hcp. assert (Hc' : cstr (p_mem s) a (lit ++ 37 :: ds)) by by eapply quiet_cstr.
  rewrite length_app in Hf. cbn [length] in Hf. cbn [engine_loop].
  run (scan_literal_run s f a lit (37 :: ds) 0 Hc' Hl (or_intror eq_refl) ltac:(lia)).
  change (default 0 (head (37 :: ds)) =? 0) with false. cbv iota. rewrite Z.add_0_l.
  edestruct (literal_run h s a lit (37 :: ds)) as (s1 & -> & H1 & A1); [done|done|done|done|].
  assert (Hc1 : cstr (p_mem s1) (a + zlen lit + 1) ds).
  { pose proof (quiet_cstr _ _ _ _ H1 Hc Hq) as Hx. apply cstr_app in Hx as (_ & _ & Hx). by apply cstr_cons in Hx as (_ & _ & ?). }
  destruct (next_format_run s1 f _ ds 0 0 Hc1 ltac:(lia)) as (c & fmt' & flags & num & E & H). run E.
  exists s1, c, fmt', flags, num. done.
Qed.

Lemma engine_loop_run fmt args o :
  formats strs fmt args o -> forall h s f n a,
  einv h s -> ap s = args -> cstr m0 a fmt -> quiet a (zlen fmt + 1) ->
  (length fmt < f)%nat -> (length fmt < n)%nat -> zlen (h ++ o) <= cap ->
  exists s', engine_loop out num_buffer temp null_str f n a s = Some (zlen (h ++ o), s') /\ einv (h ++ o) s'.
Proof using OL Hpriv Hcap Htemp Hnull Hnullq Hstrs.
  induction 1 as [lit args Hl|lit ds args Hl Hd|lit ds c flags num rest args args' o o' Hl Hd Hcv _ IH];
    intros h s f n a Hs Ha Hc Hq Hf Hn Hcp; (destruct n as [|n]; [lia|]).
  - assert (Hc' : cstr (p_mem s) a (lit ++ [])) by (rewrite app_nil_r; by eapply quiet_cstr). cbn [engine_loop].
    run (scan_literal_run s f a lit [] 0 Hc' Hl (or_introl eq_refl) Hf). change (default 0 (head []) =? 0) with true.
    cbv iota. rewrite Z.add_0_l. rewrite <- (app_nil_r lit) in Hc, Hq.
    edestruct (literal_run h s a lit []) as (s1 & -> & H1 & A1); [done|done|done|done|].
    exists s1. split; [|done]. by apply exit_run.
  - destruct (percent_run h s f n a lit ds) as (s1 & c & fmt' & flags & num & -> & H1 & A1 & H); try done.
    rewrite Hd in H. subst c. exists s1. split; [|done]. by apply exit_run.
  - rewrite !app_assoc in *. rewrite !zlen_app in Hcp.
    destruct (percent_run h s f n a lit ds) as (s1 & c2 & fmt' & flags' & num' & -> & H1 & A1 & H); try done;
      [rewrite zlen_app; lia|].
    rewrite Hd in H. destruct H as (-> & Hch & -> & -> & Hpos). rewrite (char_eq0 c) by done.
    destruct (convert_run (h ++ lit) s1 c flags num args o args' (engine_loop out num_buffer temp null_str f n fmt'))
      as (s2 & -> & H2 & A2); try done; [congruence|by eapply directive_unsigned|by eapply directive_range|rewrite !zlen_app; lia|].
    destruct (directive_rest _ _ _ _ _ _ _ Hd) as [pre Epre]. subst ds.
    rewrite !length_app in Hf, Hn, Hq, Hpos. cbn [length] in Hf, Hn, Hq, Hpos. rewrite ?length_app in Hf, Hn, Hq. cbn [length] in Hf, Hn, Hq.
    apply IH; try done; [..|lia|lia|rewrite !zlen_app; lia].
    + apply cstr_app in Hc as (_ & _ & Hc). apply cstr_cons in Hc as (_ & _ & Hc). apply cstr_app in Hc as (_ & _ & Hc).
      apply cstr_cons in Hc as (_ & _ & Hc). by replace fmt' with (a + zlen lit + 1 + zlen pre + 1) by lia.
    + intros x Hx. apply Hq. lia.
Qed.
End engine.
