(* ===== verification/FormatProps.v ===== *)
(** * Theorems on formatted output

    The two output functions meet the laws the engine relies on, so that
    [vsnprintf] and [_dvprintf] write the text of their format. *)

From S2P Require Import Prelude Mem MemSpec CStr CStrSpec Printf LibcProps Format FormatSpec.
Local Open Scope lk_scope.

(** ** [vsnprintf] *)

Section vsn.
Context (str len cap : Z).

(** The part of the buffer a text of [cap] characters reaches, with its end. *)
Definition room : Z := Z.min len (cap + 1).
Definition vsn_own (x : Z) : Prop := str <= x < str + room.

Record vsn_written (h : list Z) (m : mem) (t : output_args) : Prop := {
  vw_str : outstr t = str;
  vw_len : out_len t = len;
  vw_pos : out_pos t = Z.min len (zlen h);
  vw_text : holds m str (take (Z.to_nat len) h);
  vw_room : mapped m str room;
  vw_chars : Forall char h;
  vw_cap : zlen h <= cap;
}.

Hypotheses (Hlen : 0 <= len) (Hcap : cap < 2 ^ 31).

Lemma vsn_char_run h m t c :
  vsn_written h m t -> char c -> zlen h + 1 <= cap ->
  exists m' t', (when out_pos t <? out_len t do
      (lift_mem (st (outstr t + out_pos t) c) ;;; modify (fun '(m, t) => (m, next_pos t)))) (m, t) = Some (tt, (m', t')) /\
    vsn_written (h ++ [c]) m' t' /\ forall x, ~ vsn_own x -> m' !! x = m !! x.
Proof using Hlen.
  intros Hw Hc Hcp. destruct Hw as [E1 E2 E3 Hh Hm Hch Hhc]. rewrite E1, E2, E3.
  assert (Hch' : Forall char (h ++ [c])) by (apply Forall_app; split; [done|]; by apply Forall_singleton).
  assert (Hhc' : zlen (h ++ [c]) <= cap) by (rewrite zlen_app; cbn; lia). unfold char in Hc.
  destruct (Z.ltb_spec (Z.min len (zlen h)) len) as [Hlt|Hge].
  - replace (Z.min len (zlen h)) with (zlen h) in * by lia.
    assert (Hs : is_Some (m !! (str + zlen h))) by (apply Hm; unfold room; lia).
    eexists _, _. split.
    { unfold bind, lift_mem. rewrite (st_run m _ c Hs). reflexivity. }
    rewrite u8_small by lia. split.
    + split; cbn.
      * done.
      * done.
      * rewrite E3, zlen_app. cbn. lia.
      * rewrite take_ge in Hh by lia. rewrite take_ge by (rewrite length_app; cbn; lia).
        apply holds_app. split; [|cbn; by rewrite lookup_insert_eq].
        apply (holds_store_ne m (str + zlen h) [c]); [unfold separate; cbn; lia|done].
      * by apply mapped_insert.
      * done.
      * done.
    + intros x Hx. apply lookup_insert_ne. intros <-. apply Hx. unfold vsn_own, room. lia.
  - exists m, t. split; [done|]. split; [|done]. split; try done; [rewrite zlen_app; cbn; lia|]. by rewrite take_app_le by lia.
Qed.

Lemma vsn_loop_run l : forall f h m t a n count,
  vsn_written h m t -> source vsn_own m a (n - count) l -> zlen (h ++ l) <= cap -> (length l < f)%nat ->
  exists m' t', vsnprintf_loop f a n count (m, t) = Some (count + zlen l, (m', t')) /\
    vsn_written (h ++ l) m' t' /\ forall x, ~ vsn_own x -> m' !! x = m !! x.
Proof using Hlen.
  induction l as [|c l IH]; intros f h m t a n count Hw [Hch Hh Hown Hend] Hcp Hf;
    (destruct f as [|f]; [lia|]); cbn [vsnprintf_loop length] in *.
  - exists m, t. rewrite app_nil_r, Z.add_0_r. split; [|done].
    destruct Hend as [Hend|(Hend & H0 & _)].
    + rewrite (proj2 (Z.ltb_ge count n)) by lia. done.
    + rewrite (proj2 (Z.ltb_lt count n)) by lia. rewrite Z.add_0_r in H0.
      rewrite (bind_some _ _ (m, t) 0 (m, t)); [done|]. unfold lift_mem. by rewrite (ld_run _ _ _ H0).
  - apply Forall_cons in Hch as [Hc Hch]. destruct Hh as [Ha Hh].
    rewrite (proj2 (Z.ltb_lt count n)) by (destruct Hend; lia).
    rewrite (bind_some _ _ (m, t) c (m, t)) by (unfold lift_mem; by rewrite (ld_run _ _ _ Ha)).
    rewrite (char_eq0 c) by done. rewrite (bind_some _ _ (m, t) t (m, t)) by done.
    rewrite zlen_app in Hcp. cbn [length] in Hcp.
    destruct (vsn_char_run h m t c Hw Hc ltac:(lia)) as (m1 & t1 & E1 & H1 & F1). run E1.
    destruct (IH f (h ++ [c]) m1 t1 (a + 1) n (count + 1) H1) as (m' & t' & E & H' & F'); [|rewrite !zlen_app; cbn; lia|lia|].
    + split; [done|..].
      * eapply holds_ext; [exact Hh|]. intros x Hx. apply F1, Hown. lia.
      * intros x Hx. apply Hown. lia.
      * destruct Hend as [Hend|(Hend & H0 & Hno)]; [left; lia|right].
        replace (a + 1 + zlen l) with (a + Z.of_nat (S (length l))) by lia.
        split_and!; [lia|by rewrite F1|done].
    + exists m', t'. rewrite <- app_assoc in H'. split_and!; [|done|intros x Hx; by rewrite F', F1].
      rewrite E. do 2 f_equal. lia.
Qed.

#[local] Instance vsn_laws : OutLaws vsnprintf_output vsn_written vsn_own cap.
Proof using Hlen Hcap.
  split.
  - intros h m t a n l Hw Hsrc Hcp. unfold vsnprintf_output. cbn [fst].
    destruct (vsn_loop_run l (S (size m)) h m t a n 0 Hw) as (m' & t' & E & H' & F').
    + by rewrite Z.sub_0_r.
    + done.
    + pose proof (mapped_size m a (length l) (holds_mapped _ _ _ (so_holds _ _ _ _ _ Hsrc))). lia.
    + exists m', t'. split_and!; [|done|done]. run E. rewrite Z.add_0_l. rewrite zlen_app in Hcp.
      unfold ret. rewrite s32_small by lia. done.
  - intros h m m' t [E1 E2 E3 Hh Hm Hch Hhc] Hx. split; try done.
    + eapply holds_ext; [exact Hh|]. intros x Hi. apply Hx. unfold vsn_own, room. rewrite length_take in Hi. lia.
    + intros x Hi. rewrite Hx by (unfold vsn_own; lia). by apply Hm.
Qed.
End vsn.

(** ** The console *)

Definition con_written (t0 h : list Z) (m : mem) (t : list Z) : Prop := t = t0 ++ h.

Lemma dputs_run l : forall f t m a n count,
  source (fun _ => False) m a (n - count) l -> (length l < f)%nat ->
  dputs_loop f a n count (m, t) = Some (count + zlen l, (m, t ++ l)).
Proof.
  induction l as [|c l IH]; intros f t m a n count [Hch Hh Hown Hend] Hf;
    (destruct f as [|f]; [lia|]); cbn [dputs_loop length] in *.
  - rewrite app_nil_r, Z.add_0_r. destruct Hend as [Hend|(Hend & H0 & _)].
    + rewrite (proj2 (Z.ltb_ge count n)) by lia. done.
    + rewrite (proj2 (Z.ltb_lt count n)) by lia. rewrite Z.add_0_r in H0.
      rewrite (bind_some _ _ (m, t) 0 (m, t)); [done|]. unfold lift_mem. by rewrite (ld_run _ _ _ H0).
  - apply Forall_cons in Hch as [Hc Hch]. destruct Hh as [Ha Hh].
    rewrite (proj2 (Z.ltb_lt count n)) by (destruct Hend; lia).
    rewrite (bind_some _ _ (m, t) c (m, t)) by (unfold lift_mem; by rewrite (ld_run _ _ _ Ha)).
    rewrite (char_eq0 c) by done. rewrite (bind_some _ _ (m, t) tt (m, t ++ [c])) by done.
    rewrite (IH f (t ++ [c]) m (a + 1) n (count + 1)); [|split|lia].
    + rewrite <- app_assoc. do 2 f_equal. lia.
    + done.
    + done.
    + by intros x _ [].
    + destruct Hend as [Hend|(Hend & H0 & _)]; [left; lia|right].
      replace (a + 1 + zlen l) with (a + Z.of_nat (S (length l))) by lia. split_and!; [lia|done|tauto].
Qed.

Lemma con_laws t0 cap : cap < 2 ^ 31 -> OutLaws dprintf_output_func (con_written t0) (fun _ => False) cap.
Proof.
  intros Hcap. split; [|done]. intros h m t a n l -> Hsrc Hcp. unfold dprintf_output_func. cbn [fst].
  pose proof (mapped_size m a (length l) (holds_mapped _ _ _ (so_holds _ _ _ _ _ Hsrc))).
  rewrite zlen_app in Hcp. exists m, ((t0 ++ h) ++ l). split_and!; [|by unfold con_written; rewrite app_assoc|done].
  run (dputs_run l (S (size m)) (t0 ++ h) m a n 0 ltac:(by rewrite Z.sub_0_r) ltac:(lia)).
  unfold ret. by rewrite Z.add_0_l, s32_small by lia.
Qed.

(** ** The claims *)

(** The caller's side of a formatted output into memory [own]: the format, the
    strings its arguments point to and the engine's own arrays do not overlap
    what is written. *)
Record print_ok (own : Z -> Prop) (num_buffer temp null_str : Z) (m : mem) (strs : Z -> option (list Z))
    (a : Z) (fmt : list Z) : Prop := {
  po_fmt : cstr m a fmt;
  po_null : cstr m null_str null_text;
  po_strs : forall p txt, strs p = Some txt -> cstr m p txt /\ quiet num_buffer temp (own := own) p (zlen txt + 1);
  po_quiet : quiet num_buffer temp (own := own) a (zlen fmt + 1);
  po_nullq : quiet num_buffer temp (own := own) null_str 7;
  po_num : mapped m num_buffer 32;
  po_temp : is_Some (m !! temp);
  po_sep : ~ (num_buffer <= temp < num_buffer + 32);
  po_priv : forall x, priv num_buffer temp x -> ~ own x;
}.

Lemma printf_engine_run {T} (out : Z -> Z -> M (mem * T) Z) Written own cap nb tmp nulls m t strs a fmt args o :
  OutLaws out Written own cap -> cap < 2 ^ 31 -> print_ok own nb tmp nulls m strs a fmt ->
  formats strs fmt args o -> zlen o <= cap -> Written [] m t ->
  exists m' t', printf_engine out nb tmp nulls a args (m, t) = Some (zlen o, (m', t')) /\ Written o m' t' /\
    forall x, ~ own x -> ~ priv nb tmp x -> m' !! x = m !! x.
Proof.
  intros OL Hcap [P1 P2 P3 P4 P5 P6 P7 P8 P9] Hfm Hcp Hw.
  pose proof (cstr_size _ _ _ P1) as Hsz.
  set (s0 := {| p_mem := m; p_user := t; ap := args; chars_written := 0 |}).
  destruct (engine_loop_run out nb tmp nulls m P9 Hcap P8 strs P2 P5 P3 fmt args o Hfm [] s0 (S (size m)) (S (size m)) a)
    as (s' & E & Hs'); try done; try lia.
  cbn [app] in *.
  exists (p_mem s'), (p_user s'). split_and!; [|apply Hs'|apply Hs'].
  unfold printf_engine. fold s0. by rewrite E.
Qed.

(** C23: [vsnprintf] returns the length of the text its format and arguments stand
    for, leaves the longest prefix of it that fits, NUL-terminated, in the
    buffer, and changes no other memory than the bytes of the buffer the text
    reaches: with [len] bytes, at most [len]; and [vsprintf], which passes
    [INT_MAX], exactly the text and its end.  Literal text, widths, zero and
    space padding, signs, the length modifiers and the conversions c s d i u x
    X p are those of [formats]. *)
Theorem vsnprintf_spec nb tmp nulls m str len a fmt args strs o :
  formats strs fmt args o -> zlen o < 2 ^ 31 - 1 -> 0 < len -> 0 <= str -> str + len <= 2 ^ 64 ->
  mapped m str (room len (zlen o)) ->
  print_ok (vsn_own str len (zlen o)) nb tmp nulls m strs a fmt ->
  exists m', vsnprintf nb tmp nulls str len a args m = Some (zlen o, m') /\
    cstr m' str (take (Z.to_nat (len - 1)) o) /\
    forall x, ~ vsn_own str len (zlen o) x -> ~ priv nb tmp x -> m' !! x = m !! x.
Proof.
  intros Hfm Ho Hlen Hstr Hmax Hm Hok.
  destruct (printf_engine_run vsnprintf_output (vsn_written str len (zlen o)) (vsn_own str len (zlen o)) (zlen o)
    nb tmp nulls m {| outstr := str; out_len := len; out_pos := 0 |} strs a fmt args o) as (m1 & t1 & E & Hw & Hf); try done; try lia.
  { apply vsn_laws; lia. }
  { split; cbn; try done; try lia. by rewrite take_nil. }
  destruct Hw as [E1 E2 E3 Hh Hmr Hch Hhc]. unfold vsnprintf. rewrite E, E3.
  set (p := zlen (take (Z.to_nat (len - 1)) o)).
  assert (Ep : (if len <=? Z.min len (zlen o) then u64 (str + (len - 1)) else str + zlen o) = str + p).
  { unfold p. rewrite length_take. destruct (Z.leb_spec len (Z.min len (zlen o))); [rewrite u64_small by lia|]; lia. }
  assert (Hp : 0 <= p < room len (zlen o)) by (unfold p, room; rewrite length_take; lia).
  assert (Hs : is_Some (m1 !! (str + p))) by (apply Hmr; lia).
  rewrite Ep. run (st_run m1 (str + p) 0 Hs). change (u8 0) with 0. eexists. split_and!; [done|..].
  - split; [by apply Forall_take|]. apply holds_app. fold p. split; [|cbn; by rewrite lookup_insert_eq].
    apply (holds_store_ne m1 (str + p) [0]); [unfold separate; fold p; lia|].
    assert (Et : take (Z.to_nat len) o = take (Z.to_nat (len - 1)) o ++ drop (Z.to_nat (len - 1)) (take (Z.to_nat len) o)).
    { rewrite <- (take_drop (Z.to_nat (len - 1)) (take (Z.to_nat len) o)) at 1. by rewrite take_take, Nat.min_l by lia. }
    rewrite Et in Hh. by apply holds_app in Hh as [Hh _].
  - intros x Hx Hpx. rewrite lookup_insert_ne by (intros <-; apply Hx; unfold vsn_own; lia). by apply Hf.
Qed.

(** [_dvprintf] puts exactly the text of its format on the console, in order,
    returns its length and changes no memory of its caller. *)
Theorem dvprintf_spec nb tmp nulls m t a fmt args strs o :
  formats strs fmt args o -> zlen o < 2 ^ 31 -> print_ok (fun _ => False) nb tmp nulls m strs a fmt ->
  exists m', dvprintf nb tmp nulls a args (m, t) = Some (zlen o, (m', t ++ o)) /\
    forall x, ~ priv nb tmp x -> m' !! x = m !! x.
Proof.
  intros Hfm Ho Hok.
  destruct (printf_engine_run dprintf_output_func (con_written t) (fun _ => False) (zlen o) nb tmp nulls m t strs a fmt args o)
    as (m1 & t1 & E & -> & Hf); try done; try lia.
  { by apply con_laws. }
  { unfold con_written. by rewrite app_nil_r. }
  exists m1. split; [exact E|]. intros x Hx. apply Hf; [tauto|done].
Qed.

(** ** Witnesses *)

(** ["%-4d|%05x"] with -3 and 255 into 8 bytes: the left-justified number loses
    its sign, and the text is cut behind 7 characters. *)
Definition demo_fmt : list Z := [37; 45; 52; 100; 124; 37; 48; 53; 120].
Definition demo_text : list Z := [51; 32; 32; 32; 124; 48; 48; 48; 102; 102].
Definition demo_mem : mem :=
  store (store (store (store (store (store ∅ 100 (demo_fmt ++ [0])) 200 (null_text ++ [0]))
    300 (replicate 32 0)) 400 [0]) 500 (replicate 8 9)) 600 [97; 98; 0].

Lemma demo_formats : formats (fun _ => None) demo_fmt [u64 (-3); 255] demo_text.
Proof.
  apply (F_conv _ [] [45; 52; 100; 124; 37; 48; 53; 120] 100 LEFTFORMATFLAG 4 [124; 37; 48; 53; 120]
    [u64 (-3); 255] [255] [51; 32; 32; 32] [124; 48; 48; 48; 102; 102]); [constructor|reflexivity|reflexivity|].
  apply (F_conv _ [124] [48; 53; 120] 120 LEADZEROFLAG 5 [] [255] [] [48; 48; 48; 102; 102] []);
    [by apply Forall_singleton|reflexivity|reflexivity|]. apply F_end. constructor.
Qed.

Lemma chars_dec l : forallb (fun c => (0 <? c) && (c <? 2 ^ 8)) l = true -> Forall char l.
Proof.
  intros H. apply Forall_forall. intros c Hc. rewrite forallb_forall in H. apply list_elem_of_In, H in Hc.
  unfold char. bools. lia.
Qed.

Lemma demo_ok (own : Z -> Prop) strs :
  (forall x, own x -> 500 <= x < 508) -> (forall p txt, strs p = Some txt -> p = 600 /\ txt = [97; 98]) ->
  print_ok own 300 400 200 demo_mem strs 100 demo_fmt.
Proof.
  intros Hown Hstrs.
  assert (Hq : forall a n, a + n <= 300 \/ 600 <= a -> quiet 300 400 (own := own) a n).
  { intros a n Ha x Hx. unfold priv. split; [intros Ho; apply Hown in Ho; lia|lia]. }
  split.
  - split; [by apply chars_dec|]. repeat split.
  - split; [by apply chars_dec|]. repeat split.
  - intros p txt [-> ->]%Hstrs. split; [|apply Hq; lia]. split; [by apply chars_dec|]. repeat split.
  - apply Hq. cbn. lia.
  - apply Hq. lia.
  - apply (holds_mapped demo_mem 300 (replicate 32 0)). repeat split.
  - by exists 0.
  - lia.
  - unfold priv. intros x Hx Ho. apply Hown in Ho. lia.
Qed.

Lemma vsnprintf_spec_witness :
  exists m', vsnprintf 300 400 200 500 8 100 [u64 (-3); 255] demo_mem = Some (10, m') /\
    cstr m' 500 [51; 32; 32; 32; 124; 48; 48].
Proof.
  destruct (vsnprintf_spec 300 400 200 demo_mem 500 8 100 demo_fmt [u64 (-3); 255] (fun _ => None) demo_text demo_formats)
    as (m' & E & Hc & _).
  - reflexivity.
  - lia.
  - lia.
  - lia.
  - apply (holds_mapped demo_mem 500 (replicate 8 9)). repeat split.
  - apply demo_ok; [|intros p txt; discriminate]. unfold vsn_own, room. cbn. lia.
  - exists m'. split; [exact E|exact Hc].
Defined.

Lemma dvprintf_spec_witness :
  exists m', dvprintf 300 400 200 100 [u64 (-3); 255] (demo_mem, []) = Some (10, (m', demo_text)).
Proof.
  destruct (dvprintf_spec 300 400 200 demo_mem [] 100 demo_fmt [u64 (-3); 255] (fun _ => None) demo_text demo_formats)
    as (m' & E & _).
  - reflexivity.
  - apply demo_ok; [intros x []|intros p txt; discriminate].
  - exists m'. exact E.
Defined.
