(* ===== verification/Bio.v ===== *)
(** * The block layer: lib/bio/bio.c, lib/bio/mem.c and lib/bio/subdev.c

    A device is a record of the table [devs]; its function pointers are the
    constructor of [bd_ops]: the hooks [bio_initialize_bdev] installs, those of
    a memory device, those of a subdevice, or a driver that overrides the block
    hooks and keeps the rest, which is outside this repository and enters as
    the interface [BlockDriver].  The bytes a memory device points to and the
    medium of a driver are entries of [disks].

    A caller's buffer is a list of bytes, read in place or returned updated;
    a [memcpy] that leaves an object is a panic.  Block arithmetic is kept at
    the width of [bnum_t] and [uint], byte offsets at that of [size_t].
    Subdevices form chains of parents; the operations that follow them are
    given as many steps as there are devices, plus one.  Allocations succeed. *)

From S2P Require Import Prelude Arrays ListH.
Local Open Scope lk_scope.

Definition BLOCKSIZE : Z := 512.

Inductive bdev_ops : Type :=
| Default_ops
| Mem_ops (ptr : nat)
| Subdev_ops (parent : option nat) (offset : Z)
| Driver_ops (medium : nat).

Record bdev : Type := {
  bd_ref : Z;
  bd_name : string;
  bd_size : Z;
  bd_block_size : Z;
  bd_block_count : Z;
  bd_ops : bdev_ops;
}.

Definition set_ref (r : Z) (b : bdev) : bdev :=
  {| bd_ref := r; bd_name := bd_name b; bd_size := bd_size b; bd_block_size := bd_block_size b;
     bd_block_count := bd_block_count b; bd_ops := bd_ops b |}.
Definition set_ops (o : bdev_ops) (b : bdev) : bdev :=
  {| bd_ref := bd_ref b; bd_name := bd_name b; bd_size := bd_size b; bd_block_size := bd_block_size b;
     bd_block_count := bd_block_count b; bd_ops := o |}.

(** A block driver: what a [read_block] or [write_block] hook does to its
    medium.  Both return a byte count or a negative error code. *)
Class BlockDriver : Type := {
  drv_read : list Z -> Z -> Z -> Z * list Z;
  drv_write : list Z -> Z -> Z -> list Z -> Z * list Z;
}.

Section bio.
Context `{LO : ListOps nat unit} `{BD : BlockDriver}.

Record bio : Type := {
  devs : gmap nat bdev;
  bdevs : links;
  lock : bool;
  disks : gmap nat (list Z);
}.

Definition set_devs (f : gmap nat bdev -> gmap nat bdev) (s : bio) : bio :=
  {| devs := f (devs s); bdevs := bdevs s; lock := lock s; disks := disks s |}.
Definition set_bdevs (f : links -> links) (s : bio) : bio :=
  {| devs := devs s; bdevs := f (bdevs s); lock := lock s; disks := disks s |}.
Definition set_bio_lock (b : bool) (s : bio) : bio :=
  {| devs := devs s; bdevs := bdevs s; lock := b; disks := disks s |}.
Definition set_disk (k : nat) (img : list Z) (s : bio) : bio :=
  {| devs := devs s; bdevs := bdevs s; lock := lock s; disks := <[k := img]> (disks s) |}.

Definition get_dev (d : nat) : M bio bdev := getopt (fun s => devs s !! d).
Definition get_disk (k : nat) : M bio (list Z) := getopt (fun s => disks s !! k).

Definition bio_lock : M bio unit :=
  let* held := gets lock in assert_ (negb held) ;;; modify (set_bio_lock true).
Definition bio_unlock : M bio unit :=
  let* held := gets lock in assert_ held ;;; modify (set_bio_lock false).

(** ** Memory devices *)

Definition mem_bdev_read (k : nat) (buf : list Z) (offset len : Z) : M bio (Z * list Z) :=
  let* img := get_disk k in
  let* data := getopt (fun _ => range img offset len) in
  let* buf := getopt (fun _ => blit_at buf 0 data) in
  ret (len, buf).

(** [block * BLOCKSIZE] and [count * BLOCKSIZE] are computed in [uint32_t]; the
    result is the block data and the count. *)
Definition mem_bdev_read_block (k : nat) (block count : Z) : M bio (Z * list Z) :=
  let* img := get_disk k in
  let* data := getopt (fun _ => range img (u32 (block * BLOCKSIZE)) (u32 (count * BLOCKSIZE))) in
  ret (u32 (count * BLOCKSIZE), data).

Definition mem_bdev_write (k : nat) (buf : list Z) (offset len : Z) : M bio Z :=
  let* img := get_disk k in
  let* data := getopt (fun _ => range buf 0 len) in
  let* img := getopt (fun _ => blit_at img offset data) in
  modify (set_disk k img) ;;; ret len.

Definition mem_bdev_write_block (k : nat) (buf : list Z) (block count : Z) : M bio Z :=
  let* img := get_disk k in
  let* data := getopt (fun _ => range buf 0 (u32 (count * BLOCKSIZE))) in
  let* img := getopt (fun _ => blit_at img (u32 (block * BLOCKSIZE)) data) in
  modify (set_disk k img) ;;; ret (u32 (count * BLOCKSIZE)).

(** ** Driver hooks *)

Definition driver_read_block (k : nat) (block count : Z) : M bio (Z * list Z) :=
  let* img := get_disk k in ret (drv_read img block count).

Definition driver_write_block (k : nat) (buf : list Z) (block count : Z) : M bio Z :=
  let* img := get_disk k in
  let (r, img) := drv_write img block count buf in
  modify (set_disk k img) ;;; ret r.

(** ** Subdevice hooks

    [parent] and [off] are the fields of the [subdev_t] of [dev]; the first
    argument is the entry point of the block layer that the hook calls. *)

Definition subdev_parent {A} (parent : option nat) (c : nat -> M bio A) : M bio A :=
  match parent with Some p => c p | None => panic end.

Definition subdev_read (bio_read : nat -> list Z -> Z -> Z -> M bio (Z * list Z))
    (parent : option nat) (off : Z) (dev : bdev) (buf : list Z) (offset len : Z) : M bio (Z * list Z) :=
  subdev_parent parent (fun p => bio_read p buf (s64 (offset + off * bd_block_size dev)) len).

Definition subdev_read_block (bio_read_block : nat -> Z -> Z -> M bio (Z * list Z))
    (parent : option nat) (off : Z) (block count : Z) : M bio (Z * list Z) :=
  subdev_parent parent (fun p => bio_read_block p (u32 (block + off)) count).

Definition subdev_write (bio_write : nat -> list Z -> Z -> Z -> M bio Z)
    (parent : option nat) (off : Z) (dev : bdev) (buf : list Z) (offset len : Z) : M bio Z :=
  subdev_parent parent (fun p => bio_write p buf (s64 (offset + off * bd_block_size dev)) len).

Definition subdev_write_block (bio_write_block : nat -> list Z -> Z -> Z -> M bio Z)
    (parent : option nat) (off : Z) (buf : list Z) (block count : Z) : M bio Z :=
  subdev_parent parent (fun p => bio_write_block p buf (u32 (block + off)) count).

Definition subdev_erase (bio_erase : nat -> Z -> Z -> M bio Z)
    (parent : option nat) (off : Z) (dev : bdev) (offset len : Z) : M bio Z :=
  subdev_parent parent (fun p => bio_erase p (s64 (offset + off * bd_block_size dev)) len).

Definition subdev_close (bio_close : nat -> M bio unit) (parent : option nat) (off : Z) (d : nat) : M bio unit :=
  subdev_parent parent bio_close ;;;
  modify (set_devs (alter (set_ops (Subdev_ops None off)) d)).

(** ** Block access *)

(** The range check of [bio_read_block] and [bio_write_block]: the count that
    goes to the hook, or [None] when the call returns 0 at once. *)
Definition block_range (dev : bdev) (block count : Z) : option Z :=
  if bd_block_count dev <? block then None
  else if count =? 0 then None
  else if bd_block_count dev <? u32 (block + count)
       then Some (u32 (bd_block_count dev - block)) else Some count.

Fixpoint bio_read_block (fuel : nat) (d : nat) (block count : Z) : M bio (Z * list Z) :=
  match fuel with
  | O => panic
  | S fuel' =>
      let* dev := get_dev d in
      assert_ (0 <? bd_ref dev) ;;;
      match block_range dev block count with
      | None => ret (0, [])
      | Some count =>
          match bd_ops dev with
          | Default_ops => panic
          | Mem_ops k => mem_bdev_read_block k block count
          | Subdev_ops parent offset => subdev_read_block (bio_read_block fuel') parent offset block count
          | Driver_ops k => driver_read_block k block count
          end
      end
  end.

Fixpoint bio_write_block (fuel : nat) (d : nat) (buf : list Z) (block count : Z) : M bio Z :=
  match fuel with
  | O => panic
  | S fuel' =>
      let* dev := get_dev d in
      assert_ (0 <? bd_ref dev) ;;;
      match block_range dev block count with
      | None => ret 0
      | Some count =>
          match bd_ops dev with
          | Default_ops => panic
          | Mem_ops k => mem_bdev_write_block k buf block count
          | Subdev_ops parent offset => subdev_write_block (bio_write_block fuel') parent offset buf block count
          | Driver_ops k => driver_write_block k buf block count
          end
      end
  end.

(** ** Byte access through block hooks: the default hooks

    [pos] is how far [buf] has been advanced; [temp] holds one block.  Each
    part returns [inl err] where the code goes to its [err] label. *)

Section default_hooks.
Variables (read_block : Z -> Z -> M bio (Z * list Z)) (write_block : list Z -> Z -> Z -> M bio Z).

Definition read_first (dev : bdev) (buf : list Z) (offset len block : Z) :
    M bio (Z * list Z + list Z * Z * Z * Z) :=
  if negb (offset mod bd_block_size dev =? 0) then
    let* (r, temp) := read_block block 1 in
    let err := s32 r in
    if err <? 0 then ret (inl (err, buf))
    else
      let block_offset := offset mod bd_block_size dev in
      let tocopy := Z.min (bd_block_size dev - block_offset) len in
      let* data := getopt (fun _ => range temp block_offset tocopy) in
      let* buf := getopt (fun _ => blit_at buf 0 data) in
      ret (inr (buf, tocopy, len - tocopy, u32 (block + 1)))
  else ret (inr (buf, 0, len, block)).

Definition read_middle (dev : bdev) (buf : list Z) (pos len block : Z) :
    M bio (Z * list Z + list Z * Z * Z * Z) :=
  if bd_block_size dev <=? len then
    let block_count := len / bd_block_size dev in
    let* (r, data) := read_block block (u32 block_count) in
    let* buf := getopt (fun _ => blit_at buf pos data) in
    let err := s32 r in
    if err <? 0 then ret (inl (err, buf))
    else
      let bytes := block_count * bd_block_size dev in
      assert_ (bytes <=? len) ;;;
      ret (inr (buf, pos + bytes, len - bytes, u32 (block + block_count)))
  else ret (inr (buf, pos, len, block)).

Definition read_last (buf : list Z) (pos len block : Z) : M bio (Z * list Z) :=
  if 0 <? len then
    let* (r, temp) := read_block block 1 in
    let err := s32 r in
    if err <? 0 then ret (err, buf)
    else
      let* data := getopt (fun _ => range temp 0 len) in
      let* buf := getopt (fun _ => blit_at buf pos data) in
      ret (pos + len, buf)
  else ret (pos, buf).

Definition bio_default_read (dev : bdev) (buf : list Z) (offset len : Z) : M bio (Z * list Z) :=
  let block := u32 (offset / bd_block_size dev) in
  let* r := read_first dev buf offset len block in
  match r with
  | inl e => ret e
  | inr (buf, pos, len, block) =>
      let* r := read_middle dev buf pos len block in
      match r with
      | inl e => ret e
      | inr (buf, pos, len, block) => read_last buf pos len block
      end
  end.

Definition write_first (dev : bdev) (buf : list Z) (offset len block : Z) :
    M bio (Z + Z * Z * Z) :=
  if negb (offset mod bd_block_size dev =? 0) then
    let* (r, temp) := read_block block 1 in
    let err := s32 r in
    if err <? 0 then ret (inl err)
    else
      let block_offset := offset mod bd_block_size dev in
      let tocopy := Z.min (bd_block_size dev - block_offset) len in
      let* data := getopt (fun _ => range buf 0 tocopy) in
      let* temp := getopt (fun _ => blit_at temp block_offset data) in
      let* r := write_block temp block 1 in
      let err := s32 r in
      if err <? 0 then ret (inl err)
      else ret (inr (tocopy, len - tocopy, u32 (block + 1)))
  else ret (inr (0, len, block)).

Definition write_middle (dev : bdev) (buf : list Z) (pos len block : Z) : M bio (Z + Z * Z * Z) :=
  if bd_block_size dev <=? len then
    let block_count := len / bd_block_size dev in
    let* data := getopt (fun _ => range buf pos (Z.of_nat (length buf) - pos)) in
    let* r := write_block data block (u32 block_count) in
    let err := s32 r in
    if err <? 0 then ret (inl err)
    else
      let bytes := block_count * bd_block_size dev in
      assert_ (bytes <=? len) ;;;
      ret (inr (pos + bytes, len - bytes, u32 (block + block_count)))
  else ret (inr (pos, len, block)).

Definition write_last (buf : list Z) (pos len block : Z) : M bio Z :=
  if 0 <? len then
    let* (r, temp) := read_block block 1 in
    let err := s32 r in
    if err <? 0 then ret err
    else
      let* data := getopt (fun _ => range buf pos len) in
      let* temp := getopt (fun _ => blit_at temp 0 data) in
      let* r := write_block temp block 1 in
      let err := s32 r in
      if err <? 0 then ret err else ret (pos + len)
  else ret pos.

Definition bio_default_write (dev : bdev) (buf : list Z) (offset len : Z) : M bio Z :=
  let block := u32 (offset / bd_block_size dev) in
  let* r := write_first dev buf offset len block in
  match r with
  | inl e => ret e
  | inr (pos, len, block) =>
      let* r := write_middle dev buf pos len block in
      match r with
      | inl e => ret e
      | inr (pos, len, block) => write_last buf pos len block
      end
  end.
End default_hooks.

(** ** Byte access *)

(** The range check of [bio_read], [bio_write] and [bio_erase]: the value the
    call returns at once, or the length that goes to the hook. *)
Definition byte_range (dev : bdev) (offset len : Z) : Z + Z :=
  if offset <? 0 then inl (-1)
  else if bd_size dev <=? offset then inl 0
  else if len =? 0 then inl 0
  else if bd_size dev <? u64 (offset + len) then inr (u64 (bd_size dev - offset)) else inr len.

Fixpoint bio_read (fuel : nat) (d : nat) (buf : list Z) (offset len : Z) : M bio (Z * list Z) :=
  match fuel with
  | O => panic
  | S fuel' =>
      let* dev := get_dev d in
      assert_ (0 <? bd_ref dev) ;;;
      match byte_range dev offset len with
      | inl r => ret (r, buf)
      | inr len =>
          match bd_ops dev with
          | Mem_ops k => mem_bdev_read k buf offset len
          | Subdev_ops parent off => subdev_read (bio_read fuel') parent off dev buf offset len
          | Default_ops | Driver_ops _ =>
              bio_default_read (bio_read_block fuel d) dev buf offset len
          end
      end
  end.

Fixpoint bio_write (fuel : nat) (d : nat) (buf : list Z) (offset len : Z) : M bio Z :=
  match fuel with
  | O => panic
  | S fuel' =>
      let* dev := get_dev d in
      assert_ (0 <? bd_ref dev) ;;;
      match byte_range dev offset len with
      | inl r => ret r
      | inr len =>
          match bd_ops dev with
          | Mem_ops k => mem_bdev_write k buf offset len
          | Subdev_ops parent off => subdev_write (bio_write fuel') parent off dev buf offset len
          | Default_ops | Driver_ops _ =>
              bio_default_write (bio_read_block fuel d) (bio_write_block fuel d) dev buf offset len
          end
      end
  end.

(** ** Erasing *)

Definition ERASE_BUF_SIZE : Z := 4096.

(** The loop writes at most [ERASE_BUF_SIZE] bytes per turn and goes on only
    after a full write, so [remaining / ERASE_BUF_SIZE + 2] turns are enough. *)
Fixpoint erase_loop (turns fuel : nat) (d : nat) (pos remaining len : Z) : M bio Z :=
  if 0 <? remaining then
    match turns with
    | O => panic
    | S turns' =>
        let towrite := Z.min remaining ERASE_BUF_SIZE in
        let* written := bio_write fuel d (replicate (Z.to_nat ERASE_BUF_SIZE) 0) pos towrite in
        if written <? 0 then ret pos
        else
          let pos := pos + written in
          let remaining := remaining - written in
          if written <? towrite then ret pos
          else erase_loop turns' fuel d pos remaining len
    end
  else ret len.

Definition bio_default_erase (fuel : nat) (d : nat) (offset len : Z) : M bio Z :=
  erase_loop (S (S (Z.to_nat (len / ERASE_BUF_SIZE)))) fuel d offset len len.

Fixpoint bio_erase (fuel : nat) (d : nat) (offset len : Z) : M bio Z :=
  match fuel with
  | O => panic
  | S fuel' =>
      let* dev := get_dev d in
      assert_ (0 <? bd_ref dev) ;;;
      match byte_range dev offset len with
      | inl r => ret r
      | inr len =>
          match bd_ops dev with
          | Subdev_ops parent off => subdev_erase (bio_erase fuel') parent off dev offset len
          | _ => bio_default_erase fuel d offset len
          end
      end
  end.

(** ** Devices and references *)

Definition bdev_inc_ref (d : nat) : M bio unit :=
  let* dev := get_dev d in
  modify (set_devs (insert d (set_ref (s32 (bd_ref dev + 1)) dev))).

(** With the close hook of a subdevice, which drops the reference on its parent;
    the last step is [free(dev)]. *)
Fixpoint bdev_dec_ref (fuel : nat) (d : nat) : M bio unit :=
  match fuel with
  | O => panic
  | S fuel' =>
      let* dev := get_dev d in
      let oldval := bd_ref dev in
      modify (set_devs (insert d (set_ref (s32 (bd_ref dev - 1)) dev))) ;;;
      when oldval =? 1 do
        (let* linked := gets (fun s => list_in_list (bdevs s) d) in
         assert_ (negb linked) ;;;
         (match bd_ops dev with
          | Subdev_ops parent off => subdev_close (bdev_dec_ref fuel') parent off d
          | _ => ret tt
          end) ;;;
         modify (set_devs (delete d)))
  end.

Fixpoint find_name (name : string) (es : list nat) : M bio (option nat) :=
  match es with
  | [] => ret None
  | d :: es' =>
      let* dev := get_dev d in
      assert_ (0 <? bd_ref dev) ;;;
      if bool_decide (bd_name dev = name) then bdev_inc_ref d ;;; ret (Some d)
      else find_name name es'
  end.

Definition bio_open (name : string) : M bio (option nat) :=
  bio_lock ;;;
  let* es := gets (fun s => contents (bdevs s) tt) in
  let* r := find_name name es in
  bio_unlock ;;;
  ret r.

Definition bio_close (fuel : nat) (d : nat) : M bio unit := bdev_dec_ref fuel d.

(** The block size is asserted to be 512. *)
Definition bio_initialize_bdev (d : nat) (name : string) (block_size block_count : Z) : M bio unit :=
  assert_ (block_size =? 512) ;;;
  modify (set_devs (insert d
    {| bd_ref := 0; bd_name := name; bd_size := u64 (block_count * block_size);
       bd_block_size := block_size; bd_block_count := block_count; bd_ops := Default_ops |})).

Definition bio_register_device (d : nat) : M bio unit :=
  bdev_inc_ref d ;;;
  bio_lock ;;;
  modify (set_bdevs (list_add_head tt d)) ;;;
  bio_unlock.

Definition bio_unregister_device (fuel : nat) (d : nat) : M bio unit :=
  bio_lock ;;;
  modify (set_bdevs (list_delete d)) ;;;
  bio_unlock ;;;
  bdev_dec_ref fuel d.

(** [mem] is what [malloc] returns: the identity of the new device. *)
Definition create_membdev (mem : nat) (name : string) (ptr : nat) (len : Z) : M bio Z :=
  bio_initialize_bdev mem name BLOCKSIZE (u32 (len / BLOCKSIZE)) ;;;
  modify (set_devs (alter (set_ops (Mem_ops ptr)) mem)) ;;;
  bio_register_device mem ;;;
  ret 0.

Definition bio_publish_subdevice (sub : nat) (parent_dev subdev : string) (startblock len : Z) : M bio Z :=
  let* parent := bio_open parent_dev in
  match parent with
  | None => ret (-1)
  | Some p =>
      let* pdev := get_dev p in
      if bd_block_count pdev <? u64 (startblock + len) then ret (-1)
      else
        bio_initialize_bdev sub subdev (bd_block_size pdev) (u32 len) ;;;
        modify (set_devs (alter (set_ops (Subdev_ops (Some p) startblock)) sub)) ;;;
        bio_register_device sub ;;;
        ret 0
  end.
End bio.
