(* ===== verification/BioSpec.v ===== *)
(** * What the block layer computes

    [resolve] follows a chain of subdevices to the medium at its end and the
    byte offset of the device on it, checking on the way what the block layer
    relies on.  The lemmas give the result of every access in terms of that
    medium: block access, the read-modify-write of the default hooks, and byte
    access through any chain. *)

From S2P Require Import Prelude Arrays ListH Bio.
Local Open Scope lk_scope.

(** What a driver promises for a request inside its medium: the whole transfer,
    or a negative [int] and a medium of the same size. *)
Class DriverLaws `{BD : BlockDriver} : Prop := {
  drv_read_law : forall img block count r data,
    0 <= block -> 0 < count -> (block + count) * BLOCKSIZE <= Z.of_nat (length img) ->
    drv_read img block count = (r, data) ->
    (r = count * BLOCKSIZE /\ range img (block * BLOCKSIZE) (count * BLOCKSIZE) = Some data) \/
    (- 2 ^ 31 <= r < 0 /\ Z.of_nat (length data) <= count * BLOCKSIZE);
  drv_write_law : forall img block count buf r img',
    0 <= block -> 0 < count -> (block + count) * BLOCKSIZE <= Z.of_nat (length img) ->
    count * BLOCKSIZE <= Z.of_nat (length buf) ->
    drv_write img block count buf = (r, img') ->
    (r = count * BLOCKSIZE /\
     blit_at img (block * BLOCKSIZE) (take (Z.to_nat (count * BLOCKSIZE)) buf) = Some img') \/
    (- 2 ^ 31 <= r < 0 /\ length img' = length img);
}.

(** A driver that never fails. *)
#[export] Instance ram_driver : BlockDriver := {|
  drv_read := fun img block count =>
    (count * BLOCKSIZE, default [] (range img (block * BLOCKSIZE) (count * BLOCKSIZE)));
  drv_write := fun img block count buf =>
    (count * BLOCKSIZE,
     default img (blit_at img (block * BLOCKSIZE) (take (Z.to_nat (count * BLOCKSIZE)) buf)));
|}.

#[export] Instance ram_laws : DriverLaws.
Proof.
  split.
  - intros img block count r data Hb Hc Hl [= <- <-]. left. unfold BLOCKSIZE in *.
    rewrite range_Some by lia. done.
  - intros img block count buf r img' Hb Hc Hl Hlb [= <- <-]. left. unfold BLOCKSIZE in *.
    destruct (blit_at_Some img (block * 512) (take (Z.to_nat (count * 512)) buf)) as (l' & E & _).
    + lia.
    + rewrite length_take. lia.
    + by rewrite E.
Qed.

(** ** Following subdevices *)

Section bio.
Context `{LO : ListOps nat unit} `{BD : BlockDriver}.
Implicit Types (s : bio) (b : bdev).

Definition geometry b : bool :=
  (0 <? bd_ref b) && (bd_block_size b =? BLOCKSIZE) && (0 <=? bd_block_count b) &&
  (bd_block_count b <? 2 ^ 32) && (bd_size b =? bd_block_count b * BLOCKSIZE).

Definition fits s (k : nat) (n : Z) : bool :=
  match disks s !! k with Some img => n <=? Z.of_nat (length img) | None => false end.

(** The medium a device lives on, its byte offset there, and whether a driver
    (which may fail) serves it.  A memory device is below 4 GiB. *)
Fixpoint resolve s (fuel : nat) (d : nat) : option (nat * Z * bool) :=
  match fuel with
  | O => None
  | S fuel' =>
      match devs s !! d with
      | None => None
      | Some b =>
          if geometry b then
            match bd_ops b with
            | Mem_ops k =>
                if fits s k (bd_size b) && (bd_size b <? 2 ^ 32) then Some (k, 0, false) else None
            | Driver_ops k => if fits s k (bd_size b) then Some (k, 0, true) else None
            | Subdev_ops (Some p) off =>
                match devs s !! p, resolve s fuel' p with
                | Some pb, Some (k, base, dr) =>
                    if (0 <=? off) && (off + bd_block_count b <=? bd_block_count pb)
                    then Some (k, base + off * BLOCKSIZE, dr) else None
                | _, _ => None
                end
            | _ => None
            end
          else None
      end
  end.

Lemma geometry_inv b :
  geometry b = true ->
  0 < bd_ref b /\ bd_block_size b = 512 /\ 0 <= bd_block_count b < 2 ^ 32 /\
  bd_size b = bd_block_count b * 512.
Proof. unfold geometry, BLOCKSIZE. intros. bools. lia. Qed.

(** A resolved device lies inside its medium. *)
Lemma resolve_inv s f d k base dr :
  resolve s f d = Some (k, base, dr) ->
  exists b img, devs s !! d = Some b /\ geometry b = true /\ disks s !! k = Some img /\
    0 <= base /\ base + bd_size b <= Z.of_nat (length img).
Proof.
  revert d base. induction f as [|f IH]; intros d base; cbn [resolve]; [done|].
  destruct (devs s !! d) as [b|] eqn:Hd; [|done]. destruct (geometry b) eqn:Hg; [|done].
  pose proof (geometry_inv b Hg) as (_ & _ & Hc & Hs).
  destruct (bd_ops b) as [|k'|[p|] off|k']; try done.
  - unfold fits. destruct (disks s !! k') as [img|] eqn:Hk; [|done].
    destruct (_ && _) eqn:E; [|done]. bools. intros [= <- <- <-]. exists b, img. split_and!; (done || lia).
  - destruct (devs s !! p) as [pb|] eqn:Hp; [|done].
    destruct (resolve s f p) as [[[k' base'] dr']|] eqn:Hr; [|done].
    destruct (_ && _) eqn:E; [|done]. bools. intros [= <- <- <-].
    destruct (IH p base' Hr) as (pb' & img & Hp' & Hg' & Hk & Hb & Hl).
    assert (pb' = pb) as -> by congruence. pose proof (geometry_inv pb Hg') as (_ & _ & Hc' & Hs').
    exists b, img. unfold BLOCKSIZE. split_and!; (done || lia).
  - unfold fits. destruct (disks s !! k') as [img|] eqn:Hk; [|done].
    destruct (_ <=? _) eqn:E; [|done]. bools. intros [= <- <- <-]. exists b, img. split_and!; (done || lia).
Qed.

(** Writing a medium of the same size leaves the chains as they are. *)
Lemma resolve_set_disk s f d k img img' :
  disks s !! k = Some img -> length img' = length img ->
  resolve (set_disk k img' s) f d = resolve s f d.
Proof.
  intros Hk Hl.
  assert (Hf : forall k' n, fits (set_disk k img' s) k' n = fits s k' n).
  { intros k' n. unfold fits. cbn [disks set_disk]. destruct (decide (k' = k)) as [->|].
    - by rewrite lookup_insert_eq, Hk, Hl.
    - by rewrite lookup_insert_ne. }
  revert d. induction f as [|f IH]; intros d; cbn [resolve]; [done|].
  cbn [devs set_disk]. destruct (devs s !! d) as [b|]; [|done]. destruct (geometry b); [|done].
  destruct (bd_ops b) as [|k'|[p|] off|k']; rewrite ?Hf, ?IH; done.
Qed.

(** ** Block access *)

Lemma block_range_inside b block count :
  0 <= block -> 0 < count -> block + count <= bd_block_count b -> bd_block_count b < 2 ^ 32 ->
  block_range b block count = Some count.
Proof.
  intros. unfold block_range. rewrite u32_small by lia. zcases; (done || lia).
Qed.

(** The outcome of a transfer of the [n] bytes at [off]. *)
Definition read_result (dr : bool) (img : list Z) (off n r : Z) (data : list Z) : Prop :=
  (r = n /\ range img off n = Some data) \/
  (dr = true /\ - 2 ^ 31 <= r < 0 /\ Z.of_nat (length data) <= n).
Definition write_result (dr : bool) (img : list Z) (off : Z) (data : list Z) (r : Z) (img' : list Z) : Prop :=
  (r = Z.of_nat (length data) /\ blit_at img off data = Some img') \/
  (dr = true /\ - 2 ^ 31 <= r < 0 /\ length img' = length img).

Lemma getopt_run {A} s (o : option A) a : o = Some a -> @getopt bio A (fun _ => o) s = Some (a, s).
Proof. unfold getopt. by intros ->. Qed.
Lemma get_dev_run s d b : devs s !! d = Some b -> get_dev d s = Some (b, s).
Proof. unfold get_dev, getopt. by intros ->. Qed.
Lemma get_disk_run s k img : disks s !! k = Some img -> get_disk k s = Some (img, s).
Proof. unfold get_disk, getopt. by intros ->. Qed.
Lemma bind_run {A B} (c : M bio A) (f : A -> M bio B) s a s' :
  c s = Some (a, s') -> bind c f s = f a s'.
Proof. unfold bind. by intros ->. Qed.
Lemma assert_run (t : bool) s : t = true -> @assert_ bio t s = Some (tt, s).
Proof. by intros ->. Qed.

Lemma bio_read_block_run `{!DriverLaws} s f d k base dr b img block count :
  resolve s f d = Some (k, base, dr) -> devs s !! d = Some b -> disks s !! k = Some img ->
  0 <= block -> 0 < count -> block + count <= bd_block_count b ->
  exists r data, bio_read_block f d block count s = Some ((r, data), s) /\
    read_result dr img (base + block * 512) (count * 512) r data.
Proof.
  revert d base b block. induction f as [|f IH]; intros d base b block Hr Hd Hk Hb Hc Hin;
    cbn [resolve bio_read_block] in *; [done|].
  pose proof Hr as Hr0. rewrite Hd in Hr. destruct (geometry b) eqn:Hg; [|done].
  pose proof (geometry_inv b Hg) as (Hrf & Hbs & Hcnt & Hsz).
  rewrite (bind_run _ _ _ _ _ (get_dev_run s d b Hd)).
  rewrite (bind_run _ _ s tt s) by (apply assert_run; by apply Z.ltb_lt).
  rewrite block_range_inside by lia.
  destruct (bd_ops b) as [|k'|[p|] off|k']; try done.
  - destruct (fits s k' _) eqn:Hf; [|done]. destruct (Z.ltb_spec (bd_size b) (2 ^ 32)); [|done].
    injection Hr as -> <- <-. unfold fits in Hf. rewrite Hk in Hf. bools.
    unfold mem_bdev_read_block, BLOCKSIZE. rewrite (bind_run _ _ _ _ _ (get_disk_run s k img Hk)).
    rewrite !u32_small by lia.
    erewrite bind_run by (apply getopt_run; apply range_Some; lia).
    eexists _, _. split; [done|]. left. split; [done|]. rewrite range_Some by lia. done.
  - destruct (devs s !! p) as [pb|] eqn:Hp; [|done].
    destruct (resolve s f p) as [[[k' base'] dr']|] eqn:Hrp; [|done].
    destruct (_ && _) eqn:E; [|done]. bools. injection Hr as -> <- ->.
    destruct (resolve_inv _ _ _ _ _ _ Hrp) as (pb' & img' & Hp' & Hg' & _).
    assert (pb' = pb) as -> by congruence. pose proof (geometry_inv pb Hg') as (_ & _ & Hc' & _).
    cbn [subdev_read_block subdev_write_block subdev_parent]. rewrite u32_small by lia.
    destruct (IH p base' pb (block + off) Hrp Hp Hk) as (r & data & Er & Hres); [lia..|].
    exists r, data. split; [done|]. unfold BLOCKSIZE.
    by replace (base' + off * 512 + block * 512) with (base' + (block + off) * 512) by lia.
  - destruct (fits s k' _) eqn:Hf; [|done]. injection Hr as -> <- <-.
    unfold fits in Hf. rewrite Hk in Hf. bools.
    unfold driver_read_block. rewrite (bind_run _ _ _ _ _ (get_disk_run s k img Hk)).
    destruct (drv_read img block count) as [r data] eqn:E. exists r, data. split; [done|].
    destruct (drv_read_law img block count r data) as [?|?]; [lia|lia|unfold BLOCKSIZE; lia|done|left|right]; tauto.
Qed.

Lemma bio_write_block_run `{!DriverLaws} s f d k base dr b img block count buf :
  resolve s f d = Some (k, base, dr) -> devs s !! d = Some b -> disks s !! k = Some img ->
  0 <= block -> 0 < count -> block + count <= bd_block_count b ->
  count * 512 <= Z.of_nat (length buf) ->
  exists r img', bio_write_block f d buf block count s = Some (r, set_disk k img' s) /\
    write_result dr img (base + block * 512) (take (Z.to_nat (count * 512)) buf) r img'.
Proof.
  revert d base b block. induction f as [|f IH]; intros d base b block Hr Hd Hk Hb Hc Hin Hbuf;
    cbn [resolve bio_write_block] in *; [done|].
  rewrite Hd in Hr. destruct (geometry b) eqn:Hg; [|done].
  pose proof (geometry_inv b Hg) as (Hrf & Hbs & Hcnt & Hsz).
  rewrite (bind_run _ _ _ _ _ (get_dev_run s d b Hd)).
  rewrite (bind_run _ _ s tt s) by (apply assert_run; by apply Z.ltb_lt).
  rewrite block_range_inside by lia.
  assert (Hlt : Z.of_nat (length (take (Z.to_nat (count * 512)) buf)) = count * 512)
    by (rewrite length_take; lia).
  destruct (bd_ops b) as [|k'|[p|] off|k']; try done.
  - destruct (fits s k' _) eqn:Hf; [|done]. destruct (Z.ltb_spec (bd_size b) (2 ^ 32)); [|done].
    injection Hr as -> <- <-. unfold fits in Hf. rewrite Hk in Hf. bools.
    unfold mem_bdev_write_block, BLOCKSIZE. rewrite (bind_run _ _ _ _ _ (get_disk_run s k img Hk)).
    rewrite !u32_small by lia.
    erewrite bind_run by (apply getopt_run; apply range_Some; lia).
    change (slice buf (Z.to_nat 0) (Z.to_nat (count * 512))) with (take (Z.to_nat (count * 512)) buf).
    destruct (blit_at_Some img (block * 512) (take (Z.to_nat (count * 512)) buf)) as (img' & E & _); [lia..|].
    erewrite bind_run by (apply getopt_run; exact E).
    eexists _, _. split; [done|]. left. split; [done|]. exact E.
  - destruct (devs s !! p) as [pb|] eqn:Hp; [|done].
    destruct (resolve s f p) as [[[k' base'] dr']|] eqn:Hrp; [|done].
    destruct (_ && _) eqn:E; [|done]. bools. injection Hr as -> <- ->.
    destruct (resolve_inv _ _ _ _ _ _ Hrp) as (pb' & img' & Hp' & Hg' & _).
    assert (pb' = pb) as -> by congruence. pose proof (geometry_inv pb Hg') as (_ & _ & Hc' & _).
    cbn [subdev_read_block subdev_write_block subdev_parent]. rewrite u32_small by lia.
    destruct (IH p base' pb (block + off) Hrp Hp Hk) as (r & data & Er & Hres); [lia..|].
    exists r, data. split; [done|]. unfold BLOCKSIZE.
    by replace (base' + off * 512 + block * 512) with (base' + (block + off) * 512) by lia.
  - destruct (fits s k' _) eqn:Hf; [|done]. injection Hr as -> <- <-.
    unfold fits in Hf. rewrite Hk in Hf. bools.
    unfold driver_write_block. rewrite (bind_run _ _ _ _ _ (get_disk_run s k img Hk)).
    destruct (drv_write img block count buf) as [r img'] eqn:E. exists r, img'. split; [done|].
    unfold write_result. rewrite Hlt.
    destruct (drv_write_law img block count buf r img') as [?|?]; [lia|lia|unfold BLOCKSIZE; lia|unfold BLOCKSIZE; lia|done|left|right]; tauto.
Qed.

(** A driver's error code. *)
Definition failed (dr : bool) (r : Z) : Prop := dr = true /\ - 2 ^ 31 <= r < 0.

Lemma failed_s32 dr r : failed dr r -> s32 r = r /\ (r <? 0) = true.
Proof. intros [_ Hr]. rewrite s32_small by lia. split; [done|]. apply Z.ltb_lt. lia. Qed.

(** ** The default read hook *)

Section default_read.
Variables (rb : Z -> Z -> M bio (Z * list Z)) (s : bio) (dev : bdev).
Variables (dr : bool) (img : list Z) (base : Z).
Hypothesis Hg : geometry dev = true.
Hypothesis Hbase : 0 <= base /\ base + bd_size dev <= Z.of_nat (length img).
Hypothesis Hrb : forall block count,
  0 <= block -> 0 < count -> block + count <= bd_block_count dev ->
  exists r data, rb block count s = Some ((r, data), s) /\
    read_result dr img (base + block * 512) (count * 512) r data.

(** [pos] bytes have been copied: the front of the buffer holds the bytes of
    the device from [off] on. *)
Definition copied (buf : list Z) (off pos : Z) (buf' : list Z) : Prop :=
  exists data, range img (base + off) pos = Some data /\ blit_at buf 0 data = Some buf'.

(** Where a part of the hook leaves off: all is done, or a block boundary. *)
Definition at_block (off pos len block : Z) : Prop :=
  0 <= len /\ 0 <= pos /\
  (len = 0 \/ (off + pos) mod 512 = 0 /\ block = (off + pos) / 512 /\ off + pos + len <= bd_size dev).

Lemma copied_more buf off pos n buf1 d2 buf2 :
  copied buf off pos buf1 -> range img (base + (off + pos)) n = Some d2 ->
  blit_at buf1 pos d2 = Some buf2 -> copied buf off (pos + n) buf2.
Proof.
  intros (d1 & Hr1 & Hb1) Hr2 Hb2. exists (d1 ++ d2). rewrite Z.add_assoc in Hr2. split.
  - by apply range_app.
  - apply blit_at_app with buf1; [done|]. by rewrite Z.add_0_l, (range_length _ _ _ _ Hr1).
Qed.

Lemma copied_none buf off : 0 <= off -> off <= bd_size dev -> copied buf off 0 buf.
Proof.
  intros. exists []. split; [by rewrite range_Some by lia|]. apply blit_at_nil. lia.
Qed.

Lemma read_last_run buf off pos len block buf1 :
  0 <= off -> at_block off pos len block -> len < 512 -> copied buf off pos buf1 ->
  pos + len <= Z.of_nat (length buf) ->
  exists r buf2, read_last rb buf1 pos len block s = Some ((r, buf2), s) /\
    length buf2 = length buf /\ (r = pos + len /\ copied buf off (pos + len) buf2 \/ failed dr r).
Proof.
  intros Hoff (Hlen & Hpos & Hat) Hlt Hcp Hbuf. pose proof (geometry_inv dev Hg) as (_ & _ & Hcnt & Hsz).
  assert (Hl1 : length buf1 = length buf) by (destruct Hcp as (? & _ & ?); by eapply blit_at_length).
  unfold read_last. destruct (Z.ltb_spec 0 len) as [Hl|Hl].
  2: { exists pos, buf1. replace len with 0 in * by lia. rewrite Z.add_0_r. auto. }
  destruct Hat as [?|(Hm & Hbl & Hsize)]; [lia|].
  pose proof (Z_div_mod_eq_full (off + pos) 512).
  destruct (Hrb block 1) as (r & temp & Er & [[-> Hrng]|Hfail]).
  { lia. } { lia. } { lia. }
  - rewrite (bind_run _ _ _ _ _ Er). rewrite s32_small by lia. change (1 * 512 <? 0) with false. cbv iota.
    assert (Hr2 : range temp 0 len = range img (base + (off + pos)) len).
    { rewrite (range_range _ _ _ _ _ _ Hrng) by lia. f_equal. lia. }
    rewrite range_Some in Hr2 by (try rewrite (range_length _ _ _ _ Hrng); lia).
    pose proof (range_length img (base + (off + pos)) len _ (eq_sym Hr2)) as Hdl.
    erewrite bind_run by (apply getopt_run; apply range_Some; rewrite ?(range_length _ _ _ _ Hrng); lia).
    destruct (blit_at_Some buf1 pos (slice temp (Z.to_nat 0) (Z.to_nat len))) as (buf2 & Eb & Hl2); [lia..|].
    rewrite (bind_run _ _ _ _ _ (getopt_run s _ _ Eb)).
    eexists _, _. split; [done|]. split; [congruence|]. left. split; [done|].
    by eapply copied_more.
  - rewrite (bind_run _ _ _ _ _ Er). destruct Hfail as (Hdr & Hr & _).
    destruct (failed_s32 dr r) as [-> ->]; [done|]. exists r, buf1. split; [done|]. split; [done|]. right. done.
Qed.

Lemma read_middle_run buf off pos len block buf1 :
  0 <= off -> at_block off pos len block -> copied buf off pos buf1 -> len < 2 ^ 31 ->
  pos + len <= Z.of_nat (length buf) ->
  exists res, read_middle rb dev buf1 pos len block s = Some (res, s) /\
    match res with
    | inl (r, buf2) => length buf2 = length buf /\ failed dr r
    | inr (buf2, pos2, len2, block2) =>
        pos2 + len2 = pos + len /\ len2 < 512 /\ at_block off pos2 len2 block2 /\ copied buf off pos2 buf2
    end.
Proof.
  intros Hoff (Hlen & Hpos & Hat) Hcp Hlt Hbuf. pose proof (geometry_inv dev Hg) as (_ & Hbs & Hcnt & Hsz).
  assert (Hl1 : length buf1 = length buf) by (destruct Hcp as (? & _ & ?); by eapply blit_at_length).
  unfold read_middle. rewrite Hbs. destruct (Z.leb_spec 512 len) as [Hl|Hl].
  2: { eexists. split; [done|]. cbv beta iota. unfold at_block. split_and!; (done || lia). }
  destruct Hat as [?|(Hm & Hbl & Hsize)]; [lia|].
  pose proof (Z_div_mod_eq_full (off + pos) 512). pose proof (Z_div_mod_eq_full len 512).
  pose proof (Z.mod_pos_bound len 512 ltac:(lia)).
  pose proof (Z.div_pos (off + pos) 512 ltac:(lia) ltac:(lia)).
  set (n := len / 512) in *. rewrite u32_small by lia.
  destruct (Hrb block n) as (r & data & Er & [[-> Hrng]|Hfail]).
  { lia. } { lia. } { lia. }
  - rewrite (bind_run _ _ _ _ _ Er). replace (base + block * 512) with (base + (off + pos)) in Hrng by lia.
    pose proof (range_length _ _ _ _ Hrng) as Hdl.
    destruct (blit_at_Some buf1 pos data) as (buf2 & Eb & Hl2); [lia..|].
    rewrite (bind_run _ _ _ _ _ (getopt_run s _ _ Eb)). rewrite s32_small by lia.
    destruct (Z.ltb_spec (n * 512) 0); [lia|].
    rewrite (bind_run _ _ s tt s) by (apply assert_run; apply Z.leb_le; lia).
    eexists. split; [done|]. cbv beta iota. split_and!; [lia|lia| |by eapply copied_more].
    unfold at_block. split_and!; [lia|lia|]. right.
    assert (E : off + (pos + n * 512) = (off + pos) + n * 512) by lia.
    rewrite E, Z.mod_add, Z.div_add by lia. split_and!; [done| |lia].
    rewrite u32_small by lia. lia.
  - rewrite (bind_run _ _ _ _ _ Er). destruct Hfail as (Hdr & Hr & Hdl).
    destruct (blit_at_Some buf1 pos data) as (buf2 & Eb & Hl2); [lia..|].
    rewrite (bind_run _ _ _ _ _ (getopt_run s _ _ Eb)).
    destruct (failed_s32 dr r) as [-> ->]; [done|]. eexists. split; [done|]. split; [congruence|done].
Qed.

Lemma read_first_run buf off len :
  0 <= off -> 0 < len -> off + len <= bd_size dev -> len <= Z.of_nat (length buf) ->
  exists res, read_first rb dev buf off len (off / 512) s = Some (res, s) /\
    match res with
    | inl (r, buf2) => length buf2 = length buf /\ failed dr r
    | inr (buf2, pos2, len2, block2) =>
        pos2 + len2 = len /\ at_block off pos2 len2 block2 /\ copied buf off pos2 buf2
    end.
Proof.
  intros Hoff Hlen Hsize Hbuf. pose proof (geometry_inv dev Hg) as (_ & Hbs & Hcnt & Hsz).
  unfold read_first. rewrite Hbs. pose proof (Z_div_mod_eq_full off 512).
  pose proof (Z.mod_pos_bound off 512 ltac:(lia)).
  pose proof (Z.div_pos off 512 ltac:(lia) ltac:(lia)).
  destruct (Z.eqb_spec (off mod 512) 0) as [Em|Em]; cbn [negb].
  { eexists. split; [done|]. cbv beta iota. split_and!; [lia| |apply copied_none; lia].
    unfold at_block. rewrite Z.add_0_r. split_and!; [lia|lia|]. right. split_and!; (done || lia). }
  destruct (Hrb (off / 512) 1) as (r & temp & Er & [[-> Hrng]|Hfail]).
  { lia. } { lia. } { lia. }
  - rewrite (bind_run _ _ _ _ _ Er). rewrite s32_small by lia. change (1 * 512 <? 0) with false. cbv iota.
    set (n := Z.min (512 - off mod 512) len) in *.
    assert (Hr2 : range temp (off mod 512) n = range img (base + (off + 0)) n).
    { rewrite (range_range _ _ _ _ _ _ Hrng) by lia. f_equal. lia. }
    rewrite range_Some in Hr2 by (try rewrite (range_length _ _ _ _ Hrng); lia).
    pose proof (range_length img (base + (off + 0)) n _ (eq_sym Hr2)) as Hdl.
    erewrite bind_run by (apply getopt_run; apply range_Some; rewrite ?(range_length _ _ _ _ Hrng); lia).
    destruct (blit_at_Some buf 0 (slice temp (Z.to_nat (off mod 512)) (Z.to_nat n))) as (buf2 & Eb & Hl2); [lia..|].
    rewrite (bind_run _ _ _ _ _ (getopt_run s _ _ Eb)).
    eexists. split; [done|]. cbv beta iota. split_and!; [lia| |].
    + unfold at_block. split_and!; [lia|lia|]. destruct (Z.eq_dec (len - n) 0); [by left|right].
      assert (E : off + n = (off / 512 + 1) * 512) by lia.
      rewrite E, Z.mod_mul, Z.div_mul by lia. split_and!; [done| |lia]. rewrite u32_small by lia. lia.
    + replace n with (0 + n) by lia. eapply copied_more; [apply copied_none; lia|done|].
      exact Eb.
  - rewrite (bind_run _ _ _ _ _ Er). destruct Hfail as (Hdr & Hr & _).
    destruct (failed_s32 dr r) as [-> ->]; [done|]. eexists. split; [done|]. split; [done|done].
Qed.

Lemma bio_default_read_run buf off len :
  0 <= off -> 0 < len < 2 ^ 31 -> off + len <= bd_size dev -> len <= Z.of_nat (length buf) ->
  exists r buf', bio_default_read rb dev buf off len s = Some ((r, buf'), s) /\
    length buf' = length buf /\ (r = len /\ copied buf off len buf' \/ failed dr r).
Proof.
  intros Hoff Hlen Hsize Hbuf. pose proof (geometry_inv dev Hg) as (_ & Hbs & Hcnt & Hsz).
  pose proof (Z.div_pos off 512 ltac:(lia) ltac:(lia)).
  pose proof (Z.div_lt_upper_bound off 512 (2 ^ 32) ltac:(lia) ltac:(lia)).
  unfold bio_default_read. rewrite Hbs, u32_small by lia.
  destruct (read_first_run buf off len) as (res & E1 & H1); [lia..|]. rewrite (bind_run _ _ _ _ _ E1).
  destruct res as [[r b2]|[[[b2 pos2] len2] block2]]; [exists r, b2; split; [done|]; tauto|].
  destruct H1 as (Hpl & Hat & Hcp).
  destruct (read_middle_run buf off pos2 len2 block2 b2) as (res & E2 & H2); [(done || (unfold at_block in Hat; lia))..|].
  rewrite (bind_run _ _ _ _ _ E2).
  destruct res as [[r b3]|[[[b3 pos3] len3] block3]]; [exists r, b3; split; [done|]; tauto|].
  destruct H2 as (Hpl3 & Hlt3 & Hat3 & Hcp3).
  destruct (read_last_run buf off pos3 len3 block3 b3) as (r & b4 & E3 & H3 & Hres); [(done || lia)..|].
  exists r, b4. split; [done|]. split; [done|]. by replace (pos3 + len3) with len in Hres by lia.
Qed.
End default_read.

(** ** The default write hook *)

Section default_write.
Variables (rb : Z -> Z -> M bio (Z * list Z)) (wb : list Z -> Z -> Z -> M bio Z).
Variables (s : bio) (k : nat) (dev : bdev) (dr : bool) (img0 : list Z) (base : Z).
Hypothesis Hg : geometry dev = true.
Hypothesis Hbase : 0 <= base /\ base + bd_size dev <= Z.of_nat (length img0).

(** The state with another image of the same size. *)
Let at_img (img : list Z) : bio := set_disk k img s.

Hypothesis Hrb : forall img block count,
  length img = length img0 ->
  0 <= block -> 0 < count -> block + count <= bd_block_count dev ->
  exists r data, rb block count (at_img img) = Some ((r, data), at_img img) /\
    read_result dr img (base + block * 512) (count * 512) r data.
Hypothesis Hwb : forall img buf block count,
  length img = length img0 ->
  0 <= block -> 0 < count -> block + count <= bd_block_count dev ->
  count * 512 <= Z.of_nat (length buf) ->
  exists r img', wb buf block count (at_img img) = Some (r, at_img img') /\
    write_result dr img (base + block * 512) (take (Z.to_nat (count * 512)) buf) r img'.

(** [pos] bytes of the buffer have reached the device. *)
Definition written (buf : list Z) (off pos : Z) (img : list Z) : Prop :=
  blit_at img0 (base + off) (take (Z.to_nat pos) buf) = Some img.

Lemma written_length buf off pos img : written buf off pos img -> length img = length img0.
Proof. apply blit_at_length. Qed.

Lemma written_none buf off : 0 <= off -> off <= bd_size dev -> written buf off 0 img0.
Proof. intros. apply blit_at_nil. lia. Qed.

Lemma written_more buf off pos n img1 d img2 :
  0 <= pos -> 0 <= n -> written buf off pos img1 -> range buf pos n = Some d ->
  blit_at img1 (base + (off + pos)) d = Some img2 -> written buf off (pos + n) img2.
Proof.
  intros Hp Hn Hw Hr Hb. unfold written. rewrite (take_more _ _ _ d) by done.
  apply blit_at_app with img1; [done|]. rewrite length_take.
  unfold range in Hr. case_bool_decide; [|done].
  replace (base + off + Z.of_nat (Z.to_nat pos `min` length buf)) with (base + (off + pos)) by lia.
  done.
Qed.

(** One block read, changed at [p] and written back. *)
Lemma rmw_run img block p d :
  length img = length img0 -> 0 <= block -> block + 1 <= bd_block_count dev ->
  0 <= p -> p + Z.of_nat (length d) <= 512 ->
  exists r temp, rb block 1 (at_img img) = Some ((r, temp), at_img img) /\
    (failed dr r \/ r = 512 /\ exists temp', blit_at temp p d = Some temp' /\
     exists r' img', wb temp' block 1 (at_img img) = Some (r', at_img img') /\
       (failed dr r' /\ length img' = length img0 \/
        r' = 512 /\ blit_at img (base + block * 512 + p) d = Some img')).
Proof.
  intros Hl Hb Hin Hp Hd. destruct (Hrb img block 1) as (r & temp & Er & Hres); [lia..|].
  exists r, temp. split; [done|]. destruct Hres as [[-> Hrng]|(? & ? & _)]; [right|by left].
  split; [done|]. pose proof (range_length _ _ _ _ Hrng) as Htl.
  destruct (blit_at_Some temp p d) as (temp' & Et & Hl'); [lia..|]. exists temp'. split; [done|].
  destruct (Hwb img temp' block 1) as (r' & img' & Ew & Hres); [lia..|]. exists r', img'. split; [done|].
  rewrite take_ge in Hres by lia. destruct Hres as [[-> Hbl]|(? & ? & ?)]; [right|left; split; [done|congruence]].
  split; [lia|]. by eapply blit_at_rmw.
Qed.

Lemma ok_s32 : s32 512 = 512. Proof. done. Qed.

Lemma write_last_run buf off pos len block img :
  0 <= off -> at_block dev off pos len block -> len < 512 -> written buf off pos img ->
  pos + len <= Z.of_nat (length buf) ->
  exists r img2, write_last rb wb buf pos len block (at_img img) = Some (r, at_img img2) /\
    length img2 = length img0 /\ (r = pos + len /\ written buf off (pos + len) img2 \/ failed dr r).
Proof.
  intros Hoff (Hlen & Hpos & Hat) Hlt Hw Hbuf. pose proof (geometry_inv dev Hg) as (_ & _ & Hcnt & Hsz).
  pose proof (written_length _ _ _ _ Hw) as Hil.
  unfold write_last. destruct (Z.ltb_spec 0 len) as [Hl|Hl].
  2: { exists pos, img. replace len with 0 in * by lia. rewrite Z.add_0_r. auto. }
  destruct Hat as [?|(Hm & Hbl & Hsize)]; [lia|].
  pose proof (Z_div_mod_eq_full (off + pos) 512).
  pose proof (range_Some buf pos len ltac:(lia) ltac:(lia) ltac:(lia)) as Hd.
  pose proof (range_length _ _ _ _ Hd) as Hdl. set (d := slice buf _ _) in *. clearbody d.
  destruct (rmw_run img block 0 d) as (r & temp & Er & Hres); [lia..|].
  rewrite (bind_run _ _ _ _ _ Er). destruct Hres as [Hf|(-> & temp' & Et & r' & img' & Ew & Hres)].
  { destruct (failed_s32 dr r Hf) as [-> ->]. exists r, img. auto. }
  rewrite ok_s32. cbn [Z.ltb Z.compare]. rewrite (bind_run _ _ _ _ _ (getopt_run _ _ _ Hd)).
  rewrite (bind_run _ _ _ _ _ (getopt_run _ _ _ Et)), (bind_run _ _ _ _ _ Ew).
  destruct Hres as [[Hf Hl']|[-> Hb]].
  { destruct (failed_s32 dr r' Hf) as [-> ->]. exists r', img'. auto. }
  rewrite ok_s32. cbn [Z.ltb Z.compare]. exists (pos + len), img'. split; [done|].
  split; [by rewrite (blit_at_length _ _ _ _ Hb)|left]. split; [done|].
  eapply written_more; [lia|lia|done|done|]. rewrite <- Hb. f_equal. lia.
Qed.

Lemma write_first_run buf off len :
  0 <= off -> 0 < len -> off + len <= bd_size dev -> len <= Z.of_nat (length buf) ->
  exists res img2, write_first rb wb dev buf off len (off / 512) (at_img img0) = Some (res, at_img img2) /\
    length img2 = length img0 /\
    match res with
    | inl r => failed dr r
    | inr (pos2, len2, block2) =>
        pos2 + len2 = len /\ at_block dev off pos2 len2 block2 /\ written buf off pos2 img2
    end.
Proof.
  intros Hoff Hlen Hsize Hbuf. pose proof (geometry_inv dev Hg) as (_ & Hbs & Hcnt & Hsz).
  unfold write_first. rewrite Hbs. pose proof (Z_div_mod_eq_full off 512).
  pose proof (Z.mod_pos_bound off 512 ltac:(lia)).
  pose proof (Z.div_pos off 512 ltac:(lia) ltac:(lia)).
  destruct (Z.eqb_spec (off mod 512) 0) as [Em|Em]; cbn [negb].
  { eexists _, img0. split; [done|]. cbv beta iota. split_and!; [done|lia| |apply written_none; lia].
    unfold at_block. rewrite Z.add_0_r. split_and!; [lia|lia|]. right. split_and!; (done || lia). }
  set (n := Z.min (512 - off mod 512) len) in *.
  pose proof (take_range buf n ltac:(lia) ltac:(lia)) as Hd.
  pose proof (range_length _ _ _ _ Hd) as Hdl. set (d := take _ buf) in *. 
  destruct (rmw_run img0 (off / 512) (off mod 512) d) as (r & temp & Er & Hres); [lia..|].
  rewrite (bind_run _ _ _ _ _ Er). destruct Hres as [Hf|(-> & temp' & Et & r' & img' & Ew & Hres)].
  { destruct (failed_s32 dr r Hf) as [-> ->]. eexists _, img0. auto. }
  rewrite ok_s32. cbn [Z.ltb Z.compare]. rewrite (bind_run _ _ _ _ _ (getopt_run _ _ _ Hd)).
  rewrite (bind_run _ _ _ _ _ (getopt_run _ _ _ Et)), (bind_run _ _ _ _ _ Ew).
  destruct Hres as [[Hf Hl']|[-> Hb]].
  { destruct (failed_s32 dr r' Hf) as [-> ->]. eexists _, img'. auto. }
  rewrite ok_s32. cbn [Z.ltb Z.compare]. eexists _, img'. split; [done|]. cbv beta iota.
  split; [by rewrite (blit_at_length _ _ _ _ Hb)|]. split_and!; [lia| |].
  - unfold at_block. split_and!; [lia|lia|]. destruct (Z.eq_dec (len - n) 0); [by left|right].
    assert (E : off + n = (off / 512 + 1) * 512) by lia.
    rewrite E, Z.mod_mul, Z.div_mul by lia. split_and!; [done| |lia]. rewrite u32_small by lia. lia.
  - unfold written. fold d. rewrite <- Hb. f_equal. lia.
Qed.

Lemma write_middle_run buf off pos len block img :
  0 <= off -> at_block dev off pos len block -> written buf off pos img -> len < 2 ^ 31 ->
  pos + len <= Z.of_nat (length buf) ->
  exists res img2, write_middle wb dev buf pos len block (at_img img) = Some (res, at_img img2) /\
    length img2 = length img0 /\
    match res with
    | inl r => failed dr r
    | inr (pos2, len2, block2) =>
        pos2 + len2 = pos + len /\ len2 < 512 /\ at_block dev off pos2 len2 block2 /\ written buf off pos2 img2
    end.
Proof.
  intros Hoff (Hlen & Hpos & Hat) Hw Hlt Hbuf. pose proof (geometry_inv dev Hg) as (_ & Hbs & Hcnt & Hsz).
  pose proof (written_length _ _ _ _ Hw) as Hil.
  unfold write_middle. rewrite Hbs. destruct (Z.leb_spec 512 len) as [Hl|Hl].
  2: { eexists _, img. split; [done|]. cbv beta iota. unfold at_block. split_and!; (done || lia). }
  destruct Hat as [?|(Hm & Hbl & Hsize)]; [lia|].
  pose proof (Z_div_mod_eq_full (off + pos) 512). pose proof (Z_div_mod_eq_full len 512).
  pose proof (Z.mod_pos_bound len 512 ltac:(lia)).
  pose proof (Z.div_pos (off + pos) 512 ltac:(lia) ltac:(lia)).
  set (n := len / 512) in *. rewrite u32_small by lia.
  pose proof (range_Some buf pos (Z.of_nat (length buf) - pos) ltac:(lia) ltac:(lia) ltac:(lia)) as Hrest.
  pose proof (range_length _ _ _ _ Hrest) as Hrl. set (rest := slice buf _ _) in *. clearbody rest.
  rewrite (bind_run _ _ _ _ _ (getopt_run _ _ _ Hrest)).
  pose proof (range_rest_prefix _ _ _ (n * 512) _ Hrest ltac:(lia)) as Hd.
  pose proof (range_length _ _ _ _ Hd) as Hdl.
  destruct (Hwb img rest block n) as (r & img2 & Er & [[-> Hb]|(? & ? & ?)]); [lia..|lia| |].
  - rewrite (bind_run _ _ _ _ _ Er). rewrite s32_small by lia. rewrite Hdl.
    destruct (Z.ltb_spec (n * 512) 0); [lia|].
    rewrite (bind_run _ _ (at_img img2) tt (at_img img2)) by (apply assert_run; apply Z.leb_le; lia).
    eexists _, img2. split; [done|]. cbv beta iota. split_and!; [by rewrite (blit_at_length _ _ _ _ Hb)|lia|lia| |].
    + unfold at_block. split_and!; [lia|lia|]. right.
      assert (E : off + (pos + n * 512) = (off + pos) + n * 512) by lia.
      rewrite E, Z.mod_add, Z.div_add by lia. split_and!; [done| |lia].
      rewrite u32_small by lia. lia.
    + eapply written_more; [lia|lia|done|exact Hd|]. rewrite <- Hb. f_equal. lia.
  - rewrite (bind_run _ _ _ _ _ Er). destruct (failed_s32 dr r) as [-> ->]; [done|].
    eexists _, img2. split; [done|]. split; [congruence|done].
Qed.

Lemma bio_default_write_run buf off len :
  0 <= off -> 0 < len < 2 ^ 31 -> off + len <= bd_size dev -> len <= Z.of_nat (length buf) ->
  exists r img', bio_default_write rb wb dev buf off len (at_img img0) = Some (r, at_img img') /\
    length img' = length img0 /\ (r = len /\ written buf off len img' \/ failed dr r).
Proof.
  intros Hoff Hlen Hsize Hbuf. pose proof (geometry_inv dev Hg) as (_ & Hbs & Hcnt & Hsz).
  pose proof (Z.div_pos off 512 ltac:(lia) ltac:(lia)).
  pose proof (Z.div_lt_upper_bound off 512 (2 ^ 32) ltac:(lia) ltac:(lia)).
  unfold bio_default_write. rewrite Hbs, u32_small by lia.
  destruct (write_first_run buf off len) as (res & i2 & E1 & Hl1 & H1); [lia..|]. rewrite (bind_run _ _ _ _ _ E1).
  destruct res as [r|[[pos2 len2] block2]]; [exists r, i2; split; [done|]; tauto|].
  destruct H1 as (Hpl & Hat & Hcp).
  destruct (write_middle_run buf off pos2 len2 block2 i2) as (res & i3 & E2 & Hl2 & H2); [(done || (unfold at_block in Hat; lia))..|].
  rewrite (bind_run _ _ _ _ _ E2).
  destruct res as [r|[[pos3 len3] block3]]; [exists r, i3; split; [done|]; tauto|].
  destruct H2 as (Hpl3 & Hlt3 & Hat3 & Hcp3).
  destruct (write_last_run buf off pos3 len3 block3 i3) as (r & i4 & E3 & H3 & Hres); [(done || lia)..|].
  exists r, i4. split; [done|]. split; [done|]. by replace (pos3 + len3) with len in Hres by lia.
Qed.
End default_write.

(** ** Byte access through any chain of devices *)

(** How much of a request lies on the device. *)
Definition clamp b (off len : Z) : Z := Z.max 0 (Z.min len (bd_size b - off)).

Lemma byte_range_run b off len :
  geometry b = true -> 0 <= off -> 0 <= len -> off + len < 2 ^ 64 ->
  byte_range b off len = if clamp b off len =? 0 then inl 0 else inr (clamp b off len).
Proof.
  intros Hg Ho Hl Hw. pose proof (geometry_inv b Hg) as (_ & _ & Hc & Hs).
  unfold byte_range, clamp. rewrite (u64_small (off + len)) by lia.
  zcases; try lia; try done; rewrite ?u64_small by lia; f_equal; lia.
Qed.

Lemma clamp_inside b off len :
  0 <= off -> 0 <= len -> clamp b off len <> 0 -> 0 < clamp b off len /\ off + clamp b off len <= bd_size b.
Proof. unfold clamp. lia. Qed.

Lemma set_disk_id s k img : disks s !! k = Some img -> set_disk k img s = s.
Proof. intros Hk. destruct s. unfold set_disk. cbn in *. by rewrite insert_id. Qed.

Lemma set_disk_twice s k img1 img2 : set_disk k img2 (set_disk k img1 s) = set_disk k img2 s.
Proof. unfold set_disk. cbn. by rewrite insert_insert_eq. Qed.

(** The outcome of reading or writing [n] bytes at [off] of the medium. *)
Definition read_outcome (dr : bool) (img buf : list Z) (off n r : Z) (buf' : list Z) : Prop :=
  length buf' = length buf /\
  (r = n /\ (exists data, range img off n = Some data /\ blit_at buf 0 data = Some buf') \/ failed dr r).
Definition write_outcome (dr : bool) (img buf : list Z) (off n r : Z) (img' : list Z) : Prop :=
  length img' = length img /\
  (r = n /\ blit_at img off (take (Z.to_nat n) buf) = Some img' \/ failed dr r).

Lemma bio_read_run `{!DriverLaws} s f d k base dr b img buf off len :
  resolve s f d = Some (k, base, dr) -> devs s !! d = Some b -> disks s !! k = Some img ->
  0 <= off -> 0 <= len -> off + len < 2 ^ 64 ->
  clamp b off len < 2 ^ 31 -> clamp b off len <= Z.of_nat (length buf) ->
  exists r buf', bio_read f d buf off len s = Some ((r, buf'), s) /\
    (0 < clamp b off len -> read_outcome dr img buf (base + off) (clamp b off len) r buf') /\
    (clamp b off len = 0 -> r = 0 /\ buf' = buf).
Proof.
  revert d base b off len. induction f as [|f IH]; intros d base b off len Hr Hd Hk Ho Hl Hw Hn Hbuf;
    [done|].
  destruct (resolve_inv _ _ _ _ _ _ Hr) as (b' & img' & Hd' & Hg & Hk' & Hb0 & Hb1).
  assert (b' = b) as -> by congruence. assert (img' = img) as -> by congruence. clear Hd' Hk'.
  pose proof (geometry_inv b Hg) as (Hrf & Hbs & Hcnt & Hsz).
  cbn [bio_read]. rewrite (bind_run _ _ _ _ _ (get_dev_run s d b Hd)).
  rewrite (bind_run _ _ s tt s) by (apply assert_run; by apply Z.ltb_lt).
  rewrite byte_range_run by done. destruct (Z.eqb_spec (clamp b off len) 0) as [En|En].
  { exists 0, buf. split; [done|]. split; [lia|done]. }
  pose proof (clamp_inside b off len Ho Hl En) as [Hpos Hin].
  set (n := clamp b off len) in *. clearbody n.
  pose proof (bio_read_block_run s (S f) d k base dr b img) as Hblk.
  cbn [resolve] in Hr. rewrite Hd, Hg in Hr.
  destruct (bd_ops b) as [|k'|[p|] o|k'] eqn:Hops; try done.
  - destruct (fits s k' _ && _); [|done]. injection Hr as -> <- <-.
    unfold mem_bdev_read. rewrite (bind_run _ _ _ _ _ (get_disk_run s k img Hk)).
    pose proof (range_Some img off n ltac:(lia) ltac:(lia) ltac:(lia)) as Hrng.
    rewrite (bind_run _ _ _ _ _ (getopt_run _ _ _ Hrng)). pose proof (range_length _ _ _ _ Hrng).
    destruct (blit_at_Some buf 0 (slice img (Z.to_nat off) (Z.to_nat n))) as (buf' & Eb & Hl'); [lia..|].
    rewrite (bind_run _ _ _ _ _ (getopt_run _ _ _ Eb)).
    exists n, buf'. split; [done|]. split; [|lia]. intros _. split; [done|]. left. eauto.
  - destruct (devs s !! p) as [pb|] eqn:Hp; [|done].
    destruct (resolve s f p) as [[[k' base'] dr']|] eqn:Hrp; [|done].
    destruct (_ && _) eqn:E; [|done]. bools. injection Hr as -> <- ->. unfold BLOCKSIZE in *.
    destruct (resolve_inv _ _ _ _ _ _ Hrp) as (pb' & img' & Hp' & Hg' & _).
    assert (pb' = pb) as -> by congruence. pose proof (geometry_inv pb Hg') as (_ & _ & Hc' & Hs').
    cbn [subdev_read subdev_write subdev_parent]. rewrite Hbs, s64_small by lia.
    assert (Hcl : clamp pb (off + o * 512) n = n) by (unfold clamp; lia).
    destruct (IH p base' pb (off + o * 512) n Hrp Hp Hk) as (r & buf' & Er & Hres & _); [lia..|].
    exists r, buf'. split; [done|]. split; [|lia]. intros _. rewrite Hcl in Hres.
    replace (base' + o * 512 + off) with (base' + (off + o * 512)) by lia. apply Hres. lia.
  - destruct (fits s k' _) eqn:Hf; [|done]. injection Hr as -> <- <-.
    destruct (bio_default_read_run (bio_read_block (S f) d) s b true img 0 Hg ltac:(lia)) with buf off n
      as (r & buf' & Er & Hlen & Hres); [|lia..|].
    { intros block count ???. apply Hblk; try done. cbn [resolve]. by rewrite Hd, Hg, Hops, Hf. }
    exists r, buf'. split; [done|]. split; [|lia]. intros _. split; [done|]. exact Hres.
Qed.

Lemma bio_write_run `{!DriverLaws} s f d k base dr b img buf off len :
  resolve s f d = Some (k, base, dr) -> devs s !! d = Some b -> disks s !! k = Some img ->
  0 <= off -> 0 <= len -> off + len < 2 ^ 64 ->
  clamp b off len < 2 ^ 31 -> clamp b off len <= Z.of_nat (length buf) ->
  exists r img', bio_write f d buf off len s = Some (r, set_disk k img' s) /\
    (0 < clamp b off len -> write_outcome dr img buf (base + off) (clamp b off len) r img') /\
    (clamp b off len = 0 -> r = 0 /\ img' = img).
Proof.
  revert d base b off len. induction f as [|f IH]; intros d base b off len Hr Hd Hk Ho Hl Hw Hn Hbuf;
    [done|].
  destruct (resolve_inv _ _ _ _ _ _ Hr) as (b' & img' & Hd' & Hg & Hk' & Hb0 & Hb1).
  assert (b' = b) as -> by congruence. assert (img' = img) as -> by congruence. clear Hd' Hk'.
  pose proof (geometry_inv b Hg) as (Hrf & Hbs & Hcnt & Hsz).
  cbn [bio_write]. rewrite (bind_run _ _ _ _ _ (get_dev_run s d b Hd)).
  rewrite (bind_run _ _ s tt s) by (apply assert_run; by apply Z.ltb_lt).
  rewrite byte_range_run by done. destruct (Z.eqb_spec (clamp b off len) 0) as [En|En].
  { exists 0, img. split; [by rewrite set_disk_id|]. split; [lia|done]. }
  pose proof (clamp_inside b off len Ho Hl En) as [Hpos Hin].
  set (n := clamp b off len) in *. clearbody n. pose proof Hr as Hr0.
  cbn [resolve] in Hr. rewrite Hd, Hg in Hr.
  destruct (bd_ops b) as [|k'|[p|] o|k'] eqn:Hops; try done.
  - destruct (fits s k' _ && _); [|done]. injection Hr as -> <- <-.
    unfold mem_bdev_write. rewrite (bind_run _ _ _ _ _ (get_disk_run s k img Hk)).
    rewrite (bind_run _ _ _ _ _ (getopt_run _ _ _ (take_range buf n ltac:(lia) ltac:(lia)))).
    destruct (blit_at_Some img off (take (Z.to_nat n) buf)) as (img' & Eb & Hl'); [lia|rewrite length_take; lia|].
    rewrite (bind_run _ _ _ _ _ (getopt_run _ _ _ Eb)).
    exists n, img'. split; [done|]. split; [|lia]. intros _. split; [done|]. by left.
  - destruct (devs s !! p) as [pb|] eqn:Hp; [|done].
    destruct (resolve s f p) as [[[k' base'] dr']|] eqn:Hrp; [|done].
    destruct (_ && _) eqn:E; [|done]. bools. injection Hr as -> <- ->. unfold BLOCKSIZE in *.
    destruct (resolve_inv _ _ _ _ _ _ Hrp) as (pb' & img' & Hp' & Hg' & _).
    assert (pb' = pb) as -> by congruence. pose proof (geometry_inv pb Hg') as (_ & _ & Hc' & Hs').
    cbn [subdev_read subdev_write subdev_parent]. rewrite Hbs, s64_small by lia.
    assert (Hcl : clamp pb (off + o * 512) n = n) by (unfold clamp; lia).
    destruct (IH p base' pb (off + o * 512) n Hrp Hp Hk) as (r & buf' & Er & Hres & _); [lia..|].
    exists r, buf'. split; [done|]. split; [|lia]. intros _. rewrite Hcl in Hres.
    replace (base' + o * 512 + off) with (base' + (off + o * 512)) by lia. apply Hres. lia.
  - destruct (fits s k' _) eqn:Hf; [|done]. injection Hr as -> <- <-.
    destruct (bio_default_write_run (bio_read_block (S f) d) (bio_write_block (S f) d) s k b true img 0 Hg ltac:(lia))
      with buf off n as (r & img' & Er & Hlen & Hres); [..|lia|lia|lia|lia|].
    + intros img1 block count Hl1 ???.
      apply (bio_read_block_run (set_disk k img1 s) (S f) d k 0 true b img1); try done.
      * by rewrite (resolve_set_disk s (S f) d k img img1).
      * cbn. by rewrite lookup_insert_eq.
    + intros img1 buf1 block count Hl1 ????.
      destruct (bio_write_block_run (set_disk k img1 s) (S f) d k 0 true b img1 block count buf1)
        as (r & img2 & E & Hres); try done.
      * by rewrite (resolve_set_disk s (S f) d k img img1).
      * cbn. by rewrite lookup_insert_eq.
      * exists r, img2. rewrite set_disk_twice in E. done.
    + rewrite set_disk_id in Er by done. exists r, img'. split; [done|]. split; [|lia].
      intros _. split; [done|]. exact Hres.
Qed.
End bio.
