(* ===== verification/BioProps.v ===== *)
(** * Theorems on the block layer

    Reading and writing through any chain of subdevices is access to one byte
    range of the medium at its end; publishing a subdevice extends a chain. *)

From S2P Require Import Prelude Arrays ListH Bio BioSpec.
Local Open Scope lk_scope.

(** ** Changing the device table *)

Section table.
Context `{LO : ListOps nat unit} `{BD : BlockDriver}.
Implicit Types (s : bio) (b : bdev).

(** The same device with another positive reference count. *)
Definition same_dev b b' : Prop := exists r, 0 < r /\ b' = set_ref r b.

Lemma geometry_same_dev b b' : same_dev b b' -> geometry b = true -> geometry b' = true.
Proof.
  intros (r & Hr & ->). unfold geometry. cbn [set_ref bd_ref bd_block_size bd_block_count bd_size].
  intros. bools. repeat (apply andb_true_intro; split); by (apply Z.ltb_lt || apply Z.leb_le || apply Z.eqb_eq).
Qed.

(** Chains survive new devices and new references. *)
Lemma resolve_mono s s' f d x :
  (forall e b, devs s !! e = Some b -> exists b', devs s' !! e = Some b' /\ (b' = b \/ same_dev b b')) ->
  disks s' = disks s -> resolve s f d = Some x -> resolve s' f d = Some x.
Proof.
  intros Hd Hk. revert d x. induction f as [|f IH]; intros d x; cbn [resolve]; [done|].
  destruct (devs s !! d) as [b|] eqn:E; [|done]. destruct (Hd d b E) as (b' & -> & Hb').
  destruct (geometry b) eqn:Hg; [|done].
  assert (geometry b' = true) as -> by (destruct Hb' as [->|?]; [done|by eapply geometry_same_dev]).
  assert (bd_ops b' = bd_ops b /\ bd_size b' = bd_size b /\ bd_block_count b' = bd_block_count b) as (-> & -> & ->)
    by (destruct Hb' as [->|(r & _ & ->)]; done).
  assert (Hf : forall k n, fits s' k n = fits s k n) by (intros; unfold fits; by rewrite Hk).
  destruct (bd_ops b) as [|k|[p|] off|k]; rewrite ?Hf; try done.
  destruct (devs s !! p) as [pb|] eqn:Ep; [|done]. destruct (Hd p pb Ep) as (pb' & -> & Hpb').
  assert (bd_block_count pb' = bd_block_count pb) as -> by (destruct Hpb' as [->|(r & _ & ->)]; done).
  destruct (resolve s f p) as [y|] eqn:Ey; [|done]. by rewrite (IH p y Ey).
Qed.

(** [d] is the first registered device called [name]. *)
Definition listed s (name : string) (d : nat) : Prop :=
  exists pre post b, contents (bdevs s) tt = pre ++ d :: post /\
    Forall (fun e => exists be, devs s !! e = Some be /\ 0 < bd_ref be /\ bd_name be <> name) pre /\
    devs s !! d = Some b /\ 0 < bd_ref b < 2 ^ 31 - 1 /\ bd_name b = name.

Lemma find_name_run s name pre d post b :
  Forall (fun e => exists be, devs s !! e = Some be /\ 0 < bd_ref be /\ bd_name be <> name) pre ->
  devs s !! d = Some b -> 0 < bd_ref b < 2 ^ 31 - 1 -> bd_name b = name ->
  find_name name (pre ++ d :: post) s =
  Some (Some d, set_devs (insert d (set_ref (bd_ref b + 1) b)) s).
Proof.
  intros Hpre Hd Hr Hn. induction Hpre as [|e pre (be & He & Hre & Hne) Hpre IH]; cbn [app find_name].
  - rewrite (bind_run _ _ _ _ _ (get_dev_run s d b Hd)).
    rewrite (bind_run _ _ s tt s) by (apply assert_run; apply Z.ltb_lt; lia).
    rewrite bool_decide_true by done. unfold bdev_inc_ref.
    erewrite bind_run; [done|]. rewrite (bind_run _ _ _ _ _ (get_dev_run s d b Hd)).
    rewrite s32_small by lia. done.
  - rewrite (bind_run _ _ _ _ _ (get_dev_run s e be He)).
    rewrite (bind_run _ _ s tt s) by (apply assert_run; apply Z.ltb_lt; lia).
    rewrite bool_decide_false by done. exact IH.
Qed.

(** [bio_open] takes a reference on the device. *)
Lemma bio_open_run s name d :
  lock s = false -> listed s name d ->
  exists b, devs s !! d = Some b /\ 0 < bd_ref b < 2 ^ 31 - 1 /\
    bio_open name s = Some (Some d, set_devs (insert d (set_ref (bd_ref b + 1) b)) s).
Proof.
  intros Hl (pre & post & b & Hc & Hpre & Hd & Hr & Hn). exists b. split; [done|]. split; [done|].
  destruct s as [D B L K]. cbn in *. subst L. unfold bio_open.
  erewrite bind_run by done. erewrite bind_run by done. cbn [contents bdevs set_bio_lock].
  rewrite Hc. erewrite bind_run by (by apply find_name_run). done.
Qed.

(** ** Publishing a range of a device *)

(** The device of [len] blocks from block [start] of device [p]. *)
Definition sub_dev (p : nat) (name : string) (start len : Z) : bdev :=
  {| bd_ref := 1; bd_name := name; bd_size := len * 512; bd_block_size := 512; bd_block_count := len;
     bd_ops := Subdev_ops (Some p) start |}.
(** One more reference on [p], whose record is [pb]. *)
Definition ref_up (p : nat) (pb : bdev) s : bio := set_devs (insert p (set_ref (bd_ref pb + 1) pb)) s.
Definition pub_st (sub p : nat) (pb : bdev) (name : string) (start len : Z) s : bio :=
  set_bdevs (list_add_head tt sub) (set_devs (insert sub (sub_dev p name start len)) (ref_up p pb s)).

Lemma publish_run s pname p pb sub name start len :
  lock s = false -> listed s pname p -> devs s !! p = Some pb -> geometry pb = true -> p <> sub ->
  0 <= start < 2 ^ 32 -> 0 <= len < 2 ^ 63 ->
  bio_publish_subdevice sub pname name start len s =
    if bd_block_count pb <? start + len then Some (-1, ref_up p pb s)
    else Some (0, pub_st sub p pb name start len s).
Proof.
  intros Hlock Hlist Hp Hg Hps Hst Hlen.
  destruct (bio_open_run s pname p Hlock Hlist) as (pb0 & Hp0 & Href & Eo).
  assert (pb0 = pb) as -> by congruence. clear Hp0.
  pose proof (geometry_inv pb Hg) as (_ & Hbs & Hcnt & Hsz).
  unfold bio_publish_subdevice. rewrite (bind_run _ _ _ _ _ Eo).
  erewrite bind_run by (apply get_dev_run; cbn; apply lookup_insert_eq).
  cbn [set_ref bd_block_count bd_block_size]. rewrite Hbs, (u64_small (start + len)) by lia.
  destruct (Z.ltb_spec (bd_block_count pb) (start + len)) as [Hbig|Hfit]; [done|].
  destruct s as [D B L K]. cbn [devs bdevs lock disks set_devs] in *. subst L.
  unfold bio_initialize_bdev, bio_register_device, bdev_inc_ref, bio_lock, bio_unlock, get_dev.
  munfold. cbn. rewrite alter_insert_eq, lookup_insert_eq. cbn.
  unfold pub_st, ref_up, sub_dev, set_devs, set_bdevs, set_bio_lock, set_ref, set_ops. cbn.
  by rewrite alter_insert_eq, insert_insert_eq, u32_small, u64_small by lia.
Qed.

(** Chains survive a publication, and the new device is a chain of its own. *)
Lemma ref_up_resolve s f p pb e x :
  devs s !! p = Some pb -> 0 < bd_ref pb -> resolve s f e = Some x -> resolve (ref_up p pb s) f e = Some x.
Proof.
  intros Hp Hr. apply resolve_mono; [|done]. intros e' b He. cbn.
  destruct (decide (e' = p)) as [->|]; [|rewrite lookup_insert_ne by done; eauto].
  rewrite lookup_insert_eq. assert (b = pb) as -> by congruence. eexists. split; [done|]. right.
  exists (bd_ref pb + 1). split; [lia|done].
Qed.

Lemma pub_st_resolve s f sub p pb name start len e x :
  devs s !! p = Some pb -> 0 < bd_ref pb -> devs s !! sub = None ->
  resolve s f e = Some x -> resolve (pub_st sub p pb name start len s) f e = Some x.
Proof.
  intros Hp Hr Hsub Hx. apply (ref_up_resolve s f p pb) in Hx; [|done|done]. revert Hx.
  apply resolve_mono; [|done]. intros e' b He. cbn in *. destruct (decide (e' = sub)) as [->|].
  - rewrite lookup_insert_ne in He by congruence. congruence.
  - rewrite (lookup_insert_ne _ sub) by done. eauto.
Qed.

Lemma pub_st_new s f sub p pb name start len k base dr :
  devs s !! p = Some pb -> devs s !! sub = None -> resolve s f p = Some (k, base, dr) ->
  0 <= start -> 0 <= len -> start + len <= bd_block_count pb ->
  resolve (pub_st sub p pb name start len s) (S f) sub = Some (k, base + start * 512, dr).
Proof.
  intros Hp Hsub Hr Hst Hlen Hfit. destruct (resolve_inv _ _ _ _ _ _ Hr) as (pb' & _ & Hp' & Hg & _).
  assert (pb' = pb) as -> by congruence. destruct (geometry_inv pb Hg) as (Href & _ & Hcnt & _).
  assert (Hps : p <> sub) by congruence.
  pose proof (pub_st_resolve s f sub p pb name start len p _ Hp Href Hsub Hr) as Hr'.
  assert (Hds : devs (pub_st sub p pb name start len s) !! sub = Some (sub_dev p name start len)) by apply lookup_insert_eq.
  assert (Hdp : devs (pub_st sub p pb name start len s) !! p = Some (set_ref (bd_ref pb + 1) pb))
    by (cbn; rewrite lookup_insert_ne by done; apply lookup_insert_eq).
  cbn [resolve]. rewrite Hds.
  assert (geometry (sub_dev p name start len) = true) as ->.
  { unfold geometry, sub_dev, BLOCKSIZE. cbn [bd_ref bd_block_size bd_block_count bd_size].
    rewrite !Z.eqb_refl, (proj2 (Z.leb_le 0 len)), (proj2 (Z.ltb_lt len _)) by lia. done. }
  cbn [sub_dev bd_ops bd_block_count]. rewrite Hdp, Hr'. cbn [set_ref bd_block_count].
  destruct (Z.leb_spec 0 start); [|lia]. destruct (Z.leb_spec (start + len) (bd_block_count pb)); [done|lia].
Qed.
End table.

(** ** The theorems *)

Section theorems.
Context `{LO : ListOps nat unit} `{BD : BlockDriver} {DL : DriverLaws}.
Implicit Types (s : bio) (b : bdev).

(** C18: Reading a device, through any number of nested subdevices, returns
    exactly the bytes of its range of the underlying medium: the request is cut
    at the end of the device, the buffer gets these bytes at its front and
    keeps the rest, no device or medium changes, and no assertion fires.  Over
    a block driver, the unaligned head and tail are read through a temporary
    block; only a driver's own error can make the read fail. *)
Theorem bio_read_spec s f d k base dr b img buf off len :
  resolve s f d = Some (k, base, dr) -> devs s !! d = Some b -> disks s !! k = Some img ->
  0 <= off -> 0 <= len -> off + len < 2 ^ 64 ->
  clamp b off len < 2 ^ 31 -> clamp b off len <= Z.of_nat (length buf) ->
  exists r buf', bio_read f d buf off len s = Some ((r, buf'), s) /\
    length buf' = length buf /\
    ((r = clamp b off len /\
      forall i : nat, buf' !! i = if decide (Z.of_nat i < clamp b off len)
                                  then img !! (Z.to_nat (base + off) + i)%nat else buf !! i) \/
     (dr = true /\ r < 0)).
Proof.
  intros Hr Hd Hk Ho Hl Hw Hn Hbuf.
  destruct (resolve_inv _ _ _ _ _ _ Hr) as (b' & img' & Hd' & Hg & Hk' & Hb0 & Hb1).
  destruct (bio_read_run s f d k base dr b img buf off len Hr Hd Hk Ho Hl Hw Hn Hbuf) as (r & buf' & E & H1 & H2).
  exists r, buf'. split; [done|]. destruct (Z.eq_dec (clamp b off len) 0) as [E0|E0].
  { destruct (H2 E0) as [-> ->]. split; [done|]. left. split; [done|].
    intros i. rewrite decide_False by lia. done. }
  destruct H1 as [Hlen H1]; [unfold clamp in *; lia|]. split; [done|].
  destruct H1 as [(-> & data & Hrng & Hb)|[-> Hf]]; [left|right; lia]. split; [done|].
  intros i. rewrite (blit_at_lookup _ _ _ _ _ Hb). pose proof (range_length _ _ _ _ Hrng) as Hdl.
  rewrite Hdl. repeat case_decide; try lia; [|done].
  rewrite Z.sub_0_r, Nat2Z.id. apply (lookup_range _ _ _ _ _ Hrng). lia.
Qed.

(** C30: What is written to a device is read back from it, and the write touches
    nothing else: after a successful [bio_write] a [bio_read] of the same range
    returns the written bytes, every byte of the medium outside the range is as
    before (so disjoint subdevices do not disturb each other), and no other
    medium and no device record has changed. *)
Theorem bio_write_read_roundtrip s f d k base dr b img buf buf2 off len :
  resolve s f d = Some (k, base, dr) -> devs s !! d = Some b -> disks s !! k = Some img ->
  0 <= off -> 0 < len -> off + len <= bd_size b -> len < 2 ^ 31 ->
  len <= Z.of_nat (length buf) -> len <= Z.of_nat (length buf2) ->
  exists r s', bio_write f d buf off len s = Some (r, s') /\
    (dr = true /\ r < 0 \/
     r = len /\
     (exists img', s' = set_disk k img' s /\ length img' = length img /\
        forall i : nat, ~ (base + off <= Z.of_nat i < base + off + len) -> img' !! i = img !! i) /\
     exists r2 buf2', bio_read f d buf2 off len s' = Some ((r2, buf2'), s') /\
       (dr = true /\ r2 < 0 \/
        r2 = len /\ take (Z.to_nat len) buf2' = take (Z.to_nat len) buf)).
Proof.
  intros Hr Hd Hk Ho Hl Hin Hn Hbuf Hbuf2.
  destruct (resolve_inv _ _ _ _ _ _ Hr) as (b' & img' & Hd' & Hg & _ & Hb0 & _).
  assert (b' = b) as -> by congruence. pose proof (geometry_inv b Hg) as (_ & _ & Hc & Hs).
  assert (Hcl : clamp b off len = len) by (unfold clamp; lia).
  destruct (bio_write_run s f d k base dr b img buf off len Hr Hd Hk Ho) as (r & img2 & E & H1 & _); [lia..|].
  rewrite Hcl in H1. specialize (H1 Hl) as [Hlen2 H1].
  exists r, (set_disk k img2 s). split; [done|]. destruct H1 as [[-> Hb]|[-> Hf]]; [right|left; lia].
  split; [done|].
  assert (Htl : Z.of_nat (length (take (Z.to_nat len) buf)) = len) by (rewrite length_take; lia). split.
  { exists img2. split_and!; [done|done|]. intros i Hi.
    rewrite (blit_at_lookup _ _ _ _ _ Hb), decide_False by lia. done. }
  destruct (bio_read_run (set_disk k img2 s) f d k base dr b img2 buf2 off len)
    as (r2 & buf2' & E2 & H2 & _); try done; try lia.
  { by rewrite (resolve_set_disk s f d k img img2). } { cbn. by rewrite lookup_insert_eq. }
  exists r2, buf2'. split; [done|]. rewrite Hcl in H2. specialize (H2 Hl) as [Hl2 H2].
  destruct H2 as [(-> & data & Hrng & Hb2)|[-> Hf]]; [right|left; lia]. split; [done|].
  pose proof (range_length _ _ _ _ Hrng) as Hdl.
  apply list_eq_same_length with (Z.to_nat len); [rewrite length_take; lia..|].
  intros i x y Hi. rewrite !lookup_take_lt by done.
  rewrite (blit_at_lookup _ _ _ _ _ Hb2), decide_True by lia. rewrite Z.sub_0_r, Nat2Z.id.
  rewrite (lookup_range _ _ _ _ _ Hrng) by lia.
  rewrite (blit_at_lookup _ _ _ _ _ Hb), decide_True by lia.
  rewrite lookup_take_lt by lia. replace (Z.to_nat _) with i by lia. congruence.
Qed.

(** Publishing a subdevice that fits its parent returns 0 and makes a device
    whose bytes are that range of the parent's medium, at the head of the device
    list, with one more reference on the parent; every chain that could be
    followed before can be followed as before.  A range that does not fit is
    refused with -1, but the reference that [bio_open] took on the parent is
    never given back. *)
Theorem bio_publish_subdevice_spec `{LL : !ListLaws nat unit} s f p k base dr pb sub pname name start len :
  lock s = false -> listed s pname p -> devs s !! p = Some pb -> resolve s f p = Some (k, base, dr) ->
  devs s !! sub = None -> links_ok (bdevs s) -> list_in_list (bdevs s) sub = false ->
  0 <= start < 2 ^ 32 -> 0 <= len < 2 ^ 63 ->
  exists r s', bio_publish_subdevice sub pname name start len s = Some (r, s') /\
    (exists pb', devs s' !! p = Some pb' /\ bd_ref pb' = bd_ref pb + 1) /\
    (start + len <= bd_block_count pb ->
     r = 0 /\ resolve s' (S f) sub = Some (k, base + start * 512, dr) /\
     contents (bdevs s') tt = sub :: contents (bdevs s) tt /\
     forall e x, resolve s f e = Some x -> resolve s' f e = Some x) /\
    (bd_block_count pb < start + len -> r = -1 /\ bdevs s' = bdevs s /\ dom (devs s') = dom (devs s)).
Proof.
  intros Hlock Hlist Hp Hr Hsub Hok Hnin Hst Hlen. assert (Hps : p <> sub) by congruence.
  destruct (resolve_inv _ _ _ _ _ _ Hr) as (pb' & _ & Hp' & Hg & _).
  assert (pb' = pb) as -> by congruence. destruct (geometry_inv pb Hg) as (Href & _).
  rewrite (publish_run s pname p pb) by done.
  destruct (Z.ltb_spec (bd_block_count pb) (start + len)) as [Hbig|Hfit].
  - eexists _, _. split; [done|]. split; [eexists; split; [apply lookup_insert_eq|done]|]. split; [lia|]. intros _.
    split_and!; [done|done|]. cbn. rewrite dom_insert_L. apply elem_of_dom_2 in Hp. set_solver.
  - eexists _, _. split; [done|]. split.
    { eexists. split; [cbn; rewrite lookup_insert_ne by done; apply lookup_insert_eq|done]. }
    split; [|lia]. intros _. split; [done|]. split; [apply pub_st_new; (done || lia)|]. split.
    + cbn. rewrite add_head_contents by done. by rewrite decide_True.
    + intros e x. by apply pub_st_resolve.
Qed.
End theorems.

(** ** Witnesses: a driver's disk of four blocks and a subdevice of its middle two *)

Section witnesses.
#[local] Existing Instance ref_ops.
#[local] Existing Instance ref_laws.

Definition disk_dev : bdev :=
  {| bd_ref := 2; bd_name := "disk"; bd_size := 2048; bd_block_size := 512; bd_block_count := 4;
     bd_ops := Driver_ops 0 |}.
Definition part_dev : bdev :=
  {| bd_ref := 1; bd_name := "disk1"; bd_size := 1024; bd_block_size := 512; bd_block_count := 2;
     bd_ops := Subdev_ops (Some 0%nat) 1 |}.
Definition demo_bio : bio :=
  {| devs := <[1%nat := part_dev]> {[0%nat := disk_dev]};
     bdevs := list_add_head tt 0%nat ref_empty;
     lock := false;
     disks := {[0%nat := replicate 2048 7]} |}.

Lemma bio_read_spec_witness :
  exists r buf', bio_read 2 1 (replicate 700 0) 100 700 demo_bio = Some ((r, buf'), demo_bio) /\
    length buf' = 700%nat.
Proof.
  destruct (bio_read_spec demo_bio 2 1 0 512 true part_dev (replicate 2048 7) (replicate 700 0) 100 700)
    as (r & buf' & E & Hl & _).
  - vm_compute. reflexivity.
  - reflexivity.
  - reflexivity.
  - lia.
  - lia.
  - lia.
  - reflexivity.
  - vm_compute. discriminate.
  - exists r, buf'. split; [exact E|exact Hl].
Defined.

Lemma bio_write_read_roundtrip_witness :
  exists r s', bio_write 2 1 (replicate 700 9) 100 700 demo_bio = Some (r, s').
Proof.
  destruct (bio_write_read_roundtrip demo_bio 2 1 0 512 true part_dev (replicate 2048 7)
    (replicate 700 9) (replicate 700 0) 100 700) as (r & s' & E & _).
  - vm_compute. reflexivity.
  - reflexivity.
  - reflexivity.
  - lia.
  - lia.
  - vm_compute. discriminate.
  - lia.
  - vm_compute. discriminate.
  - vm_compute. discriminate.
  - exists r, s'. exact E.
Defined.

(** The first request fits, the second is refused and leaks a reference. *)
Lemma bio_publish_subdevice_spec_witness :
  (exists s', bio_publish_subdevice 2 "disk" "disk2" 3 1 demo_bio = Some (0, s') /\
     resolve s' 3 2 = Some (0%nat, 1536, true)) /\
  exists s' pb', bio_publish_subdevice 2 "disk" "disk2" 3 2 demo_bio = Some (-1, s') /\
     devs s' !! 0%nat = Some pb' /\ bd_ref pb' = 3.
Proof.
  assert (Hl : listed demo_bio "disk" 0%nat).
  { exists [], [], disk_dev. split; [reflexivity|]. split; [constructor|]. split; [reflexivity|].
    split; [cbn; lia|reflexivity]. }
  assert (Hr : resolve demo_bio 2 0 = Some (0%nat, 0, true)) by (vm_compute; reflexivity).
  assert (Hok : links_ok (bdevs demo_bio)) by (apply (add_head_ok (ListLaws := ref_laws nat unit) ref_empty tt 0%nat); [apply ref_empty_ok|reflexivity]).
  split.
  - destruct (bio_publish_subdevice_spec demo_bio 2 0 0 0 true disk_dev 2 "disk" "disk2" 3 1
      eq_refl Hl eq_refl Hr eq_refl Hok eq_refl ltac:(lia) ltac:(lia)) as (r & s' & E & _ & H & _).
    destruct (H ltac:(vm_compute; discriminate)) as (Er & Hs & _). exists s'.
    split; [rewrite E, Er; reflexivity|exact Hs].
  - destruct (bio_publish_subdevice_spec demo_bio 2 0 0 0 true disk_dev 2 "disk" "disk2" 3 2
      eq_refl Hl eq_refl Hr eq_refl Hok eq_refl ltac:(lia) ltac:(lia)) as (r & s' & E & (pb' & Hp & Hrf) & _ & H).
    destruct (H ltac:(reflexivity)) as (Er & _). exists s', pb'.
    split; [rewrite E, Er; reflexivity|]. split; [exact Hp|exact Hrf].
Defined.
End witnesses.
