(* ===== verification/Partition.v ===== *)
(** * MBR partitions: lib/partition/partition.c

    [partition_publish] reads a master boot record and publishes its valid
    entries as subdevices named after the device; [partition_unpublish] removes
    them.  The state is that of the block layer.  [stack] is what the buffer on
    the stack holds before the read, and [ids i] the device that [malloc]
    returns when entry [i] is published.  [sprintf] into a buffer that is too
    small is a panic. *)

From stdpp Require Import pretty.
From S2P Require Import Prelude Arrays ListH Bio.
Local Open Scope lk_scope.

Record chs : Type := { chs_c : Z; chs_h : Z; chs_s : Z }.

Record mbr_part : Type := {
  mp_status : Z;
  mp_start : chs;
  mp_type : Z;
  mp_end : chs;
  lba_start : Z;
  lba_length : Z;
}.

(** The packed 16-byte entry at [off] of the record. *)
Definition mbr_entry (buf : list Z) (off : nat) : mbr_part :=
  let at_ i := nth (off + i)%nat buf 0 in
  {| mp_status := at_ 0%nat;
     mp_start := {| chs_c := at_ 1%nat; chs_h := at_ 2%nat; chs_s := at_ 3%nat |};
     mp_type := at_ 4%nat;
     mp_end := {| chs_c := at_ 5%nat; chs_h := at_ 6%nat; chs_s := at_ 7%nat |};
     lba_start := le_value (slice buf (off + 8) 4);
     lba_length := le_value (slice buf (off + 12) 4) |}.

(** The sum of start and length is computed in 32 bits. *)
Definition validate_mbr_partition (dev : bdev) (part : mbr_part) : Z :=
  if mp_type part =? 0 then -1
  else if negb (mp_status part =? 128) && negb (mp_status part =? 0) then -1
  else if bd_block_count dev <=? lba_start part then -1
  else if bd_block_count dev <? u32 (lba_start part + lba_length part) then -1
  else 0.

(** [sprintf(buf, "%sp%d", device, i)] into [size] bytes. *)
Definition part_name (device : string) (i : nat) : string := device +:+ "p" +:+ pretty i.

Section partition.
Context `{LO : ListOps nat unit} `{BD : BlockDriver}.

Definition sprintf_name (size : nat) (device : string) (i : nat) : M bio string :=
  assert_ (Nat.ltb (String.length (part_name device i)) size) ;;; ret (part_name device i).

Fixpoint unpublish_loop (fuel : nat) (device : string) (idx : list nat) (count : Z) : M bio Z :=
  match idx with
  | [] => ret count
  | i :: idx' =>
      let* devname := sprintf_name 512 device i in
      let* dev := bio_open devname in
      match dev with
      | None => unpublish_loop fuel device idx' count
      | Some d =>
          bio_unregister_device fuel d ;;; bio_close fuel d ;;;
          unpublish_loop fuel device idx' (count + 1)
      end
  end.
Definition partition_unpublish (fuel : nat) (device : string) : M bio Z :=
  unpublish_loop fuel device (seq 0 16) 0.

(** The loop over the entries, with the running [err] and [count]. *)
Fixpoint publish_loop (ids : nat -> nat) (dev : bdev) (device : string) (parts : list (nat * mbr_part))
    (err count : Z) : M bio (Z * Z) :=
  match parts with
  | [] => ret (err, count)
  | (i, part) :: parts' =>
      if 0 <=? validate_mbr_partition dev part then
        let* subdevice := sprintf_name 128 device i in
        let* err := bio_publish_subdevice (ids i) device subdevice (lba_start part) (lba_length part) in
        publish_loop ids dev device parts' err (if err <? 0 then count else count + 1)
      else publish_loop ids dev device parts' err count
  end.

(** The four entries behind the boot code. *)
Definition mbr_parts (buf : list Z) : list (nat * mbr_part) :=
  map (fun i => (i, mbr_entry buf (446 + 16 * i))) (seq 0 4).

Definition mbr_tag (buf : list Z) : bool := (nth 510 buf 0 =? 85) && (nth 511 buf 0 =? 170).

Definition partition_publish (fuel : nat) (ids : nat -> nat) (stack : list Z) (device : string)
    (offset : Z) : M bio Z :=
  partition_unpublish fuel device ;;;
  let* dev := bio_open device in
  match dev with
  | None => ret (-1)
  | Some d =>
      let* b := get_dev d in
      let* (err, buf) := bio_read fuel d stack offset 512 in
      let err := s32 err in
      if err <? 0 then ret err
      else
        let* (err, count) :=
          if mbr_tag buf then publish_loop ids b device (mbr_parts buf) err 0 else ret (err, 0) in
        bio_close fuel d ;;;
        ret (if err <? 0 then err else count)
  end.
End partition.
