(* ===== verification/PartProps.v ===== *)
(** * What publishing partitions does

    [with_parts] relates the device table before and while a device has
    partitions: publishing an entry extends it, removing one undoes that, and
    every chain of the old table stays as it was. *)

From stdpp Require Import pretty.
From S2P Require Import Prelude Arrays ListH Bio BioSpec BioProps Partition.
Local Open Scope lk_scope.

(** ** Names *)

Lemma string_app_length a b : String.length (a +:+ b) = (String.length a + String.length b)%nat.
Proof.
  induction a as [|c a IH]; [done|]. change (String c a +:+ b) with (String c (a +:+ b)).
  cbn [String.length]. by rewrite IH.
Qed.

Lemma part_name_ne device i : part_name device i <> device.
Proof.
  intros E. apply (f_equal String.length) in E. unfold part_name in E. rewrite !string_app_length in E.
  change (String.length "p") with 1%nat in E. lia.
Qed.

Lemma part_name_inj device i j : part_name device i = part_name device j -> i = j.
Proof.
  unfold part_name. intros E. by apply (inj (String.append device)), (inj (String.append "p")), (inj pretty) in E.
Qed.

Lemma part_name_length device i :
  (i < 16)%nat -> (String.length (part_name device i) <= String.length device + 3)%nat.
Proof.
  intros Hi. unfold part_name. rewrite !string_app_length. change (String.length "p") with 1%nat.
  assert (String.length (pretty i) <= 2)%nat; [|lia].
  do 16 (destruct i as [|i]; [vm_compute; lia|]). lia.
Qed.

(** ** Looking up names *)

Section parts.
Context `{LO : ListOps nat unit} `{DL : DriverLaws} {LL : ListLaws nat unit}.
Implicit Types (s : bio) (b : bdev).

Definition names_ok s (name : string) (es : list nat) : Prop :=
  Forall (fun e => exists be, devs s !! e = Some be /\ 0 < bd_ref be /\ bd_name be <> name) es.

Lemma bio_open_none s name :
  lock s = false -> names_ok s name (contents (bdevs s) tt) -> bio_open name s = Some (None, s).
Proof.
  intros Hl Hn. assert (E : forall es, names_ok s name es -> find_name name es (set_bio_lock true s) = Some (None, set_bio_lock true s)).
  { induction 1 as [|e es (be & He & Hr & Hne) _ IH]; cbn [find_name]; [done|].
    erewrite bind_run by (by apply get_dev_run). rewrite (proj2 (Z.ltb_lt 0 (bd_ref be))) by done.
    erewrite bind_run by done. by rewrite bool_decide_false. }
  destruct s as [D B L K]. cbn in Hl. subst L. unfold bio_open. erewrite bind_run by done. erewrite bind_run by done.
  erewrite bind_run by (by apply E). done.
Qed.

Lemma dec_ref_S f d s b :
  devs s !! d = Some b ->
  bdev_dec_ref (S f) d s =
    let s1 := set_devs (insert d (set_ref (s32 (bd_ref b - 1)) b)) s in
    if bd_ref b =? 1 then
      if list_in_list (bdevs s) d then None
      else match (match bd_ops b with
                  | Subdev_ops parent off => subdev_close (bdev_dec_ref f) parent off d s1
                  | _ => Some (tt, s1)
                  end) with
           | Some (_, s2) => Some (tt, set_devs (delete d) s2)
           | None => None
           end
    else Some (tt, s1).
Proof.
  intros Hd. cbn [bdev_dec_ref]. erewrite bind_run by (by apply get_dev_run). munfold.
  destruct (bd_ref b =? 1); [|done]. change (bdevs (set_devs _ s)) with (bdevs s).
  destruct (list_in_list (bdevs s) d); [done|]. by destruct (bd_ops b).
Qed.

Lemma close_shared s f d b :
  devs s !! d = Some b -> 1 < bd_ref b <= 2 ^ 31 ->
  bio_close (S f) d s = Some (tt, set_devs (insert d (set_ref (bd_ref b - 1) b)) s).
Proof.
  intros Hd Hr. unfold bio_close. rewrite (dec_ref_S _ _ _ _ Hd), s32_small by lia.
  cbv zeta. destruct (Z.eqb_spec (bd_ref b) 1); [lia|done].
Qed.

(** ** A device with partitions *)

(** An entry in use: its index, its device and its range. *)
Record entry : Type := Entry { en_idx : nat; en_id : nat; en_start : Z; en_len : Z }.

Section device.
Context (s0 : bio) (device : string) (p : nat) (pb : bdev).

Definition en_dev (e : entry) : bdev := sub_dev p (part_name device (en_idx e)) (en_start e) (en_len e).
Definition en_ids (es : list entry) : list nat := en_id <$> es.

(** [s] is [s0] with the partitions [es] of device [p], and [n] further
    references on it. *)
Record with_parts (es : list entry) (n : nat) s : Prop := {
  wp_lock : lock s = false;
  wp_links : links_ok (bdevs s);
  wp_list : contents (bdevs s) tt = reverse (en_ids es) ++ contents (bdevs s0) tt;
  wp_par : devs s !! p = Some (set_ref (bd_ref pb + Z.of_nat (length es + n)) pb);
  wp_sub : forall e, e ∈ es -> devs s !! en_id e = Some (en_dev e);
  wp_other : forall d, d <> p -> d ∉ en_ids es -> devs s !! d = devs s0 !! d;
  wp_disks : disks s = disks s0;
}.

(** What the table must be like for that. *)
Record part_base : Prop := {
  pa_lock : lock s0 = false;
  pa_links : links_ok (bdevs s0);
  pa_listed : listed s0 device p;
  pa_dev : devs s0 !! p = Some pb;
  pa_geom : geometry pb = true;
  pa_ref : bd_ref pb + 8 < 2 ^ 31;
  pa_table : forall e, e ∈ contents (bdevs s0) tt -> exists be, devs s0 !! e = Some be /\ 0 < bd_ref be /\
    forall i, (i < 16)%nat -> bd_name be <> part_name device i;
}.

(** Entries that can be in use together. *)
Record entries_ok (es : list entry) : Prop := {
  eo_ids : NoDup (en_ids es);
  eo_idx : NoDup (en_idx <$> es);
  eo_new : forall e, e ∈ es -> devs s0 !! en_id e = None /\ en_id e ∉ contents (bdevs s0) tt;
  eo_fit : forall e, e ∈ es -> 0 <= en_start e /\ 0 <= en_len e /\ en_start e + en_len e <= bd_block_count pb;
}.

Hypothesis Hbase : part_base.

Lemma wp_start : with_parts [] 0 s0.
Proof using Hbase.
  split; try done; try apply Hbase.
  - rewrite (pa_dev Hbase). f_equal. destruct pb. unfold set_ref. cbn. f_equal. lia.
  - intros e He. by apply not_elem_of_nil in He.
Qed.

Lemma wp_end s : with_parts [] 0 s -> devs s = devs s0 /\ contents (bdevs s) tt = contents (bdevs s0) tt.
Proof using Hbase.
  intros H. split; [|apply (wp_list _ _ _ H)]. apply map_eq. intros d. destruct (decide (d = p)) as [->|Hne].
  - rewrite (wp_par _ _ _ H). symmetry. rewrite (pa_dev Hbase). f_equal. destruct pb. unfold set_ref. cbn. f_equal. lia.
  - apply (wp_other _ _ _ H); [done|]. apply not_elem_of_nil.
Qed.

Section state.
Context {es : list entry} {n : nat} {s : bio}.
Hypotheses (Hes : entries_ok es) (Hs : with_parts es n s) (Hn : (length es + n <= 6)%nat).

Lemma wp_id_ne e : e ∈ es -> en_id e <> p.
Proof using Hbase Hes.
  intros He E. destruct (eo_new _ Hes e He) as [H _]. by rewrite E, (pa_dev Hbase) in H.
Qed.

(** Names other than those of the partitions are found where they were. *)
Lemma wp_names name l :
  (forall e, e ∈ es -> part_name device (en_idx e) <> name) ->
  (forall d, d ∈ l -> d ∈ contents (bdevs s) tt) ->
  (forall d be, d ∈ l -> devs s0 !! d = Some be -> bd_name be <> name) ->
  names_ok s name l.
Proof using All.
  intros Hne Hl H0. apply Forall_forall. intros d Hd. pose proof (Hl d Hd) as Hin.
  rewrite (wp_list _ _ _ Hs), elem_of_app, elem_of_reverse in Hin. destruct Hin as [Hin|Hin].
  - apply list_elem_of_fmap in Hin as (e & -> & He). exists (en_dev e). split; [by apply (wp_sub _ _ _ Hs)|].
    split; [cbn; lia|]. by apply Hne.
  - destruct (pa_table Hbase d Hin) as (be & Hbe & Hr & _). destruct (decide (d = p)) as [->|Hdp].
    + eexists. split; [apply (wp_par _ _ _ Hs)|]. rewrite (pa_dev Hbase) in Hbe. injection Hbe as <-.
      split; [cbn; lia|]. cbn. apply (H0 p); [done|apply Hbase].
    + exists be. split; [|split; [done|by eapply H0]]. rewrite (wp_other _ _ _ Hs) by (done || intros (e & -> & He)%list_elem_of_fmap; by destruct (eo_new _ Hes e He)).
      done.
Qed.

Lemma wp_listed : listed s device p.
Proof using All.
  destruct (pa_listed Hbase) as (pre & post & b & Hc & Hpre & Hb & Hr & Hname).
  assert (b = pb) as -> by (rewrite (pa_dev Hbase) in Hb; congruence).
  exists (reverse (en_ids es) ++ pre), post, (set_ref (bd_ref pb + Z.of_nat (length es + n)) pb).
  split; [by rewrite (wp_list _ _ _ Hs), Hc, app_assoc|]. split; [|split; [apply (wp_par _ _ _ Hs)|]].
  - apply wp_names.
    + intros e _. apply part_name_ne.
    + intros d Hd. rewrite (wp_list _ _ _ Hs), Hc. set_solver.
    + intros d be Hd Hbe. apply elem_of_app in Hd as [Hd|Hd].
      * apply elem_of_reverse, list_elem_of_fmap in Hd as (e & -> & He). destruct (eo_new _ Hes e He). congruence.
      * rewrite Forall_forall in Hpre. destruct (Hpre d Hd) as (be' & ? & _ & ?). congruence.
  - cbn. pose proof (pa_ref Hbase). split; [lia|done].
Qed.

(** A device of the old table keeps its chain; a partition is the range of the
    device its entry names. *)
Lemma wp_resolve f e x : resolve s0 f e = Some x -> resolve s f e = Some x.
Proof using All.
  apply resolve_mono; [|apply (wp_disks _ _ _ Hs)]. intros d b Hd. destruct (decide (d = p)) as [->|Hne].
  - eexists. split; [apply (wp_par _ _ _ Hs)|]. right. rewrite (pa_dev Hbase) in Hd. injection Hd as <-.
    destruct (geometry_inv pb (pa_geom Hbase)) as (Hr & _). eexists. split; [|done]. lia.
  - exists b. split; [|by left]. rewrite (wp_other _ _ _ Hs); [done|done|].
    intros (e' & -> & He')%list_elem_of_fmap. destruct (eo_new _ Hes e' He'). congruence.
Qed.

Lemma wp_resolve_part f e k base dr :
  e ∈ es -> resolve s0 f p = Some (k, base, dr) ->
  resolve s (S f) (en_id e) = Some (k, base + en_start e * 512, dr).
Proof using All.
  intros He Hr. destruct (eo_fit _ Hes e He) as (Hst & Hl & Hf).
  destruct (geometry_inv pb (pa_geom Hbase)) as (_ & _ & Hcnt & _).
  cbn [resolve]. rewrite (wp_sub _ _ _ Hs e He).
  assert (geometry (en_dev e) = true) as ->.
  { unfold geometry, en_dev, sub_dev, BLOCKSIZE. cbn [bd_ref bd_block_size bd_block_count bd_size].
    rewrite !Z.eqb_refl, (proj2 (Z.leb_le 0 _)), (proj2 (Z.ltb_lt _ (2 ^ 32))) by lia. done. }
  cbn [en_dev sub_dev bd_ops bd_block_count]. rewrite (wp_par _ _ _ Hs), (wp_resolve f p _ Hr).
  cbn [set_ref bd_block_count]. destruct (Z.leb_spec 0 (en_start e)); [|lia].
  destruct (Z.leb_spec (en_start e + en_len e) (bd_block_count pb)); [done|lia].
Qed.

(** The current record of the device. *)
Definition par : bdev := set_ref (bd_ref pb + Z.of_nat (length es + n)) pb.

Lemma par_geom : geometry par = true.
Proof using All.
  apply (geometry_same_dev pb); [|apply Hbase]. destruct (geometry_inv pb (pa_geom Hbase)) as (Hr & _).
  eexists. split; [|done]. lia.
Qed.

(** One reference more, and one given back. *)
Lemma wp_ref_up : with_parts es (S n) (ref_up p par s).
Proof using All.
  split; try apply Hs; cbn.
  - rewrite lookup_insert_eq. f_equal. unfold par, set_ref. cbn. f_equal. lia.
  - intros e He. rewrite lookup_insert_ne by (symmetry; by apply wp_id_ne). by apply (wp_sub _ _ _ Hs).
  - intros d Hd Hni. rewrite lookup_insert_ne by done. by apply (wp_other _ _ _ Hs).
Qed.

Lemma wp_ref_down m : n = S m -> with_parts es m (set_devs (insert p (set_ref (bd_ref par - 1) par)) s).
Proof using All.
  intros En. split; try apply Hs; cbn.
  - rewrite lookup_insert_eq. f_equal. unfold set_ref. cbn. f_equal. lia.
  - intros e He. rewrite lookup_insert_ne by (symmetry; by apply wp_id_ne). by apply (wp_sub _ _ _ Hs).
  - intros d Hd Hni. rewrite lookup_insert_ne by done. by apply (wp_other _ _ _ Hs).
Qed.

(** ** Publishing one entry *)

Lemma wp_pub_st e :
  entries_ok (es ++ [e]) -> with_parts (es ++ [e]) n
    (pub_st (en_id e) p par (part_name device (en_idx e)) (en_start e) (en_len e) s).
Proof using All.
  intros Hok. assert (Hin : e ∈ es ++ [e]) by set_solver. destruct (eo_new _ Hok e Hin) as [Hnew Hnl].
  assert (Hne : en_id e <> p) by (intros E; by rewrite E, (pa_dev Hbase) in Hnew).
  assert (Hni : en_id e ∉ en_ids es).
  { pose proof (eo_ids _ Hok) as Hnd. unfold en_ids in Hnd. rewrite fmap_app in Hnd. apply NoDup_app in Hnd.
    intros Hi. destruct Hnd as (_ & Hd & _). apply (Hd _ Hi). cbn. set_solver. }
  assert (Hout : list_in_list (bdevs s) (en_id e) = false).
  { apply not_in_list; [apply Hs|]. intros []. rewrite (wp_list _ _ _ Hs), elem_of_app, elem_of_reverse. tauto. }
  pose proof (wp_links _ _ _ Hs) as Hl.
  split; try apply Hs; cbn.
  - by apply add_head_ok.
  - rewrite add_head_contents, decide_True, (wp_list _ _ _ Hs) by done. unfold en_ids. by rewrite fmap_app, reverse_app.
  - rewrite lookup_insert_ne, lookup_insert_eq by done. f_equal. unfold par, set_ref. cbn. f_equal.
    rewrite length_app. cbn. lia.
  - intros e' He'. apply elem_of_app in He' as [He'|He'].
    + rewrite lookup_insert_ne by (intros E; apply Hni; rewrite E; by apply list_elem_of_fmap_2).
      rewrite lookup_insert_ne by (symmetry; by apply wp_id_ne). by apply (wp_sub _ _ _ Hs).
    + apply list_elem_of_singleton in He' as ->. by rewrite lookup_insert_eq.
  - intros d Hd Hni'. unfold en_ids in Hni'. rewrite fmap_app in Hni'. cbn in Hni'.
    rewrite !lookup_insert_ne by set_solver. apply (wp_other _ _ _ Hs); [done|]. unfold en_ids. set_solver.
Qed.

Lemma publish_entry i id start len :
  id <> p -> 0 <= start < 2 ^ 32 -> 0 <= len < 2 ^ 63 ->
  bio_publish_subdevice id device (part_name device i) start len s =
    if bd_block_count pb <? start + len then Some (-1, ref_up p par s)
    else Some (0, pub_st id p par (part_name device i) start len s).
Proof using All.
  intros Hid Hst Hlen. apply (publish_run s device p par); try done.
  - apply Hs.
  - apply wp_listed.
  - apply Hs.
  - apply par_geom.
Qed.

(** ** Removing one entry *)

Lemma wp_remove es1 e es2 l :
  es = es1 ++ e :: es2 -> l = list_delete (en_id e) (bdevs s) ->
  list_in_list l (en_id e) = false /\ links_ok l /\
  contents l tt = reverse (en_ids (es1 ++ es2)) ++ contents (bdevs s0) tt.
Proof using All.
  intros Ees ->. assert (Hin : e ∈ es) by (rewrite Ees; set_solver). pose proof (wp_links _ _ _ Hs) as Hl.
  assert (Hc : en_id e ∈ contents (bdevs s) tt).
  { rewrite (wp_list _ _ _ Hs), elem_of_app, elem_of_reverse. left. by apply list_elem_of_fmap_2. }
  assert (Hil : list_in_list (bdevs s) (en_id e) = true) by by eapply in_contents.
  split; [by apply delete_not_in|]. split; [by apply delete_ok|].
  rewrite delete_contents, (wp_list _ _ _ Hs), remove_all_app by done. f_equal.
  - pose proof (eo_ids _ Hes) as Hnd. unfold en_ids in *. rewrite Ees, fmap_app, fmap_cons in *.
    rewrite fmap_app, !reverse_app, reverse_cons, !remove_all_app. apply NoDup_app in Hnd as (_ & Hd & Hnd).
    apply NoDup_cons in Hnd as [Hn2 _]. rewrite remove_all_head by (apply NoDup_singleton).
    rewrite app_nil_r, !remove_all_not_in; [done|..]; rewrite elem_of_reverse; [|done].
    intros Hi. apply (Hd _ Hi). left.
  - apply remove_all_not_in. by apply (eo_new _ Hes).
Qed.

Lemma wp_listed_part es1 e es2 : es = es1 ++ e :: es2 -> listed s (part_name device (en_idx e)) (en_id e).
Proof using All.
  intros Ees. assert (Hin : e ∈ es) by (rewrite Ees; set_solver).
  exists (reverse (en_ids es2)), (reverse (en_ids es1) ++ contents (bdevs s0) tt), (en_dev e).
  assert (Hc : contents (bdevs s) tt = reverse (en_ids es2) ++ en_id e :: reverse (en_ids es1) ++ contents (bdevs s0) tt).
  { rewrite (wp_list _ _ _ Hs), Ees. unfold en_ids. rewrite fmap_app, fmap_cons, reverse_app, reverse_cons.
    by rewrite <- !app_assoc. }
  split; [done|]. split; [|split; [by apply (wp_sub _ _ _ Hs)|by cbn]].
  apply Forall_forall. intros d Hd. apply elem_of_reverse, list_elem_of_fmap in Hd as (e' & -> & He').
  exists (en_dev e'). split; [apply (wp_sub _ _ _ Hs); rewrite Ees; set_solver|]. split; [cbn; lia|].
  cbn. intros E%part_name_inj. pose proof (eo_idx _ Hes) as Hnd. rewrite Ees, fmap_app, fmap_cons in Hnd.
  apply NoDup_app in Hnd as (_ & _ & [Hnd _]%NoDup_cons). apply Hnd. rewrite <- E. by apply list_elem_of_fmap_2.
Qed.

(** The last reference on a partition gives back its reference on the device. *)
Definition gone_st (id : nat) (off : Z) s : bio :=
  set_devs (delete id) (set_devs (alter (set_ops (Subdev_ops None off)) id)
    (set_devs (insert p (set_ref (bd_ref par - 1) par)) s)).

Lemma close_last f id b off s1 :
  devs s1 !! id = Some b -> bd_ref b = 1 -> bd_ops b = Subdev_ops (Some p) off -> id <> p ->
  list_in_list (bdevs s1) id = false -> devs s1 !! p = Some par -> (0 < length es)%nat ->
  bio_close (S (S f)) id s1 = Some (tt, gone_st id off (set_devs (insert id (set_ref 0 b)) s1)).
Proof using All.
  intros Hd Hr Ho Hne Hl Hp Hes0. unfold bio_close. rewrite (dec_ref_S _ _ _ _ Hd), Hr, Hl, Ho. cbv zeta.
  change (s32 (1 - 1)) with 0. destruct (geometry_inv pb (pa_geom Hbase)) as (Hpr & _).
  pose proof (pa_ref Hbase) as Hpr'. cbn [Z.eqb Pos.eqb]. unfold subdev_close, subdev_parent.
  erewrite bind_run by (apply close_shared; [cbn; rewrite lookup_insert_ne by done; exact Hp|cbn; lia]).
  done.
Qed.

Lemma wp_ids_ne es1 e es2 e' : es = es1 ++ e :: es2 -> e' ∈ es1 ++ es2 -> en_id e' <> en_id e.
Proof using Hes.
  intros Ees He' E. pose proof (eo_ids _ Hes) as Hnd. unfold en_ids in Hnd. rewrite Ees, fmap_app, fmap_cons in Hnd.
  apply NoDup_app in Hnd as (_ & Hd & [Hn2 _]%NoDup_cons). apply elem_of_app in He' as [He'|He'].
  - apply (Hd (en_id e')); [by apply list_elem_of_fmap_2|]. rewrite E. left.
  - apply Hn2. rewrite <- E. by apply list_elem_of_fmap_2.
Qed.

Lemma wp_gone es1 e es2 off s2 :
  es = es1 ++ e :: es2 -> lock s2 = false -> disks s2 = disks s -> bdevs s2 = list_delete (en_id e) (bdevs s) ->
  (forall d, d <> en_id e -> d <> p -> devs s2 !! d = devs s !! d) ->
  with_parts (es1 ++ es2) n (gone_st (en_id e) off s2).
Proof using All.
  intros Ees Hlk Hdk Hbd Hm0. assert (Hin : e ∈ es) by (rewrite Ees; set_solver).
  destruct (wp_remove es1 e es2 _ Ees eq_refl) as (Hout & Hlok & Hcont).
  assert (Hne : en_id e <> p) by by apply wp_id_ne.
  assert (Hm : forall d, d <> en_id e -> d <> p -> devs (gone_st (en_id e) off s2) !! d = devs s !! d).
  { intros d Hd Hdp. cbn. rewrite lookup_delete_ne, lookup_alter_ne, lookup_insert_ne by done. by apply Hm0. }
  split.
  - done.
  - cbn. by rewrite Hbd.
  - cbn. by rewrite Hbd.
  - cbn. rewrite lookup_delete_ne, lookup_alter_ne, lookup_insert_eq by done. f_equal.
    unfold par, set_ref. cbn. f_equal. rewrite Ees, !length_app. cbn. lia.
  - intros e' He'. assert (He2 : e' ∈ es) by (rewrite Ees; set_solver). rewrite Hm.
    + by apply (wp_sub _ _ _ Hs).
    + by eapply wp_ids_ne.
    + by apply wp_id_ne.
  - intros d Hd Hni. destruct (decide (d = en_id e)) as [->|Hde].
    + cbn. rewrite lookup_delete_eq. symmetry. by apply (eo_new _ Hes).
    + rewrite Hm by done. apply (wp_other _ _ _ Hs); [done|]. rewrite Ees. unfold en_ids in *.
      rewrite fmap_app, fmap_cons in *. set_solver.
  - cbn. rewrite Hdk. apply (wp_disks _ _ _ Hs).
Qed.

Lemma unpublish_entry f es1 e es2 :
  es = es1 ++ e :: es2 ->
  exists s1 s2 s3, bio_open (part_name device (en_idx e)) s = Some (Some (en_id e), s1) /\
    bio_unregister_device (S (S f)) (en_id e) s1 = Some (tt, s2) /\
    bio_close (S (S f)) (en_id e) s2 = Some (tt, s3) /\ with_parts (es1 ++ es2) n s3.
Proof using All.
  intros Ees. assert (Hin : e ∈ es) by (rewrite Ees; set_solver).
  destruct (wp_remove es1 e es2 _ Ees eq_refl) as (Hout & Hlok & Hcont).
  destruct (bio_open_run s _ _ (wp_lock _ _ _ Hs) (wp_listed_part es1 e es2 Ees)) as (b & Hb & _ & Eo).
  rewrite (wp_sub _ _ _ Hs e Hin) in Hb. injection Hb as <-.
  set (s1 := set_devs _ s) in Eo.
  set (s2 := set_devs (insert (en_id e) (set_ref 1 (en_dev e))) (set_bdevs (list_delete (en_id e)) s1)).
  assert (Hne : en_id e <> p) by by apply wp_id_ne.
  exists s1, s2. eexists. split; [done|]. split; [|split; [apply close_last|]].
  - unfold bio_unregister_device. destruct s as [D B L K] eqn:Es. cbn in *.
    assert (L = false) as -> by apply (wp_lock _ _ _ Hs).
    erewrite bind_run by done. erewrite bind_run by done. erewrite bind_run by done.
    apply (close_shared _ (S f) (en_id e) (set_ref 2 (en_dev e))); [cbn; apply lookup_insert_eq|cbn; lia].
  - cbn. apply lookup_insert_eq.
  - done.
  - done.
  - done.
  - done.
  - cbn. rewrite !lookup_insert_ne by done. apply (wp_par _ _ _ Hs).
  - rewrite Ees, length_app. cbn. lia.
  - apply (wp_gone es1 e es2); try done; [apply Hs|].
    intros d Hd Hdp. cbn. by rewrite !lookup_insert_ne by done.
Qed.
End state.

(** ** The loops *)

Lemma entries_ok_sublist es es' : es `sublist_of` es' -> entries_ok es' -> entries_ok es.
Proof.
  intros Hsub [H1 H2 H3 H4]. split.
  - eapply sublist_NoDup; [exact H1|]. by apply fmap_sublist.
  - eapply sublist_NoDup; [exact H2|]. by apply fmap_sublist.
  - intros e He. apply H3. by eapply elem_of_sublist.
  - intros e He. apply H4. by eapply elem_of_sublist.
Qed.

Lemma unpublish_loop_run f idx es n s count :
  entries_ok es -> with_parts es n s -> (length es + n <= 6)%nat ->
  (String.length device < 120)%nat -> (forall i, i ∈ idx -> (i < 16)%nat) ->
  exists es' s', with_parts es' n s' /\ entries_ok es' /\ (forall e, e ∈ es' <-> e ∈ es /\ en_idx e ∉ idx) /\
    unpublish_loop (S (S f)) device idx count s =
      Some (count + (Z.of_nat (length es) - Z.of_nat (length es')), s').
Proof using Hbase DL.
  intros Hes Hs Hn Hlen. revert es s count Hes Hs Hn.
  induction idx as [|i idx IH]; intros es s count Hes Hs Hn Hi; cbn [unpublish_loop].
  { exists es, s. split_and!; [done|done|set_solver|]. unfold ret. do 2 f_equal. lia. }
  assert (Hi16 : (i < 16)%nat) by (apply Hi; left). pose proof (part_name_length device i Hi16) as Hl.
  unfold sprintf_name. destruct (Nat.ltb_spec (String.length (part_name device i)) 512); [|lia].
  erewrite bind_run by done. destruct (decide (i ∈ en_idx <$> es)) as [Hin|Hni].
  - apply list_elem_of_fmap in Hin as (e & -> & He). apply list_elem_of_split in He as (es1 & es2 & Ees).
    destruct (unpublish_entry Hes Hs Hn f es1 e es2 Ees) as (s1 & s2 & s3 & E1 & E2 & E3 & Hs3).
    run E1. run E2. run E3. subst es.
    destruct (IH (es1 ++ es2) s3 (count + 1)) as (es' & s' & Hw & Hok & Hel & E); try done.
    { eapply entries_ok_sublist; [|exact Hes]. apply sublist_app; [done|by apply sublist_cons]. }
    { rewrite !length_app in *. cbn in Hn. lia. }
    { intros j Hj. apply Hi. by right. }
    exists es', s'. split_and!; [done|done| |].
    + intros e'. rewrite Hel. pose proof (eo_idx _ Hes) as Hnd. rewrite fmap_app, fmap_cons in Hnd.
      apply NoDup_app in Hnd as (_ & Hd & [Hn2 _]%NoDup_cons).
      assert (e' ∈ es1 ++ es2 -> en_idx e' <> en_idx e).
      { intros [He'|He']%elem_of_app E'.
        - apply (Hd (en_idx e')); [by apply list_elem_of_fmap_2|]. rewrite E'. left.
        - apply Hn2. rewrite <- E'. by apply list_elem_of_fmap_2. }
      set_solver.
    + rewrite E. do 2 f_equal. rewrite !length_app. cbn. lia.
  - assert (E : bio_open (part_name device i) s = Some (None, s)).
    { apply bio_open_none; [apply Hs|]. apply (wp_names Hes Hs Hn); [|done|].
      - intros e He E%part_name_inj. apply Hni. rewrite <- E. by apply list_elem_of_fmap_2.
      - intros d be Hd Hbe. rewrite (wp_list _ _ _ Hs), elem_of_app, elem_of_reverse in Hd. destruct Hd as [Hd|Hd].
        + apply list_elem_of_fmap in Hd as (e & -> & He). destruct (eo_new _ Hes e He). congruence.
        + destruct (pa_table Hbase d Hd) as (be' & Hbe' & _ & H'). rewrite Hbe in Hbe'. injection Hbe' as <-. auto. }
    run E. destruct (IH es s count) as (es' & s' & Hw & Hok & Hel & E'); try done.
    { intros j Hj. apply Hi. by right. }
    exists es', s'. split_and!; [done|done| |done]. intros e'. rewrite Hel, not_elem_of_cons.
    split; [|naive_solver]. intros [He' Hne]. split; [done|]. split; [|done]. intros <-.
    apply Hni. by apply list_elem_of_fmap_2.
Qed.

Context (ids : nat -> nat).

(** An entry that passes the check of [partition_publish], and one that also
    lies inside the device. *)
Definition tried (pt : mbr_part) : bool := 0 <=? validate_mbr_partition pb pt.
Definition inside (pt : mbr_part) : bool := lba_start pt + lba_length pt <=? bd_block_count pb.
Definition used (parts : list (nat * mbr_part)) : list entry :=
  omap (fun '(i, pt) => if tried pt && inside pt then Some (Entry i (ids i) (lba_start pt) (lba_length pt)) else None) parts.
Definition refused (parts : list (nat * mbr_part)) : nat :=
  length (List.filter (fun '(_, pt) => tried pt && negb (inside pt)) parts).
(** The result of the last attempt, or [err] when there is none. *)
Definition last_err (err : Z) (parts : list (nat * mbr_part)) : Z :=
  foldl (fun err '(_, pt) => if tried pt then if inside pt then 0 else -1 else err) err parts.

Definition lba_ok (pt : mbr_part) : Prop := 0 <= lba_start pt < 2 ^ 32 /\ 0 <= lba_length pt < 2 ^ 32.

Lemma publish_loop_run dev parts es n s err count :
  bd_block_count dev = bd_block_count pb ->
  entries_ok (es ++ used parts) -> with_parts es n s -> (length es + n + length parts <= 6)%nat ->
  (String.length device < 120)%nat -> Forall (fun '(i, pt) => (i < 16)%nat /\ ids i <> p /\ lba_ok pt) parts ->
  exists s', with_parts (es ++ used parts) (n + refused parts) s' /\
    publish_loop ids dev device parts err count s =
      Some ((last_err err parts, count + Z.of_nat (length (used parts))), s').
Proof using Hbase DL.
  intros Hdev Hes Hs Hn Hlen Hp. revert es n s err count Hes Hs Hn.
  induction Hp as [|[i pt] parts (Hi & Hid & Hst & Hln) _ IH]; intros es n s err count Hes Hs Hn; cbn [publish_loop].
  { exists s. cbn. rewrite app_nil_r, Nat.add_0_r, Z.add_0_r. done. }
  assert (Hesp : entries_ok es) by (eapply entries_ok_sublist; [|exact Hes]; by apply sublist_inserts_r).
  assert (Ev : validate_mbr_partition dev pt = validate_mbr_partition pb pt).
  { unfold validate_mbr_partition. by rewrite Hdev. }
  rewrite Ev. fold (tried pt). pose proof (part_name_length device i Hi) as Hl. cbn [length] in Hn.
  unfold used, refused, last_err in *. cbn [omap list_omap foldl List.filter] in *.
  destruct (tried pt) eqn:Et; cbn [andb] in *.
  - unfold sprintf_name. destruct (Nat.ltb_spec (String.length (part_name device i)) 128); [|lia].
    erewrite bind_run by done.
    assert (Ep := publish_entry Hesp Hs ltac:(lia) i (ids i) (lba_start pt) (lba_length pt) Hid Hst ltac:(lia)).
    unfold inside in *. destruct (Z.leb_spec (lba_start pt + lba_length pt) (bd_block_count pb)) as [Hf|Hf].
    + rewrite (proj2 (Z.ltb_ge _ _)) in Ep by lia. run Ep. cbn [Z.ltb Z.compare negb].
      set (e := Entry i (ids i) (lba_start pt) (lba_length pt)) in *.
      rewrite cons_middle, app_assoc in Hes.
      destruct (IH (es ++ [e]) n (pub_st (ids i) p (par (es := es) (n := n)) (part_name device i) (lba_start pt) (lba_length pt) s) 0 (count + 1))
        as (s' & Hw & E); [done| |rewrite length_app; cbn; lia|].
      { apply (wp_pub_st Hesp Hs ltac:(lia) e). eapply entries_ok_sublist; [|exact Hes]. by apply sublist_inserts_r. }
      exists s'. rewrite cons_middle, app_assoc. split; [done|]. rewrite E. do 2 f_equal. f_equal. cbn [length]. lia.
    + rewrite (proj2 (Z.ltb_lt _ _)) in Ep by lia. run Ep. cbn [Z.ltb Z.compare negb].
      destruct (IH es (S n) (ref_up p (par (es := es) (n := n)) s) (-1) count) as (s' & Hw & E); [done| |lia|].
      { apply (wp_ref_up Hesp Hs ltac:(lia)). }
      exists s'. split; [|done]. cbn [length]. by rewrite Nat.add_succ_r.
  - destruct (IH es n s err count) as (s' & ? & ?); [done|done|lia|]. by exists s'.
Qed.

Lemma used_sublist parts : en_idx <$> used parts `sublist_of` fst <$> parts.
Proof.
  induction parts as [|[i pt] parts IH]; [done|]. unfold used in *. cbn [omap list_omap fmap list_fmap fst].
  destruct (tried pt && inside pt); cbn [fmap list_fmap en_idx]; [by apply sublist_skip|by apply sublist_cons].
Qed.

Lemma used_refused parts : (length (used parts) + refused parts <= length parts)%nat.
Proof.
  induction parts as [|[i pt] parts IH]; [done|]. unfold used, refused in *. cbn [omap list_omap List.filter length].
  destruct (tried pt), (inside pt); cbn [andb negb length]; lia.
Qed.

Lemma used_elem parts e : e ∈ used parts ->
  exists pt, (en_idx e, pt) ∈ parts /\ en_id e = ids (en_idx e) /\ en_start e = lba_start pt /\
    en_len e = lba_length pt /\ inside pt = true.
Proof.
  intros He. apply list_elem_of_omap in He as ([i pt] & Hin & E).
  destruct (tried pt && inside pt) eqn:Eb; [|done]. injection E as <-. bools. by exists pt.
Qed.

Lemma used_ok parts :
  Inj (=) (=) ids -> (forall i, devs s0 !! ids i = None /\ ids i ∉ contents (bdevs s0) tt) ->
  NoDup (fst <$> parts) -> Forall (fun '(_, pt) => lba_ok pt) parts -> entries_ok (used parts).
Proof.
  intros Hinj Hnew Hnd Hlba. assert (Hidx : NoDup (en_idx <$> used parts)).
  { eapply sublist_NoDup; [exact Hnd|]. apply used_sublist. }
  split.
  - assert (en_ids (used parts) = ids <$> (en_idx <$> used parts)) as ->; [|by apply NoDup_fmap_2].
    rewrite <- list_fmap_compose. apply list_fmap_ext. intros n e He. apply list_elem_of_lookup_2 in He.
    destruct (used_elem parts e He) as (pt & _ & ? & _). done.
  - done.
  - intros e He. destruct (used_elem parts e He) as (pt & _ & -> & _). apply Hnew.
  - intros e He. destruct (used_elem parts e He) as (pt & Hin & _ & -> & -> & Hi).
    rewrite Forall_forall in Hlba. destruct (Hlba _ Hin) as [? ?]. unfold inside in Hi. bools. lia.
Qed.
End device.
End parts.

(** ** The record *)

Lemma mbr_parts_ok mbr : Forall (fun b => 0 <= b < 256) mbr -> length mbr = 512%nat ->
  Forall (fun '(_, pt) => lba_ok pt) (mbr_parts mbr).
Proof.
  intros Hb Hl. apply Forall_forall. intros [i pt] Hin. apply list_elem_of_fmap in Hin as (j & [= -> ->] & Hj).
  apply elem_of_seq in Hj.
  assert (forall o, (o + 4 <= 512)%nat -> 0 <= le_value (slice mbr o 4) < 2 ^ 32) as H.
  { intros o Ho. pose proof (le_value_range (slice mbr o 4)) as H. rewrite length_slice in H by lia.
    apply H. unfold slice. by apply Forall_take, Forall_drop. }
  split; apply H; lia.
Qed.

Lemma last_err_sign pb parts err :
  0 <= err -> (0 <= last_err pb err parts /\ 0 <= last_err pb 0 parts) \/
              (last_err pb err parts = -1 /\ last_err pb 0 parts = -1).
Proof.
  intros He. unfold last_err.
  assert (H : forall e e', (0 <= e /\ 0 <= e') \/ (e = -1 /\ e' = -1) ->
    let g := foldl (fun err '(_, pt) => if tried pb pt then if inside pb pt then 0 else -1 else err) in
    (0 <= g e parts /\ 0 <= g e' parts) \/ (g e parts = -1 /\ g e' parts = -1)); [|apply H; lia].
  induction parts as [|[i pt] parts IH]; intros e e' H; cbn; [done|]. apply IH.
  destruct (tried pb pt); [|done]. destruct (inside pb pt); lia.
Qed.

Section claim.
Context `{LO : ListOps nat unit} `{DL : DriverLaws} {LL : ListLaws nat unit}.

Lemma no_entries s0 pb : entries_ok s0 pb [].
Proof. split; try apply NoDup_nil_2; intros e He; by apply not_elem_of_nil in He. Qed.

(** [partition_unpublish] removes every partition with an index below 16. *)
Lemma partition_unpublish_run s0 device p pb f es n s :
  part_base s0 device p pb -> entries_ok s0 pb es -> with_parts s0 device p pb es n s ->
  (length es + n <= 6)%nat -> (String.length device < 120)%nat -> (forall e, e ∈ es -> (en_idx e < 16)%nat) ->
  exists s', partition_unpublish (S (S f)) device s = Some (Z.of_nat (length es), s') /\
    with_parts s0 device p pb [] n s'.
Proof.
  intros Hb Hes Hs Hn Hl Hi.
  destruct (unpublish_loop_run s0 device p pb Hb f (seq 0 16) es n s 0) as (es' & s' & Hw & _ & Hel & E); try done.
  { intros i Hi'. apply elem_of_seq in Hi'. lia. }
  assert (es' = []) as ->.
  { apply elem_of_nil_inv. intros e He. apply Hel in He as [He Hne]. apply Hne, elem_of_seq.
    pose proof (Hi e He). lia. }
  exists s'. split; [|done]. unfold partition_unpublish. rewrite E. cbn [length]. do 2 f_equal. lia.
Qed.

(** The second half of [partition_publish], with the record [mbr] read. *)
Lemma publish_rest s0 device p pb f ids mbr s dev :
  part_base s0 device p pb -> with_parts s0 device p pb [] 1 s -> bd_block_count dev = bd_block_count pb ->
  (String.length device < 120)%nat -> Forall (fun b => 0 <= b < 256) mbr -> length mbr = 512%nat ->
  Inj (=) (=) ids -> (forall i, devs s0 !! ids i = None /\ ids i ∉ contents (bdevs s0) tt) ->
  let parts := if mbr_tag mbr then mbr_parts mbr else [] in
  exists s',
    (let* (err, count) := if mbr_tag mbr then publish_loop ids dev device (mbr_parts mbr) 512 0 else ret (512, 0) in
     bio_close (S (S f)) p ;;; ret (if err <? 0 then err else count)) s =
      Some (if last_err pb 0 parts <? 0 then -1 else Z.of_nat (length (used pb ids parts)), s') /\
    entries_ok s0 pb (used pb ids parts) /\
    with_parts s0 device p pb (used pb ids parts) (refused pb parts) s'.
Proof.
  intros Hb Hs Hdev Hl Hby Hlen Hinj Hnew parts.
  assert (Hp : Forall (fun '(i, pt) => (i < 16)%nat /\ ids i <> p /\ lba_ok pt) parts).
  { unfold parts. destruct (mbr_tag mbr); [|done]. pose proof (mbr_parts_ok mbr Hby Hlen) as Hok.
    rewrite Forall_forall in *. intros [i pt] Hin. pose proof (Hok _ Hin).
    apply list_elem_of_fmap in Hin as (j & [= -> ->] & Hj). apply elem_of_seq in Hj.
    split_and!; [lia| |done]. intros E. destruct (Hnew j) as [Hn _]. by rewrite E, (pa_dev _ _ _ _ Hb) in Hn. }
  assert (Hes : entries_ok s0 pb (used pb ids parts)).
  { apply used_ok; try done.
    - unfold parts. destruct (mbr_tag mbr); [|apply NoDup_nil_2]. unfold mbr_parts. rewrite <- list_fmap_compose.
      change (fst ∘ _) with (fun i : nat => i). rewrite list_fmap_id. apply NoDup_seq.
    - eapply Forall_impl; [exact Hp|]. by intros [i pt] (_ & _ & ?). }
  assert (Hlp : (length parts <= 4)%nat) by (unfold parts; by destruct (mbr_tag mbr); cbn; lia).
  destruct (publish_loop_run s0 device p pb Hb ids dev parts [] 1 s 512 0) as (s1 & Hw & E); try done; [cbn; lia|].
  cbn [app] in Hw. pose proof (used_refused pb ids parts) as Hus.
  assert (E1 : (if mbr_tag mbr then publish_loop ids dev device (mbr_parts mbr) 512 0 else ret (512, 0)) s =
    Some ((last_err pb 512 parts, Z.of_nat (length (used pb ids parts))), s1)).
  { rewrite <- (Z.add_0_l (Z.of_nat _)), <- E. unfold parts. by destruct (mbr_tag mbr). }
  run E1. clear E E1. destruct (geometry_inv pb (pa_geom _ _ _ _ Hb)) as (Hr0 & _). pose proof (pa_ref _ _ _ _ Hb).
  erewrite bind_run by (apply close_shared; [apply (wp_par _ _ _ _ _ _ _ Hw)|cbn; lia]).
  eexists. split; [|split; [done|]].
  - destruct (last_err_sign pb parts 512) as [[H1 H2]|[-> ->]]; [lia| |done].
    by rewrite (proj2 (Z.ltb_ge _ _) H1), (proj2 (Z.ltb_ge _ _) H2).
  - exact (wp_ref_down s0 device p pb Hb Hes Hw ltac:(lia) (refused pb parts) eq_refl).
Qed.

(** Reading the record. *)
Lemma mbr_read s0 device p pb f k base dr img mbr stack offset n s :
  part_base s0 device p pb -> with_parts s0 device p pb [] n s -> (n <= 6)%nat ->
  resolve s0 f p = Some (k, base, dr) -> disks s0 !! k = Some img ->
  0 <= offset -> offset + 512 <= bd_size pb -> length stack = 512%nat -> range img (base + offset) 512 = Some mbr ->
  bio_read f p stack offset 512 s = Some ((512, mbr), s) \/
  dr = true /\ exists r buf, bio_read f p stack offset 512 s = Some ((r, buf), s) /\ s32 r = r /\ r < 0.
Proof.
  intros Hb Hs Hn Hr Hk Ho Hsz Hst Hm. pose proof (range_length _ _ _ _ Hm) as Hml.
  destruct (geometry_inv pb (pa_geom _ _ _ _ Hb)) as (_ & _ & Hcnt & Hbsz).
  assert (Hc : forall x, clamp (set_ref x pb) offset 512 = 512) by (intros x; unfold clamp; cbn [set_ref bd_size]; lia).
  destruct (bio_read_run s f p k base dr (set_ref (bd_ref pb + Z.of_nat n) pb) img stack offset 512) as (r & buf & E & Hrd & _);
    [|apply (wp_par _ _ _ _ _ _ _ Hs)|by rewrite (wp_disks _ _ _ _ _ _ _ Hs)|lia..|rewrite Hc; lia|rewrite Hc; lia|].
  { by apply (wp_resolve s0 device p pb Hb (no_entries s0 pb) Hs Hn). }
  rewrite Hc in Hrd. destruct Hrd as (Hbl & [(-> & data & Hdt & Hbt)|Hfail]); [lia|left|right].
  - rewrite E. do 3 f_equal. assert (data = mbr) as -> by congruence. unfold blit_at in Hbt.
    cbn [Z.leb Z.compare] in Hbt. rewrite blit_Some in Hbt by (cbn; lia). injection Hbt as <-.
    cbn. rewrite drop_ge by lia. by rewrite app_nil_r.
  - destruct (failed_s32 dr r Hfail) as [Er _]. destruct Hfail as [-> ?]. split; [done|]. exists r, buf. split_and!; [done|done|lia].
Qed.

(** [partition_publish] publishes exactly the entries of the boot record that
    pass its check and lie inside the device: each becomes a device named
    after its index that is the range of blocks the entry states, and every
    other device stays as it was.  It returns their number, or the error of the
    last attempt.  [partition_unpublish] then removes exactly these devices.  A
    reference on the device is lost for each entry that is refused, and when
    the record cannot be read. *)
Theorem partition_publish_spec s f device p pb k base dr img mbr ids stack offset :
  part_base s device p pb -> resolve s (S (S f)) p = Some (k, base, dr) -> disks s !! k = Some img ->
  0 <= offset -> offset + 512 <= bd_size pb -> length stack = 512%nat ->
  range img (base + offset) 512 = Some mbr -> Forall (fun b => 0 <= b < 256) mbr ->
  (String.length device < 120)%nat -> Inj (=) (=) ids ->
  (forall i, devs s !! ids i = None /\ ids i ∉ contents (bdevs s) tt) ->
  let parts := if mbr_tag mbr then mbr_parts mbr else [] in
  let es := used pb ids parts in
  exists r s', partition_publish (S (S f)) ids stack device offset s = Some (r, s') /\
    (dr = true /\ r < 0 /\ with_parts s device p pb [] 1 s' \/
     r = (if last_err pb 0 parts <? 0 then -1 else Z.of_nat (length es)) /\
     with_parts s device p pb es (refused pb parts) s' /\
     (forall e x, resolve s (S (S f)) e = Some x -> resolve s' (S (S f)) e = Some x) /\
     (forall e, e ∈ es -> resolve s' (S (S (S f))) (en_id e) = Some (k, base + en_start e * 512, dr)) /\
     exists s'', partition_unpublish (S (S f)) device s' = Some (Z.of_nat (length es), s'') /\
       with_parts s device p pb [] (refused pb parts) s'').
Proof.
  intros Hb Hr Hk Ho Hsz Hst Hm Hby Hl Hinj Hnew parts es.
  destruct (partition_unpublish_run s device p pb f [] 0 s Hb (no_entries s pb) (wp_start _ _ _ _ Hb) ltac:(cbn; lia) Hl)
    as (s1 & E1 & H1); [by intros e ?%not_elem_of_nil|].
  unfold partition_publish. run E1. clear E1.
  pose proof (wp_listed s device p pb Hb (no_entries s pb) H1 ltac:(cbn; lia)) as Hlist.
  destruct (bio_open_run s1 device p (wp_lock _ _ _ _ _ _ _ H1) Hlist) as (b & Hpb & _ & E2).
  rewrite (wp_par _ _ _ _ _ _ _ H1) in Hpb. injection Hpb as <-. run E2. clear E2.
  pose proof (wp_ref_up s device p pb Hb (no_entries s pb) H1 ltac:(cbn; lia)) as H2.
  set (s2 := ref_up p (par pb) s1) in H2. change (set_devs _ s1) with s2.
  erewrite bind_run by (apply get_dev_run, (wp_par _ _ _ _ _ _ _ H2)).
  pose proof (range_length _ _ _ _ Hm) as Hml.
  destruct (mbr_read s device p pb (S (S f)) k base dr img mbr stack offset 1 s2 Hb H2) as
    [E3|(-> & r & buf & E3 & Er & Hneg)]; try done; [lia|..]; run E3; clear E3; cbv zeta.
  - destruct (publish_rest s device p pb f ids mbr s2 (set_ref (bd_ref pb + Z.of_nat (length (@nil entry) + 1)) pb))
      as (s3 & E4 & Hes & H3); try done; [lia|].
    change (s32 512) with 512. cbn [Z.ltb Z.compare]. eexists _, s3. split; [exact E4|]. right. split; [done|].
    assert (Hn : (length es + refused pb parts <= 6)%nat).
    { pose proof (used_refused pb ids parts). assert (length parts <= 4)%nat by (unfold parts; by destruct (mbr_tag mbr); cbn; lia).
      unfold es. lia. }
    split_and!; [done|..].
    + intros e x. by apply (wp_resolve s device p pb Hb Hes H3 Hn).
    + intros e He. by apply (wp_resolve_part s device p pb Hb Hes H3 Hn).
    + apply (partition_unpublish_run s device p pb f es _ s3 Hb Hes H3 Hn Hl).
      intros e He. destruct (used_elem pb ids parts e He) as (pt & Hin & _). unfold parts in Hin.
      destruct (mbr_tag mbr); [|by apply not_elem_of_nil in Hin].
      apply list_elem_of_fmap in Hin as (j & [= -> _] & Hj). apply elem_of_seq in Hj. lia.
  - rewrite Er, (proj2 (Z.ltb_lt _ _) Hneg). eexists r, s2. split; [done|]. left. done.
Qed.
End claim.

(** ** Witness: a record with one good entry and one whose end wraps around *)

Section witness.
#[local] Existing Instance ref_ops.
#[local] Existing Instance ref_laws.

Definition mbr_demo : list Z :=
  replicate 446 0 ++
  [0; 0; 0; 0; 131; 0; 0; 0; 2; 0; 0; 0; 3; 0; 0; 0] ++
  [128; 0; 0; 0; 131; 0; 0; 0; 1; 0; 0; 0; 255; 255; 255; 255] ++
  replicate 32 0 ++ [85; 170].
Definition mbr_dev : bdev :=
  {| bd_ref := 1; bd_name := "mmc0"; bd_size := 4096; bd_block_size := 512; bd_block_count := 8; bd_ops := Mem_ops 0 |}.
Definition mbr_bio : bio :=
  {| devs := {[0%nat := mbr_dev]}; bdevs := list_add_head tt 0%nat ref_empty; lock := false;
     disks := {[0%nat := mbr_demo ++ replicate 3584 7]} |}.

Lemma mbr_base : part_base mbr_bio "mmc0" 0 mbr_dev.
Proof.
  split.
  - reflexivity.
  - apply (add_head_ok (ListLaws := ref_laws nat unit) ref_empty tt 0%nat); [apply ref_empty_ok|reflexivity].
  - exists [], [], mbr_dev. split; [reflexivity|]. split; [constructor|]. split; [reflexivity|]. split; [cbn; lia|reflexivity].
  - reflexivity.
  - reflexivity.
  - cbn. lia.
  - intros e He. apply list_elem_of_singleton in He as ->. exists mbr_dev. split; [reflexivity|]. split; [cbn; lia|].
    intros i _ E. by apply (part_name_ne "mmc0" i).
Qed.

Lemma mbr_new i : devs mbr_bio !! S i = None /\ S i ∉ contents (bdevs mbr_bio) tt.
Proof. split; [by apply lookup_singleton_ne|]. intros H. by apply list_elem_of_singleton in H. Qed.

(** Entry 0 is published, entry 1 refused after the check, and the call reports
    the error of entry 1. *)
Lemma partition_publish_spec_witness :
  exists r s', partition_publish 2 S (replicate 512 9) "mmc0" 0 mbr_bio = Some (r, s') /\ r = -1 /\
    resolve s' 3 1 = Some (0%nat, 1024, false).
Proof.
  destruct (partition_publish_spec mbr_bio 0 "mmc0" 0 mbr_dev 0 0 false (mbr_demo ++ replicate 3584 7) mbr_demo
    S (replicate 512 9) 0 mbr_base) as (r & s' & E & [[? _]|(Er & _ & _ & He & _)]).
  - vm_compute. reflexivity.
  - reflexivity.
  - lia.
  - cbn. lia.
  - reflexivity.
  - vm_compute. reflexivity.
  - apply Forall_forall. intros b Hb.
    assert (Hd : forallb (fun b => (0 <=? b) && (b <? 256)) mbr_demo = true) by (vm_compute; reflexivity).
    rewrite forallb_forall in Hd. apply list_elem_of_In, Hd in Hb. bools. lia.
  - apply Nat.ltb_lt. reflexivity.
  - exact Nat.succ_inj.
  - intros i. apply mbr_new.
  - done.
  - exists r, s'. split; [exact E|]. split.
    + rewrite Er. vm_compute. reflexivity.
    + apply (He (Entry 0 1 2 3)). apply list_elem_of_In. vm_compute. left. reflexivity.
Defined.
End witness.
