(* ===== verification/Bcache.v ===== *)
(** * The block cache: lib/bcache/bcache.c

    A cache is [count] slots over one device.  Every slot is on one of two
    lists: the free list, or the list of cached blocks in the order of their
    last use.  The memory a slot points to is the list of its bytes, and a
    pointer a caller holds into the cache is the index of the slot.

    The device is the interface [ByteDev], the byte-range access of [bdev_t];
    CacheProps instantiates it with the block layer of Bio.  Adding a node that
    is on a list already leaves [<list.h>] undefined and is a panic here, as is
    a failed [DEBUG_ASSERT].  Allocations succeed and leave their memory
    undefined. *)

From S2P Require Import Prelude ListH.
Local Open Scope lk_scope.

(** [bio_read] and [bio_write] on one device: the buffer, the offset and the
    length; the result is a byte count or a negative error. *)
Class ByteDev (D : Type) : Type := {
  byte_read : list Z -> Z -> Z -> M D (Z * list Z);
  byte_write : list Z -> Z -> Z -> M D Z;
}.

Inductive bc_list : Type := Free | Lru.
#[export] Instance bc_list_eq : EqDecision bc_list.
Proof. solve_decision. Defined.

Record bcache_block : Type := {
  blocknum : Z;
  ref_count : Z;
  is_dirty : bool;
  blk_data : list Z;
}.

Definition set_blocknum (n : Z) (b : bcache_block) : bcache_block :=
  {| blocknum := n; ref_count := ref_count b; is_dirty := is_dirty b; blk_data := blk_data b |}.
Definition set_ref_count (r : Z) (b : bcache_block) : bcache_block :=
  {| blocknum := blocknum b; ref_count := r; is_dirty := is_dirty b; blk_data := blk_data b |}.
Definition set_dirty (d : bool) (b : bcache_block) : bcache_block :=
  {| blocknum := blocknum b; ref_count := ref_count b; is_dirty := d; blk_data := blk_data b |}.
Definition set_data (l : list Z) (b : bcache_block) : bcache_block :=
  {| blocknum := blocknum b; ref_count := ref_count b; is_dirty := is_dirty b; blk_data := l |}.

Record bcache_stats : Type := { hits : Z; depth : Z; misses : Z; reads : Z; writes : Z }.

Definition count_hit (d : Z) (s : bcache_stats) : bcache_stats :=
  {| hits := u32 (hits s + 1); depth := u32 (depth s + d); misses := misses s; reads := reads s; writes := writes s |}.
Definition count_miss (s : bcache_stats) : bcache_stats :=
  {| hits := hits s; depth := depth s; misses := u32 (misses s + 1); reads := reads s; writes := writes s |}.
Definition count_read (s : bcache_stats) : bcache_stats :=
  {| hits := hits s; depth := depth s; misses := misses s; reads := u32 (reads s + 1); writes := writes s |}.
Definition count_write (s : bcache_stats) : bcache_stats :=
  {| hits := hits s; depth := depth s; misses := misses s; reads := reads s; writes := u32 (writes s + 1) |}.

Section bcache.
Context {D : Type} `{LO : ListOps nat bc_list} `{BD : !ByteDev D}.

Record bcache : Type := {
  bc_dev : D;
  block_size : Z;
  bc_count : nat;
  bc_stats : bcache_stats;
  bc_lists : links;
  bc_blocks : gmap nat bcache_block;
}.

Definition set_bc_dev (d : D) (s : bcache) : bcache :=
  {| bc_dev := d; block_size := block_size s; bc_count := bc_count s; bc_stats := bc_stats s;
     bc_lists := bc_lists s; bc_blocks := bc_blocks s |}.
Definition set_bc_stats (f : bcache_stats -> bcache_stats) (s : bcache) : bcache :=
  {| bc_dev := bc_dev s; block_size := block_size s; bc_count := bc_count s; bc_stats := f (bc_stats s);
     bc_lists := bc_lists s; bc_blocks := bc_blocks s |}.
Definition set_bc_lists (f : links -> links) (s : bcache) : bcache :=
  {| bc_dev := bc_dev s; block_size := block_size s; bc_count := bc_count s; bc_stats := bc_stats s;
     bc_lists := f (bc_lists s); bc_blocks := bc_blocks s |}.
Definition set_block (i : nat) (b : bcache_block) (s : bcache) : bcache :=
  {| bc_dev := bc_dev s; block_size := block_size s; bc_count := bc_count s; bc_stats := bc_stats s;
     bc_lists := bc_lists s; bc_blocks := <[i := b]> (bc_blocks s) |}.

Definition block_at (i : nat) : M bcache bcache_block := getopt (fun s => bc_blocks s !! i).
Definition edit_block (i : nat) (f : bcache_block -> bcache_block) : M bcache unit :=
  let* b := block_at i in modify (set_block i (f b)).

(** An operation of the device. *)
Definition on_dev {A} (c : M D A) : M bcache A :=
  fun s => match c (bc_dev s) with Some (a, d) => Some (a, set_bc_dev d s) | None => None end.

Definition add_to (add : bc_list -> nat -> links -> links) (h : bc_list) (i : nat) : M bcache unit :=
  let* on := gets (fun s => list_in_list (bc_lists s) i) in
  assert_ (negb on) ;;; modify (set_bc_lists (add h i)).
Definition to_lru_tail (i : nat) : M bcache unit :=
  modify (set_bc_lists (list_delete i)) ;;; add_to list_add_tail Lru i.

(** The loop of [bcache_create]; [raw] is what [malloc] left in the block
    number and the memory of each slot. *)
Fixpoint create_loop (raw : list (Z * list Z)) (i : nat) : M bcache unit :=
  match raw with
  | [] => ret tt
  | (n, data) :: raw' =>
      modify (set_block i {| blocknum := n; ref_count := 0; is_dirty := false; blk_data := data |}) ;;;
      add_to list_add_head Free i ;;; create_loop raw' (S i)
  end.

(** [lists] holds the two list heads the function has initialised. *)
Definition bcache_create (lists : links) (dev : D) (block_size : Z) (raw : list (Z * list Z)) : option bcache :=
  snd <$> create_loop raw 0
    {| bc_dev := dev; block_size := block_size; bc_count := length raw;
       bc_stats := {| hits := 0; depth := 0; misses := 0; reads := 0; writes := 0 |};
       bc_lists := lists; bc_blocks := ∅ |}.

(** [(off_t)block->blocknum * cache->block_size]. *)
Definition block_off (n bs : Z) : Z := s64 (n * bs).

Definition flush_block (i : nat) : M bcache Z :=
  let* b := block_at i in
  let* bs := gets block_size in
  let* rc := on_dev (byte_write (blk_data b) (block_off (blocknum b) bs) bs) in
  let rc := s32 rc in
  if rc <? 0 then ret rc
  else edit_block i (set_dirty false) ;;; modify (set_bc_stats count_write) ;;; ret 0.

(** [bcache_destroy]: the numbers of the dirty blocks it warns of; the memory is
    gone afterwards. *)
Fixpoint destroy_loop (es : list nat) : M bcache (list Z) :=
  match es with
  | [] => ret []
  | i :: es' =>
      let* b := block_at i in
      assert_ (ref_count b =? 0) ;;;
      let* lost := destroy_loop es' in
      ret (if is_dirty b then blocknum b :: lost else lost)
  end.
Definition bcache_destroy : M bcache (list Z) :=
  let* n := gets bc_count in destroy_loop (seq 0 n).

Fixpoint find_loop (num depth : Z) (es : list nat) : M bcache (option nat) :=
  match es with
  | [] => modify (set_bc_stats count_miss) ;;; ret None
  | i :: es' =>
      let* b := block_at i in
      let depth := u32 (depth + 1) in
      if blocknum b =? num then
        to_lru_tail i ;;; modify (set_bc_stats (count_hit depth)) ;;; ret (Some i)
      else find_loop num depth es'
  end.
Definition find_block (num : Z) : M bcache (option nat) :=
  let* es := gets (fun s => contents (bc_lists s) Lru) in find_loop num 0 es.

(** The walk of [alloc_block] over the cached blocks. *)
Fixpoint evict_loop (es : list nat) : M bcache (option nat) :=
  match es with
  | [] => ret None
  | i :: es' =>
      let* b := block_at i in
      if ref_count b =? 0 then
        let* err := if is_dirty b then flush_block i else ret 0 in
        if err =? 0 then to_lru_tail i ;;; ret (Some i) else ret None
      else evict_loop es'
  end.
Definition alloc_block : M bcache (option nat) :=
  let* free := gets (fun s => list_remove_head Free (bc_lists s)) in
  match free with
  | (Some i, l) =>
      modify (set_bc_lists (fun _ => l)) ;;;
      edit_block i (set_ref_count 0) ;;;
      add_to list_add_tail Lru i ;;; ret (Some i)
  | (None, _) =>
      let* es := gets (fun s => contents (bc_lists s) Lru) in evict_loop es
  end.

Definition find_or_fill_block (num : Z) : M bcache (option nat) :=
  let* block := find_block num in
  let* block :=
    match block with
    | Some i => ret (Some i)
    | None =>
        let* block := alloc_block in
        match block with
        | None => panic
        | Some i =>
            edit_block i (set_blocknum num) ;;;
            let* b := block_at i in
            let* bs := gets block_size in
            let* (err, data) := on_dev (byte_read (blk_data b) (block_off num bs) bs) in
            edit_block i (set_data data) ;;;
            if s32 err <? 0 then add_to list_add_tail Free i ;;; ret None
            else modify (set_bc_stats count_read) ;;; ret (Some i)
        end
    end in
  match block with
  | None => ret None
  | Some i => let* b := block_at i in assert_ (blocknum b =? num) ;;; ret (Some i)
  end.

(** [memcpy(buf, block->ptr, cache->block_size)] into a buffer of that size. *)
Definition bcache_read_block (num : Z) : M bcache (Z * list Z) :=
  let* block := find_or_fill_block num in
  match block with
  | None => ret (-1, [])
  | Some i => let* b := block_at i in ret (0, blk_data b)
  end.

(** The pointer is the slot. *)
Definition bcache_get_block (num : Z) : M bcache (Z * option nat) :=
  let* block := find_or_fill_block num in
  match block with
  | None => ret (-1, None)
  | Some i =>
      edit_block i (fun b => set_ref_count (s32 (ref_count b + 1)) b) ;;; ret (0, Some i)
  end.

Definition bcache_put_block (num : Z) : M bcache Z :=
  let* block := find_block num in
  match block with
  | None => panic
  | Some i =>
      let* b := block_at i in
      assert_ (0 <? ref_count b) ;;;
      edit_block i (fun b => set_ref_count (s32 (ref_count b - 1)) b) ;;; ret 0
  end.

Definition bcache_mark_block_dirty (num : Z) : M bcache Z :=
  let* block := find_block num in
  match block with
  | None => ret (-1)
  | Some i => edit_block i (set_dirty true) ;;; ret 0
  end.

Definition bcache_zero_block (num : Z) : M bcache Z :=
  let* block := find_block num in
  let* block :=
    match block with
    | Some i => ret (Some i)
    | None =>
        let* block := alloc_block in
        match block with
        | None => ret None
        | Some i => edit_block i (set_blocknum num) ;;; ret (Some i)
        end
    end in
  match block with
  | None => ret (-1)
  | Some i =>
      let* bs := gets block_size in
      edit_block i (set_data (replicate (Z.to_nat bs) 0)) ;;; edit_block i (set_dirty true) ;;; ret 0
  end.

Fixpoint flush_loop (es : list nat) : M bcache Z :=
  match es with
  | [] => ret 0
  | i :: es' =>
      let* b := block_at i in
      let* err := if is_dirty b then flush_block i else ret 0 in
      if err =? 0 then flush_loop es' else ret err
  end.
Definition bcache_flush : M bcache Z :=
  let* es := gets (fun s => contents (bc_lists s) Lru) in flush_loop es.

(** The percentages and the mean search depth that [bcache_dump] prints. *)
Definition bcache_dump (s : bcache) : list Z :=
  let st := bc_stats s in
  let finds := u32 (hits st + misses st) in
  let pct n := if finds =? 0 then 0 else u32 (n * 100) / finds in
  [hits st; pct (hits st); if hits st =? 0 then 0 else depth st / hits st;
   misses st; pct (misses st); reads st; writes st].

(** A caller's store through a pointer it got from [bcache_get_block]. *)
Definition client_store (i : nat) (data : list Z) : M bcache unit := edit_block i (set_data data).
End bcache.
Arguments bcache D {LO}.
