(* ===== verification/CacheSpec.v ===== *)
(** * What the block cache computes

    [view s b] is what a client of the cache sees as block [b]: the cached copy,
    or what is on the device.  The invariant [binv X s] says that cached blocks
    are distinct and inside the device and that a clean one equals the device;
    slots in [X] are exempt, which describes a slot between its allocation and
    its being filled. *)

From S2P Require Import Prelude Arrays ListH Bio BioSpec Bcache.
Local Open Scope lk_scope.

(** What the cache relies on: in a good state of the device every transfer
    inside it succeeds, reads return its bytes and writes replace them. *)
Class ByteDevLaws (D : Type) `{BD : !ByteDev D} : Type := {
  dev_img : D -> list Z;
  dev_good : D -> Prop;
  byte_read_law : forall d buf off len,
    dev_good d -> 0 <= off -> 0 < len < 2 ^ 31 -> off + len <= Z.of_nat (length (dev_img d)) ->
    off + len < 2 ^ 63 -> Z.of_nat (length buf) = len ->
    exists buf', byte_read buf off len d = Some ((len, buf'), d) /\ range (dev_img d) off len = Some buf';
  byte_write_law : forall d buf off len,
    dev_good d -> 0 <= off -> 0 < len < 2 ^ 31 -> off + len <= Z.of_nat (length (dev_img d)) ->
    off + len < 2 ^ 63 -> Z.of_nat (length buf) = len ->
    exists d', byte_write buf off len d = Some (len, d') /\ dev_good d' /\
      blit_at (dev_img d) off buf = Some (dev_img d');
}.

Section spec.
Context {D : Type} `{LO : ListOps nat bc_list} {LL : ListLaws nat bc_list}.
Context `{BD : !ByteDev D} {BL : ByteDevLaws D}.
Implicit Types (s : bcache D) (c : bcache_block) (i j : nat) (b : Z) (X : gset nat).

(** ** The abstract state *)

Definition lru s : list nat := contents (bc_lists s) Lru.
Definition disk s b : option (list Z) := range (dev_img (bc_dev s)) (b * block_size s) (block_size s).

Definition lru_blocks X s : list (nat * bcache_block) :=
  omap (fun i => if decide (i ∈ X) then None else pair i <$> bc_blocks s !! i) (lru s).
Definition cached_in X s b : option (nat * bcache_block) :=
  List.find (fun p => blocknum (snd p) =? b) (lru_blocks X s).
Definition view_in X s b : option (list Z) :=
  match cached_in X s b with Some (_, c) => Some (blk_data c) | None => disk s b end.

(** What a client sees of block [b], and how many references are on it. *)
Definition view s b : option (list Z) := view_in ∅ s b.
Definition pins s b : Z :=
  match cached_in ∅ s b with Some (_, c) => ref_count c | None => 0 end.

Definition in_range s b : Prop :=
  0 <= b /\ (b + 1) * block_size s <= Z.of_nat (length (dev_img (bc_dev s))).

Definition on_lru X s i c : Prop := i ∈ lru s /\ (i ∉ X) /\ bc_blocks s !! i = Some c.

Lemma elem_lru_blocks X s i c : (i, c) ∈ lru_blocks X s <-> on_lru X s i c.
Proof.
  unfold lru_blocks, on_lru. rewrite list_elem_of_omap. split.
  - intros (j & Hj & E). case_decide; [done|].
    destruct (bc_blocks s !! j) eqn:Ej; cbn in E; [|done]. injection E as -> ->. done.
  - intros (Hi & Hx & E). exists i. rewrite decide_False by done. by rewrite E.
Qed.

(** ** The invariant *)

Record binv X s : Prop := {
  bi_links : links_ok (bc_lists s);
  bi_slots : forall i, (i < bc_count s)%nat <-> list_in_list (bc_lists s) i = true;
  bi_size : 0 < block_size s < 2 ^ 31;
  bi_img : Z.of_nat (length (dev_img (bc_dev s))) < 2 ^ 63;
  bi_dev : dev_good (bc_dev s);
  bi_block : forall i, (i < bc_count s)%nat -> exists c, bc_blocks s !! i = Some c;
  bi_data : forall i c, bc_blocks s !! i = Some c ->
    Z.of_nat (length (blk_data c)) = block_size s /\ 0 <= ref_count c < 2 ^ 31;
  bi_free : forall i c, i ∈ contents (bc_lists s) Free -> bc_blocks s !! i = Some c ->
    is_dirty c = false /\ ref_count c = 0;
  bi_nums : forall i j ci cj, on_lru X s i ci -> on_lru X s j cj -> blocknum ci = blocknum cj -> i = j;
  bi_range : forall i c, on_lru X s i c -> in_range s (blocknum c);
  bi_clean : forall i c, on_lru X s i c -> is_dirty c = false -> disk s (blocknum c) = Some (blk_data c);
}.

Lemma cached_some X s i c : binv X s -> on_lru X s i c -> cached_in X s (blocknum c) = Some (i, c).
Proof.
  intros Hs Hi. unfold cached_in. destruct (List.find _ _) as [[j c']|] eqn:E.
  - apply List.find_some in E as [Hin E]. apply list_elem_of_In, elem_lru_blocks in Hin.
    apply Z.eqb_eq in E. cbn in E. assert (j = i) as -> by by eapply bi_nums.
    destruct Hi as (_ & _ & Hi), Hin as (_ & _ & Hj). congruence.
  - apply elem_lru_blocks, list_elem_of_In in Hi. pose proof (List.find_none _ _ E _ Hi) as N.
    cbn in N. by rewrite Z.eqb_refl in N.
Qed.

Lemma cached_inv X s b i c : cached_in X s b = Some (i, c) -> on_lru X s i c /\ blocknum c = b.
Proof.
  intros E. apply List.find_some in E as [Hin E]. apply list_elem_of_In, elem_lru_blocks in Hin.
  by apply Z.eqb_eq in E.
Qed.

Lemma cached_none X s b : cached_in X s b = None <-> forall i c, on_lru X s i c -> blocknum c <> b.
Proof.
  split.
  - intros E i c Hi. apply elem_lru_blocks, list_elem_of_In in Hi. pose proof (List.find_none _ _ E _ Hi) as N.
    by apply Z.eqb_neq in N.
  - intros H. destruct (cached_in X s b) as [[i c]|] eqn:E; [|done].
    apply cached_inv in E as [Hi E]. by apply H in Hi.
Qed.

(** Two states whose cached blocks are the same give every block the same
    cached copy. *)
Lemma cached_ext X X' s s' b :
  binv X s -> binv X' s' -> (forall i c, on_lru X s i c <-> on_lru X' s' i c) ->
  cached_in X s b = cached_in X' s' b.
Proof.
  intros Hs Hs' H. destruct (cached_in X s b) as [[i c]|] eqn:E.
  - apply cached_inv in E as [Hi <-]. symmetry. apply cached_some; [done|]. by apply H.
  - symmetry. apply cached_none. intros i c Hi. eapply cached_none; [done|]. by apply H.
Qed.

(** A cached copy stays what it is when other slots change. *)
Lemma cached_upd X X' s s' b :
  binv X' s' -> (forall i c, on_lru X s i c -> blocknum c = b -> on_lru X' s' i c) ->
  (forall i c, on_lru X' s' i c -> blocknum c = b -> exists i' c', on_lru X s i' c' /\ blocknum c' = b) ->
  cached_in X s b = cached_in X' s' b.
Proof.
  intros Hs' H H'. destruct (cached_in X s b) as [[i c]|] eqn:E.
  - apply cached_inv in E as [Hi <-]. symmetry. apply cached_some; [done|]. by apply H.
  - symmetry. apply cached_none. intros i c Hi Hb. destruct (H' _ _ Hi Hb) as (i' & c' & Hi' & Hb').
    by eapply cached_none.
Qed.

Lemma view_ext X X' s s' b :
  binv X s -> binv X' s' -> (forall i c, on_lru X s i c <-> on_lru X' s' i c) -> disk s' b = disk s b ->
  view_in X' s' b = view_in X s b.
Proof. intros. unfold view_in. by rewrite (cached_ext X X' s s') by done; destruct (cached_in _ _ _) as [[??]|]. Qed.

(** ** Reordering the lists *)

Record moved s s' : Prop := {
  mv_dev : bc_dev s' = bc_dev s;
  mv_size : block_size s' = block_size s;
  mv_count : bc_count s' = bc_count s;
  mv_blocks : bc_blocks s' = bc_blocks s;
  mv_links : links_ok (bc_lists s');
  mv_in : forall h i, i ∈ contents (bc_lists s') h <-> i ∈ contents (bc_lists s) h;
}.

Lemma moved_on X s s' i c : moved s s' -> on_lru X s' i c <-> on_lru X s i c.
Proof. intros H. unfold on_lru, lru. by rewrite (mv_in _ _ H), (mv_blocks _ _ H). Qed.

Lemma moved_disk s s' b : moved s s' -> disk s' b = disk s b.
Proof. intros H. unfold disk. by rewrite (mv_dev _ _ H), (mv_size _ _ H). Qed.

Lemma moved_binv X s s' : moved s s' -> binv X s -> binv X s'.
Proof.
  intros H Hs. pose proof (moved_on X s s') as Ho. pose proof (moved_disk s s') as Hd.
  split; rewrite ?(mv_dev _ _ H), ?(mv_size _ _ H), ?(mv_count _ _ H), ?(mv_blocks _ _ H); try by apply Hs.
  - apply H.
  - intros i. rewrite (bi_slots _ _ Hs), !in_list_spec by (apply H || apply Hs).
    by setoid_rewrite (mv_in _ _ H).
  - intros i c Hi. apply (mv_in _ _ H) in Hi. by eapply bi_free.
  - intros i j ci cj Hi Hj. apply (Ho _ _ H) in Hi, Hj. by eapply bi_nums.
  - intros i c Hi. apply (Ho _ _ H) in Hi. unfold in_range. rewrite (mv_dev _ _ H), (mv_size _ _ H).
    by eapply bi_range.
  - intros i c Hi. apply (Ho _ _ H) in Hi. rewrite (Hd _ H). by eapply bi_clean.
Qed.

Lemma moved_view X s s' b : moved s s' -> binv X s -> view_in X s' b = view_in X s b.
Proof.
  intros H Hs. apply view_ext; [done|by eapply moved_binv| |by apply moved_disk].
  intros. symmetry. by apply moved_on.
Qed.

Lemma moved_stats f s : links_ok (bc_lists s) -> moved s (set_bc_stats f s).
Proof. by split. Qed.

Lemma moved_trans s1 s2 s3 : moved s1 s2 -> moved s2 s3 -> moved s1 s3.
Proof.
  intros H1 H2. split; rewrite ?(mv_dev _ _ H2), ?(mv_size _ _ H2), ?(mv_count _ _ H2), ?(mv_blocks _ _ H2);
    try apply H1; [apply H2|].
  intros. by rewrite (mv_in _ _ H2), (mv_in _ _ H1).
Qed.

Lemma add_to_run add h i s :
  list_in_list (bc_lists s) i = false -> add_to add h i s = Some (tt, set_bc_lists (add h i) s).
Proof. intros E. unfold add_to. munfold. by rewrite E. Qed.

Lemma block_at_run i s c : bc_blocks s !! i = Some c -> block_at i s = Some (c, s).
Proof. unfold block_at, getopt. by intros ->. Qed.

Lemma edit_block_run i f s c :
  bc_blocks s !! i = Some c -> edit_block i f s = Some (tt, set_block i (f c) s).
Proof. intros E. unfold edit_block. run (block_at_run _ _ _ E). done. Qed.

Lemma to_lru_tail_run s i :
  links_ok (bc_lists s) -> i ∈ lru s ->
  exists s', to_lru_tail i s = Some (tt, s') /\ moved s s'.
Proof.
  intros Hl Hi. pose proof (in_contents _ _ _ Hl Hi) as Hin.
  assert (Hd : list_in_list (list_delete i (bc_lists s)) i = false) by by apply delete_not_in.
  eexists. split.
  { unfold to_lru_tail. cbn [bind modify]. by apply add_to_run. }
  split; cbn; try done; [eauto with lk|]. intros h j.
  rewrite add_tail_contents by eauto with lk. case_decide as E; rewrite !delete_contents by done.
  - subst h. rewrite elem_of_app, elem_of_remove_all, list_elem_of_singleton. unfold lru in Hi.
    destruct (decide (j = i)); naive_solver.
  - rewrite elem_of_remove_all. split; [naive_solver|]. intros Hj. split; [done|]. intros ->.
    apply E. by eapply ok_disjoint.
Qed.

(** ** [find_block] *)

Lemma find_loop_run X s b dp es :
  binv X s -> (forall i, i ∈ es -> i ∈ lru s) ->
  exists r s', find_loop b dp es s = Some (r, s') /\ moved s s' /\
    match r with
    | Some i => i ∈ es /\ exists c, bc_blocks s !! i = Some c /\ blocknum c = b
    | None => forall i c, i ∈ es -> bc_blocks s !! i = Some c -> blocknum c <> b
    end.
Proof.
  intros Hs. revert dp. induction es as [|i es IH]; intros dp Hes; cbn [find_loop].
  { eexists _, _. split; [done|]. split; [by apply moved_stats, Hs|]. intros i c Hi. by apply not_elem_of_nil in Hi. }
  assert (Hi : i ∈ lru s) by (apply Hes; left).
  destruct (bi_block _ _ Hs i) as [c Hc].
  { apply (bi_slots _ _ Hs). apply (in_contents _ Lru); [apply Hs|done]. }
  run (block_at_run _ _ _ Hc). cbv zeta. destruct (Z.eqb_spec (blocknum c) b) as [E|E].
  - destruct (to_lru_tail_run s i) as (s1 & H1 & M1); [apply Hs|done|]. run H1.
    eexists _, _. split; [done|]. split; [eapply moved_trans; [done|]; apply moved_stats, M1|].
    split; [left|eauto].
  - destruct (IH (u32 (dp + 1))) as (r & s' & H & M1 & Hr); [set_solver|]. eexists _, _. split; [done|].
    split; [done|]. destruct r as [j|]; [set_solver|]. intros j cj Hj.
    apply elem_of_cons in Hj as [->|Hj]; [intros; naive_solver|by eauto].
Qed.

Lemma find_block_run s b :
  binv ∅ s ->
  exists r s', find_block b s = Some (r, s') /\ moved s s' /\
    match r with
    | Some i => exists c, on_lru ∅ s i c /\ blocknum c = b
    | None => forall i c, on_lru ∅ s i c -> blocknum c <> b
    end.
Proof.
  intros Hs. unfold find_block. cbn [bind gets].
  destruct (find_loop_run ∅ s b 0 (lru s)) as (r & s' & H & M1 & Hr); [done|done|].
  eexists _, _. split; [exact H|]. split; [done|]. destruct r as [i|]; unfold on_lru in *.
  - destruct Hr as (? & c & ? & ?). exists c. set_solver.
  - intros i c (? & ? & ?). by eapply Hr.
Qed.

(** ** [flush_block] *)

Lemma on_set X s i c' j cj :
  on_lru X (set_block i c' s) j cj <->
  j = i /\ i ∈ lru s /\ (i ∉ X) /\ cj = c' \/ j <> i /\ on_lru X s j cj.
Proof.
  unfold on_lru, lru. cbn. destruct (decide (j = i)) as [->|Hne].
  - rewrite lookup_insert_eq. naive_solver.
  - rewrite lookup_insert_ne by done. naive_solver.
Qed.

Lemma slot_block X s i : binv X s -> i ∈ lru s -> exists c, bc_blocks s !! i = Some c.
Proof.
  intros Hs Hi. apply (bi_block _ _ Hs), (bi_slots _ _ Hs). apply (in_contents _ Lru); [apply Hs|done].
Qed.

(** The state after slot [i] has been written to the device. *)
Definition flush_st i c d s := set_bc_stats count_write (set_block i (set_dirty false c) (set_bc_dev d s)).

Record written s i c (d : D) : Prop := {
  wr_good : dev_good d;
  wr_img : blit_at (dev_img (bc_dev s)) (blocknum c * block_size s) (blk_data c) = Some (dev_img d);
}.

Lemma flush_block_run X s i c :
  binv X s -> on_lru X s i c ->
  exists d, flush_block i s = Some (0, flush_st i c d s) /\ written s i c d.
Proof.
  intros Hs Hi. pose proof (bi_range _ _ Hs _ _ Hi) as [? ?]. pose proof (bi_img _ _ Hs).
  pose proof (bi_size _ _ Hs). destruct Hi as (Hi & Hx & Hc). pose proof (bi_data _ _ Hs _ _ Hc) as [Hlen _].
  assert (0 <= blocknum c * block_size s) by lia.
  assert (Eo : block_off (blocknum c) (block_size s) = blocknum c * block_size s).
  { apply s64_small. lia. }
  destruct (byte_write_law (bc_dev s) (blk_data c) (blocknum c * block_size s) (block_size s))
    as (d & Hw & Hg & Hb); try lia; [apply Hs|].
  exists d. split; [|by split]. unfold flush_block. run (block_at_run _ _ _ Hc).
  rewrite (bind_some _ _ _ _ _ (eq_refl : gets block_size s = Some (block_size s, s))).
  assert (E : on_dev (byte_write (blk_data c) (block_off (blocknum c) (block_size s)) (block_size s)) s =
    Some (block_size s, set_bc_dev d s)).
  { unfold on_dev. by rewrite Eo, Hw. }
  run E. cbv zeta. rewrite s32_small by lia. destruct (Z.ltb_spec (block_size s) 0); [lia|].
  assert (Hc' : bc_blocks (set_bc_dev d s) !! i = Some c) by done. run (edit_block_run i (set_dirty false) _ _ Hc').
  done.
Qed.

Section written.
Context {X : gset nat} {s : bcache D} {i : nat} {c : bcache_block} {d : D}.
Hypotheses (Hs : binv X s) (Hi : on_lru X s i c) (Hw : written s i c d).

Lemma flush_len : length (dev_img d) = length (dev_img (bc_dev s)).
Proof. eapply blit_at_length, Hw. Qed.

Lemma flush_disk_same : disk (flush_st i c d s) (blocknum c) = Some (blk_data c).
Proof.
  unfold disk. cbn. eapply range_blit_same; [apply Hw|]. eapply bi_data; [done|]. apply Hi.
Qed.

Lemma flush_disk_other b : b <> blocknum c -> disk (flush_st i c d s) b = disk s b.
Proof using All.
  intros Hb. unfold disk. cbn. eapply range_blit_other; [apply Hw|].
  destruct Hi as (_ & _ & Hc). destruct (bi_data _ _ Hs _ _ Hc) as [-> _]. pose proof (bi_size _ _ Hs). nia.
Qed.

Lemma flush_on j cj :
  on_lru X (flush_st i c d s) j cj <-> j = i /\ cj = set_dirty false c \/ j <> i /\ on_lru X s j cj.
Proof.
  change (on_lru X (set_block i (set_dirty false c) s) j cj <-> j = i /\ cj = set_dirty false c \/ j <> i /\ on_lru X s j cj).
  rewrite on_set. destruct Hi as (? & ? & ?). naive_solver.
Qed.

Lemma flush_binv : binv X (flush_st i c d s).
Proof using All.
  pose proof flush_len as Hlen. pose proof (proj2 (proj2 Hi)) as Hc.
  split; cbn; try by apply Hs.
  - rewrite Hlen. apply Hs.
  - apply Hw.
  - intros j Hj. destruct (decide (j = i)) as [->|]; [rewrite lookup_insert_eq|rewrite lookup_insert_ne by done];
      [by eauto|by apply Hs].
  - intros j cj Hj. apply lookup_insert_Some in Hj as [[<- <-]|[_ Hj]]; [|by eapply bi_data].
    cbn. by eapply bi_data.
  - intros j cj Hj Hcj. apply lookup_insert_Some in Hcj as [[<- _]|[_ Hcj]]; [|by eapply bi_free].
    destruct Hi as [Hi' _]. by pose proof (ok_disjoint _ _ _ _ (bi_links _ _ Hs) Hi' Hj).
  - intros j k cj ck Hj Hk E. apply flush_on in Hj, Hk.
    destruct Hj as [[-> ->]|[? Hj]], Hk as [[-> ->]|[? Hk]]; cbn in E; try done; by eapply bi_nums.
  - intros j cj Hj. unfold in_range. cbn. rewrite Hlen. apply flush_on in Hj as [[-> ->]|[? Hj]]; cbn; by eapply bi_range.
  - intros j cj Hj Hd. apply flush_on in Hj as [[-> ->]|[? Hj]]; cbn; [by apply flush_disk_same|].
    rewrite flush_disk_other; [by eapply bi_clean|]. intros E. by assert (j = i) by by eapply bi_nums.
Qed.

Lemma flush_cached b :
  cached_in X (flush_st i c d s) b =
    (fun p => if decide (fst p = i) then (i, set_dirty false c) else p) <$> cached_in X s b.
Proof using All.
  pose proof flush_binv as Hs'. destruct (cached_in X s b) as [[j cj]|] eqn:E; cbn.
  - apply cached_inv in E as [Hj <-]. case_decide as Hd; cbn in Hd.
    + subst j. assert (cj = c) as -> by (destruct Hi as (_ & _ & ?), Hj as (_ & _ & ?); congruence).
      apply (cached_some X (flush_st i c d s) i (set_dirty false c)); [done|]. apply flush_on. by left.
    + apply cached_some; [done|]. apply flush_on. by right.
  - apply cached_none. intros j cj Hj. pose proof (proj1 (cached_none _ _ _) E) as N.
    apply flush_on in Hj as [[-> ->]|[? Hj]]; cbn; by eapply N.
Qed.

Lemma flush_view b : view_in X (flush_st i c d s) b = view_in X s b.
Proof using All.
  unfold view_in. rewrite flush_cached. destruct (cached_in X s b) as [[j cj]|] eqn:E; cbn.
  - case_decide as Hd; [|done]. cbn in Hd. subst j. apply cached_inv in E as [Hj _].
    destruct Hi as (_ & _ & ?), Hj as (_ & _ & ?). cbn. congruence.
  - apply flush_disk_other. intros ->. by rewrite (cached_some X s i c) in E.
Qed.
End written.

(** ** [alloc_block] *)

Lemma on_sub s i j c : on_lru {[i]} s j c <-> j <> i /\ on_lru ∅ s j c.
Proof. unfold on_lru. set_solver. Qed.

Lemma binv_weaken s i : binv ∅ s -> binv {[i]} s.
Proof.
  intros Hs. split; try by apply Hs.
  - intros ???? [_ ?]%on_sub [_ ?]%on_sub. by eapply bi_nums.
  - intros ?? [_ ?]%on_sub. by eapply bi_range.
  - intros ?? [_ ?]%on_sub. by eapply bi_clean.
Qed.

(** A clean slot can be dropped without changing what a client sees. *)
Lemma view_drop s i b :
  binv ∅ s -> (forall c, on_lru ∅ s i c -> is_dirty c = false) -> view_in {[i]} s b = view s b.
Proof.
  intros Hs Hc. pose proof (binv_weaken s i Hs) as Hs'. unfold view, view_in.
  destruct (cached_in ∅ s b) as [[j c]|] eqn:E.
  - apply cached_inv in E as [Hj <-]. destruct (decide (j = i)) as [->|Hne].
    + assert (cached_in {[i]} s (blocknum c) = None) as ->.
      { apply cached_none. intros k ck [Hk Hk']%on_sub E. apply Hk. by eapply (bi_nums _ _ Hs). }
      apply (bi_clean _ _ Hs i); [done|by apply Hc].
    + by rewrite (cached_some {[i]} s j c) by (try apply on_sub; done).
  - assert (cached_in {[i]} s b = None) as ->; [|done].
    apply cached_none. intros j c [_ Hj]%on_sub. by eapply cached_none.
Qed.

Record allocated s s' i : Prop := {
  al_inv : binv {[i]} s';
  al_in : i ∈ lru s';
  al_slot : exists c, bc_blocks s' !! i = Some c /\ ref_count c = 0 /\ is_dirty c = false;
  al_view : forall b, view_in {[i]} s' b = view s b;
  al_on : forall j c, j <> i -> on_lru ∅ s' j c <-> on_lru ∅ s j c;
  al_was : forall c, on_lru ∅ s i c -> ref_count c = 0;
  al_blocks : forall j, j <> i -> bc_blocks s' !! j = bc_blocks s !! j;
  al_size : block_size s' = block_size s;
  al_count : bc_count s' = bc_count s;
  al_len : length (dev_img (bc_dev s')) = length (dev_img (bc_dev s));
}.

(** Taking a clean unreferenced slot: the eviction without its write. *)
Lemma evict_clean s s' i c :
  binv ∅ s -> on_lru ∅ s i c -> is_dirty c = false -> ref_count c = 0 -> moved s s' -> allocated s s' i.
Proof.
  intros Hs Hi Hd Hr Hm. pose proof Hi as (Hl & _ & Hc).
  assert (forall c', on_lru ∅ s i c' -> c' = c) as Hu by (intros c' (_ & _ & ?); congruence).
  split; rewrite ?(mv_blocks _ _ Hm), ?(mv_dev _ _ Hm); try apply Hm; try done.
  - by eapply moved_binv, binv_weaken.
  - by eauto.
  - intros b. rewrite (moved_view _ s) by (done || by apply binv_weaken). apply view_drop; [done|].
    intros c' ->%Hu. done.
  - intros. by apply moved_on.
  - intros c' ->%Hu. done.
Qed.

Lemma evict_dirty s s' i c d :
  binv ∅ s -> on_lru ∅ s i c -> ref_count c = 0 -> written s i c d ->
  moved (flush_st i c d s) s' -> allocated s s' i.
Proof.
  intros Hs Hi Hr Hw Hm.
  destruct (evict_clean (flush_st i c d s) s' i (set_dirty false c)) as [A1 A2 A3 A4 A5 A6 A7 A8 A9 A10]; try done.
  { by apply flush_binv. }
  { apply flush_on; [done|]. by left. }
  split; try done.
  - intros b. rewrite A4. by apply flush_view.
  - intros j cj Hj. rewrite A5, flush_on by done. naive_solver.
  - intros c' (_ & _ & Hc'). destruct Hi as (_ & _ & Hc). congruence.
  - intros j Hj. rewrite A7 by done. cbn. by rewrite lookup_insert_ne.
  - rewrite A10. by eapply flush_len.
Qed.

Lemma evict_loop_run s es :
  binv ∅ s -> (forall i, i ∈ es -> i ∈ lru s) ->
  (exists i c, i ∈ es /\ bc_blocks s !! i = Some c /\ ref_count c = 0) ->
  exists i s', evict_loop es s = Some (Some i, s') /\ allocated s s' i.
Proof.
  intros Hs. induction es as [|i es IH]; intros Hes Hex; cbn [evict_loop].
  { destruct Hex as (? & ? & H & _). by apply not_elem_of_nil in H. }
  assert (Hi : i ∈ lru s) by (apply Hes; left). destruct (slot_block _ _ _ Hs Hi) as [c Hc].
  run (block_at_run _ _ _ Hc). destruct (Z.eqb_spec (ref_count c) 0) as [E|E].
  - assert (Ho : on_lru ∅ s i c) by (split; [done|split; [apply not_elem_of_empty|done]]).
    destruct (is_dirty c) eqn:Ed.
    + destruct (flush_block_run ∅ s i c) as (d & Hf & Hw); [done|done|]. run Hf. cbn [Z.eqb].
      destruct (to_lru_tail_run (flush_st i c d s) i) as (s' & H' & Hm); [apply Hs|done|]. run H'.
      eexists _, _. split; [done|]. by eapply evict_dirty.
    + destruct (to_lru_tail_run s i) as (s' & H' & Hm); [apply Hs|done|].
      rewrite (bind_some _ _ _ _ _ (eq_refl : ret 0 s = Some (0, s))). cbn [Z.eqb]. run H'.
      eexists _, _. split; [done|]. by eapply evict_clean.
  - apply IH; [set_solver|]. destruct Hex as (j & cj & Hj & Hcj & Hr).
    apply elem_of_cons in Hj as [->|Hj]; [congruence|by eauto].
Qed.

(** Taking a slot from the free list. *)
Section take_free.
Context {s : bcache D} {i : nat} {es : list nat} {c : bcache_block}.
Hypotheses (Hs : binv ∅ s) (Hf : contents (bc_lists s) Free = i :: es) (Hc : bc_blocks s !! i = Some c).

Definition take_st := set_bc_lists (list_add_tail Lru i)
  (set_block i (set_ref_count 0 c) (set_bc_lists (fun _ => list_delete i (bc_lists s)) s)).

Lemma take_in : list_in_list (bc_lists s) i = true.
Proof using Hs Hf. apply (in_contents _ Free); [apply Hs|]. rewrite Hf. left. Qed.

Lemma take_out : list_in_list (list_delete i (bc_lists s)) i = false.
Proof using Hs Hf. apply delete_not_in; [apply Hs|apply take_in]. Qed.

Lemma take_links : links_ok (list_delete i (bc_lists s)).
Proof using Hs Hf. apply delete_ok; [apply Hs|apply take_in]. Qed.

Lemma take_not_lru : i ∉ lru s.
Proof using Hs Hf.
  intros H. assert (Hif : i ∈ contents (bc_lists s) Free) by (rewrite Hf; left).
  by pose proof (ok_disjoint _ _ _ _ (bi_links _ _ Hs) Hif H).
Qed.

Lemma take_lru : lru take_st = lru s ++ [i].
Proof using Hs Hf.
  unfold lru, take_st. cbn. rewrite add_tail_contents, decide_True by (done || apply take_links || apply take_out).
  f_equal. eapply (delete_other_contents _ Free); [apply Hs| |done]. rewrite Hf. left.
Qed.

Lemma take_on j cj : on_lru {[i]} take_st j cj <-> on_lru ∅ s j cj.
Proof using All.
  rewrite on_sub. unfold on_lru. rewrite take_lru, elem_of_app, list_elem_of_singleton. cbn.
  destruct (decide (j = i)) as [->|Hne].
  - pose proof take_not_lru. naive_solver.
  - rewrite lookup_insert_ne by done. naive_solver.
Qed.

Lemma take_slots j : (j < bc_count s)%nat <-> list_in_list (bc_lists take_st) j = true.
Proof using All.
  rewrite (bi_slots _ _ Hs). destruct (decide (j = i)) as [->|Hj].
  - rewrite take_in. split; [|done]. intros _. apply (in_contents _ Lru).
    + apply add_tail_ok; [apply take_links|apply take_out].
    + change (i ∈ lru take_st). rewrite take_lru. set_solver.
  - cbn. rewrite add_tail_in_list_ne, delete_in_list_ne; try done;
      [apply Hs|apply take_in|apply take_links|apply take_out].
Qed.

Lemma take_binv : binv {[i]} take_st.
Proof using All.
  split; cbn; try by apply Hs.
  - apply add_tail_ok; [apply take_links|apply take_out].
  - exact take_slots.
  - intros j Hj. destruct (decide (j = i)) as [->|Hne]; [rewrite lookup_insert_eq; eauto|].
    rewrite lookup_insert_ne by done. by apply Hs.
  - intros j cj Hj. apply lookup_insert_Some in Hj as [[<- <-]|[_ Hj]]; [|by eapply bi_data].
    destruct (bi_data _ _ Hs _ _ Hc). cbn. lia.
  - intros j cj Hj Hcj.
    rewrite add_tail_contents, decide_False in Hj by (done || apply take_links || apply take_out).
    rewrite delete_contents, elem_of_remove_all in Hj by (apply take_in || apply Hs). destruct Hj as [Hj Hne].
    rewrite lookup_insert_ne in Hcj by done. by eapply bi_free.
  - intros j k cj ck Hj%take_on Hk%take_on. by eapply bi_nums.
  - intros j cj Hj%take_on. by apply (bi_range _ _ Hs j).
  - intros j cj Hj%take_on. by apply (bi_clean _ _ Hs j).
Qed.

Lemma take_free : allocated s take_st i.
Proof using All.
  assert (Hni : forall c', ~ on_lru ∅ s i c') by (intros c' (? & _); by apply take_not_lru).
  split; try done.
  - exact take_binv.
  - rewrite take_lru. set_solver.
  - exists (set_ref_count 0 c). cbn. rewrite lookup_insert_eq. split_and!; [done|done|].
    apply (bi_free _ _ Hs i); [|done]. rewrite Hf. left.
  - intros b. apply (view_ext ∅); [done|exact take_binv| |done]. intros. symmetry. apply take_on.
  - intros j cj Hj. rewrite <- take_on, on_sub. naive_solver.
  - intros c' Hc'. by apply Hni in Hc'.
  - intros j Hj. cbn. by rewrite lookup_insert_ne.
Qed.
End take_free.

(** Some slot has no reference on it. *)
Definition room s : Prop :=
  exists i c, (i < bc_count s)%nat /\ bc_blocks s !! i = Some c /\ ref_count c = 0.

Lemma alloc_block_run s :
  binv ∅ s -> room s -> exists i s', alloc_block s = Some (Some i, s') /\ allocated s s' i.
Proof.
  intros Hs (i & c & Hi & Hc & Hr). unfold alloc_block, list_remove_head. cbn [bind gets].
  destruct (contents (bc_lists s) Free) as [|j es] eqn:Ef.
  - apply evict_loop_run; [done|done|]. exists i, c. split; [|done].
    apply (bi_slots _ _ Hs), in_list_spec in Hi as [h Hh]; [|apply Hs].
    destruct h; [rewrite Ef in Hh; set_solver|done].
  - destruct (bi_block _ _ Hs j) as [cj Hcj]; [apply (bi_slots _ _ Hs), (take_in Hs Ef)|].
    pose proof (take_out Hs Ef) as Ho.
    rewrite (bind_some _ _ _ _ _ (eq_refl : modify _ s = Some (tt, set_bc_lists (fun _ => list_delete j (bc_lists s)) s))).
    rewrite (bind_some _ _ _ _ _ (edit_block_run j (set_ref_count 0) (set_bc_lists (fun _ => list_delete j (bc_lists s)) s) cj Hcj)).
    rewrite (bind_some _ _ _ _ _ (add_to_run list_add_tail Lru j
      (set_block j (set_ref_count 0 cj) (set_bc_lists (fun _ => list_delete j (bc_lists s)) s)) Ho)).
    eexists _, _. split; [done|]. by eapply take_free.
Qed.
End spec.
