(* ===== verification/CacheOps.v ===== *)
(** * The operations of the block cache

    Every operation that hands out or changes a block ends in a state where one
    slot [i] holds a block [c'] and the others are as before ([updated]); what a
    client sees follows from that. *)

From S2P Require Import Prelude Arrays ListH Bio BioSpec Bcache CacheSpec.
Local Open Scope lk_scope.

Section ops.
Context {D : Type} `{LO : ListOps nat bc_list} {LL : ListLaws nat bc_list}.
Context `{BD : !ByteDev D} {BL : ByteDevLaws D}.
Implicit Types (s : bcache D) (c : bcache_block) (i j : nat) (b : Z).

(** ** One slot updated *)

Record updated s s' i c' : Prop := {
  up_inv : binv ∅ s';
  up_on : forall j c, on_lru ∅ s' j c <-> j = i /\ c = c' \/ j <> i /\ on_lru ∅ s j c;
  up_was : forall c, on_lru ∅ s i c -> blocknum c = blocknum c' \/ ref_count c = 0;
  up_view : forall b, b <> blocknum c' -> view s' b = view s b;
  up_blocks : forall j, j <> i -> bc_blocks s' !! j = bc_blocks s !! j;
  up_size : block_size s' = block_size s;
  up_count : bc_count s' = bc_count s;
  up_len : length (dev_img (bc_dev s')) = length (dev_img (bc_dev s));
}.

Lemma view_on s i c : binv ∅ s -> on_lru ∅ s i c -> view s (blocknum c) = Some (blk_data c).
Proof. intros Hs Hi. unfold view, view_in. by rewrite (cached_some ∅ s i c). Qed.

Lemma pins_on s i c : binv ∅ s -> on_lru ∅ s i c -> pins s (blocknum c) = ref_count c.
Proof. intros Hs Hi. unfold pins. by rewrite (cached_some ∅ s i c). Qed.

Lemma pins_none s b : (forall i c, on_lru ∅ s i c -> blocknum c <> b) -> pins s b = 0.
Proof. intros H. unfold pins. by rewrite (proj2 (cached_none ∅ s b) H). Qed.

Lemma pins_pos s b : 0 < pins s b -> exists i c, on_lru ∅ s i c /\ blocknum c = b.
Proof.
  unfold pins. destruct (cached_in ∅ s b) as [[i c]|] eqn:E; [|lia]. intros _. eauto using cached_inv.
Qed.

Section updated.
Context {s s' : bcache D} {i : nat} {c' : bcache_block}.
Hypotheses (Hs : binv ∅ s) (Hu : updated s s' i c').

Lemma up_self : on_lru ∅ s' i c'.
Proof using Hu. apply (up_on _ _ _ _ Hu). by left. Qed.

Lemma up_slot : bc_blocks s' !! i = Some c'.
Proof using Hu. apply up_self. Qed.

Lemma up_view_self : view s' (blocknum c') = Some (blk_data c').
Proof using Hu. eapply view_on; [apply Hu|apply up_self]. Qed.

Lemma up_pins_self : pins s' (blocknum c') = ref_count c'.
Proof using Hu. eapply pins_on; [apply Hu|apply up_self]. Qed.

Lemma up_pins b : b <> blocknum c' -> pins s' b = pins s b.
Proof using Hs Hu.
  intros Hb. destruct (cached_in ∅ s b) as [[j c]|] eqn:E.
  - apply cached_inv in E as [Hj <-]. rewrite (pins_on s j c) by done.
    destruct (decide (j = i)) as [->|Hne].
    + destruct (up_was _ _ _ _ Hu c Hj) as [?|Hr]; [congruence|]. rewrite Hr. apply pins_none.
      intros k ck [[-> ->]|[Hk Hk']]%(up_on _ _ _ _ Hu); [done|]. intros E. apply Hk. by eapply (bi_nums _ _ Hs).
    + apply (pins_on s' j c); [apply Hu|]. apply (up_on _ _ _ _ Hu). by right.
  - pose proof (proj1 (cached_none _ _ _) E) as N. rewrite !pins_none; [done|done|].
    intros k ck [[-> ->]|[Hk Hk']]%(up_on _ _ _ _ Hu); [done|by eapply N].
Qed.

(** A slot somebody holds a reference on keeps its block. *)
Lemma up_pinned j c : on_lru ∅ s j c -> 0 < ref_count c ->
  exists c2, on_lru ∅ s' j c2 /\ blocknum c2 = blocknum c.
Proof using Hs Hu.
  intros Hj Hr. destruct (decide (j = i)) as [->|Hne].
  - exists c'. split; [apply up_self|]. destruct (up_was _ _ _ _ Hu c Hj); [done|lia].
  - exists c. split; [|done]. apply (up_on _ _ _ _ Hu). by right.
Qed.
End updated.

(** ** How a slot comes to be updated *)

Lemma updated_moved s s' i c : binv ∅ s -> moved s s' -> on_lru ∅ s i c -> updated s s' i c.
Proof.
  intros Hs Hm Hi. split; try apply Hm.
  - by eapply moved_binv.
  - intros j cj. rewrite (moved_on _ s s') by done. destruct (decide (j = i)) as [->|]; [|naive_solver].
    split; [|naive_solver]. intros (_ & _ & ?). destruct Hi as (_ & _ & ?). left. split; congruence.
  - intros cj (_ & _ & ?). destruct Hi as (_ & _ & ?). left. congruence.
  - intros. by apply moved_view.
  - intros. by rewrite (mv_blocks _ _ Hm).
  - by rewrite (mv_dev _ _ Hm).
Qed.

Lemma set_binv s' i c' :
  binv {[i]} s' -> i ∈ lru s' -> (forall j c, j <> i -> on_lru ∅ s' j c -> blocknum c <> blocknum c') ->
  in_range s' (blocknum c') -> Z.of_nat (length (blk_data c')) = block_size s' -> 0 <= ref_count c' < 2 ^ 31 ->
  (is_dirty c' = false -> disk s' (blocknum c') = Some (blk_data c')) ->
  binv ∅ (set_block i c' s').
Proof.
  intros Hs Hi Hn Hr Hl Hc Hd.
  assert (Ho : forall j cj, on_lru ∅ (set_block i c' s') j cj -> j = i /\ cj = c' \/ j <> i /\ on_lru {[i]} s' j cj).
  { intros j cj Hj%on_set. rewrite on_sub. naive_solver. }
  split; cbn; try by apply Hs.
  - intros j Hj. destruct (decide (j = i)) as [->|Hne]; [rewrite lookup_insert_eq; eauto|].
    rewrite lookup_insert_ne by done. by apply Hs.
  - intros j cj Hj. apply lookup_insert_Some in Hj as [[<- <-]|[_ Hj]]; [done|by eapply bi_data].
  - intros j cj Hj Hcj. apply lookup_insert_Some in Hcj as [[<- _]|[_ Hcj]]; [|by eapply bi_free].
    by pose proof (ok_disjoint _ _ _ _ (bi_links _ _ Hs) Hi Hj).
  - intros j k cj ck [[-> ->]|[Hj Hj']]%Ho [[-> ->]|[Hk Hk']]%Ho E; try done.
    + apply on_sub in Hk'. exfalso. by apply (Hn k ck); [done|apply Hk'|].
    + apply on_sub in Hj'. exfalso. by apply (Hn j cj); [done|apply Hj'|].
    + by eapply bi_nums.
  - intros j cj [[-> ->]|[Hj Hj']]%Ho; [done|]. by apply (bi_range _ _ Hs j).
  - intros j cj [[-> ->]|[Hj Hj']]%Ho; [done|]. by apply (bi_clean _ _ Hs j).
Qed.

(** Filling a slot that [alloc_block] returned. *)
Lemma updated_fill s s' i c' :
  binv ∅ s -> allocated s s' i -> (forall j c, on_lru ∅ s j c -> blocknum c <> blocknum c') ->
  in_range s (blocknum c') -> Z.of_nat (length (blk_data c')) = block_size s -> 0 <= ref_count c' < 2 ^ 31 ->
  (is_dirty c' = false -> disk s' (blocknum c') = Some (blk_data c')) ->
  updated s (set_block i c' s') i c'.
Proof.
  intros Hs Ha Hn Hr Hl Hc Hd. destruct (al_slot _ _ _ Ha) as (c0 & Hc0 & _).
  assert (Hb : binv ∅ (set_block i c' s')).
  { apply set_binv; try done; try apply Ha; [..|by rewrite (al_size _ _ _ Ha)].
    - intros j c Hj Ho. apply (Hn j). by apply (al_on _ _ _ Ha).
    - unfold in_range in *. by rewrite (al_size _ _ _ Ha), (al_len _ _ _ Ha). }
  pose proof (al_in _ _ _ Ha) as Hin.
  split; try done; try apply Ha.
  - intros j c. rewrite on_set. destruct (decide (j = i)) as [->|Hne].
    + set_solver.
    + rewrite (al_on _ _ _ Ha) by done. naive_solver.
  - intros c Ho. right. by apply (al_was _ _ _ Ha).
  - intros b Hne. rewrite <- (al_view _ _ _ Ha). unfold view, view_in.
    rewrite (cached_upd {[i]} ∅ s' (set_block i c' s') b); [done|done|..].
    + intros j c Hj _. apply on_set. right. by apply on_sub in Hj.
    + intros j c Hj E. apply on_set in Hj as [(_ & _ & _ & ->)|[Hj Ho]]; [done|]. exists j, c. by rewrite on_sub.
  - intros j Hj. cbn. rewrite lookup_insert_ne by done. by apply Ha.
Qed.

(** A further change of the same slot. *)
Lemma updated_edit s s' i c c' :
  updated s s' i c -> blocknum c' = blocknum c -> Z.of_nat (length (blk_data c')) = block_size s ->
  0 <= ref_count c' < 2 ^ 31 -> (is_dirty c' = false -> is_dirty c = false /\ blk_data c' = blk_data c) ->
  updated s (set_block i c' s') i c'.
Proof.
  intros Hu En Hl Hr Hd. pose proof (up_inv _ _ _ _ Hu) as Hs'. pose proof (up_self Hu) as Hi.
  pose proof (bi_range _ _ Hs' _ _ Hi).
  assert (Hb : binv ∅ (set_block i c' s')).
  { apply set_binv; try done.
    - by apply binv_weaken.
    - apply Hi.
    - intros j cj Hj Ho E. apply Hj. eapply (bi_nums _ _ Hs'); [done|done|congruence].
    - by rewrite En.
    - by rewrite (up_size _ _ _ _ Hu).
    - intros [Hd1 ->]%Hd. rewrite En. by eapply bi_clean. }
  assert (Ho : forall j cj, on_lru ∅ (set_block i c' s') j cj <-> j = i /\ cj = c' \/ j <> i /\ on_lru ∅ s j cj).
  { intros j cj. rewrite on_set, (up_on _ _ _ _ Hu). destruct Hi as (? & ? & _). naive_solver. }
  split; try done; try apply Hu.
  - intros cj Hj. rewrite En. by apply (up_was _ _ _ _ Hu).
  - intros b Hne. rewrite <- (up_view _ _ _ _ Hu) by congruence. unfold view, view_in.
    rewrite (cached_upd ∅ ∅ s' (set_block i c' s') b); [done|done|..].
    + intros j cj Hj E. apply on_set. right. split; [|done]. intros ->.
      destruct Hj as (_ & _ & Hj), Hi as (_ & _ & Hi). congruence.
    + intros j cj Hj E. apply on_set in Hj as [(_ & _ & _ & ->)|[Hj Hj']]; [done|]. by eauto.
  - intros j Hj. cbn. rewrite lookup_insert_ne by done. by apply Hu.
Qed.

(** ** Finding, filling *)

Lemma set_block_twice i c1 c2 s : set_block i c2 (set_block i c1 s) = set_block i c2 s.
Proof. unfold set_block. cbn. by rewrite insert_insert_eq. Qed.

Lemma set_dev_id s : set_bc_dev (bc_dev s) s = s.
Proof. by destruct s. Qed.

Lemma updated_stats s s' i c f : updated s s' i c -> updated s (set_bc_stats f s') i c.
Proof.
  intros Hu. assert (Hm : moved s' (set_bc_stats f s')) by apply moved_stats, Hu.
  split; try apply Hu. by eapply moved_binv, Hu.
Qed.

Lemma room_moved s s' : moved s s' -> room s -> room s'.
Proof. intros Hm. unfold room. by rewrite (mv_count _ _ Hm), (mv_blocks _ _ Hm). Qed.

Lemma updated_moved_l s s1 s2 i c :
  binv ∅ s -> moved s s1 -> updated s1 s2 i c -> updated s s2 i c.
Proof.
  intros Hs Hm Hu. pose proof (moved_on ∅ s s1) as Ho.
  split; try apply Hu.
  - intros j cj. rewrite (up_on _ _ _ _ Hu), Ho by done. done.
  - intros cj Hj. apply (up_was _ _ _ _ Hu). by apply Ho.
  - intros b Hb. rewrite (up_view _ _ _ _ Hu) by done. by apply moved_view.
  - intros j Hj. by rewrite (up_blocks _ _ _ _ Hu), (mv_blocks _ _ Hm).
  - by rewrite (up_size _ _ _ _ Hu), (mv_size _ _ Hm).
  - by rewrite (up_count _ _ _ _ Hu), (mv_count _ _ Hm).
  - by rewrite (up_len _ _ _ _ Hu), (mv_dev _ _ Hm).
Qed.

Lemma on_room s i c : binv ∅ s -> on_lru ∅ s i c -> 0 < pins s (blocknum c) \/ room s.
Proof.
  intros Hs Hi. rewrite (pins_on s i c) by done. pose proof Hi as (Hl & _ & Hc).
  destruct (bi_data _ _ Hs _ _ Hc) as [_ Hr]. destruct (decide (ref_count c = 0)); [right|left; lia].
  exists i, c. split; [|done]. apply (bi_slots _ _ Hs), (in_contents _ Lru); [apply Hs|done].
Qed.

(** The rest of [find_or_fill_block] after [alloc_block] returned slot [i]. *)
Lemma fill_run s s1 i b :
  binv ∅ s -> allocated s s1 i -> (forall j c, on_lru ∅ s j c -> blocknum c <> b) -> in_range s b ->
  exists data, view s b = Some data /\
  let c' := {| blocknum := b; ref_count := 0; is_dirty := false; blk_data := data |} in
  (edit_block i (set_blocknum b) ;;;
   let* c := block_at i in
   let* bs := gets block_size in
   let* (err, data) := on_dev (byte_read (blk_data c) (block_off b bs) bs) in
   edit_block i (set_data data) ;;;
   if s32 err <? 0 then add_to list_add_tail Free i ;;; ret None
   else modify (set_bc_stats count_read) ;;; ret (Some i)) s1 =
    Some (Some i, set_bc_stats count_read (set_block i c' s1)) /\
  updated s (set_bc_stats count_read (set_block i c' s1)) i c'.
Proof.
  intros Hs Ha Hn [Hb0 Hb1]. destruct (al_slot _ _ _ Ha) as (c & Hc & Hr & Hd).
  pose proof (al_inv _ _ _ Ha) as Hs1. destruct (bi_data _ _ Hs1 _ _ Hc) as [Hlen _].
  pose proof (bi_size _ _ Hs1) as Hbs. pose proof (bi_img _ _ Hs1) as Him.
  rewrite <- (al_size _ _ _ Ha), <- (al_len _ _ _ Ha) in Hb1.
  assert (Eo : block_off b (block_size s1) = b * block_size s1) by (apply s64_small; lia).
  destruct (byte_read_law (bc_dev s1) (blk_data c) (b * block_size s1) (block_size s1)) as (data & Hrd & Hrg);
    try lia; [apply Ha|].
  assert (Hv : view s b = Some data).
  { rewrite <- (al_view _ _ _ Ha). unfold view_in.
    rewrite (proj2 (cached_none {[i]} s1 b)); [done|].
    intros j cj [Hj Hj']%on_sub. apply (Hn j). by apply (al_on _ _ _ Ha). }
  exists data. split; [done|]. cbv zeta. split.
  - run (edit_block_run i (set_blocknum b) s1 c Hc).
    set (s2 := set_block i (set_blocknum b c) s1).
    assert (H2 : bc_blocks s2 !! i = Some (set_blocknum b c)) by apply lookup_insert_eq.
    run (block_at_run _ _ _ H2). rewrite (bind_some _ _ _ _ _ (eq_refl : gets block_size s2 = Some (block_size s1, s2))).
    assert (E : on_dev (byte_read (blk_data (set_blocknum b c)) (block_off b (block_size s1)) (block_size s1)) s2 =
      Some ((block_size s1, data), s2)).
    { unfold on_dev. cbn. by rewrite Eo, Hrd. }
    run E. run (edit_block_run i (set_data data) s2 _ H2). rewrite s32_small by lia.
    destruct (Z.ltb_spec (block_size s1) 0); [lia|]. cbn [bind modify ret]. unfold s2.
    rewrite set_block_twice. unfold set_data, set_blocknum. cbn. by rewrite Hr, Hd.
  - apply updated_stats, updated_fill; cbn [blocknum blk_data ref_count is_dirty]; try done.
    + split; [done|]. by rewrite <- (al_size _ _ _ Ha), <- (al_len _ _ _ Ha).
    + rewrite <- (al_size _ _ _ Ha). by eapply range_length.
Qed.

Lemma find_or_fill_run s b :
  binv ∅ s -> in_range s b -> 0 < pins s b \/ room s ->
  exists i c' s', find_or_fill_block b s = Some (Some i, s') /\ updated s s' i c' /\
    blocknum c' = b /\ view s b = Some (blk_data c') /\ ref_count c' = pins s b.
Proof.
  intros Hs Hb Hroom. unfold find_or_fill_block.
  destruct (find_block_run s b Hs) as ([i|] & s1 & H1 & M1 & Hr); run H1.
  - destruct Hr as (c & Hi & <-). pose proof (updated_moved _ _ _ _ Hs M1 Hi) as Hu.
    exists i, c, s1. rewrite (view_on s i c), (pins_on s i c) by done. split; [|done].
    cbn [bind ret]. run (block_at_run _ _ _ (up_slot Hu)). by rewrite Z.eqb_refl.
  - assert (H0 : pins s b = 0) by by apply pins_none. destruct Hroom as [?|Hroom]; [lia|].
    assert (Hs1 : binv ∅ s1) by by eapply moved_binv.
    destruct (alloc_block_run s1) as (i & s2 & H2 & Ha); [done|by eapply room_moved|].
    destruct (fill_run s1 s2 i b) as (data & Hv & Hf & Hu); [done|done|..].
    { intros j c Hj. apply (Hr j). by apply (moved_on _ s s1). }
    { unfold in_range in *. by rewrite (mv_size _ _ M1), (mv_dev _ _ M1). }
    eexists i, _, _. split; [|split; [by eapply updated_moved_l|]].
    + unfold bind at 1. unfold bind at 1. rewrite H2. rewrite Hf. run (block_at_run _ _ _ (up_slot Hu)).
      cbn [blocknum]. by rewrite Z.eqb_refl.
    + rewrite H0. cbn. split_and!; [done| |done]. rewrite <- Hv. symmetry. by apply moved_view.
Qed.

(** ** Writing back *)

Record cleaned s s' : Prop := {
  cl_inv : binv ∅ s';
  cl_lists : bc_lists s' = bc_lists s;
  cl_block : forall j c, bc_blocks s !! j = Some c -> exists c', bc_blocks s' !! j = Some c' /\
    blocknum c' = blocknum c /\ ref_count c' = ref_count c /\ (is_dirty c = false -> is_dirty c' = false);
  cl_view : forall b, view s' b = view s b;
  cl_size : block_size s' = block_size s;
  cl_count : bc_count s' = bc_count s;
  cl_len : length (dev_img (bc_dev s')) = length (dev_img (bc_dev s));
}.

Lemma cleaned_refl s : binv ∅ s -> cleaned s s.
Proof. split; eauto. Qed.

Lemma cleaned_flush s i c d : binv ∅ s -> on_lru ∅ s i c -> written s i c d -> cleaned s (flush_st i c d s).
Proof.
  intros Hs Hi Hw. split; try done.
  - by apply flush_binv.
  - intros j cj Hj. cbn. destruct (decide (j = i)) as [->|Hne].
    + rewrite lookup_insert_eq. destruct Hi as (_ & _ & Hc). assert (cj = c) as -> by congruence.
      by exists (set_dirty false c).
    + rewrite lookup_insert_ne by done. eauto.
  - intros b. by apply flush_view.
  - by eapply flush_len.
Qed.

Lemma cleaned_trans s1 s2 s3 : cleaned s1 s2 -> cleaned s2 s3 -> cleaned s1 s3.
Proof.
  intros H1 H2. split; try by apply H2.
  - by rewrite (cl_lists _ _ H2), (cl_lists _ _ H1).
  - intros j c Hj. destruct (cl_block _ _ H1 j c Hj) as (c2 & Hc2 & E2 & R2 & D2).
    destruct (cl_block _ _ H2 j c2 Hc2) as (c3 & Hc3 & E3 & R3 & D3). exists c3. split_and!; [done|congruence..|auto].
  - intros b. by rewrite (cl_view _ _ H2), (cl_view _ _ H1).
  - by rewrite (cl_size _ _ H2), (cl_size _ _ H1).
  - by rewrite (cl_count _ _ H2), (cl_count _ _ H1).
  - by rewrite (cl_len _ _ H2), (cl_len _ _ H1).
Qed.

Lemma cleaned_on s s' i c : cleaned s s' -> on_lru ∅ s i c ->
  exists c', on_lru ∅ s' i c' /\ blocknum c' = blocknum c /\ ref_count c' = ref_count c /\
    (is_dirty c = false -> is_dirty c' = false).
Proof.
  intros H (Hi & Hx & Hc). destruct (cl_block _ _ H i c Hc) as (c' & Hc' & ?). exists c'. split; [|done].
  split; [|done]. unfold lru. by rewrite (cl_lists _ _ H).
Qed.

Lemma cleaned_pins s s' b : binv ∅ s -> cleaned s s' -> pins s' b = pins s b.
Proof.
  intros Hs H. destruct (cached_in ∅ s b) as [[i c]|] eqn:E.
  - apply cached_inv in E as [Hi <-]. rewrite (pins_on s i c) by done.
    destruct (cleaned_on s s' i c H Hi) as (c' & Hi' & <- & <- & _). by eapply pins_on, Hi'; apply H.
  - pose proof (proj1 (cached_none _ _ _) E) as N. rewrite !pins_none; [done|done|].
    intros j cj' (Hj & Hx & Hc'). unfold lru in Hj. rewrite (cl_lists _ _ H) in Hj.
    destruct (slot_block _ _ _ Hs Hj) as [cj Hc]. destruct (cl_block _ _ H j cj Hc) as (c2 & ? & E2 & _).
    assert (cj' = c2) as -> by congruence. rewrite E2. apply (N j). done.
Qed.

Lemma flush_loop_run s es :
  binv ∅ s -> (forall i, i ∈ es -> i ∈ lru s) ->
  exists s', flush_loop es s = Some (0, s') /\ cleaned s s' /\
    forall i c, i ∈ es -> on_lru ∅ s' i c -> is_dirty c = false.
Proof.
  revert s. induction es as [|i es IH]; intros s Hs Hes; cbn [flush_loop].
  { exists s. split; [done|]. split; [by apply cleaned_refl|]. intros i c Hi. by apply not_elem_of_nil in Hi. }
  assert (Hi : i ∈ lru s) by (apply Hes; left). destruct (slot_block _ _ _ Hs Hi) as [c Hc].
  assert (Ho : on_lru ∅ s i c) by (split; [done|split; [apply not_elem_of_empty|done]]).
  assert (exists s1 c1, (if is_dirty c then flush_block i else ret 0) s = Some (0, s1) /\ cleaned s s1 /\
    on_lru ∅ s1 i c1 /\ is_dirty c1 = false) as (s1 & c1 & H1 & C1 & Ho1 & D1).
  { destruct (is_dirty c) eqn:E; [|exists s, c; eauto using cleaned_refl].
    destruct (flush_block_run ∅ s i c Hs Ho) as (d & Hf & Hw). exists (flush_st i c d s), (set_dirty false c).
    split; [done|]. split; [by apply cleaned_flush|]. split; [|done]. apply flush_on; [done|]. by left. }
  run (block_at_run _ _ _ Hc). run H1. cbn [Z.eqb].
  destruct (IH s1) as (s' & H2 & C2 & Hd); [apply C1|..].
  { intros j Hj. unfold lru. rewrite (cl_lists _ _ C1). apply Hes. by right. }
  exists s'. split; [done|]. split; [by eapply cleaned_trans|]. intros j cj Hj Hoj.
  apply elem_of_cons in Hj as [->|Hj]; [|by eauto].
  destruct (cleaned_on s1 s' i c1 C2 Ho1) as (c2 & Ho2 & _ & _ & D2).
  destruct Hoj as (_ & _ & ?), Ho2 as (_ & _ & ?). rewrite <- (D2 D1). congruence.
Qed.

(** After [bcache_flush] the device holds what clients see. *)
Lemma bcache_flush_run s :
  binv ∅ s -> exists s', bcache_flush s = Some (0, s') /\ cleaned s s' /\ (forall b, disk s' b = view s b) /\
    forall i c, on_lru ∅ s' i c -> is_dirty c = false.
Proof.
  intros Hs. unfold bcache_flush. cbn [bind gets].
  destruct (flush_loop_run s (lru s) Hs) as (s' & H & C & Hd); [done|]. exists s'. split; [exact H|].
  assert (Hd' : forall i c, on_lru ∅ s' i c -> is_dirty c = false).
  { intros i c Hi. apply (Hd i); [|done]. destruct Hi as (Hi & _). unfold lru in *. by rewrite (cl_lists _ _ C) in Hi. }
  split_and!; [done| |done]. intros b. rewrite <- (cl_view _ _ C). unfold view, view_in.
  destruct (cached_in ∅ s' b) as [[i c]|] eqn:E; [|done]. apply cached_inv in E as [Hi <-].
  apply (bi_clean _ _ (cl_inv _ _ C) i); [done|]. by apply (Hd' i).
Qed.

(** ** The other calls *)

Lemma bcache_read_run s b :
  binv ∅ s -> in_range s b -> 0 < pins s b \/ room s ->
  exists i c' s', bcache_read_block b s = Some ((0, blk_data c'), s') /\ updated s s' i c' /\
    blocknum c' = b /\ view s b = Some (blk_data c') /\ ref_count c' = pins s b.
Proof.
  intros Hs Hb Hr. destruct (find_or_fill_run s b Hs Hb Hr) as (i & c' & s' & H & Hu & ?).
  exists i, c', s'. split; [|done]. unfold bcache_read_block. run H. by run (block_at_run _ _ _ (up_slot Hu)).
Qed.

Lemma bcache_get_run s b :
  binv ∅ s -> in_range s b -> 0 < pins s b \/ room s -> pins s b < 2 ^ 31 - 1 ->
  exists i c' s', bcache_get_block b s = Some ((0, Some i), s') /\ updated s s' i c' /\
    blocknum c' = b /\ view s b = Some (blk_data c') /\ ref_count c' = pins s b + 1.
Proof.
  intros Hs Hb Hr Hp. destruct (find_or_fill_run s b Hs Hb Hr) as (i & c & s' & H & Hu & E & Hv & Hc).
  destruct (bi_data _ _ (up_inv _ _ _ _ Hu) _ _ (up_slot Hu)) as [Hl Hrc].
  exists i, (set_ref_count (s32 (ref_count c + 1)) c). eexists. split; [|split; [|split; [done|split; [done|]]]].
  - unfold bcache_get_block. run H. by run (edit_block_run i (fun c => set_ref_count (s32 (ref_count c + 1)) c) _ _ (up_slot Hu)).
  - apply (updated_edit _ _ _ c); cbn; try done; [|rewrite s32_small; lia].
    by rewrite <- (up_size _ _ _ _ Hu).
  - cbn. rewrite s32_small; lia.
Qed.

(** A block that is in the cache, found and changed. *)
Lemma find_cached_run s b :
  binv ∅ s -> 0 < pins s b ->
  exists i c s', find_block b s = Some (Some i, s') /\ updated s s' i c /\
    blocknum c = b /\ view s b = Some (blk_data c) /\ ref_count c = pins s b.
Proof.
  intros Hs Hp. destruct (find_block_run s b Hs) as ([i|] & s1 & H1 & M1 & Hr).
  - destruct Hr as (c & Hi & <-). exists i, c, s1. rewrite (view_on s i c), (pins_on s i c) by done.
    split; [done|]. split; [by apply updated_moved|done].
  - rewrite pins_none in Hp by done. lia.
Qed.

Lemma bcache_put_run s b :
  binv ∅ s -> 0 < pins s b ->
  exists i c' s', bcache_put_block b s = Some (0, s') /\ updated s s' i c' /\
    blocknum c' = b /\ view s b = Some (blk_data c') /\ ref_count c' = pins s b - 1.
Proof.
  intros Hs Hp. destruct (find_cached_run s b Hs Hp) as (i & c & s' & H & Hu & E & Hv & Hc).
  destruct (bi_data _ _ (up_inv _ _ _ _ Hu) _ _ (up_slot Hu)) as [Hl Hrc].
  exists i, (set_ref_count (s32 (ref_count c - 1)) c). eexists. split; [|split; [|split; [done|split; [done|]]]].
  - unfold bcache_put_block. run H. run (block_at_run _ _ _ (up_slot Hu)).
    rewrite (proj2 (Z.ltb_lt 0 (ref_count c))) by lia.
    rewrite (bind_some _ _ _ _ _ (eq_refl : assert_ true s' = Some (tt, s'))).
    by run (edit_block_run i (fun c => set_ref_count (s32 (ref_count c - 1)) c) _ _ (up_slot Hu)).
  - apply (updated_edit _ _ _ c); cbn; try done; [|rewrite s32_small; lia].
    by rewrite <- (up_size _ _ _ _ Hu).
  - cbn. rewrite s32_small; lia.
Qed.

Lemma bcache_mark_run s b :
  binv ∅ s ->
  exists r s', bcache_mark_block_dirty b s = Some (r, s') /\
    (r = 0 /\ (exists i c', updated s s' i c' /\ blocknum c' = b /\ is_dirty c' = true /\
       view s b = Some (blk_data c') /\ ref_count c' = pins s b) \/
     r = -1 /\ moved s s' /\ pins s b = 0).
Proof.
  intros Hs. unfold bcache_mark_block_dirty. destruct (find_block_run s b Hs) as ([i|] & s1 & H1 & M1 & Hr); run H1.
  - destruct Hr as (c & Hi & <-). pose proof (updated_moved _ _ _ _ Hs M1 Hi) as Hu.
    destruct (bi_data _ _ (up_inv _ _ _ _ Hu) _ _ (up_slot Hu)) as [Hl Hrc].
    run (edit_block_run i (set_dirty true) _ _ (up_slot Hu)). eexists _, _. split; [done|]. left. split; [done|].
    exists i, (set_dirty true c). rewrite (view_on s i c), (pins_on s i c) by done. split; [|done].
    apply (updated_edit _ _ _ c); try done. cbn. by rewrite <- (up_size _ _ _ _ Hu).
  - eexists _, _. split; [done|]. right. split_and!; [done|done|]. by apply pins_none.
Qed.

Lemma bcache_zero_run s b :
  binv ∅ s -> in_range s b -> 0 < pins s b \/ room s ->
  exists i c' s', bcache_zero_block b s = Some (0, s') /\ updated s s' i c' /\
    blocknum c' = b /\ blk_data c' = replicate (Z.to_nat (block_size s)) 0 /\ is_dirty c' = true /\
    ref_count c' = pins s b.
Proof.
  intros Hs Hb Hroom. unfold bcache_zero_block. pose proof (bi_size _ _ Hs) as Hbs.
  assert (Hz : Z.of_nat (length (replicate (Z.to_nat (block_size s)) 0)) = block_size s) by (rewrite length_replicate; lia).
  destruct (find_block_run s b Hs) as ([i|] & s1 & H1 & M1 & Hr); run H1.
  - destruct Hr as (c & Hi & <-). pose proof (updated_moved _ _ _ _ Hs M1 Hi) as Hu.
    destruct (bi_data _ _ (up_inv _ _ _ _ Hu) _ _ (up_slot Hu)) as [Hl Hrc].
    exists i, (set_dirty true (set_data (replicate (Z.to_nat (block_size s)) 0) c)), (set_block i
      (set_dirty true (set_data (replicate (Z.to_nat (block_size s)) 0) c)) s1).
    rewrite (pins_on s i c) by done. split; [|split; [by apply (updated_edit _ _ _ c)|done]].
    munfold. unfold edit_block, block_at. munfold. rewrite (up_slot Hu), (mv_size _ _ M1). cbn.
    rewrite lookup_insert_eq, set_block_twice. done.
  - assert (H0 : pins s b = 0) by by apply pins_none. destruct Hroom as [?|Hroom]; [lia|].
    assert (Hs1 : binv ∅ s1) by by eapply moved_binv.
    destruct (alloc_block_run s1) as (i & s2 & H2 & Ha); [done|by eapply room_moved|].
    destruct (al_slot _ _ _ Ha) as (c & Hc & Hrc & _). rewrite H0.
    exists i, (set_dirty true (set_data (replicate (Z.to_nat (block_size s)) 0) (set_blocknum b c))), (set_block i
      (set_dirty true (set_data (replicate (Z.to_nat (block_size s)) 0) (set_blocknum b c))) s2).
    split; [|split; [apply (updated_moved_l s s1); [done|done|apply updated_fill]|]]; cbn; try done.
    + munfold. rewrite H2. unfold edit_block, block_at. munfold. rewrite Hc. cbn.
      rewrite lookup_insert_eq, set_block_twice. cbn. rewrite lookup_insert_eq, set_block_twice.
      by rewrite (al_size _ _ _ Ha), (mv_size _ _ M1).
    + intros j cj Hj. apply (Hr j). by apply (moved_on _ s s1).
    + unfold in_range in *. by rewrite (mv_size _ _ M1), (mv_dev _ _ M1).
    + by rewrite (mv_size _ _ M1).
    + lia.
Qed.
End ops.
