(* ===== verification/CacheProps.v ===== *)
(** * What the block cache promises

    A cache behaves as the blocks of its device with reference counts on them,
    for every sequence of calls that respects the documented use, over any
    device whose transfers succeed; the block layer's memory-backed devices
    (and their subdevices) are such devices. *)

From S2P Require Import Prelude Arrays ListH Bio BioSpec Bcache CacheSpec CacheOps.
Local Open Scope lk_scope.

(** ** Devices of the block layer *)

Section bio_dev.
Context `{LOu : ListOps nat unit} `{DL : DriverLaws}.
Context (f d : nat).

Definition bio_bytes : ByteDev bio := {|
  byte_read := fun buf off len => bio_read f d buf off len;
  byte_write := fun buf off len => bio_write f d buf off len;
|}.

(** The bytes of the medium that belong to the device. *)
Definition bio_img (s : bio) : list Z :=
  match resolve s f d, devs s !! d with
  | Some (k, base, _), Some b => default [] (disks s !! k ≫= fun img => range img base (bd_size b))
  | _, _ => []
  end.
Definition bio_good (s : bio) : Prop := exists k base, resolve s f d = Some (k, base, false).

Lemma bio_good_inv s : bio_good s -> exists k base b img,
  resolve s f d = Some (k, base, false) /\ devs s !! d = Some b /\ disks s !! k = Some img /\
  range img base (bd_size b) = Some (bio_img s) /\ bd_size b < 2 ^ 41.
Proof.
  intros (k & base & Hr). destruct (resolve_inv _ _ _ _ _ _ Hr) as (b & img & Hd & Hg & Hk & Hb0 & Hb1).
  destruct (geometry_inv b Hg) as (_ & _ & Hc & Hsz).
  exists k, base, b, img. split_and!; try done; [|lia]. unfold bio_img. rewrite Hr, Hd, Hk. cbn.
  rewrite range_Some by lia. done.
Qed.

Lemma clamp_all b off len n :
  n = bd_size b -> 0 <= off -> 0 < len -> off + len <= n -> clamp b off len = len.
Proof. unfold clamp. lia. Qed.

Lemma bio_bytes_read s buf off len :
  bio_good s -> 0 <= off -> 0 < len < 2 ^ 31 -> off + len <= Z.of_nat (length (bio_img s)) ->
  off + len < 2 ^ 63 -> Z.of_nat (length buf) = len ->
  exists buf', bio_read f d buf off len s = Some ((len, buf'), s) /\ range (bio_img s) off len = Some buf'.
Proof using DL.
  intros Hg Ho Hl Hin Hw Hb. destruct (bio_good_inv s Hg) as (k & base & b & img & Hr & Hd & Hk & Hi & Hsz).
  pose proof (range_length _ _ _ _ Hi) as Hlen. pose proof (clamp_all b off len _ Hlen Ho ltac:(lia) Hin) as Hc.
  destruct (bio_read_run s f d k base false b img buf off len) as (r & buf' & E & H & _);
    rewrite ?Hc; try done; try lia.
  rewrite Hc in H. destruct H as (Hbl & [(-> & data & Hdt & Hbt)|[? _]]); [lia| |done].
  exists buf'. split; [done|]. rewrite (range_range _ _ _ _ _ _ Hi) by lia. rewrite Hdt. f_equal.
  pose proof (range_length _ _ _ _ Hdt). pose proof (range_blit_same _ _ _ _ _ Hbt eq_refl) as E2.
  rewrite take_range in E2 by lia. injection E2 as <-. apply take_ge. lia.
Qed.

Lemma bio_bytes_write s buf off len :
  bio_good s -> 0 <= off -> 0 < len < 2 ^ 31 -> off + len <= Z.of_nat (length (bio_img s)) ->
  off + len < 2 ^ 63 -> Z.of_nat (length buf) = len ->
  exists s', bio_write f d buf off len s = Some (len, s') /\ bio_good s' /\
    blit_at (bio_img s) off buf = Some (bio_img s').
Proof using DL.
  intros Hg Ho Hl Hin Hw Hb. destruct (bio_good_inv s Hg) as (k & base & b & img & Hr & Hd & Hk & Hi & Hsz).
  pose proof (range_length _ _ _ _ Hi) as Hlen. pose proof (clamp_all b off len _ Hlen Ho ltac:(lia) Hin) as Hc.
  destruct (bio_write_run s f d k base false b img buf off len) as (r & img' & E & H & _);
    rewrite ?Hc; try done; try lia.
  rewrite Hc in H. destruct H as (Hil & [(-> & Hbt)|[? _]]); [lia| |done].
  rewrite take_ge in Hbt by lia.
  assert (Hg' : bio_good (set_disk k img' s)) by (exists k, base; by rewrite (resolve_set_disk _ _ _ _ img)).
  exists (set_disk k img' s). split_and!; [done|done|].
  destruct (bio_good_inv _ Hg') as (k' & base' & b' & img2 & Hr' & Hd' & Hk' & Hi' & _).
  rewrite (resolve_set_disk _ _ _ _ img) in Hr' by done. cbn in Hd', Hk'.
  assert (k' = k) as -> by congruence. assert (base' = base) as -> by congruence.
  assert (b' = b) as -> by congruence. rewrite lookup_insert_eq in Hk'. injection Hk' as <-.
  destruct (blit_at_Some (bio_img s) off buf) as (l' & Hl' & Hll); [lia|lia|]. rewrite Hl'. f_equal.
  pose proof (range_length _ _ _ _ Hi') as Hlen'. apply list_eq. intros i.
  destruct (decide (i < length l')%nat); [|by rewrite !lookup_ge_None_2 by lia].
  rewrite (lookup_range _ _ _ _ _ Hi') by lia.
  rewrite (blit_at_lookup _ _ _ _ _ Hl'), (blit_at_lookup _ _ _ _ _ Hbt).
  destruct (resolve_inv _ _ _ _ _ _ Hr) as (_ & _ & _ & _ & _ & Hb0 & _).
  case_decide; case_decide; try lia; [f_equal; lia|]. by rewrite (lookup_range _ _ _ _ _ Hi) by lia.
Qed.

Definition bio_bytes_laws : @ByteDevLaws bio bio_bytes :=
  @Build_ByteDevLaws bio bio_bytes bio_img bio_good bio_bytes_read bio_bytes_write.
End bio_dev.

(** ** Calls and their legal use *)

Inductive bc_op : Type :=
| Op_read (b : Z) | Op_get (b : Z) | Op_put (b : Z) | Op_dirty (b : Z) | Op_zero (b : Z) | Op_flush
| Op_store (i : nat) (data : list Z).

(** The return code, the data read and the pointer returned. *)
Record bc_reply : Type := Reply { rc : Z; rdata : list Z; rptr : option nat }.

Section cache.
Context {D : Type} `{LO : ListOps nat bc_list} {LL : ListLaws nat bc_list}.
Context `{BD : !ByteDev D} {BL : ByteDevLaws D}.
Implicit Types (s : bcache D) (c : bcache_block) (i j : nat) (b : Z).

Definition run_op (op : bc_op) : M (bcache D) bc_reply :=
  match op with
  | Op_read b => let* (r, data) := bcache_read_block b in ret (Reply r data None)
  | Op_get b => let* (r, p) := bcache_get_block b in ret (Reply r [] p)
  | Op_put b => let* r := bcache_put_block b in ret (Reply r [] None)
  | Op_dirty b => let* r := bcache_mark_block_dirty b in ret (Reply r [] None)
  | Op_zero b => let* r := bcache_zero_block b in ret (Reply r [] None)
  | Op_flush => let* r := bcache_flush in ret (Reply r [] None)
  | Op_store i data => client_store i data ;;; ret (Reply 0 [] None)
  end.

(** A block must lie on the device, a slot must be available for it, and a
    reference is returned only by who holds one; a client stores only into a
    block it holds and has marked dirty. *)
Definition available s b : Prop := in_range s b /\ (0 < pins s b \/ room s).
Definition legal (op : bc_op) s : Prop :=
  match op with
  | Op_read b | Op_zero b => available s b
  | Op_get b => available s b /\ pins s b < 2 ^ 31 - 1
  | Op_put b => 0 < pins s b
  | Op_dirty _ | Op_flush => True
  | Op_store i data => exists c, on_lru ∅ s i c /\ 0 < ref_count c /\ is_dirty c = true /\
      Z.of_nat (length data) = block_size s
  end.

(** ** The abstract cache: blocks and reference counts *)

(** Slot [i] holds block [b]. *)
Definition points s i b : Prop := exists c, on_lru ∅ s i c /\ blocknum c = b.

(** What changes: the block a call writes, and the count it changes. *)
Definition writes_to s (op : bc_op) b (data : list Z) : Prop :=
  match op with
  | Op_zero b' => b = b' /\ data = replicate (Z.to_nat (block_size s)) 0
  | Op_store i data' => points s i b /\ data = data'
  | _ => False
  end.
Definition pin_change (op : bc_op) b : Z :=
  match op with
  | Op_get b' => if decide (b = b') then 1 else 0
  | Op_put b' => if decide (b = b') then -1 else 0
  | _ => 0
  end.

(** What a call answers. *)
Definition answers (op : bc_op) s (r : bc_reply) s' : Prop :=
  match op with
  | Op_read b => rc r = 0 /\ view s b = Some (rdata r)
  | Op_get b => rc r = 0 /\ exists i, rptr r = Some i /\ points s' i b
  | Op_dirty b => rc r = 0 \/ rc r = -1 /\ pins s b = 0
  | Op_flush => rc r = 0 /\ (forall b, disk s' b = view s b) /\
      ((forall b, pins s b = 0) -> bcache_destroy s' = Some ([], s'))
  | _ => rc r = 0
  end.

Record refines (op : bc_op) s (r : bc_reply) s' : Prop := {
  rf_answer : answers op s r s';
  rf_write : forall b data, writes_to s op b data -> view s' b = Some data;
  rf_view : forall b, (forall data, ~ writes_to s op b data) -> view s' b = view s b;
  rf_pins : forall b, pins s' b = pins s b + pin_change op b;
  rf_ptr : forall i b, points s i b -> 0 < pins s b -> points s' i b;
  rf_size : block_size s' = block_size s /\ length (dev_img (bc_dev s')) = length (dev_img (bc_dev s));
}.

Lemma refines_updated op s r s' i c' :
  binv ∅ s -> updated s s' i c' -> answers op s r s' ->
  (forall b data, writes_to s op b data -> b = blocknum c' /\ data = blk_data c') ->
  (view s (blocknum c') = Some (blk_data c') \/ exists data, writes_to s op (blocknum c') data) ->
  ref_count c' = pins s (blocknum c') + pin_change op (blocknum c') ->
  (forall b, b <> blocknum c' -> pin_change op b = 0) ->
  refines op s r s'.
Proof.
  intros Hs Hu Ha Hw Hv Hp Hp0. split; [done|..].
  - intros b data [-> ->]%Hw. by eapply up_view_self.
  - intros b Hb. destruct (decide (b = blocknum c')) as [->|Hne]; [|by eapply up_view].
    rewrite (up_view_self Hu). destruct Hv as [Hv|[data Hd]]; [done|]. by destruct (Hb data).
  - intros b. destruct (decide (b = blocknum c')) as [->|Hne]; [by rewrite (up_pins_self Hu)|].
    rewrite (up_pins Hs Hu), Hp0 by done. lia.
  - intros j b (c & Hj & <-) Hpos. rewrite (pins_on s j c) in Hpos by done. by eapply up_pinned.
  - split; apply Hu.
Qed.

Lemma refines_same op s r s' :
  binv ∅ s -> (forall b, view s' b = view s b) -> (forall b, pins s' b = pins s b) ->
  (forall i b, points s i b -> points s' i b) -> block_size s' = block_size s ->
  length (dev_img (bc_dev s')) = length (dev_img (bc_dev s)) -> answers op s r s' ->
  (forall b data, ~ writes_to s op b data) -> (forall b, pin_change op b = 0) -> refines op s r s'.
Proof.
  intros Hs Hv Hp Hi Hb Hl Ha Hw H0. split; try done.
  - intros b data Hd. by destruct (Hw b data).
  - intros b. rewrite Hp, H0. lia.
  - auto.
Qed.

Lemma moved_pins s s' b : binv ∅ s -> moved s s' -> pins s' b = pins s b.
Proof.
  intros Hs Hm. unfold pins. rewrite (cached_ext ∅ ∅ s s' b); [done|done|by eapply moved_binv|].
  intros. symmetry. by apply moved_on.
Qed.

(** Destroying a clean cache nobody uses. *)
Lemma destroy_loop_run s es :
  (forall i, i ∈ es -> exists c, bc_blocks s !! i = Some c /\ ref_count c = 0 /\ is_dirty c = false) ->
  destroy_loop es s = Some ([], s).
Proof.
  induction es as [|i es IH]; intros H; cbn [destroy_loop]; [done|].
  destruct (H i) as (c & Hc & Hr & Hd); [left|]. run (block_at_run _ _ _ Hc). rewrite Hr. cbn [Z.eqb].
  rewrite (bind_some (assert_ true) _ s tt s eq_refl). rewrite (bind_some _ _ s [] s), Hd; [done|].
  apply IH. intros j Hj. apply H. by right.
Qed.

Lemma bcache_destroy_run s :
  binv ∅ s -> (forall b, pins s b = 0) -> (forall i c, on_lru ∅ s i c -> is_dirty c = false) ->
  bcache_destroy s = Some ([], s).
Proof.
  intros Hs Hp Hd. unfold bcache_destroy. cbn [bind gets]. apply destroy_loop_run. intros i Hi.
  apply elem_of_seq in Hi as [_ Hi]. destruct (bi_block _ _ Hs i) as [c Hc]; [done|]. exists c. split; [done|].
  apply (bi_slots _ _ Hs), in_list_spec in Hi as [[|] Hh]; [..|apply Hs].
  - destruct (bi_free _ _ Hs i c Hh Hc). done.
  - assert (Ho : on_lru ∅ s i c) by (split; [done|split; [apply not_elem_of_empty|done]]).
    split; [|by eapply Hd]. by rewrite <- (pins_on s i c), Hp.
Qed.

(** ** Every legal call *)

Lemma run_get_put_refines op s b :
  binv ∅ s -> legal op s -> op = Op_get b \/ op = Op_put b ->
  exists r s', run_op op s = Some (r, s') /\ binv ∅ s' /\ refines op s r s'.
Proof.
  intros Hs Hl [->| ->].
  - destruct Hl as [[Hb Hr] Hp]. destruct (bcache_get_run s b Hs Hb Hr Hp) as (i & c & s' & H & Hu & <- & Hv & Hc).
    eexists _, s'. split; [cbn [run_op]; by run H|]. split; [apply Hu|]. eapply refines_updated; try done; cbn.
    + split; [done|]. exists i. split; [done|]. exists c. split; [by eapply up_self|done].
    + by left.
    + by rewrite decide_True.
    + intros b' Hb'. by rewrite decide_False.
  - destruct (bcache_put_run s b Hs Hl) as (i & c & s' & H & Hu & <- & Hv & Hc).
    eexists _, s'. split; [cbn [run_op]; by run H|]. split; [apply Hu|]. eapply refines_updated; try done; cbn.
    + by left.
    + rewrite decide_True by done. lia.
    + intros b' Hb'. by rewrite decide_False.
Qed.

Lemma run_dirty_refines s b :
  binv ∅ s -> exists r s', run_op (Op_dirty b) s = Some (r, s') /\ binv ∅ s' /\ refines (Op_dirty b) s r s'.
Proof.
  intros Hs. destruct (bcache_mark_run s b Hs) as (r & s' & H & Hr). cbn [run_op]. run H. eexists _, s'.
  split; [done|]. destruct Hr as [(-> & i & c & Hu & <- & Hd & Hv & Hc)|(-> & Hm & Hp)].
  - split; [apply Hu|]. eapply refines_updated; try done; cbn.
    + by left.
    + by left.
    + lia.
  - split; [by eapply moved_binv|]. apply refines_same; try done.
    + intros b'. by apply moved_view.
    + intros b'. by apply moved_pins.
    + intros i b' (c & Hi & Hc). exists c. split; [|done]. by apply (moved_on _ s s').
    + apply Hm.
    + by rewrite (mv_dev _ _ Hm).
    + by right.
    + by intros b' data [].
Qed.

Lemma run_store_refines s i data :
  binv ∅ s -> legal (Op_store i data) s ->
  exists r s', run_op (Op_store i data) s = Some (r, s') /\ binv ∅ s' /\ refines (Op_store i data) s r s'.
Proof.
  intros Hs (c & Hi & Hr & Hd & Hl). pose proof Hi as (_ & _ & Hc). destruct (bi_data _ _ Hs _ _ Hc) as [_ Hrc].
  assert (Hu : updated s (set_block i (set_data data c) s) i (set_data data c)).
  { apply (updated_edit _ _ _ c); cbn; try done; [|by rewrite Hd]. apply updated_moved; [done| |done].
    by split; try apply Hs. }
  cbn [run_op]. unfold client_store. run (edit_block_run i (set_data data) s c Hc). eexists _, _. split; [done|].
  split; [apply Hu|]. eapply refines_updated; try done; cbn.
  - intros b data' [(c' & (_ & _ & Hc') & <-) ->]. assert (c' = c) as -> by congruence. done.
  - right. exists data. split; [by exists c|done].
  - rewrite (pins_on s i c) by done. lia.
Qed.

Lemma run_op_refines op s :
  binv ∅ s -> legal op s ->
  exists r s', run_op op s = Some (r, s') /\ binv ∅ s' /\ refines op s r s'.
Proof.
  intros Hs Hl. destruct op as [b|b|b|b|b| |i data]; try by eauto using run_get_put_refines.
  - destruct Hl as [Hb Hr]. destruct (bcache_read_run s b Hs Hb Hr) as (i & c & s' & H & Hu & <- & Hv & Hc).
    eexists _, s'. split; [cbn [run_op]; by run H|]. split; [apply Hu|]. eapply refines_updated; try done; cbn.
    + by left.
    + lia.
  - by apply run_dirty_refines.
  - destruct Hl as [Hb Hr]. destruct (bcache_zero_run s b Hs Hb Hr) as (i & c & s' & H & Hu & <- & Hz & Hd & Hc).
    eexists _, s'. split; [cbn [run_op]; by run H|]. split; [apply Hu|]. eapply refines_updated; try done; cbn.
    + by intros b' data [-> ->].
    + right. by eexists.
    + lia.
  - destruct (bcache_flush_run s Hs) as (s' & H & C & Hd & Hcl). eexists _, s'. split; [cbn [run_op]; by run H|].
    split; [apply C|]. apply refines_same; try done; try apply C.
    + intros b. by apply cleaned_pins.
    + intros i b (c & Hi & <-). destruct (cleaned_on s s' i c C Hi) as (c' & ? & ? & _). by exists c'.
    + cbn. split_and!; [done|done|]. intros Hp. apply bcache_destroy_run; [apply C| |done].
      intros b. by rewrite (cleaned_pins s).
    + by intros b data [].
  - by apply run_store_refines.
Qed.

(** ** Creation *)

(** The first [k] slots are on the free list. *)
Record fresh (k : nat) s : Prop := {
  fr_links : links_ok (bc_lists s);
  fr_slots : forall i, (i < k)%nat <-> list_in_list (bc_lists s) i = true;
  fr_lru : lru s = [];
  fr_some : forall i, (i < k)%nat -> exists c, bc_blocks s !! i = Some c;
  fr_block : forall i c, bc_blocks s !! i = Some c ->
    Z.of_nat (length (blk_data c)) = block_size s /\ ref_count c = 0 /\ is_dirty c = false;
}.

Lemma create_loop_run raw k s :
  fresh k s -> Forall (fun p => Z.of_nat (length (snd p)) = block_size s) raw ->
  exists s', create_loop raw k s = Some (tt, s') /\ fresh (k + length raw) s' /\
    bc_dev s' = bc_dev s /\ block_size s' = block_size s /\ bc_count s' = bc_count s.
Proof.
  revert k s. induction raw as [|[n data] raw IH]; intros k s Hs Hraw; cbn [create_loop].
  { exists s. rewrite Nat.add_0_r. done. }
  apply Forall_cons in Hraw as [Hdata Hraw].
  set (c0 := {| blocknum := n; ref_count := 0; is_dirty := false; blk_data := data |}).
  set (s1 := set_block k c0 s). rewrite (bind_some (modify (set_block k c0)) _ s tt s1 eq_refl).
  assert (Hk : list_in_list (bc_lists s1) k = false).
  { destruct (list_in_list (bc_lists s1) k) eqn:E; [|done]. apply (fr_slots _ _ Hs) in E. lia. }
  run (add_to_run list_add_head Free k s1 Hk).
  pose proof (fr_links _ _ Hs) as Hl.
  destruct (IH (S k) (set_bc_lists (list_add_head Free k) s1)) as (s' & H & Hf & E1 & E2 & E3); [|done|].
  - split; cbn.
    + by apply add_head_ok.
    + intros i. destruct (decide (i = k)) as [->|Hne].
      * split; [|lia]. intros _. apply (in_contents _ Free); [by apply add_head_ok|].
        rewrite add_head_contents, decide_True by done. left.
      * rewrite add_head_in_list_ne by done. rewrite <- (fr_slots _ _ Hs). lia.
    + unfold lru. cbn. rewrite add_head_contents, decide_False by done. apply (fr_lru _ _ Hs).
    + intros i Hi. destruct (decide (i = k)) as [->|Hne]; [rewrite lookup_insert_eq; eauto|].
      rewrite lookup_insert_ne by done. apply (fr_some _ _ Hs). lia.
    + intros i c [[<- <-]|[_ Hi]]%lookup_insert_Some; [done|by eapply fr_block].
  - exists s'. split; [done|]. split; [|done]. by replace (k + length _)%nat with (S k + length raw)%nat by (cbn; lia).
Qed.

Lemma create_fresh lists (dev : D) bs raw :
  links_ok lists -> (forall h, contents lists h = []) ->
  Forall (fun p => Z.of_nat (length (snd p)) = bs) raw ->
  exists s, bcache_create lists dev bs raw = Some s /\ fresh (length raw) s /\
    bc_dev s = dev /\ block_size s = bs /\ bc_count s = length raw.
Proof.
  intros Hl Hc Hraw. unfold bcache_create. set (s0 := Build_bcache _ _ _ _ _ _).
  destruct (create_loop_run raw 0 s0) as (s & -> & Hf & ?); [|done|by exists s].
  split; cbn; try done; [|apply Hc|lia]. intros i. split; [lia|]. intros [h Hh]%in_list_spec; [|done].
  rewrite Hc in Hh. by apply not_elem_of_nil in Hh.
Qed.

(** The first slot [alloc_block] takes from a new cache. *)
Lemma fresh_free k s : fresh (S k) s -> exists i es c,
  contents (bc_lists s) Free = i :: es /\ bc_blocks s !! i = Some c /\
  list_in_list (list_delete i (bc_lists s)) i = false /\
  list_in_list (list_add_tail Lru i (list_delete i (bc_lists s))) i = true.
Proof.
  intros Hf. pose proof (fr_links _ _ Hf) as Hl.
  assert (H0 : list_in_list (bc_lists s) 0%nat = true) by (apply (fr_slots _ _ Hf); lia).
  apply in_list_spec in H0 as [[|] H0]; [|rewrite (fr_lru _ _ Hf : contents _ _ = []) in H0; by apply not_elem_of_nil in H0|done].
  destruct (contents (bc_lists s) Free) as [|i es] eqn:Ef; [by apply not_elem_of_nil in H0|].
  assert (Hin : list_in_list (bc_lists s) i = true) by (apply (in_contents _ Free); [done|rewrite Ef; left]).
  destruct (fr_some _ _ Hf i) as [c Hc]; [by apply (fr_slots _ _ Hf)|]. exists i, es, c.
  assert (Hd : list_in_list (list_delete i (bc_lists s)) i = false) by by apply delete_not_in.
  split_and!; try done. apply (in_contents _ Lru); [eauto with lk|].
  rewrite add_tail_contents, decide_True by eauto with lk. set_solver.
Qed.

Lemma bcache_create_run lists dev bs raw :
  links_ok lists -> (forall h, contents lists h = []) -> dev_good dev ->
  0 < bs < 2 ^ 31 -> Z.of_nat (length (dev_img dev)) < 2 ^ 63 ->
  Forall (fun p => Z.of_nat (length (snd p)) = bs) raw ->
  exists s, bcache_create lists dev bs raw = Some s /\ binv ∅ s /\ bc_dev s = dev /\ block_size s = bs /\
    (forall b, view s b = disk s b) /\ (forall b, pins s b = 0).
Proof.
  intros Hl Hc Hg Hbs Himg Hraw. destruct (create_fresh lists dev bs raw) as (s & Es & Hf & E1 & E2 & E3); try done.
  assert (Hno : forall i c, ~ on_lru ∅ s i c).
  { intros i c (Hi & _). rewrite (fr_lru _ _ Hf) in Hi. by apply not_elem_of_nil in Hi. }
  assert (Hn : forall b, cached_in ∅ s b = None).
  { intros b. apply cached_none. intros i c Hi. by apply Hno in Hi. }
  exists s. split; [done|]. split.
  - split; rewrite ?E1, ?E2, ?E3; try done; try apply Hf.
    + intros i c Hi. destruct (fr_block _ _ Hf i c Hi) as (? & -> & _). rewrite <- E2. done.
    + intros i c _ Hi. by destruct (fr_block _ _ Hf i c Hi) as (_ & -> & ->).
    + intros i j ci cj Hi. by apply Hno in Hi.
    + intros i c Hi. by apply Hno in Hi.
    + intros i c Hi. by apply Hno in Hi.
  - split_and!; try done; intros b; unfold view, view_in, pins; by rewrite Hn.
Qed.

(** ** The claims *)

(** What the caller of [bcache_create] provides. *)
Record creation (lists : links) (dev : D) (bs : Z) (raw : list (Z * list Z)) : Prop := {
  cr_links : links_ok lists;
  cr_empty : forall h, contents lists h = [];
  cr_dev : dev_good dev;
  cr_size : 0 < bs < 2 ^ 31;
  cr_img : Z.of_nat (length (dev_img dev)) < 2 ^ 63;
  cr_raw : Forall (fun p => Z.of_nat (length (snd p)) = bs) raw;
}.

(** The states of a cache in legal use. *)
Inductive cache_reach : bcache D -> Prop :=
| reach_create lists dev bs raw s :
    creation lists dev bs raw -> bcache_create lists dev bs raw = Some s -> cache_reach s
| reach_step op r s s' :
    cache_reach s -> legal op s -> run_op op s = Some (r, s') -> cache_reach s'.

Lemma create_ok lists dev bs raw : creation lists dev bs raw ->
  exists s, bcache_create lists dev bs raw = Some s /\ binv ∅ s /\ bc_dev s = dev /\ block_size s = bs /\
    (forall b, view s b = disk s b) /\ (forall b, pins s b = 0).
Proof. intros [? ? ? ? ? ?]. by apply bcache_create_run. Qed.

Lemma reach_binv s : cache_reach s -> binv ∅ s.
Proof.
  induction 1 as [lists dev bs raw s Hc Hs|op r s s' _ IH Hl Hs].
  - destruct (create_ok _ _ _ _ Hc) as (s1 & E & ? & _). congruence.
  - destruct (run_op_refines op s IH Hl) as (r1 & s1 & E & ? & _). congruence.
Qed.
End cache.

(** C37: [bcache_create] returns a well-formed cache that shows the device and has
    no references; from every state of a cache in legal use, every legal call
    returns without a failed assertion, without an access outside a block and
    in a well-formed cache: each slot on exactly one list, cached blocks
    distinct, inside the device and, when clean, equal to it. *)
Theorem bcache_wf {D} `{LO : ListOps nat bc_list} {LL : ListLaws nat bc_list}
    `{BD : !ByteDev D} {BL : ByteDevLaws D} (lists : links) (dev : D) bs raw :
  creation lists dev bs raw ->
  (exists s, bcache_create lists dev bs raw = Some s /\ binv ∅ s /\
     (forall b, view s b = disk s b) /\ (forall b, pins s b = 0)) /\
  (forall (s : bcache D) op, cache_reach s -> legal op s ->
     exists r s', run_op op s = Some (r, s') /\ binv ∅ s').
Proof.
  intros Hc. split.
  - destruct (create_ok _ _ _ _ Hc) as (s & ? & ? & _ & _ & ? & ?). eauto.
  - intros s op Hr Hl. destruct (run_op_refines op s (reach_binv s Hr) Hl) as (r & s' & ? & ? & _). eauto.
Qed.

(** C13: A cache in legal use refines the blocks of its device with reference
    counts: a read returns the current block, [bcache_get_block] a pointer that
    stays valid while the reference is held, only zeroing and stores through a
    held pointer change a block whatever is evicted and written back meanwhile,
    and after [bcache_flush] the device holds every block and destroying an
    unused cache loses nothing. *)
Theorem bcache_refines {D} `{LO : ListOps nat bc_list} {LL : ListLaws nat bc_list}
    `{BD : !ByteDev D} {BL : ByteDevLaws D} (s : bcache D) op :
  cache_reach s -> legal op s -> exists r s', run_op op s = Some (r, s') /\ refines op s r s'.
Proof.
  intros Hr Hl. destruct (run_op_refines op s (reach_binv s Hr) Hl) as (r & s' & ? & _ & ?). eauto.
Qed.

(** When the device reports a read error, the error path of
    [find_or_fill_block] puts the slot on the free list although it is still
    on the list of cached blocks, which corrupts both lists. *)
Theorem bcache_read_error {D} `{LO : ListOps nat bc_list} {LL : ListLaws nat bc_list} `{BD : !ByteDev D}
    (lists : links) (dev : D) bs raw b s :
  links_ok lists -> (forall h, contents lists h = []) -> raw <> [] ->
  Forall (fun p => Z.of_nat (length (snd p)) = bs) raw ->
  (forall buf, exists r buf' dev',
     byte_read buf (block_off b bs) bs dev = Some ((r, buf'), dev') /\ s32 r < 0) ->
  bcache_create lists dev bs raw = Some s -> bcache_read_block b s = None.
Proof.
  intros Hl He Hne Hraw Herr Es.
  destruct (create_fresh lists dev bs raw) as (s1 & Es1 & Hf & E1 & E2 & _); try done.
  assert (s1 = s) as -> by congruence. destruct raw as [|p raw]; [done|].
  destruct (fresh_free _ _ Hf) as (i & es & c & Efree & Hc & Hd & Ha).
  destruct (Herr (blk_data c)) as (r & buf' & dev' & Hrd & Hr).
  pose proof (fr_lru _ _ Hf) as Elru. unfold lru in Elru.
  unfold bcache_read_block, find_or_fill_block, find_block, alloc_block, list_remove_head.
  munfold. rewrite Elru. cbn [find_loop]. munfold. cbn [set_bc_stats bc_lists]. rewrite Efree.
  unfold edit_block, block_at, add_to, on_dev. munfold. cbn. rewrite Hc. cbn. rewrite Hd. cbn.
  rewrite !lookup_insert_eq. cbn. rewrite !lookup_insert_eq. cbn. rewrite E1, E2, Hrd. cbn.
  rewrite !lookup_insert_eq. cbn. rewrite (proj2 (Z.ltb_lt _ _) Hr). cbn. by rewrite Ha.
Qed.

(** ** Witnesses: two slots over a memory device of four blocks *)

Section witnesses.
#[local] Existing Instance ref_ops.
#[local] Existing Instance ref_laws.

Definition ram_dev : bdev :=
  {| bd_ref := 1; bd_name := "ram"; bd_size := 2048; bd_block_size := 512; bd_block_count := 4; bd_ops := Mem_ops 0 |}.
Definition ram_bio : bio :=
  {| devs := {[0%nat := ram_dev]}; bdevs := ref_empty; lock := false; disks := {[0%nat := replicate 2048 7]} |}.
Definition ram_raw : list (Z * list Z) := [(5, replicate 512 1); (9, replicate 512 2)].
#[local] Instance ram_bytes : ByteDev bio := bio_bytes 1 0.
#[local] Instance ram_bytes_laws : ByteDevLaws bio := bio_bytes_laws 1 0.

Definition ram_lists : @links nat bc_list _ := ref_empty.
Definition ram_none : bcache bio :=
  {| bc_dev := ram_bio; block_size := 512; bc_count := 0;
     bc_stats := {| hits := 0; depth := 0; misses := 0; reads := 0; writes := 0 |};
     bc_lists := ram_lists; bc_blocks := ∅ |}.
Definition ram_cache : bcache bio := default ram_none (bcache_create ram_lists ram_bio 512 ram_raw).

Lemma ram_creation : creation ram_lists ram_bio 512 ram_raw.
Proof.
  split; [apply ref_empty_ok|reflexivity|exists 0%nat, 0; vm_compute; reflexivity|lia|vm_compute; reflexivity|].
  repeat constructor.
Qed.

Lemma ram_create_eq : bcache_create ram_lists ram_bio 512 ram_raw = Some ram_cache.
Proof. reflexivity. Qed.

Lemma ram_legal : legal (Op_read 1) ram_cache.
Proof.
  split; [split; [lia|vm_compute; discriminate]|]. right. exists 0%nat. eexists.
  split; [apply Nat.ltb_lt; vm_compute; reflexivity|]. split; [vm_compute; reflexivity|reflexivity].
Qed.

Lemma bcache_wf_witness : exists s, bcache_create ram_lists ram_bio 512 ram_raw = Some s /\ pins s 1 = 0.
Proof.
  destruct (bcache_wf ram_lists ram_bio 512 ram_raw ram_creation) as [(s & E & _ & _ & H) _].
  exists s. split; [exact E|apply H].
Defined.

Lemma bcache_refines_witness : exists r s', run_op (Op_read 1) ram_cache = Some (r, s') /\ rc r = 0.
Proof.
  destruct (bcache_refines ram_cache (Op_read 1) (reach_create _ _ _ _ _ ram_creation ram_create_eq) ram_legal)
    as (r & s' & E & H). exists r, s'. split; [exact E|]. exact (proj1 (rf_answer _ _ _ _ H)).
Defined.

(** A device all of whose reads fail. *)
Definition dead_dev : ByteDev unit := {|
  byte_read := fun buf _ _ => ret (-1, buf);
  byte_write := fun _ _ len => ret len;
|}.

Lemma bcache_read_error_witness :
  exists s, @bcache_create unit _ ram_lists tt 512 ram_raw = Some s /\
    @bcache_read_block unit _ dead_dev 1 s = None.
Proof.
  destruct (create_fresh ram_lists tt 512 ram_raw) as (s & E & _); [apply ref_empty_ok|reflexivity|repeat constructor|].
  exists s. split; [exact E|].
  apply (@bcache_read_error unit _ _ dead_dev ram_lists tt 512 ram_raw 1 s);
    [apply ref_empty_ok|reflexivity|discriminate|repeat constructor| |exact E].
  intros buf. exists (-1), buf, tt. split; reflexivity.
Defined.
End witnesses.
