(* ===== verification/FsPath.v ===== *)
(** * Path normalisation: [fs_normalize_path] of lib/fs/fs.c

    The routine is a state machine that rewrites a path in place, reading at
    [pos] and writing at [outpos].  [norm_step] is one turn of its loop over
    byte memory, [fs_normalize_path] the whole routine.  Every turn consumes a
    character or moves on to a later state for the same character, at most four
    times, so five turns per byte of memory and four more are enough.

    [pstep] is the same machine on lists, with the text already emitted and the
    text still to be read as its state; the refinement theorem of FsProps
    goes through it, and lib/fs itself (Fs) uses it for its calls. *)

From S2P Require Import Prelude Mem.
Local Open Scope lk_scope.

Definition slash : Z := 47.
Definition dot : Z := 46.

Inductive nstate : Type :=
| INITIAL | FIELD_START | IN_FIELD | SEP | SEEN_SEP | DOT | SEEN_DOT | DOTDOT | SEEN_DOTDOT.

#[export] Instance nstate_eq : EqDecision nstate.
Proof. solve_decision. Defined.

(** The loop variables; the last is [done]. *)
Definition nvars : Type := nstate * Z * Z * bool.

(** [while (outpos > 0) { if (path[outpos - 1] == '/') break; outpos--; }] *)
Fixpoint back_field (fuel : nat) (path outpos : Z) : M mem Z :=
  if 0 <? outpos then
    match fuel with
    | O => panic
    | S fuel' =>
        let* c := ld (path + (outpos - 1)) in
        if c =? slash then ret outpos else back_field fuel' path (outpos - 1)
    end
  else ret outpos.

Definition norm_step (path : Z) (v : nvars) : M mem nvars :=
  let '(state, pos, outpos, done) := v in
  let* c := ld (path + pos) in
  match state with
  | INITIAL =>
      if c =? slash then ret (SEP, pos, outpos, done)
      else if c =? dot then ret (DOT, pos, outpos, done)
      else ret (FIELD_START, pos, outpos, done)
  | FIELD_START =>
      if c =? dot then ret (DOT, pos, outpos, done)
      else if c =? 0 then ret (FIELD_START, pos, outpos, true)
      else ret (IN_FIELD, pos, outpos, done)
  | IN_FIELD =>
      if c =? slash then ret (SEP, pos, outpos, done)
      else if c =? 0 then ret (IN_FIELD, pos, outpos, true)
      else st (path + outpos) c ;;; ret (IN_FIELD, pos + 1, outpos + 1, done)
  | SEP => st (path + outpos) slash ;;; ret (SEEN_SEP, pos + 1, outpos + 1, done)
  | SEEN_SEP =>
      if c =? slash then ret (SEEN_SEP, pos + 1, outpos, done)
      else if c =? 0 then ret (SEEN_SEP, pos, outpos, true)
      else ret (FIELD_START, pos, outpos, done)
  | DOT => ret (SEEN_DOT, pos + 1, outpos, done)
  | SEEN_DOT =>
      if c =? dot then ret (DOTDOT, pos, outpos, done)
      else if c =? slash then ret (SEEN_SEP, pos + 1, outpos, done)
      else if c =? 0 then ret (SEEN_DOT, pos, outpos, true)
      else st (path + outpos) dot ;;; ret (IN_FIELD, pos, outpos + 1, done)
  | DOTDOT => ret (SEEN_DOTDOT, pos + 1, outpos, done)
  | SEEN_DOTDOT =>
      if (c =? slash) || (c =? 0) then
        let* outpos :=
          (if 0 <? outpos then back_field (Z.to_nat outpos) path (outpos - 1) else ret outpos) in
        ret (SEEN_SEP, pos + 1, outpos, if c =? 0 then true else done)
      else
        st (path + outpos) dot ;;;
        st (path + (outpos + 1)) dot ;;;
        ret (IN_FIELD, pos, outpos + 2, done)
  end.

Fixpoint norm_loop (fuel : nat) (path : Z) (v : nvars) : M mem Z :=
  let '(_, _, outpos, done) := v in
  if (done : bool) then ret outpos
  else
    match fuel with
    | O => panic
    | S fuel' => let* v := norm_step path v in norm_loop fuel' path v
    end.

Definition fs_normalize_path (path : Z) : M mem unit :=
  let* n := gets size in
  let* outpos := norm_loop (5 * n + 5) path (INITIAL, 0, 0, false) in
  let* outpos :=
    (if 0 <? outpos then
       let* c := ld (path + (outpos - 1)) in
       if c =? slash then ret (outpos - 1) else ret outpos
     else ret outpos) in
  st (path + outpos) 0.

(** ** The machine on lists *)

(** The text without its last field: what [back_field] leaves. *)
Fixpoint back_list (rout : list Z) : list Z :=
  match rout with
  | [] => []
  | c :: rout' => if c =? slash then rout else back_list rout'
  end.
Definition back (out : list Z) : list Z := reverse (back_list (tail (reverse out))).

(** The next state, or the text at the end.  [out] is what has been emitted,
    [rest] the input from [pos] on, without its NUL. *)
Definition pstep (x : nstate * list Z * list Z) : (nstate * list Z * list Z) + list Z :=
  let '(state, out, rest) := x in
  let c := match rest with [] => 0 | c :: _ => c end in
  let next := tail rest in
  match state with
  | INITIAL =>
      if c =? slash then inl (SEP, out, rest)
      else if c =? dot then inl (DOT, out, rest)
      else inl (FIELD_START, out, rest)
  | FIELD_START =>
      if c =? dot then inl (DOT, out, rest)
      else if c =? 0 then inr out
      else inl (IN_FIELD, out, rest)
  | IN_FIELD =>
      if c =? slash then inl (SEP, out, rest)
      else if c =? 0 then inr out
      else inl (IN_FIELD, out ++ [c], next)
  | SEP => inl (SEEN_SEP, out ++ [slash], next)
  | SEEN_SEP =>
      if c =? slash then inl (SEEN_SEP, out, next)
      else if c =? 0 then inr out
      else inl (FIELD_START, out, rest)
  | DOT => inl (SEEN_DOT, out, next)
  | SEEN_DOT =>
      if c =? dot then inl (DOTDOT, out, rest)
      else if c =? slash then inl (SEEN_SEP, out, next)
      else if c =? 0 then inr out
      else inl (IN_FIELD, out ++ [dot], rest)
  | DOTDOT => inl (SEEN_DOTDOT, out, next)
  | SEEN_DOTDOT =>
      if (c =? slash) || (c =? 0) then
        if c =? 0 then inr (back out) else inl (SEEN_SEP, back out, next)
      else inl (IN_FIELD, out ++ [dot; dot], rest)
  end.

Fixpoint ploop (fuel : nat) (x : nstate * list Z * list Z) : option (list Z) :=
  match pstep x with
  | inr out => Some out
  | inl y => match fuel with O => None | S fuel' => ploop fuel' y end
  end.

(** Without a trailing slash. *)
Definition strip (out : list Z) : list Z :=
  match reverse out with
  | c :: rout => if c =? slash then reverse rout else out
  | [] => []
  end.

Definition normalize_path (path : list Z) : option (list Z) :=
  strip <$> ploop (5 * length path + 4) (INITIAL, [], path).
