(* ===== verification/FsPathSpec.v ===== *)
(** * What path normalisation computes

    The specification reads a path as a sequence of fields between slashes: an
    empty field or [.] is skipped, [..] removes the field before it, any other
    field is kept.  The lemmas relate the list machine of FsPath to it, and the
    machine over memory to the list machine. *)

From S2P Require Import Prelude Mem MemSpec CStr CStrSpec FsPath.
Local Open Scope lk_scope.

(** ** The specification *)

(** An absolute or relative path as its fields. *)
Definition fields : Type := bool * list (list Z).

Definition fields_of (path : list Z) : list (list Z) := split [slash] path.

(** [..] at the root leaves a relative path. *)
Definition pop (p : fields) : fields :=
  match p with
  | (_, []) => (false, [])
  | (abs, cs) => (abs, removelast cs)
  end.

Definition apply_field (p : fields) (f : list Z) : fields :=
  if bool_decide (f = [] \/ f = [dot]) then p
  else if bool_decide (f = [dot; dot]) then pop p
  else (p.1, p.2 ++ [f]).

Definition is_abs (path : list Z) : bool :=
  match path with c :: _ => c =? slash | [] => false end.

Definition normal (path : list Z) : fields :=
  foldl apply_field (is_abs path, []) (fields_of path).

(** Every field followed by a slash, and the text without the last slash. *)
Definition text (p : fields) : list Z :=
  (if p.1 then [slash] else []) ++ concat ((fun c => c ++ [slash]) <$> p.2).
Definition render (p : fields) : list Z := removelast (text p).

(** ** Steps of the list machine *)

Inductive steps : nat -> nstate * list Z * list Z -> nstate * list Z * list Z -> Prop :=
| steps_0 x : steps 0 x x
| steps_S k x y z : pstep x = inl y -> steps k y z -> steps (S k) x z.

(** The machine stops after [k] turns with the text [o]. *)
Definition halts (k : nat) (x : nstate * list Z * list Z) (o : list Z) : Prop :=
  exists y, steps k x y /\ pstep y = inr o.

Lemma steps_trans j k x y z : steps j x y -> steps k y z -> steps (j + k) x z.
Proof. induction 1; [done|]. intros. econstructor; eauto. Qed.

Lemma halts_trans j k x y o : steps j x y -> halts k y o -> halts (j + k) x o.
Proof. intros H (z & Hz & Ho). exists z. split; [by eapply steps_trans|done]. Qed.

Lemma ploop_halts k x o fuel : halts k x o -> (k <= fuel)%nat -> ploop fuel x = Some o.
Proof.
  intros (y & Hs & Ho). revert fuel. induction Hs as [x|k x y z E Hs IH]; intros fuel Hf.
  - destruct fuel; cbn [ploop]; by rewrite Ho.
  - destruct fuel as [|fuel]; [lia|]. cbn [ploop]. rewrite E. apply IH; [done|lia].
Qed.

Ltac pstep_now := econstructor; [cbn; reflexivity|].

(** A character of a field. *)
Definition plain (c : Z) : Prop := c <> slash /\ c <> 0.

Lemma plain_eqb c : plain c -> (c =? slash) = false /\ (c =? 0) = false.
Proof. intros [? ?]. split; by apply Z.eqb_neq. Qed.

Lemma in_field_steps out g tl :
  Forall plain g -> steps (length g) (IN_FIELD, out, g ++ tl) (IN_FIELD, out ++ g, tl).
Proof.
  intros Hg. revert out. induction Hg as [|c g Hc Hg IH]; intros out; cbn [app length].
  - rewrite app_nil_r. constructor.
  - destruct (plain_eqb c Hc) as [H1 H2]. econstructor.
    + cbn [pstep]. by rewrite H1, H2.
    + cbn [tail]. rewrite (app_assoc out [c] g : out ++ c :: g = _). apply IH.
Qed.

(** What the machine has emitted when a field is followed by a slash, and when
    the path ends behind it. *)
Definition emit (out f : list Z) : list Z :=
  if bool_decide (f = [dot]) then out
  else if bool_decide (f = [dot; dot]) then back out else out ++ f ++ [slash].
Definition emit_end (out f : list Z) : list Z :=
  if bool_decide (f = [dot]) then out
  else if bool_decide (f = [dot; dot]) then back out else out ++ f.

(** A field is [.], [..], or starts in one of four other ways. *)
Inductive field_shape : list Z -> Prop :=
| shape_dot : field_shape [dot]
| shape_dotdot : field_shape [dot; dot]
| shape_plain c g : c <> dot -> plain c -> Forall plain g -> field_shape (c :: g)
| shape_dot_plain c g : c <> dot -> plain c -> Forall plain g -> field_shape (dot :: c :: g)
| shape_dotdot_plain c g : plain c -> Forall plain g -> field_shape (dot :: dot :: c :: g).

Lemma field_shape_of f : f <> [] -> Forall plain f -> field_shape f.
Proof.
  intros Hne Hf. destruct f as [|a f]; [done|]. apply Forall_cons in Hf as [Ha Hf].
  destruct (Z.eq_dec a dot) as [->|]; [|by constructor].
  destruct f as [|b f]; [constructor|]. apply Forall_cons in Hf as [Hb Hf].
  destruct (Z.eq_dec b dot) as [->|]; [|by constructor].
  destruct f as [|c f]; [constructor|]. apply Forall_cons in Hf as [Hc Hf]. by constructor.
Qed.

(** From the start of an ordinary field into it. *)
Lemma enter_field out f tl :
  field_shape f -> f <> [dot] -> f <> [dot; dot] ->
  exists k, (k <= 5 + length f)%nat /\ steps k (FIELD_START, out, f ++ tl) (IN_FIELD, out ++ f, tl).
Proof.
  intros Hs H1 H2. destruct Hs as [| |c g Hcd Hc Hg|c g Hcd Hc Hg|c g Hc Hg]; [done|done|..];
    pose proof (in_field_steps) as Hin.
  - specialize (Hin out (c :: g) tl ltac:(by constructor)).
    destruct (plain_eqb c Hc) as [E1 E2]. apply Z.eqb_neq in Hcd.
    exists (1 + length (c :: g))%nat. split; [lia|]. eapply steps_trans; [|exact Hin].
    econstructor; [cbn [app pstep]; by rewrite Hcd, E2|constructor].
  - specialize (Hin (out ++ [dot]) (c :: g) tl ltac:(by constructor)). rewrite <- app_assoc in Hin.
    destruct (plain_eqb c Hc) as [E1 E2]. apply Z.eqb_neq in Hcd.
    exists (3 + length (c :: g))%nat. split; [cbn; lia|]. eapply steps_trans; [|exact Hin].
    do 2 pstep_now. econstructor; [cbn [tail pstep]; by rewrite Hcd, E1, E2|constructor].
  - specialize (Hin (out ++ [dot; dot]) (c :: g) tl ltac:(by constructor)). rewrite <- app_assoc in Hin.
    destruct (plain_eqb c Hc) as [E1 E2].
    exists (5 + length (c :: g))%nat. split; [cbn; lia|]. eapply steps_trans; [|exact Hin].
    do 4 pstep_now. econstructor; [cbn [tail pstep]; by rewrite E1, E2|constructor].
Qed.

Lemma field_steps out f r :
  f <> [] -> Forall plain f ->
  exists k, (k <= 5 * length f + 4)%nat /\
    steps k (FIELD_START, out, f ++ slash :: r) (SEEN_SEP, emit out f, r).
Proof.
  intros Hne Hf. pose proof (field_shape_of f Hne Hf) as Hs. unfold emit.
  destruct (decide (f = [dot])) as [->|H1].
  { exists 3%nat. split; [cbn; lia|]. rewrite bool_decide_true by done. do 3 pstep_now. constructor. }
  destruct (decide (f = [dot; dot])) as [->|H2].
  { exists 5%nat. split; [cbn; lia|]. rewrite bool_decide_false, bool_decide_true by done.
    do 5 pstep_now. constructor. }
  rewrite !bool_decide_false by done.
  destruct (enter_field out f (slash :: r) Hs H1 H2) as (k & Hk & Hst).
  exists (k + 2)%nat. split; [destruct f; [done|cbn [length] in *; lia]|].
  eapply steps_trans; [exact Hst|]. do 2 pstep_now. cbn [tail]. rewrite <- app_assoc. constructor.
Qed.

Lemma field_halts out f :
  f <> [] -> Forall plain f ->
  exists k, (k <= 5 * length f + 3)%nat /\ halts k (FIELD_START, out, f) (emit_end out f).
Proof.
  intros Hne Hf. pose proof (field_shape_of f Hne Hf) as Hs. unfold emit_end.
  destruct (decide (f = [dot])) as [->|H1].
  { exists 2%nat. split; [cbn; lia|]. rewrite bool_decide_true by done.
    eexists. split; [do 2 pstep_now; constructor|done]. }
  destruct (decide (f = [dot; dot])) as [->|H2].
  { exists 4%nat. split; [cbn; lia|]. rewrite bool_decide_false, bool_decide_true by done.
    eexists. split; [do 4 pstep_now; constructor|done]. }
  rewrite !bool_decide_false by done.
  destruct (enter_field out f [] Hs H1 H2) as (k & Hk & Hst). rewrite app_nil_r in Hst.
  exists k. split; [destruct f; [done|cbn [length] in *; lia]|].
  eexists. split; [exact Hst|]. done.
Qed.

(** ** Emitted text and fields *)

Definition fields_ok (p : fields) : Prop := Forall (fun f => f <> [] /\ Forall plain f) p.2.

Lemma text_snoc abs cs f : text (abs, cs ++ [f]) = text (abs, cs) ++ f ++ [slash].
Proof.
  unfold text. cbn [fst snd]. rewrite fmap_app, concat_app. cbn [fmap list_fmap concat].
  by rewrite app_nil_r, !app_assoc.
Qed.

(** The text is empty or ends with a slash. *)
Lemma text_end p : text p = [] \/ exists t, text p = t ++ [slash].
Proof.
  destruct p as [abs cs]. induction cs as [|f cs _] using rev_ind.
  - destruct abs; [right; by exists []|by left].
  - right. rewrite text_snoc. eexists. by rewrite app_assoc.
Qed.

Lemma strip_slash t : strip (t ++ [slash]) = t.
Proof. unfold strip. rewrite reverse_snoc. cbn. apply reverse_involutive. Qed.

Lemma strip_plain t c : c <> slash -> strip (t ++ [c]) = t ++ [c].
Proof. intros Hc. unfold strip. rewrite reverse_snoc. apply Z.eqb_neq in Hc. by rewrite Hc. Qed.

Lemma strip_text p : strip (text p) = render p.
Proof.
  unfold render. destruct (text_end p) as [->|(t & ->)]; [done|].
  rewrite strip_slash. by rewrite removelast_last.
Qed.

Lemma back_list_plain g r : Forall plain g -> back_list (g ++ r) = back_list r.
Proof.
  induction 1 as [|c g Hc Hg IH]; [done|]. cbn [app back_list].
  destruct (plain_eqb c Hc) as [-> _]. done.
Qed.

Lemma back_list_text p : back_list (reverse (text p)) = reverse (text p).
Proof.
  destruct (text_end p) as [->|(t & ->)]; [done|]. rewrite reverse_snoc. done.
Qed.

Lemma pop_snoc abs cs f : pop (abs, cs ++ [f]) = (abs, cs).
Proof.
  unfold pop. destruct (cs ++ [f]) as [|c r] eqn:E; [by destruct cs|].
  by rewrite <- E, removelast_last.
Qed.

Lemma back_text p : fields_ok p -> back (text p) = text (pop p).
Proof.
  destruct p as [abs cs]. induction cs as [|f cs _] using rev_ind; intros Hok.
  { by destruct abs. }
  unfold fields_ok in Hok. cbn [snd] in Hok. apply Forall_app in Hok as [_ [[_ Hf] _]%Forall_cons].
  rewrite pop_snoc, text_snoc. unfold back. rewrite app_assoc, reverse_snoc. cbn [tail].
  rewrite reverse_app, back_list_plain by (by apply Forall_reverse).
  rewrite back_list_text. apply reverse_involutive.
Qed.

Lemma apply_field_ok p f : fields_ok p -> Forall plain f -> fields_ok (apply_field p f).
Proof.
  intros Hp Hf. unfold apply_field. case_bool_decide as H1; [done|]. case_bool_decide as H2.
  - destruct p as [abs cs]. destruct cs as [|c cs]; [constructor|]. unfold fields_ok, pop. cbn [snd].
    unfold fields_ok in Hp. cbn [snd] in Hp. rewrite (app_removelast_last [] (l := c :: cs)) in Hp by done.
    by apply Forall_app in Hp as [Hp _].
  - apply Forall_app. split; [done|]. repeat constructor; [|done]. tauto.
Qed.

Lemma emit_text p f : fields_ok p -> f <> [] -> emit (text p) f = text (apply_field p f).
Proof.
  intros Hp Hf. unfold emit, apply_field.
  destruct (decide (f = [dot])) as [->|H1]; [done|].
  rewrite (bool_decide_false (f = [dot])), (bool_decide_false (f = [] \/ _)) by tauto.
  case_bool_decide; [by apply back_text|]. destruct p. by rewrite text_snoc.
Qed.

Lemma strip_emit_end p f :
  fields_ok p -> f <> [] -> Forall plain f -> strip (emit_end (text p) f) = render (apply_field p f).
Proof.
  intros Hp Hne Hf. unfold emit_end, apply_field.
  destruct (decide (f = [dot])) as [->|H1]; [apply strip_text|].
  rewrite (bool_decide_false (f = [dot])), (bool_decide_false (f = [] \/ _)) by tauto.
  case_bool_decide; [rewrite back_text by done; apply strip_text|].
  destruct p as [abs cs]. unfold render. cbn [fst snd]. rewrite text_snoc, app_assoc, removelast_last.
  destruct f as [|c f _] using rev_ind; [done|]. rewrite app_assoc. apply strip_plain.
  apply Forall_app in Hf as [_ [[Hc _] _]%Forall_cons]. done.
Qed.

(** ** The list machine computes the specification *)

Lemma among_slash x : among [slash] x = (x =? slash).
Proof. unfold among. cbn. apply orb_false_r. Qed.

Lemma fields_of_slash r : fields_of (slash :: r) = [] :: fields_of r.
Proof.
  unfold fields_of. cbn [split]. destruct (split_ne [slash] r) as (h & t & ->). done.
Qed.

(** A path that does not start with a slash, as its first field and the rest. *)
Lemma fields_of_first path :
  path <> [] -> is_abs path = false -> Forall (fun c => c <> 0) path ->
  exists f, f <> [] /\ Forall plain f /\
    (path = f /\ fields_of path = [f] \/
     exists r, path = f ++ slash :: r /\ fields_of path = f :: fields_of r).
Proof.
  intros Hne Habs Hz. unfold fields_of. rewrite split_field.
  set (p := fun x => negb (among [slash] x)).
  exists (prefix_while p path). pose proof (while_app p path) as Happ.
  assert (Hpl : forall l, Forall (fun c => c <> 0) l -> Forall plain (prefix_while p l)).
  { clear. induction 1 as [|c l Hc Hl IH]; [constructor|]. cbn [prefix_while]. unfold p at 1.
    rewrite among_slash. destruct (Z.eqb_spec c slash); [constructor|]. by constructor. }
  split_and!; [|by apply Hpl|].
  - destruct path as [|c path]; [done|]. cbn [is_abs] in Habs. cbn [prefix_while]. unfold p at 1.
    by rewrite among_slash, Habs.
  - destruct (drop_while p path) as [|x r] eqn:E.
    + left. rewrite app_nil_r in Happ. done.
    + right. pose proof (drop_while_head _ _ _ _ E) as Hx. unfold p in Hx.
      apply negb_false_iff in Hx. rewrite among_slash in Hx. apply Z.eqb_eq in Hx. subst x.
      exists r. done.
Qed.

Lemma seen_sep_halts rest p :
  Forall (fun c => c <> 0) rest -> fields_ok p ->
  exists k o, (k <= 5 * length rest + 4)%nat /\ halts k (SEEN_SEP, text p, rest) o /\
    strip o = render (foldl apply_field p (fields_of rest)).
Proof.
  revert p. induction rest as [rest IH] using (well_founded_induction (well_founded_ltof _ length)).
  unfold ltof in IH. intros p Hz Hp. destruct rest as [|c rest].
  { exists 0%nat, (text p). split_and!; [lia|eexists; split; [constructor|done]|]. apply strip_text. }
  pose proof Hz as [Hc Hz']%Forall_cons. destruct (Z.eq_dec c slash) as [->|Hcs].
  { destruct (IH rest ltac:(cbn; lia) p Hz' Hp) as (k & o & Hk & Hh & Ho).
    exists (1 + k)%nat, o. split_and!; [cbn [length]; lia| |].
    - eapply halts_trans; [|exact Hh]. pstep_now. constructor.
    - rewrite fields_of_slash. done. }
  destruct (fields_of_first (c :: rest)) as (f & Hne & Hf & Hcase); [done|by apply Z.eqb_neq|done|].
  assert (Hin : steps 1 (SEEN_SEP, text p, c :: rest) (FIELD_START, text p, c :: rest)).
  { econstructor; [|constructor]. cbn [pstep]. apply Z.eqb_neq in Hcs, Hc. by rewrite Hcs, Hc. }
  destruct Hcase as [[E ->]|(r & E & ->)]; rewrite E in *.
  - destruct (field_halts (text p) f Hne Hf) as (k & Hk & Hh).
    exists (1 + k)%nat, (emit_end (text p) f). split_and!; [lia|by eapply halts_trans|].
    by apply strip_emit_end.
  - destruct (field_steps (text p) f r Hne Hf) as (k & Hk & Hst).
    rewrite emit_text in Hst by done. apply Forall_app in Hz as [_ [_ Hzr]%Forall_cons].
    destruct (IH r) with (p := apply_field p f) as (k' & o & Hk' & Hh & Ho).
    { rewrite length_app. cbn. lia. } { done. } { by apply apply_field_ok. }
    exists (1 + (k + k'))%nat, o. split_and!.
    + rewrite length_app. cbn [length]. lia.
    + eapply halts_trans; [exact Hin|]. by eapply halts_trans.
    + exact Ho.
Qed.

(** The whole path. *)
Lemma initial_halts path :
  Forall (fun c => c <> 0) path ->
  exists k o, (k <= 5 * length path + 4)%nat /\ halts k (INITIAL, [], path) o /\
    strip o = render (normal path).
Proof.
  intros Hz. destruct path as [|c path].
  { exists 1%nat, []. split_and!; [lia| |done]. eexists. split; [pstep_now; constructor|done]. }
  pose proof Hz as [Hc Hz']%Forall_cons. unfold normal. cbn [is_abs].
  destruct (Z.eqb_spec c slash) as [->|Hcs].
  { destruct (seen_sep_halts path (true, []) Hz') as (k & o & Hk & Hh & Ho); [constructor|].
    exists (2 + k)%nat, o. split_and!; [cbn [length]; lia| |].
    - eapply halts_trans; [|exact Hh]. do 2 pstep_now. constructor.
    - rewrite fields_of_slash. done. }
  destruct (fields_of_first (c :: path)) as (f & Hne & Hf & Hcase); [done|by apply Z.eqb_neq|done|].
  assert (Hok : fields_ok (false, [])) by constructor.
  assert (Hin : forall k y, steps (S k) (FIELD_START, [], c :: path) y ->
                exists j, (j <= S (S k))%nat /\ steps j (INITIAL, [], c :: path) y).
  { intros k y Hst. apply Z.eqb_neq in Hcs. destruct (Z.eqb_spec c dot) as [->|Hd].
    - exists (S k). split; [lia|]. inversion Hst as [|? ? y' ? E Hs]; subst.
      cbn in E. econstructor; [cbn; exact E|done].
    - apply Z.eqb_neq in Hd. exists (S (S k)). split; [lia|]. econstructor; [|exact Hst].
      cbn [pstep]. by rewrite Hcs, Hd. }
  destruct Hcase as [[E ->]|(r & E & ->)]; rewrite E in *.
  - destruct (field_halts [] f Hne Hf) as (k & Hk & (y & Hst & Ho)).
    destruct k as [|k].
    { inversion Hst; subst. cbn in Ho. apply Z.eqb_neq in Hc.
      rewrite Hc in Ho. by destruct (c =? dot). }
    destruct (Hin k y Hst) as (j & Hj & Hst').
    exists j, (emit_end [] f). split_and!; [lia|by exists y|].
    exact (strip_emit_end (false, []) f Hok Hne Hf).
  - destruct (field_steps [] f r Hne Hf) as (k & Hk & Hst).
    destruct k as [|k]; [by inversion Hst|].
    destruct (Hin k _ Hst) as (j & Hj & Hst'). rewrite (emit_text (false, []) f Hok Hne : emit [] f = _) in Hst'.
    apply Forall_app in Hz as [_ [_ Hzr]%Forall_cons].
    destruct (seen_sep_halts r (apply_field (false, []) f) Hzr) as (k' & o & Hk' & Hh & Ho).
    { by apply apply_field_ok. }
    exists (j + k')%nat, o. split_and!; [rewrite length_app; cbn [length]; lia|by eapply halts_trans|done].
Qed.

Lemma normalize_path_run path :
  Forall (fun c => c <> 0) path -> normalize_path path = Some (render (normal path)).
Proof.
  intros Hz. unfold normalize_path. destruct (initial_halts path Hz) as (k & o & Hk & Hh & Ho).
  rewrite (ploop_halts k _ o) by done. cbn. by rewrite Ho.
Qed.

(** ** The machine over memory follows the list machine *)

(** How far the writing position stays behind the reading position. *)
Definition gap (st : nstate) : Z :=
  match st with SEEN_DOT | DOTDOT => 1 | SEEN_DOTDOT => 2 | _ => 0 end.

(** The states that consume a character whatever it is. *)
Definition consumes (st : nstate) (rest : list Z) : Prop :=
  match st with SEP | DOT | DOTDOT => rest <> [] | _ => True end.

(** [m0] held a path of length [n] at [path]; [m] is the memory now. *)
Record sim (m0 : mem) (path n : Z) (m : mem) (s : nstate) (out rest : list Z) (pos : Z) : Prop := {
  sim_out : holds m path out;
  sim_rest : cstr m (path + pos) rest;
  sim_end : pos + zlen rest = n;
  sim_gap : zlen out + gap s <= pos;
  sim_consumes : consumes s rest;
  sim_outside : same_outside m0 m path (n + 1);
  sim_mapped : mapped m path (n + 1);
  sim_chars : Forall char out;
}.

Lemma holds_snoc_store m a l c :
  holds m a l -> holds (<[a + zlen l := c]> m) a (l ++ [c]).
Proof.
  intros Hh. apply holds_app. split.
  - apply (holds_store_ne m (a + zlen l) [c]); [unfold separate; cbn; lia|done].
  - split; [apply lookup_insert_eq|done].
Qed.

Lemma back_field_run m path rout fuel :
  holds m path (reverse rout) -> (length rout <= fuel)%nat ->
  back_field fuel path (zlen rout) m = Some (zlen (back_list rout), m).
Proof.
  revert fuel. induction rout as [|c rout IH]; intros [|fuel] Hh Hf; try done; [cbn in Hf; lia|].
  rewrite reverse_cons in Hh. apply holds_app in Hh as [Hh [Hc _]].
  rewrite length_reverse in Hc. cbn [back_field length back_list] in *.
  destruct (Z.ltb_spec 0 (Z.of_nat (S (length rout)))); [|lia].
  replace (Z.of_nat (S (length rout)) - 1) with (zlen rout) by lia.
  run (ld_run _ _ _ Hc). destruct (c =? slash); [done|]. apply IH; [done|lia].
Qed.

Lemma back_prefix out : exists t, out = back out ++ t.
Proof.
  unfold back. assert (H : forall r, exists t, reverse r = reverse (back_list r) ++ t).
  { induction r as [|c r (t & IH)]; [by exists []|]. cbn [back_list]. destruct (c =? slash).
    - exists []. by rewrite app_nil_r.
    - rewrite reverse_cons, IH. exists (t ++ [c]). by rewrite app_assoc. }
  destruct (reverse out) as [|c r] eqn:E.
  { exists out. done. }
  destruct (H r) as (t & Ht). exists (t ++ [c]). cbn [tail]. rewrite app_assoc, <- Ht, <- reverse_cons, <- E.
  by rewrite reverse_involutive.
Qed.

(** The walk back over the emitted text. *)
Lemma back_run m path out :
  holds m path out ->
  (if 0 <? zlen out then back_field (Z.to_nat (zlen out)) path (zlen out - 1) else ret (zlen out)) m =
  Some (zlen (back out), m).
Proof.
  intros Hh. unfold back. destruct (reverse out) as [|c r] eqn:E.
  { apply (f_equal reverse) in E. rewrite reverse_involutive in E. by subst out. }
  apply (f_equal reverse) in E. rewrite reverse_involutive, reverse_cons in E. subst out.
  rewrite length_app, length_reverse. cbn [length tail].
  destruct (Z.ltb_spec 0 (Z.of_nat (length r + 1))); [|lia].
  replace (Z.of_nat (length r + 1) - 1) with (zlen r) by lia.
  apply holds_app in Hh as [Hh _]. rewrite (back_field_run m path r) by (done || lia).
  by rewrite length_reverse.
Qed.

Lemma head_char m a rest :
  cstr m a rest -> m !! a = Some (match rest with [] => 0 | c :: _ => c end).
Proof. destruct rest; [apply cstr_nil|]. intros (Hc & _)%cstr_cons. done. Qed.

Lemma sim_move m0 path n m st out rest pos st' rest' :
  sim m0 path n m st out rest pos ->
  (rest' = rest /\ zlen out + gap st' <= pos \/
   exists c, rest = c :: rest' /\ zlen out + gap st' <= pos + 1) ->
  consumes st' rest' ->
  sim m0 path n m st' out rest' (pos + (zlen rest - zlen rest')).
Proof.
  intros [] Hr Hc. destruct Hr as [[-> Hg]|(c & -> & Hg)].
  - rewrite Z.sub_diag, Z.add_0_r. by constructor.
  - cbn [length] in *. replace (pos + (Z.of_nat (S (length rest')) - zlen rest')) with (pos + 1) by lia.
    apply cstr_cons in sim_rest0 as (_ & _ & Hs).
    constructor; try done; try lia. by rewrite Z.add_assoc.
Qed.

(** Emitting a character behind the reading position. *)
Lemma sim_put m0 path n m s out rest pos c s' :
  sim m0 path n m s out rest pos -> char c ->
  zlen out + 1 + gap s' <= pos -> consumes s' rest ->
  st (path + zlen out) c m = Some (tt, <[path + zlen out := c]> m) /\
  sim m0 path n (<[path + zlen out := c]> m) s' (out ++ [c]) rest pos.
Proof.
  intros [] Hc Hg Hco. assert (0 <= gap s') by (by destruct s').
  assert (Hin : path <= path + zlen out < path + (n + 1)) by lia. split.
  { rewrite st_run by (by apply sim_mapped0). by rewrite u8_small by (unfold char in Hc; lia). }
  constructor; try done.
  - by apply holds_snoc_store.
  - apply (cstr_store_ne m _ [c]); [unfold separate; cbn; lia|done].
  - rewrite zlen_snoc. lia.
  - intros x Hx. rewrite lookup_insert_ne by lia. by apply sim_outside0.
  - by apply mapped_insert.
  - apply Forall_app. split; [done|]. by constructor.
Qed.

Lemma back_length out : zlen (back out) <= zlen out.
Proof. destruct (back_prefix out) as (t & E). rewrite E at 2. rewrite length_app. lia. Qed.

Lemma holds_back m a out : holds m a out -> holds m a (back out).
Proof. intros Hh. destruct (back_prefix out) as (t & E). rewrite E in Hh. apply holds_app in Hh. tauto. Qed.

(** Walking back only shortens the emitted text. *)
Lemma sim_back m0 path n m s out rest pos :
  sim m0 path n m s out rest pos -> sim m0 path n m s (back out) rest pos.
Proof.
  intros []. pose proof (back_length out). constructor; try done; [by apply holds_back|lia|].
  destruct (back_prefix out) as (t & E). rewrite E in sim_chars0. apply Forall_app in sim_chars0. tauto.
Qed.

(** The character read is a slash, a dot or NUL, or none of them. *)
Lemma head_cases m a rest :
  cstr m a rest ->
  rest = [] \/ (exists r, rest = slash :: r) \/ (exists r, rest = dot :: r) \/
  exists c r, rest = c :: r /\ (c =? slash) = false /\ (c =? dot) = false /\ (c =? 0) = false /\ char c.
Proof.
  destruct rest as [|c r]; [auto|]. intros (_ & Hc & _)%cstr_cons. unfold char in Hc. right.
  destruct (Z.eqb_spec c slash) as [->|]; [eauto|]. destruct (Z.eqb_spec c dot) as [->|]; [eauto|].
  right. right. exists c, r. unfold char. split_and!; try done; lia.
Qed.

(** The tests of the machine on the special characters. *)
Lemma tests :
  (0 =? slash) = false /\ (0 =? dot) = false /\ (slash =? slash) = true /\ (slash =? dot) = false /\
  (slash =? 0) = false /\ (dot =? slash) = false /\ (dot =? dot) = true /\ (dot =? 0) = false /\
  (0 =? 0) = true.
Proof. done. Qed.

(** The loop variables after a step, up to arithmetic. *)
Lemma vars_eq (s : nstate) (p p' o o' : Z) (b : bool) (m : mem) :
  p = p' -> o = o' -> Some ((s, p, o, b), m) = Some ((s, p', o', b), m).
Proof. by intros -> ->. Qed.

Ltac next_rest :=
  first [left; split; [reflexivity|cbn; lia] | right; eexists; split; [reflexivity|cbn; lia]].

(** One step without output: the memory stays. *)
Ltac sim_moves Hmove :=
  eexists; split;
  [apply vars_eq; cbn [length]; lia
  |apply Hmove; [next_rest|done]].

(** A step that emits [c], on the simulation [H] after the reading position has moved. *)
Ltac emits H c s' :=
  let Hst := fresh in let Hsim := fresh in
  destruct (sim_put _ _ _ _ _ _ _ _ c s' H) as [Hst Hsim];
  [first [done|unfold char, slash, dot; lia]|cbn; lia|done|];
  run Hst; eexists; split;
  [apply vars_eq; rewrite ?zlen_snoc; cbn [length]; lia|exact Hsim].

Ltac emits2 H s' :=
  let Hst := fresh in let Hsim := fresh in let Hst2 := fresh in let Hsim2 := fresh in
  destruct (sim_put _ _ _ _ _ _ _ _ dot IN_FIELD H) as [Hst Hsim];
  [unfold char, dot; lia|cbn; lia|done|];
  destruct (sim_put _ _ _ _ _ _ _ _ dot s' Hsim) as [Hst2 Hsim2];
  [unfold char, dot; lia|rewrite zlen_snoc; cbn; lia|done|];
  rewrite zlen_snoc in Hst2; run Hst; run Hst2; eexists; split;
  [apply vars_eq; rewrite ?length_app; cbn [length]; lia|
   rewrite zlen_snoc in Hsim2; rewrite <- app_assoc in Hsim2; exact Hsim2].

Lemma norm_step_sim m0 path n m s out rest pos :
  sim m0 path n m s out rest pos ->
  match pstep (s, out, rest) with
  | inl (s', out', rest') =>
      exists m', norm_step path (s, pos, zlen out, false) m =
        Some ((s', pos + (zlen rest - zlen rest'), zlen out', false), m') /\
        sim m0 path n m' s' out' rest' (pos + (zlen rest - zlen rest'))
  | inr o => exists s' pos', norm_step path (s, pos, zlen out, false) m = Some ((s', pos', zlen o, true), m) /\
        holds m path o /\ zlen o <= n /\ Forall char o
  end.
Proof.
  intros Hs. pose proof (sim_rest _ _ _ _ _ _ _ _ Hs) as Hr.
  pose proof (sim_gap _ _ _ _ _ _ _ _ Hs) as Hg. pose proof (sim_out _ _ _ _ _ _ _ _ Hs) as Ho.
  pose proof (sim_end _ _ _ _ _ _ _ _ Hs) as He. pose proof (sim_consumes _ _ _ _ _ _ _ _ Hs) as Hc.
  unfold norm_step. run (ld_run _ _ _ (head_char _ _ _ Hr)).
  assert (Hmove := fun s' rest' => sim_move m0 path n m s out rest pos s' rest' Hs).
  destruct tests as (T1 & T2 & T3 & T4 & T5 & T6 & T7 & T8 & T9).
  destruct (head_cases _ _ _ Hr) as [->|[(r & ->)|[(r & ->)|(c & r & -> & E1 & E2 & E3 & E4)]]];
    destruct s; cbn [pstep tail consumes gap length] in *; try done;
    rewrite ?T1, ?T2, ?T3, ?T4, ?T5, ?T6, ?T7, ?T8, ?T9, ?E1, ?E2, ?E3; cbn [orb].
  all: try (by eexists _, _; split; [reflexivity|split; [done|split; [lia|exact (sim_chars _ _ _ _ _ _ _ _ Hs)]]]).
  all: try (sim_moves Hmove).
  all: try match goal with
    | |- exists m', _ /\ sim _ _ _ m' ?s' (_ ++ [?c]) ?r' _ =>
        pose proof (Hmove IN_FIELD r' ltac:(next_rest) I) as Hm; emits Hm c s'
    | |- exists m', _ /\ sim _ _ _ m' ?s' (_ ++ [_; _]) ?r' _ =>
        pose proof (Hmove IN_FIELD r' ltac:(next_rest) I) as Hm; emits2 Hm s'
    end.
  - run (back_run m path out Ho). eexists _, _. split; [reflexivity|]. split; [by apply holds_back|].
    pose proof (back_length out). split; [lia|]. exact (sim_chars _ _ _ _ _ _ _ _ (sim_back _ _ _ _ _ _ _ _ Hs)).
  - run (back_run m path out Ho). eexists. split; [apply vars_eq; lia|].
    apply sim_back. apply Hmove; [next_rest|done].
Qed.

Lemma norm_loop_run m0 path n m s out rest pos k o fuel :
  halts k (s, out, rest) o -> sim m0 path n m s out rest pos -> (k < fuel)%nat ->
  exists m', norm_loop fuel path (s, pos, zlen out, false) m = Some (zlen o, m') /\
    holds m' path o /\ zlen o <= n /\ Forall char o /\ same_outside m0 m' path (n + 1) /\ mapped m' path (n + 1).
Proof.
  intros (y & Hst & Ho). remember (s, out, rest) as x eqn:Ex. revert s out rest pos m fuel Ex.
  induction Hst as [x|k x y z E Hst IH]; intros s out rest pos m fuel -> Hsim Hf;
    (destruct fuel as [|fuel]; [lia|]); cbn [norm_loop]; pose proof (norm_step_sim _ _ _ _ _ _ _ _ Hsim) as Hn.
  - rewrite Ho in Hn. destruct Hn as (s' & pos' & En & Hh & Hl & Hc). run En.
    exists m. destruct Hsim. split_and!; try done. by destruct fuel.
  - rewrite E in Hn. destruct y as [[s' out'] rest']. destruct Hn as (m' & En & Hsim'). run En.
    eapply IH; [done|done|exact Hsim'|lia].
Qed.

Lemma strip_cases o : (exists t, o = t ++ [slash] /\ strip o = t) \/ strip o = o.
Proof.
  destruct o as [|c o _] using rev_ind; [by right|]. destruct (Z.eq_dec c slash) as [->|].
  - left. exists o. by rewrite strip_slash.
  - right. by apply strip_plain.
Qed.

Lemma fs_normalize_path_run m path s :
  cstr m path s ->
  exists m', fs_normalize_path path m = Some (tt, m') /\
    cstr m' path (render (normal s)) /\ zlen (render (normal s)) <= zlen s /\
    same_outside m m' path (zlen s + 1).
Proof.
  intros Hs. pose proof (cstr_size _ _ _ Hs) as Hsz.
  assert (Hz : Forall (fun c => c <> 0) s).
  { destruct Hs as [Hc _]. eapply Forall_impl; [exact Hc|]. unfold char. lia. }
  destruct (initial_halts s Hz) as (k & o & Hk & Hh & <-).
  assert (Hsim : sim m path (zlen s) m INITIAL [] s 0).
  { constructor; try done; [by rewrite Z.add_0_r|].
    destruct Hs as [_ Hs]. apply holds_mapped in Hs. by rewrite zlen_snoc in Hs. }
  destruct (norm_loop_run m path (zlen s) m INITIAL [] s 0 k o (5 * size m + 5) Hh Hsim ltac:(lia))
    as (m' & E & Ho & Hlen & Hch & Hout & Hmap).
  unfold fs_normalize_path. rewrite (bind_some _ _ m (size m) m) by done. run E.
  assert (Hfin : forall t, holds m' path t -> Forall char t -> zlen t <= zlen s ->
    exists m'', st (path + zlen t) 0 m' = Some (tt, m'') /\ cstr m'' path t /\ zlen t <= zlen s /\
      same_outside m m'' path (zlen s + 1)).
  { intros t Ht Hct Hlt. rewrite st_run by (apply Hmap; lia). eexists. split; [done|].
    split; [split; [done|by apply holds_snoc_store]|]. split; [done|].
    intros x Hx. rewrite lookup_insert_ne by lia. by apply Hout. }
  destruct (Z.ltb_spec 0 (zlen o)) as [Hpos|Hzero].
  2: { destruct o as [|? ?]; [|cbn in Hzero; lia]. by apply (Hfin []). }
  destruct o as [|c o _] using rev_ind; [cbn in Hpos; lia|]. rewrite zlen_snoc in *.
  pose proof Ho as [Ho' [Hc _]]%holds_app.
  replace (zlen o + 1 - 1) with (zlen o) by lia. destruct (Z.eq_dec c slash) as [->|Hcs].
  - erewrite bind_some by (run (ld_run _ _ _ Hc); reflexivity). rewrite strip_slash.
    apply Hfin; [done| |lia]. apply Forall_app in Hch. tauto.
  - pose proof Hcs as Ecs. apply Z.eqb_neq in Ecs.
    erewrite bind_some by (run (ld_run _ _ _ Hc); rewrite Ecs; reflexivity).
    rewrite strip_plain by done. rewrite <- (zlen_snoc o c). apply Hfin; [done|done|rewrite zlen_snoc; lia].
Qed.
