(* ===== verification/Fs.v ===== *)
(** * The file-system layer: mounts and open files of lib/fs/fs.c

    A file-system type is a record of operations, the function pointers of
    [struct fs_type]; those a type may leave out are options.  The operations
    act on a world [W] of their own (device contents, caches).  [BioOpen] is
    what the layer uses of lib/bio, [bio_open] and [bio_close], on a state [B].

    Paths are lists of characters without the NUL.  The calls copy a path into
    a buffer of 512 bytes with [strlcpy] and normalise it there; [temppath] is
    the contents of that buffer, by the list version of [fs_normalize_path].
    Mounts and files are entries of tables; freeing one removes its entry, so
    any later use of it is a panic. *)

From S2P Require Import Prelude ListH FsPath.
Local Open Scope lk_scope.

Class BioOpen (B : Type) : Type := {
  dev_open : string -> M B (option nat);
  dev_close : nat -> M B unit;
}.

Record file_stat : Type := { st_is_dir : bool; st_size : Z }.

Section types.
Context (W : Type).

Record fs_type : Type := {
  ft_name : string;
  ft_mount : nat -> W -> Z * Z * W;
  ft_unmount : Z -> W -> Z * W;
  ft_open : Z -> list Z -> W -> Z * Z * W;
  ft_create : option (Z -> list Z -> W -> Z * Z * W);
  ft_mkdir : option (Z -> list Z -> W -> Z * W);
  ft_stat : Z -> W -> Z * file_stat * W;
  ft_read : Z -> list Z -> Z -> Z -> W -> Z * list Z * W;
  ft_write : option (Z -> list Z -> Z -> Z -> W -> Z * W);
  ft_close : Z -> W -> Z * W;
}.

Record fs_mount : Type := {
  mt_path : list Z;
  mt_dev : nat;
  mt_cookie : Z;
  mt_refs : Z;
  mt_type : fs_type;
}.
End types.
Arguments ft_name {W}. Arguments ft_mount {W}. Arguments ft_unmount {W}. Arguments ft_open {W}.
Arguments ft_create {W}. Arguments ft_mkdir {W}. Arguments ft_stat {W}. Arguments ft_read {W}.
Arguments ft_write {W}. Arguments ft_close {W}.
Arguments mt_path {W}. Arguments mt_dev {W}. Arguments mt_cookie {W}. Arguments mt_refs {W}. Arguments mt_type {W}.

Record fs_file : Type := { fl_cookie : Z; fl_mount : nat }.

Section fs.
Context {W B : Type} `{LO : ListOps nat unit} `{BO : BioOpen B}.

Record vfs : Type := {
  mounts : links;
  mnt : gmap nat (fs_mount W);
  files : gmap nat fs_file;
  bios : B;
  world : W;
}.

Definition set_mounts (f : links -> links) (s : vfs) : vfs :=
  {| mounts := f (mounts s); mnt := mnt s; files := files s; bios := bios s; world := world s |}.
Definition set_mnt (f : gmap nat (fs_mount W) -> gmap nat (fs_mount W)) (s : vfs) : vfs :=
  {| mounts := mounts s; mnt := f (mnt s); files := files s; bios := bios s; world := world s |}.
Definition set_files (f : gmap nat fs_file -> gmap nat fs_file) (s : vfs) : vfs :=
  {| mounts := mounts s; mnt := mnt s; files := f (files s); bios := bios s; world := world s |}.
Definition set_bios (b : B) (s : vfs) : vfs :=
  {| mounts := mounts s; mnt := mnt s; files := files s; bios := b; world := world s |}.
Definition set_world (w : W) (s : vfs) : vfs :=
  {| mounts := mounts s; mnt := mnt s; files := files s; bios := bios s; world := w |}.
Definition set_refs (r : Z) (m : fs_mount W) : fs_mount W :=
  {| mt_path := mt_path m; mt_dev := mt_dev m; mt_cookie := mt_cookie m; mt_refs := r; mt_type := mt_type m |}.

(** A call into lib/bio, and one into a file-system type. *)
Definition on_bio {A} (c : M B A) : M vfs A :=
  fun s => match c (bios s) with Some (a, b) => Some (a, set_bios b s) | None => None end.
Definition on_world {A} (c : W -> A * W) : M vfs A :=
  fun s => let (a, w) := c (world s) in Some (a, set_world w s).

Definition get_mount (i : nat) : M vfs (fs_mount W) := getopt (fun s => mnt s !! i).
Definition get_file (i : nat) : M vfs fs_file := getopt (fun s => files s !! i).

(** [char temppath[512]; strlcpy(temppath, path, sizeof(temppath)); fs_normalize_path(temppath);] *)
Definition temppath (path : list Z) : M vfs (list Z) :=
  getopt (fun _ => normalize_path (take 511 path)).

(** The loop of [find_mount]: the mount and the path behind its own. *)
Fixpoint find_in (path : list Z) (es : list nat) : M vfs (option (nat * list Z)) :=
  match es with
  | [] => ret None
  | i :: es' =>
      let* m := get_mount i in
      let mountpathlen := length (mt_path m) in
      if Nat.ltb (length path) mountpathlen then find_in path es'
      else if bool_decide (take mountpathlen path = mt_path m)
           then ret (Some (i, drop mountpathlen path))
           else find_in path es'
  end.
Definition find_mount (path : list Z) : M vfs (option (nat * list Z)) :=
  let* es := gets (fun s => contents (mounts s) tt) in find_in path es.

(** [new] is what [malloc] returns for the mount structure. *)
Definition mount (new : nat) (path : list Z) (device : string) (type : fs_type W) : M vfs Z :=
  let* temppath := temppath path in
  if negb (bool_decide (head temppath = Some slash)) then ret ERR_BAD_PATH
  else
    let* found := find_mount temppath in
    match found with
    | Some _ => ret ERR_ALREADY_MOUNTED
    | None =>
        let* dev := on_bio (dev_open device) in
        match dev with
        | None => ret ERR_NOT_FOUND
        | Some dev =>
            let* (err, cookie) := on_world (ft_mount type dev) in
            if err <? 0 then on_bio (dev_close dev) ;;; ret err
            else
              modify (set_mnt (insert new
                {| mt_path := temppath; mt_dev := dev; mt_cookie := cookie; mt_refs := 1; mt_type := type |})) ;;;
              modify (set_mounts (list_add_head tt new)) ;;;
              ret 0
        end
    end.

(** [types[0]] and the search of [types[]] by name. *)
Definition fs_mount_default (types : list (fs_type W)) (new : nat) (path : list Z) (device : string) : M vfs Z :=
  let* t := getopt (fun _ => head types) in mount new path device t.

Fixpoint fs_mount_type (types : list (fs_type W)) (new : nat) (path : list Z) (device name : string) : M vfs Z :=
  match types with
  | [] => ret ERR_NOT_FOUND
  | t :: types' =>
      if bool_decide (name = ft_name t) then mount new path device t
      else fs_mount_type types' new path device name
  end.

Definition put_mount (i : nat) : M vfs unit :=
  let* m := get_mount i in
  modify (set_mnt (insert i (set_refs (mt_refs m - 1) m))) ;;;
  when mt_refs m - 1 =? 0 do
    (modify (set_mounts (list_delete i)) ;;;
     on_world (ft_unmount (mt_type m) (mt_cookie m)) ;;;
     on_bio (dev_close (mt_dev m)) ;;;
     modify (set_mnt (delete i))).

Definition fs_unmount (path : list Z) : M vfs Z :=
  let* temppath := temppath path in
  let* found := find_mount temppath in
  match found with
  | None => ret ERR_NOT_FOUND
  | Some (i, _) => put_mount i ;;; ret 0
  end.

(** The end of [fs_open_file] and [fs_create_file]: the new file [new] keeps a
    reference on its mount. *)
Definition new_file (new i : nat) (cookie : Z) : M vfs Z :=
  let* m := get_mount i in
  modify (set_files (insert new {| fl_cookie := cookie; fl_mount := i |})) ;;;
  modify (set_mnt (insert i (set_refs (mt_refs m + 1) m))) ;;;
  ret 0.

Definition fs_open_file (new : nat) (path : list Z) : M vfs Z :=
  let* temppath := temppath path in
  let* found := find_mount temppath in
  match found with
  | None => ret ERR_NOT_FOUND
  | Some (i, newpath) =>
      let* m := get_mount i in
      let* (err, cookie) := on_world (ft_open (mt_type m) (mt_cookie m) newpath) in
      if err <? 0 then ret err else new_file new i cookie
  end.

Definition fs_create_file (new : nat) (path : list Z) : M vfs Z :=
  let* temppath := temppath path in
  let* found := find_mount temppath in
  match found with
  | None => ret ERR_NOT_FOUND
  | Some (i, newpath) =>
      let* m := get_mount i in
      match ft_create (mt_type m) with
      | None => ret ERR_NOT_SUPPORTED
      | Some create =>
          let* (err, cookie) := on_world (create (mt_cookie m) newpath) in
          if err <? 0 then ret err else new_file new i cookie
      end
  end.

Definition fs_make_dir (path : list Z) : M vfs Z :=
  let* temppath := temppath path in
  let* found := find_mount temppath in
  match found with
  | None => ret ERR_NOT_FOUND
  | Some (i, newpath) =>
      let* m := get_mount i in
      match ft_mkdir (mt_type m) with
      | None => ret ERR_NOT_SUPPORTED
      | Some mkdir => on_world (mkdir (mt_cookie m) newpath)
      end
  end.

Definition fs_read_file (i : nat) (buf : list Z) (offset len : Z) : M vfs (Z * list Z) :=
  let* f := get_file i in
  let* m := get_mount (fl_mount f) in
  on_world (ft_read (mt_type m) (fl_cookie f) buf offset len).

Definition fs_write_file (i : nat) (buf : list Z) (offset len : Z) : M vfs Z :=
  let* f := get_file i in
  let* m := get_mount (fl_mount f) in
  match ft_write (mt_type m) with
  | None => ret ERR_NOT_SUPPORTED
  | Some write => on_world (write (fl_cookie f) buf offset len)
  end.

Definition fs_close_file (i : nat) : M vfs Z :=
  let* f := get_file i in
  let* m := get_mount (fl_mount f) in
  let* err := on_world (ft_close (mt_type m) (fl_cookie f)) in
  if err <? 0 then ret err
  else
    put_mount (fl_mount f) ;;;
    modify (set_files (delete i)) ;;;
    ret 0.

Definition fs_stat_file (i : nat) : M vfs (Z * file_stat) :=
  let* f := get_file i in
  let* m := get_mount (fl_mount f) in
  on_world (ft_stat (mt_type m) (fl_cookie f)).

(** The result and the updated buffer. *)
Definition fs_load_file (new : nat) (path buf : list Z) (maxlen : Z) : M vfs (Z * list Z) :=
  let* err := fs_open_file new path in
  if err <? 0 then ret (err, buf)
  else
    let* (_, stat) := fs_stat_file new in
    let* (err, buf) := fs_read_file new buf 0 (Z.min maxlen (u64 (st_size stat))) in
    fs_close_file new ;;;
    ret (err, buf).
End fs.
