(* ===== verification/FsInv.v ===== *)
(** * The invariant of the file-system layer

    Every open file belongs to a live mount, and a mount counts at least its
    open files; a live mount is on the mount list and keeps its device open.
    The lemmas give the effect of every operation on these counts. *)

From S2P Require Import Prelude ListH MemSpec CStrSpec FsPath FsPathSpec Fs.
Local Open Scope lk_scope.

(** ** Counting the entries of a table *)

Section count.
Context {A : Type} (P : A -> bool).
Implicit Types (m : gmap nat A).

Definition count m : Z := Z.of_nat (length (List.filter (fun p => P p.2) (map_to_list m))).

Lemma count_nonneg m : 0 <= count m.
Proof. unfold count. lia. Qed.

Lemma filter_perm_length (l l' : list (nat * A)) :
  l ≡ₚ l' -> length (List.filter (fun p => P p.2) l) = length (List.filter (fun p => P p.2) l').
Proof. induction 1; cbn; repeat case_match; cbn; lia. Qed.

Lemma count_new m i x : m !! i = None -> count (<[i := x]> m) = count m + (if P x then 1 else 0).
Proof.
  intros Hi. unfold count. rewrite (filter_perm_length _ _ (map_to_list_insert m i x Hi)).
  cbn. destruct (P x); cbn; lia.
Qed.

Lemma count_delete m i x : m !! i = Some x -> count (delete i m) = count m - (if P x then 1 else 0).
Proof.
  intros Hi. rewrite <- (insert_delete_id m i x Hi) at 2. rewrite count_new by apply lookup_delete_eq.
  lia.
Qed.

Lemma count_update m i x y :
  m !! i = Some x -> count (<[i := y]> m) = count m - (if P x then 1 else 0) + (if P y then 1 else 0).
Proof.
  intros Hi. rewrite <- (insert_delete_eq m i y), count_new by apply lookup_delete_eq.
  rewrite (count_delete m i x Hi). lia.
Qed.

Lemma count_pos m i x : m !! i = Some x -> P x = true -> 0 < count m.
Proof.
  intros Hi Hp. pose proof (count_nonneg (delete i m)). rewrite (count_delete m i x Hi), Hp in H. lia.
Qed.

Lemma count_zero m i x : count m = 0 -> m !! i = Some x -> P x = false.
Proof. intros H Hi. destruct (P x) eqn:E; [|done]. pose proof (count_pos m i x Hi E). lia. Qed.
End count.

(** ** What lib/bio promises: a device that has been opened can be closed *)

Class BioLaws (B : Type) `{BO : BioOpen B} : Type := {
  bio_ok : B -> Prop;
  held : B -> nat -> Z;
  open_law : forall name b, bio_ok b -> exists r b', dev_open name b = Some (r, b') /\ bio_ok b' /\
    forall e, held b e + (if bool_decide (r = Some e) then 1 else 0) <= held b' e;
  close_law : forall d b, bio_ok b -> 0 < held b d -> exists b', dev_close d b = Some (tt, b') /\ bio_ok b' /\
    forall e, held b e - (if bool_decide (d = e) then 1 else 0) <= held b' e;
}.

Section inv.
Context {W B : Type} `{LO : ListOps nat unit} `{LL : !ListLaws nat unit} `{BO : BioOpen B} {BL : BioLaws B}.
Implicit Types (s : vfs (W := W) (B := B)) (m : fs_mount W).

(** The open files of mount [i], and the mounts of device [d]. *)
Definition nfiles s (i : nat) : Z := count (fun f => bool_decide (fl_mount f = i)) (files s).
Definition nmounts s (d : nat) : Z := count (fun m => bool_decide (mt_dev m = d)) (mnt s).

Record vinv s : Prop := {
  v_links : links_ok (mounts s);
  v_listed : forall i, i ∈ contents (mounts s) tt <-> is_Some (mnt s !! i);
  v_files : forall j f, files s !! j = Some f -> is_Some (mnt s !! fl_mount f);
  v_refs : forall i m, mnt s !! i = Some m -> 1 <= mt_refs m /\ nfiles s i <= mt_refs m;
  v_bio : bio_ok (bios s);
  v_held : forall d, nmounts s d <= held (bios s) d;
}.

(** The references of a mount that no open file accounts for: one after
    [fs_mount], one less for every [fs_unmount]. *)
Definition spare s (i : nat) : Z :=
  match mnt s !! i with Some m => mt_refs m - nfiles s i | None => 0 end.

Lemma get_mount_run s i m : mnt s !! i = Some m -> get_mount i s = Some (m, s).
Proof. unfold get_mount, getopt. by intros ->. Qed.
Lemma get_file_run s i f : files s !! i = Some f -> get_file i s = Some (f, s).
Proof. unfold get_file, getopt. by intros ->. Qed.

(** ** Looking a path up *)

(** The first mount of [es] whose path is a prefix. *)
Fixpoint first_mount s (path : list Z) (es : list nat) : option (nat * list Z) :=
  match es with
  | [] => None
  | i :: es' =>
      match mnt s !! i with
      | Some m => if bool_decide (mt_path m `prefix_of` path)
                  then Some (i, drop (length (mt_path m)) path) else first_mount s path es'
      | None => None
      end
  end.

Lemma take_prefix (p l : list Z) : take (length p) l = p <-> p `prefix_of` l.
Proof.
  split.
  - intros E. exists (drop (length p) l). by rewrite <- E at 1; rewrite take_drop.
  - intros (k & ->). by rewrite take_app_length.
Qed.

Lemma find_in_run s path es :
  Forall (fun i => is_Some (mnt s !! i)) es -> find_in path es s = Some (first_mount s path es, s).
Proof.
  induction 1 as [|i es [m Hm] Hes IH]; [done|]. cbn [find_in first_mount]. rewrite Hm.
  rewrite (bind_some _ _ _ _ _ (get_mount_run s i m Hm)).
  destruct (Nat.ltb_spec (length path) (length (mt_path m))) as [Hlt|Hge].
  - rewrite bool_decide_false; [done|]. intros Hp%prefix_length. lia.
  - rewrite (bool_decide_ext _ _ (take_prefix (mt_path m) path)).
    by destruct (bool_decide _).
Qed.

Definition lookup_path s (path : list Z) : option (nat * list Z) :=
  first_mount s path (contents (mounts s) tt).

Lemma find_mount_run s path : vinv s -> find_mount path s = Some (lookup_path s path, s).
Proof.
  intros H. unfold find_mount. rewrite (bind_some _ _ s (contents (mounts s) tt) s) by done.
  apply find_in_run. apply Forall_forall. intros i Hi. by apply (v_listed _ H).
Qed.

Lemma first_mount_live s path es i p :
  first_mount s path es = Some (i, p) ->
  exists m, mnt s !! i = Some m /\ path = mt_path m ++ p /\ i ∈ es.
Proof.
  induction es as [|j es IH]; cbn [first_mount]; [done|]. destruct (mnt s !! j) as [m|] eqn:Hj; [|done].
  case_bool_decide as Hp.
  - intros [= <- <-]. exists m. split; [done|]. split; [|set_solver]. apply take_prefix in Hp.
    rewrite <- Hp at 1. by rewrite take_drop.
  - intros H. destruct (IH H) as (m' & ? & ? & ?). exists m'. set_solver.
Qed.

Lemma temppath_run s path :
  Forall (fun c => c <> 0) path -> temppath path s = Some (render (normal (take 511 path)), s).
Proof.
  intros Hz. unfold temppath, getopt. rewrite normalize_path_run; [done|]. by apply Forall_take.
Qed.

(** ** The effect of the operations *)

Lemma vinv_world s w : vinv s -> vinv (set_world w s).
Proof. by intros []. Qed.

(** Changing only the count of a mount. *)
Lemma vinv_refs s i m r :
  vinv s -> mnt s !! i = Some m -> 1 <= r -> nfiles s i <= r ->
  vinv (set_mnt (insert i (set_refs r m)) s).
Proof.
  intros H Hi Hr Hn. destruct H as [Hl Hc Hf Hre Hb Hh]. constructor; cbn [mounts mnt files bios set_mnt] in *.
  - done.
  - intros k. rewrite Hc. destruct (decide (k = i)) as [->|]; [|by rewrite lookup_insert_ne].
    rewrite lookup_insert_eq, Hi. split; by eexists.
  - intros j f Hj. destruct (decide (fl_mount f = i)) as [->|]; [rewrite lookup_insert_eq; by eexists|].
    rewrite lookup_insert_ne by done. by eapply Hf.
  - intros k m'. destruct (decide (k = i)) as [->|].
    + rewrite lookup_insert_eq. intros [= <-]. done.
    + rewrite lookup_insert_ne by done. apply Hre.
  - done.
  - intros d. unfold nmounts. cbn [mnt set_mnt set_files set_mounts set_world set_bios]. rewrite (count_update _ _ _ m) by done. cbn.
    specialize (Hh d). unfold nmounts in Hh. lia.
Qed.

(** Adding a file of a live mount whose count has room for it. *)
Lemma vinv_new_file s j f m :
  vinv s -> files s !! j = None -> mnt s !! fl_mount f = Some m -> nfiles s (fl_mount f) + 1 <= mt_refs m ->
  vinv (set_files (insert j f) s).
Proof.
  intros H Hj Hm Hn. destruct H as [Hl Hc Hf Hre Hb Hh]. constructor; cbn [mounts mnt files bios set_files] in *; try done.
  - intros k g. destruct (decide (k = j)) as [->|].
    + rewrite lookup_insert_eq. intros [= <-]. by eexists.
    + rewrite lookup_insert_ne by done. apply Hf.
  - intros i m' Hi. specialize (Hre i m' Hi). unfold nfiles in *. cbn [files set_mnt set_files set_mounts set_world set_bios]. rewrite count_new by done.
    case_bool_decide as E; [|lia]. subst i. assert (m' = m) as -> by congruence. lia.
Qed.

Lemma new_file_run s j i m cookie :
  vinv s -> files s !! j = None -> mnt s !! i = Some m ->
  exists s', new_file j i cookie s = Some (0, s') /\ vinv s' /\
    (forall k, spare s' k = spare s k) /\ files s' !! j = Some {| fl_cookie := cookie; fl_mount := i |} /\
    dom (mnt s') = dom (mnt s).
Proof.
  intros H Hj Hi. unfold new_file. rewrite (bind_some _ _ _ _ _ (get_mount_run s i m Hi)).
  eexists. split; [done|]. destruct (v_refs _ H i m Hi) as [Hr1 Hr2].
  set (f := {| fl_cookie := cookie; fl_mount := i |}).
  change (set_mnt (insert i (set_refs (mt_refs m + 1) m)) (set_files (insert j f) s))
    with (set_files (insert j f) (set_mnt (insert i (set_refs (mt_refs m + 1) m)) s)).
  split_and!.
  - apply vinv_new_file with (set_refs (mt_refs m + 1) m); [apply vinv_refs; (done || lia)|done|apply lookup_insert_eq|].
    cbn. unfold nfiles in *. cbn [files set_mnt]. lia.
  - intros k. unfold spare, nfiles. cbn [files mnt set_files set_mnt]. rewrite (count_new _ (files s)) by done. cbn [fl_mount f].
    destruct (decide (k = i)) as [->|Hk].
    + rewrite lookup_insert_eq, Hi. cbn [mt_refs set_refs]. rewrite bool_decide_true by done. lia.
    + rewrite lookup_insert_ne, bool_decide_false by done. destruct (mnt s !! k); lia.
  - apply lookup_insert_eq.
  - cbn. rewrite dom_insert_L. apply elem_of_dom_2 in Hi. set_solver.
Qed.

(** Dropping a reference: the files that are left have to fit the new count. *)
Lemma put_mount_run s i m g :
  vinv s -> mnt s !! i = Some m ->
  (forall j f, g (files s) !! j = Some f -> files s !! j = Some f) ->
  count (fun f => bool_decide (fl_mount f = i)) (g (files s)) <= mt_refs m - 1 ->
  (forall k, count (fun f => bool_decide (fl_mount f = k)) (g (files s)) <= nfiles s k) ->
  exists s', put_mount i s = Some (tt, s') /\ files s' = files s /\
    vinv (set_files g s') /\
    (mnt s' = if mt_refs m =? 1 then delete i (mnt s) else <[i := set_refs (mt_refs m - 1) m]> (mnt s)).
Proof.
  intros H Hi Hsub Hcnt Hle. pose proof H as [Hl Hc Hf Hre Hb Hh]. unfold put_mount.
  rewrite (bind_some _ _ _ _ _ (get_mount_run s i m Hi)).
  erewrite bind_some by done. destruct (Hre i m Hi) as [Hr1 Hr2].
  destruct (Z.eqb_spec (mt_refs m - 1) 0) as [E|E].
  - assert (mt_refs m = 1) as Er by lia. rewrite Er, Z.eqb_refl.
    assert (Hheld : 0 < held (bios s) (mt_dev m)).
    { specialize (Hh (mt_dev m)). pose proof (count_pos (fun m' => bool_decide (mt_dev m' = mt_dev m)) (mnt s) i m Hi ltac:(by apply bool_decide_true)).
      unfold nmounts in Hh. lia. }
    destruct (close_law (mt_dev m) (bios s) Hb Hheld) as (b' & Eb & Hb' & Hheld').
    erewrite bind_some by done. unfold on_world at 1, bind at 1.
    cbn [world set_mounts set_mnt]. destruct (ft_unmount (mt_type m) (mt_cookie m) (world s)) as [u w'].
    unfold on_bio, bind. cbn [bios set_world set_mounts set_mnt]. rewrite Eb.
    eexists. split; [done|]. cbn [files mnt set_files set_world set_mounts set_mnt set_bios].
    split; [done|]. split; [|by rewrite delete_insert_eq].
    assert (Hin : list_in_list (mounts s) i = true).
    { apply in_list_spec; [done|]. exists tt. apply Hc. by eexists. }
    constructor; cbn [mounts mnt files bios set_files set_world set_mounts set_mnt set_bios]; rewrite ?delete_insert_eq.
    + by apply delete_ok.
    + intros k. rewrite delete_contents by done. rewrite elem_of_remove_all, Hc.
      destruct (decide (k = i)) as [->|]; [rewrite lookup_delete_eq|rewrite lookup_delete_ne by done].
      * split; [tauto|]. by intros [? ?].
      * naive_solver.
    + intros j f Hj. pose proof (Hf j f (Hsub j f Hj)).
      destruct (decide (fl_mount f = i)) as [Ei|Ei]; [|by rewrite lookup_delete_ne].
      pose proof (count_pos (fun f => bool_decide (fl_mount f = i)) _ j f Hj ltac:(by apply bool_decide_true)). lia.
    + intros k m'. destruct (decide (k = i)) as [->|]; [by rewrite lookup_delete_eq|].
      rewrite lookup_delete_ne by done. intros Hk. destruct (Hre k m' Hk). unfold nfiles at 1. cbn [files set_mnt set_files set_mounts set_world set_bios].
      specialize (Hle k). lia.
    + done.
    + intros d. specialize (Hh d). specialize (Hheld' d). unfold nmounts in *. cbn [mnt set_mnt set_files set_mounts set_world set_bios].
      rewrite ?delete_insert_eq, (count_delete _ _ _ m) by done. repeat case_bool_decide; lia.
  - eexists. split; [done|]. split; [done|]. destruct (Z.eqb_spec (mt_refs m) 1); [lia|]. split; [|done].
    constructor; cbn [mounts mnt files bios set_files set_mnt]; try done.
    + intros k. rewrite Hc. destruct (decide (k = i)) as [->|]; [|by rewrite lookup_insert_ne].
      rewrite lookup_insert_eq, Hi. split; by eexists.
    + intros j f Hj. pose proof (Hf j f (Hsub j f Hj)).
      destruct (decide (fl_mount f = i)) as [->|]; [rewrite lookup_insert_eq; by eexists|by rewrite lookup_insert_ne].
    + intros k m'. unfold nfiles. cbn [files set_mnt set_files set_mounts set_world set_bios]. destruct (decide (k = i)) as [->|].
      * rewrite lookup_insert_eq. intros [= <-]. cbn [mt_refs set_refs]. lia.
      * rewrite lookup_insert_ne by done. intros Hk. destruct (Hre k m' Hk). specialize (Hle k). lia.
    + intros d. unfold nmounts. cbn [mnt set_mnt set_files set_mounts set_world set_bios]. rewrite (count_update _ _ _ m) by done. cbn.
      specialize (Hh d). unfold nmounts in Hh. lia.
Qed.
End inv.
