(* ===== verification/FsProps.v ===== *)
(** * Theorems on the file-system layer

    Path normalisation, path lookup and the life time of mounts. *)

From S2P Require Import Prelude ListH Mem MemSpec CStr CStrSpec FsPath FsPathSpec Fs FsInv.
Local Open Scope lk_scope.

(** ** Normal paths stay as they are *)

Definition real_field (f : list Z) : Prop :=
  f <> [] /\ Forall plain f /\ f <> [dot] /\ f <> [dot; dot].

Lemma apply_field_real p f :
  Forall real_field p.2 -> Forall plain f -> Forall real_field (apply_field p f).2.
Proof.
  intros Hp Hf. unfold apply_field. case_bool_decide as H1; [done|]. case_bool_decide as H2.
  - destruct p as [abs cs]. destruct cs as [|c cs]; [constructor|]. unfold pop. cbn [snd] in *.
    rewrite (app_removelast_last [] (l := c :: cs)) in Hp by done. by apply Forall_app in Hp as [Hp _].
  - apply Forall_app. split; [done|]. constructor; [|constructor]. split_and!; tauto.
Qed.

Lemma fields_plain s : Forall (fun c => c <> 0) s -> Forall (Forall plain) (fields_of s).
Proof.
  unfold fields_of. induction 1 as [|c s Hc Hs IH]; cbn [split]; [by repeat constructor|].
  destruct (split_ne [slash] s) as (h & t & E). rewrite E in *. apply Forall_cons in IH as [Hh Ht].
  rewrite among_slash. destruct (Z.eqb_spec c slash).
  - repeat constructor; done.
  - constructor; [|done]. by constructor.
Qed.

Lemma normal_real s : Forall (fun c => c <> 0) s -> Forall real_field (normal s).2.
Proof.
  intros Hs. unfold normal. pose proof (fields_plain s Hs) as Hf.
  assert (H : Forall real_field ((is_abs s, []) : fields).2) by constructor. revert H.
  generalize ((is_abs s, []) : fields). induction Hf as [|f fs Hf Hfs IH]; intros p Hp; [done|].
  cbn [foldl]. apply IH. by apply apply_field_real.
Qed.

Lemma split_app_slash f r : Forall plain f -> fields_of (f ++ slash :: r) = f :: fields_of r.
Proof.
  induction 1 as [|c f [Hc _] Hf IH]; cbn [app]; [apply fields_of_slash|].
  unfold fields_of in *. cbn [split]. rewrite IH, among_slash. apply Z.eqb_neq in Hc. by rewrite Hc.
Qed.

Lemma split_plain f : Forall plain f -> fields_of f = [f].
Proof.
  induction 1 as [|c f [Hc _] Hf IH]; [done|].
  unfold fields_of in *. cbn [split]. rewrite IH, among_slash. apply Z.eqb_neq in Hc. by rewrite Hc.
Qed.

(** The fields of a text without its last slash. *)
Lemma fields_of_text cs :
  cs <> [] -> Forall real_field cs ->
  fields_of (removelast (concat ((fun c => c ++ [slash]) <$> cs))) = cs.
Proof.
  intros Hne Hr. induction Hr as [|f cs (Hf & Hp & _) Hr IH]; [done|]. cbn [fmap list_fmap concat].
  destruct cs as [|g cs].
  - cbn [fmap list_fmap concat]. rewrite app_nil_r, removelast_last. by apply split_plain.
  - rewrite removelast_app.
    + rewrite <- app_assoc. cbn [app]. rewrite split_app_slash by done. by rewrite IH.
    + cbn [fmap list_fmap concat]. destruct g; [|done]. by apply Forall_cons in Hr as [(? & _) _].
Qed.

Lemma foldl_real abs cs cs' :
  Forall real_field cs' -> foldl apply_field (abs, cs) cs' = (abs, cs ++ cs').
Proof.
  intros Hr. revert cs. induction Hr as [|f cs' (Hf & _ & H1 & H2) Hr IH]; intros cs; cbn [foldl].
  { by rewrite app_nil_r. }
  unfold apply_field at 2. rewrite !bool_decide_false by tauto. cbn [fst snd]. rewrite IH.
  by rewrite <- app_assoc.
Qed.

(** Normalising the text of normal fields gives the same text. *)
Lemma render_normal_render abs cs :
  Forall real_field cs -> render (normal (render (abs, cs))) = render (abs, cs).
Proof.
  intros Hr. destruct cs as [|f cs].
  { by destruct abs. }
  set (body := removelast (concat ((fun c => c ++ [slash]) <$> f :: cs))).
  assert (Hb : render (abs, f :: cs) = (if abs then [slash] else []) ++ body).
  { unfold render, text. cbn [fst snd]. subst body. apply removelast_app. cbn. by destruct f. }
  rewrite Hb at 1. pose proof (fields_of_text (f :: cs) ltac:(done) Hr) as Hfields. fold body in Hfields.
  assert (Habs : is_abs body = false).
  { subst body. pose proof Hr as [(Hf & Hp & _) _]%Forall_cons. destruct f as [|c f]; [done|].
    apply Forall_cons in Hp as [[Hc _] _]. apply Z.eqb_neq in Hc.
    cbn [fmap list_fmap concat app]. generalize (concat ((fun c => c ++ [slash]) <$> cs)). intros r.
    assert (exists x l, (f ++ [slash]) ++ r = x :: l) as (x & l & ->) by (destruct f; cbn; eauto).
    cbn. exact Hc. }
  unfold normal. destruct abs; cbn [app].
  - rewrite fields_of_slash. cbn [is_abs]. rewrite Z.eqb_refl. cbn [foldl].
    replace (apply_field (true, []) []) with ((true, []) : fields) by done.
    rewrite Hfields, foldl_real by done. done.
  - rewrite Habs, Hfields, foldl_real by done. done.
Qed.

(** ** Calls *)

Section calls.
Context {W B : Type} `{LO : ListOps nat unit} `{LL : !ListLaws nat unit} `{BO : BioOpen B} {BL : BioLaws B}.
Implicit Types (s : vfs (W := W) (B := B)) (m : fs_mount W).

(** The calls of the layer; [new] is the identity of what a call allocates. *)
Inductive fs_call : Type :=
| Mount (new : nat) (path : list Z) (device : string) (type : fs_type W)
| Unmount (path : list Z)
| Open (new : nat) (path : list Z)
| Create (new : nat) (path : list Z)
| MakeDir (path : list Z)
| Read (i : nat) (buf : list Z) (offset len : Z)
| Write (i : nat) (buf : list Z) (offset len : Z)
| Close (i : nat)
| Stat (i : nat).

Definition exec (c : fs_call) : M (vfs (W := W) (B := B)) Z :=
  match c with
  | Mount new path device type => mount new path device type
  | Unmount path => fs_unmount path
  | Open new path => fs_open_file new path
  | Create new path => fs_create_file new path
  | MakeDir path => fs_make_dir path
  | Read i buf offset len => let* (r, _) := fs_read_file i buf offset len in ret r
  | Write i buf offset len => fs_write_file i buf offset len
  | Close i => fs_close_file i
  | Stat i => let* (r, _) := fs_stat_file i in ret r
  end.

Definition c_string (path : list Z) : Prop := Forall (fun c => c <> 0) path.

(** Where a path leads. *)
Definition target s (path : list Z) : option (nat * list Z) :=
  lookup_path s (render (normal (take 511 path))).

(** What a caller has to respect: fresh memory, open files, and no more
    [fs_unmount] of a mount than [fs_mount]. *)
Definition allowed s (c : fs_call) : Prop :=
  match c with
  | Mount new path _ _ => c_string path /\ mnt s !! new = None
  | Unmount path => c_string path /\ forall i p, target s path = Some (i, p) -> 0 < spare s i
  | Open new path | Create new path => c_string path /\ files s !! new = None
  | MakeDir path => c_string path
  | Read i _ _ _ | Write i _ _ _ | Close i | Stat i => is_Some (files s !! i)
  end.

(** The mount a call gives up its own reference on. *)
Definition unmounts s (c : fs_call) (i : nat) : Prop :=
  match c with Unmount path => exists p, target s path = Some (i, p) | _ => False end.

(** Mounts that are still mounted stay, with their own reference. *)
Definition keeps s (c : fs_call) s' : Prop :=
  forall i, 0 < spare s i -> ~ unmounts s c i -> spare s' i = spare s i.

Lemma target_live s path i p :
  target s path = Some (i, p) ->
  exists m, mnt s !! i = Some m /\ render (normal (take 511 path)) = mt_path m ++ p.
Proof. intros H. apply first_mount_live in H as (m & ? & ? & _). eauto. Qed.

(** The common beginning of the calls on paths. *)
Lemma lookup_run {A} s path (k : option (nat * list Z) -> M vfs A) :
  vinv s -> c_string path ->
  (let* temppath := temppath path in let* found := find_mount temppath in k found) s = k (target s path) s.
Proof.
  intros H Hc. rewrite (bind_some _ _ _ _ _ (temppath_run s path Hc)).
  by rewrite (bind_some _ _ _ _ _ (find_mount_run s _ H)).
Qed.

Lemma on_world_run {A} s (c : W -> A * W) :
  exists a w, on_world c s = Some (a, set_world w s) /\ c (world s) = (a, w).
Proof. unfold on_world. destruct (c (world s)) as [a w]. eauto. Qed.

(** A call that only asks the file system. *)
Lemma world_safe s (c : W -> Z * W) call :
  vinv s -> exists r s', on_world c s = Some (r, s') /\ vinv s' /\ keeps s call s'.
Proof.
  intros H. destruct (on_world_run s c) as (r & w & E & _). exists r, (set_world w s).
  split; [done|]. split; [by apply vinv_world|]. by intros i.
Qed.

Lemma file_safe s i f : vinv s -> files s !! i = Some f -> exists m, mnt s !! fl_mount f = Some m.
Proof. intros H Hf. destruct (v_files _ H i f Hf) as [m Hm]. eauto. Qed.

Lemma new_file_safe s call new i m cookie w :
  vinv s -> files s !! new = None -> mnt s !! i = Some m ->
  exists r s', new_file new i cookie (set_world w s) = Some (r, s') /\ vinv s' /\ keeps s call s'.
Proof.
  intros H Hn Hi. destruct (new_file_run (set_world w s) new i m cookie) as (s' & E & Hv & Hsp & _);
    [by apply vinv_world|done|done|].
  exists 0, s'. split; [done|]. split; [done|]. intros k _ _. apply (Hsp k).
Qed.

(** Another state of lib/bio that holds every mounted device open. *)
Lemma vinv_bios s b : vinv s -> bio_ok b -> (forall d, nmounts s d <= held b d) -> vinv (set_bios b s).
Proof. by intros []. Qed.

Lemma nfiles_fresh s i : vinv s -> mnt s !! i = None -> nfiles s i = 0.
Proof.
  intros H Hi. unfold nfiles, count. destruct (List.filter _ _) as [|[j f] l] eqn:El; [done|exfalso].
  assert (Hin : In (j, f) ((j, f) :: l)) by (by left). rewrite <- El in Hin.
  apply filter_In in Hin as [Hin Hf]. apply bool_decide_eq_true in Hf. cbn in Hf.
  apply list_elem_of_In, elem_of_map_to_list in Hin. apply (v_files _ H) in Hin as [? ?]. congruence.
Qed.

Lemma fresh_unlinked s i : vinv s -> mnt s !! i = None -> list_in_list (mounts s) i = false.
Proof.
  intros H Hi. destruct (list_in_list (mounts s) i) eqn:El; [|done].
  apply in_list_spec in El as ([] & El); [|by destruct H]. apply (v_listed _ H) in El as [? ?]. congruence.
Qed.

(** A new mount at the head of the list, its device open once more. *)
Lemma vinv_new_mount s new m :
  vinv s -> mnt s !! new = None -> mt_refs m = 1 ->
  nmounts s (mt_dev m) + 1 <= held (bios s) (mt_dev m) ->
  vinv (set_mounts (list_add_head tt new) (set_mnt (insert new m) s)).
Proof.
  intros H Hnew Hr1 Hheld. pose proof (nfiles_fresh s new H Hnew) as Hnf.
  pose proof (fresh_unlinked s new H Hnew) as Hnl. destruct H as [Hl Hli Hf Hr Hb Hhe].
  constructor; cbn [mounts mnt files bios set_mounts set_mnt].
  - by apply add_head_ok.
  - intros i. rewrite add_head_contents, decide_True by done. rewrite elem_of_cons, Hli.
    destruct (decide (i = new)) as [->|]; [rewrite lookup_insert_eq|rewrite lookup_insert_ne by done].
    + split; [by eexists|by left].
    + naive_solver.
  - intros j f Hj. specialize (Hf j f Hj). destruct (decide (fl_mount f = new)) as [->|];
      [rewrite lookup_insert_eq; by eexists|by rewrite lookup_insert_ne].
  - intros i m'. destruct (decide (i = new)) as [->|].
    + rewrite lookup_insert_eq. intros [= <-]. split; [lia|]. change (nfiles s new <= mt_refs m). lia.
    + rewrite lookup_insert_ne by done. apply Hr.
  - done.
  - intros d. specialize (Hhe d). unfold nmounts in *. cbn [mnt set_mounts set_mnt].
    rewrite count_new by done. case_bool_decide; simplify_eq; lia.
Qed.

Lemma mount_safe s new path device type :
  vinv s -> c_string path -> mnt s !! new = None ->
  exists r s', mount new path device type s = Some (r, s') /\ vinv s' /\ forall i, 0 < spare s i -> spare s' i = spare s i.
Proof.
  intros H Hc Hnew. unfold mount. rewrite (bind_some _ _ _ _ _ (temppath_run s path Hc)).
  destruct (negb _); [by exists ERR_BAD_PATH, s|].
  rewrite (bind_some _ _ _ _ _ (find_mount_run s _ H)).
  destruct (lookup_path s _); [by exists ERR_ALREADY_MOUNTED, s|].
  destruct (open_law device (bios s) (v_bio _ H)) as (r & b' & Eb & Hb' & Hh).
  erewrite bind_some by (unfold on_bio; rewrite Eb; done).
  assert (Hle : forall d, nmounts s d + (if bool_decide (r = Some d) then 1 else 0) <= held b' d).
  { intros d. specialize (Hh d). pose proof (v_held _ H d). lia. }
  assert (H1 : vinv (set_bios b' s)).
  { apply vinv_bios; [done|done|]. intros d. specialize (Hle d). case_bool_decide; lia. }
  destruct r as [dev|]; [|by exists ERR_NOT_FOUND, (set_bios b' s)].
  specialize (Hle dev) as Hdev. rewrite bool_decide_true in Hdev by done.
  destruct (on_world_run (set_bios b' s) (ft_mount type dev)) as ([err cookie] & w & E & _).
  rewrite (bind_some _ _ _ _ _ E). destruct (err <? 0).
  - destruct (close_law dev b' Hb') as (b2 & Eb2 & Hb2 & Hh2).
    { pose proof (count_nonneg (fun m => bool_decide (mt_dev m = dev)) (mnt s)). unfold nmounts in *. lia. }
    erewrite bind_some by (unfold on_bio; cbn [bios set_world set_bios]; rewrite Eb2; done).
    eexists err, _. split; [done|]. split; [|done].
    apply (vinv_bios (set_world w s)); [by apply vinv_world|done|].
    intros d. specialize (Hle d). specialize (Hh2 d). change (nmounts (set_world w s) d) with (nmounts s d).
    repeat case_bool_decide; simplify_eq; lia.
  - erewrite bind_some by done. erewrite bind_some by done. eexists 0, _. split; [done|]. split.
    + apply vinv_new_mount; [by apply vinv_world|done|done|]. cbn [mt_dev bios set_world set_bios].
      exact Hdev.
    + intros i Hi. unfold spare in *. cbn [mnt set_mounts set_mnt].
      destruct (decide (i = new)) as [->|]; [by rewrite Hnew in Hi|by rewrite lookup_insert_ne].
Qed.

(** Closing a file, in terms of its mount. *)
Lemma close_safe s j f :
  vinv s -> files s !! j = Some f ->
  exists r s', fs_close_file j s = Some (r, s') /\ vinv s' /\ forall i, 0 < spare s i -> spare s' i = spare s i.
Proof.
  intros H Hj. destruct (file_safe s j f H Hj) as (m & Hm). unfold fs_close_file.
  rewrite (bind_some _ _ _ _ _ (get_file_run s j f Hj)), (bind_some _ _ _ _ _ (get_mount_run s _ m Hm)).
  destruct (on_world_run s (ft_close (mt_type m) (fl_cookie f))) as (err & w & E & _).
  rewrite (bind_some _ _ _ _ _ E). pose proof (vinv_world s w H) as H1.
  destruct (err <? 0); [by exists err, (set_world w s)|].
  pose proof (count_delete (fun g => bool_decide (fl_mount g = fl_mount f)) (files s) j f Hj) as Hcd.
  cbv beta in Hcd. rewrite bool_decide_true in Hcd by done. destruct (v_refs _ H _ m Hm) as [Hr1 Hr2].
  destruct (put_mount_run (set_world w s) (fl_mount f) m (delete j) H1 Hm) as (s2 & E2 & Hf2 & Hv2 & Hm2).
  { intros k g Hk. cbn in Hk. by apply lookup_delete_Some in Hk as [_ ?]. }
  { cbn [files set_world]. unfold nfiles in Hr2. lia. }
  { intros k. cbn [files set_world]. unfold nfiles. rewrite (count_delete _ _ _ f Hj).
    destruct (bool_decide _); cbn [files set_world]; lia. }
  rewrite (bind_some _ _ _ _ _ E2). erewrite bind_some by done.
  eexists 0, _. split; [done|]. split; [done|]. intros i Hi. unfold spare, nfiles in *.
  cbn [mnt files set_files]. rewrite Hm2, Hf2. cbn [mnt files set_world].
  rewrite (count_delete _ _ _ f Hj). destruct (decide (i = fl_mount f)) as [->|Hne].
  - rewrite Hm in Hi |- *. cbv beta. rewrite bool_decide_true by done.
    pose proof (count_pos (fun g => bool_decide (fl_mount g = fl_mount f)) (files s) j f Hj ltac:(by apply bool_decide_true)).
    destruct (Z.eqb_spec (mt_refs m) 1); [lia|]. rewrite lookup_insert_eq. cbn [mt_refs set_refs]. lia.
  - cbv beta. rewrite bool_decide_false by done. replace ((if mt_refs m =? 1 then _ else _) !! i) with (mnt s !! i)
      by (destruct (mt_refs m =? 1); [by rewrite lookup_delete_ne|by rewrite lookup_insert_ne]).
    destruct (mnt s !! i); lia.
Qed.

(** Unmounting a mount whose own reference is still there. *)
Lemma unmount_safe s path :
  vinv s -> c_string path -> (forall i p, target s path = Some (i, p) -> 0 < spare s i) ->
  exists r s', fs_unmount path s = Some (r, s') /\ vinv s' /\
    forall i, ~ (exists p, target s path = Some (i, p)) -> spare s' i = spare s i.
Proof.
  intros H Hc Hsp. unfold fs_unmount. rewrite lookup_run by done.
  destruct (target s path) as [[i p]|] eqn:Et; [|by exists ERR_NOT_FOUND, s].
  destruct (target_live s path i p Et) as (m & Hm & _). specialize (Hsp i p eq_refl).
  unfold spare in Hsp. rewrite Hm in Hsp.
  destruct (put_mount_run s i m (fun f => f) H Hm) as (s2 & E2 & Hf2 & Hv2 & Hm2).
  { done. } { unfold nfiles in Hsp. lia. } { intros k. unfold nfiles. lia. }
  rewrite (bind_some _ _ _ _ _ E2). exists 0, s2. split; [done|].
  replace (set_files (fun f => f) s2) with s2 in Hv2 by (by destruct s2). split; [done|].
  intros k Hk. unfold spare, nfiles. rewrite Hm2, Hf2.
  assert (k <> i) by (intros ->; eauto).
  replace ((if mt_refs m =? 1 then _ else _) !! k) with (mnt s !! k)
    by (destruct (mt_refs m =? 1); [by rewrite lookup_delete_ne|by rewrite lookup_insert_ne]). done.
Qed.

(** ** The theorems *)


(** [fs_open_file] normalises the path and hands it to the first mount of the
    list whose path is a prefix of it, byte for byte, with that prefix cut off;
    no mount is an error, and an error of the file system is passed on without
    a trace.  A prefix need not end at a field: a file system mounted at /a is
    asked for the path /ab, as b. *)
Theorem fs_open_file_spec s new path :
  vinv s -> c_string path -> files s !! new = None ->
  match target s path with
  | None => fs_open_file new path s = Some (ERR_NOT_FOUND, s)
  | Some (i, newpath) =>
      exists m, mnt s !! i = Some m /\ render (normal (take 511 path)) = mt_path m ++ newpath /\
        match ft_open (mt_type m) (mt_cookie m) newpath (world s) with
        | (err, cookie, w) =>
            if err <? 0 then fs_open_file new path s = Some (err, set_world w s)
            else exists s', fs_open_file new path s = Some (0, s') /\ world s' = w /\
                   files s' = <[new := {| fl_cookie := cookie; fl_mount := i |}]> (files s) /\
                   mnt s' = <[i := set_refs (mt_refs m + 1) m]> (mnt s)
        end
  end.
Proof.
  intros H Hc Hn. destruct (target s path) as [[i p]|] eqn:Et.
  - destruct (target_live s path i p Et) as (m & Hm & Hp). exists m. split_and!; [done|done|].
    unfold fs_open_file. rewrite lookup_run by done. rewrite Et.
    rewrite (bind_some _ _ _ _ _ (get_mount_run s i m Hm)).
    destruct (on_world_run s (ft_open (mt_type m) (mt_cookie m) p)) as ([err cookie] & w & E & ->).
    rewrite (bind_some _ _ _ _ _ E). destruct (err <? 0); [done|].
    unfold new_file. rewrite (bind_some _ _ _ _ _ (get_mount_run (set_world w s) i m Hm)).
    eexists. split; [done|]. done.
  - unfold fs_open_file. rewrite lookup_run by done. by rewrite Et.
Qed.

(** A second [fs_unmount] of the same mount takes the reference of an open
    file: it is accepted with result 0, frees the mount, and leaves the file
    with a dangling mount, so that reading it accesses freed memory. *)
Theorem fs_unmount_twice s path i p m j f :
  vinv s -> c_string path -> target s path = Some (i, p) -> mnt s !! i = Some m ->
  files s !! j = Some f -> fl_mount f = i -> mt_refs m = 1 ->
  exists s', fs_unmount path s = Some (0, s') /\ mnt s' !! i = None /\ files s' !! j = Some f /\
    forall buf off len, fs_read_file j buf off len s' = None.
Proof.
  intros H Hc Et Hm Hj Hf Hr. unfold fs_unmount. rewrite lookup_run by done. rewrite Et.
  destruct (put_mount_run s i m (fun _ => ∅) H Hm) as (s2 & E2 & Hf2 & Hv2 & Hm2).
  { intros k g Hk. by rewrite lookup_empty in Hk. }
  { rewrite Hr. done. }
  { intros k. unfold nfiles. pose proof (count_nonneg (fun f => bool_decide (fl_mount f = k)) (files s)).
    change (count _ ∅) with 0. lia. }
  rewrite (bind_some _ _ _ _ _ E2). rewrite Hr, Z.eqb_refl in Hm2. exists s2.
  assert (Hd : mnt s2 !! i = None) by (rewrite Hm2; apply lookup_delete_eq).
  assert (Hj2 : files s2 !! j = Some f) by (by rewrite Hf2).
  split_and!; [done|done|done|]. intros buf off len. unfold fs_read_file.
  rewrite (bind_some _ _ _ _ _ (get_file_run s2 j f Hj2)). unfold bind, get_mount, getopt. by rewrite Hf, Hd.
Qed.
End calls.

(** C31: [fs_normalize_path] works in place on any NUL-terminated path: it ends,
    leaves the path whose fields are those of the specification (empty fields
    and [.] dropped, [..] removing the field before it), which is never longer,
    writes nothing outside the old string, and a second call changes nothing.
    A path without fields left, such as [/] itself, becomes the empty string. *)
Theorem fs_normalize_path_spec (m : mem) (path : Z) (s : list Z) :
  cstr m path s ->
  exists m', fs_normalize_path path m = Some (tt, m') /\
    cstr m' path (render (normal s)) /\ zlen (render (normal s)) <= zlen s /\
    same_outside m m' path (zlen s + 1) /\
    render (normal (render (normal s))) = render (normal s) /\
    ((normal s).2 = [] -> render (normal s) = []).
Proof.
  intros Hs. destruct (fs_normalize_path_run m path s Hs) as (m' & E & Hc & Hl & Ho).
  assert (Hz : Forall (fun c => c <> 0) s).
  { destruct Hs as [Hch _]. eapply Forall_impl; [exact Hch|]. unfold char. lia. }
  pose proof (normal_real s Hz) as Hr. exists m'. split_and!; try done.
  - destruct (normal s) as [abs cs]. by apply render_normal_render.
  - destruct (normal s) as [abs cs]. cbn [snd]. intros ->. by destruct abs.
Qed.

(** ["/a//./b/../c/"] becomes ["/a/c"]. *)
Lemma fs_normalize_path_spec_witness :
  exists m', fs_normalize_path 100 (store ∅ 100 [47; 97; 47; 47; 46; 47; 98; 47; 46; 46; 47; 99; 47; 0]) = Some (tt, m') /\
    cstr m' 100 [47; 97; 47; 99].
Proof.
  destruct (fs_normalize_path_spec (store ∅ 100 [47; 97; 47; 47; 46; 47; 98; 47; 46; 46; 47; 99; 47; 0]) 100
    [47; 97; 47; 47; 46; 47; 98; 47; 46; 46; 47; 99; 47]) as (m' & E & Hc & _).
  - split; [repeat (constructor; [unfold char; lia|]); constructor|repeat split].
  - exists m'. split; [exact E|exact Hc].
Defined.

(** ** Witnesses: one mount at /a of a file system that accepts everything *)

Section witnesses.
#[local] Existing Instance ref_ops.
#[local] Existing Instance ref_laws.

(** A reference model of lib/bio: how often each device is open. *)
#[local] Instance counter_bio : BioOpen (nat -> Z) := {|
  dev_open := fun name b =>
    if bool_decide (name = "disk"%string) then Some (Some 0%nat, fun e => if bool_decide (e = 0%nat) then b e + 1 else b e)
    else Some (None, b);
  dev_close := fun d b =>
    if 0 <? b d then Some (tt, fun e => if bool_decide (e = d) then b e - 1 else b e) else None;
|}.

#[local] Instance counter_laws : BioLaws (nat -> Z).
Proof.
  refine {| bio_ok := fun _ => True; held := fun b d => b d |}.
  - intros name b _. cbn. case_bool_decide.
    + eexists _, _. split; [done|]. split; [done|]. intros e. cbn. repeat case_bool_decide; simplify_eq; lia.
    + eexists _, _. split; [done|]. split; [done|]. intros e. rewrite bool_decide_false by done. lia.
  - intros d b _ Hd. cbn. destruct (Z.ltb_spec 0 (b d)); [|lia]. eexists. split; [done|]. split; [done|].
    intros e. cbn. repeat case_bool_decide; simplify_eq; lia.
Defined.

Definition toy_fs : fs_type unit :=
  {| ft_name := "toy"; ft_mount := fun _ w => (0, 1, w); ft_unmount := fun _ w => (0, w);
     ft_open := fun _ _ w => (0, 7, w); ft_create := None; ft_mkdir := None;
     ft_stat := fun _ w => (0, {| st_is_dir := false; st_size := 3 |}, w);
     ft_read := fun _ buf _ _ w => (0, buf, w); ft_write := None; ft_close := fun _ w => (0, w) |}.

Definition toy_mount : fs_mount unit :=
  {| mt_path := [47; 97]; mt_dev := 0; mt_cookie := 1; mt_refs := 1; mt_type := toy_fs |}.
Definition toy_file : fs_file := {| fl_cookie := 7; fl_mount := 0 |}.

Definition demo_vfs (F : gmap nat fs_file) : vfs (W := unit) (B := nat -> Z) :=
  {| mounts := list_add_head tt 0%nat ref_empty; mnt := {[0%nat := toy_mount]};
     files := F; bios := fun _ => 1; world := tt |}.

Lemma demo_inv F :
  (forall j f, F !! j = Some f -> fl_mount f = 0%nat) ->
  count (fun f => bool_decide (fl_mount f = 0%nat)) F <= 1 -> vinv (demo_vfs F).
Proof.
  intros HF Hn. constructor; cbn [mounts mnt files bios demo_vfs].
  - apply (add_head_ok (ListLaws := ref_laws nat unit) ref_empty tt 0%nat); [apply ref_empty_ok|reflexivity].
  - intros i. change (i ∈ [0%nat] <-> is_Some (({[0%nat := toy_mount]} : gmap nat (fs_mount unit)) !! i)).
    rewrite list_elem_of_singleton. split; [intros ->; by eexists|].
    intros [m Hm]. by apply lookup_singleton_Some in Hm as [? _].
  - intros j f Hj. rewrite (HF j f Hj). by eexists.
  - intros i m Hi. apply lookup_singleton_Some in Hi as [<- <-]. split; [done|]. exact Hn.
  - done.
  - intros d. change (count (fun m => bool_decide (mt_dev m = d)) (<[0%nat := toy_mount]> ∅) <= 1).
    rewrite count_new by apply lookup_empty. change (count _ ∅) with 0. case_bool_decide; lia.
Qed.


(** Opening /ab while /a is mounted. *)
Lemma fs_open_file_spec_witness :
  target (demo_vfs ∅) [47; 97; 98] = Some (0%nat, [98]) /\
  exists s', fs_open_file 5 [47; 97; 98] (demo_vfs ∅) = Some (0, s').
Proof.
  assert (Et : target (demo_vfs ∅) [47; 97; 98] = Some (0%nat, [98])) by (vm_compute; reflexivity).
  split; [exact Et|].
  pose proof (fs_open_file_spec (demo_vfs ∅) 5 [47; 97; 98]) as H. rewrite Et in H.
  destruct H as (m & Hm & _ & H).
  - apply demo_inv; [intros j f Hj; by rewrite lookup_empty in Hj|]. vm_compute. discriminate.
  - repeat (constructor; [discriminate|]). constructor.
  - reflexivity.
  - assert (m = toy_mount) as -> by (change (Some toy_mount = Some m) in Hm; congruence). cbn in H. destruct H as (s' & E & _). exists s'. exact E.
Defined.

(** The first [fs_unmount] has been made; the file is open. *)
Lemma fs_unmount_twice_witness :
  exists s', fs_unmount [47; 97] (demo_vfs {[5%nat := toy_file]}) = Some (0, s') /\
    fs_read_file 5 [0] 0 1 s' = None.
Proof.
  destruct (fs_unmount_twice (demo_vfs {[5%nat := toy_file]}) [47; 97] 0 [] toy_mount 5 toy_file)
    as (s' & E & _ & _ & Hr).
  - apply demo_inv; [intros j f Hj; by apply lookup_singleton_Some in Hj as [_ <-]|]. vm_compute. discriminate.
  - repeat (constructor; [discriminate|]). constructor.
  - vm_compute. reflexivity.
  - reflexivity.
  - reflexivity.
  - reflexivity.
  - reflexivity.
  - exists s'. split; [exact E|apply Hr].
Defined.
End witnesses.
