(* ===== verification/Ext2.v ===== *)
(** * The ext2 file system: lib/fs/ext2

    The read-only driver of ext2.c, io.c, dir.c and file.c, on top of the block
    cache.  What [ext2_t] holds apart from the cache is the record [ext2], an
    argument of the operations, whose state is the cache.  On-disk structures
    are read from the bytes of a block at the offsets of ext2_fs.h, with the
    fields the code uses; the target is little-endian, so the swaps of endian.h
    do nothing.  [i_block] stays the 60 raw bytes, which are block pointers or
    the text of a short link.

    Memory that C leaves uninitialised (the arrays on the stack, [malloc]) has
    the contents [junk n].  An access outside an array and a division by zero
    are panics, as is an oversized shift.  A path is the list of its characters
    without the NUL; the code's pointer into it is the rest of that list. *)

From S2P Require Import Prelude Arrays ListH Bio Bcache Fs.
Local Open Scope lk_scope.

(** ** On-disk structures *)

Definition le_field (l : list Z) (off n : nat) : Z := le_value (slice l off n).

Record ext2_super_block : Type := {
  s_blocks_count : Z;
  s_log_block_size : Z;
  s_blocks_per_group : Z;
  s_inodes_per_group : Z;
  s_magic : Z;
  s_rev_level : Z;
  s_inode_size : Z;
  s_feature_ro_compat : Z;
}.
Definition read_super_block (l : list Z) : ext2_super_block :=
  {| s_blocks_count := le_field l 4 4; s_log_block_size := le_field l 24 4;
     s_blocks_per_group := le_field l 32 4; s_inodes_per_group := le_field l 40 4;
     s_magic := le_field l 56 2; s_rev_level := le_field l 76 4;
     s_inode_size := le_field l 88 2; s_feature_ro_compat := le_field l 100 4 |}.

Record ext2_group_desc : Type := { bg_block_bitmap : Z; bg_inode_bitmap : Z; bg_inode_table : Z }.
Definition read_group_desc (l : list Z) (i : nat) : ext2_group_desc :=
  {| bg_block_bitmap := le_field l (32 * i) 4; bg_inode_bitmap := le_field l (32 * i + 4) 4;
     bg_inode_table := le_field l (32 * i + 8) 4 |}.

Record ext2_inode : Type := { i_mode : Z; i_size : Z; i_block : list Z; i_size_high : Z }.
Definition read_inode_struct (l : list Z) : ext2_inode :=
  {| i_mode := le_field l 0 2; i_size := le_field l 4 4; i_block := slice l 40 60; i_size_high := le_field l 108 4 |}.

Definition S_IFMT : Z := 61440.
Definition S_ISDIR (mode : Z) : bool := Z.land mode S_IFMT =? 16384.
Definition S_ISREG (mode : Z) : bool := Z.land mode S_IFMT =? 32768.
Definition S_ISLNK (mode : Z) : bool := Z.land mode S_IFMT =? 40960.

Definition EXT2_SUPER_MAGIC : Z := 61267.
Definition EXT2_ROOT_INO : Z := 2.
Definition EXT2_DYNAMIC_REV : Z := 1.
Definition EXT2_FEATURE_RO_COMPAT_SPARSE_SUPER : Z := 1.
Definition EXT2_FEATURE_RO_COMPAT_LARGE_FILE : Z := 2.
Definition EXT2_NDIR_BLOCKS : Z := 12.
Definition EXT2_IND_BLOCK : Z := EXT2_NDIR_BLOCKS.
Definition EXT2_DIND_BLOCK : Z := EXT2_IND_BLOCK + 1.
Definition EXT2_TIND_BLOCK : Z := EXT2_DIND_BLOCK + 1.

Definition EXT2_BLOCK_SIZE (sb : ext2_super_block) : Z := u32 (Z.shiftl 1024 (s_log_block_size sb)).
Definition EXT2_ADDR_PER_BLOCK (sb : ext2_super_block) : Z := EXT2_BLOCK_SIZE sb / 4.
Definition EXT2_INODE_SIZE (sb : ext2_super_block) : Z :=
  if s_rev_level sb =? 0 then 128 else s_inode_size sb.

Record ext2 : Type := {
  sb : ext2_super_block;
  s_group_count : Z;
  gd : list ext2_group_desc;
  root_inode : ext2_inode;
}.

Record cache_block : Type := { cb_num : Z; cb_ptr : Z }.
Record ext2_file : Type := { ind_cache : list cache_block; f_inode : ext2_inode }.

(** ** Block pointers *)

(** The level and the positions of a block pointer; [None] is the error. *)
Definition ext2_calculate_block_pointer_pos (sb : ext2_super_block) (block_to_find : Z) : option (Z * list Z) :=
  if block_to_find <? EXT2_NDIR_BLOCKS then Some (0, [block_to_find])
  else
    let per_block := EXT2_ADDR_PER_BLOCK sb in
    let block_to_find := u32 (block_to_find - EXT2_NDIR_BLOCKS) in
    if block_to_find <? per_block then Some (1, [EXT2_IND_BLOCK; block_to_find])
    else
      let block_to_find := u32 (block_to_find - per_block) in
      let per_2nd := u32 (per_block * per_block) in
      if block_to_find <? per_2nd then
        Some (2, [EXT2_DIND_BLOCK; block_to_find / per_block; block_to_find mod per_block])
      else
        let block_to_find := u32 (block_to_find - per_2nd) in
        if block_to_find <? u32 (per_2nd * per_block) then
          Some (3, [EXT2_TIND_BLOCK; block_to_find / per_2nd;
                    (block_to_find mod per_2nd) / per_block; (block_to_find mod per_2nd) mod per_block])
        else None.

(** [p[n]] for an array of 32-bit words in [l]. *)
Definition word_at (l : list Z) (n : Z) : option Z := le_value <$> range l (4 * n) 4.

Definition ext2_file_len (sb : ext2_super_block) (inode : ext2_inode) : Z :=
  let len := i_size inode in
  if negb (Z.land (s_feature_ro_compat sb) EXT2_FEATURE_RO_COMPAT_LARGE_FILE =? 0) && S_ISREG (i_mode inode)
  then s64 (Z.lor len (Z.shiftl (i_size_high inode) 32)) else len.

(** The text before the first slash, and what is behind it. *)
Fixpoint split_slash (l : list Z) : list Z * option (list Z) :=
  match l with
  | [] => ([], None)
  | c :: l' => if c =? 47 then ([], Some l') else let '(w, r) := split_slash l' in (c :: w, r)
  end.
Fixpoint skip_slashes (l : list Z) : list Z :=
  match l with c :: l' => if c =? 47 then skip_slashes l' else l | [] => [] end.

Section ext2.
Context {D : Type} `{LO : ListOps nat bc_list} `{BD : !ByteDev D} (junk : Z -> list Z).

Definition getres {A} (o : option A) : M (bcache D) A := getopt (fun _ => o).

(** The bytes a pointer from [ext2_get_block] points to. *)
Definition deref (ptr : option nat) : M (bcache D) (list Z) :=
  match ptr with Some i => let* b := block_at i in ret (blk_data b) | None => panic end.

(** Into the buffer [buf] from position [p]. *)
Definition ext2_read_block (buf : list Z) (p bnum : Z) : M (bcache D) (Z * list Z) :=
  let* (err, data) := bcache_read_block bnum in
  if err <? 0 then ret (err, buf) else let* buf := getres (blit_at buf p data) in ret (err, buf).
Definition ext2_get_block (bnum : Z) : M (bcache D) (Z * option nat) := bcache_get_block bnum.
Definition ext2_put_block (bnum : Z) : M (bcache D) Z := bcache_put_block bnum.

(** ** Inodes *)

Section volume.
Context (fs : ext2).
Abbreviation bs := (EXT2_BLOCK_SIZE (sb fs)).

Definition get_inode_addr (num : Z) : M (bcache D) (Z * Z) :=
  let num := u32 (num - 1) in
  assert_ (negb (s_inodes_per_group (sb fs) =? 0)) ;;;
  let* g := getres (gd fs !! Z.to_nat (num / s_inodes_per_group (sb fs))) in
  let offset := u32 ((num mod s_inodes_per_group (sb fs)) * EXT2_INODE_SIZE (sb fs)) in
  assert_ (negb (bs =? 0)) ;;;
  ret (u32 (bg_inode_table g + offset / bs), offset mod bs).

(** [None] is the error [err]. *)
Definition ext2_load_inode (num : Z) : M (bcache D) (Z * option ext2_inode) :=
  let* (bnum, block_offset) := get_inode_addr num in
  let* (err, ptr) := bcache_get_block bnum in
  if err <? 0 then ret (err, None)
  else
    let* data := deref ptr in
    let* l := getres (range data block_offset 128) in
    bcache_put_block bnum ;;;
    ret (0, Some (read_inode_struct l)).

(** ** Reading through an inode *)

(** The loop that digs down to the last table: error, table, its block. *)
Fixpoint indirect_loop (fuel : nat) (inode : ext2_inode) (level : Z) (pos : list Z)
    (current_level current_block : Z) (block : option nat) (block_loaded : Z) : M (bcache D) (Z * option nat * Z) :=
  match fuel with
  | O => panic
  | S fuel' =>
      if current_level <? level then
        let* current_block :=
          if current_level =? 0
          then let* p := getres (pos !! 0%nat) in getres (word_at (i_block inode) p)
          else ret current_block in
        if current_block =? 0 then ret (-1, None, 0)
        else
          let last_block := current_block in
          let current_level := current_level + 1 in
          let* (err, block) := ext2_get_block current_block in
          if err <? 0 then ret (err, None, 0)
          else if current_level <? level then
            let* data := deref block in
            let* p := getres (pos !! Z.to_nat current_level) in
            let* next := getres (word_at data p) in
            ext2_put_block last_block ;;;
            indirect_loop fuel' inode level pos current_level next block last_block
          else indirect_loop fuel' inode level pos current_level current_block block last_block
      else ret (0, block, block_loaded)
  end.
Definition ext2_get_indirect_block_pointer_cache_block (inode : ext2_inode) (level : Z) (pos : list Z)
    : M (bcache D) (Z * option nat * Z) :=
  if (3 <? level) || (level =? 0) then ret (-1, None, 0)
  else indirect_loop 4 inode level pos 0 0 None 0.

Definition file_block_to_fs_block (inode : ext2_inode) (fileblock : Z) : M (bcache D) Z :=
  let '(level, pos) := default (0, []) (ext2_calculate_block_pointer_pos (sb fs) fileblock) in
  if level =? 0 then getres (word_at (i_block inode) fileblock)
  else
    let* (err, ind_table, phys_block) := ext2_get_indirect_block_pointer_cache_block inode level pos in
    if err <? 0 then ret 0
    else
      let* data := deref ind_table in
      let* p := getres (pos !! Z.to_nat level) in
      let* block := getres (word_at data p) in
      ext2_put_block phys_block ;;;
      ret block.

(** The block of a file into a buffer; a hole reads as zeros.  The result of
    [ext2_read_block] is not looked at. *)
Definition read_file_block (inode : ext2_inode) (file_block : Z) (buf : list Z) (p : Z) : M (bcache D) (list Z) :=
  let* phys_block := file_block_to_fs_block inode file_block in
  if phys_block =? 0 then getres (blit_at buf p (replicate (Z.to_nat bs) 0))
  else let* (_, buf) := ext2_read_block buf p phys_block in ret buf.

(** Part of a block, through an array on the stack. *)
Definition read_part (inode : ext2_inode) (file_block : Z) (buf : list Z) (p block_offset n : Z) : M (bcache D) (list Z) :=
  let* temp := read_file_block inode file_block (junk bs) 0 in
  let* l := getres (range temp block_offset n) in
  getres (blit_at buf p l).

Fixpoint middle_loop (fuel : nat) (inode : ext2_inode) (buf : list Z) (p file_block len bytes_read : Z)
    : M (bcache D) (list Z * Z * Z * Z * Z) :=
  match fuel with
  | O => panic
  | S fuel' =>
      if bs <=? len then
        let* buf := read_file_block inode file_block buf p in
        middle_loop fuel' inode buf (p + bs) (u32 (file_block + 1)) (len - bs) (s32 (bytes_read + bs))
      else ret (buf, p, file_block, len, bytes_read)
  end.

(** The count or an error, and the buffer. *)
Definition ext2_read_inode (inode : ext2_inode) (buf : list Z) (offset len : Z) : M (bcache D) (Z * list Z) :=
  let file_size := ext2_file_len (sb fs) inode in
  if file_size <? offset then ret (0, buf)
  else
    let len := if u64 file_size <=? u64 (offset + len) then u64 (file_size - offset) else len in
    if len =? 0 then ret (0, buf)
    else
      assert_ (negb (bs =? 0)) ;;;
      let file_block := u32 (Z.quot offset bs) in
      let* (buf, p, file_block, len, bytes_read) :=
        (if negb (Z.rem offset bs =? 0) then
           let block_offset := u64 (Z.rem offset bs) in
           let tocopy := Z.min len (u64 (bs - block_offset)) in
           let* buf := read_part inode file_block buf 0 block_offset tocopy in
           ret (buf, tocopy, u32 (file_block + 1), len - tocopy, s32 tocopy)
         else ret (buf, 0, file_block, len, 0)) in
      let* (buf, p, file_block, len, bytes_read) :=
        middle_loop (S (Z.to_nat (len / bs))) inode buf p file_block len bytes_read in
      if 0 <? len then
        let* buf := read_part inode file_block buf p 0 len in
        ret (s32 (bytes_read + len), buf)
      else ret (bytes_read, buf).

(** The text of a symbolic link into [str], an array of [len] bytes. *)
Definition ext2_read_link (inode : ext2_inode) (str : list Z) (len : Z) : M (bcache D) (Z * list Z) :=
  let linklen := ext2_file_len (sb fs) inode in
  if (linklen <? 0) || (len <? u64 (linklen + 1)) then ret (ERR_NO_MEMORY, str)
  else if 60 <? linklen then
    let* (err, str) := ext2_read_inode inode str 0 linklen in
    if err <? 0 then ret (err, str)
    else let* str := getres (blit_at str linklen [0]) in ret (s32 linklen, str)
  else
    let* l := getres (range (i_block inode) 0 linklen) in
    let* str := getres (blit_at str 0 l) in
    let* str := getres (blit_at str linklen [0]) in
    ret (s32 linklen, str).

(** ** Directories *)

(** [ROUNDUP(a, 4)]. *)
Definition roundup4 (a : Z) : Z := Z.land (a + 3) (Z.lnot 3).

(** The walk over the entries of one block: the inode of the match. *)
Fixpoint entry_loop (fuel : nat) (buf name : list Z) (pos : Z) : M (bcache D) (option Z) :=
  match fuel with
  | O => panic
  | S fuel' =>
      if pos <? bs then
        let* rec_len := getres (le_value <$> range buf (pos + 4) 2) in
        if rec_len =? 0 then ret None
        else
          let* name_len := getres (le_value <$> range buf (pos + 6) 1) in
          let* found :=
            if name_len =? Z.of_nat (length name)
            then let* l := getres (range buf (pos + 8) name_len) in ret (bool_decide (l = name))
            else ret false in
          if (found : bool) then let* inum := getres (le_value <$> range buf pos 4) in ret (Some inum)
          else entry_loop fuel' buf name (u32 (pos + roundup4 rec_len))
      else ret None
  end.

(** [n] blocks may still be read. *)
Fixpoint lookup_loop (n : nat) (dir_inode : ext2_inode) (buf name : list Z) (file_blocknum : Z) : M (bcache D) (Z * Z) :=
  match n with
  | O => ret (-1, 0)
  | S n' =>
      let* (err, buf) := ext2_read_inode dir_inode buf (u32 (file_blocknum * bs)) bs in
      if err <=? 0 then ret (-1, 0)
      else
        let* found := entry_loop (S (Z.to_nat bs)) buf name 0 in
        match found with
        | Some inum => ret (1, inum)
        | None => lookup_loop n' dir_inode buf name (file_blocknum + 1)
        end
  end.

(** The result and [*inum]. *)
Definition ext2_dir_lookup (dir_inode : ext2_inode) (name : list Z) : M (bcache D) (Z * Z) :=
  if negb (S_ISDIR (i_mode dir_inode)) then ret (ERR_NOT_DIR, 0)
  else lookup_loop 1025 dir_inode (junk bs) name 0.

Section walk.
(** [ext2_walk] one level deeper. *)
Context (recur : list Z -> ext2_inode -> M (bcache D) (Z * Z)).

(** From the label [nextcomponent]: an error, or the directory to go on from
    and the inode number. *)
Fixpoint next_component (fuel : nat) (done : bool) (dir_inode : ext2_inode) (inum : Z)
    : M (bcache D) (Z + ext2_inode * Z) :=
  match fuel with
  | O => panic
  | S fuel' =>
      let* (err, inode) := ext2_load_inode inum in
      match inode with
      | None => ret (inl err)
      | Some inode =>
          if S_ISLNK (i_mode inode) then
            let* (err, link) := ext2_read_link inode (junk 512) 512 in
            if err <? 0 then ret (inl err)
            else
              let* link := getres (until_nul link) in
              let start := if bool_decide (head link = Some 47) then root_inode fs else dir_inode in
              let* (err, inum) := recur link start in
              if err <? 0 then ret (inl err)
              else if done then ret (inr (dir_inode, inum))
              else next_component fuel' done dir_inode inum
          else if S_ISDIR (i_mode inode) then ret (inr (inode, inum))
          else if done then ret (inr (dir_inode, inum))
          else ret (inl ERR_NOT_FOUND)
      end
  end.

Fixpoint walk_loop (fuel : nat) (ptr : list Z) (dir_inode : ext2_inode) : M (bcache D) (Z * Z) :=
  match fuel with
  | O => panic
  | S fuel' =>
      let '(component, next_sep) := split_slash ptr in
      let done := match next_sep with None => true | Some _ => false end in
      let* (err, inum) := ext2_dir_lookup dir_inode component in
      if err <? 0 then ret (err, inum)
      else
        let* res := next_component 2 done dir_inode inum in
        match res with
        | inl err => ret (err, inum)
        | inr (dir_inode, inum) =>
            match next_sep with
            | None => ret (0, inum)
            | Some rest => walk_loop fuel' (skip_slashes rest) dir_inode
            end
        end
  end.
End walk.

(** [left] is how many levels of links may still be followed: [recurse] is
    [5 - left]. *)
Fixpoint ext2_walk (left : nat) (path : list Z) (start_inode : ext2_inode) : M (bcache D) (Z * Z) :=
  match left with
  | O => ret (ERR_RECURSE_TOO_DEEP, 0)
  | S left' => walk_loop (ext2_walk left') (S (length path)) (skip_slashes path) start_inode
  end.

Definition ext2_lookup (path : list Z) : M (bcache D) (Z * Z) :=
  ext2_walk 4 (take 511 path) (root_inode fs).

(** ** Files *)

Definition ext2_open_file (path : list Z) : M (bcache D) (Z * option ext2_file) :=
  let* (err, inum) := ext2_lookup path in
  if err <? 0 then ret (err, None)
  else
    let* (err, inode) := ext2_load_inode inum in
    match inode with
    | None => ret (err, None)
    | Some inode =>
        ret (0, Some {| ind_cache := replicate 3 {| cb_num := 0; cb_ptr := 0 |}; f_inode := inode |})
    end.

Definition ext2_read_file (file : ext2_file) (buf : list Z) (offset len : Z) : M (bcache D) (Z * list Z) :=
  if negb (S_ISREG (i_mode (f_inode file))) then ret (-1, buf)
  else ext2_read_inode (f_inode file) buf offset len.

(** The memory that is freed besides the file itself. *)
Definition ext2_close_file (file : ext2_file) : Z * list Z :=
  (0, omap (fun c => if cb_num c =? 0 then None else Some (cb_ptr c)) (ind_cache file)).

Definition ext2_stat_file (file : ext2_file) : Z * file_stat :=
  (0, {| st_is_dir := S_ISDIR (i_mode (f_inode file)); st_size := ext2_file_len (sb fs) (f_inode file) |}).
End volume.

(** ** Mounting *)

(** [lists] holds the list heads of the cache and [nums] what [malloc] left in
    the block numbers of its slots. *)
Definition ext2_mount (lists : links) (nums : nat -> Z) (dev : D) : option (Z + ext2 * bcache D) :=
  match byte_read (junk 1024) 1024 1024 dev with
  | None => None
  | Some ((err, l), dev) =>
      if s32 err <? 0 then Some (inl (s32 err))
      else
        let sb := read_super_block l in
        if negb (s_magic sb =? EXT2_SUPER_MAGIC) then Some (inl (-1))
        else if s_blocks_per_group sb =? 0 then None
        else
          let count := s32 (u32 (s_blocks_count sb + s_blocks_per_group sb - 1) / s_blocks_per_group sb) in
          if EXT2_DYNAMIC_REV <? s_rev_level sb then Some (inl (-2))
          else if negb (Z.land (s_feature_ro_compat sb)
              (u32 (Z.lnot (Z.lor EXT2_FEATURE_RO_COMPAT_SPARSE_SUPER EXT2_FEATURE_RO_COMPAT_LARGE_FILE))) =? 0)
            then Some (inl (-3))
          else if 32 <=? s_log_block_size sb then None
          else
            let bs := EXT2_BLOCK_SIZE sb in
            match byte_read (junk (u64 (32 * count))) (if bs =? 4096 then 4096 else 2048) (u64 (32 * count)) dev with
            | None => None
            | Some ((err, l), dev) =>
                if s32 err <? 0 then Some (inl (-4))
                else
                  let gd := read_group_desc l <$> seq 0 (Z.to_nat count) in
                  let fs inode := {| sb := sb; s_group_count := count; gd := gd; root_inode := inode |} in
                  match bcache_create lists dev bs ((fun i => (nums i, junk bs)) <$> seq 0 4) with
                  | None => None
                  | Some cache =>
                      match ext2_load_inode (fs (read_inode_struct (junk 128))) EXT2_ROOT_INO cache with
                      | None => None
                      | Some ((err, None), _) => Some (inl err)
                      | Some ((_, Some inode), cache) => Some (inr (fs inode, cache))
                      end
                  end
            end
  end.

(** The dirty blocks the cache gives up. *)
Definition ext2_unmount : M (bcache D) (Z * list Z) :=
  let* lost := bcache_destroy in ret (0, lost).
End ext2.
