(* ===== verification/Ext2Spec.v ===== *)
(** * What the ext2 driver reads

    A volume is seen through the cache as a map from block numbers to blocks
    ([view]).  The specification reads files, directories and links off that map
    with unbounded arithmetic; the lemmas of this file say that the driver
    computes the same and leaves the cache as it found it. *)

From S2P Require Import Prelude Arrays ListH Bio BioSpec Bcache CacheSpec CacheOps Fs Ext2.
Local Open Scope lk_scope.

Implicit Types (sb : ext2_super_block) (fs : ext2) (inode : ext2_inode) (v : Z -> option (list Z)).

(** ** Block pointers *)

(** Block [j] of the [N]-ary tree of height [k] whose root is block [b]; block
    0 stands for a hole. *)
Fixpoint subtree v (N : Z) (k : nat) (b j : Z) : option Z :=
  match k with
  | O => Some b
  | S k' =>
      if b =? 0 then Some 0
      else v b ≫= fun data => word_at data (j / N ^ Z.of_nat k') ≫= fun c => subtree v N k' c (j mod N ^ Z.of_nat k')
  end.

(** The four kinds of block pointers of an inode: 12 blocks, and trees of
    height one to three. *)
Definition file_map sb v inode (n : Z) : option Z :=
  let N := EXT2_BLOCK_SIZE sb / 4 in
  let root k := word_at (i_block inode) k in
  if n <? 12 then root n
  else if n <? 12 + N then root 12 ≫= fun b => subtree v N 1 b (n - 12)
  else if n <? 12 + N + N ^ 2 then root 13 ≫= fun b => subtree v N 2 b (n - 12 - N)
  else if n <? 12 + N + N ^ 2 + N ^ 3 then root 14 ≫= fun b => subtree v N 3 b (n - 12 - N - N ^ 2)
  else None.

(** Block [n] and byte [k] of a file. *)
Definition file_blk sb v inode (n : Z) : option (list Z) :=
  file_map sb v inode n ≫= fun b =>
    if b =? 0 then Some (replicate (Z.to_nat (EXT2_BLOCK_SIZE sb)) 0) else v b.
Definition file_byte sb v inode (k : Z) : option Z :=
  file_blk sb v inode (k / EXT2_BLOCK_SIZE sb) ≫= fun d => d !! Z.to_nat (k mod EXT2_BLOCK_SIZE sb).

Lemma block_size_cases sb :
  0 <= s_log_block_size sb <= 2 -> EXT2_BLOCK_SIZE sb = 1024 \/ EXT2_BLOCK_SIZE sb = 2048 \/ EXT2_BLOCK_SIZE sb = 4096.
Proof.
  intros H. unfold EXT2_BLOCK_SIZE. assert (s_log_block_size sb = 0 \/ s_log_block_size sb = 1 \/ s_log_block_size sb = 2) as Hc by lia.
  destruct Hc as [-> | [-> | ->]]; vm_compute; auto.
Qed.

Section spec.
Context {D : Type} `{LO : ListOps nat bc_list} {LL : ListLaws nat bc_list}.
Context `{BD : !ByteDev D} {BL : ByteDevLaws D}.
Implicit Types (s : bcache D).

(** ** Idle caches *)

Record idle s : Prop := {
  id_inv : binv ∅ s;
  id_pins : forall b, pins s b = 0;
  id_slot : (0 < bc_count s)%nat;
}.

(** An idle cache that shows the volume [v] in blocks of [bs] bytes. *)
Record shows v (bs : Z) s : Prop := {
  sh_idle : idle s;
  sh_view : forall b, view s b = v b;
  sh_size : block_size s = bs;
}.

Lemma idle_room s : idle s -> room s.
Proof.
  intros [Hs Hp Hn]. destruct (bi_block _ _ Hs 0%nat Hn) as [c Hc]. exists 0%nat, c. split_and!; [done|done|].
  pose proof Hn as [h Hh]%(bi_slots _ _ Hs)%in_list_spec; [|apply Hs]. destruct h.
  - by destruct (bi_free _ _ Hs _ _ Hh Hc).
  - assert (Ho : on_lru ∅ s 0%nat c) by (split; [done|split; [apply not_elem_of_empty|done]]).
    by rewrite <- (pins_on s _ _ Hs Ho).
Qed.

Lemma view_block s b d : binv ∅ s -> view s b = Some d -> in_range s b /\ Z.of_nat (length d) = block_size s.
Proof.
  intros Hs. unfold view, view_in. pose proof (bi_size _ _ Hs). destruct (cached_in ∅ s b) as [[i c]|] eqn:E.
  - apply cached_inv in E as [Hi <-]. intros [= <-]. split; [by eapply bi_range|]. by apply (bi_data _ _ Hs i), Hi.
  - intros Hd. split; [|by eapply range_length]. unfold disk, range in Hd. case_bool_decide; [|done].
    split; [nia|lia].
Qed.

(** A slot updated without a change of its block. *)
Lemma updated_same s s' i c :
  binv ∅ s -> updated s s' i c -> view s (blocknum c) = Some (blk_data c) -> forall b, view s' b = view s b.
Proof.
  intros Hs Hu Hv b. destruct (decide (b = blocknum c)) as [->|Hne]; [by rewrite Hv, (up_view_self Hu)|by apply (up_view _ _ _ _ Hu)].
Qed.

Section reads.
Context {v : Z -> option (list Z)} {bs : Z} {s : bcache D} (Hs : shows v bs s).

Lemma shows_inv : binv ∅ s.
Proof using Hs. apply Hs. Qed.

Lemma shows_block b d : v b = Some d -> in_range s b /\ Z.of_nat (length d) = bs.
Proof using Hs.
  intros Hv. rewrite <- (sh_size _ _ _ Hs). apply view_block; [apply shows_inv|]. by rewrite (sh_view _ _ _ Hs).
Qed.

Lemma read_run b d : v b = Some d -> exists s', bcache_read_block b s = Some ((0, d), s') /\ shows v bs s'.
Proof using Hs LL BL.
  intros Hv. destruct (shows_block b d Hv) as [Hr _]. pose proof shows_inv as Hi. pose proof (sh_idle _ _ _ Hs) as Hd.
  destruct (bcache_read_run s b Hi Hr) as (i & c & s' & E & Hu & <- & Hv' & Hc); [right; by apply idle_room|].
  assert (blk_data c = d) as <- by (rewrite (sh_view _ _ _ Hs) in Hv'; congruence).
  exists s'. split; [done|]. split; [split; [apply Hu|..]|..].
  - intros b. rewrite <- (id_pins _ Hd b).
    destruct (decide (b = blocknum c)) as [->|Hne]; [by rewrite (up_pins_self Hu)|by apply (up_pins Hi Hu)].
  - rewrite (up_count _ _ _ _ Hu). apply (id_slot _ Hd).
  - intros b. rewrite <- (sh_view _ _ _ Hs). by apply (updated_same s s' i c).
  - rewrite (up_size _ _ _ _ Hu). apply Hs.
Qed.

(** A block taken, looked at and given back. *)
Lemma get_put_run b d : v b = Some d ->
  exists i s1 s2, bcache_get_block b s = Some ((0, Some i), s1) /\
    deref (Some i) s1 = Some (d, s1) /\ bcache_put_block b s1 = Some (0, s2) /\ shows v bs s2.
Proof using Hs LL BL.
  intros Hv. destruct (shows_block b d Hv) as [Hr _]. pose proof shows_inv as Hi. pose proof (sh_idle _ _ _ Hs) as Hd.
  pose proof (id_pins _ Hd) as Hp.
  destruct (bcache_get_run s b Hi Hr) as (i & c & s1 & E1 & U1 & <- & V1 & C1); [right; by apply idle_room|rewrite Hp; lia|].
  assert (blk_data c = d) as <- by (rewrite (sh_view _ _ _ Hs) in V1; congruence).
  rewrite Hp in C1. pose proof (up_inv _ _ _ _ U1) as Hs1.
  pose proof (updated_same _ _ _ _ Hi U1 V1) as Hv1. pose proof (up_pins_self U1) as P1.
  destruct (bcache_put_run s1 (blocknum c) Hs1) as (j & c2 & s2 & E2 & U2 & Ec & V2 & C2); [lia|].
  exists i, s1, s2. split_and!; [done| |done|].
  { cbn [deref]. by run (block_at_run _ _ _ (up_slot U1)). }
  rewrite <- Ec in V2. pose proof (updated_same _ _ _ _ Hs1 U2 V2) as Hv2.
  split; [split; [apply U2|..]|..].
  - intros b. destruct (decide (b = blocknum c)) as [->|Hne].
    + rewrite <- Ec, (up_pins_self U2). lia.
    + rewrite (up_pins Hs1 U2), (up_pins Hi U1) by congruence. apply Hp.
  - rewrite (up_count _ _ _ _ U2), (up_count _ _ _ _ U1). apply (id_slot _ Hd).
  - intros b. by rewrite Hv2, Hv1, (sh_view _ _ _ Hs).
  - rewrite (up_size _ _ _ _ U2), (up_size _ _ _ _ U1). apply Hs.
Qed.
End reads.

(** ** Following block pointers *)

Fixpoint descend v (b : Z) (ps : list Z) : option Z :=
  match ps with
  | [] => Some b
  | p :: ps' => if b =? 0 then Some 0 else v b ≫= fun data => word_at data p ≫= fun c => descend v c ps'
  end.

Fixpoint digits (N : Z) (k : nat) (j : Z) : list Z :=
  match k with O => [] | S k' => j / N ^ Z.of_nat k' :: digits N k' (j mod N ^ Z.of_nat k') end.

Lemma subtree_descend v N k b j : subtree v N k b j = descend v b (digits N k j).
Proof.
  revert b j. induction k as [|k IH]; intros b j; [done|]. cbn [subtree digits descend]. destruct (b =? 0); [done|].
  destruct (v b) as [data|]; [|done]. cbn. destruct (word_at data _) as [c|]; [|done]. apply IH.
Qed.

Lemma getres_some {A} (o : option A) a s : o = Some a -> getres o s = Some (a, s).
Proof. by intros ->. Qed.

(** The loop ends at a hole, or with the table of the last position. *)
Lemma indirect_loop_run v bs inode level pos fuel cl cur b p ps blk0 ld0 r s :
  shows v bs s -> drop (S (Z.to_nat cl)) pos = p :: ps -> 0 <= cl -> level = cl + 1 + Z.of_nat (length ps) ->
  (length ps + 2 <= fuel)%nat ->
  (if cl =? 0 then (pos !! 0%nat ≫= fun p => word_at (i_block inode) p) = Some b else cur = b) ->
  descend v b (p :: ps) = Some r ->
  (exists s', indirect_loop fuel inode level pos cl cur blk0 ld0 s = Some ((-1, None, 0), s') /\ shows v bs s' /\ r = 0) \/
  (exists i phys s1 s2 data, indirect_loop fuel inode level pos cl cur blk0 ld0 s = Some ((0, Some i, phys), s1) /\
     deref (Some i) s1 = Some (data, s1) /\ bcache_put_block phys s1 = Some (0, s2) /\ shows v bs s2 /\
     (pos !! Z.to_nat level ≫= word_at data) = Some r).
Proof.
  revert fuel cl cur b p blk0 ld0 s. induction ps as [|p' ps IH]; intros fuel cl cur b p blk0 ld0 s Hs Hd Hcl Hl Hf Hb Hr;
    (destruct fuel as [|fuel]; [cbn in Hf; lia|]); cbn [indirect_loop length] in *;
    (rewrite (proj2 (Z.ltb_lt cl level)) by lia);
    (rewrite (bind_some _ _ s b s);
       [|destruct (cl =? 0); [|by rewrite Hb]; destruct (pos !! 0%nat) as [p0|] eqn:E0; [|done];
         rewrite (bind_some _ _ s p0 s) by (by apply getres_some); by apply getres_some]);
    cbn [descend] in Hr; (destruct (Z.eqb_spec b 0) as [->|Hb0]; [left; exists s; split; [done|]; split; [done|congruence]|]);
    (destruct (v b) as [data|] eqn:Ev; [|done]); cbn [mbind option_bind] in Hr;
    (destruct (word_at data p) as [c|] eqn:Ec; [|done]); cbn [mbind option_bind] in Hr;
    destruct (get_put_run Hs b data Ev) as (i & s1 & s2 & G & Df & P & S2);
    unfold ext2_get_block, ext2_put_block; run G; cbn [Z.ltb Z.compare];
    (assert (Hp : pos !! Z.to_nat (cl + 1) = Some p)
       by (replace (Z.to_nat (cl + 1)) with (S (Z.to_nat cl) + 0)%nat by lia; by rewrite <- lookup_drop, Hd)).
  - rewrite (proj2 (Z.ltb_ge (cl + 1) level)) by lia. destruct fuel as [|fuel]; [cbn in Hf; lia|]. cbn [indirect_loop].
    rewrite (proj2 (Z.ltb_ge (cl + 1) level)) by lia. right. exists i, b, s1, s2, data.
    split_and!; try done. replace level with (cl + 1) by lia. rewrite Hp. cbn. by rewrite Ec.
  - rewrite (proj2 (Z.ltb_lt (cl + 1) level)) by lia. run Df. run (getres_some _ _ s1 Hp). run (getres_some _ _ s1 Ec). run P.
    apply (IH fuel (cl + 1) c c p'); [done| |lia|lia|lia| |done].
    + replace (S (Z.to_nat (cl + 1))) with (S (Z.to_nat cl) + 1)%nat by lia. by rewrite <- drop_drop, Hd.
    + by rewrite (proj2 (Z.eqb_neq (cl + 1) 0)) by lia.
Qed.

(** ** Block numbers *)

Section file.
Context (fs : ext2) {v : Z -> option (list Z)}.
Abbreviation sb := (Ext2.sb fs).
Abbreviation bs := (EXT2_BLOCK_SIZE sb).
Context (Hlog : 0 <= s_log_block_size sb <= 2).

(** The positions are the digits of the block number in base [N]. *)
Lemma file_map_descend inode n b :
  0 <= n < 2 ^ 32 -> file_map sb v inode n = Some b ->
  exists level pos, ext2_calculate_block_pointer_pos sb n = Some (level, pos) /\
    (level = 0 /\ word_at (i_block inode) n = Some b \/
     1 <= level <= 3 /\ Z.of_nat (length pos) = level + 1 /\
     exists p0 ps r, pos = p0 :: ps /\ word_at (i_block inode) p0 = Some r /\ descend v r ps = Some b).
Proof using Hlog.
  intros Hn. unfold file_map, ext2_calculate_block_pointer_pos, EXT2_ADDR_PER_BLOCK, EXT2_NDIR_BLOCKS.
  assert (HN : exists N, bs / 4 = N /\ (N = 256 \/ N = 512 \/ N = 1024))
    by (destruct (block_size_cases sb Hlog) as [-> | [-> | ->]]; eexists; split; [reflexivity|auto..]).
  destruct HN as (N & -> & HN).
  assert (u32 (N * N) = N ^ 2 /\ u32 (N ^ 2 * N) = N ^ 3) as [-> ->] by (destruct HN as [-> | [-> | ->]]; done).
  destruct (Z.ltb_spec n 12); [intros; eexists _, _; split; [done|by left]|].
  rewrite (u32_small (n - 12)) by lia.
  destruct (Z.ltb_spec n (12 + N)); [rewrite (proj2 (Z.ltb_lt (n - 12) N)) by lia|rewrite (proj2 (Z.ltb_ge (n - 12) N)) by lia].
  { intros Hb. eexists _, _. split; [done|]. right. split; [lia|]. split; [done|].
    destruct (word_at (i_block inode) 12) as [r|] eqn:E; [|done]. eexists _, _, r. split_and!; [done|done|].
    cbn [mbind option_bind] in Hb. rewrite subtree_descend in Hb. cbn [digits Z.of_nat] in Hb.
    by rewrite Z.pow_0_r, Z.div_1_r in Hb. }
  rewrite (u32_small (n - 12 - N)) by lia.
  destruct (Z.ltb_spec n (12 + N + N ^ 2));
    [rewrite (proj2 (Z.ltb_lt _ (N ^ 2))) by lia|rewrite (proj2 (Z.ltb_ge _ (N ^ 2))) by lia].
  { intros Hb. eexists _, _. split; [done|]. right. split; [lia|]. split; [done|].
    destruct (word_at (i_block inode) 13) as [r|] eqn:E; [|done]. eexists _, _, r. split_and!; [done|done|].
    cbn [mbind option_bind] in Hb. rewrite subtree_descend in Hb. cbn [digits Z.of_nat Pos.of_succ_nat] in Hb.
    by rewrite Z.pow_0_r, Z.pow_1_r, Z.div_1_r in Hb. }
  rewrite (u32_small (n - 12 - N - N ^ 2)) by lia.
  destruct (Z.ltb_spec n (12 + N + N ^ 2 + N ^ 3)); [rewrite (proj2 (Z.ltb_lt _ (N ^ 3))) by lia|done].
  intros Hb. eexists _, _. split; [done|]. right. split; [lia|]. split; [done|].
  destruct (word_at (i_block inode) 14) as [r|] eqn:E; [|done]. eexists _, _, r. split_and!; [done|done|].
  cbn [mbind option_bind] in Hb. rewrite subtree_descend in Hb. cbn [digits Z.of_nat Pos.of_succ_nat Pos.succ] in Hb.
  by rewrite Z.pow_0_r, Z.pow_1_r, Z.div_1_r in Hb.
Qed.

Lemma file_map_bound inode n b : 0 <= n -> file_map sb v inode n = Some b -> n < 2 ^ 31.
Proof using Hlog.
  intros Hn. unfold file_map. destruct (block_size_cases sb Hlog) as [-> | [-> | ->]];
    [change (1024 / 4) with 256|change (2048 / 4) with 512|change (4096 / 4) with 1024];
    repeat (match goal with |- context [?a <? ?b] => destruct (Z.ltb_spec a b) end); try done; lia.
Qed.

Lemma file_block_run inode n b s :
  shows v bs s -> 0 <= n -> file_map sb v inode n = Some b ->
  exists s', file_block_to_fs_block fs inode n s = Some (b, s') /\ shows v bs s'.
Proof using Hlog LL BL.
  intros Hs Hn Hm. pose proof (file_map_bound inode n b Hn Hm).
  destruct (file_map_descend inode n b) as (level & pos & E & H'); [lia|done|].
  unfold file_block_to_fs_block. rewrite E. cbn [from_option id]. destruct H' as [(-> & Hw)|(Hl & Hlen & p0 & ps & r & -> & Hr & Hd)].
  - exists s. split; [|done]. by apply getres_some.
  - rewrite (proj2 (Z.eqb_neq level 0)) by lia.
    unfold ext2_get_indirect_block_pointer_cache_block.
    rewrite (proj2 (Z.eqb_neq level 0)), (proj2 (Z.ltb_ge 3 level)) by lia. cbn [orb].
    destruct ps as [|p ps]; [cbn in Hlen; lia|]. cbn [length] in Hlen.
    destruct (indirect_loop_run v bs inode level (p0 :: p :: ps) 4 0 0 r p ps None 0 b s Hs)
      as [(s' & E1 & S1 & ->)|(i & phys & s1 & s2 & data & E1 & Df & P & S2 & W)]; [done|lia|lia|lia|done|done|..].
    + by run E1; exists s'.
    + run E1. cbn [Z.ltb Z.compare]. run Df.
      destruct ((p0 :: p :: ps) !! Z.to_nat level) as [q|] eqn:Eq; [|done].
      rewrite (bind_some (getres (Some q)) _ s1 q s1 eq_refl).
      cbn in W. run (getres_some _ _ s1 W). unfold ext2_put_block. run P. by exists s2.
Qed.

Lemma file_blk_length inode n d s : shows v bs s -> file_blk sb v inode n = Some d -> Z.of_nat (length d) = bs.
Proof using Hlog.
  intros Hs. unfold file_blk. destruct (file_map sb v inode n) as [b|]; [|done]. cbn.
  destruct (b =? 0); [|intros Hv; by apply (shows_block Hs b)]. intros [= <-]. rewrite length_replicate.
  pose proof (block_size_cases sb Hlog). lia.
Qed.

Lemma read_file_block_run inode n d buf p buf' s :
  shows v bs s -> 0 <= n -> file_blk sb v inode n = Some d -> blit_at buf p d = Some buf' ->
  exists s', read_file_block fs inode n buf p s = Some (buf', s') /\ shows v bs s'.
Proof using Hlog LL BL.
  intros Hs Hn. unfold file_blk. destruct (file_map sb v inode n) as [b|] eqn:Em; [|done]. cbn. intros Hd Hb.
  destruct (file_block_run inode n b s Hs Hn Em) as (s1 & E1 & S1). unfold read_file_block. run E1.
  destruct (b =? 0).
  - injection Hd as <-. exists s1. split; [|done]. by apply getres_some.
  - destruct (read_run S1 b d Hd) as (s2 & E2 & S2). exists s2. split; [|done]. unfold ext2_read_block.
    rewrite (bind_some _ _ s1 (0, buf') s2); [done|]. run E2. cbn [Z.ltb Z.compare]. by run (getres_some _ _ s2 Hb).
Qed.

(** ** Reading a range of a file *)

Context (junk : Z -> list Z) (Hjunk : forall n, 0 <= n -> Z.of_nat (length (junk n)) = n).

(** [data] is what the file holds from byte [off] on. *)
Definition file_range inode (off : Z) (data : list Z) : Prop :=
  forall k, (k < length data)%nat -> data !! k = file_byte sb v inode (off + Z.of_nat k).
Definition readable inode (off len : Z) : Prop :=
  forall k, off <= k < off + len -> is_Some (file_byte sb v inode k).

Lemma bs_pos : 1024 <= bs <= 4096.
Proof using Hlog. pose proof (block_size_cases sb Hlog). lia. Qed.

Lemma file_range_app inode off d1 d2 :
  file_range inode off d1 -> file_range inode (off + Z.of_nat (length d1)) d2 -> file_range inode off (d1 ++ d2).
Proof.
  intros H1 H2 k Hk. rewrite length_app in Hk. destruct (decide (k < length d1)%nat).
  - rewrite lookup_app_l by done. by apply H1.
  - rewrite lookup_app_r, H2 by lia. f_equal. lia.
Qed.

Lemma readable_blk inode off len k :
  readable inode off len -> off <= k < off + len -> exists d, file_blk sb v inode (k / bs) = Some d.
Proof.
  intros Hr Hk. destruct (Hr k Hk) as [x Hx]. unfold file_byte in Hx.
  destruct (file_blk sb v inode (k / bs)) as [d|]; [by exists d|done].
Qed.

Lemma file_blk_bound inode n d : 0 <= n -> file_blk sb v inode n = Some d -> n < 2 ^ 31.
Proof using Hlog.
  unfold file_blk. intros Hn. destruct (file_map sb v inode n) as [b|] eqn:E; [|done]. intros _.
  by eapply file_map_bound.
Qed.

(** Part of a block is part of the file. *)
Lemma file_range_part inode n d o m l s :
  shows v bs s -> 0 <= n -> file_blk sb v inode n = Some d -> range d o m = Some l -> file_range inode (n * bs + o) l.
Proof using Hlog.
  intros Hs Hn Hd Hl k Hk. pose proof bs_pos. pose proof (file_blk_length inode n d s Hs Hd) as Hlen.
  pose proof (range_length _ _ _ _ Hl) as Hm. unfold range in Hl. case_bool_decide as Hc; [|done]. injection Hl as <-.
  rewrite lookup_slice by lia. unfold file_byte.
  replace ((n * bs + o + Z.of_nat k) / bs) with n by (apply (Z.div_unique _ _ _ (o + Z.of_nat k)); lia).
  replace ((n * bs + o + Z.of_nat k) mod bs) with (o + Z.of_nat k) by (apply (Z.mod_unique _ _ n); lia).
  rewrite Hd. cbn. f_equal. lia.
Qed.

Lemma read_part_run inode n d o m l buf p buf' s :
  shows v bs s -> 0 <= n -> file_blk sb v inode n = Some d -> range d o m = Some l -> blit_at buf p l = Some buf' ->
  exists s', read_part junk fs inode n buf p o m s = Some (buf', s') /\ shows v bs s'.
Proof using Hlog Hjunk LL BL.
  intros Hs Hn Hd Hl Hb. pose proof bs_pos. pose proof (file_blk_length inode n d s Hs Hd) as Hlen.
  assert (Hj : blit_at (junk bs) 0 d = Some d).
  { unfold blit_at. cbn [Z.leb Z.compare Z.to_nat]. pose proof (Hjunk bs).
    rewrite blit_Some by lia. cbn [Nat.add take app]. by rewrite drop_ge, app_nil_r by lia. }
  destruct (read_file_block_run inode n d (junk bs) 0 d s Hs Hn Hd Hj) as (s1 & E1 & S1). exists s1. split; [|done].
  unfold read_part. run E1. run (getres_some _ _ s1 Hl). by apply getres_some.
Qed.

Lemma s32_add a b : s32 (s32 a + b) = s32 (a + b).
Proof.
  unfold s32, sgn. assert (E : forall z, (if z mod 2 ^ 32 <? 2 ^ (32 - 1) then z mod 2 ^ 32 else z mod 2 ^ 32 - 2 ^ 32) mod 2 ^ 32 = z mod 2 ^ 32).
  { intros z. destruct (_ <? _); [by rewrite Z.mod_mod by lia|]. rewrite <- (Z_mod_plus_full _ 1 (2 ^ 32)).
    replace (z mod 2 ^ 32 - 2 ^ 32 + 1 * 2 ^ 32) with (z mod 2 ^ 32) by lia. by rewrite Z.mod_mod by lia. }
  rewrite <- (Zplus_mod_idemp_l _ b), E, Zplus_mod_idemp_l. done.
Qed.

Lemma tuple5_eq {A} (x : A) (a b c d a' b' c' d' : Z) :
  a = a' -> b = b' -> c = c' -> d = d' -> (x, a, b, c, s32 d) = (x, a', b', c', s32 d').
Proof. by intros -> -> -> ->. Qed.

Lemma middle_loop_run inode fuel n buf p len br s :
  shows v bs s -> 0 <= n -> 0 <= p -> 0 <= len -> p + len <= Z.of_nat (length buf) -> readable inode (n * bs) len ->
  len / bs < Z.of_nat fuel ->
  let q := len / bs in
  exists data buf' s', middle_loop fs fuel inode buf p n len (s32 br) s =
      Some ((buf', p + q * bs, n + q, len - q * bs, s32 (br + q * bs)), s') /\ shows v bs s' /\
    Z.of_nat (length data) = q * bs /\ file_range inode (n * bs) data /\ blit_at buf p data = Some buf'.
Proof using Hlog LL BL.
  pose proof bs_pos. revert n buf p len br s. induction fuel as [|fuel IH]; intros n buf p len br s Hs Hn Hp Hl Hb Hr Hf.
  { pose proof (Z.div_pos len bs). lia. }
  cbn [middle_loop]. destruct (Z.leb_spec bs len) as [Hle|Hlt].
  - assert (Eq : len / bs = (len - bs) / bs + 1).
    { replace len with (len - bs + 1 * bs) at 1 by lia. by rewrite Z.div_add by lia. }
    destruct (readable_blk inode (n * bs) len (n * bs) Hr) as [d Hd]; [lia|]. rewrite Z.div_mul in Hd by lia.
    pose proof (file_blk_length inode n d s Hs Hd) as Hlen. pose proof (file_blk_bound inode n d Hn Hd).
    destruct (blit_at_Some buf p d) as (buf1 & Hb1 & Hl1); [lia|lia|].
    destruct (read_file_block_run inode n d buf p buf1 s Hs Hn Hd Hb1) as (s1 & E1 & S1). run E1.
    rewrite u32_small, s32_add by lia.
    destruct (IH (n + 1) buf1 (p + bs) (len - bs) (br + bs) s1) as (data & buf' & s' & E & S' & Hdl & Hdr & Hbb);
      [done|lia|lia|lia|lia| |lia|].
    { intros k Hk. apply Hr. lia. }
    exists (d ++ data), buf', s'. rewrite E. split_and!.
    + cbn zeta. rewrite Eq. do 2 f_equal. apply tuple5_eq; lia.
    + done.
    + rewrite length_app. lia.
    + apply file_range_app; [|replace (n * bs + Z.of_nat (length d)) with ((n + 1) * bs) by lia; done].
      rewrite <- (Z.add_0_r (n * bs)). eapply (file_range_part inode n d 0 bs); [done|done|done|].
      rewrite take_range by lia. f_equal. apply take_ge. lia.
    + eapply blit_at_app; [done|]. by rewrite Hlen.
  - rewrite Z.div_small by lia. exists [], buf, s. split_and!.
    + cbn zeta. unfold ret. do 2 f_equal. apply tuple5_eq; lia.
    + done.
    + done.
    + intros k Hk. cbn in Hk. lia.
    + apply blit_at_nil. lia.
Qed.

(** Whole blocks and the rest, from the start of block [n]. *)
Lemma read_blocks_run inode n buf p len br s :
  shows v bs s -> 0 <= n -> 0 <= p -> 0 <= len -> p + len <= Z.of_nat (length buf) -> readable inode (n * bs) len ->
  exists data buf' s',
    (let* (buf, p, file_block, len, bytes_read) := middle_loop fs (S (Z.to_nat (len / bs))) inode buf p n len (s32 br) in
     if 0 <? len then
       let* buf := read_part junk fs inode file_block buf p 0 len in ret (s32 (bytes_read + len), buf)
     else ret (bytes_read, buf)) s = Some ((s32 (br + len), buf'), s') /\ shows v bs s' /\
    Z.of_nat (length data) = len /\ file_range inode (n * bs) data /\ blit_at buf p data = Some buf'.
Proof using Hlog Hjunk LL BL.
  intros Hs Hn Hp Hl Hb Hr. pose proof bs_pos. set (q := len / bs).
  assert (Hq : 0 <= q /\ 0 <= len - q * bs < bs).
  { pose proof (Z.div_pos len bs). pose proof (Z.mod_pos_bound len bs). pose proof (Z_div_mod_eq_full len bs). unfold q. lia. }
  destruct (middle_loop_run inode (S (Z.to_nat q)) n buf p len br s)
    as (d1 & buf1 & s1 & E1 & S1 & L1 & R1 & B1); try done; [unfold q in *; lia|].
  fold q in E1, L1. run E1. destruct (Z.ltb_spec 0 (len - q * bs)) as [Hlt|Hge].
  - destruct (readable_blk inode (n * bs) len ((n + q) * bs) Hr) as [d Hd]; [lia|]. rewrite Z.div_mul in Hd by lia.
    pose proof (file_blk_length inode (n + q) d s1 S1 Hd) as Hlen.
    assert (Hrg : range d 0 (len - q * bs) = Some (take (Z.to_nat (len - q * bs)) d)) by (apply take_range; lia).
    pose proof (range_length _ _ _ _ Hrg) as Hl2. pose proof (blit_at_length _ _ _ _ B1).
    destruct (blit_at_Some buf1 (p + q * bs) (take (Z.to_nat (len - q * bs)) d)) as (buf2 & B2 & _); [lia|lia|].
    destruct (read_part_run inode (n + q) d 0 (len - q * bs) _ buf1 (p + q * bs) buf2 s1 S1 ltac:(lia) Hd Hrg B2) as (s2 & E2 & S2).
    run E2. exists (d1 ++ take (Z.to_nat (len - q * bs)) d), buf2, s2. split_and!.
    + unfold ret. rewrite s32_add. do 4 f_equal. lia.
    + done.
    + rewrite length_app. lia.
    + apply file_range_app; [done|]. replace (n * bs + Z.of_nat (length d1)) with ((n + q) * bs + 0) by lia.
      eapply file_range_part; [exact S1|lia|done|done].
    + eapply blit_at_app; [done|]. by rewrite L1.
  - exists d1, buf1, s1. split_and!; try done; [|lia]. unfold ret. do 4 f_equal. lia.
Qed.

(** How much a read of [len] bytes at [offset] returns. *)
Definition span inode (offset len : Z) : Z :=
  let size := ext2_file_len sb inode in if size <? offset then 0 else Z.min len (size - offset).

Lemma ext2_read_inode_run inode buf offset len s :
  shows v bs s -> 0 <= offset -> 0 <= len -> offset + len < 2 ^ 64 -> 0 <= ext2_file_len sb inode < 2 ^ 63 ->
  span inode offset len <= Z.of_nat (length buf) -> readable inode offset (span inode offset len) ->
  exists data buf' s', ext2_read_inode junk fs inode buf offset len s = Some ((s32 (span inode offset len), buf'), s') /\
    shows v bs s' /\ Z.of_nat (length data) = span inode offset len /\ file_range inode offset data /\
    blit_at buf 0 data = Some buf'.
Proof using Hlog Hjunk LL BL.
  intros Hs Ho Hl Hol Hsz Hb Hr. pose proof bs_pos. unfold ext2_read_inode.
  assert (Hempty : forall n, n = 0 -> exists data buf' s', @ret (bcache D) _ (0, buf) s = Some ((s32 n, buf'), s') /\
    shows v bs s' /\ Z.of_nat (length data) = n /\ file_range inode offset data /\ blit_at buf 0 data = Some buf').
  { intros n ->. exists [], buf, s. split_and!; [done|done|done|intros k Hk; cbn in Hk; lia|apply blit_at_nil; lia]. }
  assert (En : span inode offset len = span inode offset len) by done. unfold span at 2 in En. cbn zeta in En.
  destruct (Z.ltb_spec (ext2_file_len sb inode) offset) as [Hlt|Hge]; [by apply Hempty|].
  assert (El : (if u64 (ext2_file_len sb inode) <=? u64 (offset + len) then u64 (ext2_file_len sb inode - offset) else len)
    = span inode offset len).
  { rewrite En, !u64_small by lia. destruct (Z.leb_spec (ext2_file_len sb inode) (offset + len)); lia. }
  cbn zeta. rewrite El. set (n := span inode offset len) in *. clearbody n. clear El.
  destruct (Z.eqb_spec n 0) as [->|Hn0]; [by apply Hempty|].
  rewrite (proj2 (Z.eqb_neq bs 0)) by lia. cbn [negb]. rewrite (bind_some (assert_ true) _ s tt s eq_refl).
  rewrite Z.quot_div_nonneg, !Z.rem_mod_nonneg by lia.
  pose proof (Z.div_pos offset bs Ho ltac:(lia)) as Hq. pose proof (Z.mod_pos_bound offset bs ltac:(lia)) as Hm.
  pose proof (Z_div_mod_eq_full offset bs) as Ed.
  destruct (readable_blk inode offset n offset Hr) as [d Hd]; [lia|]. pose proof (file_blk_bound inode _ d Hq Hd).
  pose proof (file_blk_length inode _ d s Hs Hd) as Hlen. rewrite (u32_small (offset / bs)) by lia.
  destruct (Z.eqb_spec (offset mod bs) 0) as [E0|E0]; cbn [negb].
  - rewrite (bind_some (ret (buf, 0, offset / bs, n, 0)) _ s _ s eq_refl).
    assert (Eo : offset / bs * bs = offset) by lia.
    destruct (read_blocks_run inode (offset / bs) buf 0 n 0 s) as (data & buf' & s' & E & S' & L & R & B);
      rewrite ?Eo; try done; try lia. rewrite Eo in R. exists data, buf', s'. split_and!; try done.
  - set (o := offset mod bs) in *. rewrite (u64_small o), (u64_small (bs - o)) by lia.
    set (m := Z.min n (bs - o)).
    assert (Hrg : range d o m = Some (slice d (Z.to_nat o) (Z.to_nat m))) by (apply range_Some; lia).
    pose proof (range_length _ _ _ _ Hrg) as Hml. set (l := slice d _ _) in *.
    destruct (blit_at_Some buf 0 l) as (buf1 & B1 & Hl1); [lia|lia|].
    destruct (read_part_run inode _ d o m l buf 0 buf1 s Hs Hq Hd Hrg B1) as (s1 & E1 & S1).
    rewrite (bind_some _ _ s (buf1, m, u32 (offset / bs + 1), n - m, s32 m) s1) by (by run E1).
    rewrite u32_small by lia.
    destruct (read_blocks_run inode (offset / bs + 1) buf1 m (n - m) m s1) as (data & buf' & s' & E & S' & L & R & B);
      try done; try lia.
    { intros k Hk. apply Hr. lia. }
    exists (l ++ data), buf', s'. split_and!; [|done|rewrite length_app; lia|..].
    + rewrite E. do 4 f_equal. lia.
    + apply file_range_app.
      * replace offset with (offset / bs * bs + o) by lia. by eapply (file_range_part inode _ d o m).
      * destruct (decide (n - m = 0)) as [E00|E00]; [intros k Hk; lia|].
        by replace (offset + Z.of_nat (length l)) with ((offset / bs + 1) * bs) by lia.
    + eapply blit_at_app; [done|]. by rewrite Hml.
Qed.
End file.
End spec.
