(* ===== verification/Ext2Dir.v ===== *)
(** * Inodes, directories, links and paths of an ext2 volume

    The specification finds a file by its path: [inode_at] reads an inode,
    [dir_entries] the entries of a directory, [link_text] the text of a link,
    and [namei] walks a path and follows at most as many levels of links as the
    driver does.  All are functions of the volume; [None] stands for a volume
    that is not consistent.  The lemmas say that the driver computes them. *)

From S2P Require Import Prelude Arrays ListH Bio BioSpec Bcache CacheSpec CacheOps CStrSpec FsPath FsPathSpec Fs Ext2 Ext2Spec.
Local Open Scope lk_scope.

Implicit Types (inode dir : ext2_inode) (v : Z -> option (list Z)).

(** ** The specification *)

(** The components a path is walked by: its fields, of which empty ones count
    only at the end. *)
Fixpoint names_of (fields : list (list Z)) : list (list Z) :=
  match fields with
  | [] => []
  | [f] => [f]
  | f :: fs => if decide (f = []) then names_of fs else f :: names_of fs
  end.
Definition comps (path : list Z) : list (list Z) := names_of (fields_of path).

Section volume.
Context (fs : ext2) (v : Z -> option (list Z)).
Abbreviation sb := (Ext2.sb fs).
Abbreviation bs := (EXT2_BLOCK_SIZE sb).

Definition inode_at (num : Z) : option ext2_inode :=
  if (1 <=? num) && (num <? 2 ^ 32) then
    let k := num - 1 in
    let off := (k mod s_inodes_per_group sb) * EXT2_INODE_SIZE sb in
    gd fs !! Z.to_nat (k / s_inodes_per_group sb) ≫= fun g =>
    v (bg_inode_table g + off / bs) ≫= fun data => read_inode_struct <$> range data (off mod bs) 128
  else None.

(** The entries of one block of a directory, from byte [pos] on. *)
Fixpoint parse_entries (fuel : nat) (data : list Z) (pos : Z) : option (list (list Z * Z)) :=
  match fuel with
  | O => None
  | S fuel' =>
      if bs <=? pos then Some []
      else
        range data (pos + 4) 2 ≫= fun r =>
        if le_value r =? 0 then Some []
        else if (0 <? le_value r) && (le_value r <? 2 ^ 16) then
          range data (pos + 6) 1 ≫= fun n =>
          range data (pos + 8) (le_value n) ≫= fun name =>
          range data pos 4 ≫= fun ino =>
          cons (name, le_value ino) <$> parse_entries fuel' data (pos + (le_value r + 3) / 4 * 4)
        else None
  end.
Definition dir_entries dir : option (list (list Z * Z)) :=
  let size := ext2_file_len sb dir in
  if (0 <=? size) && (size mod bs =? 0) && (size / bs <=? 1025) then
    @concat _ <$> mapM (fun k => file_blk sb v dir k ≫= fun d => parse_entries (S (Z.to_nat bs)) d 0) (seqZ 0 (size / bs))
  else None.
Definition lookup_name (name : list Z) (es : list (list Z * Z)) : option Z :=
  snd <$> List.find (fun e => bool_decide (fst e = name)) es.

(** The bytes of a file from [off] on. *)
Definition file_data inode (off n : Z) : option (list Z) := mapM (file_byte sb v inode) (seqZ off n).

(** The text of a link shorter than 512 bytes. *)
Definition link_text inode : option (list Z) :=
  let len := ext2_file_len sb inode in
  (if 60 <? len then file_data inode 0 len else range (i_block inode) 0 len) ≫= fun raw => until_nul (raw ++ [0]).

Section walk.
Context (recur : ext2_inode -> list (list Z) -> option (Z + Z)).

(** The inode an entry of [dir] stands for, behind a link if it is one. *)
Definition follow dir (ino : Z) : option (Z + Z * ext2_inode) :=
  inode_at ino ≫= fun inode =>
  if negb (S_ISLNK (i_mode inode)) then Some (inr (ino, inode))
  else if (ext2_file_len sb inode <? 0) || (511 <? ext2_file_len sb inode) then Some (inl ERR_NO_MEMORY)
  else
    link_text inode ≫= fun t =>
    recur (if bool_decide (head t = Some 47) then root_inode fs else dir) (comps t) ≫= fun res =>
    match res with
    | inl err => Some (inl err)
    | inr ino => inode_at ino ≫= fun inode => Some (inr (ino, inode))
    end.

Fixpoint walk_names dir (names : list (list Z)) : option (Z + Z) :=
  match names with
  | [] => None
  | name :: names' =>
      if negb (S_ISDIR (i_mode dir)) then Some (inl ERR_NOT_DIR)
      else
        dir_entries dir ≫= fun es =>
        match lookup_name name es with
        | None => Some (inl (-1))
        | Some ino =>
            follow dir ino ≫= fun res =>
            match res, names' with
            | inl err, _ => Some (inl err)
            | inr (ino, _), [] => Some (inr ino)
            | inr (_, inode), _ => if S_ISDIR (i_mode inode) then walk_names inode names' else Some (inl ERR_NOT_FOUND)
            end
        end
  end.
End walk.

Fixpoint namei (left : nat) dir (names : list (list Z)) : option (Z + Z) :=
  match left with
  | O => Some (inl ERR_RECURSE_TOO_DEEP)
  | S left' => walk_names (namei left') dir names
  end.
End volume.

(** ** Components *)

Lemma among_47 c : among [slash] c = (c =? 47).
Proof. cbn. by rewrite orb_false_r. Qed.

Lemma split_slash_fields p :
  fields_of p = fst (split_slash p) :: match snd (split_slash p) with None => [] | Some r => fields_of r end.
Proof.
  unfold fields_of. induction p as [|c p IH]; [done|]. cbn [split split_slash]. rewrite IH, among_47.
  destruct (c =? 47); [by rewrite <- IH|]. by destruct (split_slash p).
Qed.

Lemma fields_ne p : exists f fs, fields_of p = f :: fs.
Proof. rewrite split_slash_fields. eauto. Qed.

Lemma skip_skip p : skip_slashes (skip_slashes p) = skip_slashes p.
Proof.
  induction p as [|c p IH]; [done|]. cbn [skip_slashes]. destruct (c =? 47) eqn:Ec; [done|]. cbn [skip_slashes]. by rewrite Ec.
Qed.

Lemma skip_length p : (length (skip_slashes p) <= length p)%nat.
Proof. induction p as [|x p IH]; cbn [skip_slashes length]; [lia|]. destruct (x =? 47); cbn [length]; lia. Qed.

Lemma comps_skip p : comps (skip_slashes p) = comps p.
Proof.
  induction p as [|c p IH]; [done|]. cbn [skip_slashes]. destruct (c =? 47) eqn:E; [|done].
  rewrite IH. unfold comps. rewrite (split_slash_fields (c :: p)). cbn [split_slash]. rewrite E. cbn [fst snd].
  by destruct (fields_ne p) as (f & fs & ->).
Qed.

(** A path that does not start with a slash, one component at a time. *)
Lemma comps_split p c r :
  skip_slashes p = p -> split_slash p = (c, r) ->
  comps p = match r with None => [c] | Some r => c :: comps (skip_slashes r) end /\
  match r with None => True | Some r => (length (skip_slashes r) < length p)%nat end.
Proof.
  intros Hp Hs. unfold comps at 1. rewrite split_slash_fields, Hs. cbn [fst snd]. destruct r as [r|]; [|done].
  assert (Hlen : forall q c r, split_slash q = (c, Some r) -> (length r < length q)%nat).
  { clear. intros q. induction q as [|x q IH]; intros c r; cbn [split_slash length]; [done|].
    destruct (x =? 47); [intros [= <- <-]; lia|]. destruct (split_slash q) as [w [r'|]]; [|done].
    intros [= _ <-]. pose proof (IH _ _ eq_refl). lia. }
  split; [|pose proof (Hlen _ _ _ Hs); pose proof (skip_length r); lia].
  rewrite comps_skip. destruct (fields_ne r) as (f & fs & E). unfold comps. rewrite E. cbn [names_of].
  rewrite decide_False; [done|]. intros ->. destruct p as [|x p]; [done|]. cbn [split_slash skip_slashes] in Hs, Hp.
  destruct (x =? 47) eqn:Ex; [|by destruct (split_slash p)]. pose proof (skip_length p) as H. rewrite Hp in H. cbn in H. lia.
Qed.

Lemma comps_cons p : exists n ns, comps p = n :: ns.
Proof.
  rewrite <- comps_skip. destruct (split_slash (skip_slashes p)) as [c r] eqn:Es.
  destruct (comps_split _ c r (skip_skip p) Es) as [-> _].
  destruct r; eauto.
Qed.

(** ** The driver *)

Section driver.
Context {D : Type} `{LO : ListOps nat bc_list} {LL : ListLaws nat bc_list}.
Context `{BD : !ByteDev D} {BL : ByteDevLaws D}.
Context (fs : ext2) (v : Z -> option (list Z)).
Abbreviation sb := (Ext2.sb fs).
Abbreviation bs := (EXT2_BLOCK_SIZE sb).
Implicit Types (s : bcache D).

(** What the superblock of a volume of supported size says. *)
Record geometry : Prop := {
  g_log : 0 <= s_log_block_size sb <= 2;
  g_group : 0 < s_inodes_per_group sb;
  g_inode : 0 < EXT2_INODE_SIZE sb;
  g_table : s_inodes_per_group sb * EXT2_INODE_SIZE sb < 2 ^ 32;
  g_blocks : forall b, is_Some (v b) -> b < 2 ^ 32;
  g_bytes : forall b d, v b = Some d -> Forall (fun x => 0 <= x < 2 ^ 8) d;
}.
Context (G : geometry) (junk : Z -> list Z) (Hjunk : forall n, 0 <= n -> Z.of_nat (length (junk n)) = n).

Lemma load_inode_run num inode s :
  shows v bs s -> inode_at fs v num = Some inode ->
  exists s', ext2_load_inode fs num s = Some ((0, Some inode), s') /\ shows v bs s'.
Proof using G LL BL.
  intros Hs. unfold inode_at. destruct (Z.leb_spec 1 num); [|done]. destruct (Z.ltb_spec num (2 ^ 32)); [|done].
  cbn [andb]. cbn zeta. pose proof (bs_pos fs (g_log G)). pose proof (g_group G). pose proof (g_inode G).
  set (off := _ * EXT2_INODE_SIZE sb). destruct (gd fs !! _) as [g|] eqn:Eg; [|done]. cbn [mbind option_bind].
  destruct (v _) as [data|] eqn:Ev; [|done]. cbn [mbind option_bind].
  destruct (range data (off mod bs) 128) as [l|] eqn:El; [|done]. intros [= <-].
  assert (Hoff : 0 <= off < 2 ^ 32).
  { pose proof (Z.mod_pos_bound (num - 1) (s_inodes_per_group sb)). pose proof (g_table G). unfold off. nia. }
  assert (Hb : 0 <= bg_inode_table g + off / bs < 2 ^ 32).
  { split; [|by apply (g_blocks G)]. destruct (shows_block Hs _ _ Ev) as [[? _] _]. done. }
  destruct (get_put_run Hs _ data Ev) as (i & s1 & s2 & E1 & Df & E2 & S2). exists s2. split; [|done].
  unfold ext2_load_inode.
  rewrite (bind_some _ _ s (bg_inode_table g + off / bs, off mod bs) s).
  - run E1. cbn [Z.ltb Z.compare]. run Df. run (getres_some _ _ s1 El). by run E2.
  - unfold get_inode_addr. rewrite u32_small by lia. rewrite (proj2 (Z.eqb_neq (s_inodes_per_group sb) 0)) by lia.
    cbn [negb]. rewrite (bind_some (assert_ true) _ s tt s eq_refl). run (getres_some _ _ s Eg). fold off.
    rewrite (u32_small off) by lia. rewrite (proj2 (Z.eqb_neq bs 0)) by lia.
    cbn [negb]. rewrite (bind_some (assert_ true) _ s tt s eq_refl). by rewrite u32_small by lia.
Qed.

Lemma inode_block num inode : inode_at fs v num = Some inode -> length (i_block inode) = 60%nat.
Proof.
  unfold inode_at. destruct (_ && _); [|done]. cbn zeta. destruct (gd fs !! _) as [g|]; [|done]. cbn.
  destruct (v _) as [data|]; [|done]. cbn. destruct (range _ _ 128) as [l|] eqn:El; [|done]. intros [= <-].
  apply range_length in El. cbn. rewrite length_slice; lia.
Qed.

Lemma inode_size num inode : inode_at fs v num = Some inode -> 0 <= i_size inode < 2 ^ 32.
Proof using G.
  unfold inode_at. destruct (_ && _); [|done]. cbn zeta. destruct (gd fs !! _) as [g|]; [|done]. cbn.
  destruct (v _) as [data|] eqn:Ev; [|done]. cbn. destruct (range _ _ 128) as [l|] eqn:El; [|done]. intros [= <-].
  pose proof (range_length _ _ _ _ El). unfold range in El. case_bool_decide; [|done]. injection El as <-.
  cbn [i_size read_inode_struct]. unfold le_field. set (w := slice _ 4 4).
  assert (length w = 4%nat) as Hw by (apply length_slice; lia).
  pose proof (le_value_range w) as Hr. rewrite Hw in Hr. apply Hr. unfold w, slice.
  apply Forall_take, Forall_drop, Forall_take, Forall_drop. by eapply (g_bytes G).
Qed.

Lemma link_not_reg mode : S_ISLNK mode = true -> S_ISREG mode = false.
Proof. unfold S_ISREG, S_ISLNK. intros ->%Z.eqb_eq. done. Qed.

Lemma link_len inode : S_ISLNK (i_mode inode) = true -> ext2_file_len sb inode = i_size inode.
Proof. intros Hl. unfold ext2_file_len. by rewrite (link_not_reg _ Hl), andb_false_r. Qed.

(** ** Directories *)

Lemma roundup4_eq a : 0 <= a -> roundup4 a = (a + 3) / 4 * 4.
Proof.
  intros Ha. unfold roundup4. change 3 with (Z.ones 2) at 2. rewrite <- Z.ldiff_land, Z.ldiff_ones_r by lia.
  rewrite Z.shiftl_mul_pow2, Z.shiftr_div_pow2 by lia. done.
Qed.

Lemma entry_loop_run fuel fuel' data name pos es s :
  0 <= pos -> Z.max 0 (bs - pos) < Z.of_nat fuel' ->
  parse_entries fs fuel data pos = Some es ->
  entry_loop fs fuel' data name pos s = Some (lookup_name name es, s).
Proof using G.
  pose proof (bs_pos fs (g_log G)) as Hbs. revert fuel pos es.
  induction fuel' as [|fuel' IH]; intros fuel pos es Hpos Hf; [lia|]. destruct fuel as [|fuel]; [done|].
  cbn [parse_entries entry_loop]. destruct (Z.leb_spec bs pos) as [Hle|Hlt].
  { intros [= <-]. by rewrite (proj2 (Z.ltb_ge pos bs)) by lia. }
  rewrite (proj2 (Z.ltb_lt pos bs)) by lia. destruct (range data (pos + 4) 2) as [r|] eqn:Er; [|done]. cbn [mbind option_bind].
  rewrite (bind_some _ _ s (le_value r) s) by (by apply getres_some).
  destruct (Z.eqb_spec (le_value r) 0) as [E0|E0]; [by intros [= <-]|].
  destruct (Z.ltb_spec 0 (le_value r)); [|done]. destruct (Z.ltb_spec (le_value r) (2 ^ 16)); [|done]. cbn [andb].
  destruct (range data (pos + 6) 1) as [n|] eqn:En; [|done]. cbn [mbind option_bind].
  destruct (range data (pos + 8) (le_value n)) as [nm|] eqn:Em; [|done]. cbn [mbind option_bind].
  destruct (range data pos 4) as [ino|] eqn:Ei; [|done]. cbn [mbind option_bind].
  destruct (parse_entries fs fuel data _) as [es'|] eqn:Ep; [|done]. intros [= <-].
  rewrite (bind_some _ _ s (le_value n) s) by (by apply getres_some).
  rewrite (bind_some _ _ s (bool_decide (nm = name)) s).
  - unfold lookup_name. cbn [List.find fst]. destruct (bool_decide (nm = name)).
    + by rewrite (bind_some _ _ s (le_value ino) s) by (by apply getres_some).
    + rewrite roundup4_eq by lia. assert (1 <= (le_value r + 3) / 4 < 2 ^ 16).
      { split; [apply Z.div_le_lower_bound; lia|apply Z.div_lt_upper_bound; lia]. }
      rewrite u32_small by lia. apply (IH fuel); [lia|lia|done].
  - pose proof (range_length _ _ _ _ Em) as Hl. destruct (Z.eqb_spec (le_value n) (Z.of_nat (length name))) as [El|El].
    + rewrite El in *. by run (getres_some _ _ s Em).
    + rewrite bool_decide_false; [done|]. intros ->. lia.
Qed.

Lemma lookup_name_app name es es' : lookup_name name (es ++ es') =
  match lookup_name name es with Some i => Some i | None => lookup_name name es' end.
Proof.
  unfold lookup_name. induction es as [|e es IH]; [done|]. cbn [app List.find]. by destruct (bool_decide (fst e = name)).
Qed.

(** A directory block read at its offset is the block. *)
Lemma file_range_blk inode n d data s :
  shows v bs s -> 0 <= n -> file_blk sb v inode n = Some d -> Z.of_nat (length data) = bs ->
  file_range fs (v := v) inode (n * bs) data -> data = d.
Proof using G.
  intros Hs Hn Hd Hl Hr. pose proof (bs_pos fs (g_log G)). pose proof (file_blk_length fs (g_log G) inode n d s Hs Hd).
  assert (Hrd : range d 0 bs = Some d) by (rewrite take_range by lia; f_equal; apply take_ge; lia).
  pose proof (file_range_part fs (g_log G) inode n d 0 bs d s Hs Hn Hd Hrd) as Hr'. rewrite Z.add_0_r in Hr'.
  apply list_eq. intros i. destruct (decide (i < length data)%nat); [|by rewrite !lookup_ge_None_2 by lia].
  rewrite Hr, Hr' by lia. done.
Qed.

Lemma blk_readable inode n d s :
  shows v bs s -> 0 <= n -> file_blk sb v inode n = Some d -> readable fs (v := v) inode (n * bs) bs.
Proof using G.
  intros Hs Hn Hd k Hk. pose proof (bs_pos fs (g_log G)). pose proof (file_blk_length fs (g_log G) inode n d s Hs Hd).
  unfold file_byte. replace (k / bs) with n by (apply (Z.div_unique _ _ _ (k - n * bs)); lia). rewrite Hd. cbn.
  apply lookup_lt_is_Some. pose proof (Z.mod_pos_bound k bs). lia.
Qed.

Lemma lookup_loop_run n k count dir buf name ess s :
  shows v bs s -> 0 <= k -> 0 <= count -> k + Z.of_nat n = 1025 -> k + count <= 1025 -> ext2_file_len sb dir = (k + count) * bs ->
  Z.of_nat (length buf) = bs ->
  mapM (fun k => file_blk sb v dir k ≫= fun d => parse_entries fs (S (Z.to_nat bs)) d 0) (seqZ k count) = Some ess ->
  exists s', lookup_loop junk fs n dir buf name k s =
      Some (match lookup_name name (concat ess) with Some ino => (1, ino) | None => (-1, 0) end, s') /\ shows v bs s'.
Proof using G Hjunk LL BL.
  pose proof (bs_pos fs (g_log G)) as Hbs. revert k count buf ess s.
  induction n as [|n IH]; intros k count buf ess s Hs Hk Hc Hkn Hn Hlen Hbuf He; cbn [lookup_loop].
  { assert (count = 0) as -> by lia. cbn in He. injection He as <-. by exists s. }
  rewrite (u32_small (k * bs)) by nia.
  assert (Hsp : span fs dir (k * bs) bs = if decide (count = 0) then 0 else bs).
  { unfold span. rewrite Hlen. cbn zeta. rewrite (proj2 (Z.ltb_ge _ (k * bs))) by nia. case_decide; nia. }
  assert (Hblk : count <> 0 -> exists d es ess', file_blk sb v dir k = Some d /\
    parse_entries fs (S (Z.to_nat bs)) d 0 = Some es /\ ess = es :: ess' /\
    mapM (fun k => file_blk sb v dir k ≫= fun d => parse_entries fs (S (Z.to_nat bs)) d 0) (seqZ (k + 1) (count - 1)) = Some ess').
  { intros Hc0. rewrite seqZ_cons in He by lia. rewrite <- Z.sub_1_r in He. cbn [mapM] in He.
    destruct (file_blk sb v dir k) as [d|]; [|done]. cbn [mbind option_bind] in He.
    destruct (parse_entries fs _ d 0) as [es|] eqn:Ep; [|done]. cbn [mbind option_bind] in He.
    replace (Z.succ k) with (k + 1) in He by lia. destruct (mapM _ _) as [ess'|] eqn:Em; [|done].
    injection He as <-. exists d, es, ess'. split_and!; done. }
  destruct (ext2_read_inode_run fs (v := v) (g_log G) junk Hjunk dir buf (k * bs) bs s)
    as (data & buf' & s1 & E1 & S1 & L1 & R1 & B1); try done; try nia.
  { rewrite Hsp. case_decide; lia. }
  { rewrite Hsp. case_decide as Hc0; [intros j Hj; lia|]. destruct (Hblk Hc0) as (d & _ & _ & Hd & _).
    by eapply (blk_readable dir k d). }
  run E1. rewrite Hsp in *. case_decide as Hc0.
  { subst count. cbn in He. injection He as <-. by exists s1. }
  rewrite s32_small by lia. rewrite (proj2 (Z.leb_gt bs 0)) by lia.
  destruct (Hblk Hc0) as (d & es & ess' & Hd & Hp & -> & He').
  assert (data = d) as -> by (by eapply (file_range_blk dir k d data s)).
  assert (buf' = d) as ->.
  { pose proof (blit_at_length _ _ _ _ B1). apply list_eq. intros i. rewrite (blit_at_lookup _ _ _ _ _ B1).
    case_decide; [f_equal; lia|by rewrite !lookup_ge_None_2 by lia]. }
  rewrite (bind_some _ _ s1 (lookup_name name es) s1) by (by eapply entry_loop_run; [..|exact Hp]; lia).
  cbn [concat]. rewrite lookup_name_app. destruct (lookup_name name es) as [i|]; [by exists s1|].
  apply (IH (k + 1) (count - 1)); try done; lia.
Qed.

Lemma dir_lookup_run dir name es s :
  shows v bs s -> S_ISDIR (i_mode dir) = true -> dir_entries fs v dir = Some es ->
  exists s', ext2_dir_lookup junk fs dir name s =
      Some (match lookup_name name es with Some ino => (1, ino) | None => (-1, 0) end, s') /\ shows v bs s'.
Proof using G Hjunk LL BL.
  intros Hs Hd. unfold dir_entries. cbn zeta. pose proof (bs_pos fs (g_log G)).
  destruct (Z.leb_spec 0 (ext2_file_len sb dir)); [|done]. destruct (Z.eqb_spec (ext2_file_len sb dir mod bs) 0) as [E0|]; [|done].
  destruct (Z.leb_spec (ext2_file_len sb dir / bs) 1025); [|done]. cbn [andb]. destruct (mapM _ _) as [ess|] eqn:Em; [|done].
  intros [= <-]. unfold ext2_dir_lookup. rewrite Hd. cbn [negb].
  eapply lookup_loop_run; [done|lia| |lia| | | |exact Em]; [by apply Z.div_pos; lia|done| |by apply Hjunk; lia].
  pose proof (Z_div_mod_eq_full (ext2_file_len sb dir) bs). lia.
Qed.

(** ** Links *)

Lemma file_data_range inode off n data :
  0 <= n -> file_data fs v inode off n = Some data ->
  Z.of_nat (length data) = n /\ readable fs (v := v) inode off n /\ file_range fs (v := v) inode off data.
Proof.
  intros Hn Hd. apply mapM_Some in Hd. pose proof (Forall2_length _ _ _ Hd) as Hl. rewrite length_seqZ in Hl.
  assert (Hk : forall k y, data !! k = Some y -> file_byte sb v inode (off + Z.of_nat k) = Some y).
  { intros k y Hy. destruct (Forall2_lookup_r _ _ _ _ _ Hd Hy) as (x & Hx & E). apply lookup_seqZ in Hx as [-> _]. done. }
  split_and!; [lia| |].
  - intros k Hk'. destruct (lookup_lt_is_Some_2 data (Z.to_nat (k - off))) as [y Hy]; [lia|]. exists y.
    rewrite <- (Hk _ _ Hy). f_equal. lia.
  - intros k Hk'. destruct (lookup_lt_is_Some_2 data k Hk') as [y Hy]. by rewrite Hy, (Hk _ _ Hy).
Qed.

Lemma file_range_unique inode off d1 d2 :
  length d1 = length d2 -> file_range fs (v := v) inode off d1 -> file_range fs (v := v) inode off d2 -> d1 = d2.
Proof.
  intros Hl H1 H2. apply list_eq. intros i. destruct (decide (i < length d1)%nat); [|by rewrite !lookup_ge_None_2 by lia].
  by rewrite H1, H2 by lia.
Qed.

(** A text and its NUL written to an array. *)
Lemma put_text raw (str : list Z) n :
  Z.of_nat (length raw) = n -> n < Z.of_nat (length str) -> exists str1 str2 rest,
    blit_at str 0 raw = Some str1 /\ blit_at str1 n [0] = Some str2 /\ str2 = raw ++ 0 :: rest.
Proof.
  intros Hl Hn. destruct (blit_at_Some str 0 raw) as (str1 & B1 & L1); [lia|lia|].
  destruct (blit_at_Some str1 n [0]) as (str2 & B2 & _); [lia|cbn [length]; lia|]. exists str1, str2, (drop (length (raw ++ [0])) str).
  split_and!; [done|done|]. rewrite <- Hl, <- (Z.add_0_l (Z.of_nat (length raw))) in B2.
  pose proof (blit_at_app _ _ _ _ _ _ B1 B2) as B. apply blit_front in B. by rewrite <- app_assoc in B.
Qed.

Lemma read_link_run inode t s :
  shows v bs s -> 0 <= ext2_file_len sb inode <= 511 -> length (i_block inode) = 60%nat -> link_text fs v inode = Some t ->
  exists str s', ext2_read_link junk fs inode (junk 512) 512 s = Some ((ext2_file_len sb inode, str), s') /\
    shows v bs s' /\ until_nul str = Some t.
Proof using G Hjunk LL BL.
  intros Hs Hlen Hib Ht. unfold ext2_read_link. set (n := ext2_file_len sb inode) in *. cbn zeta.
  rewrite (proj2 (Z.ltb_ge n 0)), u64_small, (proj2 (Z.ltb_ge 512 (n + 1))) by lia. cbn [orb].
  unfold link_text in Ht. fold n in Ht. cbn zeta in Ht. pose proof (Hjunk 512).
  destruct (Z.ltb_spec 60 n) as [Hgt|Hle].
  - destruct (file_data fs v inode 0 n) as [raw|] eqn:Er; [|done]. cbn in Ht.
    destruct (file_data_range inode 0 n raw) as (Lr & Rd & Rr); [lia|done|].
    assert (Hsp : span fs inode 0 n = n) by (unfold span; fold n; cbn zeta; rewrite (proj2 (Z.ltb_ge n 0)) by lia; lia).
    destruct (ext2_read_inode_run fs (v := v) (g_log G) junk Hjunk inode (junk 512) 0 n s)
      as (data & str1 & s1 & E1 & S1 & L1 & R1 & B1); try done; rewrite ?Hsp; try done; try lia.
    assert (data = raw) as -> by (eapply file_range_unique; [lia|done|done]).
    destruct (put_text raw (junk 512) n) as (str1' & str2 & rest & B1' & B2 & E2); [lia|lia|].
    assert (str1' = str1) as -> by congruence.
    rewrite Hsp, s32_small in E1 by lia. run E1. rewrite (proj2 (Z.ltb_ge n 0)) by lia.
    run (getres_some _ _ s1 B2). rewrite s32_small by lia. exists str2, s1. split_and!; [done|done|].
    by rewrite E2, until_nul_app.
  - destruct (range (i_block inode) 0 n) as [raw|] eqn:Er; [|done]. cbn in Ht.
    pose proof (range_length _ _ _ _ Er).
    destruct (put_text raw (junk 512) n) as (str1 & str2 & rest & B1 & B2 & E2); [lia|lia|].
    rewrite (bind_some _ _ s raw s) by (by apply getres_some). run (getres_some _ _ s B1). run (getres_some _ _ s B2).
    rewrite s32_small by lia. exists str2, s. split_and!; [done|done|]. by rewrite E2, until_nul_app.
Qed.

(** ** Paths *)

(** What [namei] can give: errors are negative, and a link is never the end. *)
Definition sound (f : ext2_inode -> list (list Z) -> option (Z + Z)) : Prop :=
  forall dir names, (forall e, f dir names = Some (inl e) -> e < 0) /\
    (forall ino inode, f dir names = Some (inr ino) -> inode_at fs v ino = Some inode -> S_ISLNK (i_mode inode) = false).

Lemma follow_sound f dir ino : sound f ->
  (forall e, follow fs v f dir ino = Some (inl e) -> e < 0) /\
  (forall ino' inode, follow fs v f dir ino = Some (inr (ino', inode)) ->
     inode_at fs v ino' = Some inode /\ S_ISLNK (i_mode inode) = false).
Proof.
  intros Hf. unfold follow. destruct (inode_at fs v ino) as [inode0|] eqn:E0; [|split; intros; done]. cbn [mbind option_bind].
  destruct (S_ISLNK (i_mode inode0)) eqn:El; cbn [negb]; [|split; [done|intros ino' inode [= <- <-]; done]].
  destruct (_ || _); [by split; [intros e [= <-]|]|].
  destruct (link_text fs v inode0) as [t|]; [|split; intros; done]. cbn [mbind option_bind].
  destruct (f _ (comps t)) as [[e|ino1]|] eqn:Ef; [..|split; intros; done]; cbn [mbind option_bind].
  - split; [intros e' [= <-]; by eapply Hf|done].
  - destruct (inode_at fs v ino1) as [inode1|] eqn:E1; [|split; intros; done]. cbn [mbind option_bind].
    split; [done|]. intros ino' inode [= <- <-]. split; [done|]. by eapply Hf.
Qed.

Lemma walk_sound f : sound f -> sound (walk_names fs v f).
Proof.
  intros Hf dir names. revert dir. induction names as [|n names IH]; intros dir; [by split|]. cbn [walk_names].
  destruct (negb _); [by split; [intros e [= <-]|]|]. destruct (dir_entries fs v dir) as [es|]; [|by split]. cbn [mbind option_bind].
  destruct (lookup_name n es) as [ino|]; [|by split; [intros e [= <-]|]].
  destruct (follow_sound f dir ino Hf) as [Fe Fi].
  destruct (follow fs v f dir ino) as [[e|[ino1 inode1]]|]; [..|by split]; cbn [mbind option_bind].
  - split; [intros e' [= <-]; by apply Fe|done].
  - destruct (Fi _ _ eq_refl) as [E1 L1]. destruct names as [|n' names].
    + split; [done|]. intros ino' inode [= <-]. congruence.
    + destruct (S_ISDIR (i_mode inode1)); [apply IH|by split; [intros e [= <-]|]].
Qed.

Lemma namei_sound left : sound (namei fs v left).
Proof. induction left as [|left IH]; [|by apply walk_sound]. split; [by intros e [= <-]|done]. Qed.

(** A walk returns the error, or 0 and the inode number. *)
Definition returns (r : Z * Z) (res : Z + Z) : Prop :=
  match res with inl e => fst r = e | inr ino => r = (0, ino) end.

Section walk.
Context (recur : list Z -> ext2_inode -> M (bcache D) (Z * Z)) (f : ext2_inode -> list (list Z) -> option (Z + Z)).
Context (Hf : sound f) (Hrec : forall link dir res s, shows v bs s -> f dir (comps link) = Some res ->
  exists r s', recur link dir s = Some (r, s') /\ shows v bs s' /\ returns r res).

Lemma dir_not_link mode : S_ISDIR mode = true -> S_ISLNK mode = false.
Proof. unfold S_ISDIR, S_ISLNK. intros ->%Z.eqb_eq. done. Qed.

(** At an inode that is not a link. *)
Lemma next_plain fuel fin dir ino inode s :
  shows v bs s -> inode_at fs v ino = Some inode -> S_ISLNK (i_mode inode) = false ->
  exists r s', next_component junk fs recur (S fuel) fin dir ino s = Some (r, s') /\ shows v bs s' /\
    (if (fin : bool) then exists d, r = inr (d, ino)
     else r = if S_ISDIR (i_mode inode) then inr (inode, ino) else inl ERR_NOT_FOUND).
Proof using G LL BL.
  intros Hs Hi Hl. cbn [next_component]. destruct (load_inode_run ino inode s Hs Hi) as (s1 & E1 & S1). run E1.
  rewrite Hl. destruct (S_ISDIR (i_mode inode)), fin; eexists _, s1; (split; [reflexivity|]); split; eauto.
Qed.

Lemma next_component_run fin dir ino res s :
  shows v bs s -> follow fs v f dir ino = Some res ->
  exists r s', next_component junk fs recur 2 fin dir ino s = Some (r, s') /\ shows v bs s' /\
    match res with
    | inl e => r = inl e
    | inr (ino', inode) =>
        if (fin : bool) then exists d, r = inr (d, ino')
        else r = if S_ISDIR (i_mode inode) then inr (inode, ino') else inl ERR_NOT_FOUND
    end.
Proof using G Hjunk LL BL Hf Hrec.
  intros Hs. unfold follow. destruct (inode_at fs v ino) as [inode|] eqn:Ei; [|done]. cbn [mbind option_bind].
  destruct (S_ISLNK (i_mode inode)) eqn:El; cbn [negb]; [|intros [= <-]; by apply next_plain].
  destruct (load_inode_run ino inode s Hs Ei) as (s1 & E1 & S1). cbn [next_component]. run E1. rewrite El.
  pose proof (inode_size ino inode Ei) as Hsz. rewrite <- (link_len inode El) in Hsz.
  rewrite (proj2 (Z.ltb_ge _ 0)) by lia. cbn [orb]. destruct (Z.ltb_spec 511 (ext2_file_len sb inode)) as [Hlong|Hshort].
  { intros [= <-]. eexists _, s1. split; [|done]. unfold ext2_read_link. cbn zeta.
    by rewrite (proj2 (Z.ltb_ge _ 0)), u64_small, (proj2 (Z.ltb_lt 512 _)) by lia. }
  destruct (link_text fs v inode) as [t|] eqn:Et; [|done]. cbn [mbind option_bind].
  destruct (f _ (comps t)) as [res1|] eqn:Ef; [|done]. cbn [mbind option_bind]. intros Hres.
  destruct (read_link_run inode t s1 S1) as (str & s2 & E2 & S2 & Hu); [lia|by eapply inode_block|done|]. run E2.
  rewrite (proj2 (Z.ltb_ge (ext2_file_len sb inode) 0)) by lia. run (getres_some _ _ s2 Hu).
  destruct (Hrec _ _ _ s2 S2 Ef) as ([err ino1] & s3 & E3 & S3 & Hr). run E3. destruct res1 as [e|ino2]; cbn [returns fst] in Hr.
  - injection Hres as <-. subst err. rewrite (proj2 (Z.ltb_lt e 0)) by (by eapply Hf). by eexists _, s3.
  - injection Hr as -> ->. cbn [Z.ltb Z.compare]. destruct (inode_at fs v ino2) as [inode2|] eqn:E2i; [|done].
    injection Hres as <-. destruct fin; [eexists _, s3; eauto|]. apply (next_plain 0 false); [done|done|]. by eapply Hf.
Qed.

Lemma walk_loop_run fuel ptr dir res s :
  shows v bs s -> skip_slashes ptr = ptr -> (length ptr < fuel)%nat -> walk_names fs v f dir (comps ptr) = Some res ->
  exists r s', walk_loop junk fs recur fuel ptr dir s = Some (r, s') /\ shows v bs s' /\ returns r res.
Proof using G Hjunk LL BL Hf Hrec.
  revert ptr dir s. induction fuel as [|fuel IH]; intros ptr dir s Hs Hp Hl; [lia|]. cbn [walk_loop].
  destruct (split_slash ptr) as [c next] eqn:Es. destruct (comps_split ptr c next Hp Es) as [-> Hlt].
  set (rest := match next with None => [] | Some r => comps (skip_slashes r) end).
  replace (match next with None => [c] | Some r => c :: comps (skip_slashes r) end) with (c :: rest) by (by destruct next).
  cbn [walk_names]. destruct (S_ISDIR (i_mode dir)) eqn:Ed; cbn [negb].
  2: { intros [= <-]. unfold ext2_dir_lookup. rewrite Ed. by eexists _, s. }
  destruct (dir_entries fs v dir) as [es|] eqn:Ee; [|done]. cbn [mbind option_bind].
  destruct (dir_lookup_run dir c es s Hs Ed Ee) as (s1 & E1 & S1). run E1.
  destruct (lookup_name c es) as [ino|]; [|intros [= <-]; by eexists _, s1]. cbn [Z.ltb Z.compare].
  destruct (follow fs v f dir ino) as [res1|] eqn:Ef; [|done]. cbn [mbind option_bind].
  set (fin := match next with None => true | Some _ => false end).
  destruct (next_component_run fin dir ino res1 s1 S1 Ef) as (r1 & s2 & E2 & S2 & Hr). run E2.
  destruct res1 as [e|[ino1 inode1]]; [intros [= <-]; subst r1; by eexists _, s2|].
  destruct next as [r|]; cbn [fin] in Hr.
  - destruct (comps_cons (skip_slashes r)) as (n & ns & En).
    intros Hw. assert (Hw' : (if S_ISDIR (i_mode inode1) then walk_names fs v f inode1 (comps (skip_slashes r)) else Some (inl ERR_NOT_FOUND)) = Some res).
    { unfold rest in Hw. rewrite En in *. exact Hw. }
    destruct (S_ISDIR (i_mode inode1)); subst r1; [|injection Hw' as <-; by eexists _, s2].
    apply IH; [done| |lia|done]. apply skip_skip.
  - destruct Hr as [d ->]. intros [= <-]. by eexists _, s2.
Qed.
End walk.

Lemma walk_run left path dir res s :
  shows v bs s -> namei fs v left dir (comps path) = Some res ->
  exists r s', ext2_walk junk fs left path dir s = Some (r, s') /\ shows v bs s' /\ returns r res.
Proof using G Hjunk LL BL.
  revert path dir res s. induction left as [|left IH]; intros path dir res s Hs; cbn [ext2_walk namei].
  - intros [= <-]. by eexists _, s.
  - rewrite <- comps_skip. apply walk_loop_run; [apply namei_sound|done|done|apply skip_skip|].
    pose proof (skip_length path). lia.
Qed.
End driver.
