(* ===== verification/Ext2Props.v ===== *)
(** * Theorems on the ext2 driver

    Mounting reads the volume's description, a path is looked up as [namei]
    does, and a read returns the bytes that the block pointers of the inode
    select; on a consistent volume all of them end. *)

From S2P Require Import Prelude Arrays ListH Bio BioSpec Bcache CacheSpec CacheOps CacheProps FsPath FsPathSpec Fs Ext2 Ext2Spec Ext2Dir.
Local Open Scope lk_scope.

(** ** Consistent volumes *)

Section consistent.
Context (fs : ext2) (v : Z -> option (list Z)).
Abbreviation sb := (Ext2.sb fs).

Definition known (inode : ext2_inode) : Prop :=
  inode = root_inode fs \/ exists num, inode_at fs v num = Some inode.

(** Directories can be read and name inodes; the text of links can be read. *)
Record consistent : Prop := {
  co_geometry : geometry fs v;
  co_dir : forall dir, known dir -> S_ISDIR (i_mode dir) = true -> exists es, dir_entries fs v dir = Some es /\
    forall name ino, lookup_name name es = Some ino -> is_Some (inode_at fs v ino);
  co_link : forall inode, known inode -> S_ISLNK (i_mode inode) = true -> 0 <= ext2_file_len sb inode <= 511 ->
    is_Some (link_text fs v inode);
}.
Context (C : consistent).

(** A result names an inode. *)
Definition total (f : ext2_inode -> list (list Z) -> option (Z + Z)) : Prop :=
  forall dir names, known dir -> names <> [] -> exists res, f dir names = Some res /\
    match res with inl _ => True | inr ino => is_Some (inode_at fs v ino) end.

Lemma follow_total f dir ino : total f -> known dir -> is_Some (inode_at fs v ino) ->
  exists res, follow fs v f dir ino = Some res /\
    match res with inl _ => True | inr (ino', inode) => inode_at fs v ino' = Some inode end.
Proof using C.
  intros Hf Hd [inode Hi]. unfold follow. rewrite Hi. cbn [mbind option_bind].
  destruct (S_ISLNK (i_mode inode)) eqn:El; cbn [negb]; [|by eexists].
  destruct (_ || _) eqn:Eo; [by eexists|]. apply orb_false_iff in Eo as [?%Z.ltb_ge ?%Z.ltb_ge].
  destruct (co_link C inode) as [t Ht]; [right; eauto|done|lia|]. rewrite Ht. cbn [mbind option_bind].
  destruct (comps_cons t) as (n & ns & Ec).
  destruct (Hf (if bool_decide (head t = Some 47) then root_inode fs else dir) (comps t)) as (res & Hr & Hk).
  { case_bool_decide; [by left|done]. }
  { by rewrite Ec. }
  rewrite Hr. cbn [mbind option_bind]. destruct res as [e|ino']; [by eexists|]. destruct Hk as [inode' Hk].
  rewrite Hk. by eexists.
Qed.

Lemma walk_total f : total f -> total (walk_names fs v f).
Proof using C.
  intros Hf dir names. revert dir. induction names as [|n names IH]; intros dir Hd; [done|]. intros _. cbn [walk_names].
  destruct (S_ISDIR (i_mode dir)) eqn:Ed; cbn [negb]; [|by eexists].
  destruct (co_dir C dir Hd Ed) as (es & -> & Hes). cbn [mbind option_bind].
  destruct (lookup_name n es) as [ino|] eqn:En; [|by eexists].
  destruct (follow_total f dir ino Hf Hd (Hes _ _ En)) as (res & -> & Hr). cbn [mbind option_bind].
  destruct res as [e|[ino' inode]]; [by eexists|]. destruct names as [|n' names]; [exists (inr ino'); split; [done|by exists inode]|].
  destruct (S_ISDIR (i_mode inode)); [|by eexists]. apply IH; [right; eauto|done].
Qed.

Lemma namei_total left : total (namei fs v left).
Proof using C. induction left as [|left IH]; [|by apply walk_total]. intros dir names _ _. by eexists. Qed.
End consistent.

(** ** Mounting *)

(** The blocks of a device image, and what [ext2_mount] reads from it. *)
Definition blocks_of (img : list Z) (bs b : Z) : option (list Z) := range img (b * bs) bs.

Definition group_count (sb : ext2_super_block) : Z :=
  (s_blocks_count sb + s_blocks_per_group sb - 1) / s_blocks_per_group sb.
Definition describe (img : list Z) : option ext2 :=
  range img 1024 1024 ≫= fun l =>
  let sb := read_super_block l in
  let bs := EXT2_BLOCK_SIZE sb in
  range img (if bs =? 4096 then 4096 else 2048) (32 * group_count sb) ≫= fun g =>
  let fs root := {| Ext2.sb := sb; s_group_count := group_count sb;
                    gd := read_group_desc g <$> seq 0 (Z.to_nat (group_count sb)); root_inode := root |} in
  fs <$> inode_at (fs (read_inode_struct [])) (blocks_of img bs) 2.

Record mountable (sb : ext2_super_block) : Prop := {
  mo_magic : s_magic sb = EXT2_SUPER_MAGIC;
  mo_rev : s_rev_level sb <= EXT2_DYNAMIC_REV;
  mo_features : Z.land (s_feature_ro_compat sb) (2 ^ 32 - 4) = 0;
  mo_groups : 0 < s_blocks_per_group sb /\ 0 < s_blocks_count sb;
  mo_small : s_blocks_count sb + s_blocks_per_group sb - 1 < 2 ^ 32 /\ group_count sb < 2 ^ 26;
}.

Section mount.
Context {D : Type} `{LO : ListOps nat bc_list} {LL : ListLaws nat bc_list}.
Context `{BD : !ByteDev D} {BL : ByteDevLaws D}.
Context (junk : Z -> list Z) (Hjunk : forall n, 0 <= n -> Z.of_nat (length (junk n)) = n).

Lemma ext2_mount_run lists nums (dev : D) fs :
  links_ok lists -> (forall h, contents lists h = []) -> dev_good dev -> Z.of_nat (length (dev_img dev)) < 2 ^ 63 ->
  let v := blocks_of (dev_img dev) (EXT2_BLOCK_SIZE (sb fs)) in
  describe (dev_img dev) = Some fs -> mountable (sb fs) -> geometry fs v ->
  exists s, ext2_mount junk lists nums dev = Some (inr (fs, s)) /\ shows v (EXT2_BLOCK_SIZE (sb fs)) s.
Proof using Hjunk LL.
  intros Hl Hc Hg Himg v Hd Hm G. unfold describe in Hd.
  destruct (range (dev_img dev) 1024 1024) as [l|] eqn:El; [|done]. cbn [mbind option_bind] in Hd.
  set (sb0 := read_super_block l) in *. cbn zeta in Hd.
  destruct (range _ _ (32 * group_count sb0)) as [g|] eqn:Eg; [|done]. cbn [mbind option_bind] in Hd.
  destruct (inode_at _ _ 2) as [root|] eqn:Er; [|done]. injection Hd as <-. cbn [Ext2.sb] in *.
  assert (Hlen : 2048 <= Z.of_nat (length (dev_img dev))) by (unfold range in El; case_bool_decide; [lia|done]).
  destruct (byte_read_law dev (junk 1024) 1024 1024) as (l' & E1 & El'); [done|lia|lia|lia|lia|by apply Hjunk|].
  assert (l' = l) as -> by congruence. unfold ext2_mount. rewrite E1, (s32_small 1024) by lia. cbn [Z.ltb Z.compare].
  fold sb0. cbn zeta. rewrite (mo_magic _ Hm), Z.eqb_refl. cbn [negb].
  destruct (mo_groups _ Hm) as [Hg1 Hg2]. destruct (mo_small _ Hm) as [Hs1 Hs2].
  rewrite (proj2 (Z.eqb_neq (s_blocks_per_group sb0) 0)) by lia. fold (group_count sb0).
  rewrite (u32_small (s_blocks_count sb0 + _ - 1)) by lia. fold (group_count sb0).
  assert (Hgc : 0 < group_count sb0) by (apply Z.div_str_pos; lia).
  rewrite (s32_small (group_count sb0)) by lia.
  rewrite (proj2 (Z.ltb_ge EXT2_DYNAMIC_REV _)) by apply Hm.
  change (u32 (Z.lnot _)) with (2 ^ 32 - 4). rewrite (mo_features _ Hm). cbn [Z.eqb negb].
  pose proof (g_log _ _ G) as Hlog. cbn [Ext2.sb] in Hlog. rewrite (proj2 (Z.leb_gt 32 _)) by lia.
  pose proof (block_size_cases _ Hlog) as Hbs. rewrite (u64_small (32 * _)) by lia.
  set (off := if EXT2_BLOCK_SIZE sb0 =? 4096 then 4096 else 2048) in *.
  assert (Ho : 0 <= off <= 4096) by (unfold off; destruct (_ =? _); lia).
  assert (Hle2 : off + 32 * group_count sb0 <= Z.of_nat (length (dev_img dev)))
    by (unfold range in Eg; case_bool_decide; [lia|done]).
  destruct (byte_read_law dev (junk (32 * group_count sb0)) off (32 * group_count sb0)) as (g' & E2 & Eg');
    [done|lia|lia|lia|lia|apply Hjunk; lia|].
  assert (g' = g) as -> by congruence. rewrite E2, s32_small, (proj2 (Z.ltb_ge _ 0)) by lia.
  set (raw := (fun i : nat => (nums i, junk (EXT2_BLOCK_SIZE sb0))) <$> seq 0 4).
  assert (Hraw : Forall (fun p : Z * list Z => Z.of_nat (length (snd p)) = EXT2_BLOCK_SIZE sb0) raw).
  { apply Forall_fmap, Forall_true. intros i. cbn. apply Hjunk. lia. }
  destruct (bcache_create_run lists dev (EXT2_BLOCK_SIZE sb0) raw) as (s & Es & Hi & Hdev & Hsz & Hv & Hp); try done; [lia|].
  destruct (create_fresh lists dev (EXT2_BLOCK_SIZE sb0) raw) as (s' & Es' & _ & _ & _ & Hcnt); try done.
  assert (s' = s) as -> by congruence. rewrite Es.
  assert (Hs : shows v (EXT2_BLOCK_SIZE sb0) s).
  { split; [split; [done|done|rewrite Hcnt; unfold raw; rewrite length_fmap, length_seq; lia]| |done].
    intros b. rewrite Hv. unfold disk. by rewrite Hdev, Hsz. }
  destruct (load_inode_run _ v G 2 root s Hs Er) as (s1 & E3 & S1). exists s1. split; [|done].
  match goal with |- match ?c with _ => _ end = _ => replace c with (Some ((0, Some root), s1)) by (symmetry; exact E3) end.
  done.
Qed.
End mount.

(** ** The claims *)

(** C20: [ext2_read_inode] returns the bytes that the inode's block pointers
    select, direct or through up to three levels of tables, zeros in holes, cut
    at the end of the file; nothing behind them in the buffer changes, the loop
    over the blocks ends, and the cache is left idle and shows the same
    volume. *)
Theorem ext2_read_inode_spec {D} `{LO : ListOps nat bc_list} {LL : ListLaws nat bc_list}
    `{BD : !ByteDev D} {BL : ByteDevLaws D} (junk : Z -> list Z) fs v inode buf offset len data (s : bcache D) :
  (forall n, 0 <= n -> Z.of_nat (length (junk n)) = n) -> 0 <= s_log_block_size (sb fs) <= 2 ->
  shows v (EXT2_BLOCK_SIZE (sb fs)) s ->
  0 <= offset -> 0 <= len -> offset + len < 2 ^ 64 -> 0 <= ext2_file_len (sb fs) inode < 2 ^ 63 ->
  let n := span fs inode offset len in
  n <= Z.of_nat (length buf) -> file_data fs v inode offset n = Some data ->
  exists s', ext2_read_inode junk fs inode buf offset len s = Some ((s32 n, data ++ drop (Z.to_nat n) buf), s') /\
    shows v (EXT2_BLOCK_SIZE (sb fs)) s'.
Proof.
  intros Hj Hlog Hs Ho Hl Hol Hsz n Hb Hd.
  assert (Hn : 0 <= n) by (unfold n, span; cbn zeta; destruct (Z.ltb_spec (ext2_file_len (sb fs) inode) offset); lia).
  destruct (file_data_range fs v inode offset n data Hn Hd) as (Ld & Rd & Fd).
  destruct (ext2_read_inode_run fs (v := v) Hlog junk Hj inode buf offset len s) as (data' & buf' & s' & E & S' & L & R & B);
    try done.
  assert (data' = data) as -> by (eapply file_range_unique; [by apply Nat2Z.inj; rewrite L, Ld|done|done]).
  exists s'. split; [|done]. rewrite E. apply blit_front in B. rewrite B. fold n. by rewrite <- Ld, Nat2Z.id.
Qed.

(** C21: On a consistent volume every path lookup ends, whatever links it meets,
    with the result of [namei]: the inode the path names, or the error for a
    missing name, a component that is not a directory, a link that is too long
    or more than four levels of links. *)
Theorem ext2_lookup_spec {D} `{LO : ListOps nat bc_list} {LL : ListLaws nat bc_list}
    `{BD : !ByteDev D} {BL : ByteDevLaws D} (junk : Z -> list Z) fs v path (s : bcache D) :
  (forall n, 0 <= n -> Z.of_nat (length (junk n)) = n) -> consistent fs v -> shows v (EXT2_BLOCK_SIZE (sb fs)) s ->
  exists res r s', namei fs v 4 (root_inode fs) (comps (take 511 path)) = Some res /\
    ext2_lookup junk fs path s = Some (r, s') /\ shows v (EXT2_BLOCK_SIZE (sb fs)) s' /\
    match res with
    | inl err => fst r = err /\ err < 0
    | inr ino => r = (0, ino) /\ is_Some (inode_at fs v ino)
    end.
Proof.
  intros Hj C Hs. destruct (comps_cons (take 511 path)) as (n & ns & Ec).
  destruct (namei_total fs v C 4 (root_inode fs) (comps (take 511 path))) as (res & Hr & Hi); [by left|by rewrite Ec|].
  destruct (walk_run fs v (co_geometry _ _ C) junk Hj 4 (take 511 path) (root_inode fs) res s Hs Hr) as (r & s' & E & S' & Ret).
  exists res, r, s'. split_and!; try done. destruct res as [e|ino]; [|done]. split; [done|].
  by eapply namei_sound.
Qed.

(** C19: From the device to the bytes of a file: mounting an image with a valid
    superblock succeeds, opening a path that names a regular file succeeds, and
    reading and sizing the open file give the contents and the length the image
    describes. *)
Theorem ext2_mount_open_read {D} `{LO : ListOps nat bc_list} {LL : ListLaws nat bc_list}
    `{BD : !ByteDev D} {BL : ByteDevLaws D} (junk : Z -> list Z) lists nums (dev : D) fs path ino inode buf offset len data :
  (forall n, 0 <= n -> Z.of_nat (length (junk n)) = n) ->
  links_ok lists -> (forall h, contents lists h = []) -> dev_good dev -> Z.of_nat (length (dev_img dev)) < 2 ^ 63 ->
  describe (dev_img dev) = Some fs -> mountable (sb fs) ->
  let v := blocks_of (dev_img dev) (EXT2_BLOCK_SIZE (sb fs)) in
  geometry fs v ->
  namei fs v 4 (root_inode fs) (comps (take 511 path)) = Some (inr ino) -> inode_at fs v ino = Some inode ->
  S_ISREG (i_mode inode) = true ->
  0 <= offset -> 0 <= len -> offset + len < 2 ^ 64 -> 0 <= ext2_file_len (sb fs) inode < 2 ^ 63 ->
  let n := span fs inode offset len in
  n <= Z.of_nat (length buf) -> file_data fs v inode offset n = Some data ->
  exists s file s1 s2, ext2_mount junk lists nums dev = Some (inr (fs, s)) /\
    ext2_open_file junk fs path s = Some ((0, Some file), s1) /\
    ext2_read_file junk fs file buf offset len s1 = Some ((s32 n, data ++ drop (Z.to_nat n) buf), s2) /\
    ext2_stat_file fs file = (0, {| st_is_dir := false; st_size := ext2_file_len (sb fs) inode |}) /\
    ext2_close_file file = (0, []).
Proof.
  intros Hj Hl Hc Hg Himg Hd Hm v G Hn Hi Hreg Ho Hlen Hol Hsz n Hb Hdata.
  destruct (ext2_mount_run junk Hj lists nums dev fs Hl Hc Hg Himg Hd Hm G) as (s & E0 & S0). fold v in S0.
  destruct (walk_run fs v G junk Hj 4 (take 511 path) (root_inode fs) _ s S0 Hn) as (r & s1 & E1 & S1 & ->).
  destruct (load_inode_run fs v G ino inode s1 S1 Hi) as (s2 & E2 & S2).
  assert (Hn0 : 0 <= n) by (unfold n, span; cbn zeta; destruct (Z.ltb_spec (ext2_file_len (sb fs) inode) offset); lia).
  destruct (file_data_range fs v inode offset n data Hn0 Hdata) as (Ld & Rd & Fd).
  destruct (ext2_read_inode_run fs (v := v) (g_log _ _ G) junk Hj inode buf offset len s2) as (data' & buf' & s3 & E & S' & L & R & B);
    try done.
  assert (data' = data) as -> by (eapply file_range_unique; [by apply Nat2Z.inj; rewrite L, Ld|done|done]).
  eexists s, _, s2, s3. split_and!; [done| | | |].
  - unfold ext2_open_file, ext2_lookup. run E1. cbn [Z.ltb Z.compare]. by run E2.
  - unfold ext2_read_file. cbn [f_inode]. rewrite Hreg. cbn [negb]. rewrite E. apply blit_front in B. rewrite B. fold n.
    by rewrite <- Ld, Nat2Z.id.
  - unfold ext2_stat_file. cbn [f_inode]. unfold S_ISDIR, S_ISREG in *. apply Z.eqb_eq in Hreg. by rewrite Hreg.
  - done.
Qed.

(** ** Witnesses: a volume of six blocks on a memory device, with a file [f]
    that holds [hello] and a link [l] to it *)

Section witnesses.
#[local] Existing Instance ref_ops.
#[local] Existing Instance ref_laws.

Definition demo_img : list Z :=
  foldl (fun img '(off, d) => default img (blit_at img off d)) (replicate (Z.to_nat 6144) 0)
    [(1028, [6]); (1056, [0; 32]); (1064, [8]); (1080, [83; 239]);
     (2056, [3]);
     (3200, [0; 64; 0; 0; 0; 4]); (3240, [4]);
     (3328, [0; 128; 0; 0; 5]); (3368, [5]);
     (3456, [0; 160; 0; 0; 1]); (3496, [102]);
     (4096, [3; 0; 0; 0; 12; 0; 1; 1; 102]); (4108, [4; 0; 0; 0; 244; 3; 1; 7; 108]);
     (5120, [104; 101; 108; 108; 111])].
Definition demo_dev : bdev :=
  {| bd_ref := 1; bd_name := "ram"; bd_size := 6144; bd_block_size := 512; bd_block_count := 12; bd_ops := Mem_ops 0 |}.
Definition demo_bio : bio :=
  {| devs := {[0%nat := demo_dev]}; bdevs := ref_empty; lock := false; disks := {[0%nat := demo_img]} |}.
#[local] Instance demo_bytes : ByteDev bio := bio_bytes 1 0.
#[local] Instance demo_bytes_laws : ByteDevLaws bio := bio_bytes_laws 1 0.
Definition demo_junk (n : Z) : list Z := replicate (Z.to_nat n) 165.
Definition demo_lists : @links nat bc_list _ := ref_empty.

Definition demo_none : ext2 :=
  {| sb := read_super_block []; s_group_count := 0; gd := []; root_inode := read_inode_struct [] |}.
Definition demo_fs : ext2 := default demo_none (describe demo_img).
Abbreviation demo_v := (blocks_of demo_img (EXT2_BLOCK_SIZE (sb demo_fs))).

Lemma demo_bs : EXT2_BLOCK_SIZE (sb demo_fs) = 1024.
Proof. vm_compute. reflexivity. Qed.

Lemma demo_img_eq : dev_img demo_bio = demo_img.
Proof. vm_compute. reflexivity. Qed.

Lemma demo_junk_length n : 0 <= n -> Z.of_nat (length (demo_junk n)) = n.
Proof. intros Hn. unfold demo_junk. rewrite length_replicate. lia. Qed.

Lemma demo_describe : describe demo_img = Some demo_fs.
Proof. vm_compute. reflexivity. Qed.

Lemma demo_geometry : geometry demo_fs demo_v.
Proof.
  split.
  - vm_compute. split; discriminate.
  - vm_compute. reflexivity.
  - vm_compute. reflexivity.
  - vm_compute. reflexivity.
  - intros b [d Hd]. unfold blocks_of, range in Hd. rewrite demo_bs in Hd. case_bool_decide as Hb; [|done].
    assert (Z.of_nat (length demo_img) = 6144) by (vm_compute; reflexivity). lia.
  - intros b d Hd. eapply range_Forall, Hd. apply Forall_forall. intros x Hx%list_elem_of_In.
    assert (Hall : forallb (fun x => (0 <=? x) && (x <? 2 ^ 8)) demo_img = true) by (vm_compute; reflexivity).
    rewrite forallb_forall in Hall. apply Hall in Hx. apply andb_prop in Hx as [?%Z.leb_le ?%Z.ltb_lt]. lia.
Qed.

Lemma demo_mountable : mountable (sb demo_fs).
Proof. split; try (vm_compute; reflexivity); [vm_compute; discriminate|split; vm_compute; reflexivity..]. Qed.

Lemma demo_mount nums : exists s, ext2_mount demo_junk demo_lists nums demo_bio = Some (inr (demo_fs, s)) /\
  shows demo_v (EXT2_BLOCK_SIZE (sb demo_fs)) s.
Proof.
  pose proof (ext2_mount_run demo_junk demo_junk_length demo_lists nums demo_bio demo_fs) as H.
  cbn zeta in H. rewrite demo_img_eq in H.
  apply H; [apply ref_empty_ok|reflexivity|exists 0%nat, 0; vm_compute; reflexivity|vm_compute; reflexivity|
    apply demo_describe|apply demo_mountable|apply demo_geometry].
Qed.

(** The inodes of the volume, and a check of each. *)
Definition demo_inodes : list ext2_inode := root_inode demo_fs :: omap (inode_at demo_fs demo_v) (seqZ 1 8).
Definition inode_check (inode : ext2_inode) : bool :=
  (if S_ISDIR (i_mode inode)
   then match dir_entries demo_fs demo_v inode with
        | Some es => forallb (fun e => bool_decide (is_Some (inode_at demo_fs demo_v (snd e)))) es
        | None => false
        end
   else true) &&
  (if S_ISLNK (i_mode inode) then bool_decide (is_Some (link_text demo_fs demo_v inode)) else true).

Lemma demo_check : forallb inode_check demo_inodes = true.
Proof. vm_compute. reflexivity. Qed.

Lemma demo_known inode : known demo_fs demo_v inode -> inode_check inode = true.
Proof.
  intros Hk. pose proof demo_check as Hc. rewrite forallb_forall in Hc. apply Hc. apply list_elem_of_In.
  destruct Hk as [->|[num Hn]]; [by left|]. right. apply list_elem_of_omap. exists num. split; [|done].
  apply elem_of_seqZ. unfold inode_at in Hn. destruct (Z.leb_spec 1 num); [|done]. destruct (num <? 2 ^ 32); [|done].
  cbn [andb] in Hn. cbn zeta in Hn. destruct (gd demo_fs !! _) as [g|] eqn:Eg; [|done]. apply lookup_lt_Some in Eg.
  assert (Hl : length (gd demo_fs) = 1%nat) by (vm_compute; reflexivity). rewrite Hl in Eg.
  assert (Hi : s_inodes_per_group (sb demo_fs) = 8) by (vm_compute; reflexivity). rewrite Hi in Eg.
  pose proof (Z.div_pos (num - 1) 8). pose proof (Z_div_mod_eq_full (num - 1) 8). pose proof (Z.mod_pos_bound (num - 1) 8). lia.
Qed.

Lemma lookup_name_in name es ino : lookup_name name es = Some ino -> (name, ino) ∈ es.
Proof.
  unfold lookup_name. destruct (List.find _ es) as [[n i]|] eqn:E; [|done]. intros [= <-].
  apply List.find_some in E as [Hin Hd]. apply bool_decide_eq_true in Hd. cbn in Hd. subst n. by apply list_elem_of_In.
Qed.

Lemma demo_consistent : consistent demo_fs demo_v.
Proof.
  split; [apply demo_geometry|..].
  - intros dir Hk Hd. apply demo_known in Hk. unfold inode_check in Hk. rewrite Hd in Hk. apply andb_prop in Hk as [Hk _].
    destruct (dir_entries demo_fs demo_v dir) as [es|]; [|done]. exists es. split; [done|]. intros name ino Hn.
    rewrite forallb_forall in Hk. apply lookup_name_in, list_elem_of_In, Hk, bool_decide_eq_true in Hn. done.
  - intros inode Hk Hl _. apply demo_known in Hk. unfold inode_check in Hk. rewrite Hl in Hk.
    apply andb_prop in Hk as [_ Hk]. by apply bool_decide_eq_true in Hk.
Qed.

Definition demo_file : ext2_inode := default (root_inode demo_fs) (inode_at demo_fs demo_v 3).

(** Bytes 1 to 4 of the file, of the ten that were asked for. *)
Lemma ext2_read_inode_spec_witness : exists s s',
  ext2_read_inode demo_junk demo_fs demo_file (replicate 6 0) 1 10 s = Some ((4, [101; 108; 108; 111; 0; 0]), s').
Proof.
  destruct (demo_mount (fun _ => 0)) as (s & _ & Hs). exists s.
  destruct (ext2_read_inode_spec demo_junk demo_fs demo_v demo_file (replicate 6 0) 1 10 [101; 108; 108; 111] s)
    as (s' & E & _).
  - exact demo_junk_length.
  - apply (g_log _ _ demo_geometry).
  - exact Hs.
  - lia.
  - lia.
  - lia.
  - split; [vm_compute; discriminate|vm_compute; reflexivity].
  - vm_compute. discriminate.
  - vm_compute. reflexivity.
  - exists s'. exact E.
Defined.

Lemma ext2_lookup_spec_witness : exists s s', ext2_lookup demo_junk demo_fs [47; 108] s = Some ((0, 3), s').
Proof.
  destruct (demo_mount (fun _ => 0)) as (s & _ & Hs). exists s.
  destruct (ext2_lookup_spec demo_junk demo_fs demo_v [47; 108] s demo_junk_length demo_consistent Hs)
    as (res & r & s' & Hn & E & _ & Hr). exists s'.
  assert (Hd : namei demo_fs demo_v 4 (root_inode demo_fs) (comps [47; 108]) = Some (inr 3)) by (vm_compute; reflexivity).
  change (take 511 [47; 108]) with [47; 108] in Hn. rewrite Hd in Hn. injection Hn as <-. destruct Hr as [-> _]. exact E.
Defined.

Lemma ext2_mount_open_read_witness : exists s file s1 s2,
  ext2_mount demo_junk demo_lists (fun _ => 0) demo_bio = Some (inr (demo_fs, s)) /\
  ext2_open_file demo_junk demo_fs [47; 108] s = Some ((0, Some file), s1) /\
  ext2_read_file demo_junk demo_fs file (replicate 6 0) 1 10 s1 = Some ((4, [101; 108; 108; 111; 0; 0]), s2).
Proof.
  destruct (ext2_mount_open_read demo_junk demo_lists (fun _ => 0) demo_bio demo_fs [47; 108] 3 demo_file (replicate 6 0) 1 10
    [101; 108; 108; 111]) as (s & file & s1 & s2 & E0 & E1 & E2 & _).
  - exact demo_junk_length.
  - apply ref_empty_ok.
  - reflexivity.
  - exists 0%nat, 0. vm_compute. reflexivity.
  - vm_compute. reflexivity.
  - rewrite demo_img_eq. exact demo_describe.
  - exact demo_mountable.
  - rewrite demo_img_eq. exact demo_geometry.
  - vm_compute. reflexivity.
  - vm_compute. reflexivity.
  - vm_compute. reflexivity.
  - lia.
  - lia.
  - lia.
  - split; [vm_compute; discriminate|vm_compute; reflexivity].
  - vm_compute. discriminate.
  - vm_compute. reflexivity.
  - exists s, file, s1, s2. split; [exact E0|]. split; [exact E1|exact E2].
Defined.
End witnesses.
