(* ===== verification/Mmu.v ===== *)
(** * Translation tables of the arm64 port: arch/arm64/mmu.c, arch/arm64/dmamap.c

    The 4 KB granule configuration: a 39-bit input space translated by three
    levels of 512-entry tables, all of them pages of the array [tt_base].  The
    state holds that array as 64-bit words ([pt], indexed by address), the free
    page bitmap, the static variable of [allocate_tt_page], the system
    registers the code programs and a log of the cache and TLB maintenance
    instructions in program order.  An access outside the array is a panic.

    [translate] is the table walk the hardware does for stage 1 of the EL2
    regime: it is what the tables mean, not code of the repository. *)

From S2P Require Import Prelude.
Local Open Scope lk_scope.

(** ** Geometry and descriptor fields *)

Definition PAGE_SIZE : Z := 4096.
Definition PTE_SIZE : Z := 8.
Definition PTES_PER_PAGE : Z := PAGE_SIZE / PTE_SIZE.
Definition PAGE_INDEX_SIZE : Z := 9.
Definition LAST_LEVEL : Z := 3.
Definition FIRST_LEVEL : Z := 1.
Definition MAX_MAPPING_ALLOWED : Z := 2 ^ 30.
Definition NUM_PAGE_TABLE_PAGES : Z := 32.

(** [tt_level[]]: the shift of each level; its size is [1 << shift]. *)
Definition tt_shift (level : Z) : Z :=
  if level =? 0 then 39 else if level =? 1 then 30 else if level =? 2 then 21 else 12.
Definition tt_size (level : Z) : Z := Z.shiftl 1 (tt_shift level).

Definition PTE_VALID : Z := 1.
Definition PTE_SECTION : Z := 1.
Definition PTE_TABLE : Z := 2.
Definition PTE_PAGE : Z := 3.
Definition PTE_MEMATTR_INDEX_MASK : Z := Eval cbv in (Z.shiftl 7 2).
Definition PTE_PERM_READWRITE : Z := Eval cbv in (Z.shiftl 0 6).
Definition PTE_PERM_READONLY : Z := Eval cbv in (Z.shiftl 2 6).
Definition PTE_SH_OUTER : Z := Eval cbv in (Z.shiftl 2 8).
Definition PTE_ACCESS_FLAG : Z := Eval cbv in (Z.shiftl 1 10).
Definition PTE_PXN : Z := Eval cbv in (Z.shiftl 1 53).
Definition PTE_XN : Z := Eval cbv in (Z.shiftl 1 54).
Definition PTE_OUTPUT_ADDR_MASK : Z := Eval cbv in (Z.shiftl (Z.shiftr (Z.shiftl 1 40 - 1) 12) 12).
Definition PTE_NEXT_LEVEL_TABLE_ADDR_MASK : Z := Eval cbv in (Z.shiftl (Z.shiftr (Z.shiftl 1 40 - 1) 12) 12).
Definition PTE_ATTRIBS_MASK : Z := Eval cbv in (Z.lor (Z.shiftl 3 52) 0xFFC).

Definition MEM_TYPE_NORMAL_WB : Z := Eval cbv in (Z.shiftl 3 2).
Definition MEM_TYPE_NORMAL_WT : Z := Eval cbv in (Z.shiftl 2 2).
Definition MEM_TYPE_NORMAL_UC : Z := Eval cbv in (Z.shiftl 1 2).
Definition MEM_TYPE_DEVICE_SO : Z := Eval cbv in (Z.shiftl 0 2).

Definition MMU_FLAG_CACHED : Z := 0x1.
Definition MMU_FLAG_WRITETHROUGH : Z := 0x2.
Definition MMU_FLAG_DEVICE : Z := 0x4.
Definition MMU_FLAG_READWRITE : Z := 0x8.
Definition MMU_FLAG_EXECUTE_NOT : Z := 0x10.

(** [x & m] as a condition. *)
Definition has (x m : Z) : bool := negb (Z.land x m =? 0).

(** ** State *)

Inductive mmu_event : Type :=
| Dc_civac (a : Z)
| Clean_dcache (a n : Z)
| Clean_invalidate_dcache (a n : Z)
| Invalidate_dcache (a n : Z)
| Tlbi_va (page : Z)
| Tlbi_all
| Disable_cache
| Enter_critical
| Exit_critical.

Record mmu : Type := {
  tt_base : Z;
  pt : Z -> Z;
  free_page_table_bitmap : Z;
  result : Z;
  sctlr : Z;
  mair : Z;
  tcr : Z;
  ttbr0 : Z;
  events : list mmu_event;
}.

Definition set_pt (f : Z -> Z) (s : mmu) : mmu :=
  {| tt_base := tt_base s; pt := f; free_page_table_bitmap := free_page_table_bitmap s;
     result := result s; sctlr := sctlr s; mair := mair s; tcr := tcr s; ttbr0 := ttbr0 s;
     events := events s |}.
Definition set_bitmap (b : Z) (s : mmu) : mmu :=
  {| tt_base := tt_base s; pt := pt s; free_page_table_bitmap := b;
     result := result s; sctlr := sctlr s; mair := mair s; tcr := tcr s; ttbr0 := ttbr0 s;
     events := events s |}.
Definition set_result (r : Z) (s : mmu) : mmu :=
  {| tt_base := tt_base s; pt := pt s; free_page_table_bitmap := free_page_table_bitmap s;
     result := r; sctlr := sctlr s; mair := mair s; tcr := tcr s; ttbr0 := ttbr0 s;
     events := events s |}.
Definition set_sctlr (v : Z) (s : mmu) : mmu :=
  {| tt_base := tt_base s; pt := pt s; free_page_table_bitmap := free_page_table_bitmap s;
     result := result s; sctlr := v; mair := mair s; tcr := tcr s; ttbr0 := ttbr0 s;
     events := events s |}.
Definition set_regs (m t b : Z) (s : mmu) : mmu :=
  {| tt_base := tt_base s; pt := pt s; free_page_table_bitmap := free_page_table_bitmap s;
     result := result s; sctlr := sctlr s; mair := m; tcr := t; ttbr0 := b;
     events := events s |}.
Definition log (e : mmu_event) (s : mmu) : mmu :=
  {| tt_base := tt_base s; pt := pt s; free_page_table_bitmap := free_page_table_bitmap s;
     result := result s; sctlr := sctlr s; mair := mair s; tcr := tcr s; ttbr0 := ttbr0 s;
     events := events s ++ [e] |}.

Definition emit (e : mmu_event) : M mmu unit := modify (log e).

(** ** Words of the table array *)

Definition in_tables (s : mmu) (a : Z) : bool :=
  (tt_base s <=? a) && (a <? tt_base s + NUM_PAGE_TABLE_PAGES * PAGE_SIZE) && (a mod PTE_SIZE =? 0).

Definition upd (f : Z -> Z) (a v : Z) : Z -> Z := fun b => if b =? a then v else f b.
Definition clear (f : Z -> Z) (a n : Z) : Z -> Z :=
  fun b => if (a <=? b) && (b <? a + n) then 0 else f b.

(** [tt[index]] read and written, [t] being the address of [tt]. *)
Definition tt_get (t index : Z) : M mmu Z :=
  let a := t + PTE_SIZE * index in
  getopt (fun s => if in_tables s a then Some (pt s a) else None).
Definition tt_set (t index v : Z) : M mmu unit :=
  let a := t + PTE_SIZE * index in
  fun s => if in_tables s a then Some (tt, set_pt (upd (pt s) a v) s) else None.

(** ** Table pages *)

(** The scan of [allocate_tt_page] from bit [i]; a page found is cleared and
    recorded in the static variable. *)
Fixpoint allocate_scan (n : nat) (i : Z) : M mmu unit :=
  match n with
  | O => ret tt
  | S n' =>
      if (i <? 64) && (i <? NUM_PAGE_TABLE_PAGES) then
        let* b := gets free_page_table_bitmap in
        if has b (Z.shiftl 1 i) then
          let* base := gets tt_base in
          let page := base + PTE_SIZE * (i * PTES_PER_PAGE) in
          modify (set_result page);;;
          modify (fun s => set_pt (clear (pt s) page PAGE_SIZE) s);;;
          modify (set_bitmap (Z.land b (u64 (Z.lnot (Z.shiftl 1 i)))))
        else allocate_scan n' (i + 1)
      else ret tt
  end.

Definition allocate_tt_page : M mmu Z :=
  allocate_scan 64 0;;;
  gets result.

Definition free_tt_page (t : Z) : M mmu unit :=
  let* base := gets tt_base in
  let index := u32 (Z.shiftr (u64 (t - base)) 12) in
  if has t (PAGE_SIZE - 1) || (NUM_PAGE_TABLE_PAGES <=? index) then panic
  else
    let* b := gets free_page_table_bitmap in
    modify (set_bitmap (Z.lor b (Z.shiftl 1 index))).

(** The descriptors written by [fill_tt] and by the leaf branch of
    [arm64_mmu_map_level]. *)
Definition fill_pte (level paddr template_pte : Z) : Z :=
  Z.lor (Z.lor (Z.lor (Z.land paddr PTE_OUTPUT_ADDR_MASK) (Z.land template_pte PTE_ATTRIBS_MASK))
           PTE_ACCESS_FLAG)
    (if level <? 3 then PTE_SECTION else PTE_PAGE).

Fixpoint fill_loop (n : nat) (t level i paddr template_pte : Z) : M mmu unit :=
  match n with
  | O => ret tt
  | S n' =>
      if i <? PTES_PER_PAGE then
        tt_set t i (fill_pte level paddr template_pte);;;
        fill_loop n' t level (i + 1) (u64 (paddr + tt_size level)) template_pte
      else ret tt
  end.

Definition fill_tt (t level template_pte : Z) : M mmu unit :=
  fill_loop 512 t level 0 (Z.land template_pte PTE_OUTPUT_ADDR_MASK) template_pte;;;
  emit (Clean_dcache t PAGE_SIZE).

(** ** Mapping *)

(** The memory type and the other attributes [flags] ask for. *)
Definition new_mem_attrib (flags : Z) : Z :=
  if has flags MMU_FLAG_DEVICE then MEM_TYPE_DEVICE_SO
  else if has flags MMU_FLAG_CACHED then
    if has flags MMU_FLAG_WRITETHROUGH then MEM_TYPE_NORMAL_WT else MEM_TYPE_NORMAL_WB
  else MEM_TYPE_NORMAL_UC.

Definition attribs (flags : Z) : Z :=
  let a := new_mem_attrib flags in
  let a := if has flags MMU_FLAG_EXECUTE_NOT then Z.lor a (Z.lor PTE_XN PTE_PXN) else a in
  if has flags MMU_FLAG_READWRITE then Z.lor a PTE_PERM_READWRITE else Z.lor a PTE_PERM_READONLY.

Definition leaf_pte (level paddr flags : Z) : Z :=
  Z.lor (Z.lor (Z.lor (Z.lor (Z.land paddr PTE_OUTPUT_ADDR_MASK) (attribs flags)) PTE_ACCESS_FLAG)
           PTE_SH_OUTER)
    (if level <? 3 then PTE_SECTION else PTE_PAGE).

Definition table_pte (next_tt : Z) : Z :=
  Z.lor (Z.lor (Z.land next_tt PTE_NEXT_LEVEL_TABLE_ADDR_MASK) PTE_TABLE) PTE_VALID.

(** The next-level table of [tt[index]]: the existing one, one that splits a
    section, or an empty one. *)
Definition map_next_tt (t level index : Z) : M mmu Z :=
  let* e := tt_get t index in
  if has e PTE_VALID then
    if has e PTE_TABLE then ret (Z.land e PTE_NEXT_LEVEL_TABLE_ADDR_MASK)
    else
      let* next_tt := allocate_tt_page in
      assert_ (negb (next_tt =? 0));;;
      fill_tt next_tt (level + 1) e;;;
      tt_set t index (table_pte next_tt);;;
      emit (Dc_civac (t + PTE_SIZE * index));;;
      ret next_tt
  else
    let* next_tt := allocate_tt_page in
    assert_ (negb (next_tt =? 0));;;
    tt_set t index (table_pte next_tt);;;
    emit (Dc_civac (t + PTE_SIZE * index));;;
    ret next_tt.

(** The page or section branch: the entry is overwritten. *)
Definition map_leaf (t level index vaddr paddr flags : Z) : M mmu unit :=
  let* e := tt_get t index in
  let old_mem_attrib := if has e PTE_VALID then Z.land e PTE_MEMATTR_INDEX_MASK else 0 in
  (when has e PTE_VALID && ((level <? LAST_LEVEL) && has e PTE_TABLE) do
     free_tt_page (Z.land e PTE_NEXT_LEVEL_TABLE_ADDR_MASK));;;
  let needs_flush :=
    negb (old_mem_attrib =? MEM_TYPE_NORMAL_UC) && negb (old_mem_attrib =? MEM_TYPE_DEVICE_SO) &&
    negb (old_mem_attrib =? new_mem_attrib flags) in
  (when needs_flush do emit (Clean_invalidate_dcache vaddr (tt_size level)));;;
  tt_set t index (leaf_pte level paddr flags);;;
  emit (Dc_civac (t + PTE_SIZE * index));;;
  emit (Tlbi_va (Z.shiftr paddr 12)).

(** The loop over the entries of one table; [rec] is the call for the next
    level. *)
Fixpoint map_loop (rec : Z -> Z -> Z -> Z -> Z -> M mmu Z) (n : nat)
    (t level index vaddr paddr size flags total_size : Z) : M mmu Z :=
  match n with
  | O => panic
  | S n' =>
      if (index <? PTES_PER_PAGE) && (0 <? size) then
        if ((MAX_MAPPING_ALLOWED <? tt_size level) || has vaddr (tt_size level - 1) ||
            (size <? tt_size level)) && (level <? LAST_LEVEL) then
          let* next_tt := map_next_tt t level index in
          let map_size := if size <? tt_size level then size else tt_size level in
          let* map_size := rec next_tt (level + 1) vaddr paddr map_size in
          map_loop rec n' t level (index + 1) (u64 (vaddr + map_size)) (u64 (paddr + map_size))
            (if size <? map_size then 0 else size - map_size) flags (u64 (total_size + map_size))
        else
          map_leaf t level index vaddr paddr flags;;;
          map_loop rec n' t level (index + 1) (u64 (vaddr + tt_size level))
            (u64 (paddr + tt_size level))
            (if size <? tt_size level then 0 else size - tt_size level) flags
            (u64 (total_size + tt_size level))
      else ret total_size
  end.

(** [n] bounds the depth of the recursion: the last level never recurses, so
    [4 - level] is enough; [513] turns of the loop always are. *)
Fixpoint arm64_mmu_map_level (n : nat) (t level vaddr paddr size flags : Z) : M mmu Z :=
  match n with
  | O => panic
  | S n' =>
      let index := Z.land (Z.shiftr vaddr (tt_shift level)) (Z.shiftl 1 PAGE_INDEX_SIZE - 1) in
      map_loop (fun t' level' vaddr' paddr' size' =>
                  arm64_mmu_map_level n' t' level' vaddr' paddr' size' flags)
        513 t level index vaddr paddr size flags 0
  end.

Definition arm64_invalidate_tlb : M mmu unit := emit Tlbi_all.

Definition arm64_mmu_map (paddr vaddr size flags : Z) : M mmu unit :=
  emit Enter_critical;;;
  (let* base := gets tt_base in
   arm64_mmu_map_level 3 base FIRST_LEVEL vaddr paddr size flags);;;
  arm64_invalidate_tlb;;;
  emit Exit_critical.

Definition arch_map_uncached (vaddr size : Z) : M mmu unit :=
  arm64_mmu_map vaddr vaddr size MMU_FLAG_READWRITE.
Definition arch_map_cached (vaddr size : Z) : M mmu unit :=
  arm64_mmu_map vaddr vaddr size (Z.lor MMU_FLAG_CACHED MMU_FLAG_READWRITE).

(** ** Start and stop *)

Definition MAIR_FIELD (val idx : Z) : Z := Z.shiftl (Z.land val 0xFF) (idx * 8).
Definition MAIR_VALUE : Z :=
  Z.lor (Z.lor (Z.lor (MAIR_FIELD 0x00 0) (MAIR_FIELD 0x44 1)) (MAIR_FIELD 0x88 2)) (MAIR_FIELD 0xFF 3).

(** [TCR_T0SZ(VA_SIZE_BITS) | TCR_SH0_OUTER | TCR_EPD1 | TCR_IRGN0_WBWA |
    TCR_ORGN0_WBWA | TCR_TG0_4KB | TCR_PS_1TB]. *)
Definition TCR_VALUE : Z :=
  Z.lor (Z.lor (Z.lor (Z.lor (Z.lor (Z.lor (Z.land (64 - 39) 0x3F) (Z.shiftl 2 12)) (Z.shiftl 1 23))
    (Z.shiftl 1 8)) (Z.shiftl 1 10)) (Z.shiftl 0 14)) (Z.shiftl 2 16).

Definition SCTLR_M : Z := Eval cbv in (Z.shiftl 1 0).
Definition SCTLR_C : Z := Eval cbv in (Z.shiftl 1 2).
Definition SCTLR_I : Z := Eval cbv in (Z.shiftl 1 12).

(** What the boot chain leaves behind: the scratch register, the address map
    constants of the SoC headers and the carveout (base and size) recorded in
    the parameter block at an address. *)
Record boot_env : Type := {
  scratch7 : Z;
  emem_base : Z;
  page_size_log2 : Z;
  carveout_cpubl : Z -> Z * Z;
}.

Definition arm64_init_boot_param (b : boot_env) : Z :=
  if scratch7 b <? emem_base b then u64 (Z.shiftl (scratch7 b) (page_size_log2 b)) else scratch7 b.

Definition arm64_mmu_init (b : boot_env) : M mmu unit :=
  modify (set_sctlr 0x30D00800);;;
  modify (fun s => set_regs MAIR_VALUE (tcr s) (ttbr0 s) s);;;
  modify (fun s => set_regs (mair s) TCR_VALUE (ttbr0 s) s);;;
  modify (fun s => set_bitmap (Z.land (free_page_table_bitmap s) (u64 (Z.lnot 1))) s);;;
  modify (fun s => set_pt (clear (pt s) (tt_base s) PAGE_SIZE) s);;;
  modify (fun s => set_regs (mair s) (tcr s) (tt_base s) s);;;
  let carveout := carveout_cpubl b (arm64_init_boot_param b) in
  arm64_mmu_map (fst carveout) (fst carveout) (snd carveout)
    (Z.lor MMU_FLAG_CACHED MMU_FLAG_READWRITE);;;
  modify (fun s => set_sctlr (Z.lor (Z.lor (Z.lor (sctlr s) SCTLR_M) SCTLR_I) SCTLR_C) s).

Definition arch_disable_mmu : M mmu unit :=
  modify (fun s => set_sctlr (Z.land (sctlr s)
    (u64 (Z.lnot (Z.lor (Z.lor SCTLR_I SCTLR_C) SCTLR_M)))) s);;;
  emit Disable_cache.

(** ** The table walk of the hardware

    The attributes that take part in a translation: bits 2 to 11 and the
    contiguous, PXN and XN bits of a leaf descriptor. *)
Definition HW_ATTRIBS : Z := Eval cbv in (Z.lor (Z.shiftl 7 52) 0xFFC).

(** [walk d] starts in a table of level [3 - d].  A section's output address
    has the low bits of its level as zeros, whatever the descriptor holds. *)
Fixpoint walk (d : nat) (f : Z -> Z) (t va : Z) : option (Z * Z) :=
  let level := 3 - Z.of_nat d in
  let e := f (t + 8 * ((va / tt_size level) mod 512)) in
  let out := Z.land e PTE_OUTPUT_ADDR_MASK in
  if Z.land e 1 =? 0 then None
  else match d with
  | O => if Z.land e 2 =? 0 then None else Some (out + va mod 4096, Z.land e HW_ATTRIBS)
  | S d' =>
      if Z.land e 2 =? 0
      then Some (out - out mod tt_size level + va mod tt_size level, Z.land e HW_ATTRIBS)
      else walk d' f out va
  end.

Definition translate (s : mmu) (va : Z) : option (Z * Z) := walk 2 (pt s) (ttbr0 s) va.

(** ** DMA addresses: dmamap.c

    [par s va] is PAR_EL1 after [at s1e2r, va] in state [s], and [to_device],
    [from_device] are the flags of [tegrabl_dma_data_direction]; both come from
    outside the repository. *)
Section dma.
Context (par : mmu -> Z -> Z) (to_device from_device : Z).

Definition tegrabl_dma_va_to_pa (va : Z) : M mmu Z :=
  let* par_el1 := gets (fun s => par s va) in
  ret (if has par_el1 1 then 0 else Z.lor (Z.land par_el1 0xFFFFFFFFF000) (Z.land va 0xFFF)).

Definition tegrabl_dma_map_buffer (buffer size direction : Z) : M mmu Z :=
  (if has direction to_device then emit (Clean_invalidate_dcache buffer size)
   else emit (Invalidate_dcache buffer size));;;
  tegrabl_dma_va_to_pa buffer.

Definition tegrabl_dma_unmap_buffer (buffer size direction : Z) : M mmu unit :=
  when has direction from_device do emit (Invalidate_dcache buffer size).
End dma.

(** ** Uncached allocations: lib/libc/malloc.c

    [memalign] is the allocator's, outside the repository: it is given the
    boundary and the size and returns an address, 0 for none.  [asize] says
    whether the caller passed an out parameter, whose new value, if it is
    written, is the second component of the result. *)
Definition round_page (x : Z) : Z := Z.land (u64 (x + PAGE_SIZE - 1)) (u64 (Z.lnot (PAGE_SIZE - 1))).

Definition malloc_uncached (memalign : Z -> Z -> Z) (size : Z) (asize : bool) : M mmu (Z * option Z) :=
  if negb asize then ret (0, None) else
  let size := round_page size in
  let res := memalign PAGE_SIZE size in
  if res =? 0 then ret (res, None)
  else arch_map_uncached res size;;; ret (res, Some size).

Definition memalign_uncached (memalign : Z -> Z -> Z) (boundary size : Z) (asize : bool) : M mmu (Z * option Z) :=
  if negb asize then ret (0, None) else
  let boundary := if boundary =? 0 then PAGE_SIZE else round_page boundary in
  let size := round_page size in
  let res := memalign boundary size in
  if res =? 0 then ret (res, None)
  else arch_map_uncached res size;;; ret (res, Some size).

(** [free_uncached] up to the call of [free]. *)
Definition free_uncached (ptr asize : Z) : M mmu unit := arch_map_cached ptr asize.

(** ** The platform's map: platform/t186/platform.c

    The table of MMIO regions, the parameter block and the free DRAM regions
    are the SoC's and the boot chain's: lists of (base, size). *)
Definition map_identity (flags : Z) : list (Z * Z) -> M mmu unit :=
  fix go l := match l with
  | [] => ret tt
  | (addr, size) :: l' => arm64_mmu_map addr addr size flags;;; go l'
  end.

Definition platform_init_mmu_mappings (mmio : list (Z * Z)) (params : Z * Z)
    (free_dram_regions : list (Z * Z)) : M mmu unit :=
  map_identity (Z.lor (Z.lor MMU_FLAG_EXECUTE_NOT MMU_FLAG_READWRITE) MMU_FLAG_DEVICE) mmio;;;
  arm64_mmu_map (fst params) (fst params) (snd params) (Z.lor MMU_FLAG_CACHED MMU_FLAG_READWRITE);;;
  map_identity (Z.lor MMU_FLAG_CACHED MMU_FLAG_READWRITE) free_dram_regions.
