(* ===== verification/MmuSpec.v ===== *)
(** * Translation tables: layout lemmas and the invariant of the table tree

    Depth counts levels from the last one: a table of depth [d] is of level
    [3 - d] and each of its entries covers [sz d] bytes.  The invariant [wf] is
    stated with two ghost functions on table pages, their depth and the entry
    that owns them, so that no page is reachable along two paths. *)

From S2P Require Import Prelude Mmu.
Local Open Scope lk_scope.

(** [lia] with division and remainder by constants. *)
Ltac zdm := Z.to_euclidean_division_equations; lia.

(** ** Sizes *)

Definition sz (d : nat) : Z := 2 ^ (12 + 9 * Z.of_nat d).

Lemma sz_pos d : 0 < sz d.
Proof. apply Z.pow_pos_nonneg; lia. Qed.
Lemma sz_S d : sz (S d) = 512 * sz d.
Proof.
  unfold sz. rewrite Nat2Z.inj_succ.
  replace (12 + 9 * Z.succ (Z.of_nat d)) with (9 + (12 + 9 * Z.of_nat d)) by lia.
  rewrite Z.pow_add_r by lia. done.
Qed.
Lemma tt_size_sz d : (d <= 2)%nat -> tt_size (3 - Z.of_nat d) = sz d.
Proof. intros. destruct d as [|[|[|]]]; [done..|lia]. Qed.
Lemma tt_shift_sz d : (d <= 2)%nat -> 2 ^ tt_shift (3 - Z.of_nat d) = sz d.
Proof. intros. destruct d as [|[|[|]]]; [done..|lia]. Qed.
Lemma tt_shift_nonneg l : 0 <= tt_shift l.
Proof. unfold tt_shift. zcases; lia. Qed.

(** Index of [x] in a table of depth [d]. *)
Definition idx (d : nat) (x : Z) : Z := (x / sz d) mod 512.

Lemma idx_range d x : 0 <= idx d x < 512.
Proof. apply Z.mod_pos_bound. lia. Qed.

(** An address below the one its table covers is its entry and an offset. *)
Lemma idx_split d x : x mod sz (S d) = idx d x * sz d + x mod sz d.
Proof.
  unfold idx. rewrite sz_S, (Z.mul_comm 512). pose proof (sz_pos d).
  rewrite Z.rem_mul_r by lia. lia.
Qed.

Lemma div_sz_S d x : x / sz (S d) = x / sz d / 512.
Proof. rewrite sz_S, (Z.mul_comm 512). pose proof (sz_pos d). rewrite Z.div_div by lia. done. Qed.

Lemma idx_inj d x y : x / sz (S d) = y / sz (S d) -> idx d x = idx d y -> x / sz d = y / sz d.
Proof.
  rewrite !div_sz_S. unfold idx. intros H1 H2.
  rewrite (Z_div_mod_eq_full (x / sz d) 512), (Z_div_mod_eq_full (y / sz d) 512). congruence.
Qed.

Lemma mod_sz_le d e x : (d <= e)%nat -> x mod sz e = 0 -> x mod sz d = 0.
Proof.
  intros Hd. induction Hd as [|e Hd IH]; [done|]. intros H. apply IH.
  pose proof (sz_pos e). rewrite sz_S in H. apply Z.mod_divide in H as [k ->]; [|lia].
  rewrite Z.mul_assoc. apply Z.mod_mul. lia.
Qed.

(** ** Descriptors *)

Abbreviation oa e := (Z.land e PTE_OUTPUT_ADDR_MASK).

Lemma oa_arith x : oa x = x mod 2 ^ 40 - x mod 2 ^ 12.
Proof.
  change PTE_OUTPUT_ADDR_MASK with (Z.land (2 ^ 40 - 1) (Z.lnot (2 ^ 12 - 1) mod 2 ^ 40)).
  rewrite Z.land_assoc, land_mask, land_high_mask by (try apply Z.mod_pos_bound; lia).
  f_equal. apply Z.mod_mod_divide. exists (2 ^ 28). done.
Qed.

Lemma oa_range x : 0 <= oa x < 2 ^ 40.
Proof. rewrite oa_arith. change (2 ^ 40) with 1099511627776. change (2 ^ 12) with 4096. zdm. Qed.
Lemma oa_aligned x : oa x mod 4096 = 0.
Proof. rewrite oa_arith. change (2 ^ 40) with 1099511627776. change (2 ^ 12) with 4096. zdm. Qed.
Lemma oa_id x : 0 <= x < 2 ^ 40 -> x mod 4096 = 0 -> oa x = x.
Proof. rewrite oa_arith. change (2 ^ 40) with 1099511627776. change (2 ^ 12) with 4096. zdm. Qed.

(** Masking a descriptor field by field; masks are closed terms. *)
Ltac fold_masks :=
  repeat match goal with
  | |- context [Z.land ?a ?b] =>
      let a' := eval hnf in a in let b' := eval hnf in b in
      lazymatch a' with Zpos _ => idtac | Z0 => idtac end;
      lazymatch b' with Zpos _ => idtac | Z0 => idtac end;
      let v := eval vm_compute in (Z.land a b) in change (Z.land a b) with v
  end.
Ltac fields :=
  rewrite ?Z.land_lor_distr_l, <- ?Z.land_assoc; fold_masks;
  rewrite ?Z.land_0_r, ?Z.lor_0_r, ?Z.lor_0_l.

Lemma lor_land_absorb t m : Z.lor (Z.land t m) m = m.
Proof.
  apply Z.bits_inj'. intros j _. rewrite Z.lor_spec, Z.land_spec.
  by destruct (Z.testbit t j), (Z.testbit m j).
Qed.

Lemma table_pte_valid q : Z.land (table_pte q) 1 = 1.
Proof. unfold table_pte. fields. done. Qed.
Lemma table_pte_table q : Z.land (table_pte q) 2 = 2.
Proof. unfold table_pte. fields. done. Qed.
Lemma table_pte_oa q : oa (table_pte q) = oa q.
Proof. unfold table_pte. fields. done. Qed.

Lemma fill_pte_valid l a t : Z.land (fill_pte l a t) 1 = 1.
Proof. unfold fill_pte. destruct (l <? 3); fields; done. Qed.
Lemma fill_pte_table l a t : Z.land (fill_pte l a t) 2 = if l <? 3 then 0 else 2.
Proof. unfold fill_pte. destruct (l <? 3); fields; done. Qed.
Lemma fill_pte_oa l a t : oa (fill_pte l a t) = oa a.
Proof. unfold fill_pte. destruct (l <? 3); fields; done. Qed.
Lemma fill_pte_af l a t : Z.land (fill_pte l a t) PTE_ACCESS_FLAG = PTE_ACCESS_FLAG.
Proof.
  unfold fill_pte. destruct (l <? 3); fields; apply (lor_land_absorb t 1024).
Qed.

(** Splitting keeps the attributes of the section, but for XN, which is not in
    [PTE_ATTRIBS_MASK]. *)
Lemma fill_pte_hw l a t :
  Z.land t PTE_ACCESS_FLAG = PTE_ACCESS_FLAG ->
  Z.land (fill_pte l a t) HW_ATTRIBS = Z.land t PTE_ATTRIBS_MASK.
Proof.
  change PTE_ACCESS_FLAG with 1024. intros Ht. unfold fill_pte.
  destruct (l <? 3); fields; rewrite <- Ht, <- Z.land_lor_distr_r; done.
Qed.

(** What a mapping made with [flags] carries. *)
Definition map_attribs (flags : Z) : Z := Z.lor (Z.lor (attribs flags) PTE_ACCESS_FLAG) PTE_SH_OUTER.

Lemma attribs_mask flags m :
  In m [1; 2; PTE_OUTPUT_ADDR_MASK] -> Z.land (attribs flags) m = 0.
Proof.
  unfold attribs, new_mem_attrib. simpl.
  intros [<-|[<-|[<-|[]]]]; repeat case_if; reflexivity.
Qed.
Lemma attribs_hw flags : Z.land (attribs flags) HW_ATTRIBS = attribs flags.
Proof. unfold attribs, new_mem_attrib. repeat case_if; reflexivity. Qed.

Lemma leaf_pte_valid l a f : Z.land (leaf_pte l a f) 1 = 1.
Proof. unfold leaf_pte. destruct (l <? 3); fields; rewrite attribs_mask by (simpl; auto); done. Qed.
Lemma leaf_pte_table l a f : Z.land (leaf_pte l a f) 2 = if l <? 3 then 0 else 2.
Proof. unfold leaf_pte. destruct (l <? 3); fields; rewrite attribs_mask by (simpl; auto); done. Qed.
Lemma leaf_pte_oa l a f : oa (leaf_pte l a f) = oa a.
Proof.
  unfold leaf_pte. destruct (l <? 3); fields; rewrite attribs_mask by (simpl; auto);
    rewrite ?Z.lor_0_r; done.
Qed.
Lemma leaf_pte_hw l a f : Z.land (leaf_pte l a f) HW_ATTRIBS = map_attribs f.
Proof. unfold leaf_pte, map_attribs. destruct (l <? 3); fields; rewrite attribs_hw; done. Qed.
Lemma leaf_pte_af l a f : Z.land (leaf_pte l a f) PTE_ACCESS_FLAG = PTE_ACCESS_FLAG.
Proof.
  unfold leaf_pte, attribs, new_mem_attrib.
  destruct (l <? 3); fields; repeat case_if; reflexivity.
Qed.

Lemma has_false x m : has x m = false <-> Z.land x m = 0.
Proof. unfold has. rewrite negb_false_iff, Z.eqb_eq. done. Qed.
Lemma has_true x m : has x m = true <-> Z.land x m <> 0.
Proof. unfold has. rewrite negb_true_iff, Z.eqb_neq. done. Qed.
Lemma has_bit x i : 0 <= i -> has x (Z.shiftl 1 i) = Z.testbit x i.
Proof.
  intros Hi. rewrite Z.shiftl_1_l. destruct (Z.testbit x i) eqn:E.
  - apply has_true. intros H. assert (Z.testbit (Z.land x (2 ^ i)) i = true).
    { rewrite Z.land_spec, E, Z.pow2_bits_true; done. }
    rewrite H, Z.bits_0 in *. done.
  - apply has_false. apply Z.bits_inj'. intros j Hj.
    rewrite Z.land_spec, Z.pow2_bits_eqb, Z.bits_0 by done.
    destruct (Z.eqb_spec i j) as [->|]; [by rewrite E|apply andb_false_r].
Qed.

(** ** Table pages *)

Definition page_of (s : mmu) (i : Z) : Z := tt_base s + 4096 * i.

(** [live s p]: [p] is a page of the array and is not marked free. *)
Definition live (s : mmu) (p : Z) : Prop :=
  exists i, 0 <= i < 32 /\ p = page_of s i /\ Z.testbit (free_page_table_bitmap s) i = false.

Definition based (s : mmu) : Prop :=
  0 < tt_base s /\ tt_base s mod 4096 = 0 /\ tt_base s + 32 * 4096 <= 2 ^ 40 /\ ttbr0 s = tt_base s.

Lemma live_addr s p : based s -> live s p -> 0 < p < 2 ^ 40 /\ p mod 4096 = 0.
Proof. intros (? & Hm & ? & _) (i & ? & -> & _). unfold page_of. split; [lia|]. zdm. Qed.

Lemma live_oa s p : based s -> live s p -> oa p = p.
Proof. intros Hb Hl. destruct (live_addr _ _ Hb Hl). apply oa_id; [lia|done]. Qed.

(** Entries of two pages never coincide. *)
Lemma entry_apart s i j p q :
  (exists k, 0 <= k < 32 /\ p = page_of s k) -> (exists k, 0 <= k < 32 /\ q = page_of s k) ->
  0 <= i < 512 -> 0 <= j < 512 -> p + 8 * i = q + 8 * j -> p = q /\ i = j.
Proof. unfold page_of. intros (k & ? & ->) (k' & ? & ->) ? ? ?. lia. Qed.

Lemma live_page s p : live s p -> exists k, 0 <= k < 32 /\ p = page_of s k.
Proof. intros (k & ? & ? & _). eauto. Qed.

Lemma in_tables_page s p i :
  based s -> (exists k, 0 <= k < 32 /\ p = page_of s k) -> 0 <= i < 512 -> in_tables s (p + 8 * i) = true.
Proof.
  intros (? & Hm & ? & _) (k & ? & ->) ?. unfold in_tables, page_of, PTE_SIZE, NUM_PAGE_TABLE_PAGES, PAGE_SIZE.
  rewrite !andb_true_iff, Z.leb_le, Z.ltb_lt, Z.eqb_eq. repeat split; try lia. zdm.
Qed.

Lemma tt_get_run s p i :
  based s -> (exists k, 0 <= k < 32 /\ p = page_of s k) -> 0 <= i < 512 ->
  tt_get p i s = Some (pt s (p + 8 * i), s).
Proof. intros. unfold tt_get, getopt, PTE_SIZE. by rewrite in_tables_page. Qed.
Lemma tt_set_run s p i v :
  based s -> (exists k, 0 <= k < 32 /\ p = page_of s k) -> 0 <= i < 512 ->
  tt_set p i v s = Some (tt, set_pt (upd (pt s) (p + 8 * i) v) s).
Proof. intros. unfold tt_set, PTE_SIZE. by rewrite in_tables_page. Qed.

(** ** Counting free pages *)

Fixpoint count_bits (n : nat) (b : Z) : Z :=
  match n with
  | O => 0
  | S n' => (if Z.testbit b (Z.of_nat n') then 1 else 0) + count_bits n' b
  end.
Definition nfree (s : mmu) : Z := count_bits 32 (free_page_table_bitmap s).

Lemma count_bits_mono n b b' :
  (forall i, 0 <= i < Z.of_nat n -> Z.testbit b i = true -> Z.testbit b' i = true) ->
  count_bits n b <= count_bits n b'.
Proof.
  induction n as [|n IH]; intros H; simpl; [lia|].
  assert (count_bits n b <= count_bits n b') by (apply IH; intros; apply H; lia || done).
  destruct (Z.testbit b (Z.of_nat n)) eqn:E; [rewrite H by (lia || done)|]; repeat case_if; lia.
Qed.

Lemma count_bits_clear n b b' i :
  (forall j, 0 <= j < Z.of_nat n -> j <> i -> Z.testbit b j = true -> Z.testbit b' j = true) ->
  count_bits n b - 1 <= count_bits n b'.
Proof.
  induction n as [|n IH]; intros H; simpl; [lia|].
  destruct (Z.eq_dec (Z.of_nat n) i) as [<-|Hne].
  - assert (count_bits n b <= count_bits n b').
    { apply count_bits_mono. intros j ?. apply H; lia. }
    repeat case_if; lia.
  - assert (count_bits n b - 1 <= count_bits n b') by (apply IH; intros; apply H; lia || done).
    destruct (Z.testbit b (Z.of_nat n)) eqn:E; [rewrite H by (lia || done)|]; repeat case_if; lia.
Qed.

Lemma count_bits_pos n b : 0 < count_bits n b -> exists i, 0 <= i < Z.of_nat n /\ Z.testbit b i = true.
Proof.
  induction n as [|n IH]; simpl; [lia|]. destruct (Z.testbit b (Z.of_nat n)) eqn:E; intros H.
  - exists (Z.of_nat n). split; [lia|done].
  - destruct IH as (i & ? & ?); [lia|]. exists i. split; [lia|done].
Qed.

Lemma testbit_clear b i j :
  0 <= i < 64 -> 0 <= j < 64 ->
  Z.testbit (Z.land b (u64 (Z.lnot (Z.shiftl 1 i)))) j = Z.testbit b j && negb (j =? i).
Proof.
  intros. unfold u64.
  rewrite Z.land_spec, Z.mod_pow2_bits_low, Z.lnot_spec, Z.shiftl_1_l, Z.pow2_bits_eqb by lia.
  by rewrite (Z.eqb_sym i j).
Qed.
Lemma testbit_set b i j :
  0 <= i -> 0 <= j -> Z.testbit (Z.lor b (Z.shiftl 1 i)) j = Z.testbit b j || (j =? i).
Proof.
  intros. rewrite Z.lor_spec, Z.shiftl_1_l, Z.pow2_bits_eqb by lia. by rewrite (Z.eqb_sym i j).
Qed.

(** ** Allocation *)

(** The state after page [i] is taken. *)
Definition taken (s : mmu) (i : Z) : mmu :=
  set_bitmap (Z.land (free_page_table_bitmap s) (u64 (Z.lnot (Z.shiftl 1 i))))
    (set_pt (clear (pt s) (page_of s i) 4096) (set_result (page_of s i) s)).

Lemma allocate_scan_run n i s k :
  0 <= i <= k -> k < 32 -> 64 <= Z.of_nat n + i -> Z.testbit (free_page_table_bitmap s) k = true ->
  exists j, i <= j <= k /\ Z.testbit (free_page_table_bitmap s) j = true /\
    allocate_scan n i s = Some (tt, taken s j).
Proof.
  revert i. induction n as [|n IH]; intros i Hi Hk Hn Hb; [lia|]. cbn [allocate_scan].
  replace ((i <? 64) && (i <? NUM_PAGE_TABLE_PAGES)) with true
    by (symmetry; rewrite andb_true_iff, !Z.ltb_lt; unfold NUM_PAGE_TABLE_PAGES; lia).
  unfold bind at 1, gets at 1. rewrite has_bit by lia.
  destruct (Z.testbit (free_page_table_bitmap s) i) eqn:E.
  - exists i. split_and!; [lia..|done|]. unfold taken, page_of, bind, gets, modify.
    change PAGE_SIZE with 4096. change PTE_SIZE with 8. change PTES_PER_PAGE with 512.
    cbn [tt_base set_result set_pt pt free_page_table_bitmap].
    replace (tt_base s + 8 * (i * 512)) with (tt_base s + 4096 * i) by lia. done.
  - assert (i <> k) by congruence. destruct (IH (i + 1)) as (j & ? & ? & ?); [lia..|done|].
    exists j. split_and!; [lia..|done|done].
Qed.

Lemma allocate_tt_page_run s :
  0 < nfree s -> exists i, 0 <= i < 32 /\ Z.testbit (free_page_table_bitmap s) i = true /\
    allocate_tt_page s = Some (page_of s i, taken s i).
Proof.
  intros (k & Hk & Hb)%count_bits_pos.
  destruct (allocate_scan_run 64 0 s k) as (i & ? & ? & H); [lia..|done|].
  exists i. split_and!; [lia..|done|]. unfold allocate_tt_page, bind. rewrite H. done.
Qed.

(** With no page free, the page handed out is the one handed out last. *)
Lemma allocate_scan_full n i s :
  0 <= i -> (forall k, 0 <= k < 32 -> Z.testbit (free_page_table_bitmap s) k = false) ->
  allocate_scan n i s = Some (tt, s).
Proof.
  intros Hi Hf. revert i Hi. induction n as [|n IH]; intros i Hi; [done|]. cbn [allocate_scan].
  destruct ((i <? 64) && (i <? NUM_PAGE_TABLE_PAGES)) eqn:E; [|done]. bools.
  unfold NUM_PAGE_TABLE_PAGES in *. unfold bind, gets. rewrite has_bit, Hf by lia. apply IH. lia.
Qed.

Lemma free_tt_page_run s i :
  based s -> 0 <= i < 32 ->
  free_tt_page (page_of s i) s =
    Some (tt, set_bitmap (Z.lor (free_page_table_bitmap s) (Z.shiftl 1 i)) s).
Proof.
  intros (? & Hm & ? & _) Hi. unfold free_tt_page, bind, gets. unfold page_of.
  replace (tt_base s + 4096 * i - tt_base s) with (i * 2 ^ 12) by lia.
  rewrite (u64_small (i * 2 ^ 12)), Z.shiftr_div_pow2, Z.div_mul, u32_small by lia.
  replace (has _ _) with false; [|symmetry; apply has_false; change (PAGE_SIZE - 1) with (2 ^ 12 - 1);
    rewrite land_mask by lia; change (2 ^ 12) with 4096; zdm].
  replace (NUM_PAGE_TABLE_PAGES <=? i) with false by (symmetry; apply Z.leb_gt; unfold NUM_PAGE_TABLE_PAGES; lia).
  done.
Qed.

(** ** Filling a table from a section *)

Lemma tt_size_pos l : 0 < tt_size l.
Proof. unfold tt_size. rewrite Z.shiftl_1_l. apply Z.pow_pos_nonneg; [lia|apply tt_shift_nonneg]. Qed.

Lemma fill_loop_run n s t l i a e :
  based s -> (exists k, 0 <= k < 32 /\ t = page_of s k) -> 0 <= i -> Z.of_nat n = 512 - i ->
  0 <= a -> a + (512 - i) * tt_size l < 2 ^ 64 ->
  exists f, fill_loop n t l i a e s = Some (tt, set_pt f s) /\
    (forall j, i <= j < 512 -> f (t + 8 * j) = fill_pte l (a + (j - i) * tt_size l) e) /\
    (forall b, (forall j, i <= j < 512 -> b <> t + 8 * j) -> f b = pt s b).
Proof.
  pose proof (tt_size_pos l) as HS. revert s i a.
  induction n as [|n IH]; intros s i a Hb Ht Hi Hn Ha Hmax; cbn [fill_loop].
  { exists (pt s). split_and!; [by destruct s| intros; lia | done]. }
  replace (i <? PTES_PER_PAGE) with true by (symmetry; apply Z.ltb_lt; change PTES_PER_PAGE with 512; lia).
  unfold bind. rewrite tt_set_run by (done || lia). rewrite u64_small by nia.
  set (s1 := set_pt _ s).
  destruct (IH s1 (i + 1) (a + tt_size l)) as (f & Hr & Hin & Hout); [done|done|lia|lia|nia|nia|].
  exists f. split_and!.
  - rewrite Hr. done.
  - intros j Hj. destruct (Z.eq_dec j i) as [->|Hne].
    + rewrite Hout by (intros; lia). unfold s1, upd. cbn [pt set_pt]. rewrite Z.eqb_refl.
      f_equal. lia.
    + rewrite Hin by lia. f_equal. lia.
  - intros b Hne. rewrite Hout by (intros; apply Hne; lia). unfold s1, upd. cbn [pt set_pt].
    destruct (Z.eqb_spec b (t + 8 * i)); [|done]. exfalso. apply (Hne i); lia || done.
Qed.

Lemma fill_tt_run s t d e :
  based s -> (exists k, 0 <= k < 32 /\ t = page_of s k) -> (d <= 1)%nat ->
  exists f, fill_tt t (3 - Z.of_nat d) e s = Some (tt, log (Clean_dcache t PAGE_SIZE) (set_pt f s)) /\
    (forall j, 0 <= j < 512 -> f (t + 8 * j) = fill_pte (3 - Z.of_nat d) (oa e + j * sz d) e) /\
    (forall b, (forall j, 0 <= j < 512 -> b <> t + 8 * j) -> f b = pt s b).
Proof.
  intros Hb Ht Hd. pose proof (oa_range e) as Ho.
  destruct (fill_loop_run 512 s t (3 - Z.of_nat d) 0 (oa e) e) as (f & Hr & Hin & Hout);
    [done|done|lia|lia|lia|rewrite tt_size_sz by lia; destruct d as [|[|]]; cbv [sz]; simpl; lia|].
  exists f. unfold fill_tt, bind. rewrite Hr. split_and!; [done| |done].
  intros j Hj. rewrite Hin, tt_size_sz by lia. do 2 f_equal. lia.
Qed.

(** ** The invariant *)

Record ghost : Type := {
  dep : Z -> nat;
  own : Z -> Z * Z;
}.

(** A leaf of a table of depth [d]: a page, or a section that is aligned and
    whose access flag is set. *)
Definition leaf_ok (d : nat) (e : Z) : Prop :=
  match d with
  | O => Z.land e 2 <> 0
  | _ => Z.land e 2 = 0 /\ oa e mod sz d = 0 /\ Z.land e PTE_ACCESS_FLAG = PTE_ACCESS_FLAG
  end.

Definition child_ok (s : mmu) (g : ghost) (p i e : Z) : Prop :=
  exists q, e = table_pte q /\ live s q /\ dep g p = S (dep g q) /\ own g q = (p, i).

Definition entry_ok (s : mmu) (g : ghost) (p i : Z) : Prop :=
  let e := pt s (p + 8 * i) in
  Z.land e 1 = 0 \/ leaf_ok (dep g p) e \/ child_ok s g p i e.

Record wf (s : mmu) (g : ghost) : Prop := {
  wf_based : based s;
  wf_root : live s (tt_base s);
  wf_root_dep : dep g (tt_base s) = 2%nat;
  wf_dep : forall p, live s p -> (dep g p <= 2)%nat;
  wf_entry : forall p i, live s p -> 0 <= i < 512 -> entry_ok s g p i;
}.

(** The cases of an entry, as the tests of the code see them. *)
Lemma entry_cases s g p i :
  wf s g -> live s p -> 0 <= i < 512 ->
  let e := pt s (p + 8 * i) in
  Z.land e 1 = 0 \/
  (Z.land e 1 <> 0 /\ leaf_ok (dep g p) e) \/
  (Z.land e 1 <> 0 /\ Z.land e 2 <> 0 /\ exists q, oa e = q /\ e = table_pte q /\ live s q /\
     dep g p = S (dep g q) /\ own g q = (p, i)).
Proof.
  intros Hw Hl Hi e. destruct (Z.eq_dec (Z.land e 1) 0) as [H0|H0]; [by left|right].
  destruct (wf_entry _ _ Hw p i Hl Hi) as [?|[?|(q & He & Hq & Hd & Ho)]]; [done|by left|right].
  assert (He' : e = table_pte q) by done. split; [done|]. split.
  { rewrite He', table_pte_table. done. }
  exists q. split_and!; [|done..]. rewrite He', table_pte_oa.
  by apply (live_oa s); [apply (wf_based _ _ Hw)|].
Qed.

(** One step of the walk. *)
Lemma walk_unfold d f p x :
  (d <= 2)%nat ->
  walk d f p x =
    let e := f (p + 8 * idx d x) in
    if Z.land e 1 =? 0 then None
    else match d with
    | O => if Z.land e 2 =? 0 then None else Some (oa e + x mod sz 0, Z.land e HW_ATTRIBS)
    | S d' => if Z.land e 2 =? 0 then Some (oa e - oa e mod sz d + x mod sz d, Z.land e HW_ATTRIBS)
              else walk d' f (oa e) x
    end.
Proof.
  intros Hd. unfold idx. rewrite <- tt_size_sz by done.
  destruct d; cbn [walk]; [|done]. rewrite tt_size_sz by lia. done.
Qed.

Lemma walk_leaf d f p x :
  (d <= 2)%nat ->
  Z.land (f (p + 8 * idx d x)) 1 <> 0 -> leaf_ok d (f (p + 8 * idx d x)) ->
  walk d f p x = Some (oa (f (p + 8 * idx d x)) + x mod sz d, Z.land (f (p + 8 * idx d x)) HW_ATTRIBS).
Proof.
  intros Hd H1 H2. rewrite walk_unfold by done. cbv zeta.
  rewrite (proj2 (Z.eqb_neq _ _) H1). destruct d as [|d]; unfold leaf_ok in H2.
  - rewrite (proj2 (Z.eqb_neq _ _) H2). done.
  - destruct H2 as (H2 & H3 & _). rewrite H2, H3, Z.eqb_refl, Z.sub_0_r. done.
Qed.

Lemma walk_invalid d f p x :
  (d <= 2)%nat -> Z.land (f (p + 8 * idx d x)) 1 = 0 -> walk d f p x = None.
Proof. intros Hd H. rewrite walk_unfold by done. cbv zeta. by rewrite H, Z.eqb_refl. Qed.

Lemma walk_table d f p x q :
  (S d <= 2)%nat -> f (p + 8 * idx (S d) x) = table_pte q -> oa q = q -> walk (S d) f p x = walk d f q x.
Proof.
  intros Hd H Hq. rewrite walk_unfold by done. cbv zeta.
  rewrite H, table_pte_valid, table_pte_table, table_pte_oa, Hq. done.
Qed.

(** A walk only reads the table it starts in and the tables below it. *)
Lemma walk_frame s g f (P : Z -> Prop) :
  wf s g ->
  (forall p q i, P p -> live s p -> live s q -> dep g p = S (dep g q) -> own g q = (p, i) -> P q) ->
  (forall p i, P p -> live s p -> 0 <= i < 512 -> f (p + 8 * i) = pt s (p + 8 * i)) ->
  forall d p x, P p -> live s p -> dep g p = d -> walk d f p x = walk d (pt s) p x.
Proof.
  intros Hw Hcl Hf. induction d as [|d IH]; intros p x Hp Hl Hd;
    pose proof (wf_dep _ _ Hw _ Hl) as Hd2; rewrite !walk_unfold by lia; cbv zeta;
    rewrite Hf by (done || apply idx_range); [done|].
  destruct (entry_cases _ _ p (idx (S d) x) Hw Hl (idx_range _ _))
    as [->|[(H1 & H2)|(H1 & H2 & q & -> & He & Hq & Hdq & Ho)]].
  - done.
  - rewrite Hd in H2. destruct H2 as (-> & _). rewrite Z.eqb_refl. done.
  - rewrite (proj2 (Z.eqb_neq _ _) H1), (proj2 (Z.eqb_neq _ _) H2).
    apply IH; [by eapply Hcl|done|lia].
Qed.
