(* ===== verification/MmuMap.v ===== *)
(** * Translation tables: every step of [arm64_mmu_map_level]

    [mapped] relates the states before and after a range of a table has been
    mapped: the invariant holds again, the range translates as asked, the rest
    of the table translates as before (an execute-never section that had to be
    split may have lost that bit) and tables elsewhere are untouched. *)

From S2P Require Import Prelude Mmu MmuSpec.
Local Open Scope lk_scope.

(** A translation without its XN bit. *)
Definition drop_xn (o : option (Z * Z)) : option (Z * Z) :=
  (fun r => (fst r, Z.land (snd r) PTE_ATTRIBS_MASK)) <$> o.
Definition kept (o o' : option (Z * Z)) : Prop := o' = o \/ o' = drop_xn o.

Lemma kept_refl o : kept o o.
Proof. by left. Qed.
Lemma kept_trans o1 o2 o3 : kept o1 o2 -> kept o2 o3 -> kept o1 o3.
Proof.
  unfold kept. intros [->| ->] [->| ->]; [by left|by right|by right|right].
  destruct o1 as [[a t]|]; [|done]. cbn. rewrite <- Z.land_assoc. done.
Qed.
#[export] Hint Resolve kept_refl : lk.

(** The pages a call on table [p] of depth [d] may change. *)
Definition under (g : ghost) (d : nat) (p q : Z) : Prop :=
  q = p \/ d = 2%nat \/ (d = 1%nat /\ dep g q = O /\ fst (own g q) = p).

Definition same_page (s s' : mmu) (g g' : ghost) (q : Z) : Prop :=
  live s' q /\ dep g' q = dep g q /\ own g' q = own g q /\
  forall i, 0 <= i < 512 -> pt s' (q + 8 * i) = pt s (q + 8 * i).

Lemma same_page_trans s1 s2 s3 g1 g2 g3 q :
  same_page s1 s2 g1 g2 q -> same_page s2 s3 g2 g3 q -> same_page s1 s3 g1 g3 q.
Proof.
  intros (? & H1 & H2 & H3) (? & H4 & H5 & H6). split_and!; [done|congruence..|].
  intros i Hi. rewrite H6, H3 by done. done.
Qed.

(** [C]: the block of [sz (S d)] bytes the table covers; [dl]: output address
    minus input address; [k]: the pages taken at most. *)
Record mapped (d : nat) (C p a b dl at_ k : Z) (s : mmu) (g : ghost) (s' : mmu) (g' : ghost) : Prop := {
  m_wf : wf s' g';
  m_base : tt_base s' = tt_base s;
  m_live : live s' p;
  m_dep : dep g' p = dep g p;
  m_own : own g' p = own g p;
  m_in : forall x, a <= x < b -> walk d (pt s') p x = Some (x + dl, at_);
  m_out : forall x, x / sz (S d) = C -> ~ a <= x < b -> kept (walk d (pt s) p x) (walk d (pt s') p x);
  m_exact : forall x, x / sz (S d) = C -> x / sz d < a / sz d \/ (b - 1) / sz d < x / sz d ->
    walk d (pt s') p x = walk d (pt s) p x;
  m_frame : forall q, live s q -> ~ under g d p q -> same_page s s' g g' q;
  m_free : nfree s - k <= nfree s';
}.

Lemma mapped_refl d C p a dl at_ k s g :
  wf s g -> live s p -> 0 <= k -> mapped d C p a a dl at_ k s g s g.
Proof.
  intros. split; try done; try (intros; lia); auto with lk.
  all: intros; split_and!; done.
Qed.

Lemma under_same g g' d p q :
  dep g' q = dep g q -> own g' q = own g q -> under g' d p q -> under g d p q.
Proof. unfold under. intros -> ->. done. Qed.

Lemma div_lt_aligned x b S : 0 < S -> b mod S = 0 -> x < b -> x / S < b / S.
Proof.
  intros HS Hb Hx. apply Z.div_lt_upper_bound; [done|].
  rewrite (Z_div_mod_eq_full b S), Hb in Hx. lia.
Qed.

Lemma mapped_trans d C p a b c dl at_ k1 k2 s g s1 g1 s2 g2 :
  a <= b <= c -> b mod sz d = 0 -> a / sz (S d) = C -> (b - 1) / sz (S d) = C ->
  mapped d C p a b dl at_ k1 s g s1 g1 -> mapped d C p b c dl at_ k2 s1 g1 s2 g2 ->
  mapped d C p a c dl at_ (k1 + k2) s g s2 g2.
Proof.
  intros Habc Hb Ha Hb1 H1 H2. pose proof (sz_pos d) as HS. pose proof (sz_pos (S d)) as HS'.
  destruct H1 as [? Hba ? Hd1 Ho1 Hin1 Hout1 Hex1 Hf1 Hk1].
  destruct H2 as [? Hbb ? Hd2 Ho2 Hin2 Hout2 Hex2 Hf2 Hk2].
  split; try congruence; try done.
  - intros x Hx. destruct (Z_lt_dec x b); [|apply Hin2; lia].
    rewrite <- Hin1 by lia. apply Hex2; [|left; apply div_lt_aligned; lia].
    assert (a / sz (S d) <= x / sz (S d)) by (apply Z.div_le_mono; lia).
    assert (x / sz (S d) <= (b - 1) / sz (S d)) by (apply Z.div_le_mono; lia). lia.
  - intros x Hx Hn. eapply kept_trans; [apply Hout1; [done|lia]|]. apply Hout2; [done|lia].
  - intros x Hx Hor. rewrite Hex2, Hex1; [done|done|destruct Hor|done|destruct Hor].
    + by left.
    + right. assert ((b - 1) / sz d <= (c - 1) / sz d) by (apply Z.div_le_mono; lia). lia.
    + left. assert (a / sz d <= b / sz d) by (apply Z.div_le_mono; lia). lia.
    + by right.
  - intros q Hq Hu. destruct (Hf1 q Hq Hu) as (Hl1 & Hdq & Hoq & He).
    eapply same_page_trans; [by split_and!|]. apply Hf2; [done|].
    intros Hu'. apply Hu. by eapply under_same.
  - lia.
Qed.

(** ** Changing one entry *)

(** Addresses that share an entry of an aligned address. *)
Lemma aligned_block d a x : a mod sz d = 0 -> x / sz d = a / sz d <-> a <= x < a + sz d.
Proof.
  intros Ha. pose proof (sz_pos d) as HS.
  pose proof (Z_div_mod_eq_full a (sz d)) as Ea. rewrite Ha in Ea. split; intros Hx.
  - pose proof (Z_div_mod_eq_full x (sz d)) as Ex. pose proof (Z.mod_pos_bound x (sz d) HS).
    rewrite Hx in Ex. lia.
  - symmetry. apply Z.div_unique with (x - a); lia.
Qed.

(** When the tables below are as they were, so are the walks through the
    entries of [p] that are. *)
Lemma walk_entry_frame s g f d p x :
  wf s g -> live s p -> dep g p = d ->
  f (p + 8 * idx d x) = pt s (p + 8 * idx d x) ->
  (forall q, live s q -> own g q = (p, idx d x) -> d = S (dep g q) ->
     walk (dep g q) f q x = walk (dep g q) (pt s) q x) ->
  walk d f p x = walk d (pt s) p x.
Proof.
  intros Hw Hl Hd Hf Hq. pose proof (wf_dep _ _ Hw _ Hl). rewrite !walk_unfold by lia. cbv zeta.
  rewrite Hf. destruct d as [|d]; [done|].
  destruct (entry_cases _ _ p (idx (S d) x) Hw Hl (idx_range _ _))
    as [->|[(H1 & H2)|(H1 & H2 & q & -> & He & Hlq & Hdq & Ho)]]; [done|..].
  - rewrite Hd in H2. destruct H2 as (-> & _). rewrite Z.eqb_refl. done.
  - rewrite (proj2 (Z.eqb_neq _ _) H1), (proj2 (Z.eqb_neq _ _) H2).
    rewrite Hd in Hdq. injection Hdq as ->. by apply Hq.
Qed.

(** ** The leaf branch

    Overwriting the entry of [a] in [p] by a leaf [e]; the table the entry
    pointed to, if any, may be freed. *)
Section leaf.
Context (d : nat) (C p a dl : Z) (s s' : mmu) (g : ghost) (e : Z).
Hypothesis Hw : wf s g.
Hypothesis Hl : live s p.
Hypothesis Hd : dep g p = d.
Hypothesis Hbase : tt_base s' = tt_base s.
Hypothesis Httbr : ttbr0 s' = ttbr0 s.
Hypothesis Hpt : pt s' = upd (pt s) (p + 8 * idx d a) e.
Hypothesis Hsub : forall q, live s' q -> live s q.
Hypothesis Hlive : forall q, live s q -> live s' q \/ (own g q = (p, idx d a) /\ d = S (dep g q)).
Hypothesis Ha : a mod sz d = 0.
Hypothesis HC : a / sz (S d) = C.
Hypothesis He1 : Z.land e 1 <> 0.
Hypothesis Hleaf : leaf_ok d e.
Hypothesis Hoa : oa e = a + dl.

Lemma leaf_other q j :
  live s q -> 0 <= j < 512 -> (q, j) <> (p, idx d a) -> pt s' (q + 8 * j) = pt s (q + 8 * j).
Proof.
  intros Hq Hj Hne. rewrite Hpt. unfold upd.
  destruct (Z.eqb_spec (q + 8 * j) (p + 8 * idx d a)) as [E|]; [|done].
  destruct (entry_apart s j (idx d a) q p) as [-> ->];
    [by apply live_page|by apply live_page|done|apply idx_range|done|done].
Qed.

Lemma leaf_self : pt s' (p + 8 * idx d a) = e.
Proof. rewrite Hpt. unfold upd. by rewrite Z.eqb_refl. Qed.

Lemma leaf_walk x : idx d x <> idx d a -> walk d (pt s') p x = walk d (pt s) p x.
Proof.
  intros Hx. apply (walk_entry_frame s g); try done.
  { apply leaf_other; [done|apply idx_range|congruence]. }
  intros q Hq Ho Hdq. apply (walk_frame s g _ (fun r => (dep g r < d)%nat)); [done| | |lia|done|done].
  - intros; lia.
  - intros r j Hr ? ?. apply leaf_other; [done..|]. intros [= -> _]. lia.
Qed.

Lemma leaf_wf : wf s' g.
Proof.
  destruct Hw as [(? & ? & ? & ?) Hrt Hrd Hdp Hen]. pose proof (Hdp _ Hl). split.
  - unfold based. rewrite Hbase, Httbr. done.
  - rewrite Hbase. destruct (Hlive _ Hrt) as [?|[_ ?]]; [done|lia].
  - by rewrite Hbase.
  - intros q Hq. apply Hdp, Hsub, Hq.
  - intros q j Hq Hj. unfold entry_ok.
    destruct (decide ((q, j) = (p, idx d a))) as [[= -> ->]|Hne].
    { right; left. by rewrite leaf_self, Hd. }
    rewrite leaf_other by auto.
    destruct (Hen q j (Hsub _ Hq) Hj) as [?|[?|(r & ? & Hr & ? & Hor)]]; [by left|by right; left|].
    right; right. exists r. split_and!; try done.
    destruct (Hlive _ Hr) as [?|[Hor' _]]; [done|congruence].
Qed.

Lemma leaf_in x : a <= x < a + sz d -> walk d (pt s') p x = Some (x + dl, Z.land e HW_ATTRIBS).
Proof.
  intros Hx. apply (aligned_block d a x Ha) in Hx.
  assert (Hix : idx d x = idx d a) by (unfold idx; congruence).
  pose proof (wf_dep _ _ Hw _ Hl).
  rewrite walk_leaf; rewrite ?Hix, ?leaf_self; [|lia|done..].
  rewrite Hoa. do 2 f_equal.
  pose proof (Z_div_mod_eq_full x (sz d)). pose proof (Z_div_mod_eq_full a (sz d)). rewrite Hx in *. lia.
Qed.

Lemma leaf_outside x : x / sz (S d) = C -> ~ a <= x < a + sz d -> idx d x <> idx d a.
Proof.
  intros Hx Hn E. apply Hn. apply aligned_block; [done|]. apply idx_inj; congruence.
Qed.

Lemma leaf_mapped :
  nfree s <= nfree s' -> mapped d C p a (a + sz d) dl (Z.land e HW_ATTRIBS) 0 s g s' g.
Proof.
  intros Hfree. pose proof (wf_dep _ _ Hw _ Hl). pose proof (sz_pos d). split; try done.
  - apply leaf_wf.
  - destruct (Hlive p Hl) as [?|[_ ?]]; [done|lia].
  - apply leaf_in.
  - intros x Hx Hn. rewrite leaf_walk; [apply kept_refl|]. by apply leaf_outside.
  - intros x Hx Hor. apply leaf_walk, leaf_outside; [done|]. rewrite <- aligned_block by done.
    assert ((a + sz d - 1) / sz d = a / sz d) by (apply aligned_block; [done|lia]). lia.
  - intros q Hq Hu. split_and!; try done.
    + destruct (Hlive _ Hq) as [?|[Ho Hdq]]; [done|]. exfalso. apply Hu.
      destruct d as [|[|[|]]]; [lia| |by right; left|lia].
      right; right. split_and!; [done|lia|]. by rewrite Ho.
    + intros j Hj. apply leaf_other; [done..|]. intros [= -> _]. apply Hu. by left.
  - lia.
Qed.
End leaf.

(** Same tables and registers; pages only became free, and only the child of
    entry [i] of [p]. *)
Definition freed (g : ghost) (p i : Z) (s s' : mmu) : Prop :=
  tt_base s' = tt_base s /\ ttbr0 s' = ttbr0 s /\ pt s' = pt s /\ nfree s <= nfree s' /\
  (forall q, live s' q -> live s q) /\
  (forall q, live s q -> live s' q \/ (own g q = (p, i) /\ dep g p = S (dep g q))).

Lemma freed_refl g p i s : freed g p i s s.
Proof. split_and!; auto with lia. Qed.

Lemma live_set_bitmap s b q :
  live (set_bitmap b s) q <-> exists i, 0 <= i < 32 /\ q = page_of s i /\ Z.testbit b i = false.
Proof. done. Qed.

Lemma free_child s g p i q :
  wf s g -> live s q -> own g q = (p, i) -> dep g p = S (dep g q) ->
  exists s', free_tt_page q s = Some (tt, s') /\ freed g p i s s'.
Proof.
  intros Hw (k & Hk & -> & Hb) Ho Hd. rewrite free_tt_page_run by (done || apply (wf_based _ _ Hw)).
  eexists. split; [done|]. split_and!; try done.
  - apply count_bits_mono. intros j Hj Ht. cbn [free_page_table_bitmap set_bitmap].
    rewrite testbit_set, Ht by lia. done.
  - intros r. rewrite live_set_bitmap. intros (j & Hj & -> & Ht). exists j. split_and!; [lia..|done|].
    rewrite testbit_set in Ht by lia. by apply orb_false_iff in Ht as [? _].
  - intros r (j & Hj & -> & Ht). destruct (Z.eq_dec j k) as [->|Hne]; [by right|left].
    rewrite live_set_bitmap. exists j. split_and!; [lia..|done|].
    rewrite testbit_set, Ht by lia. by apply Z.eqb_neq.
Qed.

(** What the conditional [free_tt_page] of the leaf branch does. *)
Lemma free_old s g p i d :
  wf s g -> live s p -> 0 <= i < 512 -> dep g p = d ->
  let e := pt s (p + 8 * i) in
  exists s', (if has e PTE_VALID && ((3 - Z.of_nat d <? LAST_LEVEL) && has e PTE_TABLE)
              then free_tt_page (Z.land e PTE_NEXT_LEVEL_TABLE_ADDR_MASK) else ret tt) s = Some (tt, s') /\
    freed g p i s s'.
Proof.
  intros Hw Hl Hi Hd e. unfold PTE_VALID, PTE_TABLE, LAST_LEVEL.
  destruct (entry_cases _ _ p i Hw Hl Hi) as [H0|[(H1 & H2)|(H1 & H2 & q & Hoa & _ & Hq & Hdq & Ho)]];
    fold e in H0 || fold e in H1, H2; try fold e in Hoa.
  - apply has_false in H0. rewrite H0. eexists. split; [done|apply freed_refl].
  - assert (E : (3 - Z.of_nat d <? 3) && has e 2 = false).
    { destruct d as [|d]; [done|]. rewrite Hd in H2. destruct H2 as (H2 & _).
      apply has_false in H2. rewrite H2. apply andb_false_r. }
    rewrite E, andb_false_r. eexists. split; [done|apply freed_refl].
  - rewrite (proj2 (has_true e 1) H1), (proj2 (has_true e 2) H2).
    replace (3 - Z.of_nat d <? 3) with true by (symmetry; apply Z.ltb_lt; lia).
    change PTE_NEXT_LEVEL_TABLE_ADDR_MASK with PTE_OUTPUT_ADDR_MASK. rewrite Hoa.
    by apply free_child.
Qed.

Lemma live_eq s s' q :
  tt_base s' = tt_base s -> free_page_table_bitmap s' = free_page_table_bitmap s -> live s' q <-> live s q.
Proof. unfold live, page_of. intros -> ->. done. Qed.

Lemma based_eq s s' : tt_base s' = tt_base s -> ttbr0 s' = ttbr0 s -> based s -> based s'.
Proof. unfold based. intros -> ->. done. Qed.

Lemma leaf_pte_ok d a flags :
  (d <= 2)%nat -> 0 <= a < 2 ^ 40 -> a mod sz d = 0 ->
  leaf_ok d (leaf_pte (3 - Z.of_nat d) a flags) /\ oa (leaf_pte (3 - Z.of_nat d) a flags) = a.
Proof.
  intros Hd Ha Hm.
  assert (Hoa : oa (leaf_pte (3 - Z.of_nat d) a flags) = a).
  { rewrite leaf_pte_oa. apply oa_id; [done|]. apply (mod_sz_le 0 d); [lia|done]. }
  split; [|done]. destruct d as [|d]; unfold leaf_ok.
  - by rewrite leaf_pte_table.
  - rewrite Hoa, leaf_pte_af, leaf_pte_table.
    rewrite (proj2 (Z.ltb_lt _ _)) by lia. done.
Qed.

Lemma map_leaf_ok d C p a dl flags s g :
  wf s g -> live s p -> dep g p = d -> a mod sz d = 0 -> a / sz (S d) = C ->
  dl mod sz d = 0 -> 0 <= a + dl < 2 ^ 40 ->
  exists s', map_leaf p (3 - Z.of_nat d) (idx d a) a (a + dl) flags s = Some (tt, s') /\
    mapped d C p a (a + sz d) dl (map_attribs flags) 0 s g s' g.
Proof.
  intros Hw Hl Hd Ha HC Hdl Hr. pose proof (wf_dep _ _ Hw _ Hl) as Hd2. pose proof (sz_pos d).
  pose proof (idx_range d a) as Hi.
  unfold map_leaf. erewrite bind_some by (apply tt_get_run; [apply (wf_based _ _ Hw)|by apply live_page|done]).
  destruct (free_old s g p (idx d a) d Hw Hl Hi Hd) as (s1 & Hs1 & Hb1 & Ht1 & Hp1 & Hn1 & Hsub & Hlv).
  cbv zeta. erewrite bind_some by exact Hs1.
  match goal with |- context [bind (if ?b then _ else _)] => set (fl := b) end.
  set (s2 := if fl then log (Clean_invalidate_dcache a (tt_size (3 - Z.of_nat d))) s1 else s1).
  assert (Hs2 : (if fl then emit (Clean_invalidate_dcache a (tt_size (3 - Z.of_nat d))) else ret tt) s1 = Some (tt, s2))
    by (unfold s2; by destruct fl).
  erewrite bind_some by exact Hs2.
  assert (Heq : tt_base s2 = tt_base s /\ ttbr0 s2 = ttbr0 s /\ pt s2 = pt s /\
    free_page_table_bitmap s2 = free_page_table_bitmap s1).
  { unfold s2. destruct fl; split_and!; done. }
  destruct Heq as (Hb2 & Ht2 & Hp2 & Hm2).
  erewrite bind_some.
  2: { apply tt_set_run; [by apply (based_eq s); [..|apply (wf_based _ _ Hw)]| |done].
       destruct (live_page _ _ Hl) as (k & ? & ->). exists k. unfold page_of. by rewrite Hb2. }
  destruct (leaf_pte_ok d (a + dl) flags) as [Hlf Hoa]; [lia|done| |].
  { pose proof (Z.add_mod a dl (sz d) ltac:(lia)) as E. rewrite Ha, Hdl in E. rewrite E. apply Z.mod_0_l. lia. }
  eexists. split; [unfold bind, emit, modify; done|].
  rewrite <- (leaf_pte_hw (3 - Z.of_nat d) (a + dl) flags).
  apply leaf_mapped; try done.
  - cbn. by rewrite Hp2.
  - intros q Hq. apply Hsub. revert Hq. apply live_eq; cbn; congruence.
  - intros q Hq. destruct (Hlv q Hq) as [Hq1|[? ?]]; [left|right; split; [done|congruence]].
    revert Hq1. apply live_eq; cbn; congruence.
  - rewrite leaf_pte_valid. done.
  - unfold nfree in *. cbn. rewrite Hm2. done.
Qed.

(** ** The next-level table *)

(** Entry [i] of [p] now refers to table [q]; what it covered translates as
    before, and nothing else changed. *)
Record next_ok (d : nat) (p i q : Z) (s : mmu) (g : ghost) (s1 : mmu) (g1 : ghost) : Prop := {
  n_wf : wf s1 g1;
  n_base : tt_base s1 = tt_base s;
  n_q : live s1 q;
  n_q_dep : dep g1 q = d;
  n_q_own : own g1 q = (p, i);
  n_entry : pt s1 (p + 8 * i) = table_pte q;
  n_p : live s1 p /\ dep g1 p = dep g p /\ own g1 p = own g p;
  n_frame : forall r, live s r -> r <> p -> same_page s s1 g g1 r;
  n_in : forall x, idx (S d) x = i -> kept (walk (S d) (pt s) p x) (walk (S d) (pt s1) p x);
  n_out : forall x, idx (S d) x <> i -> walk (S d) (pt s1) p x = walk (S d) (pt s) p x;
  n_free : nfree s - 1 <= nfree s1;
}.

(** Page [q] becomes the table of depth [d] owned by [o]. *)
Definition adopt (g : ghost) (q : Z) (d : nat) (o : Z * Z) : ghost :=
  {| dep := fun r => if r =? q then d else dep g r; own := fun r => if r =? q then o else own g r |}.

(** A fresh page [q], whose entries are leaves or invalid, is hooked into an
    entry of [p] that was a leaf or invalid. *)
Section install.
Context (d : nat) (p i k : Z) (s s1 : mmu) (g : ghost).
Abbreviation q := (page_of s k).
Abbreviation g1 := (adopt g q d (p, i)).
Hypothesis Hw : wf s g.
Hypothesis Hl : live s p.
Hypothesis Hd : dep g p = S d.
Hypothesis Hi : 0 <= i < 512.
Hypothesis Hk : 0 <= k < 32.
Hypothesis Hfree : Z.testbit (free_page_table_bitmap s) k = true.
Hypothesis Hbase : tt_base s1 = tt_base s.
Hypothesis Httbr : ttbr0 s1 = ttbr0 s.
Hypothesis Hbit : free_page_table_bitmap s1 = Z.land (free_page_table_bitmap s) (u64 (Z.lnot (Z.shiftl 1 k))).
Hypothesis Hself : pt s1 (p + 8 * i) = table_pte q.
Hypothesis Hother : forall r j, live s r -> 0 <= j < 512 -> (r, j) <> (p, i) -> pt s1 (r + 8 * j) = pt s (r + 8 * j).
Hypothesis Hnew : forall j, 0 <= j < 512 ->
  Z.land (pt s1 (q + 8 * j)) 1 = 0 \/ leaf_ok d (pt s1 (q + 8 * j)).

Lemma install_live r : live s1 r <-> live s r \/ r = q.
Proof.
  unfold live, page_of in *. rewrite Hbit, Hbase. split.
  - intros (j & Hj & -> & Ht). rewrite testbit_clear in Ht by lia.
    destruct (Z.eqb_spec j k) as [->|]; [by right|left]. exists j. split_and!; [lia..|done|].
    by rewrite andb_true_r in Ht.
  - intros [(j & Hj & -> & Ht)| ->].
    + exists j. split_and!; [lia..|done|]. by rewrite testbit_clear, Ht by lia.
    + exists k. split_and!; [lia..|done|]. rewrite testbit_clear, Z.eqb_refl by lia. apply andb_false_r.
Qed.

Lemma install_fresh : ~ live s q.
Proof. unfold live, page_of. intros (j & Hj & E & Ht). assert (j = k) as -> by lia. congruence. Qed.

Lemma install_old r : live s r -> dep g1 r = dep g r /\ own g1 r = own g r.
Proof.
  intros Hr. unfold adopt. cbn. destruct (Z.eqb_spec r q) as [->|]; [|done].
  destruct (install_fresh Hr).
Qed.

Lemma install_q : dep g1 q = d /\ own g1 q = (p, i).
Proof. unfold adopt. cbn. by rewrite Z.eqb_refl. Qed.

Lemma install_wf : wf s1 g1.
Proof.
  pose proof (wf_dep _ _ Hw _ Hl) as Hd2.
  destruct Hw as [Hb Hrt Hrd Hdp Hen]. split.
  - by apply (based_eq s).
  - rewrite Hbase, install_live. by left.
  - rewrite Hbase. rewrite (proj1 (install_old _ Hrt)). done.
  - intros r [Hr| ->]%install_live; [rewrite (proj1 (install_old r Hr)); auto|].
    rewrite (proj1 install_q). lia.
  - intros r j [Hr| ->]%install_live Hj; unfold entry_ok.
    2: { rewrite (proj1 install_q). destruct (Hnew j Hj); [by left|by right; left]. }
    destruct (install_old _ Hr) as [Edr Eor]. rewrite Edr.
    destruct (decide ((r, j) = (p, i))) as [[= -> ->]|Hne].
    + right; right. exists q. rewrite Hself, Edr, (proj1 install_q), (proj2 install_q).
      split_and!; [done| |done|done]. apply install_live. by right.
    + rewrite Hother by done. destruct (Hen r j Hr Hj) as [?|[?|(c & ? & Hc & ? & ?)]]; [by left|by right; left|].
      right; right. exists c. destruct (install_old _ Hc) as [Edc Eoc].
      split_and!; [done|apply install_live; by left|congruence|congruence].
Qed.

Lemma install_walk_out x : idx (S d) x <> i -> walk (S d) (pt s1) p x = walk (S d) (pt s) p x.
Proof.
  intros Hx. apply (walk_entry_frame s g); try done.
  { apply Hother; [done|apply idx_range|congruence]. }
  intros c Hc Ho Hdc. apply (walk_frame s g _ (fun r => (dep g r < S d)%nat)); [done| | |lia|done|done].
  - intros; lia.
  - intros r j Hr ? ?. apply Hother; [done..|]. intros [= -> _]. lia.
Qed.

Lemma install_walk_in x : idx (S d) x = i -> walk (S d) (pt s1) p x = walk d (pt s1) q x.
Proof.
  intros Hx. pose proof (wf_dep _ _ Hw _ Hl). apply walk_table; [lia|by rewrite Hx|].
  apply (live_oa s1); [apply install_wf|]. apply install_live. by right.
Qed.

Lemma install_next :
  (forall x, idx (S d) x = i -> kept (walk (S d) (pt s) p x) (walk d (pt s1) q x)) ->
  next_ok d p i q s g s1 g1.
Proof.
  intros Hkept. destruct (install_old _ Hl), install_q. split; try done.
  - apply install_wf.
  - apply install_live. by right.
  - split_and!; [apply install_live; by left|done..].
  - intros r Hr Hne. destruct (install_old _ Hr). split_and!; [apply install_live; by left|done..|].
    intros j Hj. apply Hother; [done..|congruence].
  - intros x Hx. rewrite install_walk_in by done. by apply Hkept.
  - apply install_walk_out.
  - unfold nfree. rewrite Hbit. apply (count_bits_clear _ _ _ k). intros j Hj Hne Ht.
    rewrite testbit_clear, Ht by lia. by apply negb_true_iff, Z.eqb_neq.
Qed.
End install.

(** A page being taken leaves the pages in use alone. *)
Lemma taken_other s k r j :
  live s r -> Z.testbit (free_page_table_bitmap s) k = true -> 0 <= j < 512 ->
  pt (taken s k) (r + 8 * j) = pt s (r + 8 * j).
Proof.
  intros (k' & Hk' & -> & Ht) Hk Hj. assert (k' <> k) by congruence.
  unfold taken, clear, page_of. cbn.
  destruct (_ && _) eqn:E; [|done]. bools. lia.
Qed.

Lemma taken_zero s k j : 0 <= j < 512 -> pt (taken s k) (page_of s k + 8 * j) = 0.
Proof. intros. unfold taken, clear. cbn. by rewrite (proj2 (Z.leb_le _ _)), (proj2 (Z.ltb_lt _ _)) by lia. Qed.

(** The entries of a split section. *)
Lemma fill_entry d e j :
  (S d <= 2)%nat -> leaf_ok (S d) e -> 0 <= j < 512 ->
  let e' := fill_pte (3 - Z.of_nat d) (oa e + j * sz d) e in
  Z.land e' 1 <> 0 /\ leaf_ok d e' /\ oa e' = oa e + j * sz d /\ Z.land e' HW_ATTRIBS = Z.land e PTE_ATTRIBS_MASK.
Proof.
  intros Hd (H2 & Hm & Haf) Hj e'. pose proof (sz_pos d) as HS. pose proof (oa_range e) as Ho.
  assert (Hm' : (oa e + j * sz d) mod sz d = 0).
  { rewrite Z.mod_add by lia. apply (mod_sz_le d (S d)); [lia|done]. }
  assert (Hoa : oa e' = oa e + j * sz d).
  { unfold e'. rewrite fill_pte_oa. apply oa_id; [|by apply (mod_sz_le 0 d); [lia|]].
    split; [nia|]. apply Z.mod_divide in Hm as [c Hc]; [|pose proof (sz_pos (S d)); lia].
    rewrite Hc in *. rewrite sz_S in *. destruct d as [|[|]]; cbv [sz] in *; simpl in *; lia. }
  split_and!; [by unfold e'; rewrite fill_pte_valid| |done|by unfold e'; apply fill_pte_hw].
  destruct d as [|d]; unfold leaf_ok; unfold e' in *.
  - by rewrite fill_pte_table.
  - rewrite fill_pte_table, fill_pte_af, Hoa, (proj2 (Z.ltb_lt _ _)) by lia. done.
Qed.

Lemma page_apart s k r i j :
  live s r -> Z.testbit (free_page_table_bitmap s) k = true -> 0 <= k < 32 -> 0 <= i < 512 -> 0 <= j < 512 ->
  r + 8 * i <> page_of s k + 8 * j.
Proof.
  intros (k' & Hk' & -> & Ht) Hk ? ? ? ?. assert (k' <> k) by congruence. unfold page_of in *. lia.
Qed.

(** Hooking in an empty table, and one that splits a section. *)
Section hook.
Context (d : nat) (p i k : Z) (s : mmu) (g : ghost).
Abbreviation q := (page_of s k).
Hypothesis Hw : wf s g.
Hypothesis Hl : live s p.
Hypothesis Hd : dep g p = S d.
Hypothesis Hi : 0 <= i < 512.
Hypothesis Hk : 0 <= k < 32.
Hypothesis Hfree : Z.testbit (free_page_table_bitmap s) k = true.

Lemma hook_other f v r j :
  (forall b, (forall j, 0 <= j < 512 -> b <> q + 8 * j) -> f b = pt (taken s k) b) ->
  live s r -> 0 <= j < 512 -> (r, j) <> (p, i) -> upd f (p + 8 * i) v (r + 8 * j) = pt s (r + 8 * j).
Proof.
  intros Hf Hr Hj Hne. unfold upd.
  destruct (Z.eqb_spec (r + 8 * j) (p + 8 * i)) as [E|].
  { destruct (entry_apart s j i r p) as [-> ->]; [by apply live_page|by apply live_page|done..]. }
  rewrite Hf, taken_other; [done..|]. intros. by apply page_apart.
Qed.

Lemma hook_new f v j : 0 <= j < 512 -> upd f (p + 8 * i) v (q + 8 * j) = f (q + 8 * j).
Proof.
  intros Hj. unfold upd. destruct (Z.eqb_spec (q + 8 * j) (p + 8 * i)) as [E|]; [|done].
  symmetry in E. by apply page_apart in E.
Qed.

Lemma hook_self f v : upd f (p + 8 * i) v (p + 8 * i) = v.
Proof. unfold upd. by rewrite Z.eqb_refl. Qed.

Lemma hook_empty ev :
  Z.land (pt s (p + 8 * i)) 1 = 0 ->
  next_ok d p i q s g (log ev (set_pt (upd (pt (taken s k)) (p + 8 * i) (table_pte q)) (taken s k)))
    (adopt g q d (p, i)).
Proof.
  intros H0. pose proof (wf_dep _ _ Hw _ Hl) as Hd2. apply install_next; try done; cbn [pt log set_pt].
  - apply hook_self.
  - intros. by apply hook_other.
  - intros j Hj. left. by rewrite hook_new, taken_zero.
  - intros x Hx. rewrite walk_invalid by (rewrite ?Hx; lia || done).
    rewrite walk_invalid; [apply kept_refl|lia|].
    rewrite hook_new, taken_zero by apply idx_range. done.
Qed.

Lemma hook_split_walk f v x :
  let e := pt s (p + 8 * i) in
  Z.land e 1 <> 0 -> leaf_ok (S d) e -> idx (S d) x = i ->
  (forall j, 0 <= j < 512 -> f (q + 8 * j) = fill_pte (3 - Z.of_nat d) (oa e + j * sz d) e) ->
  walk d (upd f (p + 8 * i) v) q x = drop_xn (walk (S d) (pt s) p x).
Proof.
  intros e H1 Hleaf Hx Hin. pose proof (wf_dep _ _ Hw _ Hl) as Hd2.
  destruct (fill_entry d e (idx d x)) as (He1 & Hel & Heo & Heh); [lia|done|apply idx_range|].
  rewrite (walk_leaf (S d)); rewrite ?Hx; [|lia|done..].
  rewrite (walk_leaf d); rewrite ?hook_new, ?Hin by apply idx_range; [|lia|done..].
  cbn. rewrite Heo, Heh, idx_split, <- Z.land_assoc. fold e. f_equal. f_equal. lia.
Qed.

Lemma hook_split f evs :
  let e := pt s (p + 8 * i) in
  Z.land e 1 <> 0 -> leaf_ok (S d) e ->
  (forall j, 0 <= j < 512 -> f (q + 8 * j) = fill_pte (3 - Z.of_nat d) (oa e + j * sz d) e) ->
  (forall b, (forall j, 0 <= j < 512 -> b <> q + 8 * j) -> f b = pt (taken s k) b) ->
  next_ok d p i q s g
    (log evs.1 (set_pt (upd f (p + 8 * i) (table_pte q)) (log evs.2 (set_pt f (taken s k)))))
    (adopt g q d (p, i)).
Proof.
  intros e H1 Hleaf Hin Hf. pose proof (wf_dep _ _ Hw _ Hl) as Hd2.
  apply install_next; try done; cbn [pt log set_pt].
  - apply hook_self.
  - intros. by apply hook_other.
  - intros j Hj. rewrite hook_new, Hin by done. right. by apply fill_entry; [lia|..].
  - intros x Hx. right. by apply hook_split_walk.
Qed.
End hook.

Lemma page_nonzero s k : based s -> 0 <= k -> (page_of s k =? 0) = false.
Proof. intros (? & _) ?. apply Z.eqb_neq. unfold page_of. lia. Qed.

(** The section case, which is the one that allocates and fills. *)
Lemma map_next_split d p i s g :
  wf s g -> live s p -> dep g p = S d -> 0 <= i < 512 -> 1 <= nfree s ->
  let e := pt s (p + 8 * i) in
  Z.land e 1 <> 0 -> leaf_ok (S d) e ->
  exists q s1 g1, map_next_tt p (3 - Z.of_nat (S d)) i s = Some (q, s1) /\ next_ok d p i q s g s1 g1 /\
    forall x, idx (S d) x = i -> walk d (pt s1) q x = drop_xn (walk (S d) (pt s) p x).
Proof.
  intros Hw Hl Hd Hi Hn e H1 H2. pose proof (wf_dep _ _ Hw _ Hl) as Hd2. pose proof (wf_based _ _ Hw) as Hb.
  unfold map_next_tt. erewrite bind_some by (apply tt_get_run; [done|by apply live_page|done]). fold e.
  destruct (allocate_tt_page_run s) as (k & Hk & Hfree & Hal); [lia|].
  rewrite (proj2 (has_true e PTE_VALID) H1), (proj2 (has_false e PTE_TABLE) (proj1 H2)).
  run Hal. rewrite page_nonzero by (done || lia). erewrite bind_some by done.
  replace (3 - Z.of_nat (S d) + 1) with (3 - Z.of_nat d) by lia.
  destruct (fill_tt_run (taken s k) (page_of s k) d e) as (f & Hf & Hfi & Hfo);
    [by apply (based_eq s)|by exists k|lia|].
  run Hf. erewrite bind_some by (apply tt_set_run; [by apply (based_eq s)|apply (live_page s _ Hl)|done]).
  do 3 eexists. split; [unfold bind, emit, modify; done|]. split.
  - by apply (hook_split d p i k s g Hw Hl Hd Hi Hk Hfree f (_, _)).
  - intros x Hx. by apply (hook_split_walk d p i k s g Hw Hl Hd Hi Hk Hfree).
Qed.

Lemma map_next_tt_ok d p i s g :
  wf s g -> live s p -> dep g p = S d -> 0 <= i < 512 -> 1 <= nfree s ->
  exists q s1 g1, map_next_tt p (3 - Z.of_nat (S d)) i s = Some (q, s1) /\ next_ok d p i q s g s1 g1.
Proof.
  intros Hw Hl Hd Hi Hn. pose proof (wf_based _ _ Hw) as Hb.
  destruct (entry_cases _ _ p i Hw Hl Hi) as [H0|[(H1 & H2)|(H1 & H2 & q & Hoa & He & Hlq & Hdq & Ho)]].
  2: { rewrite Hd in H2. destruct (map_next_split d p i s g) as (q & s1 & g1 & ? & ? & _); eauto. }
  all: unfold map_next_tt; (erewrite bind_some by (apply tt_get_run; [done|by apply live_page|done])).
  - destruct (allocate_tt_page_run s) as (k & Hk & Hfree & Hal); [lia|].
    rewrite (proj2 (has_false _ PTE_VALID) H0). run Hal. rewrite page_nonzero by (done || lia).
    erewrite bind_some by done.
    erewrite bind_some by (apply tt_set_run; [by apply (based_eq s)|apply (live_page s _ Hl)|done]).
    do 3 eexists. split; [unfold bind, emit, modify; done|]. by apply hook_empty.
  - rewrite (proj2 (has_true _ PTE_VALID) H1), (proj2 (has_true _ PTE_TABLE) H2).
    do 3 eexists. split; [done|]. change PTE_NEXT_LEVEL_TABLE_ADDR_MASK with PTE_OUTPUT_ADDR_MASK.
    rewrite Hoa. rewrite Hd in Hdq. injection Hdq as Hdq.
    split; try done; try lia; auto with lk. all: intros; split_and!; done.
Qed.

(** ** The table branch: a new or existing table, then the range inside it *)
Section descend.
Context (d : nat) (C p q a c dl at_ k : Z) (s s1 s2 : mmu) (g g1 g2 : ghost).
Hypothesis Hw : wf s g.
Hypothesis Hl : live s p.
Hypothesis Hd : dep g p = S d.
Hypothesis Hac : a < c.
Hypothesis Hc : (c - 1) / sz (S d) = a / sz (S d).
Hypothesis HC : a / sz (S (S d)) = C.
Hypothesis Hn : next_ok d p (idx (S d) a) q s g s1 g1.
Hypothesis Hm : mapped d (a / sz (S d)) q a c dl at_ k s1 g1 s2 g2.

Lemma descend_depth : (S d <= 2)%nat.
Proof. pose proof (wf_dep _ _ Hw _ Hl). lia. Qed.

Lemma descend_p : same_page s1 s2 g1 g2 p.
Proof.
  pose proof descend_depth. destruct (n_p _ _ _ _ _ _ _ _ Hn) as (Hp & Hdp & Hop).
  apply (m_frame _ _ _ _ _ _ _ _ _ _ _ _ Hm); [done|].
  pose proof (n_q_dep _ _ _ _ _ _ _ _ Hn) as Hq. unfold under. intros [->|[->|(? & ? & _)]]; lia.
Qed.

Lemma descend_walk x : idx (S d) x = idx (S d) a ->
  walk (S d) (pt s2) p x = walk d (pt s2) q x /\ walk (S d) (pt s1) p x = walk d (pt s1) q x.
Proof.
  intros Hx. pose proof descend_depth.
  assert (Hoa : oa q = q).
  { apply (live_oa s1); [apply (wf_based _ _ (n_wf _ _ _ _ _ _ _ _ Hn))|apply (n_q _ _ _ _ _ _ _ _ Hn)]. }
  split; apply walk_table; try done; rewrite Hx; [|apply (n_entry _ _ _ _ _ _ _ _ Hn)].
  destruct descend_p as (_ & _ & _ & E). rewrite E by apply idx_range. apply (n_entry _ _ _ _ _ _ _ _ Hn).
Qed.

Lemma descend_other x : idx (S d) x <> idx (S d) a -> walk (S d) (pt s2) p x = walk (S d) (pt s) p x.
Proof.
  intros Hx. pose proof descend_depth. rewrite <- (n_out _ _ _ _ _ _ _ _ Hn) by done.
  destruct (n_p _ _ _ _ _ _ _ _ Hn) as (Hp & Hdp & Hop).
  pose proof (n_q_own _ _ _ _ _ _ _ _ Hn) as Hoq. pose proof (n_wf _ _ _ _ _ _ _ _ Hn) as Hw1.
  apply (walk_entry_frame s1 g1); [done..|congruence|apply descend_p, idx_range|].
  intros r Hr Hor Hdr.
  apply (walk_frame s1 g1 _ (fun r => ~ under g1 d q r /\ (dep g1 r <= d)%nat)); [done| | | |done|done].
  - intros u v j [Hu Hdu] _ _ Hduv Hov. split; [|lia]. unfold under in *. intros [->|[->|(-> & Hdv & Hfv)]].
    + rewrite Hoq in Hov. injection Hov as <- _. lia.
    + lia.
    + rewrite Hov in Hfv. cbn in Hfv. subst u. apply Hu. by left.
  - intros u j [Hu _] Hlu Hj. by apply (m_frame _ _ _ _ _ _ _ _ _ _ _ _ Hm).
  - split; [|lia]. unfold under. intros [->|[->|(-> & Hdv & _)]]; [|lia..].
    rewrite Hoq in Hor. congruence.
Qed.

Lemma descend_mapped : mapped (S d) C p a c dl at_ (1 + k) s g s2 g2.
Proof.
  pose proof descend_depth. pose proof (sz_pos (S d)) as HS.
  destruct (n_p _ _ _ _ _ _ _ _ Hn) as (Hp & Hdp & Hop). destruct descend_p as (Hp2 & Hdp2 & Hop2 & He2).
  pose proof (n_free _ _ _ _ _ _ _ _ Hn). pose proof (n_base _ _ _ _ _ _ _ _ Hn).
  assert (Hback : forall x, x / sz (S (S d)) = C -> idx (S d) x = idx (S d) a -> x / sz (S d) = a / sz (S d)).
  { intros x Hx E. apply idx_inj; congruence. }
  destruct Hm as [Hw2 Hb2 Hq2 Hdq2 Hoq2 Hin Hout Hex Hfr Hfree]. split; try done; try congruence.
  - intros x Hx. assert (E : idx (S d) x = idx (S d) a); [|rewrite (proj1 (descend_walk x E)); by apply Hin].
    unfold idx. f_equal.
    assert (a / sz (S d) <= x / sz (S d)) by (apply Z.div_le_mono; lia).
    assert (x / sz (S d) <= (c - 1) / sz (S d)) by (apply Z.div_le_mono; lia). lia.
  - intros x Hx Hnot. destruct (Z.eq_dec (idx (S d) x) (idx (S d) a)) as [E|E].
    2: { rewrite descend_other by done. apply kept_refl. }
    eapply kept_trans; [by apply (n_in _ _ _ _ _ _ _ _ Hn)|].
    destruct (descend_walk x E) as [-> ->]. apply Hout; [by apply Hback|done].
  - intros x Hx Hor. apply descend_other. intros E. pose proof (Hback x Hx E). lia.
  - intros r Hr Hu. assert (Hne : r <> p) by (intros ->; apply Hu; by left).
    pose proof (n_frame _ _ _ _ _ _ _ _ Hn r Hr Hne) as Hs. eapply same_page_trans; [exact Hs|].
    destruct Hs as (Hr1 & Hdr & Hor & _). apply Hfr; [done|]. intros Hu'. apply Hu.
    pose proof (n_q_own _ _ _ _ _ _ _ _ Hn) as Hoq. pose proof (n_q_dep _ _ _ _ _ _ _ _ Hn) as Hdq.
    unfold under in *. destruct Hu' as [->|[->|(-> & _)]]; [|lia|by right; left].
    destruct d as [|[|]]; [|by right; left|lia]. right; right. split_and!; [done|congruence|].
    by rewrite <- Hor, Hoq.
  - lia.
Qed.
End descend.
