(* ===== verification/MmuLoop.v ===== *)
(** * Translation tables: the loop over one table and the recursion over levels

    The pages a call may take are counted exactly: a table is needed, at each
    level above the last, for each end of the range that is not aligned to the
    size of an entry of that level. *)

From S2P Require Import Prelude Mmu MmuSpec MmuMap.
Local Open Scope lk_scope.

(** ** Whole pages *)

Lemma page_sub a b : a mod 4096 = 0 -> b mod 4096 = 0 -> (b - a) mod 4096 = 0.
Proof. intros. zdm. Qed.
Lemma page_add a b : a mod 4096 = 0 -> b mod 4096 = 0 -> (a + b) mod 4096 = 0.
Proof. intros. zdm. Qed.
Lemma page_min m : 0 < m -> m mod 4096 = 0 -> 4096 <= m.
Proof. intros. zdm. Qed.
Lemma space_block x : 0 <= x < 2 ^ 39 -> x / sz 3 = 0.
Proof. apply Z.div_small. Qed.

(** ** Pages needed *)

Fixpoint ends (d : nat) (x : Z) : Z :=
  match d with
  | O => 0
  | S d' => (if x mod sz (S d') =? 0 then 0 else 1) + ends d' x
  end.
Definition need (d : nat) (a c : Z) : Z := ends d a + ends d c.

Lemma ends_nonneg d x : 0 <= ends d x.
Proof. induction d as [|d IH]; simpl; [lia|]. case_if; lia. Qed.

Lemma ends_aligned d e x : (e <= d)%nat -> x mod sz d = 0 -> ends e x = 0.
Proof.
  intros He Hx. induction e as [|e IH]; [done|]. cbn [ends].
  rewrite (mod_sz_le (S e) d x), IH by (lia || done). done.
Qed.

Lemma mapped_weaken d C p a b dl at_ k k' s g s' g' :
  k <= k' -> mapped d C p a b dl at_ k s g s' g' -> mapped d C p a b dl at_ k' s g s' g'.
Proof. intros Hk []. split; try done. lia. Qed.

(** ** Stepping over an entry *)

Abbreviation table_end C d := ((C + 1) * sz (S d)).
Abbreviation entry_end d a := ((a / sz d + 1) * sz d).

Lemma entry_end_gt d a : a < entry_end d a /\ entry_end d a <= a + sz d /\ entry_end d a mod sz d = 0.
Proof.
  pose proof (sz_pos d) as HS. pose proof (Z_div_mod_eq_full a (sz d)).
  pose proof (Z.mod_pos_bound a (sz d) HS). split_and!; [lia..|]. apply Z.mod_mul. lia.
Qed.

Lemma entry_end_aligned d a : a mod sz d = 0 -> entry_end d a = a + sz d.
Proof. intros Ha. pose proof (Z_div_mod_eq_full a (sz d)). lia. Qed.

Lemma next_entry d C a :
  a / sz (S d) = C ->
  entry_end d a <= table_end C d /\
  (if entry_end d a <? table_end C d then idx d (entry_end d a) else 512) = idx d a + 1 /\
  (entry_end d a < table_end C d -> entry_end d a / sz (S d) = C) /\
  (entry_end d a - 1) / sz (S d) = C.
Proof.
  rewrite !div_sz_S, !sz_S. unfold idx. intros <-. pose proof (sz_pos d) as HS.
  set (e := a / sz d). rewrite Z.div_mul by lia.
  pose proof (Z_div_mod_eq_full e 512) as He. pose proof (Z.mod_pos_bound e 512 ltac:(lia)) as Hi.
  assert (Hm1 : ((e + 1) * sz d - 1) / sz d = e) by (symmetry; apply Z.div_unique with (sz d - 1); lia).
  rewrite Hm1.
  split_and!.
  - nia.
  - destruct (Z.ltb_spec ((e + 1) * sz d) ((e / 512 + 1) * (512 * sz d))).
    + assert (e + 1 < 512 * (e / 512 + 1)) by nia. symmetry. apply Z.mod_unique with (e / 512); lia.
    + assert (512 * (e / 512 + 1) <= e + 1) by nia. lia.
  - intros H. assert (e + 1 < 512 * (e / 512 + 1)) by nia.
    symmetry. apply Z.div_unique with (e mod 512 + 1); lia.
  - done.
Qed.

Lemma table_end_iff d C a : a / sz (S d) = C -> C * sz (S d) <= a < table_end C d.
Proof.
  intros <-. pose proof (sz_pos (S d)) as HS. pose proof (Z_div_mod_eq_full a (sz (S d))).
  pose proof (Z.mod_pos_bound a (sz (S d)) HS). lia.
Qed.

(** The test for a section or page. *)
Lemma has_sz d a : has a (sz d - 1) = negb (a mod sz d =? 0).
Proof. unfold has, sz. by rewrite land_mask by lia. Qed.

Lemma branch_test d a m :
  (d <= 2)%nat -> a mod 4096 = 0 -> 0 < m -> m mod 4096 = 0 ->
  ((MAX_MAPPING_ALLOWED <? tt_size (3 - Z.of_nat d)) || has a (tt_size (3 - Z.of_nat d) - 1) ||
   (m <? tt_size (3 - Z.of_nat d))) && (3 - Z.of_nat d <? LAST_LEVEL) =
  negb ((a mod sz d =? 0) && (sz d <=? m)).
Proof.
  intros Hd Ha Hm Hm4. rewrite tt_size_sz, has_sz by done. unfold LAST_LEVEL.
  replace (MAX_MAPPING_ALLOWED <? sz d) with false by (destruct d as [|[|[|]]]; [done..|lia]).
  destruct d as [|d].
  - rewrite andb_false_r. change (sz 0) with 4096. rewrite Ha.
    rewrite (proj2 (Z.leb_le 4096 m)); [done|]. by apply page_min.
  - rewrite (proj2 (Z.ltb_lt (3 - Z.of_nat (S d)) 3)) by lia. rewrite andb_true_r, negb_andb. cbn [orb].
    f_equal. by rewrite Z.ltb_antisym.
Qed.

(** ** The loop *)

(** What a call for a table of depth [d] does to the range [a .. a + m): the
    part of it the table covers is mapped and its size returned. *)
Definition level_spec (flags dl : Z) (d : nat) (f : Z -> Z -> Z -> Z -> Z -> M mmu Z) : Prop :=
  forall s g p a m,
  wf s g -> live s p -> dep g p = d ->
  0 <= a -> a mod 4096 = 0 -> 0 < m -> m mod 4096 = 0 -> a + m <= 2 ^ 39 -> 0 <= a + dl -> a + m + dl <= 2 ^ 40 ->
  let c := Z.min (a + m) (entry_end (S d) a) in
  need d a c <= nfree s ->
  exists s' g', f p (3 - Z.of_nat d) a (a + dl) m s = Some (c - a, s') /\
    mapped d (a / sz (S d)) p a c dl (map_attribs flags) (need d a c) s g s' g'.

Lemma map_loop_done rec n t l i a pa m flags total s :
  m <= 0 \/ 512 <= i -> map_loop rec (S n) t l i a pa m flags total s = Some (total, s).
Proof.
  intros H. cbn [map_loop]. replace ((i <? PTES_PER_PAGE) && (0 <? m)) with false; [done|].
  symmetry. apply andb_false_iff. change PTES_PER_PAGE with 512. rewrite !Z.ltb_ge. lia.
Qed.

Section loop.
Context (flags dl : Z) (d : nat) (C p b : Z) (rec : Z -> Z -> Z -> Z -> Z -> M mmu Z).
Hypothesis Hd2 : (d <= 2)%nat.
Hypothesis Hrec : forall d', d = S d' -> level_spec flags dl d' rec.
Hypothesis Hdl : dl mod 2 ^ 30 = 0.
Hypothesis Hb : b mod 4096 = 0.
Hypothesis Hb39 : b <= 2 ^ 39.
Hypothesis Hb40 : b + dl <= 2 ^ 40.

Abbreviation c := (Z.min b (table_end C d)).
Definition cost (a : Z) : Z := if a <? c then need d a c else 0.

Lemma cost_nonneg a : 0 <= cost a.
Proof. unfold cost, need. pose proof (ends_nonneg d a). pose proof (ends_nonneg d c). case_if; lia. Qed.

(** One turn of the loop, from [a] to the end [c1] of the range or of the
    entry; [k] pages at most are taken. *)
Lemma leaf_turn s g a :
  wf s g -> live s p -> dep g p = d -> 0 <= a -> 0 <= a + dl -> a / sz (S d) = C ->
  a mod sz d = 0 -> sz d <= b - a ->
  exists s', map_leaf p (3 - Z.of_nat d) (idx d a) a (a + dl) flags s = Some (tt, s') /\
    mapped d C p a (entry_end d a) dl (map_attribs flags) 0 s g s' g /\
    cost (entry_end d a) <= cost a.
Proof.
  intros Hw Hl Hd Ha0 Hadl HC Ha Hm. pose proof (sz_pos d).
  destruct (map_leaf_ok d C p a dl flags s g) as (s' & Hr & Hmap); [done..| |lia|].
  { by apply (mod_sz_le d 2). }
  rewrite entry_end_aligned by done. exists s'. split_and!; [done..|].
  unfold cost, need. rewrite (ends_aligned d d (a + sz d)) by
    (lia || rewrite <- (Z.mul_1_l (sz d)) at 1; rewrite Z.mod_add by lia; done).
  pose proof (ends_nonneg d a). pose proof (ends_nonneg d c). zcases; lia.
Qed.

Lemma turn_cost d' a :
  d = S d' -> a < b -> a / sz (S d) = C -> ~ (a mod sz d = 0 /\ sz d <= b - a) ->
  let c1 := Z.min b (entry_end d a) in
  1 + need d' a c1 + cost c1 <= cost a.
Proof.
  intros E Hab HC Hpart c1. pose proof (sz_pos d) as HS.
  destruct (entry_end_gt d a) as (Hgt & Hle & Hal). pose proof (table_end_iff d C a HC).
  destruct (next_entry d C a HC) as (Hte & _).
  assert (Hends : forall x, ends d x = (if x mod sz d =? 0 then 0 else 1) + ends d' x) by (rewrite E; done).
  unfold cost at 2. rewrite (proj2 (Z.ltb_lt a c)) by lia.
  unfold need. destruct (Z_lt_dec c1 c) as [Hlt|Hge].
  - assert (E1 : c1 = entry_end d a) by lia. unfold cost. rewrite (proj2 (Z.ltb_lt c1 c)) by lia.
    unfold need. rewrite E1, (ends_aligned d d' (entry_end d a)), (ends_aligned d d (entry_end d a)), (Hends a) by (lia || done).
    destruct (Z.eqb_spec (a mod sz d) 0) as [Ha|Ha]; [|lia].
    exfalso. apply Hpart. rewrite entry_end_aligned in * by done. lia.
  - assert (E1 : c1 = c) by lia. unfold cost. rewrite (proj2 (Z.ltb_ge c1 c)) by lia.
    rewrite E1, (Hends a), (Hends c).
    destruct (Z.eqb_spec (a mod sz d) 0) as [Ha|]; [|case_if; lia].
    destruct (Z.eqb_spec (c mod sz d) 0) as [Hc|]; [|lia].
    exfalso. apply Hpart. split; [done|]. rewrite entry_end_aligned in * by done.
    apply Z.mod_divide in Ha as [u Hu]; [|lia]. apply Z.mod_divide in Hc as [v Hv]; [|lia].
    assert (u < v) by (apply (Z.mul_lt_mono_pos_r (sz d)); lia).
    assert ((u + 1) * sz d <= v * sz d) by (apply Z.mul_le_mono_nonneg_r; lia). lia.
Qed.

Lemma table_turn d' s g a :
  d = S d' -> wf s g -> live s p -> dep g p = d -> 0 <= a < b -> 0 <= a + dl -> a / sz (S d) = C ->
  a mod 4096 = 0 -> ~ (a mod sz d = 0 /\ sz d <= b - a) -> cost a <= nfree s ->
  let c1 := Z.min b (entry_end d a) in
  exists q s1 s2 g2, map_next_tt p (3 - Z.of_nat d) (idx d a) s = Some (q, s1) /\
    rec q (3 - Z.of_nat d + 1) a (a + dl) (if b - a <? sz d then b - a else sz d) s1 = Some (c1 - a, s2) /\
    mapped d C p a c1 dl (map_attribs flags) (1 + need d' a c1) s g s2 g2 /\
    1 + need d' a c1 + cost c1 <= cost a.
Proof.
  intros E Hw Hl Hd Ha Hadl HC Ha4 Hpart Hc c1. pose proof (turn_cost d' a E ltac:(lia) HC Hpart) as Hcost.
  cbv zeta in Hcost. fold c1 in Hcost. pose proof (cost_nonneg c1). pose proof (sz_pos d) as HS.
  destruct (entry_end_gt d a) as (Hgt & Hle & Hal).
  assert (0 <= need d' a c1) by (unfold need; pose proof (ends_nonneg d' a); pose proof (ends_nonneg d' c1); lia).
  destruct (map_next_tt_ok d' p (idx d a) s g) as (q & s1 & g1 & Hr1 & Hn);
    [done..|congruence|apply idx_range|lia|]. rewrite <- E in Hr1.
  set (m := if b - a <? sz d then b - a else sz d).
  assert (Hm : m = Z.min (b - a) (sz d)) by (unfold m; zcases; lia).
  assert (Hm4 : m mod 4096 = 0).
  { unfold m. case_if; [by apply page_sub|]. by apply (mod_sz_le 0 d); [lia|apply Z.mod_same; lia]. }
  assert (Hc1 : Z.min (a + m) (entry_end (S d') a) = c1) by (rewrite <- E; lia).
  destruct (Hrec d' E s1 g1 q a m) as (s2 & g2 & Hr2 & Hmap);
    [apply Hn|apply Hn|apply Hn|lia|done|lia|done|lia|lia|lia| |].
  { rewrite Hc1. pose proof (n_free _ _ _ _ _ _ _ _ Hn). lia. }
  rewrite Hc1 in Hr2, Hmap. exists q, s1, s2, g2. split_and!; [done| | |done].
  { replace (3 - Z.of_nat d + 1) with (3 - Z.of_nat d') by lia. done. }
  assert (Hin : (c1 - 1) / sz d = a / sz d).
  { symmetry. apply Z.div_unique with (c1 - 1 - a / sz d * sz d); pose proof (Z_div_mod_eq_full a (sz d));
      pose proof (Z.mod_pos_bound a (sz d) HS); lia. }
  assert (Hlt : a < c1) by lia. clearbody c1 m. rewrite E in *. eapply descend_mapped; done.
Qed.

Lemma map_loop_ok n s g i a total :
  wf s g -> live s p -> dep g p = d ->
  0 <= a <= b -> 0 <= a + dl -> a mod 4096 = 0 -> a <= table_end C d -> (a < table_end C d -> a / sz (S d) = C) ->
  (a < b -> i = if a <? table_end C d then idx d a else 512) -> i <= 512 -> 512 - i < Z.of_nat n ->
  0 <= total <= 2 ^ 40 - (c - a) -> cost a <= nfree s ->
  exists s' g', map_loop rec n p (3 - Z.of_nat d) i a (a + dl) (b - a) flags total s = Some (total + (c - a), s') /\
    mapped d C p a c dl (map_attribs flags) (cost a) s g s' g'.
Proof.
  revert s g i a total. induction n as [|n IH]; intros s g i a total Hw Hl Hd Ha Hadl Ha4 Hte HC Hi Hi5 Hn Ht Hc; [lia|].
  destruct (Z_lt_dec a c) as [Hac|Hac].
  2: { assert (c = a) as -> by lia. exists s, g. rewrite map_loop_done, Z.sub_diag, Z.add_0_r.
       - split; [done|]. apply mapped_refl; [done..|apply cost_nonneg].
       - destruct (Z_lt_dec a b) as [Hlt|]; [|lia]. rewrite (Hi Hlt). zcases; lia. }
  rewrite (proj2 (Z.ltb_lt _ _)) in Hi by lia. specialize (Hi ltac:(lia)). subst i. specialize (HC ltac:(lia)).
  destruct (entry_end_gt d a) as (Hgt & Hle & Hal). destruct (next_entry d C a HC) as (Hee & Hidx & HCn & HCm).
  pose proof (idx_range d a). pose proof (sz_pos d) as HS. cbn [map_loop].
  replace ((idx d a <? PTES_PER_PAGE) && (0 <? b - a)) with true
    by (symmetry; rewrite andb_true_iff, !Z.ltb_lt; change PTES_PER_PAGE with 512; lia).
  rewrite branch_test by (done || lia || by apply page_sub). rewrite !tt_size_sz by done.
  destruct ((a mod sz d =? 0) && (sz d <=? b - a)) eqn:Eb; cbn [negb].
  - bools. destruct (leaf_turn s g a) as (s1 & Hr & Hm1 & Hk); [done..|lia|lia|done|done|done|].
    run Hr. pose proof (entry_end_aligned d a ltac:(done)) as Hea.
    rewrite (proj2 (Z.ltb_ge _ _)), !u64_small by lia.
    destruct (IH s1 g (idx d a + 1) (entry_end d a) (total + sz d)) as (s2 & g2 & Hr2 & Hm2);
      [apply Hm1|apply Hm1|congruence|lia|lia|by apply (mod_sz_le 0 d); [lia|]|lia|done|done|lia|lia|lia|
       pose proof (m_free _ _ _ _ _ _ _ _ _ _ _ _ Hm1); lia|].
    exists s2, g2. rewrite Hea in *. split.
    + replace (a + dl + sz d) with (a + sz d + dl) by lia. replace (b - a - sz d) with (b - (a + sz d)) by lia.
      rewrite Hr2. f_equal. f_equal. lia.
    + eapply mapped_weaken; [|eapply mapped_trans; [|exact Hal|exact HC|exact HCm|exact Hm1|exact Hm2]]; lia.
  - assert (Hpart : ~ (a mod sz d = 0 /\ sz d <= b - a)).
    { intros [H1 H2]. rewrite H1, (proj2 (Z.leb_le _ _) H2) in Eb. done. }
    assert (Hd0 : d <> O).
    { intros E0. apply Hpart. rewrite E0. change (sz 0) with 4096. split; [done|].
      apply page_min; [lia|by apply page_sub]. }
    assert (E : d = S (pred d)) by lia.
    destruct (table_turn (pred d) s g a) as (q & s1 & s2 & g2 & Hr1 & Hr2 & Hm1 & Hk);
      [done..|lia|lia|done|done|done|done|].
    run Hr1. run Hr2. set (c1 := Z.min b (entry_end d a)) in *. pose proof (m_free _ _ _ _ _ _ _ _ _ _ _ _ Hm1).
    rewrite (proj2 (Z.ltb_ge _ _)), !u64_small by lia.
    replace (a + (c1 - a)) with c1 by lia. replace (a + dl + (c1 - a)) with (c1 + dl) by lia.
    replace (b - a - (c1 - a)) with (b - c1) by lia.
    destruct (Z_lt_dec (entry_end d a) b) as [Hlt|Hge].
    + assert (Ec1 : c1 = entry_end d a) by lia. rewrite Ec1 in *.
      destruct (IH s2 g2 (idx d a + 1) (entry_end d a) (total + (entry_end d a - a))) as (s3 & g3 & Hr3 & Hm3);
        [apply Hm1|apply Hm1|by rewrite (m_dep _ _ _ _ _ _ _ _ _ _ _ _ Hm1)|lia|lia|by apply (mod_sz_le 0 d); [lia|]|
         lia|done|done|lia|lia|lia|lia|].
      exists s3, g3. rewrite Hr3. split; [do 2 f_equal; lia|].
      eapply mapped_weaken; [|eapply mapped_trans; [|exact Hal|exact HC|exact HCm|exact Hm1|exact Hm3]]; lia.
    + assert (Ec1 : c1 = b) by lia. assert (Ec : c = b) by lia. rewrite Ec1, Ec in *.
      destruct n as [|n]; [lia|]. rewrite map_loop_done by lia. exists s2, g2. split; [done|].
      eapply mapped_weaken; [|exact Hm1]. pose proof (cost_nonneg b). lia.
Qed.
End loop.

(** ** The recursion *)

Lemma level_index d a :
  (d <= 2)%nat ->
  Z.land (Z.shiftr a (tt_shift (3 - Z.of_nat d))) (Z.shiftl 1 PAGE_INDEX_SIZE - 1) = idx d a.
Proof.
  intros Hd. change (Z.shiftl 1 PAGE_INDEX_SIZE - 1) with (2 ^ 9 - 1).
  rewrite land_mask, Z.shiftr_div_pow2, tt_shift_sz by (done || apply tt_shift_nonneg). done.
Qed.

Lemma map_level_step flags dl d rec :
  dl mod 2 ^ 30 = 0 -> (d <= 2)%nat -> (forall d', d = S d' -> level_spec flags dl d' rec) ->
  level_spec flags dl d (fun t l v pa m =>
    map_loop rec 513 t l (Z.land (Z.shiftr v (tt_shift l)) (Z.shiftl 1 PAGE_INDEX_SIZE - 1)) v pa m flags 0).
Proof.
  intros Hdl Hd Hrec s g p a m Hw Hl Hdp Ha Ha4 Hm Hm4 H39 Hadl H40 c Hc.
  pose proof (table_end_iff d (a / sz (S d)) a eq_refl) as Hte. pose proof (idx_range d a).
  assert (Hac : a < c) by lia.
  assert (Hcost : cost d (a / sz (S d)) (a + m) a = need d a c).
  { unfold cost. fold c. by rewrite (proj2 (Z.ltb_lt a c) Hac). }
  rewrite level_index by done.
  destruct (map_loop_ok flags dl d (a / sz (S d)) p (a + m) rec Hd Hrec Hdl (page_add _ _ Ha4 Hm4) H39 H40
              513 s g (idx d a) a 0) as (s' & g' & Hr & Hmap);
    try done; try lia.
  { intros _. by rewrite (proj2 (Z.ltb_lt a _)) by lia. }
  exists s', g'. rewrite Hcost in Hmap. split; [|exact Hmap].
  rewrite Z.add_0_l in Hr. replace (a + m - a) with m in Hr by lia. rewrite Hr. reflexivity.
Qed.

Lemma level_spec_ext flags dl d f f' :
  (forall t l v pa m, f' t l v pa m = f t l v pa m) -> level_spec flags dl d f -> level_spec flags dl d f'.
Proof. intros E Hf s g p a m. intros. rewrite E. by apply Hf. Qed.

Lemma map_level_unfold n t l v pa m flags :
  arm64_mmu_map_level (S n) t l v pa m flags =
  map_loop (fun t l v pa m => arm64_mmu_map_level n t l v pa m flags) 513 t l
    (Z.land (Z.shiftr v (tt_shift l)) (Z.shiftl 1 PAGE_INDEX_SIZE - 1)) v pa m flags 0.
Proof. reflexivity. Qed.

Lemma map_level_ok flags dl d :
  dl mod 2 ^ 30 = 0 -> (d <= 2)%nat ->
  level_spec flags dl d (fun t l v pa m => arm64_mmu_map_level (S d) t l v pa m flags).
Proof.
  intros Hdl. induction d as [|d IH]; intros Hd;
    (eapply level_spec_ext; [intros; apply map_level_unfold|]); apply map_level_step; try done.
  intros d' [= <-]. apply IH. lia.
Qed.

(** ** A mapping of the whole input space *)

Definition tables_ok (s : mmu) : Prop := exists g, wf s g.

(** What [arm64_mmu_map paddr vaddr size] is called with: page-aligned
    addresses that agree modulo the largest section, a size of whole pages, a
    range inside the translated space, and enough table pages left. *)
Definition map_args (s : mmu) (paddr vaddr size : Z) : Prop :=
  0 <= vaddr /\ vaddr mod 4096 = 0 /\ 0 < size /\ size mod 4096 = 0 /\ vaddr + size <= 2 ^ 39 /\
  0 <= paddr /\ paddr + size <= 2 ^ 40 /\ (paddr - vaddr) mod 2 ^ 30 = 0 /\
  need 2 vaddr (vaddr + size) <= nfree s.

(** The effect of a mapping on the tables. *)
Definition map_done (paddr vaddr size flags : Z) (s s' : mmu) : Prop :=
  tables_ok s' /\ tt_base s' = tt_base s /\
  nfree s - need 2 vaddr (vaddr + size) <= nfree s' /\
  (forall x, vaddr <= x < vaddr + size -> translate s' x = Some (paddr + (x - vaddr), map_attribs flags)) /\
  (forall x, 0 <= x < 2 ^ 39 -> ~ vaddr <= x < vaddr + size -> kept (translate s x) (translate s' x)).

Lemma translate_walk s g x : wf s g -> translate s x = walk 2 (pt s) (tt_base s) x.
Proof. intros Hw. unfold translate. destruct (wf_based _ _ Hw) as (_ & _ & _ & ->). done. Qed.

(** The maintenance log is not part of what the tables mean. *)
Lemma wf_log e s g : wf s g -> wf (log e s) g.
Proof. intros []. split; done. Qed.
Lemma map_done_log e paddr vaddr size flags s s' :
  map_done paddr vaddr size flags s s' -> map_done paddr vaddr size flags s (log e s').
Proof. intros ((g & Hw) & ? & ? & ? & ?). split_and!; try done. exists g. by apply wf_log. Qed.

Lemma arm64_mmu_map_run paddr vaddr size flags s :
  tables_ok s -> map_args s paddr vaddr size ->
  exists s', arm64_mmu_map paddr vaddr size flags s = Some (tt, s') /\ map_done paddr vaddr size flags s s'.
Proof.
  intros (g & Hw) (Hv & Hv4 & Hs & Hs4 & H39 & Hp & H40 & Hdl & Hn).
  set (s0 := log Enter_critical s). assert (Hw0 : wf s0 g) by by apply wf_log.
  assert (Hvz : vaddr / sz 3 = 0) by (apply space_block; lia).
  assert (Hc : Z.min (vaddr + size) (entry_end 3 vaddr) = vaddr + size).
  { rewrite Hvz. change (sz 3) with (2 ^ 39). lia. }
  destruct (map_level_ok flags (paddr - vaddr) 2 Hdl ltac:(done) s0 g (tt_base s) vaddr size)
    as (s1 & g1 & Hr & Hmap); try done; try lia; try apply Hw0.
  { by rewrite Hc. }
  rewrite Hc in Hmap, Hr. replace (vaddr + (paddr - vaddr)) with paddr in Hr by lia. rewrite Hvz in Hmap.
  exists (log Exit_critical (log Tlbi_all s1)). split.
  - unfold arm64_mmu_map. erewrite bind_some by done. erewrite bind_some; [done|].
    erewrite bind_some by done. exact Hr.
  - do 2 apply map_done_log. destruct Hmap as [Hw1 Hb1 _ _ _ Hin Hout _ _ Hfree]. split_and!; try done.
    + by exists g1.
    + intros x Hx. rewrite (translate_walk _ _ _ Hw1), Hb1. cbn [tt_base s0 log]. rewrite Hin by done.
      do 2 f_equal. lia.
    + intros x Hx Hn'. rewrite (translate_walk _ _ _ Hw1), (translate_walk _ _ _ Hw), Hb1.
      apply Hout; [by apply space_block|done].
Qed.
