(* ===== verification/MmuProps.v ===== *)
(** * Properties of the arm64 translation tables

    Mapping, start-up, the life of an uncached DMA buffer, and two defects:
    splitting a section loses its execute-never bit, and an exhausted page pool
    hands out a page that is in use. *)

From S2P Require Import Prelude Mmu MmuSpec MmuMap MmuLoop.
Local Open Scope lk_scope.

(** ** Registers are not touched by a mapping *)

Definition regs (s : mmu) : Z * Z * Z * Z := (sctlr s, mair s, tcr s, ttbr0 s).
Definition keeps {A} (c : M mmu A) : Prop := forall s a s', c s = Some (a, s') -> regs s' = regs s.

Lemma keeps_bind {A B} (c : M mmu A) (f : A -> M mmu B) :
  keeps c -> (forall a, keeps (f a)) -> keeps (bind c f).
Proof.
  intros Hc Hf s b s'. unfold bind. destruct (c s) as [[a s1]|] eqn:E; [|done].
  intros H. rewrite (Hf _ _ _ _ H). by apply Hc in E.
Qed.
Lemma keeps_ret {A} (a : A) : keeps (ret a).
Proof. by intros s ? ? [= <- <-]. Qed.
Lemma keeps_gets {A} (f : mmu -> A) : keeps (gets f).
Proof. by intros s ? ? [= <- <-]. Qed.
Lemma keeps_emit e : keeps (emit e).
Proof. by intros s ? ? [= <- <-]. Qed.
Lemma keeps_panic {A} : keeps (panic (A := A)).
Proof. done. Qed.
Lemma keeps_assert b : keeps (assert_ b).
Proof. destruct b; [apply keeps_ret|apply keeps_panic]. Qed.
Lemma keeps_modify f : (forall s, regs (f s) = regs s) -> keeps (modify f).
Proof. intros Hf s ? ? [= <- <-]. apply Hf. Qed.
Lemma keeps_tt_get t i : keeps (tt_get t i).
Proof. intros s ? ?. unfold tt_get, getopt. case_if; [|done]. by intros [= <- <-]. Qed.
Lemma keeps_tt_set t i v : keeps (tt_set t i v).
Proof. intros s ? ?. unfold tt_set. case_if; [|done]. by intros [= <- <-]. Qed.

Create HintDb keeps.
#[local] Hint Resolve keeps_ret keeps_gets keeps_emit keeps_panic keeps_assert keeps_tt_get keeps_tt_set : keeps.
#[local] Hint Extern 2 (keeps (modify _)) => apply keeps_modify; done : keeps.
#[local] Hint Extern 2 (keeps (bind _ _)) => apply keeps_bind; intros : keeps.
#[local] Hint Extern 2 (keeps (if ?b then _ else _)) => destruct b : keeps.
#[local] Hint Extern 2 (keeps (let _ := _ in _)) => cbv zeta : keeps.

Lemma keeps_allocate : keeps allocate_tt_page.
Proof.
  unfold allocate_tt_page. assert (H : forall n i, keeps (allocate_scan n i)); [|eauto with keeps].
  induction n as [|n IH]; intros i; cbn [allocate_scan]; eauto 10 with keeps.
Qed.
Lemma keeps_fill t l e : keeps (fill_tt t l e).
Proof.
  unfold fill_tt. assert (H : forall n i a, keeps (fill_loop n t l i a e)); [|eauto with keeps].
  induction n as [|n IH]; intros i a; cbn [fill_loop]; eauto 10 with keeps.
Qed.
#[local] Hint Resolve keeps_allocate keeps_fill : keeps.

Lemma keeps_next t l i : keeps (map_next_tt t l i).
Proof. unfold map_next_tt. eauto 20 with keeps. Qed.
Lemma keeps_leaf t l i v a f : keeps (map_leaf t l i v a f).
Proof. unfold map_leaf, free_tt_page. eauto 30 with keeps. Qed.
#[local] Hint Resolve keeps_next keeps_leaf : keeps.

Lemma keeps_loop rec n t l i v a m f total :
  (forall t l v a m, keeps (rec t l v a m)) -> keeps (map_loop rec n t l i v a m f total).
Proof.
  intros Hr. revert i v a m total. induction n as [|n IH]; intros; cbn [map_loop]; eauto 20 with keeps.
Qed.
Lemma keeps_level n t l v a m f : keeps (arm64_mmu_map_level n t l v a m f).
Proof.
  revert t l v a m. induction n as [|n IH]; intros; cbn [arm64_mmu_map_level]; [apply keeps_panic|].
  apply keeps_loop. intros. apply IH.
Qed.
Lemma keeps_map pa v m f : keeps (arm64_mmu_map pa v m f).
Proof. unfold arm64_mmu_map, arm64_invalidate_tlb. eauto using keeps_level with keeps. Qed.

(** ** Consequences of a mapping *)

Lemma need_le a c : need 2 a c <= 4.
Proof. unfold need. cbn [ends]. repeat case_if; lia. Qed.

(** The attributes of a read-write mapping. *)
Abbreviation RW := (MMU_FLAG_READWRITE).
Abbreviation CACHED_RW := (Z.lor MMU_FLAG_CACHED MMU_FLAG_READWRITE).

(** ** Start-up *)

(** The linker's placement of the table array, and the initial bitmap. *)
Definition boot_state (s : mmu) : Prop :=
  0 < tt_base s /\ tt_base s mod 4096 = 0 /\ tt_base s + 32 * 4096 <= 2 ^ 40 /\
  free_page_table_bitmap s = 2 ^ 32 - 1.

(** Only the root is in use, and it is empty. *)
Definition root_only (s : mmu) : mmu :=
  set_pt (clear (pt s) (tt_base s) 4096) (set_bitmap (2 ^ 32 - 2) s).

Lemma root_bits i : 0 <= i < 32 -> Z.testbit (2 ^ 32 - 2) i = negb (i =? 0).
Proof.
  intros Hi. assert (In (Z.to_nat i) (seq 0 32)) as Hin by (apply in_seq; lia).
  replace i with (Z.of_nat (Z.to_nat i)) by lia.
  simpl in Hin. repeat (destruct Hin as [<-|Hin]; [done|]). done.
Qed.

Lemma root_only_wf s :
  0 < tt_base s -> tt_base s mod 4096 = 0 -> tt_base s + 32 * 4096 <= 2 ^ 40 -> ttbr0 s = tt_base s ->
  wf (root_only s) {| dep := fun _ => 2%nat; own := fun _ => (0, 0) |}.
Proof.
  intros H1 H2 H3 H4.
  assert (Hroot : forall p, live (root_only s) p -> p = tt_base s).
  { intros p (i & Hi & -> & Hb). unfold page_of. cbn in *.
    rewrite root_bits in Hb by done. destruct (Z.eqb_spec i 0) as [->|]; [lia|done]. }
  split; try done.
  - exists 0. split_and!; [lia..|unfold page_of; cbn; lia|done].
  - intros p i Hp Hi. left. apply Hroot in Hp as ->. unfold root_only, clear. cbn.
    rewrite (proj2 (Z.leb_le _ _)), (proj2 (Z.ltb_lt _ _)) by lia. done.
Qed.

Lemma root_only_empty s x : ttbr0 s = tt_base s -> translate (root_only s) x = None.
Proof.
  intros H. unfold translate. cbn [ttbr0 root_only set_pt set_bitmap]. rewrite H.
  apply walk_invalid; [done|]. pose proof (idx_range 2 x). unfold root_only, clear. cbn [pt set_pt].
  rewrite (proj2 (Z.leb_le _ _)), (proj2 (Z.ltb_lt _ _)) by lia. done.
Qed.

Abbreviation carveout b := (carveout_cpubl b (arm64_init_boot_param b)).

Lemma init_prefix b s :
  free_page_table_bitmap s = 2 ^ 32 - 1 ->
  arm64_mmu_init b s =
    bind (arm64_mmu_map (fst (carveout b)) (fst (carveout b)) (snd (carveout b)) CACHED_RW)
      (fun _ => modify (fun s => set_sctlr (Z.lor (Z.lor (Z.lor (sctlr s) SCTLR_M) SCTLR_I) SCTLR_C) s))
      (root_only (set_regs MAIR_VALUE TCR_VALUE (tt_base s) (set_sctlr 0x30D00800 s))).
Proof. destruct s. cbn. intros ->. reflexivity. Qed.

Lemma init_map_args s a m :
  0 <= a -> a mod 4096 = 0 -> 0 < m -> m mod 4096 = 0 -> a + m <= 2 ^ 39 -> map_args (root_only s) a a m.
Proof.
  intros. pose proof (need_le a (a + m)). unfold map_args. rewrite Z.sub_diag.
  change (nfree (root_only s)) with 31.
  split_and!; try done; lia.
Qed.

(** ** Uncached buffers *)

(** What [at s1e2r] reports: bit 0 for a fault, otherwise the page. *)
Definition at_law (par : mmu -> Z -> Z) : Prop :=
  forall s va, match translate s va with
    | None => Z.land (par s va) 1 <> 0
    | Some (pa, _) => Z.land (par s va) 1 = 0 /\ Z.land (par s va) 0xFFFFFFFFF000 = pa - pa mod 4096
    end.

Lemma land_apart x a y b : Z.land a b = 0 -> Z.land (Z.land x a) (Z.land y b) = 0.
Proof.
  intros H. apply Z.bits_inj'. intros j _. rewrite !Z.land_spec, Z.bits_0.
  assert (Z.testbit (Z.land a b) j = false) as E by by rewrite H, Z.bits_0.
  rewrite Z.land_spec in E. by destruct (Z.testbit x j), (Z.testbit y j), (Z.testbit a j), (Z.testbit b j).
Qed.

Lemma dma_va_to_pa_run par va s pa t :
  at_law par -> translate s va = Some (pa, t) -> pa mod 4096 = va mod 4096 ->
  tegrabl_dma_va_to_pa par va s = Some (pa, s).
Proof.
  intros Hlaw Ht Hm. pose proof (Hlaw s va) as H. rewrite Ht in H. destruct H as [H0 H1].
  unfold tegrabl_dma_va_to_pa, bind, gets, ret. rewrite (proj2 (has_false _ _) H0).
  rewrite <- Z.add_nocarry_lor.
  - rewrite H1. change 0xFFF with (2 ^ 12 - 1). rewrite land_mask by lia. change (2 ^ 12) with 4096.
    do 2 f_equal. lia.
  - by apply land_apart.
Qed.

(** The size a caller of [malloc_uncached] gets. *)
Lemma round_page_spec x :
  0 <= x < 2 ^ 63 -> x <= round_page x < x + 4096 /\ round_page x mod 4096 = 0.
Proof.
  intros Hx. unfold round_page, u64, PAGE_SIZE.
  replace (x + 4096 - 1) with (x + 4095) by lia. rewrite (Z.mod_small (x + 4095)) by lia.
  change (4096 - 1) with (2 ^ 12 - 1). rewrite land_high_mask by lia. change (2 ^ 12) with 4096. split; zdm.
Qed.

(** ** An exhausted pool *)

Lemma count_bits_drop n b b' i :
  0 <= i < Z.of_nat n -> Z.testbit b i = true -> Z.testbit b' i = false ->
  (forall j, 0 <= j < Z.of_nat n -> Z.testbit b' j = true -> Z.testbit b j = true) ->
  count_bits n b' + 1 <= count_bits n b.
Proof.
  induction n as [|n IH]; intros Hi Hb Hb' H; simpl; [lia|].
  destruct (Z.eq_dec (Z.of_nat n) i) as [E|Hne].
  - assert (count_bits n b' <= count_bits n b) by (apply count_bits_mono; intros; apply H; lia || done).
    rewrite E, Hb, Hb'. lia.
  - assert (count_bits n b' + 1 <= count_bits n b) by (apply IH; try done; [lia|intros; apply H; lia || done]).
    destruct (Z.testbit b' (Z.of_nat n)) eqn:E; [rewrite H by (lia || done)|]; repeat case_if; lia.
Qed.

Lemma count_bits_none n b i : count_bits n b <= 0 -> 0 <= i < Z.of_nat n -> Z.testbit b i = false.
Proof.
  assert (Hpos : forall n, 0 <= count_bits n b) by (induction n0; simpl; [lia|case_if; lia]).
  induction n as [|n IH]; simpl; intros H Hi; [lia|]. specialize (Hpos n).
  destruct (Z.testbit b (Z.of_nat n)) eqn:E; [lia|].
  destruct (Z.eq_dec i (Z.of_nat n)) as [->|]; [done|]. apply IH; lia.
Qed.

(** ** The claims *)

(** C12: [arm64_mmu_map] on a well-formed table tree, with enough pages left for
    the ends of the range, returns without a panic and leaves a well-formed
    tree in which the hardware's table walk sends every address of the range
    to [paddr] plus its offset with exactly the requested attributes, whatever
    mix of invalid entries, pages, sections and sub-tables the range covered
    before, and every other address to where it went before (a section that
    had to be split may have lost its execute-never bit). *)
Theorem arm64_mmu_map_spec s paddr vaddr size flags :
  tables_ok s -> map_args s paddr vaddr size ->
  exists s', arm64_mmu_map paddr vaddr size flags s = Some (tt, s') /\
    tables_ok s' /\
    nfree s - need 2 vaddr (vaddr + size) <= nfree s' /\
    (forall x, vaddr <= x < vaddr + size ->
       translate s' x = Some (paddr + (x - vaddr), map_attribs flags)) /\
    (forall x, 0 <= x < 2 ^ 39 -> ~ vaddr <= x < vaddr + size -> kept (translate s x) (translate s' x)).
Proof.
  intros Hs Ha. destruct (arm64_mmu_map_run paddr vaddr size flags s Hs Ha) as (s' & Hr & ? & _ & ? & ? & ?). eauto 8.
Qed.

(** C33: From any contents of the table array, [arm64_mmu_init] turns the MMU and
    the caches on over a tree that translates the bootloader's carveout to
    itself, cached and read-write, and nothing else. *)
Theorem arm64_mmu_init_spec b s :
  boot_state s ->
  0 <= fst (carveout b) -> fst (carveout b) mod 4096 = 0 ->
  0 < snd (carveout b) -> snd (carveout b) mod 4096 = 0 -> fst (carveout b) + snd (carveout b) <= 2 ^ 39 ->
  exists s', arm64_mmu_init b s = Some (tt, s') /\ tables_ok s' /\
    regs s' = (0x30D01805, 0xFF884400, 0x822519, tt_base s) /\
    forall x, 0 <= x < 2 ^ 39 ->
      translate s' x =
        if (fst (carveout b) <=? x) && (x <? fst (carveout b) + snd (carveout b))
        then Some (x, map_attribs CACHED_RW) else None.
Proof.
  intros (H1 & H2 & H3 & Hbit) Ha Ha4 Hm Hm4 H39. rewrite init_prefix by done.
  set (s0 := root_only _).
  destruct (arm64_mmu_map_run (fst (carveout b)) (fst (carveout b)) (snd (carveout b)) CACHED_RW s0)
    as (s1 & Hr & (g & Hw) & _ & _ & Hin & Hout).
  { eexists. by apply root_only_wf. }
  { by apply init_map_args. }
  pose proof (keeps_map _ _ _ _ _ _ _ Hr) as Hregs. run Hr. eexists. split; [done|]. split_and!.
  - exists g. destruct Hw. by split.
  - unfold regs in *. cbn in Hregs. injection Hregs as E1 E2 E3 E4. cbn. by rewrite E1, E2, E3, E4.
  - intros x Hx. change (translate _ x) with (translate s1 x).
    destruct (_ && _) eqn:E; bools; [rewrite Hin by lia; do 2 f_equal; lia|].
    destruct (Hout x Hx) as [-> | ->]; [lia|..]; unfold s0; by rewrite root_only_empty.
Qed.

(** The life of a DMA buffer.  [malloc_uncached] returns the allocator's
    block with its size rounded up to whole pages; inside it the CPU then uses
    normal uncached memory and [tegrabl_dma_map_buffer] gives the device the
    address of every byte.  [free_uncached] makes the block cached again, and a
    block that was cached read-write before is translated as it was; the rest of
    the address space is translated as before all along. *)
Theorem malloc_uncached_roundtrip memalign par to_device size s :
  tables_ok s -> at_law par -> 0 < size < 2 ^ 38 ->
  let m := round_page size in
  let p := memalign 4096 m in
  0 < p -> p mod 4096 = 0 -> p + m <= 2 ^ 39 -> 2 * need 2 p (p + m) <= nfree s ->
  exists s1 s2,
    malloc_uncached memalign size true s = Some ((p, Some m), s1) /\
    (forall x, p <= x < p + m -> translate s1 x = Some (x, map_attribs RW) /\
       forall n dir, exists s', tegrabl_dma_map_buffer par to_device x n dir s1 = Some (x, s')) /\
    free_uncached p m s1 = Some (tt, s2) /\ tables_ok s2 /\
    forall x, 0 <= x < 2 ^ 39 ->
      if (p <=? x) && (x <? p + m) then translate s2 x = Some (x, map_attribs CACHED_RW)
      else kept (translate s x) (translate s1 x) /\ kept (translate s x) (translate s2 x).
Proof.
  intros Hs Hpar Hsz m p Hp Hp4 Hpm Hn. destruct (round_page_spec size) as [Hm Hm4]; [lia|]. fold m in Hm, Hm4.
  assert (0 <= need 2 p (p + m)) by (unfold need; pose proof (ends_nonneg 2 p); pose proof (ends_nonneg 2 (p + m)); lia).
  assert (Hargs : forall s', need 2 p (p + m) <= nfree s' -> map_args s' p p m).
  { intros s' Hs'. unfold map_args. rewrite Z.sub_diag. split_and!; try done; lia. }
  destruct (arm64_mmu_map_run p p m RW s Hs) as (s1 & Hr1 & Hs1 & _ & Hf1 & Hin1 & Hout1); [apply Hargs; lia|].
  destruct (arm64_mmu_map_run p p m CACHED_RW s1 Hs1) as (s2 & Hr2 & Hs2 & _ & _ & Hin2 & Hout2); [apply Hargs; lia|].
  assert (Htr : forall x, p <= x < p + m -> translate s1 x = Some (x, map_attribs RW)).
  { intros x Hx. rewrite Hin1 by done. do 2 f_equal. lia. }
  exists s1, s2. split_and!; try done.
  - unfold malloc_uncached. cbn [negb]. change PAGE_SIZE with 4096. fold m p.
    rewrite (proj2 (Z.eqb_neq p 0)) by lia. unfold arch_map_uncached. run Hr1. done.
  - intros x Hx. split; [by apply Htr|]. intros n dir. unfold tegrabl_dma_map_buffer.
    assert (Hd : forall e, tegrabl_dma_va_to_pa par x (log e s1) = Some (x, log e s1)).
    { intros e. eapply dma_va_to_pa_run; [done| |done]. by apply Htr. }
    case_if; eexists; (erewrite bind_some by done); apply Hd.
  - intros x Hx. destruct (_ && _) eqn:E; bools; [rewrite Hin2 by lia; do 2 f_equal; lia|].
    split; [apply Hout1; [done|lia]|]. eapply kept_trans; [apply Hout1|apply Hout2]; done || lia.
Qed.

(** Splitting a section loses its execute-never bit.  When the entry of a
    level 1 or level 2 table is a section and a smaller mapping has to be made
    inside it, every address of the section is afterwards translated to the
    same place with the same attributes except that XN is clear, because
    [PTE_ATTRIBS_MASK] stops at bit 53. *)
Theorem split_drops_xn s g p d i :
  wf s g -> live s p -> dep g p = S d -> 0 <= i < 512 -> 1 <= nfree s ->
  Z.land (pt s (p + 8 * i)) 1 <> 0 -> Z.land (pt s (p + 8 * i)) 2 = 0 ->
  exists q s1, map_next_tt p (3 - Z.of_nat (S d)) i s = Some (q, s1) /\
    forall x pa t, idx (S d) x = i -> walk (S d) (pt s) p x = Some (pa, t) ->
      walk (S d) (pt s1) p x = Some (pa, Z.ldiff t PTE_XN).
Proof.
  intros Hw Hl Hd Hi Hn H1 H2. pose proof (wf_dep _ _ Hw _ Hl).
  assert (Hleaf : leaf_ok (S d) (pt s (p + 8 * i))).
  { destruct (entry_cases _ _ p i Hw Hl Hi) as [?|[[_ H3]|(_ & ? & _)]]; [done|by rewrite Hd in H3|done]. }
  destruct (map_next_split d p i s g) as (q & s1 & g1 & Hr & Hnext & Hwalk); [done..|].
  exists q, s1. split; [done|]. intros x pa t Hx Ht.
  rewrite (walk_table d _ p x q).
  - rewrite Hwalk, Ht by done. cbn. do 2 f_equal.
    rewrite walk_leaf in Ht by (rewrite ?Hx; lia || done). injection Ht as _ <-.
    rewrite Z.ldiff_land, <- !Z.land_assoc. done.
  - lia.
  - rewrite Hx. apply Hnext.
  - apply (live_oa s1); [apply (wf_based _ _ (n_wf _ _ _ _ _ _ _ _ Hnext))|apply Hnext].
Qed.

(** An exhausted page pool goes unnoticed.  After the last free page has been
    allocated, the next allocation returns that same page again, not null: the
    static variable still holds it, so the assertion of the caller passes and
    a table in use is hooked in, unchanged, a second time. *)
Theorem allocate_tt_page_exhausted s :
  based s -> nfree s = 1 ->
  exists q s1, allocate_tt_page s = Some (q, s1) /\ q <> 0 /\ live s1 q /\ nfree s1 <= 0 /\
    allocate_tt_page s1 = Some (q, s1).
Proof.
  intros Hb Hn. destruct (allocate_tt_page_run s) as (k & Hk & Hfree & Hal); [lia|].
  assert (Hbit : forall j, 0 <= j < 32 -> Z.testbit (free_page_table_bitmap (taken s k)) j =
    Z.testbit (free_page_table_bitmap s) j && negb (j =? k)) by (intros; apply testbit_clear; lia).
  assert (Hzero : nfree (taken s k) <= 0).
  { assert (nfree (taken s k) + 1 <= nfree s); [|lia].
    apply (count_bits_drop _ _ _ k); [lia|done| |].
    - rewrite Hbit, Z.eqb_refl by lia. apply andb_false_r.
    - intros j Hj Ht. rewrite Hbit in Ht by lia. by apply andb_true_iff in Ht as [? _]. }
  exists (page_of s k), (taken s k). split_and!; try done.
  - apply Z.eqb_neq, page_nonzero; [done|lia].
  - exists k. split_and!; [lia..|done|]. rewrite Hbit, Z.eqb_refl by lia. apply andb_false_r.
  - unfold allocate_tt_page. rewrite (bind_some _ _ _ tt (taken s k)); [done|]. apply allocate_scan_full; [lia|].
    intros j Hj. by apply (count_bits_none 32).
Qed.

(** ** Witnesses *)

Definition demo_mmu : mmu :=
  {| tt_base := 0x80000000; pt := fun _ => 77; free_page_table_bitmap := 2 ^ 32 - 1; result := 0;
     sctlr := 0; mair := 0; tcr := 0; ttbr0 := 0x80000000; events := [] |}.
Definition demo_boot : boot_env :=
  {| scratch7 := 0x96000; emem_base := 0x80000000; page_size_log2 := 12;
     carveout_cpubl := fun p => (p + 0x600000, 0x601000) |}.
Definition demo_ghost : ghost := {| dep := fun _ => 2%nat; own := fun _ => (0, 0) |}.

(** A root whose first entry is a 1 GB execute-never section. *)
Definition demo_xn : mmu :=
  set_pt (upd (clear (pt demo_mmu) 0x80000000 4096) 0x80000000
            (leaf_pte 1 0 (Z.lor CACHED_RW MMU_FLAG_EXECUTE_NOT)))
    (set_bitmap (2 ^ 32 - 2) demo_mmu).

Definition demo_par (s : mmu) (va : Z) : Z :=
  match translate s va with None => 1 | Some (pa, _) => Z.land pa 0xFFFFFFFFF000 end.

Lemma demo_root_ok : tables_ok (root_only demo_mmu).
Proof. exists demo_ghost. by apply root_only_wf. Qed.

Lemma walk_range d f t x pa a : (d <= 2)%nat -> walk d f t x = Some (pa, a) -> 0 <= pa < 2 ^ 48.
Proof.
  revert t. induction d as [|d IH]; intros t Hd; rewrite walk_unfold by lia; cbv zeta;
    set (e := f _); pose proof (oa_range e);
    destruct (Z.land e 1 =? 0); [done| |done|]; (destruct (Z.land e 2 =? 0); [try done|]).
  - intros [= <- _]. pose proof (Z.mod_pos_bound x (sz 0) ltac:(done)). change (sz 0) with 4096 in *. lia.
  - pose proof (sz_pos (S d)) as HS. assert (sz (S d) <= 2 ^ 30) by (destruct d as [|[|]]; [done..|lia]).
    pose proof (Z.mod_pos_bound x _ HS). pose proof (Z.mod_le (oa e) (sz (S d)) ltac:(lia) HS).
    pose proof (Z.mod_pos_bound (oa e) _ HS). intros [= <- _]. lia.
  - apply IH. lia.
Qed.

Lemma demo_par_ok : at_law demo_par.
Proof.
  intros s va. unfold demo_par. destruct (translate s va) as [[pa t]|] eqn:E; [|done].
  apply walk_range in E; [|lia]. split; rewrite <- Z.land_assoc; [apply Z.land_0_r|].
  change (Z.land 0xFFFFFFFFF000 0xFFFFFFFFF000) with (Z.lnot (2 ^ 12 - 1) mod 2 ^ 48).
  rewrite land_high_mask by lia. done.
Qed.

Lemma arm64_mmu_map_spec_witness :
  exists s', arm64_mmu_map 0x80201000 0x40201000 0x3fe00000 0 (root_only demo_mmu) = Some (tt, s') /\
    translate s' 0x40300123 = Some (0x80300123, 0x684).
Proof.
  destruct (arm64_mmu_map_spec (root_only demo_mmu) 0x80201000 0x40201000 0x3fe00000 0) as (s' & Hr & _ & _ & Hin & _).
  - exact demo_root_ok.
  - unfold map_args. split_and!; (reflexivity || (vm_compute; congruence)).
  - exists s'. split; [exact Hr|]. rewrite Hin by lia. reflexivity.
Defined.

Lemma arm64_mmu_init_spec_witness :
  exists s', arm64_mmu_init demo_boot demo_mmu = Some (tt, s') /\
    translate s' 0x96601004 = Some (0x96601004, 0x60C) /\ translate s' 0x96c01000 = None.
Proof.
  destruct (arm64_mmu_init_spec demo_boot demo_mmu) as (s' & Hr & _ & _ & Htr);
    [repeat split; (reflexivity || (vm_compute; congruence))|vm_compute; congruence|reflexivity..|
     vm_compute; congruence|].
  exists s'. split; [exact Hr|]. split; rewrite Htr by lia; reflexivity.
Defined.

Lemma malloc_uncached_roundtrip_witness :
  exists s1 s2, malloc_uncached (fun _ _ => 0x40000000) 10000 true (root_only demo_mmu) = Some ((0x40000000, Some 12288), s1) /\
    free_uncached 0x40000000 12288 s1 = Some (tt, s2).
Proof.
  destruct (malloc_uncached_roundtrip (fun _ _ => 0x40000000) demo_par 1 10000 (root_only demo_mmu))
    as (s1 & s2 & Hr1 & _ & Hr2 & _);
    [exact demo_root_ok|exact demo_par_ok|lia|lia|reflexivity|vm_compute; congruence|vm_compute; congruence|].
  exists s1, s2. split; [exact Hr1|exact Hr2].
Defined.

Lemma demo_xn_wf : wf demo_xn demo_ghost.
Proof.
  assert (Hroot : forall p, live demo_xn p -> p = 0x80000000).
  { intros p (i & Hi & -> & Hb). unfold page_of. cbn [tt_base demo_xn demo_mmu set_pt set_bitmap] in *.
    cbn [free_page_table_bitmap demo_xn set_pt set_bitmap] in Hb.
    rewrite root_bits in Hb by done. destruct (Z.eqb_spec i 0) as [->|]; [lia|done]. }
  split; try done.
  - exists 0. split_and!; done.
  - intros p i Hp Hi. apply Hroot in Hp as ->. unfold entry_ok. cbn [dep demo_ghost].
    unfold demo_xn. cbn [pt set_pt]. unfold upd, clear.
    destruct (Z.eqb_spec (0x80000000 + 8 * i) 0x80000000); [right; left; split_and!; done|left].
    rewrite (proj2 (Z.leb_le _ _)), (proj2 (Z.ltb_lt _ _)) by lia. done.
Qed.

Lemma split_drops_xn_witness :
  exists q s1, map_next_tt 0x80000000 1 0 demo_xn = Some (q, s1) /\
    walk 2 (pt demo_xn) 0x80000000 0x5678 = Some (0x5678, 0x6000000000060C) /\
    walk 2 (pt s1) 0x80000000 0x5678 = Some (0x5678, 0x2000000000060C).
Proof.
  destruct (split_drops_xn demo_xn demo_ghost 0x80000000 1 0) as (q & s1 & Hr & Hx);
    [exact demo_xn_wf|apply (wf_root _ _ demo_xn_wf)|reflexivity|lia|vm_compute; congruence|vm_compute; congruence|reflexivity|].
  exists q, s1. split; [exact Hr|]. split; [reflexivity|].
  apply (Hx 0x5678 0x5678 0x6000000000060C); reflexivity.
Defined.

Lemma allocate_tt_page_exhausted_witness :
  exists q s1, allocate_tt_page (set_bitmap 4 demo_mmu) = Some (q, s1) /\ allocate_tt_page s1 = Some (q, s1).
Proof.
  destruct (allocate_tt_page_exhausted (set_bitmap 4 demo_mmu)) as (q & s1 & H1 & _ & _ & _ & H2);
    [repeat split; (reflexivity || (vm_compute; congruence))|reflexivity|].
  exists q, s1. split; [exact H1|exact H2].
Defined.
