(* ===== verification/Cksum.v ===== *)
(** * Checksums: lib/cksum

    [crc32] and [crc32_combine] of crc32.c with the table of crc32.h, and
    [adler32] and [adler32_combine] of adler32.c, in the configuration of
    zutil.h: one table, one byte at a time, division in hardware, [uLong] of 64
    bits.  A buffer is the list of its bytes, [None] for a null pointer; reading
    past its end is [None]. *)

From S2P Require Import Prelude.

(** ** CRC-32 *)

Definition crc_table : list Z :=
  [0x00000000; 0x77073096; 0xee0e612c; 0x990951ba; 0x076dc419; 0x706af48f; 0xe963a535;
   0x9e6495a3; 0x0edb8832; 0x79dcb8a4; 0xe0d5e91e; 0x97d2d988; 0x09b64c2b; 0x7eb17cbd;
   0xe7b82d07; 0x90bf1d91; 0x1db71064; 0x6ab020f2; 0xf3b97148; 0x84be41de; 0x1adad47d;
   0x6ddde4eb; 0xf4d4b551; 0x83d385c7; 0x136c9856; 0x646ba8c0; 0xfd62f97a; 0x8a65c9ec;
   0x14015c4f; 0x63066cd9; 0xfa0f3d63; 0x8d080df5; 0x3b6e20c8; 0x4c69105e; 0xd56041e4;
   0xa2677172; 0x3c03e4d1; 0x4b04d447; 0xd20d85fd; 0xa50ab56b; 0x35b5a8fa; 0x42b2986c;
   0xdbbbc9d6; 0xacbcf940; 0x32d86ce3; 0x45df5c75; 0xdcd60dcf; 0xabd13d59; 0x26d930ac;
   0x51de003a; 0xc8d75180; 0xbfd06116; 0x21b4f4b5; 0x56b3c423; 0xcfba9599; 0xb8bda50f;
   0x2802b89e; 0x5f058808; 0xc60cd9b2; 0xb10be924; 0x2f6f7c87; 0x58684c11; 0xc1611dab;
   0xb6662d3d; 0x76dc4190; 0x01db7106; 0x98d220bc; 0xefd5102a; 0x71b18589; 0x06b6b51f;
   0x9fbfe4a5; 0xe8b8d433; 0x7807c9a2; 0x0f00f934; 0x9609a88e; 0xe10e9818; 0x7f6a0dbb;
   0x086d3d2d; 0x91646c97; 0xe6635c01; 0x6b6b51f4; 0x1c6c6162; 0x856530d8; 0xf262004e;
   0x6c0695ed; 0x1b01a57b; 0x8208f4c1; 0xf50fc457; 0x65b0d9c6; 0x12b7e950; 0x8bbeb8ea;
   0xfcb9887c; 0x62dd1ddf; 0x15da2d49; 0x8cd37cf3; 0xfbd44c65; 0x4db26158; 0x3ab551ce;
   0xa3bc0074; 0xd4bb30e2; 0x4adfa541; 0x3dd895d7; 0xa4d1c46d; 0xd3d6f4fb; 0x4369e96a;
   0x346ed9fc; 0xad678846; 0xda60b8d0; 0x44042d73; 0x33031de5; 0xaa0a4c5f; 0xdd0d7cc9;
   0x5005713c; 0x270241aa; 0xbe0b1010; 0xc90c2086; 0x5768b525; 0x206f85b3; 0xb966d409;
   0xce61e49f; 0x5edef90e; 0x29d9c998; 0xb0d09822; 0xc7d7a8b4; 0x59b33d17; 0x2eb40d81;
   0xb7bd5c3b; 0xc0ba6cad; 0xedb88320; 0x9abfb3b6; 0x03b6e20c; 0x74b1d29a; 0xead54739;
   0x9dd277af; 0x04db2615; 0x73dc1683; 0xe3630b12; 0x94643b84; 0x0d6d6a3e; 0x7a6a5aa8;
   0xe40ecf0b; 0x9309ff9d; 0x0a00ae27; 0x7d079eb1; 0xf00f9344; 0x8708a3d2; 0x1e01f268;
   0x6906c2fe; 0xf762575d; 0x806567cb; 0x196c3671; 0x6e6b06e7; 0xfed41b76; 0x89d32be0;
   0x10da7a5a; 0x67dd4acc; 0xf9b9df6f; 0x8ebeeff9; 0x17b7be43; 0x60b08ed5; 0xd6d6a3e8;
   0xa1d1937e; 0x38d8c2c4; 0x4fdff252; 0xd1bb67f1; 0xa6bc5767; 0x3fb506dd; 0x48b2364b;
   0xd80d2bda; 0xaf0a1b4c; 0x36034af6; 0x41047a60; 0xdf60efc3; 0xa867df55; 0x316e8eef;
   0x4669be79; 0xcb61b38c; 0xbc66831a; 0x256fd2a0; 0x5268e236; 0xcc0c7795; 0xbb0b4703;
   0x220216b9; 0x5505262f; 0xc5ba3bbe; 0xb2bd0b28; 0x2bb45a92; 0x5cb36a04; 0xc2d7ffa7;
   0xb5d0cf31; 0x2cd99e8b; 0x5bdeae1d; 0x9b64c2b0; 0xec63f226; 0x756aa39c; 0x026d930a;
   0x9c0906a9; 0xeb0e363f; 0x72076785; 0x05005713; 0x95bf4a82; 0xe2b87a14; 0x7bb12bae;
   0x0cb61b38; 0x92d28e9b; 0xe5d5be0d; 0x7cdcefb7; 0x0bdbdf21; 0x86d3d2d4; 0xf1d4e242;
   0x68ddb3f8; 0x1fda836e; 0x81be16cd; 0xf6b9265b; 0x6fb077e1; 0x18b74777; 0x88085ae6;
   0xff0f6a70; 0x66063bca; 0x11010b5c; 0x8f659eff; 0xf862ae69; 0x616bffd3; 0x166ccf45;
   0xa00ae278; 0xd70dd2ee; 0x4e048354; 0x3903b3c2; 0xa7672661; 0xd06016f7; 0x4969474d;
   0x3e6e77db; 0xaed16a4a; 0xd9d65adc; 0x40df0b66; 0x37d83bf0; 0xa9bcae53; 0xdebb9ec5;
   0x47b2cf7f; 0x30b5ffe9; 0xbdbdf21c; 0xcabac28a; 0x53b39330; 0x24b4a3a6; 0xbad03605;
   0xcdd70693; 0x54de5729; 0x23d967bf; 0xb3667a2e; 0xc4614ab8; 0x5d681b02; 0x2a6f2b94;
   0xb40bbe37; 0xc30c8ea1; 0x5a05df1b; 0x2d02ef8d].

Definition crc_entry (i : Z) : Z := nth (Z.to_nat i) crc_table 0.

(** One byte; the running state is the register and the rest of the buffer. *)
Definition crc_do1 (st : Z * list Z) : option (Z * list Z) :=
  match st with
  | (_, []) => None
  | (crc, b :: buf) => Some (Z.lxor (crc_entry (Z.land (Z.lxor (s32 crc) b) 0xff)) (Z.shiftr crc 8), buf)
  end.

Definition crc_do8 (st : Z * list Z) : option (Z * list Z) :=
  Nat.iter 8 (mbind crc_do1) (Some st).

(** [while (len >= 8)], then [do ... while (--len)]. *)
Fixpoint crc_loop8 (n : nat) (st : Z * list Z) (len : Z) : option (Z * list Z * Z) :=
  match n with
  | O => None
  | S n' => if 8 <=? len then crc_do8 st ≫= fun st' => crc_loop8 n' st' (len - 8) else Some (st, len)
  end.
Fixpoint crc_loop1 (n : nat) (st : Z * list Z) (len : Z) : option (Z * list Z) :=
  match n with
  | O => None
  | S n' => if len =? 0 then Some st else crc_do1 st ≫= fun st' => crc_loop1 n' st' (len - 1)
  end.

Definition crc32 (crc : Z) (buf : option (list Z)) (len : Z) : option Z :=
  match buf with
  | None => Some 0
  | Some buf =>
      let fuel := S (Z.to_nat len) in
      crc_loop8 fuel (Z.lxor crc 0xffffffff, buf) len ≫= fun '(st, len') =>
      crc_loop1 fuel st len' ≫= fun '(crc', _) => Some (Z.lxor crc' 0xffffffff)
  end.

(** ** Concatenation of CRCs *)

Fixpoint gf2_times_loop (n : nat) (mat : list Z) (vec sum : Z) : option Z :=
  match n with
  | O => None
  | S n' =>
      if vec =? 0 then Some sum
      else match mat with
      | [] => None
      | row :: mat' =>
          gf2_times_loop n' mat' (Z.shiftr vec 1) (if Z.land vec 1 =? 0 then sum else Z.lxor sum row)
      end
  end.
(** A 64-bit vector is zero after 64 shifts. *)
Definition gf2_matrix_times (mat : list Z) (vec : Z) : option Z := gf2_times_loop 65 mat vec 0.

Definition gf2_matrix_square (mat : list Z) : option (list Z) := mapM (gf2_matrix_times mat) mat.

(** [if (len2 & 1) crc1 = gf2_matrix_times(mat, crc1);] *)
Definition combine_bit (mat : list Z) (len2 crc1 : Z) : option Z :=
  if Z.land len2 1 =? 0 then Some crc1 else gf2_matrix_times mat crc1.

Fixpoint combine_loop (n : nat) (odd : list Z) (crc1 len2 : Z) : option Z :=
  match n with
  | O => None
  | S n' =>
      gf2_matrix_square odd ≫= fun even =>
      combine_bit even len2 crc1 ≫= fun crc1 =>
      let len2 := Z.shiftr len2 1 in
      if len2 =? 0 then Some crc1
      else
        gf2_matrix_square even ≫= fun odd =>
        combine_bit odd len2 crc1 ≫= fun crc1 =>
        let len2 := Z.shiftr len2 1 in
        if len2 =? 0 then Some crc1 else combine_loop n' odd crc1 len2
  end.

(** The operator for one zero bit. *)
Definition one_zero_bit : list Z := 0xedb88320 :: map (fun n => Z.shiftl 1 (Z.of_nat n)) (seq 0 31).

Definition crc32_combine (crc1 crc2 len2 : Z) : option Z :=
  if len2 <=? 0 then Some crc1
  else
    gf2_matrix_square one_zero_bit ≫= fun even =>
    gf2_matrix_square even ≫= fun odd =>
    combine_loop 64 odd crc1 len2 ≫= fun crc1 => Some (Z.lxor crc1 crc2).

(** ** Adler-32 *)

Definition BASE : Z := 65521.
Definition NMAX : Z := 5552.

(** [adler], [sum2] and the rest of the buffer. *)
Record adler_st : Type := Adler { ad : Z; sum2 : Z; rest : list Z }.

Definition adler_do1 (st : adler_st) : option adler_st :=
  match rest st with
  | [] => None
  | b :: buf => let a := u64 (ad st + b) in Some (Adler a (u64 (sum2 st + a)) buf)
  end.
Definition adler_do16 (st : adler_st) : option adler_st := Nat.iter 16 (mbind adler_do1) (Some st).

Definition adler_mod (st : adler_st) : adler_st := Adler (ad st mod BASE) (sum2 st mod BASE) (rest st).

(** [while (len--)]. *)
Fixpoint adler_bytes (n : nat) (st : adler_st) (len : Z) : option adler_st :=
  match n with
  | O => None
  | S n' => if len =? 0 then Some st else adler_do1 st ≫= fun st' => adler_bytes n' st' (len - 1)
  end.
(** [do { DO16 } while (--n)]. *)
Fixpoint adler_rows (n : nat) (st : adler_st) : option adler_st :=
  match n with O => Some st | S n' => adler_do16 st ≫= adler_rows n' end.
Fixpoint adler_blocks (n : nat) (st : adler_st) (len : Z) : option (adler_st * Z) :=
  match n with
  | O => None
  | S n' =>
      if NMAX <=? len then
        adler_rows (Z.to_nat (NMAX / 16)) st ≫= fun st' => adler_blocks n' (adler_mod st') (len - NMAX)
      else Some (st, len)
  end.
Fixpoint adler_sixteens (n : nat) (st : adler_st) (len : Z) : option (adler_st * Z) :=
  match n with
  | O => None
  | S n' => if 16 <=? len then adler_do16 st ≫= fun st' => adler_sixteens n' st' (len - 16) else Some (st, len)
  end.

Definition adler_join (a s : Z) : Z := Z.lor a (u64 (Z.shiftl s 16)).

Definition sub_base (a : Z) : Z := if BASE <=? a then a - BASE else a.

Definition adler32 (adler : Z) (buf : option (list Z)) (len : Z) : option Z :=
  let s2 := Z.land (Z.shiftr adler 16) 0xffff in
  let a := Z.land adler 0xffff in
  let fuel := S (Z.to_nat len) in
  if len =? 1 then
    match buf with
    | Some (b :: _) =>
        let a := sub_base (u64 (a + b)) in
        Some (adler_join a (sub_base (u64 (s2 + a))))
    | _ => None
    end
  else match buf with
  | None => Some 1
  | Some buf =>
      if len <? 16 then
        adler_bytes fuel (Adler a s2 buf) len ≫= fun st =>
        Some (adler_join (sub_base (ad st)) (sum2 st mod BASE))
      else
        adler_blocks fuel (Adler a s2 buf) len ≫= fun '(st, len') =>
        (if len' =? 0 then Some st
         else adler_sixteens fuel st len' ≫= fun '(st, len'') =>
              adler_bytes fuel st len'' ≫= fun st => Some (adler_mod st)) ≫= fun st =>
        Some (adler_join (ad st) (sum2 st))
  end.

Definition adler32_combine (adler1 adler2 len2 : Z) : Z :=
  if len2 <? 0 then 0xffffffff
  else
    let rem := u32 (len2 mod BASE) in
    let sum1 := Z.land adler1 0xffff in
    let s2 := u64 (rem * sum1) mod BASE in
    let sum1 := u64 (sum1 + Z.land adler2 0xffff + BASE - 1) in
    let s2 := u64 (s2 + Z.land (Z.shiftr adler1 16) 0xffff + Z.land (Z.shiftr adler2 16) 0xffff + BASE - rem) in
    let sum1 := sub_base (sub_base sum1) in
    let s2 := if 2 * BASE <=? s2 then s2 - 2 * BASE else s2 in
    adler_join sum1 (sub_base s2).
