(* ===== verification/CrcSpec.v ===== *)
(** * CRC-32: the table-driven routine against the shift register

    The reference is the shift register of the reflected polynomial, one bit at
    a time.  Its step is linear over GF(2), which is what makes both the table
    lookup and the combination of two checksums work. *)

From S2P Require Import Prelude Cksum.

(** ** The shift register *)

Definition POLY : Z := 0xedb88320.

(** One zero bit shifted in. *)
Definition crc_bit (x : Z) : Z := Z.lxor (Z.shiftr x 1) (if Z.odd x then POLY else 0).
(** Eight of them. *)
Definition crc_zeros (x : Z) : Z := Nat.iter 8 crc_bit x.
(** A byte, and a whole message. *)
Definition crc_byte (c b : Z) : Z := crc_zeros (Z.lxor c b).
Definition crc_reg (c : Z) (l : list Z) : Z := fold_left crc_byte l c.
Definition crc_ref (c : Z) (l : list Z) : Z := Z.lxor (crc_reg (Z.lxor c 0xffffffff) l) 0xffffffff.

Definition linear (f : Z -> Z) : Prop := f 0 = 0 /\ forall x y, f (Z.lxor x y) = Z.lxor (f x) (f y).

Lemma odd_testbit x : Z.odd x = Z.testbit x 0.
Proof. by rewrite Z.bit0_odd. Qed.

Lemma crc_bit_linear : linear crc_bit.
Proof.
  split; [done|]. intros x y. unfold crc_bit. rewrite Z.shiftr_lxor, !odd_testbit, Z.lxor_spec.
  rewrite !Z.lxor_assoc. f_equal. rewrite (Z.lxor_comm _ (Z.lxor (Z.shiftr y 1) _)), Z.lxor_assoc. f_equal.
  by destruct (Z.testbit x 0), (Z.testbit y 0).
Qed.

Lemma linear_iter f n : linear f -> linear (Nat.iter n f).
Proof.
  intros [H0 H]. induction n as [|n [I0 I]]; [done|]. split; simpl; [congruence|].
  intros x y. by rewrite I, H.
Qed.
Lemma crc_zeros_linear : linear crc_zeros.
Proof. apply (linear_iter crc_bit 8), crc_bit_linear. Qed.

(** Below the low eight bits the register only shifts. *)
Lemma crc_bit_double y : crc_bit (2 * y) = y.
Proof.
  unfold crc_bit. rewrite Z.odd_mul. cbn [Z.odd andb]. rewrite Z.lxor_0_r, Z.shiftr_div_pow2 by lia.
  change (2 ^ 1) with 2. rewrite Z.mul_comm. apply Z.div_mul. lia.
Qed.
Lemma crc_zeros_shift y : crc_zeros (Z.shiftl y 8) = y.
Proof.
  rewrite Z.shiftl_mul_pow2 by lia. change (2 ^ 8) with (2 * (2 * (2 * (2 * (2 * (2 * (2 * 2))))))).
  unfold crc_zeros. cbn [Nat.iter nat_rect].
  replace (y * _) with (2 * (2 * (2 * (2 * (2 * (2 * (2 * (2 * y)))))))) by lia.
  by rewrite !crc_bit_double.
Qed.

(** The table of crc32.h holds the register after each byte. *)
Lemma crc_table_ok : crc_table = map (fun n => crc_zeros (Z.of_nat n)) (seq 0 256).
Proof. vm_compute. reflexivity. Qed.

(** From here on only linearity and the table matter. *)
#[local] Opaque crc_zeros.

Lemma crc_entry_ok i : 0 <= i < 256 -> crc_entry i = crc_zeros i.
Proof.
  intros Hi. unfold crc_entry. rewrite crc_table_ok.
  rewrite (nth_indep _ 0 (crc_zeros (Z.of_nat 0))) by (rewrite length_map, length_seq; lia).
  rewrite (map_nth (fun n => crc_zeros (Z.of_nat n))), seq_nth by lia. f_equal. lia.
Qed.

Lemma split_low8 x : Z.lxor (Z.land x 0xff) (Z.shiftl (Z.shiftr x 8) 8) = x.
Proof.
  rewrite <- Z.ldiff_ones_r by lia. change 0xff with (Z.ones 8).
  apply Z.bits_inj'. intros n _. rewrite Z.lxor_spec, Z.land_spec, Z.ldiff_spec.
  by destruct (Z.testbit x n), (Z.testbit (Z.ones 8) n).
Qed.

Lemma shiftr_byte c b : 0 <= b < 256 -> Z.shiftr (Z.lxor c b) 8 = Z.shiftr c 8.
Proof.
  intros Hb. rewrite Z.shiftr_lxor, (Z.shiftr_div_pow2 b), Z.div_small by lia. apply Z.lxor_0_r.
Qed.

Lemma s32_low8 c b : Z.land (Z.lxor (s32 c) b) 0xff = Z.land (Z.lxor c b) 0xff.
Proof.
  assert (H : forall x, s32 x mod 2 ^ 8 = x mod 2 ^ 8).
  { intros x. unfold s32, sgn. assert (E : (x mod 2 ^ 32) mod 2 ^ 8 = x mod 2 ^ 8)
      by (apply Z.mod_mod_divide; by exists (2 ^ 24)).
    case_if; [done|]. rewrite <- E. change (2 ^ 32) with (2 ^ 24 * 2 ^ 8) at 2. 
    replace (x mod 2 ^ 32 - 2 ^ 24 * 2 ^ 8) with (x mod 2 ^ 32 + (- 2 ^ 24) * 2 ^ 8) by lia.
    apply Z.mod_add. lia. }
  apply Z.bits_inj'. intros n Hn. rewrite !Z.land_spec, !Z.lxor_spec.
  destruct (Z_lt_dec n 8) as [Hlt|]; [|change 0xff with (Z.ones 8); rewrite Z.ones_spec_high, !andb_false_r by lia; done].
  f_equal. f_equal. rewrite <- (Z.mod_pow2_bits_low _ 8), H, Z.mod_pow2_bits_low by lia. done.
Qed.

(** One step of the code is one byte of the register. *)
Lemma crc_do1_ref c b l : 0 <= b < 256 -> crc_do1 (c, b :: l) = Some (crc_byte c b, l).
Proof.
  intros Hb. cbn [crc_do1]. rewrite s32_low8, <- (shiftr_byte c b) by done. set (x := Z.lxor c b).
  rewrite crc_entry_ok by (change 0xff with (2 ^ 8 - 1); rewrite land_mask by lia; apply Z.mod_pos_bound; lia).
  rewrite <- (crc_zeros_shift (Z.shiftr x 8)), <- (proj2 crc_zeros_linear), split_low8. done.
Qed.

Definition bytes (l : list Z) : Prop := Forall (fun b => 0 <= b < 256) l.

Lemma crc_do_iter n c l :
  bytes l -> (n <= length l)%nat ->
  Nat.iter n (mbind crc_do1) (Some (c, l)) = Some (crc_reg c (take n l), drop n l).
Proof.
  intros Hl Hn. induction n as [|n IH]; [done|]. cbn [Nat.iter nat_rect]. unfold Nat.iter in IH. rewrite IH by lia.
  destruct (drop n l) as [|b r] eqn:E.
  { apply (f_equal length) in E. rewrite length_drop in E. simpl in E. lia. }
  assert (Hb : l !! n = Some b) by (rewrite <- (Nat.add_0_r n), <- lookup_drop, E; done).
  cbn [mbind option_bind]. rewrite crc_do1_ref by (eapply (Forall_lookup_1 _ _ _ _ Hl Hb)).
  f_equal. f_equal.
  - rewrite (take_S_r _ _ _ Hb). unfold crc_reg. rewrite fold_left_app. reflexivity.
  - rewrite <- Nat.add_1_r, <- drop_drop, E. done.
Qed.

Lemma crc_loop8_ref n c l len :
  bytes l -> 0 <= len <= Z.of_nat (length l) -> (Z.to_nat len < n)%nat ->
  exists k, (k <= Z.to_nat len)%nat /\ 0 <= len - Z.of_nat k < 8 /\
    crc_loop8 n (c, l) len = Some (crc_reg c (take k l), drop k l, len - Z.of_nat k).
Proof.
  revert c l len. induction n as [|n IH]; intros c l len Hl Hlen Hn; [lia|]. cbn [crc_loop8].
  destruct (Z.leb_spec 8 len) as [H8|H8].
  2: { exists O. rewrite drop_0, Z.sub_0_r. split_and!; [lia..|done]. }
  unfold crc_do8. rewrite crc_do_iter by (done || lia). cbn [mbind option_bind].
  destruct (IH (crc_reg c (take 8 l)) (drop 8 l) (len - 8)) as (k & Hk & Hk8 & E);
    [by apply Forall_drop|rewrite length_drop; lia|lia|].
  exists (8 + k)%nat. split_and!; [lia..|]. rewrite E, drop_drop. f_equal. f_equal; [|lia]. f_equal.
  unfold crc_reg. by rewrite <- fold_left_app, take_take_drop.
Qed.

Lemma crc_loop1_ref n c l len :
  bytes l -> 0 <= len <= Z.of_nat (length l) -> (Z.to_nat len < n)%nat ->
  crc_loop1 n (c, l) len = Some (crc_reg c (take (Z.to_nat len) l), drop (Z.to_nat len) l).
Proof.
  revert c l len. induction n as [|n IH]; intros c l len Hl Hlen Hn; [lia|]. cbn [crc_loop1].
  destruct (Z.eqb_spec len 0) as [->|H0]; [done|].
  destruct l as [|b l]; [simpl in Hlen; lia|]. apply Forall_cons in Hl as [Hb Hl].
  rewrite crc_do1_ref by done. cbn [mbind option_bind]. simpl in Hlen. rewrite IH by (done || lia).
  by replace (Z.to_nat len) with (S (Z.to_nat (len - 1))) by lia.
Qed.

Lemma crc32_run c l len :
  bytes l -> 0 <= len <= Z.of_nat (length l) -> crc32 c (Some l) len = Some (crc_ref c (take (Z.to_nat len) l)).
Proof.
  intros Hl Hlen. unfold crc32.
  destruct (crc_loop8_ref (S (Z.to_nat len)) (Z.lxor c 0xffffffff) l len) as (k & Hk & Hk8 & ->); [done..|lia|].
  cbn [mbind option_bind]. rewrite crc_loop1_ref; [|by apply Forall_drop|rewrite length_drop; lia|lia].
  cbn [mbind option_bind]. unfold crc_ref, crc_reg. rewrite <- fold_left_app, take_take_drop.
  do 4 f_equal. lia.
Qed.

(** ** Matrices over GF(2) *)

(** [mat] is the matrix of [f] on 32-bit vectors. *)
Definition matrix_of (f : Z -> Z) (mat : list Z) : Prop :=
  mat = map (fun n => f (2 ^ Z.of_nat n)) (seq 0 32).

Definition word_map (f : Z -> Z) : Prop := linear f /\ forall x, 0 <= x < 2 ^ 32 -> 0 <= f x < 2 ^ 32.

Lemma lxor_range n x y : 0 <= n -> 0 <= x < 2 ^ n -> 0 <= y < 2 ^ n -> 0 <= Z.lxor x y < 2 ^ n.
Proof.
  intros Hn Hx Hy. assert (0 <= Z.lxor x y) as H0 by (apply Z.lxor_nonneg; lia). split; [done|].
  destruct (Z.eq_dec (Z.lxor x y) 0) as [->|]; [lia|]. apply Z.log2_lt_pow2; [lia|].
  assert (Hlog : forall z, 0 <= z < 2 ^ n -> Z.log2 z < n \/ z = 0).
  { intros z Hz. destruct (Z.eq_dec z 0); [by right|left]. apply Z.log2_lt_pow2; lia. }
  destruct (Hlog x Hx) as [?| ->]; [|rewrite Z.lxor_0_l in *; destruct (Hlog y Hy); lia].
  destruct (Hlog y Hy) as [?| ->]; [|rewrite Z.lxor_0_r in *; lia].
  eapply Z.le_lt_trans; [apply Z.log2_lxor; lia|]. by apply Z.max_lub_lt.
Qed.

Lemma word_map_bit : word_map crc_bit.
Proof.
  split; [apply crc_bit_linear|]. intros x Hx. unfold crc_bit. apply lxor_range; [lia| |case_if; unfold POLY; lia].
  rewrite Z.shiftr_div_pow2 by lia. change (2 ^ 1) with 2. split; [apply Z.div_pos; lia|].
  apply Z.div_lt_upper_bound; lia.
Qed.
Lemma word_map_comp f g : word_map f -> word_map g -> word_map (fun x => f (g x)).
Proof.
  intros [[F0 F] Fr] [[G0 G] Gr]. split; [split|]; [congruence|intros x y; by rewrite G, F|auto].
Qed.

(** [v << k], bit by bit. *)
Lemma shift_split v k :
  0 <= k -> Z.shiftl v k = Z.lxor (if Z.odd v then 2 ^ k else 0) (Z.shiftl (Z.shiftr v 1) (k + 1)).
Proof.
  intros Hk.
  assert (E : v = Z.lxor (if Z.odd v then 1 else 0) (Z.shiftl (Z.shiftr v 1) 1)).
  { rewrite <- Z.ldiff_ones_r by lia. apply Z.bits_inj'. intros n Hn.
    rewrite Z.lxor_spec, Z.ldiff_spec. destruct (Z.eq_dec n 0) as [->|].
    - rewrite odd_testbit. by destruct (Z.testbit v 0).
    - rewrite Z.ones_spec_high by lia. rewrite andb_true_r.
      replace (Z.testbit (if Z.odd v then 1 else 0) n) with false; [by destruct (Z.testbit v n)|].
      destruct (Z.odd v); [change 1 with (2 ^ 0); rewrite Z.pow2_bits_false by lia; done|by rewrite Z.bits_0]. }
  rewrite E at 1. rewrite Z.shiftl_lxor. f_equal.
  - destruct (Z.odd v); [apply Z.shiftl_1_l|apply Z.shiftl_0_l].
  - rewrite Z.shiftl_shiftl by lia. f_equal. lia.
Qed.

Lemma land_one v : (Z.land v 1 =? 0) = negb (Z.odd v).
Proof.
  change 1 with (Z.ones 1). rewrite Z.land_ones by lia. change (2 ^ 1) with 2. rewrite Zmod_odd. by destruct (Z.odd v).
Qed.

Lemma gf2_times_loop_ok f n k v sum :
  word_map f -> (k <= 32)%nat -> 0 <= v < 2 ^ (32 - Z.of_nat k) -> (32 - k < n)%nat ->
  gf2_times_loop n (map (fun i => f (2 ^ Z.of_nat i)) (seq k (32 - k))) v sum =
    Some (Z.lxor sum (f (Z.shiftl v (Z.of_nat k)))).
Proof.
  intros [[F0 F] _]. revert k v sum. induction n as [|n IH]; intros k v sum Hk Hv Hn; [lia|]. cbn [gf2_times_loop].
  destruct (Z.eqb_spec v 0) as [->|Hv0]; [by rewrite Z.shiftl_0_l, F0, Z.lxor_0_r|].
  destruct (decide (k = 32%nat)) as [->|Hk32]; [change (2 ^ (32 - Z.of_nat 32)) with 1 in Hv; lia|].
  replace (32 - k)%nat with (S (32 - S k)) by lia. cbn [seq map].
  rewrite IH; [|lia| |lia].
  2: { rewrite Z.shiftr_div_pow2 by lia. change (2 ^ 1) with 2. split; [apply Z.div_pos; lia|].
       apply Z.div_lt_upper_bound; [lia|]. rewrite <- Z.pow_succ_r by lia.
       replace (Z.succ (32 - Z.of_nat (S k))) with (32 - Z.of_nat k) by lia. lia. }
  f_equal. rewrite (shift_split v (Z.of_nat k)) by lia. rewrite F.
  replace (Z.of_nat (S k)) with (Z.of_nat k + 1) by lia.
  rewrite land_one. destruct (Z.odd v); cbn [negb]; [by rewrite Z.lxor_assoc|]. by rewrite F0, Z.lxor_0_l.
Qed.

Lemma gf2_matrix_times_ok f mat v :
  word_map f -> matrix_of f mat -> 0 <= v < 2 ^ 32 -> gf2_matrix_times mat v = Some (f v).
Proof.
  intros Hf -> Hv. unfold gf2_matrix_times.
  etransitivity; [apply (gf2_times_loop_ok f 65 0 v 0); done || lia|]. by rewrite Z.shiftl_0_r, Z.lxor_0_l.
Qed.

Lemma mapM_map {A} (h : Z -> option Z) (f g : A -> Z) (l : list A) :
  (forall x, x ∈ l -> h (f x) = Some (g x)) -> mapM h (map f l) = Some (map g l).
Proof.
  induction l as [|x l IH]; intros H; [done|]. cbn [map mapM]. rewrite H by set_solver.
  cbn [mbind option_bind]. rewrite IH by set_solver. done.
Qed.

Lemma gf2_matrix_square_ok f mat :
  word_map f -> matrix_of f mat -> exists mat', gf2_matrix_square mat = Some mat' /\ matrix_of (fun x => f (f x)) mat'.
Proof.
  intros Hf Hm. exists (map (fun n => f (f (2 ^ Z.of_nat n))) (seq 0 32)). split; [|done].
  unfold gf2_matrix_square. rewrite Hm at 2.
  apply (mapM_map (gf2_matrix_times mat) (fun n => f (2 ^ Z.of_nat n)) (fun n => f (f (2 ^ Z.of_nat n)))).
  intros j Hj%elem_of_seq. apply (gf2_matrix_times_ok f); [done..|]. apply Hf.
  split; [lia|]. apply Z.pow_lt_mono_r; lia.
Qed.

(** ** Appending zeros by repeated squaring *)

Lemma iter_double {A} (h : A -> A) k c : Nat.iter (2 * k) h c = Nat.iter k (fun x => h (h x)) c.
Proof.
  induction k as [|k IH]; [done|]. replace (2 * S k)%nat with (S (S (2 * k))) by lia.
  cbn [Nat.iter nat_rect]. unfold Nat.iter in IH. by rewrite IH.
Qed.

Lemma iter_half (h : Z -> Z) len c :
  0 <= len ->
  Nat.iter (Z.to_nat len) h c =
    Nat.iter (Z.to_nat (Z.shiftr len 1)) (fun x => h (h x)) (if Z.odd len then h c else c).
Proof.
  intros Hl. rewrite <- iter_double, Z.shiftr_div_pow2 by lia. change (2 ^ 1) with 2.
  pose proof (Z.div_mod len 2 ltac:(lia)) as E. rewrite Zmod_odd in E. pose proof (Z.div_pos len 2 Hl ltac:(lia)).
  destruct (Z.odd len).
  - replace (Z.to_nat len) with (2 * Z.to_nat (len / 2) + 1)%nat by lia. by rewrite Nat.iter_add.
  - f_equal. lia.
Qed.

Lemma combine_bit_ok f mat len c :
  word_map f -> matrix_of f mat -> 0 <= c < 2 ^ 32 ->
  combine_bit mat len c = Some (if Z.odd len then f c else c).
Proof.
  intros Hf Hm Hc. unfold combine_bit. rewrite land_one.
  destruct (Z.odd len); cbn [negb]; [|done]. by apply gf2_matrix_times_ok.
Qed.

Lemma half_range len n : 0 <= len < 2 ^ Z.of_nat (S n) -> 0 <= Z.shiftr len 1 < 2 ^ Z.of_nat n.
Proof.
  intros Hl. rewrite Z.shiftr_div_pow2 by lia. change (2 ^ 1) with 2. rewrite Nat2Z.inj_succ, Z.pow_succ_r in Hl by lia.
  split; [apply Z.div_pos; lia|]. apply Z.div_lt_upper_bound; lia.
Qed.

Lemma combine_loop_ok n g odd c len :
  word_map g -> matrix_of g odd -> 0 <= c < 2 ^ 32 -> 0 <= len < 2 ^ Z.of_nat (2 * n) -> (0 < n)%nat ->
  combine_loop n odd c len = Some (Nat.iter (Z.to_nat len) (fun x => g (g x)) c).
Proof.
  revert g odd c len. induction n as [|n IH]; intros g odd c len Hg Hm Hc Hl Hn; [lia|]. cbn [combine_loop].
  destruct (gf2_matrix_square_ok g odd Hg Hm) as (even & -> & He). cbn [mbind option_bind].
  set (h := fun x => g (g x)) in *. assert (Hh : word_map h) by by apply (word_map_comp g g).
  rewrite (combine_bit_ok h) by done. cbn [mbind option_bind]. rewrite iter_half by lia.
  set (c1 := if Z.odd len then h c else c). assert (Hc1 : 0 <= c1 < 2 ^ 32) by (unfold c1; case_if; [by apply Hh|done]).
  replace (2 * S n)%nat with (S (S (2 * n))) in Hl by lia. apply half_range in Hl. set (l1 := Z.shiftr len 1) in *.
  destruct (Z.eqb_spec l1 0) as [->|H1]; [done|].
  destruct (gf2_matrix_square_ok h even Hh He) as (odd' & -> & Ho). cbn [mbind option_bind].
  set (h2 := fun x => h (h x)) in *. assert (Hh2 : word_map h2) by by apply (word_map_comp h h).
  rewrite (combine_bit_ok h2) by done. cbn [mbind option_bind]. rewrite (iter_half h2) by lia.
  set (c2 := if Z.odd l1 then h2 c1 else c1). assert (Hc2 : 0 <= c2 < 2 ^ 32) by (unfold c2; case_if; [by apply Hh2|done]).
  apply half_range in Hl. set (l2 := Z.shiftr l1 1) in *.
  destruct (Z.eqb_spec l2 0) as [->|H2]; [done|].
  destruct n as [|n']; [change (2 ^ Z.of_nat (2 * 0)) with 1 in Hl; lia|]. by apply IH; [..|lia].
Qed.

(** The four squarings before a byte's worth of zeros. *)
Lemma one_zero_bit_ok : matrix_of crc_bit one_zero_bit.
Proof. unfold matrix_of. vm_compute. reflexivity. Qed.

Lemma word_map_iter f n : word_map f -> word_map (Nat.iter n f).
Proof. intros Hf. induction n as [|n IH]; [by split|]. by apply (word_map_comp f (Nat.iter n f)). Qed.

#[local] Transparent crc_zeros.
Lemma word_map_zeros : word_map crc_zeros.
Proof. apply (word_map_iter crc_bit 8), word_map_bit. Qed.

(** Doubling the one-bit operator three times gives a byte of zeros. *)
Lemma crc_zeros_squares :
  crc_zeros = (fun x => let g x := crc_bit (crc_bit (crc_bit (crc_bit x))) in g (g x)).
Proof. reflexivity. Qed.
#[local] Opaque crc_zeros.

Lemma crc_reg_cons c b l : crc_reg c (b :: l) = crc_reg (crc_byte c b) l.
Proof. reflexivity. Qed.

Lemma iter_linear n x y :
  Nat.iter n crc_zeros (Z.lxor x y) = Z.lxor (Nat.iter n crc_zeros x) (Nat.iter n crc_zeros y).
Proof. apply (linear_iter crc_zeros n), crc_zeros_linear. Qed.

(** The register is linear: what it held before a message, and the message. *)
Lemma crc_reg_linear l c : crc_reg c l = Z.lxor (Nat.iter (length l) crc_zeros c) (crc_reg 0 l).
Proof.
  revert c. induction l as [|b l IH]; intros c; [by rewrite Z.lxor_0_r|].
  rewrite !crc_reg_cons, IH, (IH (crc_byte 0 b)). unfold crc_byte.
  rewrite Z.lxor_0_l, (proj2 crc_zeros_linear), iter_linear, Z.lxor_assoc.
  cbn [length]. rewrite Nat.iter_succ_r. reflexivity.
Qed.

Lemma crc_range c l : 0 <= c < 2 ^ 32 -> bytes l -> 0 <= crc_reg c l < 2 ^ 32.
Proof.
  intros Hc Hl. revert c Hc. induction Hl as [|b l Hb Hl IH]; intros c Hc; [done|].
  rewrite crc_reg_cons. apply IH, word_map_zeros, lxor_range; lia.
Qed.

Lemma crc_ref_range c l : 0 <= c < 2 ^ 32 -> bytes l -> 0 <= crc_ref c l < 2 ^ 32.
Proof. intros Hc Hl. apply lxor_range; [lia|apply crc_range; [apply lxor_range; lia|done]|lia]. Qed.

(** A message in two parts. *)
Lemma crc_ref_app c l1 l2 : crc_ref c (l1 ++ l2) = crc_ref (crc_ref c l1) l2.
Proof.
  unfold crc_ref. rewrite Z.lxor_assoc, Z.lxor_nilpotent, Z.lxor_0_r. unfold crc_reg. by rewrite fold_left_app.
Qed.

Lemma crc_ref_shift c l : crc_ref c l = Z.lxor (Nat.iter (length l) crc_zeros c) (crc_ref 0 l).
Proof.
  unfold crc_ref. rewrite crc_reg_linear, (crc_reg_linear l (Z.lxor 0 _)), iter_linear, Z.lxor_0_l, !Z.lxor_assoc. done.
Qed.

Lemma crc32_combine_run c1 c2 len :
  0 <= c1 < 2 ^ 32 -> 0 < len < 2 ^ 63 ->
  crc32_combine c1 c2 len = Some (Z.lxor (Nat.iter (Z.to_nat len) crc_zeros c1) c2).
Proof.
  intros Hc Hl. unfold crc32_combine. rewrite (proj2 (Z.leb_gt _ _)) by lia.
  pose proof (word_map_comp _ _ word_map_bit word_map_bit) as W2. pose proof (word_map_comp _ _ W2 W2) as W4.
  destruct (gf2_matrix_square_ok _ _ word_map_bit one_zero_bit_ok) as (even & -> & He). cbn [mbind option_bind].
  destruct (gf2_matrix_square_ok _ _ W2 He) as (odd & -> & Ho). cbn [mbind option_bind].
  rewrite (combine_loop_ok 64 _ odd c1 len W4 Ho) by (done || simpl; lia).
  cbn [mbind option_bind]. by rewrite crc_zeros_squares.
Qed.

Lemma crc32_combine_nil c1 c2 : crc32_combine c1 c2 0 = Some c1.
Proof. reflexivity. Qed.
Lemma crc_ref_nil c : crc_ref c [] = c.
Proof. change (Z.lxor (Z.lxor c 0xffffffff) 0xffffffff = c). by rewrite Z.lxor_assoc, Z.lxor_nilpotent, Z.lxor_0_r. Qed.
