(* ===== verification/AdlerSpec.v ===== *)
(** * Adler-32: deferred reductions against the two running sums

    The reference is the pair of sums of the message, reduced modulo 65521 once
    at the end. *)

From S2P Require Import Prelude Cksum CrcSpec.

(** The two sums, without reduction. *)
Definition adler_sums (p : Z * Z) (l : list Z) : Z * Z :=
  fold_left (fun p b => (fst p + b, snd p + (fst p + b))) l p.
Definition mod_pair (p : Z * Z) : Z * Z := (fst p mod BASE, snd p mod BASE).
Definition adler_ref (p : Z * Z) (l : list Z) : Z * Z := mod_pair (adler_sums p l).
Definition join (p : Z * Z) : Z := adler_join (fst p) (snd p).
Definition adler_ok (p : Z * Z) : Prop := 0 <= fst p < BASE /\ 0 <= snd p < BASE.

Lemma adler_sums_app p l1 l2 : adler_sums p (l1 ++ l2) = adler_sums (adler_sums p l1) l2.
Proof. apply fold_left_app. Qed.

Lemma adler_sums_eq a s l :
  adler_sums (a, s) l =
    (a + fst (adler_sums (0, 0) l), s + Z.of_nat (length l) * a + snd (adler_sums (0, 0) l)).
Proof.
  revert a s. induction l as [|b l IH]; intros a s; [cbn; f_equal; lia|].
  cbn [adler_sums fold_left fst snd length]. fold (adler_sums (a + b, s + (a + b)) l) (adler_sums (0 + b, 0 + (0 + b)) l).
  rewrite IH, (IH (0 + b)). cbn [fst snd]. f_equal; lia.
Qed.

(** How far the sums of [n] bytes can go. *)
Lemma adler_sums_bound l : bytes l ->
  let n := Z.of_nat (length l) in
  0 <= fst (adler_sums (0, 0) l) <= 255 * n /\ 0 <= snd (adler_sums (0, 0) l) <= 255 * n * n.
Proof.
  induction 1 as [|b l Hb Hl IH]; [done|]. cbn [adler_sums fold_left fst snd].
  fold (adler_sums (0 + b, 0 + (0 + b)) l). rewrite adler_sums_eq. cbn [fst snd length] in *. nia.
Qed.

Lemma mod_shift x y m k : x = y + k * m -> x mod m = y mod m.
Proof. intros ->. apply Z_mod_plus_full. Qed.

Lemma mod_pair_sums p l : mod_pair (adler_sums (mod_pair p) l) = mod_pair (adler_sums p l).
Proof.
  destruct p as [a s]. unfold mod_pair. cbn [fst snd]. rewrite (adler_sums_eq (a mod BASE)), (adler_sums_eq a).
  cbn [fst snd]. set (n := Z.of_nat _).
  pose proof (Z_div_mod_eq_full a BASE). pose proof (Z_div_mod_eq_full s BASE). f_equal.
  - apply (mod_shift _ _ _ (- (a / BASE))). lia.
  - apply (mod_shift _ _ _ (- (s / BASE) - n * (a / BASE))). nia.
Qed.

(** [n] bytes taken by the loops, as long as the sums fit. *)
Lemma adler_iter n a s l :
  bytes l -> (n <= length l)%nat -> 0 <= a < 2 ^ 32 -> 0 <= s < 2 ^ 48 -> Z.of_nat n <= 6000 ->
  Nat.iter n (mbind adler_do1) (Some (Adler a s l)) =
    let p := adler_sums (a, s) (take n l) in Some (Adler (fst p) (snd p) (drop n l)).
Proof.
  intros Hl Hn Ha Hs Hmax. induction n as [|n IH]; [done|].
  cbn [Nat.iter nat_rect]. unfold Nat.iter in IH. rewrite IH by lia. clear IH. cbv zeta.
  destruct (drop n l) as [|b r] eqn:E.
  { apply (f_equal length) in E. rewrite length_drop in E. simpl in E. lia. }
  assert (Hb : l !! n = Some b) by (rewrite <- (Nat.add_0_r n), <- lookup_drop, E; done).
  pose proof (Forall_lookup_1 _ _ _ _ Hl Hb) as Hbr. cbn beta in Hbr.
  rewrite (take_S_r _ _ _ Hb), adler_sums_app, adler_sums_eq.
  pose proof (adler_sums_bound (take n l) (Forall_take _ _ _ Hl)) as Hbd. cbv zeta in Hbd.
  rewrite length_take, (Nat.min_l n) in * by lia. set (x := adler_sums (0, 0) (take n l)) in *.
  cbn [mbind option_bind adler_do1 rest ad sum2 fst snd adler_sums fold_left].
  assert (0 <= Z.of_nat n * a <= 6000 * 2 ^ 32) by (split; [nia|]; apply Z.mul_le_mono_nonneg; lia).
  assert (255 * Z.of_nat n * Z.of_nat n <= 255 * 6000 * 6000) by (apply Z.mul_le_mono_nonneg; lia).
  rewrite !u64_small by lia.
  f_equal. f_equal. rewrite <- Nat.add_1_r, <- drop_drop, E. done.
Qed.

(** The loops only iterate [adler_do1]. *)
Lemma iter_none {A} (f : A -> option A) n : Nat.iter n (mbind f) None = None.
Proof. induction n as [|n IH]; [done|]. cbn [Nat.iter nat_rect]. unfold Nat.iter in IH. by rewrite IH. Qed.

Lemma iter_bind {A} (f : A -> option A) n (o : option A) : Nat.iter n (mbind f) o = o ≫= fun x => Nat.iter n (mbind f) (Some x).
Proof. destruct o; [done|apply iter_none]. Qed.

Abbreviation steps n st := (Nat.iter n (mbind adler_do1) (Some st)).

Lemma rows_steps n st : adler_rows n st = steps (n * 16)%nat st.
Proof.
  revert st. induction n as [|n IH]; intros st; [done|]. cbn [adler_rows]. unfold adler_do16.
  replace (S n * 16)%nat with (n * 16 + 16)%nat by lia. rewrite Nat.iter_add, (iter_bind _ (n * 16)).
  destruct (Nat.iter 16 (mbind adler_do1) (Some st)) as [st'|]; [|done]. cbn [mbind option_bind]. apply IH.
Qed.

Lemma bytes_steps n st len : 0 <= len -> (Z.to_nat len < n)%nat -> adler_bytes n st len = steps (Z.to_nat len) st.
Proof.
  revert st len. induction n as [|n IH]; intros st len Hl Hn; [lia|]. cbn [adler_bytes].
  destruct (Z.eqb_spec len 0) as [->|H0]; [done|].
  replace (Z.to_nat len) with (S (Z.to_nat (len - 1))) by lia. rewrite Nat.iter_succ_r, iter_bind.
  cbn [mbind option_bind]. destruct (adler_do1 st) as [st'|]; [|done]. cbn [mbind option_bind]. apply IH; lia.
Qed.

Lemma sixteens_steps n st len :
  0 <= len -> (Z.to_nat len < n)%nat ->
  adler_sixteens n st len = steps (Z.to_nat (len / 16) * 16)%nat st ≫= fun st' => Some (st', len mod 16).
Proof.
  revert st len. induction n as [|n IH]; intros st len Hl Hn; [lia|]. cbn [adler_sixteens].
  destruct (Z.leb_spec 16 len) as [H|H].
  - pose proof (Z.div_pos (len - 16) 16 ltac:(lia) ltac:(lia)).
    assert (E : len / 16 = (len - 16) / 16 + 1) by (rewrite <- Z.div_add by lia; f_equal; lia).
    assert (Em : len mod 16 = (len - 16) mod 16) by (symmetry; apply (mod_shift _ _ _ (-1)); lia).
    replace (Z.to_nat (len / 16) * 16)%nat with (Z.to_nat ((len - 16) / 16) * 16 + 16)%nat by lia.
    rewrite Nat.iter_add, (iter_bind _ (Z.to_nat ((len - 16) / 16) * 16)), Em. unfold adler_do16.
    destruct (Nat.iter 16 (mbind adler_do1) (Some st)) as [st'|]; [|done]. cbn [mbind option_bind]. apply IH; lia.
  - rewrite Z.div_small, Z.mod_small by lia. done.
Qed.

(** [n] bytes from sums in range. *)
Lemma steps_ok n p l :
  bytes l -> adler_ok p -> (n <= length l)%nat -> Z.of_nat n <= 6000 ->
  steps n (Adler (fst p) (snd p) l) =
    Some (Adler (fst (adler_sums p (take n l))) (snd (adler_sums p (take n l))) (drop n l)).
Proof. destruct p as [a s]. unfold adler_ok, BASE. cbn [fst snd]. intros. apply adler_iter; done || lia. Qed.

Lemma mod_pair_ok p : adler_ok (mod_pair p).
Proof. split; apply Z.mod_pos_bound; unfold BASE; lia. Qed.

Lemma blocks_ok n p l len :
  bytes l -> adler_ok p -> 0 <= len <= Z.of_nat (length l) -> (Z.to_nat len < n)%nat ->
  exists k p', adler_blocks n (Adler (fst p) (snd p) l) len =
      Some (Adler (fst p') (snd p') (drop k l), len - Z.of_nat k) /\
    (k <= Z.to_nat len)%nat /\ 0 <= len - Z.of_nat k < NMAX /\ adler_ok p' /\
    mod_pair p' = mod_pair (adler_sums p (take k l)).
Proof.
  revert p l len. induction n as [|n IH]; intros p l len Hl Hp Hlen Hn; [lia|]. cbn [adler_blocks].
  destruct (Z.leb_spec NMAX len) as [H|H].
  2: { exists O, p. rewrite drop_0, Z.sub_0_r. split_and!; try done; unfold NMAX in *; lia. }
  unfold NMAX in *. change (Z.to_nat (5552 / 16)) with 347%nat. rewrite rows_steps.
  set (m := (347 * 16)%nat) in *. assert (Hm : Z.of_nat m = 5552) by reflexivity.
  rewrite steps_ok by (done || lia). cbn [mbind option_bind].
  set (q := adler_sums p (take m l)).
  destruct (IH (mod_pair q) (drop m l) (len - 5552)) as (k & p' & E & Hk & Hr & Hp' & Hmod);
    [by apply Forall_drop|apply mod_pair_ok|rewrite length_drop; lia|lia|].
  exists (m + k)%nat, p'. unfold adler_mod. cbn [ad sum2 rest]. split_and!; try done; try lia.
  - unfold mod_pair in E. cbn [fst snd] in E. rewrite E, drop_drop. f_equal. f_equal. lia.
  - rewrite Hmod, mod_pair_sums. unfold q. by rewrite <- adler_sums_app, take_take_drop.
Qed.

Lemma join_arith p : adler_ok p -> join p = fst p + snd p * 2 ^ 16.
Proof.
  unfold adler_ok, BASE. intros [Ha Hs]. unfold join, adler_join.
  rewrite Z.shiftl_mul_pow2, u64_small by lia. symmetry. apply Z.add_nocarry_lor.
  apply Z.bits_inj'. intros j Hj. rewrite Z.land_spec, Z.bits_0.
  destruct (Z_lt_dec j 16) as [Hlt|].
  - rewrite Z.mul_pow2_bits_low by lia. apply andb_false_r.
  - rewrite (testbit_bound (fst p) 16) by lia. done.
Qed.

Lemma join_low p : adler_ok p -> Z.land (join p) 0xffff = fst p.
Proof.
  intros H. rewrite join_arith by done. destruct H as [Ha Hs]. unfold BASE in *. change 0xffff with (2 ^ 16 - 1).
  rewrite land_mask, Z_mod_plus_full, Z.mod_small by lia. done.
Qed.
Lemma join_high p : adler_ok p -> Z.land (Z.shiftr (join p) 16) 0xffff = snd p.
Proof.
  intros H. rewrite join_arith by done. destruct H as [Ha Hs]. unfold BASE in *. change 0xffff with (2 ^ 16 - 1).
  rewrite land_mask, Z.shiftr_div_pow2, Z.div_add, (Z.div_small (fst p)), Z.add_0_l, Z.mod_small by lia. done.
Qed.

Lemma sub_base_mod x : 0 <= x < 2 * BASE -> sub_base x = x mod BASE.
Proof.
  intros Hx. unfold sub_base. destruct (Z.leb_spec BASE x).
  - apply Z.mod_unique with 1; unfold BASE in *; lia.
  - rewrite Z.mod_small by lia. done.
Qed.

Lemma mod_pair_id p : adler_ok p -> mod_pair p = p.
Proof. intros [Ha Hs]. destruct p. unfold mod_pair. cbn [fst snd] in *. by rewrite !Z.mod_small. Qed.

(** The rest of a message after the blocks: one reduction at the end. *)
Lemma tail_ok fuel p l len :
  bytes l -> adler_ok p -> 0 <= len <= Z.of_nat (length l) -> len < NMAX -> (Z.to_nat len < fuel)%nat ->
  (adler_sixteens fuel (Adler (fst p) (snd p) l) len ≫= fun '(st, len) =>
     adler_bytes fuel st len ≫= fun st => Some (adler_mod st)) =
  let q := adler_ref p (take (Z.to_nat len) l) in Some (Adler (fst q) (snd q) (drop (Z.to_nat len) l)).
Proof.
  intros Hl Hp Hlen Hmax Hf. unfold NMAX in *. rewrite sixteens_steps by lia.
  pose proof (Z.mod_pos_bound len 16 ltac:(lia)). pose proof (Z_div_mod_eq_full len 16).
  pose proof (Z.div_pos len 16 ltac:(lia) ltac:(lia)).
  transitivity (steps (Z.to_nat len) (Adler (fst p) (snd p) l) ≫= fun st => Some (adler_mod st)).
  - replace (Z.to_nat len) with (Z.to_nat (len mod 16) + Z.to_nat (len / 16) * 16)%nat by lia.
    rewrite Nat.iter_add, (iter_bind _ (Z.to_nat (len mod 16))).
    destruct (Nat.iter (Z.to_nat (len / 16) * 16) _ _) as [st|]; [|done]. cbn [mbind option_bind].
    by rewrite bytes_steps by lia.
  - rewrite steps_ok by (done || lia). done.
Qed.

Lemma adler32_short p l len :
  bytes l -> adler_ok p -> 0 <= len <= Z.of_nat (length l) -> len < 16 ->
  (adler_bytes (S (Z.to_nat len)) (Adler (fst p) (snd p) l) len ≫= fun st =>
     Some (adler_join (sub_base (ad st)) (sum2 st mod BASE))) = Some (join (adler_ref p (take (Z.to_nat len) l))).
Proof.
  intros Hl Hp Hlen H16. rewrite bytes_steps, steps_ok by (done || lia). cbn [mbind option_bind ad sum2].
  unfold join, adler_ref, mod_pair. cbn [fst snd]. rewrite sub_base_mod; [done|].
  pose proof (adler_sums_bound (take (Z.to_nat len) l) (Forall_take _ _ _ Hl)) as Hb. cbv zeta in Hb.
  rewrite length_take in Hb. destruct p as [a s], Hp as [Ha _]. rewrite adler_sums_eq. cbn [fst snd] in *.
  unfold BASE in *. lia.
Qed.

Lemma adler32_run p l len :
  bytes l -> adler_ok p -> 0 <= len <= Z.of_nat (length l) ->
  adler32 (join p) (Some l) len = Some (join (adler_ref p (take (Z.to_nat len) l))).
Proof.
  intros Hl Hp Hlen. unfold adler32. rewrite join_low, join_high by done.
  destruct (Z.eqb_spec len 1) as [->|H1].
  { destruct l as [|b l]; [simpl in Hlen; lia|]. apply Forall_cons in Hl as [Hb _]. destruct p as [a s], Hp as [Ha Hs].
    unfold BASE in *. cbn [fst snd] in *. rewrite u64_small, (sub_base_mod (a + b)) by (unfold BASE; lia).
    pose proof (Z.mod_pos_bound (a + b) BASE ltac:(unfold BASE; lia)). unfold BASE in *.
    rewrite u64_small, sub_base_mod by (unfold BASE; lia). unfold BASE. rewrite Zplus_mod_idemp_r. done. }
  destruct (Z.ltb_spec len 16) as [H16|H16]; [by apply adler32_short|].
  destruct (blocks_ok (S (Z.to_nat len)) p l len) as (k & p' & -> & Hk & Hr & Hp' & Hmod); [done..|lia|].
  cbn [mbind option_bind]. assert (Hd : bytes (drop k l)) by by apply Forall_drop.
  destruct (Z.eqb_spec (len - Z.of_nat k) 0) as [H0|H0].
  - cbn [mbind option_bind ad sum2]. replace (Z.to_nat len) with k by lia.
    unfold adler_ref. rewrite <- Hmod, mod_pair_id by done. done.
  - rewrite tail_ok by (done || rewrite ?length_drop; lia). cbn [mbind option_bind ad sum2].
    unfold adler_ref. rewrite <- mod_pair_sums, Hmod, mod_pair_sums, <- adler_sums_app, take_take_drop.
    by replace (k + Z.to_nat (len - Z.of_nat k))%nat with (Z.to_nat len) by lia.
Qed.

(** Two messages end to end, from the usual start (1, 0). *)
Lemma adler_ref_app l1 l2 :
  let (a1, s1) := adler_ref (1, 0) l1 in
  let (a2, s2) := adler_ref (1, 0) l2 in
  let n := Z.of_nat (length l2) in
  adler_ref (1, 0) (l1 ++ l2) = ((a1 + a2 - 1) mod BASE, (s1 + s2 + n * a1 - n) mod BASE).
Proof.
  unfold adler_ref at 3. rewrite adler_sums_app, <- mod_pair_sums. fold (adler_ref (1, 0) l1).
  destruct (adler_ref (1, 0) l1) as [a1 s1]. unfold adler_ref, mod_pair.
  rewrite (adler_sums_eq a1), (adler_sums_eq 1). cbn [fst snd]. set (x := fst _). set (y := snd _). set (n := Z.of_nat _).
  pose proof (Z_div_mod_eq_full (1 + x) BASE). pose proof (Z_div_mod_eq_full (0 + n * 1 + y) BASE). f_equal.
  - apply (mod_shift _ _ _ ((1 + x) / BASE)). lia.
  - apply (mod_shift _ _ _ ((0 + n * 1 + y) / BASE)). lia.
Qed.

Lemma adler32_combine_run p1 p2 len :
  adler_ok p1 -> adler_ok p2 -> 0 <= len ->
  adler32_combine (join p1) (join p2) len =
    join ((fst p1 + fst p2 - 1) mod BASE, (snd p1 + snd p2 + len * fst p1 - len) mod BASE).
Proof.
  intros H1 H2 Hlen. unfold adler32_combine. rewrite (proj2 (Z.ltb_ge _ _)) by lia.
  rewrite !join_low, !join_high by done. destruct p1 as [a1 s1], p2 as [a2 s2], H1 as [Ha1 Hs1], H2 as [Ha2 Hs2].
  cbn [fst snd] in *. pose proof (Z.mod_pos_bound len BASE ltac:(done)) as Hr. set (r := len mod BASE) in *.
  unfold BASE in Hr, Ha1, Ha2, Hs1, Hs2. rewrite (u32_small r) by lia.
  rewrite (u64_small (r * a1)) by nia. pose proof (Z.mod_pos_bound (r * a1) BASE ltac:(done)) as Ht.
  set (t := (r * a1) mod BASE) in *. change (0 <= t < 65521) in Ht. rewrite !u64_small by (unfold BASE; lia).
  assert (E1 : sub_base (sub_base (a1 + a2 + BASE - 1)) = (a1 + a2 - 1) mod BASE).
  { assert (0 <= sub_base (a1 + a2 + BASE - 1) < 2 * BASE) by (unfold sub_base, BASE; zcases; lia).
    rewrite sub_base_mod by done. unfold sub_base. case_if; [|symmetry].
    - f_equal. lia.
    - apply (mod_shift _ _ _ (-1)). lia. }
  set (s2' := t + s1 + s2 + BASE - r) in *.
  assert (E2 : sub_base (if 2 * BASE <=? s2' then s2' - 2 * BASE else s2') = (s1 + s2 + len * a1 - len) mod BASE).
  { assert (Es : s2' mod BASE = (s1 + s2 + len * a1 - len) mod BASE).
    { pose proof (Z_div_mod_eq_full len BASE) as El. fold r in El. pose proof (Z_div_mod_eq_full (r * a1) BASE) as Et. fold t in Et.
      symmetry. apply (mod_shift _ _ _ (len / BASE * a1 - len / BASE + (r * a1) / BASE - 1)). unfold s2'. nia. }
    rewrite <- Es. rewrite sub_base_mod by (unfold s2', BASE; zcases; lia).
    case_if; [|done]. apply (mod_shift _ _ _ (-2)). lia. }
  by rewrite E1, E2.
Qed.
