(* ===== verification/CksumProps.v ===== *)
(** * Properties of the checksums

    Both routines compute their definition on every message, and both combine
    routines compute the checksum of a concatenation from those of its parts. *)

From S2P Require Import Prelude Cksum CrcSpec AdlerSpec.

(** C36: [crc32] equals the bit-serial shift register of the CRC-32 polynomial
    with its pre- and post-inversion, for every starting value and message:
    the 256 table entries of crc32.h and the unrolled loops are correct. *)
Theorem crc32_spec c l len :
  bytes l -> 0 <= len <= Z.of_nat (length l) ->
  crc32 c (Some l) len = Some (crc_ref c (take (Z.to_nat len) l)).
Proof. apply crc32_run. Qed.

(** A CRC can be continued and combined: checksumming a message in two parts,
    carrying the value over, gives the checksum of the whole, and so does
    [crc32_combine] on the checksums of the parts, by repeated squaring of the
    operator that appends a zero bit; its loops end within their bounds. *)
Theorem crc32_combine_spec l1 l2 :
  bytes l1 -> bytes l2 -> Z.of_nat (length l2) < 2 ^ 32 ->
  let n1 := Z.of_nat (length l1) in let n2 := Z.of_nat (length l2) in
  exists c1 c2 c,
    crc32 0 (Some l1) n1 = Some c1 /\ crc32 0 (Some l2) n2 = Some c2 /\
    crc32 0 (Some (l1 ++ l2)) (n1 + n2) = Some c /\
    crc32 c1 (Some l2) n2 = Some c /\ crc32_combine c1 c2 n2 = Some c.
Proof.
  intros H1 H2 Hn n1 n2. assert (H12 : bytes (l1 ++ l2)) by by apply Forall_app.
  exists (crc_ref 0 l1), (crc_ref 0 l2), (crc_ref 0 (l1 ++ l2)).
  rewrite !crc32_run by (done || rewrite ?length_app; unfold n1, n2; lia).
  rewrite !take_ge by (rewrite ?length_app; unfold n1, n2; lia). rewrite crc_ref_app. split_and!; try done.
  destruct (decide (l2 = [])) as [->|Hne].
  { rewrite (crc_ref_nil (crc_ref 0 l1)). exact (crc32_combine_nil _ _). }
  assert (length l2 <> 0%nat) by (by destruct l2).
  rewrite crc32_combine_run, (crc_ref_shift (crc_ref 0 l1) l2) by (try apply crc_ref_range; done || lia).
  unfold n2. by rewrite Nat2Z.id.
Qed.

(** [adler32], with its reductions deferred to blocks of 5552 bytes, its
    unrolled loops and its two short paths, computes the two sums of the message
    modulo 65521, from the start or from any earlier value; and
    [adler32_combine] computes the checksum of a concatenation. *)
Theorem adler32_spec p l len l1 l2 :
  bytes l -> adler_ok p -> 0 <= len <= Z.of_nat (length l) ->
  adler32 (join p) (Some l) len = Some (join (adler_ref p (take (Z.to_nat len) l))) /\
  adler32_combine (join (adler_ref (1, 0) l1)) (join (adler_ref (1, 0) l2)) (Z.of_nat (length l2)) =
    join (adler_ref (1, 0) (l1 ++ l2)).
Proof.
  intros Hl Hp Hlen. split; [by apply adler32_run|].
  rewrite adler32_combine_run by (apply mod_pair_ok || lia). pose proof (adler_ref_app l1 l2) as E.
  destruct (adler_ref (1, 0) l1), (adler_ref (1, 0) l2). by rewrite E.
Qed.

(** ** Witnesses *)

(** "123456789" and its standard check values. *)
Definition check_msg : list Z := [49; 50; 51; 52; 53; 54; 55; 56; 57].
Lemma check_msg_bytes : bytes check_msg.
Proof. unfold bytes, check_msg. repeat constructor; lia. Qed.

Lemma crc32_spec_witness : crc32 0 (Some check_msg) 9 = Some 0xcbf43926.
Proof. rewrite crc32_spec; [vm_compute; reflexivity|exact check_msg_bytes|vm_compute; split; congruence]. Defined.

Lemma crc32_combine_spec_witness :
  crc32_combine 0xcbf43926 0xcbf43926 9 = crc32 0 (Some (check_msg ++ check_msg)) 18.
Proof.
  destruct (crc32_combine_spec check_msg check_msg) as (c1 & c2 & c & H1 & H2 & H & _ & Hc);
    [exact check_msg_bytes|exact check_msg_bytes|vm_compute; reflexivity|].
  assert (E : crc32 0 (Some check_msg) 9 = Some 0xcbf43926) by (vm_compute; reflexivity).
  change (Z.of_nat (length check_msg)) with 9 in *. rewrite E in H1, H2.
  injection H1 as <-. injection H2 as <-. rewrite Hc. symmetry. exact H.
Defined.

Lemma adler32_spec_witness : adler32 1 (Some check_msg) 9 = Some 0x091e01de.
Proof.
  change 1 with (join (1, 0)).
  rewrite (proj1 (adler32_spec (1, 0) check_msg 9 [] [] check_msg_bytes ltac:(split; vm_compute; split; congruence)
    ltac:(vm_compute; split; congruence))). vm_compute. reflexivity.
Defined.
