(* ===== verification/Console.v ===== *)
(** * The command console: lib/console/console.c

    A line is read key by key with editing and a history of sixteen lines, split
    into commands and tokens, and each command is looked up and called.

    Keys come from the list [input]; [tegrabl_getc] takes the first, and a line
    that is not complete when the list is empty leaves the console waiting,
    [Blocked].  What is written to the terminal is the list [output].  Rows of
    the history are kept as the strings they hold: every access to a row is one
    to a string.  [debug_buffer] is an array, so a store outside it is a panic,
    as is a failed [DEBUG_ASSERT].  Positions in a line are naturals.  What the
    registered commands do is the argument [callback]; the rest of a line behind
    a semicolon is taken as it was before the command, since no command gets at
    the line buffer.  The mutex of the shell is held or free, the shell is its
    only user.  [pr_debug] traces are left out. *)

From S2P Require Import Prelude Arrays Mem MemSpec CStr.
Local Open Scope lk_scope.

Definition LINE_LEN : nat := 128.
Definition MAX_NUM_ARGS : nat := 16.
Definition HISTORY_LEN : nat := 16.

(** The characters of a literal. *)
Definition text_of (s : string) : list Z := (fun c => Z.of_nat (Ascii.nat_of_ascii c)) <$> String.list_ascii_of_string s.

Definition set_at {A} (l : list A) (i : nat) (x : A) : option (list A) := blit l i [x].

(** ** Tokens *)

Inductive tstate : Type :=
| INITIAL | NEXT_FIELD | SPACE | IN_SPACE | TOKEN | IN_TOKEN | QUOTED_TOKEN | IN_QUOTED_TOKEN | VAR | IN_VAR | COMMAND_SEP.

(** The variables of [tokenize_command]: [t_args] holds the [str] fields, as
    positions in [t_buf]. *)
Record tk : Type := Tk {
  t_state : tstate;
  inpos : nat;
  outpos : nat;
  t_arg : nat;
  t_args : list nat;
  t_buf : list Z;
  varname : list Z;
  varnamepos : nat;
  continuebuffer : option (list Z);
}.

Definition goto (q : tstate) (t : tk) : tk :=
  Tk q (inpos t) (outpos t) (t_arg t) (t_args t) (t_buf t) (varname t) (varnamepos t) (continuebuffer t).
Definition consume (t : tk) : tk :=
  Tk (t_state t) (S (inpos t)) (outpos t) (t_arg t) (t_args t) (t_buf t) (varname t) (varnamepos t) (continuebuffer t).
Definition next_arg (t : tk) : tk :=
  Tk (t_state t) (inpos t) (outpos t) (S (t_arg t)) (t_args t) (t_buf t) (varname t) (varnamepos t) (continuebuffer t).
Definition put (c : Z) (t : tk) : option tk :=
  (fun b => Tk (t_state t) (inpos t) (S (outpos t)) (t_arg t) (t_args t) b (varname t) (varnamepos t) (continuebuffer t))
    <$> set_at (t_buf t) (outpos t) c.
Definition start_arg (t : tk) : option tk :=
  (fun a => Tk (t_state t) (inpos t) (outpos t) (t_arg t) a (t_buf t) (varname t) (varnamepos t) (continuebuffer t))
    <$> set_at (t_args t) (t_arg t) (outpos t).
Definition put_name (c : Z) (n : nat) (t : tk) : option tk :=
  (fun v => Tk (t_state t) (inpos t) (outpos t) (t_arg t) (t_args t) (t_buf t) v n (continuebuffer t))
    <$> set_at (varname t) (varnamepos t) c.
Definition reset_name (t : tk) : tk :=
  Tk (t_state t) (inpos t) (outpos t) (t_arg t) (t_args t) (t_buf t) (varname t) 0 (continuebuffer t).
Definition set_continue (l : list Z) (t : tk) : tk :=
  Tk (t_state t) (inpos t) (outpos t) (t_arg t) (t_args t) (t_buf t) (varname t) (varnamepos t) (Some l).

(** One turn of the loop: on with it, or [goto done]. *)
Definition token_step (line : list Z) (arg_count : nat) (t : tk) : option (tk + tk) :=
  let c := nth (inpos t) line 0 in
  match t_state t with
  | INITIAL | NEXT_FIELD =>
      if c =? 0 then Some (inr t)
      else if isspace c then Some (inl (goto SPACE t))
      else if c =? 59 then Some (inl (goto COMMAND_SEP t))
      else Some (inl (goto TOKEN t))
  | SPACE => Some (inl (goto IN_SPACE t))
  | IN_SPACE =>
      if c =? 0 then Some (inr t)
      else if c =? 59 then Some (inl (goto COMMAND_SEP t))
      else if negb (isspace c) then Some (inl (goto TOKEN t))
      else Some (inl (consume t))
  | TOKEN =>
      if c =? 0 then None
      else if c =? 34 then Some (inl (goto QUOTED_TOKEN t))
      else if c =? 36 then Some (inl (goto VAR t))
      else (fun t => inl (goto IN_TOKEN t)) <$> start_arg t
  | IN_TOKEN =>
      if c =? 0 then Some (inr (next_arg t))
      else if isspace c || (c =? 59) then
        t ← put 0 (next_arg t);
        if (t_arg t =? arg_count)%nat then Some (inr t) else Some (inl (goto NEXT_FIELD t))
      else t ← put c t; Some (inl (consume t))
  | QUOTED_TOKEN =>
      if negb (c =? 34) then None
      else (fun t => inl (consume (goto IN_QUOTED_TOKEN t))) <$> start_arg t
  | IN_QUOTED_TOKEN =>
      if c =? 0 then Some (inr (next_arg t))
      else if c =? 34 then
        t ← put 0 (next_arg t);
        if (t_arg t =? arg_count)%nat then Some (inr t)
        else t ← put c (goto NEXT_FIELD t); Some (inl (consume t))
      else t ← put c t; Some (inl (consume t))
  | VAR =>
      if negb (c =? 36) then None
      else (fun t => inl (reset_name (consume (goto IN_VAR t)))) <$> start_arg t
  | IN_VAR =>
      if (c =? 0) || isspace c || (c =? 59) then
        t ← put_name 0 (varnamepos t) t;
        t ← put 48 t;
        t ← put 0 t;
        let t := next_arg t in
        if (t_arg t =? arg_count)%nat then Some (inr t) else Some (inl (goto NEXT_FIELD t))
      else t ← put_name c (S (varnamepos t)) t; Some (inl (consume t))
  | COMMAND_SEP =>
      if negb (c =? 59) then None
      else let t := consume t in Some (inr (set_continue (drop (inpos t) line) t))
  end.

Fixpoint token_loop (fuel : nat) (line : list Z) (arg_count : nat) (t : tk) : option tk :=
  match fuel with
  | O => None
  | S fuel' =>
      match token_step line arg_count t with
      | None => None
      | Some (inl t) => token_loop fuel' line arg_count t
      | Some (inr t) => Some t
      end
  end.

(** The number of tokens, where they start, the buffer that holds them and the
    rest of the line behind a semicolon.  [name] is what is in [varname]. *)
Definition tokenize_command (line buffer name : list Z) (args : list nat) (arg_count : nat)
    : option (nat * list nat * list Z * option (list Z)) :=
  t ← token_loop (4 * length line + 4) line arg_count (Tk INITIAL 0 0 0 args buffer name 0 None);
  b ← set_at (t_buf t) (outpos t) 0;
  Some (t_arg t, t_args t, b, continuebuffer t).

(** ** Arguments *)

Record cmd_args : Type := { a_str : list Z; a_u : Z; a_i : Z; a_b : bool }.

(** A routine of the C library on the string [str]. *)
Definition on_string {A} (f : Z -> M mem A) (str : list Z) : option A :=
  fst <$> f 0 (store ∅ 0 (str ++ [0])).

Definition convert_arg (str : list Z) : option cmd_args :=
  u ← on_string atoui str;
  i ← on_string atoi str;
  let b :=
    if bool_decide (str = text_of "true") || bool_decide (str = text_of "on") then true
    else if bool_decide (str = text_of "false") || bool_decide (str = text_of "off") then false
    else negb (u =? 0) in
  Some {| a_str := str; a_u := u; a_i := i; a_b := b |}.
Definition convert_args (buf : list Z) (args : list nat) (argc : nat) : option (list cmd_args) :=
  mapM (fun p => until_nul (drop p buf) ≫= convert_arg) (take argc args).

(** ** The console *)

Record cmd : Type := { cmd_str : list Z; help_str : option (list Z); cmd_id : nat }.

Record console : Type := {
  input : list Z;
  output : list Z;
  echo : bool;
  debug_buffer : list Z;
  history : list (list Z);
  history_next : nat;
  command_list : list (list cmd);
  command_lock : bool;
  abort_script : bool;
  lastresult : Z;
}.

Definition set_input (l : list Z) (s : console) : console :=
  {| input := l; output := output s; echo := echo s; debug_buffer := debug_buffer s; history := history s;
     history_next := history_next s; command_list := command_list s; command_lock := command_lock s;
     abort_script := abort_script s; lastresult := lastresult s |}.
Definition emit (l : list Z) (s : console) : console :=
  {| input := input s; output := output s ++ l; echo := echo s; debug_buffer := debug_buffer s; history := history s;
     history_next := history_next s; command_list := command_list s; command_lock := command_lock s;
     abort_script := abort_script s; lastresult := lastresult s |}.
Definition set_buffer (b : list Z) (s : console) : console :=
  {| input := input s; output := output s; echo := echo s; debug_buffer := b; history := history s;
     history_next := history_next s; command_list := command_list s; command_lock := command_lock s;
     abort_script := abort_script s; lastresult := lastresult s |}.
Definition set_history (h : list (list Z)) (n : nat) (s : console) : console :=
  {| input := input s; output := output s; echo := echo s; debug_buffer := debug_buffer s; history := h;
     history_next := n; command_list := command_list s; command_lock := command_lock s;
     abort_script := abort_script s; lastresult := lastresult s |}.
Definition set_commands (c : list (list cmd)) (s : console) : console :=
  {| input := input s; output := output s; echo := echo s; debug_buffer := debug_buffer s; history := history s;
     history_next := history_next s; command_list := c; command_lock := command_lock s;
     abort_script := abort_script s; lastresult := lastresult s |}.
Definition set_lock (b : bool) (s : console) : console :=
  {| input := input s; output := output s; echo := echo s; debug_buffer := debug_buffer s; history := history s;
     history_next := history_next s; command_list := command_list s; command_lock := b;
     abort_script := abort_script s; lastresult := lastresult s |}.
Definition set_abort (b : bool) (s : console) : console :=
  {| input := input s; output := output s; echo := echo s; debug_buffer := debug_buffer s; history := history s;
     history_next := history_next s; command_list := command_list s; command_lock := command_lock s;
     abort_script := b; lastresult := lastresult s |}.
Definition set_result (r : Z) (s : console) : console :=
  {| input := input s; output := output s; echo := echo s; debug_buffer := debug_buffer s; history := history s;
     history_next := history_next s; command_list := command_list s; command_lock := command_lock s;
     abort_script := abort_script s; lastresult := r |}.

(** *** History *)

Definition ptrnext (p : nat) : nat := (p + 1) mod HISTORY_LEN.
Definition ptrprev (p : nat) : nat := Z.to_nat (u32 (Z.of_nat p - 1) mod Z.of_nat HISTORY_LEN).
Definition history_line (p : nat) : M console (list Z) := getopt (fun s => history s !! p).

Definition init_history : M console unit := modify (set_history (replicate HISTORY_LEN []) 0).

(** The string the [LINE_LEN] bytes of a row hold after [strlcpy]. *)
Definition add_history (line : list Z) : M console unit :=
  when negb (bool_decide (line = [])) do
    (let* next := gets history_next in
     let* last := history_line (ptrprev next) in
     when negb (bool_decide (line = last)) do
       (let* h := getopt (fun s => set_at (history s) next (take (LINE_LEN - 1) line)) in
        modify (set_history h (ptrnext next)))).

Definition start_history_cursor : M console nat := gets (fun s => ptrprev (history_next s)).

Definition next_history (cursor : nat) : M console (list Z * nat) :=
  let i := ptrnext cursor in
  let* next := gets history_next in
  if (i =? next)%nat then ret ([], cursor)
  else let* l := history_line i in ret (l, i).

Definition prev_history (cursor : nat) : M console (list Z * nat) :=
  let* str := history_line cursor in
  let* next := gets history_next in
  if (cursor =? next)%nat then ret (str, cursor)
  else
    let i := ptrprev cursor in
    let* l := history_line i in
    if bool_decide (l = []) then ret (str, cursor) else ret (str, i).

Fixpoint dump_rows (n ptr : nat) : M console unit :=
  match n with
  | O => ret tt
  | S n' =>
      let* l := history_line ptr in
      (when negb (bool_decide (l = [])) do modify (emit (l ++ [10]))) ;;;
      dump_rows n' (ptrnext ptr)
  end.
Definition dump_history : M console unit :=
  modify (emit (text_of "command history:" ++ [10])) ;;; dump_rows HISTORY_LEN 0.

(** *** Reading a line *)

Inductive line_res : Type := Blocked | Line (len : nat).

Definition tegrabl_puts (l : list Z) : M console unit := modify (emit l).
Definition echo_puts (l : list Z) : M console unit := let* e := gets echo in when e do tegrabl_puts l.
Definition rubout : list Z := [8; 32; 8].
Definition str_too_long : list Z := [10] ++ text_of "error: line too long" ++ [10].

Definition store_char (pos : nat) (c : Z) : M console unit :=
  let* b := getopt (fun s => set_at (debug_buffer s) pos (u8 c)) in modify (set_buffer b).

Fixpoint wipe (pos : nat) : M console unit :=
  match pos with O => ret tt | S pos' => echo_puts rubout ;;; wipe pos' end.

(** [strlcpy(buffer, str, LINE_LEN)]. *)
Definition load_line (str : list Z) : M console unit :=
  let* b := getopt (fun s => blit (debug_buffer s) 0 (take (LINE_LEN - 1) str ++ [0])) in modify (set_buffer b).

(** The position, the escape level, the cursor, and whether the line is done. *)
Definition plain_key (c : Z) (pos : nat) : M console (nat * nat * bool) :=
  if (c =? 13) || (c =? 10) then echo_puts [10] ;;; ret (pos, 0%nat, true)
  else if (c =? 127) || (c =? 8) then
    match pos with
    | O => ret (O, 0%nat, false)
    | S pos' => tegrabl_puts rubout ;;; ret (pos', 0%nat, false)
    end
  else if c =? 27 then ret (pos, 2%nat, false)
  else store_char pos c ;;; echo_puts [u8 c] ;;; ret (S pos, 0%nat, false).

Definition escape_key (c : Z) (pos cursor : nat) : M console (nat * nat) :=
  if c =? 67 then store_char pos 32 ;;; echo_puts [32] ;;; ret (S pos, cursor)
  else if c =? 68 then
    match pos with O => ret (O, cursor) | S pos' => echo_puts rubout ;;; ret (pos', cursor) end
  else if (c =? 65) || (c =? 66) then
    wipe pos ;;;
    let* (str, cursor) := if c =? 65 then prev_history cursor else next_history cursor in
    load_line str ;;;
    let* b := gets debug_buffer in
    let* line := getopt (fun _ => until_nul b) in
    echo_puts line ;;;
    ret (length line, cursor)
  else ret (pos, cursor).

Definition finish_line (pos : nat) : M console line_res :=
  store_char pos 0 ;;;
  let* b := gets debug_buffer in
  let* line := getopt (fun _ => until_nul b) in
  add_history line ;;;
  ret (Line pos).

Fixpoint read_loop (keys : list Z) (pos esc cursor : nat) : M console line_res :=
  match keys with
  | [] => modify (set_input []) ;;; ret Blocked
  | c :: keys' =>
      if c <? 0 then read_loop keys' pos esc cursor
      else
        let* (pos, esc, cursor, fin) :=
          match esc with
          | O => let* (pos, esc, fin) := plain_key c pos in ret (pos, esc, cursor, fin)
          | 1%nat => ret (pos, if c =? 91 then 2%nat else 0%nat, cursor, false)
          | _ => let* (pos, cursor) := escape_key c pos cursor in ret (pos, 0%nat, cursor, false)
          end in
        if (fin : bool) then modify (set_input keys') ;;; finish_line pos
        else if (pos =? LINE_LEN - 1)%nat then
          tegrabl_puts str_too_long ;;; modify (set_input keys') ;;; finish_line 0
        else read_loop keys' pos esc cursor
  end.
Definition read_debug_line : M console line_res :=
  let* cursor := start_history_cursor in
  let* keys := gets input in
  read_loop keys 0 0 cursor.

(** *** Commands *)

Definition console_register_commands (block : list cmd) : M console unit :=
  modify (fun s => set_commands (block :: command_list s) s).

Definition match_command (command : list Z) (s : console) : option cmd :=
  List.find (fun c => bool_decide (command = cmd_str c)) (concat (command_list s)).

Definition console_init (commands : list (list cmd)) : M console unit :=
  modify (set_lock false) ;;;
  foldr (fun b k => console_register_commands b ;;; k) init_history commands.

Definition console_abort_script : M console unit := modify (set_abort true).

(** The commands of the file itself. *)
Definition cmd_exit : M console Z := console_abort_script ;;; ret 0.
Definition cmd_history : M console Z := dump_history ;;; ret 0.
Definition cmd_echo (argv : list cmd_args) : M console Z :=
  (when (1 <? length argv)%nat do
     tegrabl_puts (concat ((fun a => a_str a ++ [32]) <$> tail argv) ++ [10])) ;;; ret 0.
Definition cmd_help : M console Z :=
  let* cs := gets command_list in
  tegrabl_puts (text_of "command list:" ++ [10] ++
    concat ((fun c => match help_str c with Some h => cmd_str c ++ text_of " - " ++ h ++ [10] | None => [] end) <$> concat cs)) ;;;
  ret 0.

Section loop.
Context (callback : cmd -> list cmd_args -> M console Z).

Definition mutex_acquire_lock : M console unit :=
  let* l := gets command_lock in assert_ (negb l) ;;; modify (set_lock true).
Definition mutex_release_lock : M console unit :=
  let* l := gets command_lock in assert_ l ;;; modify (set_lock false).

Definition str_prompt : list Z := text_of "TEGRA194 # ".
Definition str_not_found : list Z := text_of "command not found - try 'help'" ++ [10].

(** What is done with one command line: whether to leave the shell, and the
    rest of the line. *)
Definition run_command (showprompt locked : bool) (outbuf name : list Z) (args : list nat) (line : list Z)
    : M console (bool * option (list Z) * list Z * list nat) :=
  let* (argc, args, outbuf, rest) := getopt (fun _ => tokenize_command line outbuf name args MAX_NUM_ARGS) in
  if (argc =? 0)%nat then ret (false, rest, outbuf, args)
  else
    let* argv := getopt (fun _ => convert_args outbuf args argc) in
    let* a0 := getopt (fun _ => head argv) in
    let* command := gets (match_command (a_str a0)) in
    match command with
    | None => (when showprompt do tegrabl_puts str_not_found) ;;; ret (false, rest, outbuf, args)
    | Some command =>
        (when negb locked do mutex_acquire_lock) ;;;
        modify (set_abort false) ;;;
        let* r := callback command argv in
        modify (set_result r) ;;;
        let* ex := gets abort_script in
        modify (set_abort false) ;;;
        (when negb locked do mutex_release_lock) ;;;
        ret (ex, rest, outbuf, args)
    end.

(** [command_loop] over [read_debug_line]: [true] when a command has ended it,
    [false] when it waits for input.  [outbuf] and [args] are the allocated
    arrays, [name] what the stack holds where [varname] is. *)
Fixpoint command_loop (fuel : nat) (showprompt locked : bool) (outbuf name : list Z) (args : list nat)
    (continue : option (list Z)) : M console bool :=
  match fuel with
  | O => panic
  | S fuel' =>
      let* line :=
        match continue with
        | None =>
            (when showprompt do tegrabl_puts str_prompt) ;;;
            let* r := read_debug_line in
            match r with
            | Blocked => ret None
            | Line O => ret (Some None)
            | Line (S _) => let* b := gets debug_buffer in let* l := getopt (fun _ => until_nul b) in ret (Some (Some l))
            end
        | Some l => ret (Some (Some l))
        end in
      match line with
      | None => ret false
      | Some None => command_loop fuel' showprompt locked outbuf name args None
      | Some (Some l) =>
          let* (ex, rest, outbuf, args) := run_command showprompt locked outbuf name args l in
          if (ex : bool) then ret true
          else command_loop fuel' showprompt locked outbuf name args rest
      end
  end.
End loop.
