(* ===== verification/ConsoleTok.v ===== *)
(** * Splitting a command line

    [lexes l ts r]: the line [l] starts with a command of the tokens [ts], and
    [r] is the rest of the line behind its semicolon.  The state machine of
    [tokenize_command] computes exactly that, up to the number of tokens it has
    room for. *)

From S2P Require Import Prelude Arrays Mem MemSpec CStr Console.
Local Open Scope lk_scope.

(** ** The grammar of a line *)

Definition sep (c : Z) : bool := isspace c || (c =? 59).
Definition ends (l : list Z) : Prop := match l with [] => True | c :: _ => sep c = true end.
Definition word (w : list Z) : Prop := Forall (fun c => sep c = false) w.

Inductive lexes : list Z -> list (list Z) -> option (list Z) -> Prop :=
| L_end : lexes [] [] None
| L_space c l ts r : isspace c = true -> lexes l ts r -> lexes (c :: l) ts r
| L_sep l : lexes (59 :: l) [] (Some l)
| L_word c w l ts r : sep c = false -> c <> 34 -> c <> 36 -> word w -> ends l -> lexes l ts r ->
    lexes (c :: w ++ l) ((c :: w) :: ts) r
| L_quoted w l ts r : Forall (fun c => c <> 34) w -> lexes l ts r -> lexes (34 :: w ++ 34 :: l) (w :: ts) r
| L_open w : Forall (fun c => c <> 34) w -> lexes (34 :: w) [w] None
| L_var w l ts r : word w -> ends l -> lexes l ts r -> lexes (36 :: w ++ l) ([48] :: ts) r.

(** Every line can be split. *)
Lemma cut_word l : exists w r, l = w ++ r /\ word w /\ ends r.
Proof.
  induction l as [|c l (w & r & -> & Hw & Hr)]; [by exists [], []; repeat constructor|].
  destruct (sep c) eqn:E.
  - exists [], (c :: w ++ r). by repeat constructor.
  - exists (c :: w), r. split_and!; [done|by constructor|done].
Qed.

Lemma cut_quote l : exists w, Forall (fun c => c <> 34) w /\ (l = w \/ exists r, l = w ++ 34 :: r).
Proof.
  induction l as [|c l (w & Hw & H)]; [exists []; by split; [constructor|left]|].
  destruct (decide (c = 34)) as [->|Hc].
  - exists []. split; [constructor|]. right. by exists l.
  - exists (c :: w). split; [by constructor|]. destruct H as [->|[r ->]]; [by left|right; by exists r].
Qed.

Lemma lexes_total l : exists ts r, lexes l ts r.
Proof.
  assert (H : forall n l, (length l < n)%nat -> exists ts r, lexes l ts r); [|by apply (H (S (length l))); lia].
  induction n as [|n IH]; intros l' Hl; [lia|]. destruct l' as [|c l']; [do 2 eexists; apply L_end|]. cbn [length] in Hl.
  destruct (isspace c) eqn:Es.
  { destruct (IH l') as (ts & r & H); [lia|]. do 2 eexists. by apply L_space. }
  destruct (decide (c = 59)) as [->|H59]; [do 2 eexists; apply L_sep|].
  assert (Hs : sep c = false) by (unfold sep; rewrite Es; by apply Z.eqb_neq).
  destruct (decide (c = 34)) as [->|H34].
  { destruct (cut_quote l') as (w & Hw & [->|[r ->]]); [do 2 eexists; by apply L_open|].
    destruct (IH r) as (ts & r' & H); [rewrite length_app in Hl; cbn in Hl; lia|]. do 2 eexists. by apply L_quoted. }
  destruct (cut_word l') as (w & r & -> & Hw & Hr). rewrite length_app in Hl.
  destruct (IH r) as (ts & r' & H); [lia|]. destruct (decide (c = 36)) as [->|H36]; do 2 eexists; [by apply L_var|by apply L_word].
Qed.

(** ** The machine *)

Definition tokened (em : list Z) (args : list nat) (toks : list (list Z)) : Prop :=
  forall i tok, toks !! i = Some tok -> exists p, args !! i = Some p /\ slice em p (S (length tok)) = tok ++ [0].

Lemma slice_mid {A} (a b c : list A) : slice (a ++ b ++ c) (length a) (length b) = b.
Proof. unfold slice. by rewrite drop_app_length, take_app_length. Qed.

Lemma slice_token (em w x : list Z) : slice (em ++ w ++ [0] ++ x) (length em) (S (length w)) = w ++ [0].
Proof.
  replace (S (length w)) with (length (w ++ [0])) by (rewrite length_app; cbn; lia).
  rewrite (app_assoc w). apply slice_mid.
Qed.

Lemma tokened_app em em' args toks : tokened em args toks -> tokened (em ++ em') args toks.
Proof.
  intros H i tok Hi. destruct (H i tok Hi) as (p & Hp & Hs). exists p. split; [done|].
  assert (Hl : (p + S (length tok) <= length em)%nat).
  { apply (f_equal length) in Hs. rewrite length_app in Hs. unfold slice in Hs. rewrite length_take, length_drop in Hs. change (length [0]) with 1%nat in Hs. lia. }
  rewrite <- Hs. unfold slice. rewrite drop_app_le by lia. rewrite take_app_le; [done|]. rewrite length_drop. lia.
Qed.

Lemma tokened_snoc em w args toks p :
  tokened em args toks -> args !! length toks = Some p -> slice em p (S (length w)) = w ++ [0] ->
  tokened em args (toks ++ [w]).
Proof.
  intros H Hp Hs i tok Hi. apply lookup_snoc_Some in Hi as [[? Hi]|[-> <-]]; [by apply H|by exists p].
Qed.

Lemma tokened_insert em args args' toks k p :
  tokened em args toks -> set_at args k p = Some args' -> (length toks <= k)%nat -> tokened em args' toks.
Proof.
  intros H Ha Hk i tok Hi. destruct (H i tok Hi) as (q & Hq & Hs). exists q. split; [|done].
  rewrite (blit_lookup _ _ _ _ i Ha). apply lookup_lt_Some in Hi. rewrite decide_False by (cbn; lia). done.
Qed.

Lemma set_at_run {A} (l : list A) i x : (i < length l)%nat -> set_at l i x = Some (take i l ++ [x] ++ drop (i + 1) l).
Proof. intros H. unfold set_at. by rewrite blit_Some by (cbn; lia). Qed.

Section machine.
Context (line : list Z) (count cap : nat).

Record at_ (q : tstate) (l em : list Z) (k : nat) (toks : list (list Z)) (t : tk) : Prop := {
  at_state : t_state t = q;
  at_in : drop (inpos t) line = l;
  at_out : outpos t = length em;
  at_buf : take (length em) (t_buf t) = em;
  at_cap : length (t_buf t) = cap;
  at_arg : t_arg t = k;
  at_args : tokened em (t_args t) toks;
  at_count : length (t_args t) = count;
  at_name : length (varname t) = 128%nat;
  at_cont : continuebuffer t = None;
}.

Lemma at_char q l em k toks t : at_ q l em k toks t -> nth (inpos t) line 0 = hd 0 l.
Proof.
  intros H. rewrite <- (at_in _ _ _ _ _ _ H). clear. generalize (inpos t) as n. induction line as [|c l IH]; intros [|n]; cbn; auto.
Qed.

Lemma at_goto q q' l em k toks t : at_ q l em k toks t -> at_ q' l em k toks (goto q' t).
Proof. intros []. by split. Qed.

Lemma at_consume q c l em k toks t : at_ q (c :: l) em k toks t -> at_ q l em k toks (consume t).
Proof.
  intros [H1 H2]. split; try done. cbn [inpos consume]. replace (S (inpos t)) with (inpos t + 1)%nat by lia.
  by rewrite <- drop_drop, H2.
Qed.

Lemma at_next_arg q l em k toks t : at_ q l em k toks t -> at_ q l em (S k) toks (next_arg t).
Proof. intros []. split; try done. cbn. congruence. Qed.

Lemma at_put q l em k toks t c :
  at_ q l em k toks t -> (length em < cap)%nat ->
  exists t', put c t = Some t' /\ at_ q l (em ++ [c]) k toks t' /\ t_args t' = t_args t /\
    varnamepos t' = varnamepos t.
Proof.
  intros [H1 H2 H3 H4 H5 H6 H7 H8 H9 H10] Hc. unfold put. rewrite set_at_run by lia. eexists. split; [done|].
  split; [|done]. split; cbn; try done.
  - rewrite length_app. cbn. lia.
  - rewrite H3, H4. match goal with |- take _ (em ++ c :: ?r) = _ => change (em ++ c :: r) with (em ++ [c] ++ r) end.
    by rewrite app_assoc, take_app_length.
  - rewrite length_app, length_take. cbn [length]. rewrite length_drop. lia.
  - by apply tokened_app.
Qed.

Lemma at_start q l em k toks t :
  at_ q l em k toks t -> (length toks <= k < count)%nat ->
  exists t', start_arg t = Some t' /\ at_ q l em k toks t' /\ t_args t' !! k = Some (length em) /\
    varnamepos t' = varnamepos t.
Proof.
  intros [H1 H2 H3 H4 H5 H6 H7 H8 H9 H10] Hk. unfold start_arg.
  destruct (set_at (t_args t) (t_arg t) (outpos t)) as [a|] eqn:Ea; [|by rewrite set_at_run in Ea by lia].
  eexists. split; [done|]. split; [split; cbn; try done|].
  - eapply tokened_insert; [done|done|lia].
  - by rewrite (blit_length _ _ _ _ Ea).
  - cbn. split; [|done]. rewrite (blit_lookup _ _ _ _ _ Ea), decide_True by (cbn; lia). by rewrite H6, Nat.sub_diag, H3.
Qed.

Lemma at_put_name q l em k toks t c n :
  at_ q l em k toks t -> (varnamepos t < 128)%nat ->
  exists t', put_name c n t = Some t' /\ at_ q l em k toks t' /\ t_args t' = t_args t /\ varnamepos t' = n.
Proof.
  intros [H1 H2 H3 H4 H5 H6 H7 H8 H9 H10] Hn. unfold put_name.
  destruct (set_at (varname t) (varnamepos t) c) as [a|] eqn:Ea; [|by rewrite set_at_run in Ea by lia].
  eexists. split; [done|]. split; [split; cbn; try done|done]. by rewrite (blit_length _ _ _ _ Ea).
Qed.

(** The end: [toks] are the tokens, [r] the rest. *)
Record finished (toks : list (list Z)) (r : option (list Z)) (t : tk) : Prop := {
  fi_arg : t_arg t = length toks;
  fi_room : (outpos t < cap)%nat;
  fi_cap : length (t_buf t) = cap;
  fi_count : length (t_args t) = count;
  fi_args : tokened (take (outpos t) (t_buf t) ++ [0]) (t_args t) toks;
  fi_cont : continuebuffer t = r;
}.

Lemma at_finished q l em toks t :
  at_ q l em (length toks) toks t -> (length em < cap)%nat -> finished toks None t.
Proof. intros [H1 H2 H3 H4 H5 H6 H7 H8 H9 H10] Hc. split; try done; [lia|]. rewrite H3, H4. by apply tokened_app. Qed.

(** The last token ends with the line. *)
Lemma at_finished_open q l em w k toks t :
  at_ q l (em ++ w) k toks t -> k = length toks -> t_args t !! k = Some (length em) ->
  (length (em ++ w) < cap)%nat -> finished (toks ++ [w]) None (next_arg t).
Proof.
  intros [H1 H2 H3 H4 H5 H6 H7 H8 H9 H10] -> Hp Hc. split; cbn; try done; [rewrite length_app; cbn; lia|lia|].
  rewrite H3, H4. apply tokened_snoc with (length em); [by apply tokened_app|done|].
  rewrite <- app_assoc. apply (slice_token em w []).
Qed.

(** ** Steps *)

Abbreviation loop fuel t := (token_loop fuel%nat line count t).

Lemma step_go fuel t t' : token_step line count t = Some (inl t') -> loop (S fuel) t = loop fuel t'.
Proof. intros E. cbn [token_loop]. by rewrite E. Qed.
Lemma step_done fuel t t' : token_step line count t = Some (inr t') -> loop (S fuel) t = Some t'.
Proof. intros E. cbn [token_loop]. by rewrite E. Qed.

(** [token_step] in a given state at a given character. *)
Ltac enter H := unfold token_step; rewrite (at_state _ _ _ _ _ _ H), (at_char _ _ _ _ _ _ H); cbn [hd].

Lemma sep_false c : sep c = false -> isspace c = false /\ (c =? 59) = false.
Proof. apply orb_false_iff. Qed.

Lemma word_run w l em k toks t fuel :
  at_ IN_TOKEN (w ++ l) em k toks t -> word w -> Forall (fun c => c <> 0) w -> (length em + length w <= cap)%nat ->
  exists t', loop (length w + fuel) t = loop fuel t' /\ at_ IN_TOKEN l (em ++ w) k toks t' /\ t_args t' = t_args t.
Proof.
  revert em t. induction w as [|c w IH]; intros em t H Hw Hz Hc.
  { exists t. rewrite app_nil_r. done. }
  apply Forall_cons in Hw as [[Hs1 Hs2]%sep_false Hw]. apply Forall_cons in Hz as [Hz0 Hz]. cbn [length app] in *.
  destruct (at_put _ _ _ _ _ _ c H) as (t1 & E1 & H1 & A1 & _); [lia|].
  destruct (IH (em ++ [c]) (consume t1)) as (t' & E & H' & A'); [by apply (at_consume _ c)|done|done|rewrite length_app; cbn; lia|].
  exists t'. rewrite <- app_assoc in H'. split_and!; [|done|by rewrite A'].
  rewrite <- E. apply step_go. enter H. rewrite (proj2 (Z.eqb_neq c 0)), Hs1, Hs2 by done. cbn [orb]. by rewrite E1.
Qed.

Lemma quote_run w l em k toks t fuel :
  at_ IN_QUOTED_TOKEN (w ++ l) em k toks t -> Forall (fun c => c <> 34) w -> Forall (fun c => c <> 0) w ->
  (length em + length w <= cap)%nat ->
  exists t', loop (length w + fuel) t = loop fuel t' /\ at_ IN_QUOTED_TOKEN l (em ++ w) k toks t' /\ t_args t' = t_args t.
Proof.
  revert em t. induction w as [|c w IH]; intros em t H Hw Hz Hc.
  { exists t. rewrite app_nil_r. done. }
  apply Forall_cons in Hw as [Hq Hw]. apply Forall_cons in Hz as [Hz0 Hz]. cbn [length app] in *.
  destruct (at_put _ _ _ _ _ _ c H) as (t1 & E1 & H1 & A1 & _); [lia|].
  destruct (IH (em ++ [c]) (consume t1)) as (t' & E & H' & A'); [by apply (at_consume _ c)|done|done|rewrite length_app; cbn; lia|].
  exists t'. rewrite <- app_assoc in H'. split_and!; [|done|by rewrite A'].
  rewrite <- E. apply step_go. enter H. rewrite (proj2 (Z.eqb_neq c 0)), (proj2 (Z.eqb_neq c 34)) by done. by rewrite E1.
Qed.

Lemma var_run w l em k toks t fuel :
  at_ IN_VAR (w ++ l) em k toks t -> word w -> Forall (fun c => c <> 0) w -> (varnamepos t + length w < 128)%nat ->
  exists t', loop (length w + fuel) t = loop fuel t' /\ at_ IN_VAR l em k toks t' /\ t_args t' = t_args t /\
    (varnamepos t' < 128)%nat.
Proof.
  revert t. induction w as [|c w IH]; intros t H Hw Hz Hc.
  { exists t. split_and!; try done. cbn in Hc. lia. }
  apply Forall_cons in Hw as [[Hs1 Hs2]%sep_false Hw]. apply Forall_cons in Hz as [Hz0 Hz]. cbn [length app] in *.
  destruct (at_put_name _ _ _ _ _ _ c (S (varnamepos t)) H) as (t1 & E1 & H1 & A1 & P1); [lia|].
  destruct (IH (consume t1)) as (t' & E & H' & A' & P'); [by apply (at_consume _ c)|done|done|cbn; lia|].
  exists t'. split_and!; [|done|by rewrite A'|done].
  rewrite <- E. apply step_go. enter H. rewrite (proj2 (Z.eqb_neq c 0)), Hs1, Hs2 by done. cbn [orb]. by rewrite E1.
Qed.

(** The states in which a token may start. *)
Definition between (q : tstate) : Prop := q = INITIAL \/ q = NEXT_FIELD \/ q = IN_SPACE.

Lemma between_token q c l em k toks t fuel :
  between q -> at_ q (c :: l) em k toks t -> sep c = false -> c <> 0 ->
  exists t', loop (S fuel) t = loop fuel t' /\ at_ TOKEN (c :: l) em k toks t' /\ t_args t' = t_args t.
Proof.
  intros Hq H [Hs1 Hs2]%sep_false Hc. exists (goto TOKEN t). split_and!; [|by eapply at_goto|done].
  apply step_go. unfold token_step. rewrite (at_char _ _ _ _ _ _ H). cbn [hd]. rewrite (proj2 (Z.eqb_neq c 0)), Hs1, Hs2 by done.
  rewrite (at_state _ _ _ _ _ _ H). by destruct Hq as [-> | [-> | ->]].
Qed.

Lemma token_done q l em w k toks t p :
  at_ q l em k toks t -> t_args t !! length toks = Some p -> slice em p (S (length w)) = w ++ [0] ->
  at_ q l em k (toks ++ [w]) t.
Proof.
  intros [H1 H2 H3 H4 H5 H6 H7 H8 H9 H10] Hp Hs. split; try done. by apply (tokened_snoc _ w _ _ p).
Qed.

(** From a state between tokens to the end of the command. *)
Definition runs (l : list Z) (ts : list (list Z)) (r : option (list Z)) : Prop :=
  forall q em toks t fuel,
    between q -> at_ q l em (length toks) toks t -> (length toks < count)%nat ->
    (length em + 2 * length l + 1 <= cap)%nat -> (4 * length l + 4 <= fuel)%nat ->
    exists t', loop fuel t = Some t' /\
      finished (take count (toks ++ ts)) (if (length (toks ++ ts) <? count)%nat then r else None) t'.

Lemma runs_end : runs [] [] None.
Proof.
  intros q em toks t fuel Hq H Hk Hc Hf. destruct fuel as [|fuel]; [lia|]. exists t.
  rewrite app_nil_r, take_ge by lia. destruct (_ <? _)%nat; (split; [|eapply at_finished; [exact H|lia]]); apply step_done;
    unfold token_step; rewrite (at_state _ _ _ _ _ _ H), (at_char _ _ _ _ _ _ H); by destruct Hq as [-> | [-> | ->]].
Qed.

Lemma runs_sep l : runs (59 :: l) [] (Some l).
Proof.
  intros q em toks t fuel Hq H Hk Hc Hf. cbn [length] in *. destruct fuel as [|[|fuel]]; [lia..|].
  exists (set_continue l (consume (goto COMMAND_SEP t))). split.
  - rewrite (step_go _ _ (goto COMMAND_SEP t)).
    + apply step_done. pose proof (at_goto _ COMMAND_SEP _ _ _ _ _ H) as H'. enter H'. cbn [negb Z.eqb Pos.eqb].
      by rewrite (at_in _ _ _ _ _ _ (at_consume _ _ _ _ _ _ _ H')).
    + unfold token_step. rewrite (at_state _ _ _ _ _ _ H), (at_char _ _ _ _ _ _ H). by destruct Hq as [-> | [-> | ->]].
  - rewrite app_nil_r, take_ge by lia. rewrite (proj2 (Nat.ltb_lt _ _)) by lia.
    destruct H as [H1 H2 H3 H4 H5 H6 H7 H8 H9 H10]. split; cbn; try done; [lia|]. rewrite H3, H4. by apply tokened_app.
Qed.

Lemma runs_space c l ts r : isspace c = true -> runs l ts r -> runs (c :: l) ts r.
Proof.
  intros Hs IH q em toks t fuel Hq H Hk Hc Hf. cbn [length] in *. destruct fuel as [|[|[|fuel]]]; [lia..|].
  assert (Hc0 : (c =? 0) = false) by (destruct (Z.eqb_spec c 0) as [->|]; done).
  assert (Hc59 : (c =? 59) = false) by (destruct (Z.eqb_spec c 59) as [->|]; done).
  assert (Hin : forall t fuel, at_ IN_SPACE (c :: l) em (length toks) toks t -> (4 * length l + 5 <= fuel)%nat -> exists t',
    loop fuel t = Some t' /\ finished (take count (toks ++ ts)) (if (length (toks ++ ts) <? count)%nat then r else None) t').
  { intros t1 fuel1 H1 Hf1. destruct fuel1 as [|fuel1]; [lia|]. rewrite (step_go _ _ (consume t1)).
    - apply (IH IN_SPACE em); [by right; right|by apply (at_consume _ c)|done|lia|lia].
    - enter H1. rewrite Hc0, Hc59, Hs. done. }
  assert (Hgo : (q = INITIAL \/ q = NEXT_FIELD) -> loop (S (S (S fuel))) t = loop (S fuel) (goto IN_SPACE (goto SPACE t))).
  { intros Hq'. rewrite (step_go _ _ (goto SPACE t)); [apply step_go; done|].
    unfold token_step. rewrite (at_state _ _ _ _ _ _ H), (at_char _ _ _ _ _ _ H). cbn [hd]. rewrite Hc0, Hs.
    by destruct Hq' as [-> | ->]. }
  destruct Hq as [-> | [-> | ->]].
  - rewrite Hgo by auto. apply Hin; [by eapply at_goto, at_goto|lia].
  - rewrite Hgo by auto. apply Hin; [by eapply at_goto, at_goto|lia].
  - apply Hin; [done|lia].
Qed.

(** No room for another token. *)
Lemma last_token q l em toks w ts r t :
  at_ q l em (S (length toks)) (toks ++ [w]) t -> S (length toks) = count -> (length em < cap)%nat ->
  finished (take count (toks ++ w :: ts)) (if (length (toks ++ w :: ts) <? count)%nat then r else None) t.
Proof.
  intros H Hk Hc. rewrite (proj2 (Nat.ltb_ge _ _)) by (rewrite length_app; cbn; lia).
  replace (take count (toks ++ w :: ts)) with (toks ++ [w]).
  - eapply at_finished; [|exact Hc]. rewrite length_app. cbn [length]. by rewrite Nat.add_1_r.
  - rewrite (cons_middle w toks ts), app_assoc, take_app_le by (rewrite length_app; cbn; lia).
    by rewrite take_ge by (rewrite length_app; cbn; lia).
Qed.

(** Room for another token. *)
Lemma next_token l ts r em toks w t fuel :
  runs l ts r -> at_ NEXT_FIELD l em (S (length toks)) (toks ++ [w]) t -> (S (length toks) < count)%nat ->
  (length em + 2 * length l + 1 <= cap)%nat -> (4 * length l + 4 <= fuel)%nat ->
  exists t', loop fuel t = Some t' /\
    finished (take count (toks ++ w :: ts)) (if (length (toks ++ w :: ts) <? count)%nat then r else None) t'.
Proof.
  intros IH H Hk Hc Hf. rewrite (cons_middle w toks ts), app_assoc.
  apply (IH NEXT_FIELD em); [by right; left| |rewrite length_app; cbn; lia|done|done].
  rewrite length_app. cbn [length]. by rewrite Nat.add_1_r.
Qed.

Context (Hnul : Forall (fun c => c <> 0) line) (Hlen : (length line < 128)%nat).

Lemma at_nul q l em k toks t : at_ q l em k toks t -> Forall (fun c => c <> 0) l /\ (length l < 128)%nat.
Proof using Hnul Hlen.
  intros H. rewrite <- (at_in _ _ _ _ _ _ H). split; [by apply Forall_drop|]. rewrite length_drop. lia.
Qed.

Lemma runs_word c w l ts r :
  sep c = false -> c <> 34 -> c <> 36 -> word w -> ends l -> lexes l ts r -> runs l ts r ->
  runs (c :: w ++ l) ((c :: w) :: ts) r.
Proof using Hnul Hlen.
  intros Hc H34 H36 Hw He Hlx IH q em toks t fuel Hq H Hk Hcap Hf.
  destruct (at_nul _ _ _ _ _ _ H) as [Hz _]. rewrite app_comm_cons in Hz. apply Forall_app in Hz as [Hz1 Hz2].
  pose proof (Forall_inv Hz1) as Hc0. cbn in Hc0. cbn [length] in Hcap, Hf. rewrite length_app in Hcap, Hf.
  destruct fuel as [|[|fuel]]; [lia..|].
  destruct (between_token q c (w ++ l) em _ toks t (S fuel) Hq H Hc Hc0) as (t1 & -> & H1 & A1).
  destruct (at_start _ _ _ _ _ _ H1) as (t2 & E2 & H2 & P2 & _); [lia|].
  rewrite (step_go _ _ (goto IN_TOKEN t2)).
  2: { enter H1. by rewrite (proj2 (Z.eqb_neq c 0)), (proj2 (Z.eqb_neq c 34)), (proj2 (Z.eqb_neq c 36)), E2 by done. }
  apply (at_goto _ IN_TOKEN) in H2. set (cw := c :: w) in *. assert (Hcw : length cw = S (length w)) by done.
  replace fuel with (length cw + (fuel - length cw))%nat by lia.
  destruct (word_run cw l em _ toks (goto IN_TOKEN t2) (fuel - length cw) H2) as (t3 & -> & H3 & A3);
    [by constructor|done|lia|].
  assert (P3 : t_args t3 !! length toks = Some (length em)) by by rewrite A3.
  assert (Hl3 : length (em ++ cw) = (length em + S (length w))%nat) by by rewrite length_app.
  destruct (fuel - length cw)%nat as [|fuel'] eqn:Ef; [lia|].
  destruct l as [|d l].
  - exists (next_arg t3). split; [apply step_done; by enter H3|]. inversion Hlx. subst ts r.
    rewrite take_ge by (rewrite length_app; cbn; lia). destruct (_ <? _)%nat; (eapply at_finished_open; [exact H3|done|done|lia]).
  - cbn [ends] in He. pose proof (Forall_inv Hz2) as Hd0. cbn in Hd0. cbn [length] in Hcap, Hf.
    destruct (at_put _ _ _ _ _ _ 0 (at_next_arg _ _ _ _ _ _ H3)) as (t4 & E4 & H4 & A4 & _); [lia|].
    apply (token_done _ _ _ cw _ _ _ (length em)) in H4; [|by rewrite A4|rewrite <- app_assoc; apply (slice_token em cw [])].
    assert (Es : token_step line count t3 =
      if (t_arg t4 =? count)%nat then Some (inr t4) else Some (inl (goto NEXT_FIELD t4))).
    { enter H3. rewrite (proj2 (Z.eqb_neq d 0)) by done. fold (sep d). rewrite He, E4. done. }
    rewrite (at_arg _ _ _ _ _ _ H4) in Es. assert (Hl4 : length ((em ++ cw) ++ [0]) = (length em + S (length w) + 1)%nat)
      by (rewrite length_app, Hl3; done).
    destruct (Nat.eqb_spec (S (length toks)) count).
    + exists t4. split; [by apply step_done|]. eapply last_token; [exact H4|done|lia].
    + rewrite (step_go _ _ _ Es). eapply next_token; [exact IH|by eapply at_goto|lia|cbn [length]; lia|cbn [length]; lia].
Qed.

Lemma runs_open w : Forall (fun c => c <> 34) w -> runs (34 :: w) [w] None.
Proof using Hnul Hlen.
  intros Hw q em toks t fuel Hq H Hk Hcap Hf. destruct (at_nul _ _ _ _ _ _ H) as [Hz _]. apply Forall_cons in Hz as [_ Hz].
  cbn [length] in Hcap, Hf. destruct fuel as [|[|[|fuel]]]; [lia..|].
  destruct (between_token q 34 w em _ toks t (S (S fuel)) Hq H eq_refl) as (t1 & -> & H1 & A1); [done|].
  rewrite (step_go _ _ (goto QUOTED_TOKEN t1)) by (by enter H1). apply (at_goto _ QUOTED_TOKEN) in H1.
  destruct (at_start _ _ _ _ _ _ H1) as (t2 & E2 & H2 & P2 & _); [lia|].
  rewrite (step_go _ _ (consume (goto IN_QUOTED_TOKEN t2))) by (enter H1; cbn [negb Z.eqb Pos.eqb]; by rewrite E2).
  apply (at_goto _ IN_QUOTED_TOKEN), at_consume in H2. rewrite <- (app_nil_r w) in H2.
  replace fuel with (length w + (fuel - length w))%nat by lia.
  destruct (quote_run w [] em _ toks _ (fuel - length w) H2) as (t3 & -> & H3 & A3); [done|done|lia|].
  destruct (fuel - length w)%nat as [|fuel'] eqn:Ef; [lia|].
  exists (next_arg t3). split; [apply step_done; by enter H3|].
  rewrite take_ge by (rewrite length_app; cbn; lia).
  destruct (_ <? _)%nat; (eapply at_finished_open; [exact H3|done|by rewrite A3|rewrite length_app; lia]).
Qed.

Lemma runs_quoted w l ts r :
  Forall (fun c => c <> 34) w -> runs l ts r -> runs (34 :: w ++ 34 :: l) (w :: ts) r.
Proof using Hnul Hlen.
  intros Hw IH q em toks t fuel Hq H Hk Hcap Hf. destruct (at_nul _ _ _ _ _ _ H) as [Hz _].
  apply Forall_cons in Hz as [_ [Hz1 Hz2]%Forall_app]. cbn [length] in Hcap, Hf. rewrite length_app in Hcap, Hf. cbn [length] in Hcap, Hf.
  destruct fuel as [|[|[|fuel]]]; [lia..|].
  destruct (between_token q 34 (w ++ 34 :: l) em _ toks t (S (S fuel)) Hq H eq_refl) as (t1 & -> & H1 & A1); [done|].
  rewrite (step_go _ _ (goto QUOTED_TOKEN t1)) by (by enter H1). apply (at_goto _ QUOTED_TOKEN) in H1.
  destruct (at_start _ _ _ _ _ _ H1) as (t2 & E2 & H2 & P2 & _); [lia|].
  rewrite (step_go _ _ (consume (goto IN_QUOTED_TOKEN t2))) by (enter H1; cbn [negb Z.eqb Pos.eqb]; by rewrite E2).
  apply (at_goto _ IN_QUOTED_TOKEN), at_consume in H2.
  replace fuel with (length w + (fuel - length w))%nat by lia.
  destruct (quote_run w (34 :: l) em _ toks _ (fuel - length w) H2) as (t3 & -> & H3 & A3); [done|done|lia|].
  assert (Hl3 : length (em ++ w) = (length em + length w)%nat) by by rewrite length_app.
  destruct (fuel - length w)%nat as [|fuel'] eqn:Ef; [lia|].
  destruct (at_put _ _ _ _ _ _ 0 (at_next_arg _ _ _ _ _ _ H3)) as (t4 & E4 & H4 & A4 & _); [lia|].
  apply (token_done _ _ _ w _ _ _ (length em)) in H4; [|by rewrite A4; cbn; rewrite A3|rewrite <- app_assoc; apply (slice_token em w [])].
  assert (Hl4 : length ((em ++ w) ++ [0]) = (length em + length w + 1)%nat) by (rewrite length_app, Hl3; done).
  destruct (at_put _ _ _ _ _ _ 34 (at_goto _ NEXT_FIELD _ _ _ _ _ H4)) as (t5 & E5 & H5 & _ & _); [lia|].
  assert (Es : token_step line count t3 = if (t_arg t4 =? count)%nat then Some (inr t4) else Some (inl (consume t5))).
  { enter H3. cbn [Z.eqb Pos.eqb]. rewrite E4. cbn [mbind option_bind]. by rewrite E5. }
  rewrite (at_arg _ _ _ _ _ _ H4) in Es. destruct (Nat.eqb_spec (S (length toks)) count).
  - exists t4. split; [by apply step_done|]. eapply last_token; [exact H4|done|lia].
  - rewrite (step_go _ _ _ Es). eapply next_token; [exact IH|by eapply at_consume|lia|rewrite length_app, Hl4; cbn; lia|lia].
Qed.

Lemma runs_var w l ts r : word w -> ends l -> runs l ts r -> runs (36 :: w ++ l) ([48] :: ts) r.
Proof using Hnul Hlen.
  intros Hw He IH q em toks t fuel Hq H Hk Hcap Hf. destruct (at_nul _ _ _ _ _ _ H) as [Hz Hl].
  apply Forall_cons in Hz as [_ [Hz1 Hz2]%Forall_app]. cbn [length] in Hcap, Hf, Hl. rewrite length_app in Hcap, Hf, Hl.
  destruct fuel as [|[|[|fuel]]]; [lia..|].
  destruct (between_token q 36 (w ++ l) em _ toks t (S (S fuel)) Hq H eq_refl) as (t1 & -> & H1 & A1); [done|].
  rewrite (step_go _ _ (goto VAR t1)) by (by enter H1). apply (at_goto _ VAR) in H1.
  destruct (at_start _ _ _ _ _ _ H1) as (t2 & E2 & H2 & P2 & _); [lia|].
  set (t3 := reset_name (consume (goto IN_VAR t2))).
  rewrite (step_go _ _ t3) by (enter H1; cbn [negb Z.eqb Pos.eqb]; by rewrite E2).
  apply (at_goto _ IN_VAR), at_consume in H2. assert (H3 : at_ IN_VAR (w ++ l) em (length toks) toks t3) by (destruct H2; by split).
  replace fuel with (length w + (fuel - length w))%nat by lia.
  destruct (var_run w l em _ toks t3 (fuel - length w) H3) as (t4 & -> & H4 & A4 & V4); [done|done|cbn; lia|].
  destruct (fuel - length w)%nat as [|fuel'] eqn:Ef; [lia|].
  destruct (at_put_name _ _ _ _ _ _ 0 (varnamepos t4) H4 V4) as (t5 & E5 & H5 & A5 & _).
  destruct (at_put _ _ _ _ _ _ 48 H5) as (t6 & E6 & H6 & A6 & _); [lia|].
  destruct (at_put _ _ _ _ _ _ 0 H6) as (t7 & E7 & H7 & A7 & _); [rewrite length_app; cbn; lia|].
  apply at_next_arg, (token_done _ _ _ [48] _ _ _ (length em)) in H7;
    [|cbn; by rewrite A7, A6, A5, A4|rewrite <- app_assoc; apply (slice_token em [48] [])].
  assert (Hl7 : length ((em ++ [48]) ++ [0]) = (length em + 2)%nat) by (rewrite !length_app; cbn; lia).
  assert (Es : token_step line count t4 =
    if (t_arg (next_arg t7) =? count)%nat then Some (inr (next_arg t7)) else Some (inl (goto NEXT_FIELD (next_arg t7)))).
  { enter H4. assert (Hh : (hd 0 l =? 0) || isspace (hd 0 l) || (hd 0 l =? 59) = true).
    { destruct l as [|d l]; [done|]. cbn [hd ends] in *. rewrite <- orb_assoc. fold (sep d). by rewrite He, orb_true_r. }
    rewrite Hh, E5. cbn [mbind option_bind]. rewrite E6. cbn [mbind option_bind]. by rewrite E7. }
  rewrite (at_arg _ _ _ _ _ _ H7) in Es. destruct (Nat.eqb_spec (S (length toks)) count).
  - exists (next_arg t7). split; [by apply step_done|]. eapply last_token; [exact H7|done|lia].
  - rewrite (step_go _ _ _ Es). eapply next_token; [exact IH|by eapply at_goto|lia|lia|lia].
Qed.

Lemma lexes_runs l ts r : lexes l ts r -> runs l ts r.
Proof using Hnul Hlen.
  induction 1; eauto using runs_end, runs_space, runs_sep, runs_word, runs_quoted, runs_open, runs_var.
Qed.
End machine.


Lemma tokenize_run line buffer name args n ts r :
  Forall (fun c => c <> 0) line -> (length line < 128)%nat -> (2 * length line + 1 <= length buffer)%nat ->
  length name = 128%nat -> (0 < n)%nat -> length args = n -> lexes line ts r ->
  exists args' buffer', tokenize_command line buffer name args n =
      Some (length (take n ts), args', buffer', if (length ts <? n)%nat then r else None) /\
    length args' = n /\ length buffer' = length buffer /\
    forall i tok, take n ts !! i = Some tok -> exists p, args' !! i = Some p /\
      slice buffer' p (S (length tok)) = tok ++ [0].
Proof.
  intros Hz Hl Hb Hn H0 Ha Hlx. set (t0 := Tk INITIAL 0 0 0 args buffer name 0 None).
  assert (H : at_ line n (length buffer) INITIAL line [] 0 [] t0) by (split; try done; intros i tok Hi; done).
  destruct (lexes_runs line n (length buffer) Hz Hl line ts r Hlx INITIAL [] [] t0 (4 * length line + 4)%nat)
    as (t & E & [F1 F2 F3 F4 F5 F6]); [by left|done|done|cbn; lia|lia|].
  cbn [app] in *. unfold tokenize_command. fold t0. rewrite E. cbn [mbind option_bind].
  destruct (set_at (t_buf t) (outpos t) 0) as [b|] eqn:Eb; [|by rewrite set_at_run in Eb by lia].
  exists (t_args t), b. cbn [mbind option_bind]. split_and!; [by rewrite F1, F6|done|by rewrite (blit_length _ _ _ _ Eb)|].
  intros i tok Hi. rewrite set_at_run in Eb by lia. injection Eb as <-.
  destruct (tokened_app _ (drop (outpos t + 1) (t_buf t)) _ _ F5 i tok Hi) as (p & Hp & Hs). exists p. split; [done|].
  by rewrite <- app_assoc in Hs.
Qed.
