(* ===== verification/ConsoleProps.v ===== *)
(** * Theorems on the console

    The history is a list of lines, the newest first, and the arrow keys move a
    cursor along it; reading a line is editing a text key by key; splitting a
    line yields its tokens; and the command loop runs any input without leaving
    its buffers. *)

From S2P Require Import Prelude Arrays Mem MemSpec CStr CStrSpec Console ConsoleTok.
Local Open Scope lk_scope.

(** ** The history as a list *)

Definition good_line (l : list Z) : Prop := Forall char l /\ (length l < 127)%nat.

(** The row of the [k]-th newest line. *)
Definition slot (next k : nat) : nat := (next + 15 - k) mod 16.

Record hist_ok (h : list (list Z)) (s : console) : Prop := {
  hi_rows : length (history s) = 16%nat;
  hi_next : (history_next s < 16)%nat;
  hi_len : (length h <= 16)%nat;
  hi_row : forall k, (k < 16)%nat -> history s !! slot (history_next s) k = Some (default [] (h !! k));
  hi_good : Forall (fun l => l <> [] /\ good_line l) h;
}.

Definition remember (l : list Z) (h : list (list Z)) : list (list Z) :=
  if decide (l = [] \/ l = default [] (h !! 0%nat)) then h else take 16 (l :: h).

Lemma slot_lt n k : (slot n k < 16)%nat.
Proof. apply Nat.mod_upper_bound. lia. Qed.

(** The row numbers are those of a ring of sixteen: checked row by row. *)
Definition ring_ok (n k : nat) : bool :=
  (ptrprev (slot n k) =? slot n (S k))%nat && (ptrnext (slot n (S k)) =? slot n k)%nat &&
  (slot (ptrnext n) (S k) =? slot n k)%nat && negb (slot n k =? n)%nat.

Lemma ring_check : forallb (fun n => forallb (ring_ok n) (seq 0 15)) (seq 0 16) = true.
Proof. vm_compute. reflexivity. Qed.

Lemma ring n k : (n < 16)%nat -> (k < 15)%nat ->
  ptrprev (slot n k) = slot n (S k) /\ ptrnext (slot n (S k)) = slot n k /\ slot (ptrnext n) (S k) = slot n k /\ slot n k <> n.
Proof.
  intros Hn Hk. pose proof ring_check as H. rewrite forallb_forall in H. specialize (H n). rewrite forallb_forall in H.
  assert (Hr : ring_ok n k = true) by (apply H; apply in_seq; lia). unfold ring_ok in Hr.
  apply andb_prop in Hr as [[[H1%Nat.eqb_eq H2%Nat.eqb_eq]%andb_prop H3%Nat.eqb_eq]%andb_prop H4].
  apply negb_true_iff, Nat.eqb_neq in H4. done.
Qed.

Lemma ring_edge n : (n < 16)%nat ->
  ptrprev n = slot n 0 /\ ptrnext (slot n 0) = n /\ slot n 15 = n /\ slot (ptrnext n) 0 = n /\ (ptrnext n < 16)%nat.
Proof. intros H. do 16 (destruct n as [|n]; [split_and!; (reflexivity || (cbn; lia))|]). lia. Qed.

Section history.
Context {h : list (list Z)} {s : console} (H : hist_ok h s).

Lemma history_line_run k : (k < 16)%nat -> history_line (slot (history_next s) k) s = Some (default [] (h !! k), s).
Proof using H. intros Hk. unfold history_line, getopt. by rewrite (hi_row _ _ H) by done. Qed.

(** The up key shows line [k] and moves on to an older one, if there is one. *)
Lemma prev_history_run k : (k < 16)%nat ->
  prev_history (slot (history_next s) k) s =
    Some ((default [] (h !! k), slot (history_next s) (if (S k <? length h)%nat then S k else k)), s).
Proof using H.
  intros Hk. pose proof (hi_len _ _ H). pose proof (hi_next _ _ H) as Hn. unfold prev_history. run (history_line_run k Hk).
  rewrite (bind_some (gets history_next) _ s _ s eq_refl). destruct (decide (k = 15%nat)) as [->|Hne].
  - rewrite (proj2 (Nat.ltb_ge _ _)) by lia. destruct (ring_edge _ Hn) as (_ & _ & -> & _). by rewrite Nat.eqb_refl.
  - destruct (ring _ k Hn) as (-> & _ & _ & Hd); [lia|]. rewrite (proj2 (Nat.eqb_neq _ _) Hd).
    run (history_line_run (S k) ltac:(lia)). destruct (Nat.ltb_spec (S k) (length h)) as [Hlt|Hge].
    + destruct (lookup_lt_is_Some_2 h (S k) Hlt) as [l Hl]. rewrite Hl. cbn [default].
      rewrite bool_decide_false; [done|]. apply (Forall_lookup_1 _ _ _ _ (hi_good _ _ H) Hl).
    + by rewrite lookup_ge_None_2 by done.
Qed.

(** The down key shows the next newer line, or an empty one. *)
Lemma next_history_run k : (k < 16)%nat ->
  next_history (slot (history_next s) k) s =
    Some (match k with O => ([], slot (history_next s) O) | S k' => (default [] (h !! k'), slot (history_next s) k') end, s).
Proof using H.
  intros Hk. pose proof (hi_next _ _ H) as Hn. unfold next_history. rewrite (bind_some (gets history_next) _ s _ s eq_refl).
  destruct k as [|k].
  - destruct (ring_edge _ Hn) as (_ & -> & _). by rewrite Nat.eqb_refl.
  - destruct (ring _ k Hn) as (_ & -> & _ & Hd); [lia|]. rewrite (proj2 (Nat.eqb_neq _ _) Hd).
    by run (history_line_run k ltac:(lia)).
Qed.

Lemma add_history_run l : good_line l -> exists h' n',
  add_history l s = Some (tt, set_history h' n' s) /\ hist_ok (remember l h) (set_history h' n' s).
Proof using H.
  intros Hl. pose proof (hi_next _ _ H) as Hn. destruct (ring_edge _ Hn) as (E0 & E1 & E2 & E3 & E4).
  assert (Hsame : set_history (history s) (history_next s) s = s) by by destruct s.
  unfold add_history, remember. case_bool_decide as Hb; cbn [negb].
  { rewrite decide_True by auto. exists (history s), (history_next s). rewrite Hsame. done. }
  rewrite (bind_some (gets history_next) _ s _ s eq_refl). rewrite E0. run (history_line_run 0 ltac:(lia)).
  case_bool_decide as Hb2; cbn [negb].
  { rewrite decide_True by auto. exists (history s), (history_next s). rewrite Hsame. done. }
  rewrite decide_False by tauto.
  assert (Ht : take (LINE_LEN - 1) l = l) by (apply take_ge; unfold LINE_LEN; destruct Hl; lia). rewrite Ht.
  destruct (set_at (history s) (history_next s) l) as [h1|] eqn:Eh.
  2: { rewrite set_at_run in Eh; [done|]. by rewrite (hi_rows _ _ H). }
  exists h1, (ptrnext (history_next s)). split.
  { rewrite (bind_some _ _ s h1 s); [done|]. unfold getopt. by rewrite Eh. }
  split; cbn [history history_next set_history].
  - by rewrite (blit_length _ _ _ _ Eh), (hi_rows _ _ H).
  - done.
  - rewrite length_take. lia.
  - intros k Hk. destruct k as [|k].
    + rewrite E3, (blit_lookup _ _ _ _ _ Eh), decide_True by (cbn; lia). by rewrite Nat.sub_diag.
    + destruct (ring _ k Hn) as (_ & _ & -> & Hd); [lia|]. rewrite (blit_lookup _ _ _ _ _ Eh), decide_False by (cbn [length]; lia).
      rewrite (hi_row _ _ H) by lia. rewrite lookup_take_lt by lia. done.
  - apply Forall_take. constructor; [done|]. apply H.
Qed.
End history.

(** ** Editing a line *)

(** What a key does to the text, the place in the history and the escape level,
    and whether it ends the line. *)
Definition key (h : list (list Z)) (c : Z) (text : list Z) (k esc : nat) : list Z * nat * nat * bool :=
  match esc with
  | O =>
      if (c =? 13) || (c =? 10) then (text, k, O, true)
      else if (c =? 127) || (c =? 8) then (removelast text, k, O, false)
      else if c =? 27 then (text, k, 2%nat, false)
      else (text ++ [u8 c], k, O, false)
  | 1%nat => (text, k, if c =? 91 then 2%nat else O, false)
  | _ =>
      if c =? 67 then (text ++ [32], k, O, false)
      else if c =? 68 then (removelast text, k, O, false)
      else if c =? 65 then (default [] (h !! k), if (S k <? length h)%nat then S k else k, O, false)
      else if c =? 66 then
        match k with O => ([], O, O, false) | S k' => (default [] (h !! k'), k', O, false) end
      else (text, k, O, false)
  end.

(** The text at the end of the line and the keys that are left; [None] while
    the line is not complete.  A text of 127 characters is thrown away. *)
Fixpoint edit (h : list (list Z)) (keys text : list Z) (k esc : nat) : option (list Z * list Z) :=
  match keys with
  | [] => None
  | c :: keys' =>
      if c <? 0 then edit h keys' text k esc
      else
        let '(text, k, esc, fin) := key h c text k esc in
        if (fin : bool) then Some (text, keys')
        else if (length text =? 127)%nat then Some ([], keys')
        else edit h keys' text k esc
  end.

(** The string a text holds: up to the first NUL. *)
Definition chop (text : list Z) : list Z := default [] (until_nul (text ++ [0])).

Definition touch (b o : list Z) (s : console) : console := set_buffer b (emit o s).

Lemma touch_touch b o b' o' s : touch b' o' (touch b o s) = touch b' (o ++ o') s.
Proof. unfold touch, set_buffer, emit. cbn. by rewrite app_assoc. Qed.
Lemma touch_none s : touch (debug_buffer s) [] s = s.
Proof. unfold touch, set_buffer, emit. cbn. rewrite app_nil_r. by destruct s. Qed.

Lemma hist_touch h s b o : hist_ok h s -> hist_ok h (touch b o s).
Proof. intros []. by split. Qed.

Lemma echo_puts_run l s : exists o, echo_puts l s = Some (tt, touch (debug_buffer s) o s).
Proof.
  unfold echo_puts, gets, bind. destruct (echo s); [by exists l|]. exists []. by rewrite touch_none.
Qed.

Lemma wipe_run n s : exists o, wipe n s = Some (tt, touch (debug_buffer s) o s).
Proof.
  revert s. induction n as [|n IH]; intros s; cbn [wipe]; [exists []; by rewrite touch_none|].
  destruct (echo_puts_run rubout s) as [o1 E1]. run E1. destruct (IH (touch (debug_buffer s) o1 s)) as [o2 E2].
  exists (o1 ++ o2). by rewrite E2, touch_touch.
Qed.

(** The first characters of the buffer are the text. *)
Record holds_text (text : list Z) (b : list Z) : Prop := {
  ht_size : length b = 128%nat;
  ht_text : take (length text) b = text;
}.

Lemma holds_removelast text b : holds_text text b -> holds_text (removelast text) b.
Proof.
  intros [H1 H2]. split; [done|]. destruct text as [|x text _] using rev_ind; [done|].
  rewrite removelast_last. rewrite length_app in H2. cbn [length] in H2.
  apply (f_equal (take (length text))) in H2. rewrite take_take, Nat.min_l in H2 by lia. by rewrite H2, take_app_length.
Qed.

Lemma store_char_run text c s :
  holds_text text (debug_buffer s) -> (length text < 128)%nat ->
  exists b, store_char (length text) c s = Some (tt, touch b [] s) /\ holds_text (text ++ [u8 c]) b /\
    (forall n, (n <= length text)%nat -> take n b = take n (debug_buffer s)).
Proof.
  intros [H1 H2] Hl. exists (take (length text) (debug_buffer s) ++ [u8 c] ++ drop (length text + 1) (debug_buffer s)).
  assert (Hb : set_at (debug_buffer s) (length text) (u8 c) =
    Some (take (length text) (debug_buffer s) ++ [u8 c] ++ drop (length text + 1) (debug_buffer s))) by (apply set_at_run; lia).
  split_and!.
  - unfold store_char. rewrite (bind_some _ _ s _ s) by (unfold getopt; by rewrite Hb).
    unfold modify, touch, emit. by rewrite app_nil_r; destruct s.
  - split; [by rewrite (blit_length _ _ _ _ Hb)|]. rewrite H2, app_assoc. by rewrite take_app_length.
  - intros n Hn. rewrite take_app_le, take_take, Nat.min_l by (rewrite ?length_take; lia). done.
Qed.

Lemma until_nul_char l : Forall char l -> until_nul (l ++ [0]) = Some l.
Proof.
  induction 1 as [|c l Hc _ IH]; [done|]. cbn. unfold char in Hc. rewrite (proj2 (Z.eqb_neq c 0)) by lia. by rewrite IH.
Qed.

Lemma load_line_run l s : length (debug_buffer s) = 128%nat -> good_line l ->
  exists b, load_line l s = Some (tt, touch b [] s) /\ holds_text l b /\ until_nul b = Some l.
Proof.
  intros Hb [Hc Hl]. unfold load_line. rewrite take_ge by (unfold LINE_LEN; lia).
  assert (Hbl : blit (debug_buffer s) 0 (l ++ [0]) = Some ((l ++ [0]) ++ drop (length (l ++ [0])) (debug_buffer s))).
  { rewrite blit_Some by (rewrite length_app; cbn; lia). done. }
  eexists. split_and!.
  - rewrite (bind_some _ _ s _ s) by (unfold getopt; by rewrite Hbl).
    unfold modify, touch, emit. by rewrite app_nil_r; destruct s.
  - split; [by rewrite (blit_length _ _ _ _ Hbl)|]. by rewrite <- app_assoc, take_app_length.
  - rewrite <- app_assoc. cbn [app]. by rewrite until_nul_app, until_nul_char.
Qed.

Lemma good_default h s k : hist_ok h s -> good_line (default [] (h !! k)).
Proof.
  intros H. destruct (h !! k) as [l|] eqn:E; [|by repeat constructor; cbn; lia].
  by apply (Forall_lookup_1 _ _ _ _ (hi_good _ _ H) E).
Qed.

Lemma plain_key_run h c text k s :
  holds_text text (debug_buffer s) -> (length text < 127)%nat ->
  let '(text', _, esc', fin) := key h c text k 0 in
  exists b o, plain_key c (length text) s = Some ((length text', esc', fin), touch b o s) /\
    holds_text text' b /\ (length text' <= 127)%nat.
Proof.
  intros Hb Hl. unfold plain_key, key. destruct ((c =? 13) || (c =? 10)).
  { destruct (echo_puts_run [10] s) as [o E]. eexists _, o. split; [by run E|]. split; [done|lia]. }
  destruct ((c =? 127) || (c =? 8)).
  { destruct text as [|x text _] using rev_ind; [exists (debug_buffer s), []; rewrite touch_none; by split; [|split; [done|cbn; lia]]|].
    rewrite removelast_last. rewrite length_app, Nat.add_1_r in Hl |- *. exists (debug_buffer s), rubout. split; [by destruct s|].
    split; [|lia]. pose proof (holds_removelast _ _ Hb) as Hr. by rewrite removelast_last in Hr. }
  destruct (c =? 27); [exists (debug_buffer s), []; rewrite touch_none; by split; [|split; [done|lia]]|].
  destruct (store_char_run text c s Hb) as (b & E & Hb' & _); [lia|]. run E.
  destruct (echo_puts_run [u8 c] (touch b [] s)) as [o E2]. run E2. rewrite touch_touch.
  exists b, o. rewrite length_app, Nat.add_1_r. split; [done|]. split; [done|lia].
Qed.

Lemma escape_key_run h c text k esc s :
  hist_ok h s -> holds_text text (debug_buffer s) -> (length text < 127)%nat -> (k < 16)%nat ->
  let '(text', k', esc', fin) := key h c text k (S (S esc)) in
  exists b o, escape_key c (length text) (slot (history_next s) k) s = Some ((length text', slot (history_next s) k'), touch b o s) /\
    holds_text text' b /\ (length text' <= 127)%nat /\ (k' < 16)%nat /\ esc' = 0%nat /\ fin = false.
Proof.
  intros H Hb Hl Hk. unfold escape_key, key. destruct (c =? 67).
  { destruct (store_char_run text 32 s Hb) as (b & E & Hb' & _); [lia|]. run E.
    destruct (echo_puts_run [32] (touch b [] s)) as [o E2]. run E2. rewrite touch_touch.
    exists b, o. rewrite length_app, Nat.add_1_r. split_and!; try done; lia. }
  destruct (c =? 68).
  { destruct text as [|x text _] using rev_ind.
    - exists (debug_buffer s), []. rewrite touch_none. by split_and!; try done; cbn; lia.
    - destruct (echo_puts_run rubout s) as [o E]. rewrite removelast_last. rewrite length_app, Nat.add_1_r in Hl |- *.
      exists (debug_buffer s), o. split; [by run E|]. pose proof (holds_removelast _ _ Hb) as Hr.
      rewrite removelast_last in Hr. split_and!; try done; lia. }
  assert (Hkeep : exists b o, @ret console _ (length text, slot (history_next s) k) s = Some ((length text, slot (history_next s) k), touch b o s) /\
    holds_text text b /\ (length text <= 127)%nat /\ (k < 16)%nat /\ 0%nat = 0%nat /\ false = false).
  { exists (debug_buffer s), []. rewrite touch_none. by split_and!; try done; lia. }
  destruct (wipe_run (length text) s) as [o1 E1]. set (s1 := touch (debug_buffer s) o1 s) in *.
  assert (H1 : hist_ok h s1) by by apply hist_touch.
  assert (Hload : forall (str : list Z) (k' : nat) (M1 : M console (list Z * nat)), M1 s1 = Some ((str, slot (history_next s) k'), s1) -> good_line str -> (k' < 16)%nat ->
    exists b o, (wipe (length text) ;;; let* (str, cursor) := M1 in load_line str ;;;
      let* b := gets debug_buffer in let* line := getopt (fun _ => until_nul b) in echo_puts line ;;; ret (length line, cursor)) s =
      Some ((length str, slot (history_next s) k'), touch b o s) /\ holds_text str b /\ (length str <= 127)%nat /\ (k' < 16)%nat /\ 0%nat = 0%nat /\ false = false).
  { intros str k' M1 E2 Hg Hk'. run E1. run E2. destruct (load_line_run str s1) as (b & E3 & Hb' & Hu); [apply Hb|done|]. run E3.
    rewrite (bind_some (gets debug_buffer) _ (touch b [] s1) b (touch b [] s1) eq_refl).
    rewrite (bind_some _ _ _ str (touch b [] s1)) by (unfold getopt; by rewrite Hu).
    destruct (echo_puts_run str (touch b [] s1)) as [o E4]. run E4. unfold s1. rewrite !touch_touch. eexists b, _.
    split_and!; try done. destruct Hg. lia. }
  destruct (c =? 65) eqn:E65; cbn [orb].
  - apply Hload; [by apply (prev_history_run H1)|by eapply good_default|].
    pose proof (hi_len _ _ H). destruct (Nat.ltb_spec (S k) (length h)); lia.
  - destruct (c =? 66); [|done]. pose proof (next_history_run H1 k Hk) as En. destruct k as [|k].
    + apply Hload; [done|by repeat constructor; cbn; lia|lia].
    + apply Hload; [done|by eapply good_default|lia].
Qed.

(** ** Reading a line *)

Definition bytes (l : list Z) : Prop := Forall (fun c => 0 <= c < 2 ^ 8) l.

Lemma key_bytes h c text k esc s :
  hist_ok h s -> bytes text -> bytes (key h c text k esc).1.1.1.
Proof.
  intros H Hb. assert (Hg : forall i, bytes (default [] (h !! i))).
  { intros i. destruct (good_default h s i H) as [Hc _]. eapply Forall_impl; [exact Hc|]. unfold char. lia. }
  assert (Hr : bytes (removelast text)).
  { destruct text as [|x text _] using rev_ind; [done|]. rewrite removelast_last. by apply Forall_app in Hb as [? _]. }
  assert (Hs : forall x, 0 <= x < 2 ^ 8 -> bytes (text ++ [x])) by (intros x Hx; apply Forall_app; split; [done|by apply Forall_singleton]).
  pose proof (u8_range c). unfold key. destruct esc as [|[|esc]]; [| |destruct k as [|k]];
    repeat (match goal with |- context [if ?b then _ else _] => destruct b end); cbn; first [apply Hs; lia|by apply Forall_nil|auto].
Qed.

Lemma chop_good text : bytes text -> (length text < 127)%nat -> good_line (chop text) /\ until_nul (text ++ [0]) = Some (chop text).
Proof.
  intros Hb Hl. unfold chop. destruct (until_nul_some text) as [l El]. rewrite El. cbn. split; [|done].
  assert (H : Forall char l /\ (length l <= length text)%nat); [|split; [apply H|lia]].
  clear Hl. revert l El. induction Hb as [|c text Hc _ IH]; intros l El; cbn in El.
  - injection El as <-. by repeat constructor.
  - destruct (Z.eqb_spec c 0); [injection El as <-; cbn; split; [constructor|lia]|].
    destruct (until_nul (text ++ [0])) as [l'|]; [|done]. injection El as <-. destruct (IH l' eq_refl).
    split; [constructor; [unfold char; lia|done]|cbn; lia].
Qed.

(** The end of a line, whatever else has changed of the state. *)
Lemma finish_line_run h text s :
  hist_ok h s -> holds_text text (debug_buffer s) -> (length text < 127)%nat -> bytes text ->
  exists b o hs n, finish_line (length text) s = Some (Line (length text), set_history hs n (touch b o s)) /\
    length b = 128%nat /\ until_nul b = Some (chop text) /\ good_line (chop text) /\ hist_ok (remember (chop text) h) (set_history hs n (touch b o s)).
Proof.
  intros H Hb Hl Hby. destruct (chop_good text Hby Hl) as [Hg Hu]. unfold finish_line.
  destruct (store_char_run text 0 s Hb) as (b & E & [Hb1 Hb2] & _); [lia|]. run E.
  rewrite (bind_some (gets debug_buffer) _ (touch b [] s) b (touch b [] s) eq_refl).
  assert (Hub : until_nul b = Some (chop text)).
  { rewrite <- (take_drop (length (text ++ [u8 0])) b), Hb2, <- app_assoc. cbn [app]. change (u8 0) with 0.
    by rewrite until_nul_app. }
  rewrite (bind_some _ _ _ (chop text) (touch b [] s)) by (unfold getopt; by rewrite Hub).
  destruct (add_history_run (hist_touch h s b [] H) (chop text) Hg) as (hs & n & E2 & H2). run E2.
  by exists b, [], hs, n.
Qed.

Lemma read_loop_run h keys text k esc s :
  hist_ok h s -> holds_text text (debug_buffer s) -> (length text < 127)%nat -> bytes text -> (k < 16)%nat ->
  match edit h keys text k esc with
  | None => exists b o, read_loop keys (length text) esc (slot (history_next s) k) s =
        Some (Blocked, set_input [] (touch b o s)) /\ length b = 128%nat
  | Some (text', rest) => exists b o hs n, read_loop keys (length text) esc (slot (history_next s) k) s =
        Some (Line (length text'), set_history hs n (touch b o (set_input rest s))) /\ length b = 128%nat /\
      until_nul b = Some (chop text') /\ good_line (chop text') /\ hist_ok (remember (chop text') h) (set_history hs n (touch b o (set_input rest s)))
  end.
Proof.
  revert text k esc s. induction keys as [|c keys IH]; intros text k esc s H Hb Hl Hby Hk; cbn [edit read_loop].
  { exists (debug_buffer s), []. rewrite touch_none. split; [done|apply Hb]. }
  destruct (c <? 0); [by apply IH|]. pose proof (key_bytes h c text k esc s H Hby) as Hby'.
  assert (Hkey : let '(text', k', esc', fin) := key h c text k esc in exists b o,
    match esc with
    | O => let* (pos, esc, fin) := plain_key c (length text) in ret (pos, esc, slot (history_next s) k, fin)
    | 1%nat => ret (length text, if c =? 91 then 2%nat else 0%nat, slot (history_next s) k, false)
    | _ => let* (pos, cursor) := escape_key c (length text) (slot (history_next s) k) in ret (pos, 0%nat, cursor, false)
    end s = Some ((length text', esc', slot (history_next s) k', fin), touch b o s) /\
    holds_text text' b /\ (length text' <= 127)%nat /\ (k' < 16)%nat).
  { destruct esc as [|[|esc]].
    - pose proof (plain_key_run h c text k s Hb Hl) as Hp. destruct (key h c text k 0) as [[[text' k'] esc'] fin] eqn:Ek.
      destruct Hp as (b & o & E & Hb' & Hl'). exists b, o. split_and!; [|done|done|].
      + run E. assert (k' = k) as -> by (unfold key in Ek; repeat case_match; congruence). done.
      + unfold key in Ek; repeat case_match; congruence.
    - exists (debug_buffer s), []. rewrite touch_none. split_and!; try done; lia.
    - pose proof (escape_key_run h c text k esc s H Hb Hl Hk) as Hp. destruct (key h c text k (S (S esc))) as [[[text' k'] esc'] fin].
      destruct Hp as (b & o & E & Hb' & Hl' & Hk' & -> & ->). exists b, o. split_and!; try done. by run E. }
  assert (Hfin : (key h c text k esc).2 = true -> (length (key h c text k esc).1.1.1 < 127)%nat).
  { unfold key. destruct esc as [|[|esc]]; [| |destruct k as [|k]];
      repeat (match goal with |- context [if ?b then _ else _] => destruct b end); cbn; done. }
  destruct (key h c text k esc) as [[[text' k'] esc'] fin]. cbn [fst snd] in Hby', Hfin.
  destruct Hkey as (b & o & E & Hb' & Hl' & Hk'). run E. set (s1 := touch b o s) in *.
  assert (H1 : hist_ok h s1) by by apply hist_touch.
  assert (Hend : forall text1 o1, holds_text text1 b -> (length text1 < 127)%nat -> bytes text1 -> exists b' o' hs n,
    finish_line (length text1) (set_input keys (touch b o1 s)) =
      Some (Line (length text1), set_history hs n (touch b' o' (set_input keys s))) /\ length b' = 128%nat /\
    until_nul b' = Some (chop text1) /\ good_line (chop text1) /\ hist_ok (remember (chop text1) h) (set_history hs n (touch b' o' (set_input keys s)))).
  { intros text1 o1 Hb1 Hl1 Hby1.
    destruct (finish_line_run h text1 (set_input keys (touch b o1 s))) as (b' & o' & hs & n & E' & Hb'' & Hu & H'); try done.
    - by destruct (hist_touch h s b o1 H).
    - exists b', (o1 ++ o'), hs, n. rewrite E'. change (set_input keys (touch b o1 s)) with (touch b o1 (set_input keys s)) in *.
      by rewrite touch_touch in *. }
  destruct fin.
  - rewrite (bind_some (modify (set_input keys)) _ s1 tt (set_input keys s1) eq_refl). apply Hend; auto.
  - change (LINE_LEN - 1)%nat with 127%nat. destruct (Nat.eqb_spec (length text') 127) as [E127|N127].
    + rewrite (bind_some (tegrabl_puts str_too_long) _ s1 tt (touch b (o ++ str_too_long) s)).
      2: { unfold s1. by rewrite <- (touch_touch b o b). }
      rewrite (bind_some (modify (set_input keys)) _ _ tt (set_input keys (touch b (o ++ str_too_long) s)) eq_refl).
      apply (Hend []); [by split; [apply Hb'|]|cbn; lia|constructor].
    + specialize (IH text' k' esc' s1 H1 Hb' ltac:(lia) Hby' Hk'). change (history_next s1) with (history_next s) in IH.
      destruct (edit h keys text' k' esc') as [[text2 rest]|].
      * destruct IH as (b2 & o2 & hs & n & E2 & IH). exists b2, (o ++ o2), hs, n. unfold s1 in *.
        change (set_input rest (touch b o s)) with (touch b o (set_input rest s)) in *. rewrite touch_touch in *. done.
      * destruct IH as (b2 & o2 & E2 & IH). exists b2, (o ++ o2). unfold s1 in E2. rewrite touch_touch in E2. done.
Qed.

(** ** Arguments *)

Lemma dec_loop_total wrap m a s f v : cstr m a s -> (length s < f)%nat -> exists r, dec_loop wrap f a v m = Some (r, m).
Proof.
  revert a f v. induction s as [|c s IH]; intros a f v Hs Hf; (destruct f as [|f]; [cbn in Hf; lia|]); cbn [dec_loop].
  - apply cstr_nil in Hs. run (ld_run _ _ _ Hs). by eexists.
  - apply cstr_cons in Hs as (Hc & _ & Hs). run (ld_run _ _ _ Hc). destruct (_ && _); [|by eexists].
    apply IH; [done|cbn in Hf; lia].
Qed.

Lemma hex_loop_total wrap m a s f v : cstr m a s -> (length s < f)%nat -> exists r, hex_loop wrap f a v m = Some (r, m).
Proof.
  revert a f v. induction s as [|c s IH]; intros a f v Hs Hf; (destruct f as [|f]; [cbn in Hf; lia|]); cbn [hex_loop].
  - apply cstr_nil in Hs. run (ld_run _ _ _ Hs). by eexists.
  - apply cstr_cons in Hs as (Hc & _ & Hs). run (ld_run _ _ _ Hc). destruct (_ && _); [|by eexists].
    apply IH; [done|cbn in Hf; lia].
Qed.

(** The prefix test reads the second character only behind a first one. *)
Lemma hex_prefix_total m a s : cstr m a s ->
  exists b, hex_prefix a m = Some (b, m) /\ (b = true -> exists s', cstr m (a + 2) s' /\ (length s' < length s)%nat).
Proof.
  intros Hs. unfold hex_prefix. destruct s as [|c s].
  - apply cstr_nil in Hs. run (ld_run _ _ _ Hs). by exists false.
  - apply cstr_cons in Hs as (Hc & _ & Hs). run (ld_run _ _ _ Hc). destruct (c =? 48); [|by exists false].
    destruct s as [|d s].
    + apply cstr_nil in Hs. run (ld_run _ _ _ Hs). by exists false.
    + apply cstr_cons in Hs as (Hd & _ & Hs). run (ld_run _ _ _ Hd). exists (d =? 120). split; [done|]. intros _.
      exists s. replace (a + 2) with (a + 1 + 1) by lia. split; [done|cbn; lia].
Qed.

Lemma atoul_total m a s : cstr m a s -> exists r, atoul a m = Some (r, m).
Proof.
  intros Hs. pose proof (cstr_size _ _ _ Hs). destruct (hex_prefix_total _ _ _ Hs) as (b & E & Hb). unfold atoul. run E.
  destruct b; [|eapply dec_loop_total; [done|lia]]. destruct (Hb eq_refl) as (s' & Hs' & ?).
  eapply hex_loop_total; [done|lia].
Qed.

Lemma atol_total m a s : cstr m a s -> exists r, atol a m = Some (r, m).
Proof.
  intros Hs. pose proof (cstr_size _ _ _ Hs). destruct (hex_prefix_total _ _ _ Hs) as (b & E & Hb). unfold atol. run E.
  destruct b.
  { destruct (Hb eq_refl) as (s' & Hs' & ?). eapply hex_loop_total; [done|lia]. }
  destruct s as [|c s].
  - pose proof Hs as Hz%cstr_nil. run (ld_run _ _ _ Hz). eapply dec_loop_total; [done|cbn; lia].
  - pose proof Hs as (Hc & _ & Hs')%cstr_cons. cbn [length] in *. run (ld_run _ _ _ Hc). destruct (c =? 45).
    + destruct (dec_loop_total s64 m (a + 1) s (S (size m)) 0 Hs') as [r Er]; [lia|].
      rewrite (bind_some _ _ m r m) by exact Er. by eexists.
    + eapply dec_loop_total; [done|cbn; lia].
Qed.

Lemma convert_arg_total str : Forall char str -> exists a, convert_arg str = Some a /\ a_str a = str.
Proof.
  intros Hs. pose proof (cstr_store ∅ 0 str Hs) as Hc. unfold convert_arg, on_string, atoui, atoi.
  destruct (atoul_total _ _ _ Hc) as [u Eu]. destruct (atol_total _ _ _ Hc) as [i Ei].
  rewrite (bind_some _ _ _ _ _ Eu), (bind_some _ _ _ _ _ Ei). by eexists.
Qed.

Lemma until_nul_slice buf p tok : Forall char tok -> slice buf p (S (length tok)) = tok ++ [0] -> until_nul (drop p buf) = Some tok.
Proof.
  intros Hc Hs. unfold slice in Hs. rewrite <- (take_drop (S (length tok)) (drop p buf)), Hs, <- app_assoc. cbn [app].
  by rewrite until_nul_app, until_nul_char.
Qed.

Lemma convert_args_run buf args toks :
  Forall (Forall char) toks -> (length toks <= length args)%nat ->
  (forall i tok, toks !! i = Some tok -> exists p, args !! i = Some p /\ slice buf p (S (length tok)) = tok ++ [0]) ->
  exists argv, convert_args buf args (length toks) = Some argv /\ a_str <$> argv = toks /\
    Forall (fun a => convert_arg (a_str a) = Some a) argv.
Proof.
  unfold convert_args. revert args. induction toks as [|tok toks IH]; intros args Hc Hl Hp; [by exists []|].
  apply Forall_cons in Hc as [Hc1 Hc]. destruct args as [|p args]; [cbn in Hl; lia|].
  destruct (Hp 0%nat tok eq_refl) as (p' & [= <-] & Hs). destruct (convert_arg_total tok Hc1) as (a & Ea & Es).
  destruct (IH args Hc) as (argv & E & Hm & Hf); [cbn in Hl; lia|intros i t Hi; apply (Hp (S i) t Hi)|].
  exists (a :: argv). cbn [take length mapM]. rewrite (until_nul_slice buf p tok Hc1 Hs). cbn [mbind option_bind]. rewrite Ea.
  cbn [mbind option_bind]. rewrite E. cbn. split_and!; [done|by rewrite Es, Hm|]. constructor; [by rewrite Es|done].
Qed.

Lemma lexes_inv (P : Z -> Prop) l ts r : lexes l ts r -> P 48 -> Forall P l ->
  Forall (Forall P) ts /\ match r with None => True | Some r => Forall P r /\ (length r < length l)%nat end.
Proof.
  intros H H48. induction H as [|c l ts r _ _ IH|l|c w l ts r _ _ _ _ _ _ IH|w l ts r _ _ IH|w _|w l ts r _ _ _ IH]; intros Hl.
  - by split.
  - apply Forall_cons in Hl as [_ Hl]. destruct (IH Hl) as [? Hr]. split; [done|]. destruct r; [|done]. cbn. split; [apply Hr|destruct Hr; lia].
  - apply Forall_cons in Hl as [_ Hl]. split; [done|]. split; [done|cbn; lia].
  - rewrite app_comm_cons in Hl. apply Forall_app in Hl as [Hw Hl]. destruct (IH Hl) as [? Hr]. split; [by constructor|].
    destruct r; [|done]. cbn [length]. rewrite length_app. split; [apply Hr|destruct Hr; lia].
  - apply Forall_cons in Hl as [_ [Hw [_ Hl]%Forall_cons]%Forall_app]. destruct (IH Hl) as [? Hr]. split; [by constructor|].
    destruct r; [|done]. cbn [length]. rewrite length_app. cbn [length]. split; [apply Hr|destruct Hr; lia].
  - apply Forall_cons in Hl as [_ Hl]. split; [by repeat constructor|done].
  - apply Forall_cons in Hl as [_ [Hw Hl]%Forall_app]. destruct (IH Hl) as [? Hr]. split; [constructor; [by apply Forall_singleton|done]|].
    destruct r; [|done]. cbn [length]. rewrite length_app. split; [apply Hr|destruct Hr; lia].
Qed.

(** ** The command loop *)

Section loop.
Context (callback : cmd -> list cmd_args -> M console Z) (showprompt locked : bool).

(** What the loop keeps of its state. *)
Record session (s : console) : Prop := {
  se_buffer : length (debug_buffer s) = 128%nat;
  se_history : exists h, hist_ok h s;
  se_lock : command_lock s = locked;
}.

(** How a command is called: with one to sixteen converted arguments, of which
    the first is its name, under the lock and with nothing aborted yet. *)
Record called (c : cmd) (argv : list cmd_args) (s : console) : Prop := {
  ca_argc : (1 <= length argv <= 16)%nat;
  ca_argv : Forall (fun a => convert_arg (a_str a) = Some a) argv;
  ca_name : head (a_str <$> argv) = Some (cmd_str c);
  ca_command : c ∈ concat (command_list s);
  ca_abort : abort_script s = false;
  ca_lock : command_lock s = true;
}.

(** What a command has to leave as it was. *)
Definition callback_ok : Prop := forall c argv s,
  called c argv s -> length (debug_buffer s) = 128%nat -> (exists h, hist_ok h s) ->
  exists r s', callback c argv s = Some (r, s') /\ length (debug_buffer s') = 128%nat /\ (exists h, hist_ok h s') /\
    command_lock s' = true /\ (length (input s') <= length (input s))%nat.

Context (Hcb : callback_ok).

Lemma hist_same h s s' : hist_ok h s -> history s' = history s -> history_next s' = history_next s -> hist_ok h s'.
Proof. intros [] Eh En. split; rewrite ?Eh, ?En; done. Qed.

Lemma lock_run (l : bool) s : l = command_lock s ->
  (when negb l do mutex_acquire_lock) s = Some (tt, set_lock true s).
Proof.
  intros ->. destruct (command_lock s) eqn:E; cbn [negb].
  - unfold ret. f_equal. f_equal. unfold set_lock. rewrite <- E. by destruct s.
  - unfold mutex_acquire_lock. rewrite (bind_some (gets command_lock) _ s _ s eq_refl). by rewrite E.
Qed.

Lemma unlock_run (l : bool) s : command_lock s = true -> (when negb l do mutex_release_lock) s = Some (tt, set_lock l s).
Proof.
  intros E. destruct l; cbn [negb].
  - unfold ret. f_equal. f_equal. unfold set_lock. rewrite <- E. by destruct s.
  - unfold mutex_release_lock. rewrite (bind_some (gets command_lock) _ s _ s eq_refl). by rewrite E.
Qed.

(** One command line. *)
Lemma run_command_run outbuf name args line s :
  session s -> Forall char line -> (length line < 128)%nat -> length outbuf = 1024%nat -> length name = 128%nat ->
  length args = 16%nat ->
  exists ex rest outbuf' args' s', run_command callback showprompt locked outbuf name args line s = Some ((ex, rest, outbuf', args'), s') /\
    session s' /\ length outbuf' = 1024%nat /\ length args' = 16%nat /\ (length (input s') <= length (input s))%nat /\
    match rest with None => True | Some r => Forall char r /\ (length r < length line)%nat end.
Proof using Hcb.
  intros [Hb [h Hh] Hlk] Hc Hl Ho Hn Ha. destruct (lexes_total line) as (ts & r & Hlx).
  destruct (lexes_inv char line ts r Hlx) as [Hts Hr]; [unfold char; lia|done|].
  destruct (tokenize_run line outbuf name args 16 ts r) as (args' & buf' & E & La & Lb & Hp); try done; try lia.
  { eapply Forall_impl; [exact Hc|]. unfold char. lia. }
  set (rest := if (length ts <? 16)%nat then r else None) in *.
  assert (Hrest : match rest with None => True | Some r => Forall char r /\ (length r < length line)%nat end)
    by (unfold rest; by destruct (_ <? _)%nat).
  unfold run_command. change MAX_NUM_ARGS with 16%nat. rewrite (bind_some _ _ s _ s) by (unfold getopt; by rewrite E).
  assert (Hid : session s) by (split; eauto).
  cbn beta iota. destruct (length (take 16 ts) =? 0)%nat eqn:E0; [eexists _, _, _, _, s; split; [reflexivity|]; split_and!; done || lia|]. apply Nat.eqb_neq in E0.
  destruct (convert_args_run buf' args' (take 16 ts)) as (argv & Ec & Hs & Hf); [by apply Forall_take|rewrite length_take; lia|done|].
  rewrite (bind_some _ _ s _ s) by (unfold getopt; by rewrite Ec).
  assert (Hlen : length argv = length (take 16 ts)) by (rewrite <- Hs; by rewrite length_fmap).
  destruct argv as [|a0 argv]; [cbn in Hlen; lia|].
  rewrite (bind_some _ _ s a0 s) by done. rewrite (bind_some (gets (match_command (a_str a0))) _ s _ s eq_refl).
  destruct (match_command (a_str a0) s) as [c|] eqn:Em.
  2: { destruct showprompt; eexists _, _, _, _, _; (split; [reflexivity|]); split_and!; try done; try lia.
       split; try done. exists h. by eapply hist_same. }
  apply List.find_some in Em as [Hin Hname]. apply bool_decide_eq_true in Hname.
  run (lock_run locked s (eq_sym Hlk)). set (s1 := set_abort false (set_lock true s)).
  rewrite (bind_some (modify (set_abort false)) _ _ tt s1 eq_refl).
  destruct (Hcb c (a0 :: argv) s1) as (rc & s2 & E2 & Hb2 & [h2 Hh2] & Hlk2 & Hi2).
  { split; try done; [|by cbn; rewrite Hname|by apply list_elem_of_In]. rewrite length_take in Hlen. cbn [length] in Hlen |- *. lia. }
  { done. }
  { exists h. by eapply hist_same. }
  run E2. rewrite (bind_some (modify (set_result rc)) _ s2 tt (set_result rc s2) eq_refl).
  rewrite (bind_some (gets abort_script) _ (set_result rc s2) (abort_script s2) (set_result rc s2) eq_refl).
  set (s3 := set_abort false (set_result rc s2)). rewrite (bind_some (modify (set_abort false)) _ _ tt s3 eq_refl).
  rewrite (bind_some _ _ s3 tt (set_lock locked s3)) by (by apply unlock_run).
  eexists _, _, _, _, _. split; [reflexivity|]. split_and!; try done; try lia. split; [done| |done]. exists h2. by eapply hist_same.
Qed.

Lemma edit_rest h keys text k esc text' rest : edit h keys text k esc = Some (text', rest) -> (length rest < length keys)%nat.
Proof.
  revert text k esc. induction keys as [|c keys IH]; intros text k esc; cbn [edit]; [done|].
  destruct (c <? 0); [intros H%IH; cbn; lia|]. destruct (key h c text k esc) as [[[t k'] e] fin].
  destruct fin; [intros [= _ <-]; cbn; lia|]. destruct (_ =? _)%nat; [intros [= _ <-]; cbn; lia|]. intros H%IH. cbn. lia.
Qed.

Lemma read_line_run h s : hist_ok h s -> length (debug_buffer s) = 128%nat ->
  match edit h (input s) [] 0 0 with
  | None => exists b o, read_debug_line s = Some (Blocked, set_input [] (touch b o s)) /\ length b = 128%nat
  | Some (text, rest) => exists b o hs n,
      read_debug_line s = Some (Line (length text), set_history hs n (touch b o (set_input rest s))) /\ length b = 128%nat /\
      until_nul b = Some (chop text) /\ good_line (chop text) /\
      hist_ok (remember (chop text) h) (set_history hs n (touch b o (set_input rest s)))
  end.
Proof.
  intros H Hb. pose proof (read_loop_run h (input s) [] 0 0 s H) as Hr. cbn [length] in Hr.
  assert (E : read_debug_line s = read_loop (input s) 0 0 (slot (history_next s) 0) s).
  { destruct (ring_edge (history_next s) (hi_next _ _ H)) as [<- _]. done. }
  rewrite E. apply Hr; try done; try lia; constructor; done.
Qed.

(** The loop: with commands that keep their side it runs until a command ends
    it or the input is used up. *)
Lemma command_loop_run fuel outbuf name args continue s :
  session s -> length outbuf = 1024%nat -> length name = 128%nat -> length args = 16%nat ->
  match continue with None => True | Some l => Forall char l /\ (length l < 128)%nat end ->
  (129 * length (input s) + match continue with None => 0 | Some l => S (length l) end < fuel)%nat ->
  exists r s', command_loop callback fuel showprompt locked outbuf name args continue s = Some (r, s') /\
    session s' /\ (r = false -> input s' = []).
Proof using Hcb.
  revert outbuf args continue s.
  induction fuel as [|fuel IH]; intros outbuf args continue s Hs Ho Hn Ha Hc Hf; [lia|]. cbn [command_loop].
  destruct continue as [l|].
  - rewrite (bind_some _ _ s (Some (Some l)) s) by done. destruct Hc as [Hc Hl].
    destruct (run_command_run outbuf name args l s Hs Hc Hl Ho Hn Ha) as (ex & rest & o' & a' & s' & E & Hs' & Ho' & Ha' & Hi & Hr).
    run E. destruct ex; [by exists true, s'|]. apply IH; try done; destruct rest as [r|]; try done; try lia. split; [apply Hr|lia].
  - set (s1 := if showprompt then emit str_prompt s else s).
    assert (Hs1 : session s1 /\ input s1 = input s).
    { unfold s1. destruct showprompt; [|done]. split; [|done]. destruct Hs as [? [h ?] ?]. split; try done. exists h. by eapply hist_same. }
    assert (E1 : (when showprompt do tegrabl_puts str_prompt) s = Some (tt, s1)) by (unfold s1; by destruct showprompt).
    destruct Hs1 as [[Hb [h Hh] Hk] Hi]. pose proof (read_line_run h s1 Hh Hb) as Hr. rewrite Hi in Hr.
    destruct (edit h (input s) [] 0 0) as [[text rest]|] eqn:Ee.
    + apply edit_rest in Ee. destruct Hr as (b & o & hs & n & Er & Hbl & Hu & Hg & Hh').
      set (s2 := set_history hs n (touch b o (set_input rest s1))) in *.
      assert (Hs2 : session s2) by (split; [done|by eexists|done]). change (input s2) with rest.
      destruct text as [|c text]; cbn [length] in Er.
      * rewrite (bind_some _ _ s (Some None) s2) by (by run E1; run Er). apply IH; try done. cbn. lia.
      * rewrite (bind_some _ _ s (Some (Some (chop (c :: text)))) s2).
        2: { run E1. run Er. rewrite (bind_some (gets debug_buffer) _ s2 b s2 eq_refl).
             by rewrite (bind_some _ _ s2 (chop (c :: text)) s2) by (unfold getopt; by rewrite Hu). }
        destruct Hg as [Hgc Hgl].
        destruct (run_command_run outbuf name args (chop (c :: text)) s2 Hs2 Hgc ltac:(lia) Ho Hn Ha)
          as (ex & rest' & o' & a' & s' & E & Hs' & Ho' & Ha' & Hi' & Hr').
        change (input s2) with rest in Hi'. run E. destruct ex; [by exists true, s'|].
        apply IH; try done; destruct rest' as [r|]; try done; try lia. split; [apply Hr'|lia].
    + destruct Hr as (b & o & Er & Hbl). set (s2 := set_input [] (touch b o s1)) in *.
      rewrite (bind_some _ _ s None s2) by (by run E1; run Er). exists false, s2. split_and!; try done.
      split; [done| |done]. exists h. by eapply hist_same.
Qed.
End loop.

(** The commands of the file keep their side. *)
Definition builtin (c : cmd) (argv : list cmd_args) : M console Z :=
  match cmd_id c with
  | 0%nat => cmd_help
  | 1%nat => cmd_echo argv
  | 2%nat => cmd_exit
  | _ => cmd_history
  end.

Lemma emit_emit o o' s : emit o' (emit o s) = emit (o ++ o') s.
Proof. unfold emit. cbn. by rewrite app_assoc. Qed.

Lemma dump_rows_run n ptr h s : hist_ok h s -> (ptr < 16)%nat ->
  exists o, dump_rows n ptr s = Some (tt, emit o s).
Proof.
  revert ptr s. induction n as [|n IH]; intros ptr s H Hp; cbn [dump_rows].
  { exists []. unfold ret, emit. rewrite app_nil_r. by destruct s. }
  destruct (lookup_lt_is_Some_2 (history s) ptr) as [l El]; [by rewrite (hi_rows _ _ H)|].
  assert (Hn : (ptrnext ptr < 16)%nat) by apply (ring_edge ptr Hp).
  rewrite (bind_some _ _ s l s) by (unfold history_line, getopt; by rewrite El).
  destruct (bool_decide (l = [])); cbn [negb].
  - rewrite (bind_some _ _ s tt s) by done. by apply IH.
  - rewrite (bind_some _ _ s tt (emit (l ++ [10]) s)) by done.
    destruct (IH (ptrnext ptr) (emit (l ++ [10]) s)) as [o E]; [by eapply hist_same|done|].
    exists ((l ++ [10]) ++ o). by rewrite E, emit_emit.
Qed.

Lemma builtin_ok : callback_ok builtin.
Proof.
  intros c argv s Hc Hb [h Hh].
  assert (Hem : forall f o, (f = id \/ f = set_abort true) -> exists s', s' = f (emit o s) /\ length (debug_buffer s') = 128%nat /\
    (exists h, hist_ok h s') /\ command_lock s' = true /\ (length (input s') <= length (input s))%nat).
  { intros f o Hf. eexists; split; [done|]. destruct Hf as [->| ->]; (split_and!; [done|exists h; by eapply hist_same|apply Hc|done]). }
  assert (E0 : s = emit [] s) by (unfold emit; rewrite app_nil_r; by destruct s).
  unfold builtin. destruct (cmd_id c) as [|[|[|i]]].
  - destruct (Hem id (text_of "command list:" ++ [10] ++ concat ((fun c => match help_str c with
      Some h => cmd_str c ++ text_of " - " ++ h ++ [10] | None => [] end) <$> concat (command_list s)))) as (s' & -> & H); [by left|].
    by eexists 0, _.
  - unfold cmd_echo. destruct (1 <? length argv)%nat.
    + edestruct (Hem id) as (s' & Es & H); [by left|]. eexists 0, s'. split; [|exact H]. rewrite Es. reflexivity.
    + destruct (Hem id []) as (s' & Es & H); [by left|]. exists 0, s'. split; [|exact H]. rewrite Es. unfold id. by rewrite <- E0.
  - destruct (Hem (set_abort true) []) as (s' & Es & H); [by right|]. exists 0, s'. split; [|exact H]. rewrite Es, <- E0. done.
  - unfold cmd_history, dump_history. set (o1 := text_of "command history:" ++ [10]).
    destruct (dump_rows_run HISTORY_LEN 0 h (emit o1 s)) as [o E]; [by eapply hist_same|lia|].
    destruct (Hem id (o1 ++ o)) as (s' & Es & H); [by left|]. exists 0, s'. split; [|exact H]. rewrite Es.
    unfold id. rewrite <- emit_emit. rewrite (bind_some _ _ s tt (emit o (emit o1 s))); [done|].
    by rewrite (bind_some _ _ s tt (emit o1 s)).
Qed.

(** ** Properties *)

(** C28: [tokenize_command] splits a command line as the shell's grammar does.
    Every line has a reading; whatever reading the grammar gives, the function
    leaves its first sixteen words as NUL-terminated strings in the buffer with
    their offsets in the argument array, counts them, writes nothing outside of
    the arrays, and hands back what follows the [;] if the words before it were
    fewer than sixteen (and nothing otherwise). *)
Theorem tokenize_command_spec line buffer name args :
  Forall (fun c => c <> 0) line -> (length line < LINE_LEN)%nat -> (2 * length line + 1 <= length buffer)%nat ->
  length name = 128%nat -> length args = MAX_NUM_ARGS ->
  (exists ts r, lexes line ts r) /\
  forall ts r, lexes line ts r ->
  exists args' buffer', tokenize_command line buffer name args MAX_NUM_ARGS =
      Some (length (take 16 ts), args', buffer', if (length ts <? 16)%nat then r else None) /\
    length args' = 16%nat /\ length buffer' = length buffer /\
    forall i tok, take 16 ts !! i = Some tok -> exists p, args' !! i = Some p /\
      slice buffer' p (S (length tok)) = tok ++ [0].
Proof.
  intros H1 H2 H3 H4 H5. split; [apply lexes_total|]. intros ts r Hl. apply tokenize_run; try done. lia.
Qed.

(** C29: [read_debug_line] is a line editor.  With the history lines [h], newest
    first, in the ring, it gives the line that the editor [edit] gives for the
    keys that come in: its text stands NUL-terminated in the 128-byte buffer, the
    keys behind it stay in the input, and the ring then holds the line as the
    newest one, unless it is empty or repeats the newest; with too few keys it
    waits and leaves the history alone. *)
Theorem read_debug_line_spec h s :
  hist_ok h s -> length (debug_buffer s) = LINE_LEN ->
  match edit h (input s) [] 0 0 with
  | None => exists b o, read_debug_line s = Some (Blocked, set_input [] (touch b o s)) /\ length b = LINE_LEN
  | Some (text, rest) => exists b o hs n,
      read_debug_line s = Some (Line (length text), set_history hs n (touch b o (set_input rest s))) /\
      length b = LINE_LEN /\ until_nul b = Some (chop text) /\ good_line (chop text) /\
      hist_ok (remember (chop text) h) (set_history hs n (touch b o (set_input rest s)))
  end.
Proof. apply read_line_run. Qed.


(** ** Witnesses *)

Definition demo_commands : list cmd :=
  [ {| cmd_str := text_of "help"; help_str := None; cmd_id := 0 |};
    {| cmd_str := text_of "echo"; help_str := Some (text_of "write arguments"); cmd_id := 1 |};
    {| cmd_str := text_of "exit"; help_str := None; cmd_id := 2 |};
    {| cmd_str := text_of "history"; help_str := None; cmd_id := 3 |} ].
Definition demo_console (keys : list Z) : console :=
  {| input := keys; output := []; echo := true; debug_buffer := replicate 128 0; history := replicate 16 []; history_next := 0;
     command_list := [demo_commands]; command_lock := false; abort_script := false; lastresult := 0 |}.

Lemma demo_hist keys : hist_ok [] (demo_console keys).
Proof.
  split; cbn; [done|lia|lia| |constructor].
  intros k Hk. pose proof (slot_lt 0 k). by apply (lookup_replicate_2 16 ([] : list Z)).
Qed.

Lemma tokenize_command_spec_witness : exists args' buffer',
  tokenize_command (text_of "echo 'x $y; exit") (replicate 1024 0) (replicate 128 0) (replicate 16 0%nat) MAX_NUM_ARGS =
    Some (3%nat, args', buffer', Some (text_of " exit")) /\
  forall i tok, [text_of "echo"; text_of "'x"; [48]] !! i = Some tok -> exists p, args' !! i = Some p /\
    slice buffer' p (S (length tok)) = tok ++ [0].
Proof.
  destruct (tokenize_command_spec (text_of "echo 'x $y; exit") (replicate 1024 0) (replicate 128 0) (replicate 16 0%nat))
    as [_ H]; [by apply Forall_forall; vm_compute; set_solver|by apply Nat.ltb_lt|by apply Nat.leb_le|done|done|].
  destruct (H [text_of "echo"; text_of "'x"; [48]] (Some (text_of " exit"))) as (args' & buffer' & E & _ & _ & Hp); [|by eauto].
  refine (L_word 101 (text_of "cho") (text_of " 'x $y; exit") _ _ eq_refl _ _ _ eq_refl _); [done|done|by repeat constructor|].
  refine (L_space 32 _ _ _ eq_refl _).
  refine (L_word 39 (text_of "x") (text_of " $y; exit") _ _ eq_refl _ _ _ eq_refl _); [done|done|by repeat constructor|].
  refine (L_space 32 _ _ _ eq_refl _).
  refine (L_var (text_of "y") (text_of "; exit") [] _ _ eq_refl _); [by repeat constructor|]. apply L_sep.
Defined.

Lemma read_debug_line_spec_witness : exists b o hs n s',
  read_debug_line (demo_console (text_of "lt" ++ [8] ++ text_of "s" ++ [10; 120])) = Some (Line 2, s') /\
  s' = set_history hs n (touch b o (set_input [120] (demo_console (text_of "lt" ++ [8] ++ text_of "s" ++ [10; 120])))) /\
  until_nul b = Some (text_of "ls") /\ hist_ok [text_of "ls"] s'.
Proof.
  destruct (read_debug_line_spec [] (demo_console (text_of "lt" ++ [8] ++ text_of "s" ++ [10; 120])) (demo_hist _) eq_refl)
    as (b & o & hs & n & E & _ & Hu & _ & Hh).
  eexists b, o, hs, n, _. split; [exact E|]. split; [reflexivity|]. split; [exact Hu|exact Hh].
Defined.

