(* ===== verification/Gfx.v ===== *)
(** * Graphics surfaces: lib/gfx/gfx.c and lib/font/font.c

    A surface is a picture of [width] by [height] pixels in rows of [stride]
    pixels.  Its memory is the array [ptr] of pixels of the format's width, so an
    access outside of it is a panic; positions in it are computed in 32 bits as
    in the code.  [surface->flush] is not set by [gfx_create_surface]: calling it
    then is a panic too.  Cache maintenance and calls of the display's flush
    function are recorded in [events].  The three function pointers of a surface
    are the pair of sets [ops16] and [ops32]. *)

From S2P Require Import Prelude Arrays.
Local Open Scope lk_scope.

Inductive gfx_format : Type := GFX_FORMAT_RGB_565 | GFX_FORMAT_ARGB_8888 | GFX_FORMAT_RGB_x888.
#[global] Instance gfx_format_eq_dec : EqDecision gfx_format.
Proof. solve_decision. Defined.

Inductive gfx_ops : Type := ops16 | ops32.
Inductive flush_fn : Type := Unset | NoFlush | DisplayFlush.
Inductive gfx_event : Type := Clean (offset size : Z) | Flush (start end_ : Z).

Definition MAX_ALPHA : Z := 255.

Record gfx_surface : Type := {
  ptr : list Z;
  free_on_destroy : bool;
  format : gfx_format;
  width : Z;
  height : Z;
  stride : Z;
  pixelsize : Z;
  len : Z;
  alpha : Z;
  ops : gfx_ops;
  flush : flush_fn;
  events : list gfx_event;
}.

Definition set_ptr (l : list Z) (s : gfx_surface) : gfx_surface :=
  {| ptr := l; free_on_destroy := free_on_destroy s; format := format s; width := width s; height := height s;
     stride := stride s; pixelsize := pixelsize s; len := len s; alpha := alpha s; ops := ops s; flush := flush s;
     events := events s |}.
Definition set_flush (f : flush_fn) (s : gfx_surface) : gfx_surface :=
  {| ptr := ptr s; free_on_destroy := free_on_destroy s; format := format s; width := width s; height := height s;
     stride := stride s; pixelsize := pixelsize s; len := len s; alpha := alpha s; ops := ops s; flush := f;
     events := events s |}.
Definition note (e : list gfx_event) (s : gfx_surface) : gfx_surface :=
  {| ptr := ptr s; free_on_destroy := free_on_destroy s; format := format s; width := width s; height := height s;
     stride := stride s; pixelsize := pixelsize s; len := len s; alpha := alpha s; ops := ops s; flush := flush s;
     events := events s ++ e |}.

(** ** Pixels *)

Definition u16 (z : Z) : Z := z mod 2 ^ 16.

Definition ARGB8888_to_RGB565 (c : Z) : Z :=
  let out := u16 (Z.land (Z.shiftr c 3) 31) in
  let out := u16 (Z.lor out (Z.shiftl (Z.land (Z.shiftr c 10) 63) 5)) in
  u16 (Z.lor out (Z.shiftl (Z.land (Z.shiftr c 19) 31) 11)).

Definition pixel_at (l : list Z) (i : Z) : option Z := if i <? 0 then None else l !! Z.to_nat i.

Definition get_pixel (i : Z) : M gfx_surface Z := getopt (fun s => pixel_at (ptr s) i).
Definition set_pixel (i c : Z) : M gfx_surface unit :=
  let* l := getopt (fun s => blit_at (ptr s) i [c]) in modify (set_ptr l).

Definition pixel_index (s : gfx_surface) (x y : Z) : Z := u32 (x + u32 (y * stride s)).

Definition putpixel16 (x y color : Z) : M gfx_surface unit :=
  let* i := gets (fun s => pixel_index s x y) in set_pixel i (ARGB8888_to_RGB565 color).
Definition putpixel32 (x y color : Z) : M gfx_surface unit :=
  let* i := gets (fun s => pixel_index s x y) in set_pixel i color.

(** The loops of [copyrect16] and [copyrect32]: [step] is 1 forwards, -1
    backwards, and [skip] what is added at the end of a row. *)
Fixpoint copy_row (step : Z) (n : nat) (dest src : Z) : M gfx_surface (Z * Z) :=
  match n with
  | O => ret (dest, src)
  | S n' => let* c := get_pixel src in set_pixel dest c ;;; copy_row step n' (dest + step) (src + step)
  end.
Fixpoint copy_rows (step skip : Z) (h w : nat) (dest src : Z) : M gfx_surface unit :=
  match h with
  | O => ret tt
  | S h' =>
      let* (dest, src) := copy_row step w dest src in
      copy_rows step skip h' w (dest + skip) (src + skip)
  end.
Definition copyrect16 (x y w h x2 y2 : Z) : M gfx_surface unit :=
  let* s := gets id in
  let src := pixel_index s x y in
  let dest := pixel_index s x2 y2 in
  let stride_diff := u32 (stride s - w) in
  if dest <? src then copy_rows 1 stride_diff (Z.to_nat h) (Z.to_nat w) dest src
  else
    let back := u32 (u32 (h * stride s) + w) in
    copy_rows (-1) (- stride_diff) (Z.to_nat h) (Z.to_nat w) (dest + back) (src + back).
Definition copyrect32 (x y w h x2 y2 : Z) : M gfx_surface unit :=
  let* s := gets id in
  let src := pixel_index s x y in
  let dest := pixel_index s x2 y2 in
  let stride_diff := u32 (stride s - w) in
  if dest <? src then copy_rows 1 stride_diff (Z.to_nat h) (Z.to_nat w) dest src
  else
    let back := u32 (u32 (h * stride s) + w) in
    copy_rows (-1) (- stride_diff) (Z.to_nat h) (Z.to_nat w) (dest + back) (src + back).

Fixpoint fill_row (color : Z) (n : nat) (dest : Z) : M gfx_surface Z :=
  match n with
  | O => ret dest
  | S n' => set_pixel dest color ;;; fill_row color n' (dest + 1)
  end.
Fixpoint fill_rows (color skip : Z) (h w : nat) (dest : Z) : M gfx_surface unit :=
  match h with
  | O => ret tt
  | S h' => let* dest := fill_row color w dest in fill_rows color skip h' w (dest + skip)
  end.
Definition fillrect16 (x y w h color : Z) : M gfx_surface unit :=
  let* s := gets id in
  fill_rows (ARGB8888_to_RGB565 color) (u32 (stride s - w)) (Z.to_nat h) (Z.to_nat w) (pixel_index s x y).
Definition fillrect32 (x y w h color : Z) : M gfx_surface unit :=
  let* s := gets id in
  fill_rows color (u32 (stride s - w)) (Z.to_nat h) (Z.to_nat w) (pixel_index s x y).

(** The function pointers. *)
Definition surface_putpixel (x y color : Z) : M gfx_surface unit :=
  let* o := gets ops in match o with ops16 => putpixel16 x y color | ops32 => putpixel32 x y color end.
Definition surface_copyrect (x y w h x2 y2 : Z) : M gfx_surface unit :=
  let* o := gets ops in match o with ops16 => copyrect16 x y w h x2 y2 | ops32 => copyrect32 x y w h x2 y2 end.
Definition surface_fillrect (x y w h color : Z) : M gfx_surface unit :=
  let* o := gets ops in match o with ops16 => fillrect16 x y w h color | ops32 => fillrect32 x y w h color end.
Definition surface_flush (start end_ : Z) : M gfx_surface unit :=
  let* f := gets flush in
  match f with
  | Unset => panic
  | NoFlush => ret tt
  | DisplayFlush => modify (note [Flush start end_])
  end.

(** ** Drawing *)

Definition gfx_copyrect (x y w h x2 y2 : Z) : M gfx_surface unit :=
  let* s := gets id in
  if width s <=? x then ret tt
  else if width s <=? x2 then ret tt
  else if height s <=? y then ret tt
  else if height s <=? y2 then ret tt
  else if (w =? 0) || (h =? 0) then ret tt
  else
    let w := if width s <? u32 (x + w) then u32 (width s - x) else w in
    let w := if width s <? u32 (x2 + w) then u32 (width s - x2) else w in
    let h := if height s <? u32 (y + h) then u32 (height s - y) else h in
    let h := if height s <? u32 (y2 + h) then u32 (height s - y2) else h in
    surface_copyrect x y w h x2 y2.

Definition gfx_fillrect (x y w h color : Z) : M gfx_surface unit :=
  let* s := gets id in
  if width s <=? x then ret tt
  else if height s <=? y then ret tt
  else if (w =? 0) || (h =? 0) then ret tt
  else
    let w := if width s <? u32 (x + w) then u32 (width s - x) else w in
    let h := if height s <? u32 (y + h) then u32 (height s - y) else h in
    surface_fillrect x y w h color.

Definition gfx_putpixel (x y color : Z) : M gfx_surface unit :=
  let* s := gets id in
  if width s <=? x then ret tt
  else if height s <=? y then ret tt
  else surface_putpixel x y color.

Definition gfx_flush : M gfx_surface unit :=
  let* s := gets id in
  modify (note [Clean 0 (len s)]) ;;; surface_flush 0 (u32 (height s - 1)).

Definition gfx_flush_rows (start end_ : Z) : M gfx_surface unit :=
  let* s := gets id in
  let '(start, end_) := if end_ <? start then (end_, start) else (start, end_) in
  if height s <=? start then ret tt
  else
    let end_ := if height s <=? end_ then u32 (height s - 1) else end_ in
    modify (note [Clean (u32 (u32 (start * stride s) * pixelsize s))
                        (u32 (u32 (u32 (end_ - start + 1) * stride s) * pixelsize s))]) ;;;
    surface_flush start end_.

Definition gfx_clear (color : Z) : M gfx_surface unit :=
  let* s := gets id in
  surface_fillrect 0 0 (width s) (height s) color ;;; surface_flush 0 (u32 (height s - 1)).

(** ** Blending *)

Definition channel (c i : Z) : Z := Z.land (Z.shiftr c i) 255.

Definition alpha32_add_ignore_destalpha (dest src : Z) : Z :=
  let srca := channel src 24 in
  if srca =? 0 then dest
  else if srca =? 255 then src
  else
    let srca := u32 (srca + 1) in
    let srcainv := u32 (255 - srca) in
    let cres i := u32 (u32 (channel src i * srca) / 256 + u32 (channel dest i * srcainv) / 256) in
    Z.lor (Z.lor (Z.lor (u32 (Z.shiftl srca 24)) (u32 (Z.shiftl (cres 16) 16))) (u32 (Z.shiftl (cres 8) 8))) (cres 0).

(** [source] is another surface than the target, with memory of its own. *)
Section blend.
Context (store : Z -> Z -> M gfx_surface unit) (source : gfx_surface).

Fixpoint blend_row (n : nat) (dest src : Z) : M gfx_surface (Z * Z) :=
  match n with
  | O => ret (dest, src)
  | S n' =>
      let* c := getopt (fun _ => pixel_at (ptr source) src) in
      store dest c ;;; blend_row n' (dest + 1) (src + 1)
  end.
Fixpoint blend_rows (dskip sskip : Z) (h w : nat) (dest src : Z) : M gfx_surface unit :=
  match h with
  | O => ret tt
  | S h' =>
      let* (dest, src) := blend_row w dest src in
      blend_rows dskip sskip h' w (dest + dskip) (src + sskip)
  end.
End blend.

Definition blend_pixel (i c : Z) : M gfx_surface unit :=
  let* d := get_pixel i in set_pixel i (alpha32_add_ignore_destalpha d c).

Definition gfx_surface_blend (source : gfx_surface) (destx desty : Z) : M gfx_surface unit :=
  let* s := gets id in
  assert_ (bool_decide (format s = format source)) ;;;
  if width s <=? destx then ret tt
  else if height s <=? desty then ret tt
  else
    let w := if width s <? u32 (destx + width source) then u32 (width s - destx) else width source in
    let h := if height s <? u32 (desty + height source) then u32 (height s - desty) else height source in
    let rows store := blend_rows store source (u32 (stride s - w)) (u32 (stride source - w)) (Z.to_nat h) (Z.to_nat w)
                        (pixel_index s destx desty) 0 in
    match format source, format s with
    | GFX_FORMAT_RGB_565, GFX_FORMAT_RGB_565 => rows set_pixel
    | GFX_FORMAT_ARGB_8888, GFX_FORMAT_ARGB_8888 => rows blend_pixel
    | GFX_FORMAT_RGB_x888, GFX_FORMAT_RGB_x888 => rows set_pixel
    | _, _ => panic
    end.

(** ** Surfaces *)

(** [mem] is the memory of a surface given by the caller; [fresh n] what
    [malloc] finds in memory for [n] pixels. *)
Definition gfx_create_surface (fresh : nat -> list Z) (mem : option (list Z)) (w h st : Z) (fmt : gfx_format)
    : option gfx_surface :=
  if (0 <? w) && (0 <? h) && (w <=? st) then
    let '(o, psize) := match fmt with GFX_FORMAT_RGB_565 => (ops16, 2) | _ => (ops32, 4) end in
    let size := u32 (u32 (h * st) * psize) in
    let '(p, own) := match mem with Some p => (p, false) | None => (fresh (Z.to_nat (size / psize)), true) end in
    Some {| ptr := p; free_on_destroy := own; format := fmt; width := w; height := h; stride := st; pixelsize := psize;
            len := size; alpha := MAX_ALPHA; ops := o; flush := Unset; events := [] |}
  else None.

Record display_info : Type := {
  framebuffer : option (list Z);
  di_format : gfx_format;
  di_width : Z;
  di_height : Z;
  di_stride : Z;
  di_flush : flush_fn;
}.

Definition gfx_create_surface_from_display (fresh : nat -> list Z) (info : display_info) : option gfx_surface :=
  set_flush (di_flush info) <$>
    gfx_create_surface fresh (framebuffer info) (di_width info) (di_height info) (di_stride info) (di_format info).

(** The loops over all pixels of the test pattern. *)
Fixpoint draw_row (f : Z -> Z) (n : nat) (x y : Z) : M gfx_surface unit :=
  match n with O => ret tt | S n' => gfx_putpixel x y (f x) ;;; draw_row f n' (x + 1) y end.
Fixpoint draw_rows (f : Z -> Z -> Z) (h w : nat) (y : Z) : M gfx_surface unit :=
  match h with O => ret tt | S h' => draw_row (fun x => f x y) w 0 y ;;; draw_rows f h' w (y + 1) end.

Definition pattern (s : gfx_surface) (x y : Z) : Z :=
  let scaledx := u32 (x * 256) / width s in
  let scaledy := u32 (y * 256) / height s in
  Z.lor (Z.lor (u32 (Z.shiftl (u32 (scaledx * scaledy)) 16)) (u32 (Z.shiftl (Z.shiftr scaledx 1) 8))) (Z.shiftr scaledy 1).

Definition draw_display (f : gfx_surface -> Z -> Z -> Z) : M gfx_surface unit :=
  let* s := gets id in
  draw_rows (f s) (Z.to_nat (height s)) (Z.to_nat (width s)) 0 ;;; surface_flush 0 (u32 (height s - 1)).

(** A drawing on a surface made for it from the display: the frame buffer and the
    events behind it. *)
Definition with_display (fresh : nat -> list Z) (info : display_info) (m : M gfx_surface unit) : option (list Z * list gfx_event) :=
  s ← gfx_create_surface_from_display fresh info;
  r ← m s;
  Some (ptr (snd r), events (snd r)).

Definition gfx_draw_pattern (fresh : nat -> list Z) (info : display_info) : option (list Z * list gfx_event) :=
  with_display fresh info (draw_display pattern).
Definition gfx_draw_pattern_white (fresh : nat -> list Z) (info : display_info) : option (list Z * list gfx_event) :=
  with_display fresh info (draw_display (fun _ _ _ => 16777215)).

(** The colour bars of the console command [gfx]; a step of 0 divides by zero. *)
Definition rgb_bars (s : gfx_surface) (x y : Z) : Z :=
  let step32 := u32 (height s * 100) / 32 in
  let step64 := u32 (height s * 100) / 64 in
  if x <? width s / 3 then u32 (Z.shiftl (u32 (y * 100) / step32) 16)
  else if x <? 2 * (width s / 3) then u32 (Z.shiftl (u32 (y * 100) / step64) 8)
  else u32 (y * 100) / step32.
Definition gfx_draw_rgb_bars : M gfx_surface unit :=
  let* s := gets id in
  assert_ (negb (u32 (height s * 100) / 64 =? 0)) ;;;
  draw_rows (rgb_bars s) (Z.to_nat (height s)) (Z.to_nat (width s)) 0.

(** ** The font *)

Definition FONT_X : Z := 6.
Definition FONT_Y : Z := 12.

Definition FONT : list Z := [
  0; 0; 0; 0; 0; 0; 0; 0; 0; 0; 0; 0;
  0; 0; 0; 0; 0; 0; 0; 0; 0; 0; 0; 0;
  0; 0; 0; 0; 0; 0; 0; 0; 0; 0; 0; 0;
  0; 0; 0; 0; 0; 0; 0; 0; 0; 0; 0; 0;
  0; 0; 0; 0; 0; 0; 0; 0; 0; 0; 0; 0;
  0; 0; 0; 0; 0; 0; 0; 0; 0; 0; 0; 0;
  0; 0; 0; 0; 0; 0; 0; 0; 0; 0; 0; 0;
  0; 0; 0; 0; 0; 0; 0; 0; 0; 0; 0; 0;
  0; 0; 0; 0; 0; 0; 0; 0; 0; 0; 0; 0;
  0; 0; 0; 0; 0; 0; 0; 0; 0; 0; 0; 0;
  0; 0; 0; 0; 0; 0; 0; 0; 0; 0; 0; 0;
  0; 0; 0; 0; 0; 0; 0; 0; 0; 0; 0; 0;
  0; 0; 0; 0; 0; 0; 0; 0; 0; 0; 0; 0;
  0; 0; 0; 0; 0; 0; 0; 0; 0; 0; 0; 0;
  0; 0; 0; 0; 0; 0; 0; 0; 0; 0; 0; 0;
  0; 0; 0; 0; 0; 0; 0; 0; 0; 0; 0; 0;
  0; 0; 0; 0; 0; 0; 0; 0; 0; 0; 0; 0;
  0; 0; 0; 0; 0; 0; 0; 0; 0; 0; 0; 0;
  0; 0; 0; 0; 0; 0; 0; 0; 0; 0; 0; 0;
  0; 0; 0; 0; 0; 0; 0; 0; 0; 0; 0; 0;
  0; 0; 0; 0; 0; 0; 0; 0; 0; 0; 0; 0;
  0; 0; 0; 0; 0; 0; 0; 0; 0; 0; 0; 0;
  0; 0; 0; 0; 0; 0; 0; 0; 0; 0; 0; 0;
  0; 0; 0; 0; 0; 0; 0; 0; 0; 0; 0; 0;
  0; 0; 0; 0; 0; 0; 0; 0; 0; 0; 0; 0;
  0; 0; 0; 0; 0; 0; 0; 0; 0; 0; 0; 0;
  0; 0; 0; 0; 0; 0; 0; 0; 0; 0; 0; 0;
  0; 0; 0; 0; 0; 0; 0; 0; 0; 0; 0; 0;
  0; 0; 0; 0; 0; 0; 0; 0; 0; 0; 0; 0;
  0; 0; 0; 0; 0; 0; 0; 0; 0; 0; 0; 0;
  0; 0; 0; 0; 0; 0; 0; 0; 0; 0; 0; 0;
  0; 0; 0; 0; 0; 0; 0; 0; 0; 0; 0; 0;
  0; 0; 0; 0; 0; 0; 0; 0; 0; 0; 0; 0;
  0; 8; 8; 8; 8; 8; 8; 0; 8; 0; 0; 0;
  0; 20; 20; 20; 0; 0; 0; 0; 0; 0; 0; 0;
  0; 0; 20; 20; 62; 20; 62; 20; 20; 0; 0; 0;
  0; 0; 8; 60; 10; 28; 40; 30; 8; 0; 0; 0;
  0; 0; 6; 38; 16; 8; 4; 50; 48; 0; 0; 0;
  0; 0; 28; 2; 2; 4; 42; 18; 44; 0; 0; 0;
  0; 24; 8; 4; 0; 0; 0; 0; 0; 0; 0; 0;
  32; 16; 16; 8; 8; 8; 8; 8; 16; 16; 32; 0;
  2; 4; 4; 8; 8; 8; 8; 8; 4; 4; 2; 0;
  0; 0; 0; 8; 42; 28; 42; 8; 0; 0; 0; 0;
  0; 0; 0; 8; 8; 62; 8; 8; 0; 0; 0; 0;
  0; 0; 0; 0; 0; 0; 0; 24; 24; 8; 4; 0;
  0; 0; 0; 0; 0; 62; 0; 0; 0; 0; 0; 0;
  0; 0; 0; 0; 0; 0; 0; 24; 24; 0; 0; 0;
  32; 32; 16; 16; 8; 8; 4; 4; 2; 2; 0; 0;
  0; 28; 34; 50; 42; 38; 34; 34; 28; 0; 0; 0;
  0; 8; 12; 8; 8; 8; 8; 8; 8; 0; 0; 0;
  0; 28; 34; 32; 16; 8; 4; 2; 62; 0; 0; 0;
  0; 28; 34; 32; 24; 32; 32; 34; 28; 0; 0; 0;
  0; 16; 24; 24; 20; 20; 62; 16; 56; 0; 0; 0;
  0; 62; 2; 2; 30; 32; 32; 34; 28; 0; 0; 0;
  0; 24; 4; 2; 30; 34; 34; 34; 28; 0; 0; 0;
  0; 62; 34; 32; 32; 16; 16; 8; 8; 0; 0; 0;
  0; 28; 34; 34; 28; 34; 34; 34; 28; 0; 0; 0;
  0; 28; 34; 34; 34; 60; 32; 16; 12; 0; 0; 0;
  0; 0; 0; 24; 24; 0; 0; 24; 24; 0; 0; 0;
  0; 0; 0; 24; 24; 0; 0; 24; 24; 8; 4; 0;
  0; 0; 0; 48; 12; 3; 12; 48; 0; 0; 0; 0;
  0; 0; 0; 0; 62; 0; 62; 0; 0; 0; 0; 0;
  0; 0; 0; 3; 12; 48; 12; 3; 0; 0; 0; 0;
  0; 28; 34; 32; 16; 8; 8; 0; 8; 0; 0; 0;
  0; 0; 28; 34; 58; 58; 26; 2; 28; 0; 0; 0;
  0; 0; 8; 20; 34; 34; 62; 34; 34; 0; 0; 0;
  0; 0; 30; 34; 34; 30; 34; 34; 30; 0; 0; 0;
  0; 0; 28; 34; 2; 2; 2; 34; 28; 0; 0; 0;
  0; 0; 14; 18; 34; 34; 34; 18; 14; 0; 0; 0;
  0; 0; 62; 2; 2; 30; 2; 2; 62; 0; 0; 0;
  0; 0; 62; 2; 2; 30; 2; 2; 2; 0; 0; 0;
  0; 0; 28; 34; 2; 50; 34; 34; 60; 0; 0; 0;
  0; 0; 34; 34; 34; 62; 34; 34; 34; 0; 0; 0;
  0; 0; 62; 8; 8; 8; 8; 8; 62; 0; 0; 0;
  0; 0; 56; 32; 32; 32; 34; 34; 28; 0; 0; 0;
  0; 0; 34; 18; 10; 6; 10; 18; 34; 0; 0; 0;
  0; 0; 2; 2; 2; 2; 2; 2; 62; 0; 0; 0;
  0; 0; 34; 54; 42; 42; 34; 34; 34; 0; 0; 0;
  0; 0; 34; 38; 38; 42; 50; 50; 34; 0; 0; 0;
  0; 0; 28; 34; 34; 34; 34; 34; 28; 0; 0; 0;
  0; 0; 30; 34; 34; 30; 2; 2; 2; 0; 0; 0;
  0; 0; 28; 34; 34; 34; 34; 34; 28; 48; 0; 0;
  0; 0; 30; 34; 34; 30; 10; 18; 34; 0; 0; 0;
  0; 0; 28; 34; 2; 28; 32; 34; 28; 0; 0; 0;
  0; 0; 62; 8; 8; 8; 8; 8; 8; 0; 0; 0;
  0; 0; 34; 34; 34; 34; 34; 34; 28; 0; 0; 0;
  0; 0; 34; 34; 34; 20; 20; 8; 8; 0; 0; 0;
  0; 0; 34; 34; 34; 42; 42; 54; 34; 0; 0; 0;
  0; 0; 34; 34; 20; 8; 20; 34; 34; 0; 0; 0;
  0; 0; 34; 34; 20; 8; 8; 8; 8; 0; 0; 0;
  0; 0; 62; 32; 16; 8; 4; 2; 62; 0; 0; 0;
  56; 8; 8; 8; 8; 8; 8; 8; 8; 8; 56; 0;
  2; 2; 4; 4; 8; 8; 16; 16; 32; 32; 0; 0;
  14; 8; 8; 8; 8; 8; 8; 8; 8; 8; 14; 0;
  0; 8; 20; 34; 0; 0; 0; 0; 0; 0; 0; 0;
  0; 0; 0; 0; 0; 0; 0; 0; 0; 63; 0; 0;
  0; 12; 8; 16; 0; 0; 0; 0; 0; 0; 0; 0;
  0; 0; 0; 0; 60; 34; 34; 50; 44; 0; 0; 0;
  0; 2; 2; 2; 30; 34; 34; 34; 30; 0; 0; 0;
  0; 0; 0; 0; 60; 2; 2; 2; 60; 0; 0; 0;
  0; 32; 32; 32; 60; 34; 34; 34; 60; 0; 0; 0;
  0; 0; 0; 0; 28; 34; 62; 2; 28; 0; 0; 0;
  0; 56; 4; 4; 30; 4; 4; 4; 4; 0; 0; 0;
  0; 0; 0; 0; 60; 34; 34; 34; 60; 32; 32; 28;
  0; 2; 2; 2; 30; 34; 34; 34; 34; 0; 0; 0;
  0; 8; 8; 0; 12; 8; 8; 8; 28; 0; 0; 0;
  0; 16; 16; 0; 28; 16; 16; 16; 16; 16; 16; 14;
  0; 2; 2; 2; 18; 10; 6; 10; 18; 0; 0; 0;
  0; 12; 8; 8; 8; 8; 8; 8; 28; 0; 0; 0;
  0; 0; 0; 0; 22; 42; 42; 42; 34; 0; 0; 0;
  0; 0; 0; 0; 26; 38; 34; 34; 34; 0; 0; 0;
  0; 0; 0; 0; 28; 34; 34; 34; 28; 0; 0; 0;
  0; 0; 0; 0; 30; 34; 34; 34; 30; 2; 2; 2;
  0; 0; 0; 0; 60; 34; 34; 34; 60; 32; 32; 32;
  0; 0; 0; 0; 26; 6; 2; 2; 2; 0; 0; 0;
  0; 0; 0; 0; 60; 2; 28; 32; 30; 0; 0; 0;
  0; 8; 8; 8; 62; 8; 8; 8; 48; 0; 0; 0;
  0; 0; 0; 0; 34; 34; 34; 50; 44; 0; 0; 0;
  0; 0; 0; 0; 54; 20; 20; 8; 8; 0; 0; 0;
  0; 0; 0; 0; 34; 42; 42; 42; 20; 0; 0; 0;
  0; 0; 0; 0; 34; 20; 8; 20; 34; 0; 0; 0;
  0; 0; 0; 0; 34; 34; 34; 34; 60; 32; 32; 28;
  0; 0; 0; 0; 62; 16; 8; 4; 62; 0; 0; 0;
  32; 16; 16; 16; 16; 8; 16; 16; 16; 16; 32; 0;
  8; 8; 8; 8; 8; 8; 8; 8; 8; 8; 8; 0;
  2; 4; 4; 4; 4; 8; 4; 4; 4; 4; 2; 0;
  0; 4; 42; 16; 0; 0; 0; 0; 0; 0; 0; 0;
  0; 0; 0; 8; 8; 20; 20; 34; 62; 0; 0; 0].

(** [n] bits of [line] are left, the next one for column [x]. *)
Fixpoint draw_bits (color : Z) (n : nat) (line x y : Z) : M gfx_surface unit :=
  match n with
  | O => ret tt
  | S n' =>
      (when negb (Z.land line 1 =? 0) do gfx_putpixel (u32 x) (u32 y) color) ;;;
      draw_bits color n' (Z.shiftr line 1) (x + 1) y
  end.
Fixpoint draw_lines (color c : Z) (n : nat) (i x y : Z) : M gfx_surface unit :=
  match n with
  | O => ret tt
  | S n' =>
      let* line := getopt (fun _ => FONT !! Z.to_nat (c * FONT_Y + i)) in
      draw_bits color (Z.to_nat FONT_X) line x (y + i) ;;; draw_lines color c n' (i + 1) x y
  end.
Definition font_draw_char (c x y color : Z) : M gfx_surface unit :=
  draw_lines color c (Z.to_nat FONT_Y) 0 x y ;;; gfx_flush_rows (u32 y) (u32 (y + FONT_Y)).
