(* ===== verification/GfxSpec.v ===== *)
(** * Pictures: what the loops of lib/gfx do to the memory of a surface

    A picture is a function from positions in the pixel memory to pixels.  Each
    loop of the model is shown to turn the picture in memory into another one,
    and a rectangle is described by its first position, width, stride and
    height. *)

From S2P Require Import Prelude Arrays Gfx.
Local Open Scope lk_scope.

Definition shows (l : list Z) (pic : Z -> Z) : Prop :=
  forall i, 0 <= i < Z.of_nat (length l) -> l !! Z.to_nat i = Some (pic i).
Definition picture (l : list Z) (i : Z) : Z := default 0 (l !! Z.to_nat i).

(** [m] returns [a] and leaves [pic] in the memory, and changes nothing else. *)
Definition does {A} (m : M gfx_surface A) (s : gfx_surface) (a : A) (pic : Z -> Z) : Prop :=
  exists l, m s = Some (a, set_ptr l s) /\ length l = length (ptr s) /\ shows l pic.

Lemma shows_picture l : shows l (picture l).
Proof. intros i Hi. unfold picture. destruct (lookup_lt_is_Some_2 l (Z.to_nat i)) as [c E]; [lia|]. by rewrite E. Qed.

Lemma shows_ext l f g : shows l f -> (forall i, 0 <= i < Z.of_nat (length l) -> f i = g i) -> shows l g.
Proof. intros H E i Hi. rewrite H, E by done. done. Qed.

Lemma shows_inj l l' f : length l = length l' -> shows l f -> shows l' f -> l = l'.
Proof.
  intros Hl H H'. apply list_eq. intros i. destruct (decide (i < length l)%nat) as [Hi|Hi].
  - specialize (H (Z.of_nat i)). specialize (H' (Z.of_nat i)). rewrite Nat2Z.id in *. rewrite H, H' by lia. done.
  - rewrite !lookup_ge_None_2 by lia. done.
Qed.

Lemma does_ext {A} (m : M gfx_surface A) s a f g :
  does m s a f -> (forall i, 0 <= i < Z.of_nat (length (ptr s)) -> f i = g i) -> does m s a g.
Proof. intros (l & E & Hl & Hs) H. exists l. split_and!; [done|done|]. eapply shows_ext; [done|]. rewrite Hl. done. Qed.

Lemma set_ptr_self s : set_ptr (ptr s) s = s.
Proof. by destruct s. Qed.

Lemma does_ret {A} s (a : A) pic : shows (ptr s) pic -> does (ret a) s a pic.
Proof. intros H. exists (ptr s). by rewrite set_ptr_self. Qed.

Lemma does_bind {A B} (m : M gfx_surface A) (f : A -> M gfx_surface B) s a b pic1 pic2 :
  does m s a pic1 ->
  (forall l, length l = length (ptr s) -> shows l pic1 -> does (f a) (set_ptr l s) b pic2) ->
  does (bind m f) s b pic2.
Proof.
  intros (l & E & Hl & Hs) Hf. destruct (Hf l Hl Hs) as (l' & E' & Hl' & Hs').
  exists l'. rewrite (bind_some _ _ _ _ _ E). cbn in Hl'. split_and!; [done|congruence|done].
Qed.

Lemma does_gets {A B} (g : gfx_surface -> A) (f : A -> M gfx_surface B) s b pic :
  does (f (g s)) s b pic -> does (bind (gets g) f) s b pic.
Proof. done. Qed.

Lemma get_pixel_run s pic i : shows (ptr s) pic -> 0 <= i < Z.of_nat (length (ptr s)) -> get_pixel i s = Some (pic i, s).
Proof.
  intros H Hi. unfold get_pixel, getopt, pixel_at. destruct (Z.ltb_spec i 0); [lia|]. by rewrite H.
Qed.

Definition upd (pic : Z -> Z) (i c k : Z) : Z := if k =? i then c else pic k.

Lemma set_pixel_does s pic i c : shows (ptr s) pic -> 0 <= i < Z.of_nat (length (ptr s)) -> does (set_pixel i c) s tt (upd pic i c).
Proof.
  intros H Hi. destruct (blit_at_Some (ptr s) i [c]) as (l & E & Hl); [lia|cbn; lia|]. exists l. split_and!.
  - unfold set_pixel. by rewrite (bind_some _ _ s l s) by (unfold getopt; by rewrite E).
  - done.
  - intros k Hk. rewrite (blit_at_lookup _ _ _ _ (Z.to_nat k) E). unfold upd. cbn [length].
    rewrite Z2Nat.id by lia. destruct (Z.eqb_spec k i) as [->|Hne]; case_decide; try lia.
    + by rewrite Z.sub_diag.
    + apply H. lia.
Qed.

(** ** Rectangles *)

(** Position [k] is in the rectangle of [w] by [h] pixels that starts at [o], in
    rows of [st]. *)
Definition inr (o w st h k : Z) : bool := (o <=? k) && ((k - o) / st <? h) && ((k - o) mod st <? w).

Lemma inr_0 o w st k : 0 < st -> inr o w st 0 k = false.
Proof.
  intros. unfold inr. destruct (Z.leb_spec o k); [|done]. cbn [andb].
  pose proof (Z.div_pos (k - o) st). destruct (Z.ltb_spec ((k - o) / st) 0); [lia|done].
Qed.

Lemma inr_S o w st h k : 0 <= w <= st -> 0 < st -> 0 <= h ->
  inr o w st (h + 1) k = (o <=? k) && (k <? o + w) || inr (o + st) w st h k.
Proof.
  intros Hw Hs Hh. unfold inr. destruct (Z.leb_spec o k); [|cbn; symmetry; apply andb_false_iff; left; apply andb_false_iff; left; lia].
  cbn [andb]. destruct (Z.leb_spec (o + st) k).
  - replace (k - o) with (k - (o + st) + 1 * st) by lia. rewrite Z.div_add, Z.mod_add by lia.
    destruct (Z.ltb_spec k (o + w)); [lia|]. cbn. f_equal. apply eq_true_iff_eq. rewrite !Z.ltb_lt. lia.
  - rewrite Z.div_small, Z.mod_small by lia. cbn. rewrite orb_false_r. replace (0 <? h + 1) with true by lia. cbn. lia.
Qed.

(** The same from the last row on. *)
Lemma inr_last o w st h k : 0 <= w <= st -> 0 < st -> 0 <= h ->
  inr o w st (h + 1) k = inr o w st h k || (o + h * st <=? k) && (k <? o + h * st + w).
Proof.
  intros Hw Hs Hh. unfold inr. destruct (Z.leb_spec o k) as [Ho|Ho]; cbn [andb orb]; [|destruct (Z.leb_spec (o + h * st) k); [nia|done]].
  pose proof (Z.div_mod (k - o) st ltac:(lia)). pose proof (Z.mod_pos_bound (k - o) st ltac:(lia)).
  set (q := (k - o) / st) in *. set (r := (k - o) mod st) in *. apply eq_true_iff_eq.
  rewrite !orb_true_iff, !andb_true_iff, !Z.ltb_lt, !Z.leb_le.
  destruct (Z.lt_trichotomy q h) as [Hq|[-> | Hq]]; split; intros Hx; try nia; try (left; lia); try (right; nia).
Qed.

Lemma inr_coord x y w h st i j : 0 <= x -> x + w <= st -> 0 <= i < st -> 0 <= w -> 0 <= y -> 0 <= j ->
  inr (x + y * st) w st h (i + j * st) = (x <=? i) && (i <? x + w) && (y <=? j) && (j <? y + h).
Proof.
  intros Hx Hw Hi Hw0 Hy Hj. unfold inr. apply eq_true_iff_eq. rewrite !andb_true_iff, !Z.ltb_lt, !Z.leb_le.
  replace (i + j * st - (x + y * st)) with (i - x + (j - y) * st) by lia. rewrite Z.div_add, Z.mod_add by lia.
  destruct (Z.le_gt_cases x i) as [Hxi|Hxi].
  - rewrite Z.div_small, Z.mod_small by lia. split; [|nia]. intros [[H1 H2] H3]. split_and!; [lia|lia| |lia].
    destruct (Z.le_gt_cases y j); [done|nia].
  - replace (i - x) with (i - x + st + (-1) * st) by lia. rewrite Z.div_add, Z.mod_add by lia.
    rewrite Z.div_small, Z.mod_small by lia. lia.
Qed.

(** ** The loops *)

Definition seg (o n k : Z) : bool := (o <=? k) && (k <? o + n).

Lemma seg_0 o k : seg o 0 k = false.
Proof. unfold seg. destruct (Z.leb_spec o k), (Z.ltb_spec k (o + 0)); done || lia. Qed.

Lemma seg_S o n k : 0 <= n -> seg o (n + 1) k = (k =? o) || seg (o + 1) n k.
Proof. intros. unfold seg. apply eq_true_iff_eq. rewrite orb_true_iff, !andb_true_iff, !Z.ltb_lt, !Z.leb_le, Z.eqb_eq. lia. Qed.

Lemma seg_lt o n k : seg o n k = true <-> o <= k < o + n.
Proof. unfold seg. rewrite andb_true_iff, Z.leb_le, Z.ltb_lt. done. Qed.

Lemma seg_spec o n k : BoolSpec (o <= k < o + n) (~ o <= k < o + n) (seg o n k).
Proof. destruct (seg o n k) eqn:E; constructor; [by apply seg_lt|]. rewrite <- seg_lt. by rewrite E. Qed.

Lemma fill_row_does c n dest s pic :
  shows (ptr s) pic -> 0 <= dest -> dest + Z.of_nat n <= Z.of_nat (length (ptr s)) ->
  does (fill_row c n dest) s (dest + Z.of_nat n) (fun k => if seg dest (Z.of_nat n) k then c else pic k).
Proof.
  revert dest s pic. induction n as [|n IH]; intros dest s pic H Hd Hn; cbn [fill_row].
  - rewrite Z.add_0_r. apply does_ret. eapply shows_ext; [done|]. intros i _. by rewrite seg_0.
  - eapply does_bind; [by apply set_pixel_does; [|lia]|]. intros l Hl Hs. cbn beta.
    replace (dest + Z.of_nat (S n)) with (dest + 1 + Z.of_nat n) by lia.
    eapply does_ext; [apply (IH (dest + 1) (set_ptr l s)); [done|lia|cbn; lia]|].
    intros i _. rewrite Nat2Z.inj_succ, <- Z.add_1_r, seg_S by lia. unfold upd. by destruct (i =? dest), (seg _ _ _).
Qed.

Lemma fill_rows_does c st h w dest s pic :
  shows (ptr s) pic -> 0 <= dest -> 0 < w <= st ->
  ((0 < h)%nat -> dest + (Z.of_nat h - 1) * st + w <= Z.of_nat (length (ptr s))) ->
  does (fill_rows c (st - w) h (Z.to_nat w) dest) s tt (fun k => if inr dest w st (Z.of_nat h) k then c else pic k).
Proof.
  revert dest s pic. induction h as [|h IH]; intros dest s pic H Hd Hw Hn; cbn [fill_rows].
  - apply does_ret. eapply shows_ext; [done|]. intros i _. by rewrite inr_0 by lia.
  - eapply does_bind; [apply fill_row_does; [done|done|nia]|]. intros l Hl Hs. cbn beta in *. rewrite Z2Nat.id in * by lia.
    replace (dest + w + (st - w)) with (dest + st) by lia.
    eapply does_ext; [apply (IH _ (set_ptr l s)); [done|lia..|cbn; nia]|].
    intros i _. cbn beta. rewrite Nat2Z.inj_succ, <- Z.add_1_r, inr_S by lia. fold (seg dest w i).
    by destruct (inr _ _ _ _ _), (seg _ _ _).
Qed.

(** A row copied forwards, to the left of where it is read. *)
Lemma copy_row_fwd n dest src s pic :
  shows (ptr s) pic -> 0 <= dest < src -> src + Z.of_nat n <= Z.of_nat (length (ptr s)) ->
  does (copy_row 1 n dest src) s (dest + Z.of_nat n, src + Z.of_nat n)
    (fun k => if seg dest (Z.of_nat n) k then pic (k + (src - dest)) else pic k).
Proof.
  revert dest src s pic. induction n as [|n IH]; intros dest src s pic H Hd Hn; cbn [copy_row].
  - rewrite !Z.add_0_r. apply does_ret. eapply shows_ext; [done|]. intros i _. by rewrite seg_0.
  - eapply does_bind; [exists (ptr s); rewrite set_ptr_self; split_and!; [apply (get_pixel_run s pic); [done|lia]|done|done]|].
    intros l0 Hl0 Hs0. eapply does_bind; [by apply (set_pixel_does (set_ptr l0 s)); [done|cbn; lia]|]. intros l Hl Hs. cbn beta in *.
    replace (dest + Z.of_nat (S n)) with (dest + 1 + Z.of_nat n) by lia.
    replace (src + Z.of_nat (S n)) with (src + 1 + Z.of_nat n) by lia.
    eapply does_ext; [apply (IH (dest + 1) (src + 1) (set_ptr l s)); [done|lia|cbn; cbn in Hl; lia]|].
    intros i _. cbn beta. replace (i + (src + 1 - (dest + 1))) with (i + (src - dest)) by lia. rewrite Nat2Z.inj_succ, <- Z.add_1_r, seg_S by lia.
    unfold upd. destruct (seg (dest + 1) (Z.of_nat n) i) eqn:E; [apply seg_lt in E; rewrite orb_true_r; destruct (Z.eqb_spec (i + (src - dest)) dest); done || lia|].
    rewrite orb_false_r. destruct (Z.eqb_spec i dest) as [->|]; [f_equal; lia|done].
Qed.

Lemma inr_lt o w st h k : 0 < w <= st -> 0 <= h -> inr o w st h k = true -> o <= k < o + (h - 1) * st + w.
Proof.
  intros Hw Hh. unfold inr. rewrite !andb_true_iff, Z.leb_le, !Z.ltb_lt. intros [[H1 H2] H3].
  pose proof (Z.div_mod (k - o) st ltac:(lia)). split; [done|]. nia.
Qed.

Lemma copy_rows_fwd st h w dest src s pic :
  shows (ptr s) pic -> 0 <= dest < src -> 0 < w <= st ->
  ((0 < h)%nat -> src + (Z.of_nat h - 1) * st + w <= Z.of_nat (length (ptr s))) ->
  does (copy_rows 1 (st - w) h (Z.to_nat w) dest src) s tt
    (fun k => if inr dest w st (Z.of_nat h) k then pic (k + (src - dest)) else pic k).
Proof.
  revert dest src s pic. induction h as [|h IH]; intros dest src s pic H Hd Hw Hn; cbn [copy_rows].
  - apply does_ret. eapply shows_ext; [done|]. intros i _. by rewrite inr_0 by lia.
  - eapply does_bind; [apply copy_row_fwd; [done|done|nia]|]. intros l Hl Hs. cbn beta iota in *. rewrite Z2Nat.id in * by lia.
    replace (dest + w + (st - w)) with (dest + st) by lia. replace (src + w + (st - w)) with (src + st) by lia.
    eapply does_ext; [apply (IH _ _ (set_ptr l s)); [done|lia..|cbn; nia]|].
    intros i _. cbn beta. rewrite Nat2Z.inj_succ, <- Z.add_1_r, inr_S by lia. fold (seg dest w i).
    replace (i + (src + st - (dest + st))) with (i + (src - dest)) by lia.
    destruct (inr (dest + st) w st (Z.of_nat h) i) eqn:E; [|by rewrite orb_false_r].
    apply inr_lt in E; [|lia..]. rewrite orb_true_r. destruct (seg dest w (i + (src - dest))) eqn:E2; [apply seg_lt in E2; lia|done].
Qed.

(** Backwards: from the last pixel of the row [dest - n + 1 .. dest] down, to the
    right of where it is read. *)
Lemma copy_row_bwd n dest src s pic :
  shows (ptr s) pic -> src <= dest < Z.of_nat (length (ptr s)) -> 0 <= src - Z.of_nat n + 1 ->
  does (copy_row (-1) n dest src) s (dest - Z.of_nat n, src - Z.of_nat n)
    (fun k => if seg (dest - Z.of_nat n + 1) (Z.of_nat n) k then pic (k + (src - dest)) else pic k).
Proof.
  revert dest src s pic. induction n as [|n IH]; intros dest src s pic H Hd Hn; cbn [copy_row].
  - rewrite !Z.sub_0_r. apply does_ret. eapply shows_ext; [done|]. intros i _. by rewrite seg_0.
  - eapply does_bind; [exists (ptr s); rewrite set_ptr_self; split_and!; [apply (get_pixel_run s pic); [done|lia]|done|done]|].
    intros l0 Hl0 Hs0. eapply does_bind; [by apply (set_pixel_does (set_ptr l0 s)); [done|cbn; lia]|]. intros l Hl Hs. cbn beta in *.
    replace (dest - Z.of_nat (S n)) with (dest + -1 - Z.of_nat n) by lia.
    replace (src - Z.of_nat (S n)) with (src + -1 - Z.of_nat n) by lia. cbn in Hl.
    eapply does_ext; [apply (IH (dest + -1) (src + -1) (set_ptr l s)); [done|cbn; lia|lia]|].
    intros i _. cbn beta. replace (i + (src + -1 - (dest + -1))) with (i + (src - dest)) by lia.
    unfold upd. destruct (seg_spec (dest + -1 - Z.of_nat n + 1) (Z.of_nat n) i);
      destruct (seg_spec (dest + -1 - Z.of_nat n + 1) (Z.of_nat (S n)) i); try lia.
    + destruct (Z.eqb_spec (i + (src - dest)) dest); [lia|done].
    + destruct (Z.eqb_spec i dest) as [->|]; [f_equal; lia|lia].
    + destruct (Z.eqb_spec i dest) as [->|]; [lia|done].
Qed.

Lemma copy_rows_bwd st h w dest src s pic :
  shows (ptr s) pic -> src <= dest < Z.of_nat (length (ptr s)) -> 0 < w <= st ->
  ((0 < h)%nat -> 0 <= src - (Z.of_nat h - 1) * st - w + 1) ->
  does (copy_rows (-1) (- (st - w)) h (Z.to_nat w) dest src) s tt
    (fun k => if inr (dest - (Z.of_nat h - 1) * st - w + 1) w st (Z.of_nat h) k then pic (k + (src - dest)) else pic k).
Proof.
  revert dest src s pic. induction h as [|h IH]; intros dest src s pic H Hd Hw Hn; cbn [copy_rows].
  - apply does_ret. eapply shows_ext; [done|]. intros i _. by rewrite inr_0 by lia.
  - eapply does_bind; [apply copy_row_bwd; [done|done|nia]|]. intros l Hl Hs. cbn beta iota in *. rewrite Z2Nat.id in * by lia.
    replace (dest - w + - (st - w)) with (dest - st) by lia. replace (src - w + - (st - w)) with (src - st) by lia.
    eapply does_ext; [apply (IH _ _ (set_ptr l s)); [done|cbn; lia|lia|nia]|].
    intros i _. cbn beta. rewrite Nat2Z.inj_succ, <- Z.add_1_r, inr_last by lia.
    replace (i + (src - st - (dest - st))) with (i + (src - dest)) by lia.
    replace (dest - st - (Z.of_nat h - 1) * st - w + 1) with (dest - (Z.of_nat h + 1 - 1) * st - w + 1) by lia.
    set (o := dest - (Z.of_nat h + 1 - 1) * st - w + 1). replace (o + Z.of_nat h * st) with (dest - w + 1) by (unfold o; lia).
    fold (seg (dest - w + 1) w i). destruct (inr o w st (Z.of_nat h) i) eqn:E; cbn [orb]; [|done].
    apply inr_lt in E; [|lia..]. destruct (seg_spec (dest - w + 1) w (i + (src - dest))); [|done]. unfold o in E. nia.
Qed.

(** ** Drawing on a well-formed surface *)

Record wf (s : gfx_surface) : Prop := {
  wf_width : 0 < width s;
  wf_height : 0 < height s;
  wf_stride : width s <= stride s;
  wf_size : height s * stride s * pixelsize s < 2 ^ 32;
  wf_pixel : pixelsize s = match ops s with ops16 => 2 | ops32 => 4 end;
  wf_ptr : Z.of_nat (length (ptr s)) = height s * stride s;
  wf_len : len s = height s * stride s * pixelsize s;
}.

(** Pixel [f i j] in column [i] of row [j]. *)
Definition grid (st : Z) (f : Z -> Z -> Z) (k : Z) : Z := f (k mod st) (k / st).
Definition looks (s : gfx_surface) (f : Z -> Z -> Z) : Prop := shows (ptr s) (grid (stride s) f).
Definition paints (m : M gfx_surface unit) (s : gfx_surface) (f : Z -> Z -> Z) : Prop := does m s tt (grid (stride s) f).

Definition rect (x y w h i j : Z) : bool := (x <=? i) && (i <? x + w) && (y <=? j) && (j <? y + h).
Definition shade (s : gfx_surface) (color : Z) : Z := match ops s with ops16 => ARGB8888_to_RGB565 color | ops32 => color end.

Lemma wf_set_ptr l s : wf s -> length l = length (ptr s) -> wf (set_ptr l s).
Proof. intros [] Hl. split; cbn; rewrite ?Hl; done. Qed.

Lemma wf_note e s : wf s -> wf (note e s).
Proof. by intros []. Qed.

Section surface.
Context {s : gfx_surface} (W : wf s).

Lemma wf_pixels : 0 < height s * stride s < 2 ^ 31.
Proof using W.
  destruct W as [? ? ? Hsz Hpx ? ?]. assert (2 <= pixelsize s) by (rewrite Hpx; destruct (ops s); lia). split; nia.
Qed.

Lemma index_run x y : 0 <= x < width s -> 0 <= y < height s ->
  pixel_index s x y = x + y * stride s /\ 0 <= x + y * stride s < height s * stride s.
Proof using W.
  intros Hx Hy. pose proof wf_pixels. destruct W. assert (x + y * stride s < height s * stride s) by nia.
  unfold pixel_index. rewrite !u32_small; [split; [done|nia]|nia|rewrite u32_small; nia].
Qed.

Lemma coord k : 0 <= k < height s * stride s -> 0 <= k mod stride s < stride s /\ 0 <= k / stride s < height s /\
  k = k mod stride s + k / stride s * stride s.
Proof using W.
  intros Hk. destruct W. pose proof (Z.mod_pos_bound k (stride s) ltac:(lia)). pose proof (Z.div_mod k (stride s) ltac:(lia)).
  split_and!; try lia; [apply Z.div_pos; lia|apply Z.div_lt_upper_bound; nia].
Qed.

Lemma inr_rect x y w h k : 0 <= k < height s * stride s -> 0 <= x -> 0 <= y -> 0 <= w -> x + w <= stride s ->
  inr (x + y * stride s) w (stride s) h k = rect x y w h (k mod stride s) (k / stride s).
Proof using W.
  intros Hk Hx Hy Hw Hxw. destruct (coord k Hk) as (Hi & Hj & E). rewrite E at 1. apply inr_coord; lia.
Qed.

Lemma rect_true x y w h i j : rect x y w h i j = true <-> x <= i < x + w /\ y <= j < y + h.
Proof using. unfold rect. rewrite !andb_true_iff, !Z.leb_le, !Z.ltb_lt. tauto. Qed.

Lemma paints_same f g : looks s f ->
  (forall i j, 0 <= i < stride s -> 0 <= j < height s -> f i j = g i j) -> paints (ret tt) s g.
Proof using W.
  intros H E. apply does_ret. eapply shows_ext; [exact H|]. intros k Hk. rewrite (wf_ptr s W) in Hk.
  destruct (coord k Hk) as (Hi & Hj & _). by apply E.
Qed.

Lemma gfx_putpixel_paints f x y color : looks s f -> 0 <= x -> 0 <= y ->
  paints (gfx_putpixel x y color) s (fun i j => if rect x y 1 1 i j && (i <? width s) then shade s color else f i j).
Proof using W.
  intros H Hx Hy. apply does_gets. unfold id.
  assert (Hout : width s <= x \/ height s <= y -> paints (ret tt) s (fun i j =>
    if rect x y 1 1 i j && (i <? width s) then shade s color else f i j)).
  { intros Ho. apply (paints_same f); [done|]. intros i j Hi Hj. destruct (rect x y 1 1 i j) eqn:E; [|done].
    apply rect_true in E. cbn [andb]. destruct (Z.ltb_spec i (width s)); done || lia. }
  destruct (Z.leb_spec (width s) x); [apply Hout; by left|]. destruct (Z.leb_spec (height s) y); [apply Hout; by right|].
  destruct (index_run x y) as [Ei Hi]; [done|done|].
  assert (Hp : paints (set_pixel (pixel_index s x y) (shade s color)) s (fun i j =>
    if rect x y 1 1 i j && (i <? width s) then shade s color else f i j)).
  { rewrite Ei. eapply does_ext; [apply (set_pixel_does _ _ _ _ H); rewrite (wf_ptr s W); lia|].
    intros k Hk. rewrite (wf_ptr s W) in Hk. destruct (coord k Hk) as (Hki & Hkj & E). unfold upd, grid.
    destruct (rect x y 1 1 _ _) eqn:Er; cbn [andb].
    - apply rect_true in Er. destruct (Z.ltb_spec (k mod stride s) (width s)); [|lia].
      destruct (Z.eqb_spec k (x + y * stride s)); [done|]. assert (k / stride s = y) by lia. nia.
    - destruct (Z.eqb_spec k (x + y * stride s)) as [->|]; [|done].
      rewrite Z.mod_add, Z.div_add, Z.mod_small, Z.div_small in Er by (destruct W; lia).
      assert (rect x y 1 1 x (0 + y) = true) by (apply rect_true; lia). congruence. }
  apply does_gets. unfold shade in *. by destruct (ops s); apply does_gets.
Qed.

(** The clipped rectangle of [gfx_fillrect]. *)
Lemma gfx_fillrect_paints f x y w h color : looks s f -> 0 <= x -> 0 <= y -> 0 <= w -> 0 <= h ->
  x + w < 2 ^ 32 -> y + h < 2 ^ 32 ->
  paints (gfx_fillrect x y w h color) s (fun i j => if rect x y w h i j && (i <? width s) then shade s color else f i j).
Proof using W.
  intros H Hx Hy Hw Hh Hxw Hyh. apply does_gets. unfold id. pose proof wf_pixels.
  assert (Hout : width s <= x \/ height s <= y \/ w = 0 \/ h = 0 -> paints (ret tt) s (fun i j =>
    if rect x y w h i j && (i <? width s) then shade s color else f i j)).
  { intros Ho. apply (paints_same f); [done|]. intros i j Hi Hj. destruct (rect x y w h i j) eqn:E; [|done].
    apply rect_true in E. cbn [andb]. destruct (Z.ltb_spec i (width s)); done || lia. }
  destruct (Z.leb_spec (width s) x); [apply Hout; by left|]. destruct (Z.leb_spec (height s) y); [apply Hout; by right; left|].
  destruct (Z.eqb_spec w 0); [apply Hout; tauto|]. destruct (Z.eqb_spec h 0); [apply Hout; tauto|]. cbn [orb].
  destruct W as [Ww Wh Ws _ _ Wp _]. assert (width s < 2 ^ 31 /\ height s < 2 ^ 31) as [Bw Bh] by (split; nia).
  rewrite !u32_small by lia. set (w' := if width s <? x + w then width s - x else w). set (h' := if height s <? y + h then height s - y else h).
  assert (Hw' : 0 < w' /\ x + w' <= width s /\ w' <= w /\ (x + w <= width s -> w' = w) /\ (width s < x + w -> x + w' = width s))
    by (unfold w'; destruct (Z.ltb_spec (width s) (x + w)); lia).
  assert (Hh' : 0 < h' /\ y + h' <= height s /\ h' <= h /\ (y + h <= height s -> h' = h) /\ (height s < y + h -> y + h' = height s))
    by (unfold h'; destruct (Z.ltb_spec (height s) (y + h)); lia).
  clearbody w' h'. destruct (index_run x y) as [Ei Hi]; [lia|lia|].
  assert (Hp : paints (fill_rows (shade s color) (u32 (stride s - w')) (Z.to_nat h') (Z.to_nat w') (pixel_index s x y)) s (fun i j =>
    if rect x y w h i j && (i <? width s) then shade s color else f i j)).
  { rewrite Ei, u32_small by nia. eapply does_ext; [apply (fill_rows_does _ _ _ _ _ _ _ H)|]; [lia|lia|rewrite Wp; nia|].
    intros k Hk. rewrite Wp in Hk. destruct (coord k Hk) as (Hki & Hkj & E). cbn beta. rewrite Z2Nat.id, inr_rect by lia. unfold grid.
    replace (rect x y w h _ _ && _) with (rect x y w' h' (k mod stride s) (k / stride s)); [done|].
    apply eq_true_iff_eq. rewrite andb_true_iff, !rect_true, Z.ltb_lt. lia. }
  apply does_gets. unfold shade in *. by destruct (ops s); apply does_gets.
Qed.

(** What is left of a side of [w] pixels that starts at [x] and at [x2]. *)
Definition fit (size x x2 w : Z) : Z := Z.min w (Z.min (size - x) (size - x2)).

Lemma clip size x x2 w : 0 <= x < size -> 0 <= x2 < size -> 0 < w -> x + w < 2 ^ 32 -> x2 + w < 2 ^ 32 -> size < 2 ^ 31 ->
  (let w := if size <? u32 (x + w) then u32 (size - x) else w in
   if size <? u32 (x2 + w) then u32 (size - x2) else w) = fit size x x2 w /\ 0 < fit size x x2 w.
Proof using.
  intros. unfold fit. cbn zeta. rewrite (u32_small (x + w)), (u32_small (size - x)) by lia.
  destruct (Z.ltb_spec size (x + w)); rewrite !u32_small by lia;
    match goal with |- context [?a <? ?b] => destruct (Z.ltb_spec a b) end; lia.
Qed.

Lemma copyrect_run x y w h x2 y2 : surface_copyrect x y w h x2 y2 s = copyrect32 x y w h x2 y2 s.
Proof using. unfold surface_copyrect, bind, gets. by destruct (ops s). Qed.

Section copy.
Context (x y w h x2 y2 : Z) (Hx : 0 <= x < width s) (Hx2 : 0 <= x2 < width s) (Hy : 0 <= y < height s) (Hy2 : 0 <= y2 < height s).
Context (Hw : 0 < w) (Hh : 0 < h) (Hxw : x + w < 2 ^ 32) (Hxw2 : x2 + w < 2 ^ 32) (Hyh : y + h < 2 ^ 32) (Hyh2 : y2 + h < 2 ^ 32).

#[local] Abbreviation w' := (fit (width s) x x2 w).
#[local] Abbreviation h' := (fit (height s) y y2 h).
#[local] Abbreviation dest := (x2 + y2 * stride s).
#[local] Abbreviation src := (x + y * stride s).

Lemma gfx_copyrect_run : gfx_copyrect x y w h x2 y2 s =
  (if dest <? src then copy_rows 1 (stride s - w') (Z.to_nat h') (Z.to_nat w') dest src
   else copy_rows (-1) (- (stride s - w')) (Z.to_nat h') (Z.to_nat w') (dest + (h' * stride s + w')) (src + (h' * stride s + w'))) s.
Proof using All.
  pose proof wf_pixels. destruct W as [Ww Wh Ws _ _ Wp _]. assert (width s < 2 ^ 31 /\ height s < 2 ^ 31) as [Bw Bh] by (split; nia).
  unfold gfx_copyrect. rewrite (bind_some (gets id) _ s s s eq_refl).
  destruct (Z.leb_spec (width s) x), (Z.leb_spec (width s) x2), (Z.leb_spec (height s) y), (Z.leb_spec (height s) y2); try lia.
  destruct (Z.eqb_spec w 0), (Z.eqb_spec h 0); try lia. cbn [orb].
  destruct (clip (width s) x x2 w) as [Ew Hw']; try lia. destruct (clip (height s) y y2 h) as [Eh Hh']; try lia.
  cbv zeta in *. rewrite Ew, Eh.
  rewrite copyrect_run. unfold copyrect32. rewrite (bind_some (gets id) _ s s s eq_refl).
  destruct (index_run x y) as [-> Hi]; [done|done|]. destruct (index_run x2 y2) as [-> Hi2]; [done|done|].
  assert (Hfw : w' <= width s) by (unfold fit; lia). assert (Hfh : h' <= height s) by (unfold fit; lia).
  assert (h' * stride s + w' < 2 ^ 32) by nia.
  rewrite (u32_small (stride s - w')), (u32_small (h' * stride s)), u32_small by nia. done.
Qed.

Lemma fit_bounds : 0 < w' /\ x + w' <= width s /\ x2 + w' <= width s /\ 0 < h' /\ y + h' <= height s /\ y2 + h' <= height s.
Proof using Hx Hx2 Hy Hy2 Hw Hh. unfold fit. lia. Qed.

(** Towards the top left: the rectangle is moved. *)
Lemma gfx_copyrect_forward f : looks s f -> dest < src ->
  paints (gfx_copyrect x y w h x2 y2) s (fun i j => if rect x2 y2 w' h' i j then f (i + (x - x2)) (j + (y - y2)) else f i j).
Proof using All.
  intros H Hlt. unfold paints, does. rewrite gfx_copyrect_run. destruct (Z.ltb_spec dest src); [|lia].
  destruct fit_bounds as (B1 & B2 & B3 & B4 & B5 & B6). destruct W as [Ww Wh Ws _ _ Wp _].
  eapply does_ext; [apply (copy_rows_fwd _ _ _ _ _ _ _ H)|]; [nia|lia|rewrite Wp; nia|].
  intros k Hk. rewrite Wp in Hk. destruct (coord k Hk) as (Hki & Hkj & E). cbn beta. rewrite Z2Nat.id, inr_rect by lia. unfold grid.
  destruct (rect x2 y2 w' h' _ _) eqn:Er; [|done]. apply rect_true in Er. rewrite E at 1 2.
  replace (k mod stride s + k / stride s * stride s + (src - dest)) with (k mod stride s + (x - x2) + (k / stride s + (y - y2)) * stride s) by lia.
  rewrite Z.mod_add, Z.div_add, Z.mod_small, Z.div_small by lia. done.
Qed.

(** Towards the bottom right: another rectangle is moved, one row below and one
    pixel to the right of the given one, if that is still in memory. *)
Lemma gfx_copyrect_backward pic : shows (ptr s) pic -> src <= dest ->
  if dest + h' * stride s + w' <? Z.of_nat (length (ptr s)) then
    does (gfx_copyrect x y w h x2 y2) s tt
      (fun k => if inr (dest + stride s + 1) w' (stride s) h' k then pic (k + (src - dest)) else pic k)
  else gfx_copyrect x y w h x2 y2 s = None.
Proof using All.
  intros H Hle. rewrite gfx_copyrect_run. unfold does. rewrite gfx_copyrect_run. destruct (Z.ltb_spec dest src); [lia|].
  destruct fit_bounds as (B1 & B2 & B3 & B4 & B5 & B6). destruct W as [Ww Wh Ws _ _ Wp _].
  destruct (Z.ltb_spec (dest + h' * stride s + w') (Z.of_nat (length (ptr s)))).
  - eapply does_ext; [apply (copy_rows_bwd _ _ _ _ _ _ _ H)|]; [lia|lia|rewrite Z2Nat.id by lia; nia|].
    intros k Hk. cbn beta. rewrite Z2Nat.id by lia.
    replace (dest + (h' * stride s + w') - (h' - 1) * stride s - w' + 1) with (dest + stride s + 1) by lia.
    replace (src + (h' * stride s + w') - (dest + (h' * stride s + w'))) with (src - dest) by lia. done.
  - destruct (Z.to_nat h') as [|nh] eqn:Eh; [lia|]. destruct (Z.to_nat w') as [|nw] eqn:Ew; [lia|].
    cbn [copy_rows copy_row]. set (sr := src + (h' * stride s + w')). set (de := dest + (h' * stride s + w')).
    unfold get_pixel, set_pixel, bind, getopt, pixel_at.
    destruct (Z.ltb_spec sr 0); [done|]. destruct (ptr s !! Z.to_nat sr) as [c|]; [|done].
    destruct (blit_at (ptr s) de [c]) as [l|] eqn:Eb; [|done]. apply blit_at_bound in Eb. cbn in Eb. unfold de in Eb. lia.
Qed.
End copy.
End surface.

(** ** Blending *)

Section blending.
Context (mix : Z -> Z -> Z) (store : Z -> Z -> M gfx_surface unit) (source : gfx_surface) (g : Z -> Z).
Context (Hstore : forall i c s pic, shows (ptr s) pic -> 0 <= i < Z.of_nat (length (ptr s)) -> does (store i c) s tt (upd pic i (mix (pic i) c))).
Context (Hsource : shows (ptr source) g).

Lemma blend_row_does n dest src s pic :
  shows (ptr s) pic -> 0 <= dest -> dest + Z.of_nat n <= Z.of_nat (length (ptr s)) ->
  0 <= src -> src + Z.of_nat n <= Z.of_nat (length (ptr source)) ->
  does (blend_row store source n dest src) s (dest + Z.of_nat n, src + Z.of_nat n)
    (fun k => if seg dest (Z.of_nat n) k then mix (pic k) (g (src + (k - dest))) else pic k).
Proof using Hstore Hsource.
  revert dest src s pic. induction n as [|n IH]; intros dest src s pic H Hd Hn Hs Hsn; cbn [blend_row].
  - rewrite !Z.add_0_r. apply does_ret. eapply shows_ext; [done|]. intros i _. by rewrite seg_0.
  - assert (Eg : (getopt (fun _ : gfx_surface => pixel_at (ptr source) src)) s = Some (g src, s)).
    { unfold getopt, pixel_at. destruct (Z.ltb_spec src 0); [lia|]. by rewrite Hsource by lia. }
    unfold does. rewrite (bind_some _ _ _ _ _ Eg).
    eapply does_bind; [apply Hstore; [done|lia]|]. intros l Hl Hsh. cbn beta in *.
    replace (dest + Z.of_nat (S n)) with (dest + 1 + Z.of_nat n) by lia.
    replace (src + Z.of_nat (S n)) with (src + 1 + Z.of_nat n) by lia.
    eapply does_ext; [apply (IH (dest + 1) (src + 1) (set_ptr l s)); [done|cbn; lia..]|].
    intros i _. cbn beta. rewrite Nat2Z.inj_succ, <- Z.add_1_r, seg_S by lia. unfold upd.
    destruct (seg_spec (dest + 1) (Z.of_nat n) i).
    + destruct (Z.eqb_spec i dest); [lia|]. cbn [orb]. do 2 f_equal. lia.
    + rewrite orb_false_r. destruct (Z.eqb_spec i dest) as [->|]; [do 2 f_equal; lia|done].
Qed.

Lemma blend_rows_does dst sst h w dest src s pic :
  shows (ptr s) pic -> 0 <= dest -> 0 <= src -> 0 < w <= dst -> w <= sst ->
  ((0 < h)%nat -> dest + (Z.of_nat h - 1) * dst + w <= Z.of_nat (length (ptr s))) ->
  ((0 < h)%nat -> src + (Z.of_nat h - 1) * sst + w <= Z.of_nat (length (ptr source))) ->
  does (blend_rows store source (dst - w) (sst - w) h (Z.to_nat w) dest src) s tt
    (fun k => if inr dest w dst (Z.of_nat h) k
              then mix (pic k) (g (src + (k - dest) mod dst + (k - dest) / dst * sst)) else pic k).
Proof using Hstore Hsource.
  revert dest src s pic. induction h as [|h IH]; intros dest src s pic H Hd Hs Hw Hws Hn Hsn; cbn [blend_rows].
  - apply does_ret. eapply shows_ext; [done|]. intros i _. by rewrite inr_0 by lia.
  - eapply does_bind; [apply blend_row_does; [done|done|nia|done|nia]|]. intros l Hl Hsh. cbn beta iota in *. rewrite Z2Nat.id in * by lia.
    replace (dest + w + (dst - w)) with (dest + dst) by lia. replace (src + w + (sst - w)) with (src + sst) by lia.
    eapply does_ext; [apply (IH _ _ (set_ptr l s)); [done|lia..|cbn; nia|nia]|].
    intros i _. cbn beta. rewrite Nat2Z.inj_succ, <- Z.add_1_r, inr_S by lia. fold (seg dest w i).
    destruct (inr (dest + dst) w dst (Z.of_nat h) i) eqn:E.
    + apply inr_lt in E; [|lia..]. rewrite orb_true_r. destruct (seg_spec dest w i); [lia|].
      replace (i - dest) with (i - (dest + dst) + 1 * dst) by lia. rewrite Z.mod_add, Z.div_add by lia. do 2 f_equal. lia.
    + rewrite orb_false_r. destruct (seg_spec dest w i); [|done]. rewrite Z.mod_small, Z.div_small by lia. do 2 f_equal. lia.
Qed.
End blending.

Definition mixed (fmt : gfx_format) (d c : Z) : Z :=
  match fmt with GFX_FORMAT_ARGB_8888 => alpha32_add_ignore_destalpha d c | _ => c end.

Lemma blend_pixel_does i c s pic : shows (ptr s) pic -> 0 <= i < Z.of_nat (length (ptr s)) ->
  does (blend_pixel i c) s tt (upd pic i (alpha32_add_ignore_destalpha (pic i) c)).
Proof.
  intros H Hi. unfold does, blend_pixel. rewrite (bind_some _ _ _ _ _ (get_pixel_run s pic i H Hi)). by apply set_pixel_does.
Qed.

Lemma gfx_surface_blend_paints s source f g x y :
  wf s -> wf source -> format s = format source -> looks s f -> looks source g -> 0 <= x -> 0 <= y ->
  paints (gfx_surface_blend source x y) s (fun i j =>
    if rect x y (width source) (height source) i j && (i <? width s) then mixed (format s) (f i j) (g (i - x) (j - y)) else f i j).
Proof.
  intros W V Hf H Hg Hx Hy. apply does_gets. unfold id. rewrite bool_decide_true by done.
  apply (does_bind _ _ _ tt _ (grid (stride s) f)); [by apply does_ret|]. intros l0 Hl0 Hs0.
  assert (l0 = ptr s) as -> by (by eapply shows_inj). rewrite set_ptr_self. pose proof (wf_pixels W). pose proof (wf_pixels V).
  assert (Hout : width s <= x \/ height s <= y -> paints (ret tt) s (fun i j =>
    if rect x y (width source) (height source) i j && (i <? width s) then mixed (format s) (f i j) (g (i - x) (j - y)) else f i j)).
  { intros Ho. apply (paints_same W f); [done|]. intros i j Hi Hj. destruct (rect _ _ _ _ i j) eqn:E; [|done].
    apply rect_true in E. cbn [andb]. destruct (Z.ltb_spec i (width s)); done || lia. }
  destruct (Z.leb_spec (width s) x); [apply Hout; by left|]. destruct (Z.leb_spec (height s) y); [apply Hout; by right|].
  pose proof W as [Ww Wh Ws _ _ Wp _]. pose proof V as [Vw Vh Vs _ _ Vp _].
  assert (width s < 2 ^ 31 /\ height s < 2 ^ 31 /\ width source < 2 ^ 31 /\ height source < 2 ^ 31) as (B1 & B2 & B3 & B4) by (split_and!; nia).
  set (w' := if width s <? u32 (x + width source) then u32 (width s - x) else width source).
  set (h' := if height s <? u32 (y + height source) then u32 (height s - y) else height source).
  assert (Hw' : w' = Z.min (width source) (width s - x)) by (unfold w'; rewrite !u32_small by lia; destruct (Z.ltb_spec (width s) (x + width source)); lia).
  assert (Hh' : h' = Z.min (height source) (height s - y)) by (unfold h'; rewrite !u32_small by lia; destruct (Z.ltb_spec (height s) (y + height source)); lia).
  clearbody w' h'. destruct (index_run W x y) as [-> Hi]; [lia|lia|].
  assert (Hp : forall store,
    (forall i c s pic, shows (ptr s) pic -> 0 <= i < Z.of_nat (length (ptr s)) -> does (store i c) s tt (upd pic i (mixed (format source) (pic i) c))) ->
    paints (blend_rows store source (u32 (stride s - w')) (u32 (stride source - w')) (Z.to_nat h') (Z.to_nat w') (x + y * stride s) 0) s (fun i j =>
    if rect x y (width source) (height source) i j && (i <? width s) then mixed (format s) (f i j) (g (i - x) (j - y)) else f i j)).
  { intros store Hst. rewrite (u32_small (stride s - w')), (u32_small (stride source - w')) by nia.
    eapply does_ext; [apply (blend_rows_does _ _ _ _ Hst Hg _ _ _ _ _ _ _ _ H)|]; [lia..|rewrite Wp; nia|rewrite Vp; nia|].
    intros k Hk. rewrite Wp in Hk. destruct (coord W k Hk) as (Hki & Hkj & E). cbn beta. rewrite Z2Nat.id, (inr_rect W) by lia. unfold grid.
    replace (rect x y (width source) (height source) (k mod stride s) (k / stride s) && (k mod stride s <? width s)) with (rect x y w' h' (k mod stride s) (k / stride s)).
    2: { apply eq_true_iff_eq. rewrite andb_true_iff, !rect_true, Z.ltb_lt. lia. }
    destruct (rect x y w' h' _ _) eqn:Er; [|done]. apply rect_true in Er. rewrite <- Hf.
    set (i := k mod stride s) in *. set (j := k / stride s) in *. clearbody i j. subst k.
    replace (i + j * stride s - (x + y * stride s)) with (i - x + (j - y) * stride s) by lia.
    rewrite (Z.mod_add (i - x)), (Z.div_add (i - x)), (Z.mod_small (i - x)), (Z.div_small (i - x)) by lia.
    rewrite !Z.add_0_l, Z.mod_add, Z.div_add, Z.mod_small, Z.div_small by lia. done. }
  rewrite Hf in *. destruct (format source); apply Hp; intros; (apply set_pixel_does || apply blend_pixel_does); done.
Qed.
