(* ===== verification/GfxConsole.v ===== *)
(** * Text on a surface: lib/gfxconsole/gfxconsole.c, lib/text/text.c and lib/tga/tga.c

    The console keeps a cursor in rows and columns of characters, draws with the
    font and scrolls the surface.  Its [surface] is [None] before
    [gfxconsole_start].  A TGA file is the list of its bytes; reading behind its
    end is a panic. *)

From S2P Require Import Prelude Arrays Gfx.
Local Open Scope lk_scope.

(** ** The console *)

Inductive putc_state : Type := NORMAL | ESCAPE.

Record gfxconsole : Type := {
  surface : option gfx_surface;
  rows : Z;
  columns : Z;
  extray : Z;
  cx : Z;
  cy : Z;
  front_color : Z;
  back_color : Z;
  state : putc_state;
  p_num : Z;
}.

Definition set_surface (s : gfx_surface) (g : gfxconsole) : gfxconsole :=
  {| surface := Some s; rows := rows g; columns := columns g; extray := extray g; cx := cx g; cy := cy g;
     front_color := front_color g; back_color := back_color g; state := state g; p_num := p_num g |}.
Definition set_cursor (x y : Z) (g : gfxconsole) : gfxconsole :=
  {| surface := surface g; rows := rows g; columns := columns g; extray := extray g; cx := u32 x; cy := u32 y;
     front_color := front_color g; back_color := back_color g; state := state g; p_num := p_num g |}.
Definition set_state (st : putc_state) (n : Z) (g : gfxconsole) : gfxconsole :=
  {| surface := surface g; rows := rows g; columns := columns g; extray := extray g; cx := cx g; cy := cy g;
     front_color := front_color g; back_color := back_color g; state := st; p_num := u32 n |}.

(** A call with [gfxconsole.surface]. *)
Definition on_surface {A} (m : M gfx_surface A) : M gfxconsole A := fun g =>
  match surface g with
  | None => None
  | Some s => match m s with None => None | Some (a, s') => Some (a, set_surface s' g) end
  end.

Definition put_char (c : Z) : M gfxconsole unit :=
  let* g := gets id in
  on_surface (font_draw_char c (u32 (cx g * FONT_X)) (u32 (cy g * FONT_Y)) (front_color g)) ;;;
  modify (set_cursor (cx g + 1) (cy g)).

Definition scroll : M gfxconsole unit :=
  let* g := gets id in
  on_surface (let* s := gets id in
    gfx_copyrect 0 FONT_Y (width s) (u32 (height s - FONT_Y - extray g)) 0 0) ;;;
  modify (fun g => set_cursor (cx g) (cy g - 1) g) ;;;
  on_surface (let* s := gets id in
    gfx_fillrect 0 (u32 (height s - FONT_Y - extray g)) (width s) FONT_Y (back_color g) ;;; gfx_flush).

Definition gfxconsole_putc (c : Z) : M gfxconsole unit :=
  let* g := gets id in
  match state g with
  | NORMAL =>
      if (c =? 10) || (c =? 13) then modify (set_cursor 0 (cy g + 1))
      else if c =? 27 then modify (set_state ESCAPE 0)
      else put_char c
  | ESCAPE =>
      if (48 <=? c) && (c <=? 57) then modify (set_state ESCAPE (u32 (p_num g * 10) + (c - 48)))
      else if c =? 68 then
        (when p_num g <=? cx g do modify (set_cursor (cx g - p_num g) (cy g))) ;;;
        modify (set_state NORMAL (p_num g))
      else if c =? 91 then ret tt
      else put_char c ;;; modify (set_state NORMAL (p_num g))
  end ;;;
  let* g := gets id in
  (when columns g <=? cx g do modify (set_cursor 0 (cy g + 1))) ;;;
  let* g := gets id in
  when rows g <=? cy g do scroll.

Definition gfxconsole_start (s : gfx_surface) : M gfxconsole unit :=
  let* g := gets id in
  assert_ (bool_decide (surface g = None)) ;;;
  modify (fun g =>
    {| surface := Some s; rows := height s / FONT_Y; columns := width s / FONT_X;
       extray := u32 (height s - u32 (height s / FONT_Y * FONT_Y)); cx := 0; cy := 0;
       front_color := 4294967295; back_color := 0; state := state g; p_num := p_num g |}).

(** The [static bool started] of [gfxconsole_start_on_display]. *)
Definition gfxconsole_start_on_display (fresh : nat -> list Z) (info : display_info) (started : bool) : M gfxconsole bool :=
  if started then ret true
  else
    let* s := getopt (fun _ => gfx_create_surface_from_display fresh info) in
    gfxconsole_start s ;;; ret true.

(** ** Lines of text: lib/text/text.c *)

Definition TEXT_COLOR : Z := 4294967295.

Record text_line : Type := { tl_str : list Z; tl_x : Z; tl_y : Z }.

Fixpoint draw_string (str : list Z) (x y : Z) : M gfx_surface unit :=
  match str with
  | [] => ret tt
  | c :: str' => font_draw_char c x y TEXT_COLOR ;;; draw_string str' (s32 (x + FONT_X)) y
  end.
Fixpoint draw_text (l : list text_line) : M gfx_surface unit :=
  match l with
  | [] => ret tt
  | t :: l' => draw_string (tl_str t) (tl_x t) (tl_y t) ;;; draw_text l'
  end.
Definition text_redraw (text_list : list text_line) : M gfx_surface unit := draw_text text_list ;;; gfx_flush.
Definition text_update (fresh : nat -> list Z) (info : display_info) (text_list : list text_line) : option (list Z * list gfx_event) :=
  with_display fresh info (text_redraw text_list).
(** The list and the display after a call. *)
Definition text_draw (fresh : nat -> list Z) (info : display_info) (x y : Z) (str : list Z) (text_list : list text_line)
    : option (list text_line * (list Z * list gfx_event)) :=
  let l := {| tl_str := str; tl_x := x; tl_y := y |} :: text_list in
  r ← text_update fresh info l; Some (l, r).

(** ** TGA images *)

Record tga_header : Type := {
  idlength : Z;
  colormaptype : Z;
  datatypecode : Z;
  tga_width : Z;
  tga_height : Z;
  bitsperpixel : Z;
  imagedescriptor : Z;
}.

Definition byte_at (file : list Z) (i : Z) : option Z := file !! Z.to_nat i.
Definition half_at (file : list Z) (i : Z) : option Z := lo ← byte_at file i; hi ← byte_at file (i + 1); Some (lo + 256 * hi).

(** The fields of the packed header that are used. *)
Definition read_header (file : list Z) : option tga_header :=
  a ← byte_at file 0; b ← byte_at file 1; c ← byte_at file 2; w ← half_at file 12; h ← half_at file 14;
  d ← byte_at file 16; e ← byte_at file 17;
  Some {| idlength := a; colormaptype := b; datatypecode := c; tga_width := w; tga_height := h; bitsperpixel := d;
          imagedescriptor := e |}.

Definition decode_2byte (file : list Z) (x y pos : Z) : M gfx_surface unit :=
  let* i0 := getopt (fun _ => byte_at file pos) in
  let* i1 := getopt (fun _ => byte_at file (pos + 1)) in
  let b := Z.shiftl (Z.land i0 31) 3 in
  let g := Z.shiftl (Z.lor (Z.land (Z.shiftr i0 5) 7) (Z.shiftl (Z.land i1 3) 3)) 3 in
  let r := Z.shiftl (Z.land (Z.shiftr i1 2) 31) 3 in
  gfx_putpixel x y (Z.lor (Z.lor (Z.lor 4278190080 (Z.shiftl r 16)) (Z.shiftl g 8)) b).
Definition decode_3byte (file : list Z) (x y pos : Z) : M gfx_surface unit :=
  let* i0 := getopt (fun _ => byte_at file pos) in
  let* i1 := getopt (fun _ => byte_at file (pos + 1)) in
  let* i2 := getopt (fun _ => byte_at file (pos + 2)) in
  gfx_putpixel x y (Z.lor (Z.lor (Z.lor 4278190080 (Z.shiftl i2 16)) (Z.shiftl i1 8)) i0).
Definition decode_4byte (file : list Z) (x y pos : Z) : M gfx_surface unit :=
  let* i3 := getopt (fun _ => byte_at file (pos + 3)) in
  if i3 =? 0 then gfx_putpixel x y 0
  else
    let* i0 := getopt (fun _ => byte_at file pos) in
    let* i1 := getopt (fun _ => byte_at file (pos + 1)) in
    let* i2 := getopt (fun _ => byte_at file (pos + 2)) in
    gfx_putpixel x y (Z.lor (Z.lor (Z.lor (Z.shiftl i3 24) (Z.shiftl i2 16)) (Z.shiftl i1 8)) i0).

Section decode.
Context (file : list Z) (start : Z) (hd : tga_header).
Context (decodefunc : Z -> Z -> Z -> M gfx_surface unit) (step : Z).

(** Bit 5 of the descriptor: the first row is the top one. *)
Definition top_down : bool := negb (Z.land (imagedescriptor hd) 32 =? 0).

Fixpoint raw_row (n : nat) (x surfacey pos : Z) : M gfx_surface Z :=
  match n with
  | O => ret pos
  | S n' => decodefunc x surfacey (start + pos) ;;; raw_row n' (x + 1) surfacey (u32 (pos + step))
  end.
Fixpoint raw_rows (n : nat) (y pos : Z) : M gfx_surface unit :=
  match n with
  | O => ret tt
  | S n' =>
      let* s := gets id in
      let surfacey := if top_down then y else u32 (height s - 1 - y) in
      let* pos := raw_row (Z.to_nat (tga_width hd)) 0 surfacey pos in
      raw_rows n' (y + 1) pos
  end.

(** The pixels of a run: the position in the file and in the picture. *)
Fixpoint run_loop (n : nat) (repeat_run : bool) (x y pos : Z) : M gfx_surface (Z * Z * Z) :=
  match n with
  | O => ret (x, y, pos)
  | S n' =>
      decodefunc x y (start + pos) ;;;
      let* s := gets id in
      let x := u32 (x + 1) in
      let '(x, y) := if x =? width s then (0, if top_down then u32 (y + 1) else u32 (y - 1)) else (x, y) in
      run_loop n' repeat_run x y (if repeat_run then pos else u32 (pos + step))
  end.
Fixpoint rle_loop (fuel : nat) (count x y pos : Z) : M gfx_surface unit :=
  match fuel with
  | O => panic
  | S fuel' =>
      if count <? u32 (tga_height hd * tga_width hd) then
        let* run := getopt (fun _ => byte_at file (start + pos)) in
        let repeat_run := negb (Z.land run 128 =? 0) in
        let runlen := Z.land run 127 + 1 in
        let* (x, y, pos) := run_loop (Z.to_nat runlen) repeat_run x y (u32 (pos + 1)) in
        rle_loop fuel' (u32 (count + runlen)) x y (if repeat_run then u32 (pos + step) else pos)
      else ret tt
  end.
End decode.

(** [None]: panic; [Some None]: the null pointer. *)
Definition tga_decode (fresh : nat -> list Z) (file : list Z) (fmt : gfx_format) : option (option gfx_surface) :=
  hd ← read_header file;
  if negb (datatypecode hd =? 2) && negb (datatypecode hd =? 10) then Some None
  else if negb (bitsperpixel hd =? 16) && negb (bitsperpixel hd =? 24) && negb (bitsperpixel hd =? 32) then Some None
  else if negb (colormaptype hd =? 0) then Some None
  else
    let start := 18 + idlength hd in
    s ← gfx_create_surface fresh None (tga_width hd) (tga_height hd) (tga_width hd) fmt;
    let '(step, decodefunc) :=
      if bitsperpixel hd =? 16 then (2, decode_2byte)
      else if bitsperpixel hd =? 24 then (3, decode_3byte)
      else (4, decode_4byte) in
    let decodefunc := decodefunc file in
    r ← (if datatypecode hd =? 2 then raw_rows start hd decodefunc step (Z.to_nat (tga_height hd)) 0 0 s
         else rle_loop file start hd decodefunc step (S (Z.to_nat (tga_height hd * tga_width hd))) 0 0
                (if top_down hd then 0 else tga_height hd - 1) 0 s);
    Some (Some (snd r)).
