(* ===== verification/GfxText.v ===== *)
(** * The graphics console as a terminal

    The font and the console of lib/gfxconsole against a terminal whose screen is
    a grid of cells.  A cell is the list of the characters drawn into it since it
    was last empty, since drawing a character sets pixels and clears none. *)

From S2P Require Import Prelude Arrays Gfx GfxSpec GfxConsole.
Local Open Scope lk_scope.

(** ** Flushing *)

(** The display and the cache are only told of rows and bytes of the surface. *)
Definition ev_ok (s : gfx_surface) (e : gfx_event) : Prop :=
  match e with
  | Clean o n => 0 <= o /\ 0 <= n /\ o + n <= len s
  | Flush a b => 0 <= a <= b /\ b < height s
  end.

(** [m] leaves picture [f] and tells of rows and bytes of the surface only. *)
Definition draws (m : M gfx_surface unit) (s : gfx_surface) (f : Z -> Z -> Z) : Prop :=
  exists l e, m s = Some (tt, note e (set_ptr l s)) /\ length l = length (ptr s) /\ looks (set_ptr l s) f /\ Forall (ev_ok s) e.

Lemma note_nil s : note [] s = s.
Proof. unfold note. rewrite app_nil_r. by destruct s. Qed.
Lemma note_note e e' s : note e' (note e s) = note (e ++ e') s.
Proof. unfold note. cbn. by rewrite app_assoc. Qed.

Lemma draws_paints m s f : paints m s f -> draws m s f.
Proof. intros (l & E & Hl & H). exists l, []. rewrite note_nil. split_and!; done || constructor. Qed.

Lemma draws_bind m m' s f f' : draws m s f ->
  (forall l e, length l = length (ptr s) -> looks (set_ptr l s) f -> draws m' (note e (set_ptr l s)) f') -> draws (m ;;; m') s f'.
Proof.
  intros (l & e & E & Hl & Hf & He) H. destruct (H l e Hl Hf) as (l' & e' & E' & Hl' & Hf' & He').
  exists l', (e ++ e'). rewrite (bind_some _ _ _ _ _ E), E'. split_and!.
  - unfold note, set_ptr. cbn. by rewrite app_assoc.
  - cbn in Hl'. congruence.
  - exact Hf'.
  - by apply Forall_app.
Qed.

(** What the display is told. *)
Definition told (s : gfx_surface) (a b : Z) : list gfx_event := match flush s with DisplayFlush => [Flush a b] | _ => [] end.

Section flush.
Context {s : gfx_surface} (W : wf s) (Hfl : flush s <> Unset).

Lemma told_run e a b : surface_flush a b (note e s) = Some (tt, note (e ++ told s a b) s).
Proof using Hfl.
  unfold surface_flush, told, bind, gets. cbn [flush note]. destruct (flush s); [done|by rewrite app_nil_r|].
  unfold modify. by rewrite note_note.
Qed.

Lemma flushed f e a b (m : M gfx_surface unit) : looks s f -> Forall (ev_ok s) e -> 0 <= a <= b -> b < height s ->
  m s = (modify (note e) ;;; surface_flush a b) s -> draws m s f.
Proof using Hfl.
  intros H He Ha Hb E. exists (ptr s), (e ++ told s a b). rewrite set_ptr_self. split_and!; [|done|done|].
  - by rewrite E, (bind_some (modify (note e)) _ s tt (note e s) eq_refl), told_run.
  - apply Forall_app. split; [done|]. unfold told. destruct (flush s); try constructor; [cbn; lia|constructor].
Qed.

Lemma gfx_flush_draws f : looks s f -> draws gfx_flush s f.
Proof using W Hfl.
  intros H. pose proof (wf_pixels W). destruct W. apply (flushed f [Clean 0 (len s)] 0 (height s - 1)); try done; try lia.
  - apply Forall_singleton. cbn. rewrite wf_len, wf_pixel. destruct (ops s); nia.
  - unfold gfx_flush. rewrite (bind_some (gets id) _ s s s eq_refl). unfold bind at 2. rewrite u32_small by nia. done.
Qed.

Lemma gfx_flush_rows_draws f a b : looks s f -> 0 <= a <= b -> b < 2 ^ 32 - 1 -> draws (gfx_flush_rows a b) s f.
Proof using W Hfl.
  intros H Ha Hb. pose proof (wf_pixels W). pose proof W as [Ww Wh Ws Wz Wx Wp Wl].
  assert (Hps : 2 <= pixelsize s <= 4) by (rewrite Wx; destruct (ops s); lia).
  unfold gfx_flush_rows. destruct (Z.leb_spec (height s) a).
  - apply draws_paints. apply does_gets. unfold id. destruct (Z.ltb_spec b a); [lia|].
    destruct (Z.leb_spec (height s) a); [|lia]. by apply (paints_same W f).
  - set (b' := if height s <=? b then u32 (height s - 1) else b).
    assert (Hb' : a <= b' < height s) by (unfold b'; destruct (Z.leb_spec (height s) b); rewrite ?u32_small by nia; lia).
    set (o := u32 (u32 (a * stride s) * pixelsize s)). set (n := u32 (u32 (u32 (b' - a + 1) * stride s) * pixelsize s)).
    assert (Ho : o = a * stride s * pixelsize s) by (unfold o; rewrite (u32_small (a * stride s)), u32_small by nia; done).
    assert (Hn : n = (b' - a + 1) * stride s * pixelsize s).
    { unfold n. rewrite (u32_small (b' - a + 1)), (u32_small ((b' - a + 1) * stride s)), u32_small by nia. done. }
    apply (flushed f [Clean o n] a b'); try done; try lia.
    + apply Forall_singleton. cbn. rewrite Ho, Hn, Wl. split_and!; [nia|nia|]. assert (a + (b' - a + 1) <= height s) by lia. nia.
    + rewrite (bind_some (gets id) _ s s s eq_refl). destruct (Z.ltb_spec b a); [lia|]. cbv iota beta zeta.
      destruct (Z.leb_spec (height s) a); [lia|]. done.
Qed.
End flush.

(** Telling the display of all rows behind a drawing. *)
Lemma flush_after m s f : wf s -> flush s <> Unset -> draws m s f -> draws (m ;;; surface_flush 0 (u32 (height s - 1))) s f.
Proof.
  intros W Hfl H. pose proof (wf_pixels W). pose proof W as [Ww Wh Ws _ _ _ _]. eapply draws_bind; [exact H|].
  intros l e Hl Hf. rewrite u32_small by nia.
  apply (flushed (s := note e (set_ptr l s)) Hfl _ [] 0 (height s - 1)); [exact Hf|constructor|lia|cbn; lia|].
  by rewrite (bind_some (modify (note [])) _ _ tt (note e (set_ptr l s))) by (unfold modify; by rewrite note_nil).
Qed.

Lemma rect_spec x y w h i j : BoolSpec (x <= i < x + w /\ y <= j < y + h) (~ (x <= i < x + w /\ y <= j < y + h)) (rect x y w h i j).
Proof. destruct (rect x y w h i j) eqn:E; constructor; [by apply rect_true|]. rewrite <- rect_true. by rewrite E. Qed.

(** ** Characters *)

Definition glyph (c i j : Z) : bool := Z.testbit (default 0 (FONT !! Z.to_nat (c * FONT_Y + j))) i.

Lemma low_bit l : negb (Z.land l 1 =? 0) = Z.testbit l 0.
Proof. change 1 with (Z.ones 1). rewrite Z.land_ones by lia. change (2 ^ 1) with 2. rewrite <- Z.bit0_mod. by destruct (Z.testbit l 0). Qed.

Lemma paints_bind m m' s f f' : wf s -> paints m s f ->
  (forall l, length l = length (ptr s) -> wf (set_ptr l s) -> looks (set_ptr l s) f -> paints m' (set_ptr l s) f') -> paints (m ;;; m') s f'.
Proof. intros W H H'. eapply does_bind; [exact H|]. intros l Hl Hs. apply H'; [done|by apply wf_set_ptr|done]. Qed.

Lemma paints_ext m s f g : wf s -> paints m s f -> (forall i j, 0 <= i < stride s -> 0 <= j < height s -> f i j = g i j) -> paints m s g.
Proof.
  intros W H E. eapply does_ext; [exact H|]. intros k Hk. rewrite (wf_ptr s W) in Hk. destruct (coord W k Hk) as (? & ? & _). by apply E.
Qed.

Lemma draw_bits_paints color n line x y s f : wf s -> looks s f -> 0 <= x -> x + Z.of_nat n < 2 ^ 32 -> 0 <= y < 2 ^ 32 ->
  paints (draw_bits color n line x y) s (fun i j =>
    if rect x y (Z.of_nat n) 1 i j && (i <? width s) && Z.testbit line (i - x) then shade s color else f i j).
Proof.
  revert line x s f. induction n as [|n IH]; intros line x s f W H Hx Hxn Hy; cbn [draw_bits].
  - apply (paints_same W f); [done|]. intros i j _ _. unfold rect. destruct (Z.leb_spec x i); [|done].
    destruct (Z.ltb_spec i (x + Z.of_nat 0)); [lia|done].
  - rewrite low_bit, (u32_small x), (u32_small y) by lia.
    eapply (paints_bind _ _ _ (fun i j => if Z.testbit line 0 && (rect x y 1 1 i j && (i <? width s)) then shade s color else f i j)); [done| |].
    { destruct (Z.testbit line 0); [by apply gfx_putpixel_paints; [| |lia..]|by apply (paints_same W f)]. }
    intros l Hl Wl Hf. eapply paints_ext; [done|apply (IH _ (x + 1) _ _ Wl Hf); lia|].
    intros i j Hi Hj. cbn [width set_ptr]. change (shade (set_ptr l s) color) with (shade s color).
    replace (x + 1 + Z.of_nat n) with (x + Z.of_nat (S n)) by lia.
    destruct (rect_spec (x + 1) y (Z.of_nat n) 1 i j), (rect_spec x y (Z.of_nat (S n)) 1 i j), (rect_spec x y 1 1 i j); try lia;
      cbn [andb]; rewrite ?andb_false_r; try done.
    + rewrite Z.shiftr_spec by lia. replace (i - (x + 1) + 1) with (i - x) by lia. done.
    + replace (i - x) with 0 by lia. by rewrite andb_comm.
Qed.

Lemma FONT_length : length FONT = 1536%nat.
Proof. reflexivity. Qed.

Lemma draw_lines_paints color c n o x y s f : wf s -> looks s f -> 0 <= c < 128 -> 0 <= o -> o + Z.of_nat n <= 12 ->
  0 <= x < 2 ^ 31 -> 0 <= y < 2 ^ 31 ->
  paints (draw_lines color c n o x y) s (fun i j =>
    if rect x (y + o) 6 (Z.of_nat n) i j && (i <? width s) && glyph c (i - x) (j - y) then shade s color else f i j).
Proof.
  revert o s f. induction n as [|n IH]; intros o s f W H Hc Ho Hn Hx Hy; cbn [draw_lines].
  - apply (paints_same W f); [done|]. intros i j _ _. unfold rect. destruct (Z.leb_spec (y + o) j), (Z.ltb_spec j (y + o + Z.of_nat 0));
      try lia; by rewrite !andb_false_r.
  - destruct (lookup_lt_is_Some_2 FONT (Z.to_nat (c * FONT_Y + o))) as [line El]; [rewrite FONT_length; unfold FONT_Y; lia|].
    unfold paints, does. rewrite (bind_some _ _ s line s) by (unfold getopt; by rewrite El). change (paints
      (draw_bits color (Z.to_nat FONT_X) line x (y + o) ;;; draw_lines color c n (o + 1) x y) s (fun i j =>
    if rect x (y + o) 6 (Z.of_nat (S n)) i j && (i <? width s) && glyph c (i - x) (j - y) then shade s color else f i j)).
    change (Z.to_nat FONT_X) with 6%nat. eapply paints_bind; [done|apply draw_bits_paints; [done|done|lia..]|]. intros l Hl Wl Hf.
    eapply paints_ext; [done|apply (IH (o + 1) _ _ Wl Hf); lia|]. intros i j Hi Hj. cbn [width set_ptr].
    change (shade (set_ptr l s) color) with (shade s color). change (Z.of_nat 6) with 6.
    destruct (rect_spec x (y + (o + 1)) 6 (Z.of_nat n) i j), (rect_spec x (y + o) 6 (Z.of_nat (S n)) i j), (rect_spec x (y + o) 6 1 i j);
      try lia; cbn [andb]; try done.
    unfold glyph. replace (j - y) with o by lia. by rewrite El.
Qed.

Lemma font_draw_char_draws c x y color s f : wf s -> flush s <> Unset -> looks s f -> 0 <= c < 128 -> 0 <= x < 2 ^ 31 -> 0 <= y < 2 ^ 31 ->
  draws (font_draw_char c x y color) s (fun i j =>
    if rect x y 6 12 i j && (i <? width s) && glyph c (i - x) (j - y) then shade s color else f i j).
Proof.
  intros W Hfl H Hc Hx Hy. pose proof (draw_lines_paints color c 12 0 x y s f W H Hc) as Hd. rewrite Z.add_0_r in Hd.
  eapply draws_bind; [apply draws_paints, Hd; lia|]. intros l e Hl Hf. rewrite !u32_small by (unfold FONT_Y; lia).
  apply gfx_flush_rows_draws; [by apply wf_note, wf_set_ptr|done|done|unfold FONT_Y; lia..].
Qed.

(** ** Lines of text *)

(** The pixels of a string at [(x, y)]. *)
Fixpoint inked (str : list Z) (x y i j : Z) : bool :=
  match str with
  | [] => false
  | c :: str' => rect x y 6 12 i j && glyph c (i - x) (j - y) || inked str' (x + 6) y i j
  end.
Definition line_ok (t : text_line) : Prop :=
  Forall (fun c => 0 <= c < 128) (tl_str t) /\ 0 <= tl_x t /\ tl_x t + 6 * Z.of_nat (length (tl_str t)) < 2 ^ 31 /\ 0 <= tl_y t < 2 ^ 31.

Lemma draws_ext m s f g : wf s -> draws m s f -> (forall i j, 0 <= i < stride s -> 0 <= j < height s -> f i j = g i j) -> draws m s g.
Proof.
  intros W (l & e & E & Hl & Hf & He) H. exists l, e. split_and!; try done. eapply shows_ext; [exact Hf|]. intros z Hz. cbn in Hz.
  rewrite Hl, (wf_ptr s W) in Hz. destruct (coord W z Hz) as (? & ? & _). by apply H.
Qed.

Lemma draw_string_draws str x y s f : wf s -> flush s <> Unset -> looks s f -> Forall (fun c => 0 <= c < 128) str ->
  0 <= x -> x + 6 * Z.of_nat (length str) < 2 ^ 31 -> 0 <= y < 2 ^ 31 ->
  draws (draw_string str x y) s (fun i j => if inked str x y i j && (i <? width s) then shade s TEXT_COLOR else f i j).
Proof.
  intros W Hfl H Hs. revert x s f W Hfl H. induction Hs as [|c str Hc _ IH]; intros x s f W Hfl H Hx Hxl Hy; cbn [draw_string inked].
  - apply draws_paints. by apply (paints_same W f).
  - cbn [length] in Hxl. rewrite s32_small by (unfold FONT_X; lia). eapply draws_bind; [apply font_draw_char_draws; [done|done|done|lia..]|].
    intros l e Hl Hf. assert (W' : wf (note e (set_ptr l s))) by (by apply wf_note, wf_set_ptr).
    eapply draws_ext; [done|apply (IH (x + 6) _ _ W' Hfl Hf); lia|]. intros i j Hi Hj. cbn [width note set_ptr].
    change (shade (note e (set_ptr l s)) TEXT_COLOR) with (shade s TEXT_COLOR).
    destruct (inked str (x + 6) y i j), (rect x y 6 12 i j), (i <? width s), (glyph c (i - x) (j - y)); done.
Qed.

Lemma text_redraw_draws text s f : wf s -> flush s <> Unset -> looks s f -> Forall line_ok text ->
  draws (text_redraw text) s (fun i j =>
    if existsb (fun t => inked (tl_str t) (tl_x t) (tl_y t) i j) text && (i <? width s) then shade s TEXT_COLOR else f i j).
Proof.
  intros W Hfl H Ht. eapply (draws_bind _ _ _ (fun i j =>
    if existsb (fun t => inked (tl_str t) (tl_x t) (tl_y t) i j) text && (i <? width s) then shade s TEXT_COLOR else f i j)).
  - revert s f W Hfl H. induction Ht as [|t text (H1 & H2 & H3 & H4) _ IH]; intros s f W Hfl H; cbn [draw_text existsb].
    + apply draws_paints. by apply (paints_same W f).
    + eapply draws_bind; [by apply draw_string_draws|]. intros l e Hl Hf.
      assert (W' : wf (note e (set_ptr l s))) by (by apply wf_note, wf_set_ptr).
      eapply draws_ext; [done|apply (IH _ _ W' Hfl Hf)|]. intros i j Hi Hj. cbn [width note set_ptr].
      change (shade (note e (set_ptr l s)) TEXT_COLOR) with (shade s TEXT_COLOR).
      destruct (existsb _ text), (inked _ _ _ i j), (i <? width s); done.
  - intros l e Hl Hf. apply gfx_flush_draws; [by apply wf_note, wf_set_ptr|done|done].
Qed.

(** ** Test patterns *)

Lemma draw_row_paints g n x y s f : wf s -> looks s f -> 0 <= x -> 0 <= y ->
  paints (draw_row g n x y) s (fun i j => if rect x y (Z.of_nat n) 1 i j && (i <? width s) then shade s (g i) else f i j).
Proof.
  revert x s f. induction n as [|n IH]; intros x s f W H Hx Hy; cbn [draw_row].
  - apply (paints_same W f); [done|]. intros i j _ _. destruct (rect_spec x y (Z.of_nat 0) 1 i j); [lia|done].
  - eapply paints_bind; [done|apply (gfx_putpixel_paints W); done|]. intros l Hl Wl Hf.
    eapply paints_ext; [done|apply (IH (x + 1) _ _ Wl Hf); lia|]. intros i j Hi Hj. cbn [width set_ptr].
    change (shade (set_ptr l s)) with (shade s).
    destruct (rect_spec (x + 1) y (Z.of_nat n) 1 i j), (rect_spec x y (Z.of_nat (S n)) 1 i j), (rect_spec x y 1 1 i j); try lia; cbn [andb]; try done.
    by replace i with x by lia.
Qed.

Lemma draw_rows_paints g h w y s f : wf s -> looks s f -> 0 <= y ->
  paints (draw_rows g h w y) s (fun i j => if rect 0 y (Z.of_nat w) (Z.of_nat h) i j && (i <? width s) then shade s (g i j) else f i j).
Proof.
  revert y s f. induction h as [|h IH]; intros y s f W H Hy; cbn [draw_rows].
  - apply (paints_same W f); [done|]. intros i j _ _. destruct (rect_spec 0 y (Z.of_nat w) (Z.of_nat 0) i j); [lia|done].
  - eapply paints_bind; [done|by apply draw_row_paints|]. intros l Hl Wl Hf.
    eapply paints_ext; [done|apply (IH (y + 1) _ _ Wl Hf); lia|]. intros i j Hi Hj. cbn [width set_ptr].
    change (shade (set_ptr l s)) with (shade s).
    destruct (rect_spec 0 (y + 1) (Z.of_nat w) (Z.of_nat h) i j), (rect_spec 0 y (Z.of_nat w) (Z.of_nat (S h)) i j), (rect_spec 0 y (Z.of_nat w) 1 i j);
      try lia; cbn [andb]; try done. by replace j with y by lia.
Qed.

(** The pattern is on all visible pixels, and the display is told. *)
Lemma draw_display_draws g s f : wf s -> flush s <> Unset -> looks s f ->
  draws (draw_display g) s (fun i j => if i <? width s then shade s (g s i j) else f i j).
Proof.
  intros W Hfl H. pose proof W as [Ww Wh Ws _ _ _ _]. apply (flush_after _ s _ W Hfl), draws_paints.
  eapply paints_ext; [done|apply (draw_rows_paints _ _ _ _ _ _ W H); lia|]. intros i j Hi Hj. cbn beta. unfold id.
  destruct (rect_spec 0 0 (Z.of_nat (Z.to_nat (width s))) (Z.of_nat (Z.to_nat (height s))) i j), (Z.ltb_spec i (width s)); cbn [andb]; done || lia.
Qed.

(** ** The terminal *)

Record term : Type := Term {
  t_cells : Z -> Z -> list Z;
  t_x : Z;
  t_y : Z;
  t_esc : option Z;
}.

Definition newline (t : term) : term := Term (t_cells t) 0 (t_y t + 1) (t_esc t).
Definition type_char (c : Z) (t : term) : term :=
  Term (fun x y => if (x =? t_x t) && (y =? t_y t) then c :: t_cells t x y else t_cells t x y) (t_x t + 1) (t_y t) None.
Definition scroll_up (rows : Z) (t : term) : term :=
  Term (fun x y => if y =? rows - 1 then [] else t_cells t x (y + 1)) (t_x t) (t_y t - 1) (t_esc t).

Definition term_key (c : Z) (t : term) : term :=
  match t_esc t with
  | None =>
      if (c =? 10) || (c =? 13) then newline t
      else if c =? 27 then Term (t_cells t) (t_x t) (t_y t) (Some 0)
      else type_char c t
  | Some n =>
      if (48 <=? c) && (c <=? 57) then Term (t_cells t) (t_x t) (t_y t) (Some (u32 (n * 10 + (c - 48))))
      else if c =? 68 then Term (t_cells t) (if n <=? t_x t then t_x t - n else t_x t) (t_y t) None
      else if c =? 91 then t
      else type_char c t
  end.
Definition term_put (cols rows c : Z) (t : term) : term :=
  let t := term_key c t in
  let t := if cols <=? t_x t then newline t else t in
  if rows <=? t_y t then scroll_up rows t else t.

(** The picture of a terminal in colours [front] and [back]; [tail] is the
    memory that shows no cell: the pixels below the last row and the padding of
    the rows. *)
Definition render (w rows front back : Z) (tail : Z -> Z -> Z) (cells : Z -> Z -> list Z) (i j : Z) : Z :=
  if (i <? w) && (j <? rows * 12) then
    if existsb (fun c => glyph c (i mod 6) (j mod 12)) (cells (i / 6) (j / 12)) then front else back
  else tail i j.

(** What stays the same. *)
Record look : Type := {
  lk_tail : Z -> Z -> Z;
  lk_width : Z;
  lk_height : Z;
  lk_ops : gfx_ops;
  lk_front : Z;
  lk_back : Z;
}.

Record displays (k : look) (t : term) (s : gfx_surface) (g : gfxconsole) : Prop := {
  di_surface : surface g = Some s;
  di_wf : wf s;
  di_flush_set : flush s <> Unset;
  di_events : Forall (ev_ok s) (events s);
  di_rows : rows g = height s / 12 /\ 0 < rows g;
  di_columns : columns g = width s / 6 /\ 0 < columns g;
  di_extray : extray g = height s - rows g * 12;
  di_cx : cx g = t_x t /\ 0 <= t_x t <= columns g;
  di_cy : cy g = t_y t /\ 0 <= t_y t <= rows g /\ (t_x t = columns g -> t_y t < rows g);
  di_esc : match t_esc t with None => state g = NORMAL | Some n => state g = ESCAPE /\ p_num g = n /\ 0 <= n < 2 ^ 32 end;
  di_picture : looks s (render (width s) (rows g) (shade s (front_color g)) (shade s (back_color g)) (lk_tail k) (t_cells t));
  di_same : width s = lk_width k /\ height s = lk_height k /\ ops s = lk_ops k /\ front_color g = lk_front k /\ back_color g = lk_back k;
}.

(** A call that draws on the surface. *)
Lemma on_surface_draws m s g f : surface g = Some s -> wf s -> flush s <> Unset -> Forall (ev_ok s) (events s) -> draws m s f ->
  exists s', on_surface m g = Some (tt, set_surface s' g) /\ wf s' /\ flush s' <> Unset /\ Forall (ev_ok s') (events s') /\
    width s' = width s /\ height s' = height s /\ ops s' = ops s /\ (forall c, shade s' c = shade s c) /\ looks s' f.
Proof.
  intros Hs W Hfl He (l & e & E & Hl & Hf & Hev). exists (note e (set_ptr l s)). unfold on_surface. rewrite Hs, E.
  split_and!; try done; [by apply wf_note, wf_set_ptr|]. by apply Forall_app.
Qed.

Lemma cell_div n a i : 0 < n -> a * n <= i < a * n + n -> i / n = a /\ i mod n = i - a * n.
Proof.
  intros Hn Hi. replace i with (i - a * n + a * n) at 1 2 by lia. rewrite Z.div_add, Z.mod_add, Z.div_small, Z.mod_small by lia. lia.
Qed.

Lemma put_char_run k t s g c : displays k t s g -> t_x t < columns g -> t_y t < rows g -> 0 <= c < 128 ->
  exists s', put_char c g = Some (tt, set_cursor (cx g + 1) (cy g) (set_surface s' g)) /\
    displays k (type_char c t) s' (set_state NORMAL (p_num g) (set_cursor (cx g + 1) (cy g) (set_surface s' g))).
Proof.
  intros [Hs W Hfl He Hr Hco Hx Hcx Hcy Hesc Hp Hk] Hxc Hyr Hc. pose proof (wf_pixels W). pose proof W as [Ww Wh Ws _ _ _ _].
  assert (Bx : t_x t * 6 + 6 <= width s) by (pose proof (Z.mul_div_le (width s) 6 eq_refl); lia).
  assert (By : t_y t * 12 + 12 <= height s) by (pose proof (Z.mul_div_le (height s) 12 eq_refl); lia).
  assert (width s < 2 ^ 31 /\ height s < 2 ^ 31) as [Bw Bh] by (split; nia).
  edestruct (on_surface_draws (font_draw_char c (t_x t * 6) (t_y t * 12) (front_color g)) s g) as (s' & E & W' & Hfl' & He' & Ew & Eh & Eo & Esh & Hp');
    [done|done|done|done|apply font_draw_char_draws; [done|done|exact Hp|lia..]|].
  exists s'. split.
  - unfold put_char. rewrite (bind_some (gets id) _ g g g eq_refl). rewrite (proj1 Hcx), (proj1 Hcy).
    unfold FONT_X, FONT_Y. rewrite (u32_small (t_x t * 6)), (u32_small (t_y t * 12)) by lia. by run E.
  - assert (Hu : u32 (t_x t + 1) = t_x t + 1 /\ u32 (t_y t) = t_y t) by (rewrite !u32_small by lia; done).
    split; cbn; rewrite ?Ew, ?Eh, ?Eo, ?Esh; try done; try lia.
    + rewrite (proj1 Hcx). lia.
    + rewrite (proj1 Hcy). lia.
    + unfold looks in *. eapply shows_ext; [exact Hp'|]. intros z Hz. rewrite (wf_ptr s' W') in Hz. destruct (coord W' z Hz) as (Hi & Hj & _).
      unfold grid. set (i := z mod stride s') in *. set (j := z / stride s') in *. unfold render.
      destruct (rect_spec (t_x t * 6) (t_y t * 12) 6 12 i j) as [[Hin1 Hin2]|Hout]; cbn [andb].
      * destruct (cell_div 6 (t_x t) i) as [-> ->]; [lia|lia|]. destruct (cell_div 12 (t_y t) j) as [-> ->]; [lia|lia|].
        rewrite !Z.eqb_refl. cbn [andb existsb]. destruct (Z.ltb_spec i (width s)); [|lia]. destruct (Z.ltb_spec j (rows g * 12)); [|lia].
        cbn [andb]. by destruct (glyph c (i - t_x t * 6) (j - t_y t * 12)).
      * destruct (Z.eqb_spec (i / 6) (t_x t)) as [Hi6|]; [|done]. destruct (Z.eqb_spec (j / 12) (t_y t)) as [Hj12|]; [|done].
        exfalso. apply Hout. pose proof (Z.div_mod i 6 ltac:(done)). pose proof (Z.div_mod j 12 ltac:(done)). pose proof (Z.mod_pos_bound i 6 eq_refl). pose proof (Z.mod_pos_bound j 12 eq_refl). lia.
Qed.

Lemma displays_cursor k t s g x y : displays k t s g -> 0 <= x <= columns g -> 0 <= y <= rows g -> (x = columns g -> y < rows g) ->
  displays k (Term (t_cells t) x y (t_esc t)) s (set_cursor x y g).
Proof.
  intros [Hs W Hfl He Hr Hco Hx Hcx Hcy Hesc Hp Hk] H1 H2 H3. pose proof (wf_pixels W). pose proof W as [Ww Wh Ws _ _ _ _].
  assert (width s < 2 ^ 31 /\ height s < 2 ^ 31) as [Bw Bh] by (split; nia).
  pose proof (Z.mul_div_le (width s) 6 eq_refl). pose proof (Z.mul_div_le (height s) 12 eq_refl).
  split; cbn; rewrite ?u32_small by lia; done.
Qed.

Lemma displays_state k t s g e : displays k t s g -> match e with None => True | Some n => 0 <= n < 2 ^ 32 end ->
  displays k (Term (t_cells t) (t_x t) (t_y t) e) s (set_state (match e with None => NORMAL | Some _ => ESCAPE end) (default (p_num g) e) g).
Proof.
  intros [Hs W Hfl He Hr Hco Hx Hcx Hcy Hesc Hp Hk] Hn. split; cbn; try done. destruct e as [n|]; [|done]. cbn. by rewrite u32_small by lia.
Qed.

(** Scrolling moves the rows of cells up by one and empties the last one. *)
Lemma scroll_run k t s g : displays k t s g -> t_y t = rows g ->
  exists s' g', scroll g = Some (tt, g') /\ displays k (scroll_up (rows g) t) s' g' /\ rows g' = rows g /\ columns g' = columns g.
Proof.
  intros D Hy. pose proof D as [Hs W Hfl He Hr Hco Hx Hcx Hcy Hesc Hp Hk]. pose proof (wf_pixels W). pose proof W as [Ww Wh Ws _ _ _ _].
  assert (width s < 2 ^ 31 /\ height s < 2 ^ 31) as [Bw Bh] by (split; nia).
  pose proof (Z.div_mod (height s) 12 ltac:(done)). pose proof (Z.mod_pos_bound (height s) 12 eq_refl).
  pose proof (Z.mul_div_le (width s) 6 eq_refl).
  assert (Hh : u32 (height s - FONT_Y - extray g) = (rows g - 1) * 12) by (unfold FONT_Y; rewrite u32_small; lia).
  set (f := render (width s) (rows g) (shade s (front_color g)) (shade s (back_color g)) (lk_tail k) (t_cells t)) in *.
  set (f1 := fun i j => if rect 0 0 (width s) ((rows g - 1) * 12) i j then f i (j + 12) else f i j).
  assert (D1 : draws (let* s := gets id in gfx_copyrect 0 FONT_Y (width s) (u32 (height s - FONT_Y - extray g)) 0 0) s f1).
  { apply draws_paints, does_gets. unfold id. rewrite Hh. destruct (Z.eq_dec (rows g) 1) as [E1|N1].
    - rewrite E1. apply does_gets. unfold id. change ((1 - 1) * 12) with 0. change (0 =? 0) with true. rewrite orb_true_r.
      assert (paints (ret tt) s f1).
      { apply (paints_same W f); [done|]. intros i j Hi Hj. unfold f1. destruct (rect_spec 0 0 (width s) ((rows g - 1) * 12) i j); [lia|done]. }
      destruct (width s <=? 0), (height s <=? FONT_Y), (height s <=? 0); done.
    - eapply paints_ext; [done|apply (gfx_copyrect_forward W); [unfold FONT_Y; lia..|exact Hp|unfold FONT_Y; nia]|].
      intros i j Hi Hj. unfold f1, fit, FONT_Y. replace (Z.min (width s) _) with (width s) by lia.
      replace (Z.min ((rows g - 1) * 12) _) with ((rows g - 1) * 12) by lia. by rewrite Z.add_0_r. }
  destruct (on_surface_draws _ s g f1 Hs W Hfl He D1) as (s1 & E1 & W1 & Hfl1 & He1 & Ew1 & Eh1 & Eo1 & Esh1 & Hp1).
  set (g2 := set_cursor (cx g) (cy g - 1) (set_surface s1 g)).
  edestruct (on_surface_draws (let* s := gets id in
    gfx_fillrect 0 (u32 (height s - FONT_Y - extray g)) (width s) FONT_Y (back_color g) ;;; gfx_flush) s1 g2) as
    (s2 & E2 & W2 & Hfl2 & He2 & Ew2 & Eh2 & Eo2 & Esh2 & Hp2); [done|done|done|done| |].
  { assert (Hdr : draws (gfx_fillrect 0 (u32 (height s1 - FONT_Y - extray g)) (width s1) FONT_Y (back_color g) ;;; gfx_flush) s1 (fun i j =>
      if rect 0 ((rows g - 1) * 12) (width s) 12 i j && (i <? width s) then shade s (back_color g) else f1 i j)); [|exact Hdr].
    rewrite Eh1, Ew1, Hh. unfold FONT_Y. eapply draws_bind.
    - apply draws_paints. eapply paints_ext; [done|apply (gfx_fillrect_paints W1); [exact Hp1|lia..]|].
      intros i j Hi Hj. rewrite Ew1, Esh1. reflexivity.
    - intros l e Hl Hf. apply gfx_flush_draws; [by apply wf_note, wf_set_ptr|done|done]. }
  exists s2, (set_surface s2 g2). split_and!; try done.
  - unfold scroll. rewrite (bind_some (gets id) _ g g g eq_refl). run E1.
    rewrite (bind_some (modify (fun g => set_cursor (cx g) (cy g - 1) g)) _ _ tt g2 eq_refl). exact E2.
  - assert (Hu : u32 (t_x t) = t_x t /\ u32 (t_y t - 1) = t_y t - 1) by (rewrite !u32_small by lia; done).
    split; cbn; rewrite ?Ew2, ?Eh2, ?Eo2, ?Esh2, ?Ew1, ?Eh1, ?Eo1, ?Esh1; try done; try lia.
    + rewrite (proj1 Hcx). lia.
    + rewrite (proj1 Hcy). lia.
    + unfold looks in *. eapply shows_ext; [exact Hp2|]. intros z Hz. rewrite (wf_ptr s2 W2) in Hz. destruct (coord W2 z Hz) as (Hi & Hj & _).
      unfold grid. set (i := z mod stride s2) in *. set (j := z / stride s2) in *. unfold f1, f, render.
      pose proof (Z.div_mod j 12 ltac:(done)). pose proof (Z.mod_pos_bound j 12 eq_refl).
      destruct (Z.ltb_spec i (width s)); cbn [andb]; rewrite ?andb_false_r, ?andb_true_r.
      2: { destruct (rect_spec 0 0 (width s) ((rows g - 1) * 12) i j); [lia|done]. }
      destruct (Z.ltb_spec j (rows g * 12)).
      * destruct (rect_spec 0 ((rows g - 1) * 12) (width s) 12 i j).
        -- replace (j / 12 =? rows g - 1) with true by lia. done.
        -- replace (j / 12 =? rows g - 1) with false by lia. destruct (rect_spec 0 0 (width s) ((rows g - 1) * 12) i j); [|lia].
           destruct (Z.ltb_spec (j + 12) (rows g * 12)); [|lia]. replace (j + 12) with (j + 1 * 12) by lia.
           rewrite Z.div_add, Z.mod_add by done. done.
      * destruct (rect_spec 0 ((rows g - 1) * 12) (width s) 12 i j); [lia|].
        destruct (rect_spec 0 0 (width s) ((rows g - 1) * 12) i j); [lia|done].
Qed.

(** One character. *)
Lemma key_run k t s g c : displays k t s g -> t_x t < columns g -> t_y t < rows g -> 0 <= c < 128 ->
  exists s' g', (match state g with
    | NORMAL =>
        if (c =? 10) || (c =? 13) then modify (set_cursor 0 (cy g + 1))
        else if c =? 27 then modify (set_state ESCAPE 0)
        else put_char c
    | ESCAPE =>
        if (48 <=? c) && (c <=? 57) then modify (set_state ESCAPE (u32 (p_num g * 10) + (c - 48)))
        else if c =? 68 then
          (when p_num g <=? cx g do modify (set_cursor (cx g - p_num g) (cy g))) ;;; modify (set_state NORMAL (p_num g))
        else if c =? 91 then ret tt
        else put_char c ;;; modify (set_state NORMAL (p_num g))
    end) g = Some (tt, g') /\ displays k (term_key c t) s' g' /\ rows g' = rows g /\ columns g' = columns g.
Proof.
  intros D Hx Hy Hc. pose proof (put_char_run k t s g c D Hx Hy Hc) as (s1 & E1 & D1). pose proof D as [_ _ _ _ Hr Hco _ Hcx Hcy Hesc _ _].
  unfold term_key. destruct t as [cells x y [n|]]; cbn [t_esc t_x t_y t_cells] in *.
  - destruct Hesc as (-> & <- & Hn). destruct ((48 <=? c) && (c <=? 57)) eqn:Ed.
    + exists s. eexists. split_and!; [reflexivity| |done|done].
      replace (u32 (p_num g * 10 + (c - 48))) with (u32 (u32 (p_num g * 10) + (c - 48))) by (unfold u32; by rewrite Z.add_mod_idemp_l).
      assert (Hu : forall z g, set_state ESCAPE z g = set_state ESCAPE (u32 z) g) by (intros; unfold set_state, u32; by rewrite Z.mod_mod).
      rewrite Hu. apply (displays_state k _ s g (Some (u32 (u32 (p_num g * 10) + (c - 48)))) D). apply u32_range.
    + destruct (c =? 68).
      * rewrite (proj1 Hcx), (proj1 Hcy). destruct (Z.leb_spec (p_num g) x).
        -- eexists s, _. split_and!; [reflexivity| |done|done].
           apply (displays_state k (Term cells (x - p_num g) y (Some (p_num g))) s (set_cursor (x - p_num g) y g) None); [|done].
           apply (displays_cursor k _ s g (x - p_num g) y D); lia.
        -- eexists s, _. split_and!; [reflexivity| |done|done]. apply (displays_state k _ s g None D). done.
      * destruct (c =? 91); [by exists s, g|]. eexists s1, _. run E1. split_and!; [reflexivity|exact D1|done|done].
  - rewrite Hesc. destruct ((c =? 10) || (c =? 13)).
    + rewrite (proj1 Hcy). eexists s, _. split_and!; [reflexivity| |done|done]. apply (displays_cursor k _ s g 0 (y + 1) D); lia.
    + destruct (c =? 27); [eexists s, _; split_and!; [reflexivity|by apply (displays_state k _ s g (Some 0) D)|done|done]|].
      eexists s1, _. split_and!; [exact E1| |done|done]. destruct D1 as [? ? ? ? ? ? ? ? ? ? ? ?]. by split.
Qed.

Definition ready (t : term) (g : gfxconsole) : Prop := t_x t < columns g /\ t_y t < rows g.

Lemma putc_run k t s g c : displays k t s g -> ready t g -> 0 <= c < 128 ->
  exists s' g', gfxconsole_putc c g = Some (tt, g') /\ displays k (term_put (columns g) (rows g) c t) s' g' /\
    ready (term_put (columns g) (rows g) c t) g' /\ rows g' = rows g /\ columns g' = columns g.
Proof.
  intros D [Hx Hy] Hc. destruct (key_run k t s g c D Hx Hy Hc) as (s1 & g1 & E1 & D1 & Er1 & Ec1).
  unfold gfxconsole_putc. rewrite (bind_some (gets id) _ g g g eq_refl). unfold id. run E1.
  rewrite (bind_some (gets id) _ g1 g1 g1 eq_refl). unfold term_put. set (t1 := term_key c t) in *. unfold id.
  pose proof D1 as [_ _ _ _ Hr1 Hco1 _ Hcx1 Hcy1 _ _ _]. rewrite (proj1 Hcx1), (proj1 Hcy1), <- Er1, <- Ec1.
  set (t2 := if columns g1 <=? t_x t1 then newline t1 else t1).
  assert (H2 : exists g2, (when columns g1 <=? t_x t1 do modify (set_cursor 0 (t_y t1 + 1))) g1 = Some (tt, g2) /\
    displays k t2 s1 g2 /\ t_x t2 < columns g2 /\ rows g2 = rows g1 /\ columns g2 = columns g1).
  { unfold t2. destruct (Z.leb_spec (columns g1) (t_x t1)); [|by exists g1].
    eexists. split_and!; [reflexivity|apply (displays_cursor k t1 s1 g1 0 (t_y t1 + 1) D1); lia|cbn; lia|done|done]. }
  destruct H2 as (g2 & E2 & D2 & Hx2 & Er2 & Ec2). run E2. rewrite (bind_some (gets id) _ g2 g2 g2 eq_refl). unfold id.
  pose proof D2 as [_ _ _ _ Hr2 Hco2 _ Hcx2 Hcy2 _ _ _]. rewrite (proj1 Hcy2), <- Er2.
  destruct (Z.leb_spec (rows g2) (t_y t2)).
  - destruct (scroll_run k t2 s1 g2 D2) as (s3 & g3 & E3 & D3 & Er3 & Ec3); [lia|]. exists s3, g3. unfold ready. cbn.
    split_and!; [exact E3|exact D3|rewrite Ec3; lia|rewrite Er3; lia|congruence|congruence].
  - exists s1, g2. unfold ready. split_and!; done || congruence.
Qed.

Fixpoint puts (l : list Z) : M gfxconsole unit :=
  match l with [] => ret tt | c :: l => gfxconsole_putc c ;;; puts l end.

Lemma puts_run k l t s g : displays k t s g -> ready t g -> Forall (fun c => 0 <= c < 128) l ->
  exists s' g', puts l g = Some (tt, g') /\ displays k (foldl (fun t c => term_put (columns g) (rows g) c t) t l) s' g'.
Proof.
  revert t s g. induction l as [|c l IH]; intros t s g D R Hl; cbn; [by exists s, g|].
  apply Forall_cons in Hl as [Hc Hl]. destruct (putc_run k t s g c D R Hc) as (s1 & g1 & E & D1 & R1 & Er & Ec).
  run E. destruct (IH _ _ _ D1 R1 Hl) as (s' & g' & E' & D'). exists s', g'. split; [done|]. by rewrite Er, Ec in D'.
Qed.
