(* ===== verification/TgaSpec.v ===== *)
(** * TGA images: the pixels of a file, raw or in runs

    The pixels of a file are numbered in the order of the file.  Pixel [n] of a
    picture of width [w] belongs in column [n mod w] of row [n / w], counted from
    the top or from the bottom.  The decoder is shown to draw the pixels in that
    order, whatever runs they come in. *)

From S2P Require Import Prelude Arrays Gfx GfxSpec GfxConsole GfxText.
Local Open Scope lk_scope.

(** The colour of a pixel of two, three or four bytes. *)
Definition tga_color (px : list Z) : Z :=
  match px with
  | [i0; i1] =>
      let b := Z.shiftl (Z.land i0 31) 3 in
      let g := Z.shiftl (Z.lor (Z.land (Z.shiftr i0 5) 7) (Z.shiftl (Z.land i1 3) 3)) 3 in
      let r := Z.shiftl (Z.land (Z.shiftr i1 2) 31) 3 in
      Z.lor (Z.lor (Z.lor 4278190080 (Z.shiftl r 16)) (Z.shiftl g 8)) b
  | [i0; i1; i2] => Z.lor (Z.lor (Z.lor 4278190080 (Z.shiftl i2 16)) (Z.shiftl i1 8)) i0
  | [i0; i1; i2; i3] =>
      if i3 =? 0 then 0 else Z.lor (Z.lor (Z.lor (Z.shiftl i3 24) (Z.shiftl i2 16)) (Z.shiftl i1 8)) i0
  | _ => 0
  end.

(** A run: one pixel repeated, or up to 128 pixels as they are. *)
Inductive tga_run : Type := Repeat (px : list Z) (n : nat) | Raw (pxs : list (list Z)).

Definition run_ok (step : nat) (r : tga_run) : Prop :=
  match r with
  | Repeat px n => length px = step /\ (1 <= n <= 128)%nat
  | Raw pxs => Forall (fun px => length px = step) pxs /\ (1 <= length pxs <= 128)%nat
  end.
Definition run_bytes (r : tga_run) : list Z :=
  match r with
  | Repeat px n => (128 + Z.of_nat n - 1) :: px
  | Raw pxs => (Z.of_nat (length pxs) - 1) :: concat pxs
  end.
Definition run_pixels (r : tga_run) : list (list Z) :=
  match r with Repeat px n => replicate n px | Raw pxs => pxs end.

(** [d] stands in the file at [o]. *)
Definition bytes_at (file : list Z) (o : Z) (d : list Z) : Prop := 0 <= o /\ exists a b, file = a ++ d ++ b /\ Z.of_nat (length a) = o.

Lemma bytes_at_app file o d d' : bytes_at file o (d ++ d') -> bytes_at file o d /\ bytes_at file (o + Z.of_nat (length d)) d'.
Proof.
  intros (Ho & a & b & -> & <-). split; split; try lia; rewrite <- ?app_assoc.
  - exists a, (d' ++ b). done.
  - exists (a ++ d), b. rewrite <- !app_assoc, length_app. split; [done|lia].
Qed.

Lemma bytes_at_byte file o c d : bytes_at file o (c :: d) -> byte_at file o = Some c /\ bytes_at file (o + 1) d.
Proof.
  intros H. change (c :: d) with ([c] ++ d) in H. split; [|by apply (bytes_at_app _ _ [c])].
  destruct H as (Ho & a & b & -> & <-). unfold byte_at. rewrite Nat2Z.id. by apply list_lookup_middle.
Qed.

Lemma run_byte b : 0 <= b < 256 -> negb (Z.land b 128 =? 0) = (128 <=? b) /\ Z.land b 127 = b mod 128.
Proof.
  intros Hb. split; [|by apply (Z.land_ones b 7)].
  assert (H : forallb (fun n => Bool.eqb (negb (Z.land (Z.of_nat n) 128 =? 0)) (128 <=? Z.of_nat n)) (seq 0 256) = true) by (vm_compute; done).
  rewrite forallb_forall in H. specialize (H (Z.to_nat b)). rewrite Z2Nat.id in H by lia. apply eqb_prop, H, in_seq. lia.
Qed.

Section decoding.
Context (file : list Z) (hd : tga_header) (step : nat).

Definition decoder : Z -> Z -> Z -> M gfx_surface unit :=
  match step with 2%nat => decode_2byte file | 3%nat => decode_3byte file | _ => decode_4byte file end.

Lemma decoder_run x y o px s : (step = 2 \/ step = 3 \/ step = 4)%nat -> length px = step -> bytes_at file o px ->
  decoder x y o s = gfx_putpixel x y (tga_color px) s.
Proof using.
  intros Hst Hl H. assert (G : forall i (c : Z) (t : gfx_surface), byte_at file i = Some c -> getopt (fun _ => byte_at file i) t = Some (c, t))
    by (intros i c t E; unfold getopt; by rewrite E).
  unfold decoder. destruct Hst as [-> |[-> | ->]].
  - destruct px as [|i0 [|i1 [|]]]; try done. apply bytes_at_byte in H as [E0 H]. apply bytes_at_byte in H as [E1 _].
    unfold decode_2byte. rewrite (bind_some _ _ _ _ _ (G _ _ s E0)). by rewrite (bind_some _ _ _ _ _ (G _ _ s E1)).
  - destruct px as [|i0 [|i1 [|i2 [|]]]]; try done. apply bytes_at_byte in H as [E0 H]. apply bytes_at_byte in H as [E1 H].
    apply bytes_at_byte in H as [E2 _]. replace (o + 1 + 1) with (o + 2) in E2 by lia. unfold decode_3byte. rewrite (bind_some _ _ _ _ _ (G _ _ s E0)).
    rewrite (bind_some _ _ _ _ _ (G _ _ s E1)). by rewrite (bind_some _ _ _ _ _ (G _ _ s E2)).
  - destruct px as [|i0 [|i1 [|i2 [|i3 [|]]]]]; try done. apply bytes_at_byte in H as [E0 H]. apply bytes_at_byte in H as [E1 H].
    apply bytes_at_byte in H as [E2 H]. apply bytes_at_byte in H as [E3 _]. replace (o + 1 + 1 + 1) with (o + 3) in E3 by lia. replace (o + 1 + 1) with (o + 2) in E2 by lia. unfold decode_4byte.
    rewrite (bind_some _ _ _ _ _ (G _ _ s E3)). cbn [tga_color]. destruct (i3 =? 0); [done|].
    rewrite (bind_some _ _ _ _ _ (G _ _ s E0)). rewrite (bind_some _ _ _ _ _ (G _ _ s E1)). by rewrite (bind_some _ _ _ _ _ (G _ _ s E2)).
Qed.

(** ** The order of the pixels *)

Context (w h : Z) (Hw : 0 < w < 2 ^ 16) (Hh : 0 < h < 2 ^ 16) (Ehw : tga_width hd = w) (Ehh : tga_height hd = h).

Definition row (j : Z) : Z := if top_down hd then j else h - 1 - j.
Definition number (i j : Z) : Z := i + row j * w.

(** The first [n] pixels are drawn. *)
Definition drawn (col : Z -> Z) (junk : Z -> Z -> Z) (n : Z) (s : gfx_surface) (i j : Z) : Z :=
  if number i j <? n then shade s (col (number i j)) else junk i j.

Record canvas (s : gfx_surface) : Prop := {
  cv_wf : wf s;
  cv_width : width s = w;
  cv_stride : stride s = w;
  cv_height : height s = h;
}.

Lemma canvas_set_ptr l s : canvas s -> length l = length (ptr s) -> canvas (set_ptr l s).
Proof using. intros [] Hl. split; [by apply wf_set_ptr|done..]. Qed.

Lemma number_inj i j i' j' : 0 <= i < w -> 0 <= i' < w -> number i j = number i' j' -> i = i' /\ j = j'.
Proof using Hw.
  unfold number, row. intros Hi Hi' E. assert (i = i').
  { apply (f_equal (fun z => z mod w)) in E. by rewrite !Z.mod_add, !Z.mod_small in E by lia. }
  subst i'. split; [done|]. assert (row j = row j') as E2 by (unfold row; nia). unfold row in E2. destruct (top_down hd); lia.
Qed.

(** Pixel [n] is drawn at its place, or nowhere if it is one too many. *)
Lemma draw_nth col junk n s x y : canvas s -> looks s (drawn col junk n s) -> 0 <= n < 2 ^ 32 - 1 ->
  x = n mod w -> y = u32 (row (n / w)) ->
  paints (gfx_putpixel x y (col n)) s (drawn col junk (n + 1) s).
Proof using Hw Hh.
  intros C H Hn -> ->. pose proof C as [W Cw Cs Ch]. pose proof (Z.mod_pos_bound n w ltac:(lia)). pose proof (Z.div_mod n w ltac:(lia)).
  assert (Hq : 0 <= n / w < 2 ^ 32 - 1) by (split; [apply Z.div_pos; lia|apply Z.div_lt_upper_bound; nia]).
  eapply paints_ext; [done|apply (gfx_putpixel_paints W _ _ _ _ H); [lia|apply u32_range]|]. intros i j Hi Hj. rewrite Cw, Cs, Ch in *.
  unfold drawn. destruct (rect_spec (n mod w) (u32 (row (n / w))) 1 1 i j) as [[Hx Hy]|Hout].
  - assert (i = n mod w) as -> by lia. assert (Ey : j = u32 (row (n / w))) by lia.
    assert (number (n mod w) j = n) as E.
    { unfold number, row in *. destruct (top_down hd).
      - rewrite u32_small in Ey by lia. subst j. lia.
      - destruct (Z.lt_ge_cases (n / w) h).
        + rewrite u32_small in Ey by lia. subst j. replace (h - 1 - (h - 1 - n / w)) with (n / w) by lia. lia.
        + unfold u32 in Ey. replace (h - 1 - n / w) with (h - 1 - n / w + 2 ^ 32 + (-1) * 2 ^ 32) in Ey by lia.
          rewrite Z.mod_add, Z.mod_small in Ey by lia. lia. }
    rewrite E. replace (n mod w <? w) with true by lia. replace (n <? n + 1) with true by lia. done.
  - cbn [andb]. destruct (Z.ltb_spec (number i j) n), (Z.ltb_spec (number i j) (n + 1)); try lia.
    exfalso. apply Hout. assert (number i j = n) as E by lia.
    assert (i = n mod w /\ row j = n / w) as [-> Ej].
    { unfold number in E. rewrite <- E. by rewrite Z.mod_add, Z.div_add, Z.mod_small, Z.div_small by lia. }
    assert (row (n / w) = j) as -> by (rewrite <- Ej; unfold row; destruct (top_down hd); lia). rewrite u32_small by lia. lia.
Qed.

(** The place of the next pixel. *)
Lemma next_place n s : canvas s -> 0 <= n < 2 ^ 32 - 1 ->
  (let x := u32 (n mod w + 1) in
   if x =? width s then (0, if top_down hd then u32 (u32 (row (n / w)) + 1) else u32 (u32 (row (n / w)) - 1)) else (x, u32 (row (n / w)))) =
  ((n + 1) mod w, u32 (row ((n + 1) / w))).
Proof using Hw Hh.
  intros [W -> _ _] Hn. pose proof (Z.mod_pos_bound n w ltac:(lia)). pose proof (Z.div_mod n w ltac:(lia)). cbv zeta.
  rewrite (u32_small (n mod w + 1)) by lia. destruct (Z.eqb_spec (n mod w + 1) w) as [E|E].
  - assert (n + 1 = 0 + (n / w + 1) * w) as -> by nia. rewrite Z.mod_add, Z.div_add, Z.mod_0_l, Z.div_0_l by lia. f_equal.
    unfold row, u32. destruct (top_down hd); [rewrite Zplus_mod_idemp_l|rewrite Zminus_mod_idemp_l]; apply (f_equal (fun z => z mod 2 ^ 32)); lia.
  - replace (n + 1) with (n mod w + 1 + (n / w) * w) by lia.
    rewrite (Z.mod_add (n mod w + 1)), (Z.div_add (n mod w + 1)), (Z.mod_small (n mod w + 1)), (Z.div_small (n mod w + 1)) by lia. done.
Qed.

Context (Hstep : (step = 2 \/ step = 3 \/ step = 4)%nat) (start : Z) (col : Z -> Z) (junk : Z -> Z -> Z).

(** The [m] pixels from number [n] on stand in the file from [pos] on, [gap]
    bytes apart. *)
Definition supplied (n m pos gap : Z) : Prop := forall k, 0 <= k < m ->
  exists px, length px = step /\ bytes_at file (start + (pos + k * gap)) px /\ col (n + k) = tga_color px.

Lemma supplied_next n m pos gap : supplied n (m + 1) pos gap -> supplied (n + 1) m (pos + gap) gap.
Proof using Hstep.
  intros H k Hk. destruct (H (k + 1)) as (px & Hl & Hb & Hc); [lia|]. exists px. split_and!; [done| |].
  - by replace (pos + gap + k * gap) with (pos + (k + 1) * gap) by lia.
  - by replace (n + 1 + k) with (n + (k + 1)) by lia.
Qed.

Lemma decode_one n m pos gap s : canvas s -> looks s (drawn col junk n s) -> 0 <= n < 2 ^ 32 - 1 -> 0 <= m -> supplied n (m + 1) pos gap ->
  paints (decoder (n mod w) (u32 (row (n / w))) (start + pos)) s (drawn col junk (n + 1) s).
Proof using Hw Hh Hstep.
  intros C H Hn Hm Hp. destruct (Hp 0) as (px & Hl & Hb & Hc); [lia|]. rewrite Z.mul_0_l, !Z.add_0_r in *.
  unfold paints, does. rewrite (decoder_run _ _ _ px) by done. rewrite <- Hc. by apply draw_nth.
Qed.

Lemma run_loop_does m (rep : bool) n pos s : canvas s -> looks s (drawn col junk n s) -> 0 <= n -> n + Z.of_nat m < 2 ^ 32 ->
  0 <= pos -> pos + Z.of_nat m * Z.of_nat step < 2 ^ 32 ->
  supplied n (Z.of_nat m) pos (if rep then 0 else Z.of_nat step) ->
  does (run_loop start hd decoder (Z.of_nat step) m rep (n mod w) (u32 (row (n / w))) pos) s
    ((n + Z.of_nat m) mod w, u32 (row ((n + Z.of_nat m) / w)), pos + Z.of_nat m * if rep then 0 else Z.of_nat step)
    (grid (stride s) (drawn col junk (n + Z.of_nat m) s)).
Proof using Hw Hh Hstep.
  revert n pos s. induction m as [|m IH]; intros n pos s C H Hn Hnm Hpos Hpm Hs; cbn [run_loop].
  - rewrite Z.mul_0_l, !Z.add_0_r. by apply does_ret.
  - rewrite Nat2Z.inj_succ, <- Z.add_1_r in *. eapply does_bind; [eapply (decode_one n (Z.of_nat m) _ _ s C H); [lia|lia|exact Hs]|].
    intros l Hl Hd. apply does_gets. unfold id. pose proof (next_place n (set_ptr l s) (canvas_set_ptr l s C Hl) ltac:(lia)) as Ep.
    cbv zeta in Ep. rewrite Ep. clear Ep. apply supplied_next in Hs.
    assert (Epos : (if rep then pos else u32 (pos + Z.of_nat step)) = pos + if rep then 0 else Z.of_nat step)
      by (destruct rep; rewrite ?u32_small by nia; lia).
    rewrite Epos. replace (n + (Z.of_nat m + 1)) with (n + 1 + Z.of_nat m) by lia.
    replace (pos + (Z.of_nat m + 1) * if rep then 0 else Z.of_nat step) with
      ((pos + if rep then 0 else Z.of_nat step) + Z.of_nat m * if rep then 0 else Z.of_nat step) by lia.
    apply (IH (n + 1) _ (set_ptr l s)); [by apply canvas_set_ptr|exact Hd|lia|lia|destruct rep; lia|destruct rep; lia|done].
Qed.

(** ** Runs *)

Lemma bytes_pixels o pxs k px : Forall (fun px => length px = step) pxs -> bytes_at file o (concat pxs) -> pxs !! k = Some px ->
  bytes_at file (o + Z.of_nat k * Z.of_nat step) px.
Proof using Hstep.
  revert o k. induction pxs as [|p pxs IH]; intros o k Hf Hb Hk; [done|]. apply Forall_cons in Hf as [Hp Hf]. cbn in Hb.
  apply bytes_at_app in Hb as [Hb1 Hb2]. destruct k as [|k]; cbn in Hk.
  - injection Hk as ->. by rewrite Z.mul_0_l, Z.add_0_r.
  - rewrite Hp in Hb2. replace (o + Z.of_nat (S k) * Z.of_nat step) with (o + Z.of_nat step + Z.of_nat k * Z.of_nat step) by lia. by apply IH.
Qed.

Lemma concat_length (pxs : list (list Z)) : Forall (fun px => length px = step) pxs -> length (concat pxs) = (length pxs * step)%nat.
Proof using. induction 1 as [|p pxs Hp _ IH]; [done|]. cbn. rewrite length_app, IH, Hp. done. Qed.

Definition colors (n : Z) (pxs : list (list Z)) : Prop := forall k px, pxs !! k = Some px -> col (n + Z.of_nat k) = tga_color px.

Lemma colors_app n p q : colors n (p ++ q) -> colors n p /\ colors (n + Z.of_nat (length p)) q.
Proof using Hstep.
  intros H. split; intros k px Hk.
  - apply H. by apply lookup_app_l_Some.
  - rewrite <- Z.add_assoc, <- Nat2Z.inj_add. apply H. rewrite lookup_app_r by lia. by replace (length p + k - length p)%nat with k by lia.
Qed.

Lemma supplied_pixels n pos pxs : Forall (fun px => length px = step) pxs -> colors n pxs -> bytes_at file (start + pos) (concat pxs) ->
  supplied n (Z.of_nat (length pxs)) pos (Z.of_nat step).
Proof using Hstep.
  intros Hf Hc Hb k Hk. destruct (lookup_lt_is_Some_2 pxs (Z.to_nat k)) as [px E]; [lia|].
  exists px. split_and!; [by apply (Forall_lookup_1 _ _ _ _ Hf E)|rewrite Z.add_assoc; rewrite <- (Z2Nat.id k) by lia; by eapply bytes_pixels|].
  rewrite <- (Hc _ _ E), Z2Nat.id by lia. done.
Qed.

Lemma run_header r : run_ok step r -> exists b rest, run_bytes r = b :: rest /\
  negb (Z.land b 128 =? 0) = (match r with Repeat _ _ => true | Raw _ => false end) /\
  Z.land b 127 + 1 = Z.of_nat (length (run_pixels r)) /\ (1 <= length (run_pixels r) <= 128)%nat.
Proof using Hstep.
  destruct r as [px n|pxs]; cbn [run_ok run_bytes run_pixels]; intros [Hl Hn]; eexists _, _; (split; [reflexivity|]).
  - rewrite length_replicate. destruct (run_byte (128 + Z.of_nat n - 1)) as [-> ->]; [lia|]. split; [lia|]. split; [|done].
    replace (128 + Z.of_nat n - 1) with (Z.of_nat n - 1 + 1 * 128) by lia. rewrite Z.mod_add, Z.mod_small by lia. lia.
  - destruct (run_byte (Z.of_nat (length pxs) - 1)) as [-> ->]; [lia|]. rewrite Z.mod_small by lia. split; [lia|]. split; [lia|done].
Qed.

(** One run. *)
Lemma run_does r n pos b rest s : run_ok step r -> run_bytes r = b :: rest -> canvas s -> looks s (drawn col junk n s) ->
  0 <= n -> n + 128 < 2 ^ 32 -> 0 <= pos -> pos + 128 * 4 < 2 ^ 32 -> bytes_at file (start + pos) rest -> colors n (run_pixels r) ->
  let m := length (run_pixels r) in
  let rep := match r with Repeat _ _ => true | Raw _ => false end in
  does (run_loop start hd decoder (Z.of_nat step) m rep (n mod w) (u32 (row (n / w))) pos) s
    ((n + Z.of_nat m) mod w, u32 (row ((n + Z.of_nat m) / w)), pos + Z.of_nat m * if rep then 0 else Z.of_nat step)
    (grid (stride s) (drawn col junk (n + Z.of_nat m) s)).
Proof using Hw Hh Hstep.
  intros Hr Eb C H Hn Hn2 Hp Hp2 Hb Hc m rep. assert (Hm : (1 <= m <= 128)%nat).
  { unfold m. destruct (run_header r Hr) as (? & ? & _ & _ & _ & ?). done. }
  apply run_loop_does; [done|done|lia|lia|lia|nia|]. unfold m, rep. destruct r as [px k|pxs]; cbn in Eb, Hc, Hr |- *; injection Eb as <- <-.
  - intros i Hi. exists px. rewrite length_replicate in Hi. split_and!; [apply Hr|by rewrite Z.mul_0_r, Z.add_0_r|].
    rewrite <- (Hc (Z.to_nat i) px) by (apply lookup_replicate_2; lia). by rewrite Z2Nat.id by lia.
  - apply supplied_pixels; [apply Hr|done|done].
Qed.

Lemma rle_loop_does fuel rs n pos s : canvas s -> looks s (drawn col junk n s) -> Forall (run_ok step) rs ->
  0 <= n <= h * w + 127 -> Z.max 0 (h * w - n) < Z.of_nat fuel -> h * w <= n + Z.of_nat (length (concat (run_pixels <$> rs))) ->
  0 <= pos -> pos + Z.of_nat (length (concat (run_bytes <$> rs))) + 128 * 4 < 2 ^ 32 ->
  bytes_at file (start + pos) (concat (run_bytes <$> rs)) -> colors n (concat (run_pixels <$> rs)) ->
  does (rle_loop file start hd decoder (Z.of_nat step) fuel n (n mod w) (u32 (row (n / w))) pos) s tt
    (grid w (fun i j => shade s (col (number i j)))).
Proof using Hw Hh Hstep Ehw Ehh.
  revert rs n pos s. induction fuel as [|fuel IH]; intros rs n pos s C H Hrs Hn Hf Hlen Hpos Hpl Hb Hc; cbn [rle_loop].
  { lia. }
  assert (Hhw : h * w < 2 ^ 32 - 2 ^ 16) by nia. rewrite Ehh, Ehw, u32_small by nia. pose proof C as [W Cw Cs Ch].
  destruct (Z.ltb_spec n (h * w)).
  - destruct rs as [|r rs]; [cbn in Hlen; lia|]. apply Forall_cons in Hrs as [Hr Hrs]. cbn in Hlen, Hpl, Hb, Hc. rewrite !length_app in *.
    destruct (run_header r Hr) as (b & rest & Er & E1 & E2 & Hm). set (m := length (run_pixels r)) in *.
    rewrite Er in Hb, Hpl. cbn [app length] in Hb, Hpl. apply bytes_at_byte in Hb as [Eb Hb]. rewrite <- Z.add_assoc in Hb.
    apply bytes_at_app in Hb as [Hb Hb']. apply colors_app in Hc as [Hc Hc'].
    unfold does. rewrite (bind_some _ _ s b s) by (unfold getopt; by rewrite Eb). rewrite E1, E2, Nat2Z.id, (u32_small (pos + 1)) by lia.
    eapply does_bind; [apply (run_does r n (pos + 1) b rest); [done|done|done|done|lia..|done|done]|]. fold m.
    intros l Hl Hd. cbn beta iota. rewrite (u32_small (n + Z.of_nat m)) by lia.
    set (pos' := if match r with Repeat _ _ => true | Raw _ => false end then _ else _).
    assert (Epos : pos' = pos + 1 + Z.of_nat (length rest)).
    { unfold pos'. destruct r as [px k|pxs]; cbn in Er, Hr; injection Er as _ <-.
      - destruct Hr as [-> _]. rewrite u32_small by lia. lia.
      - destruct Hr as [Hr _]. unfold m. cbn [run_pixels]. rewrite (concat_length _ Hr). lia. }
    rewrite Epos. apply (IH rs (n + Z.of_nat m) _ (set_ptr l s)); try done; try lia.
    + by apply canvas_set_ptr.
    + by rewrite Z.add_assoc.
  - apply does_ret. eapply shows_ext; [exact H|]. intros k Hk. rewrite (wf_ptr s W), Cs, Ch in Hk.
    destruct (coord W k) as (Hi & Hj & _); [by rewrite Cs, Ch|]. rewrite Cs, Ch in *. unfold grid, drawn.
    destruct (Z.ltb_spec (number (k mod w) (k / w)) n); [done|]. exfalso. unfold number, row in *. destruct (top_down hd); nia.
Qed.

(** ** Pixels without runs *)

Lemma raw_row_does m x q pos s : canvas s -> looks s (drawn col junk (x + q * w) s) -> 0 <= x -> x + Z.of_nat m <= w -> 0 <= q < h ->
  0 <= pos -> pos + Z.of_nat m * Z.of_nat step < 2 ^ 32 -> supplied (x + q * w) (Z.of_nat m) pos (Z.of_nat step) ->
  does (raw_row start decoder (Z.of_nat step) m x (row q) pos) s (pos + Z.of_nat m * Z.of_nat step)
    (grid (stride s) (drawn col junk (x + q * w + Z.of_nat m) s)).
Proof using Hw Hh Hstep.
  revert x pos s. induction m as [|m IH]; intros x pos s C H Hx Hxm Hq Hpos Hpm Hs; cbn [raw_row].
  - rewrite Z.mul_0_l, !Z.add_0_r. by apply does_ret.
  - rewrite Nat2Z.inj_succ, <- Z.add_1_r in *. pose proof (decode_one (x + q * w) (Z.of_nat m) _ _ s C H ltac:(nia) ltac:(lia) Hs) as Hd1.
    rewrite Z.mod_add, Z.div_add, Z.mod_small, Z.div_small, Z.add_0_l, u32_small in Hd1 by (unfold row; destruct (top_down hd); lia).
    eapply does_bind; [exact Hd1|]. intros l Hl Hd. apply supplied_next in Hs. rewrite u32_small by nia.
    replace (pos + (Z.of_nat m + 1) * Z.of_nat step) with (pos + Z.of_nat step + Z.of_nat m * Z.of_nat step) by lia.
    replace (x + q * w + (Z.of_nat m + 1)) with (x + 1 + q * w + Z.of_nat m) by lia.
    replace (x + q * w + 1) with (x + 1 + q * w) in * by lia.
    apply (IH (x + 1) _ (set_ptr l s)); [by apply canvas_set_ptr|exact Hd|lia..|done].
Qed.

Lemma supplied_skip a n m pos gap : 0 <= a -> supplied n (a + m) pos gap -> supplied (n + a) m (pos + a * gap) gap.
Proof using Hstep.
  intros Ha H k Hk. destruct (H (a + k)) as (px & Hl & Hb & Hc); [lia|]. exists px. split_and!; [done| |].
  - by replace (pos + a * gap + k * gap) with (pos + (a + k) * gap) by lia.
  - by replace (n + a + k) with (n + (a + k)) by lia.
Qed.

Lemma raw_rows_does m y pos s : canvas s -> looks s (drawn col junk (y * w) s) -> 0 <= y -> y + Z.of_nat m = h ->
  0 <= pos -> pos + Z.of_nat m * w * Z.of_nat step < 2 ^ 32 -> supplied (y * w) (Z.of_nat m * w) pos (Z.of_nat step) ->
  does (raw_rows start hd decoder (Z.of_nat step) m y pos) s tt (grid w (fun i j => shade s (col (number i j)))).
Proof using Hw Hh Hstep Ehw.
  revert y pos s. induction m as [|m IH]; intros y pos s C H Hy Hym Hpos Hpm Hs; cbn [raw_rows]; pose proof C as [W Cw Cs Ch].
  - apply does_ret. eapply shows_ext; [exact H|]. intros k Hk. rewrite (wf_ptr s W), Cs, Ch in Hk.
    destruct (coord W k) as (Hi & Hj & _); [by rewrite Cs, Ch|]. rewrite Cs, Ch in *. unfold grid, drawn.
    destruct (Z.ltb_spec (number (k mod w) (k / w)) (y * w)); [done|]. exfalso. unfold number, row in *. destruct (top_down hd); nia.
  - apply does_gets. unfold id. rewrite Ehw, Ch. assert (Er : (if top_down hd then y else u32 (h - 1 - y)) = row y)
      by (unfold row; destruct (top_down hd); rewrite ?u32_small by lia; done).
    rewrite Er. clear Er. rewrite Nat2Z.inj_succ, <- Z.add_1_r in *. rewrite <- (Z.add_0_l (y * w)) in H.
    eapply does_bind; [apply (raw_row_does (Z.to_nat w) 0 y pos s C H); [lia..|rewrite Z2Nat.id by lia; nia|]|].
    { intros k Hk. rewrite Z.add_0_l. apply Hs. nia. }
    intros l Hl Hd. rewrite Z2Nat.id in * by lia. cbn beta. replace (0 + y * w + w) with ((y + 1) * w) in Hd by lia.
    apply (IH (y + 1) _ (set_ptr l s)); [by apply canvas_set_ptr|exact Hd|lia..|nia|].
    replace ((y + 1) * w) with (y * w + w) by lia. apply supplied_skip; [lia|].
    by replace (w + Z.of_nat m * w) with ((Z.of_nat m + 1) * w) by lia.
Qed.
End decoding.

(** ** New surfaces *)

Definition pixel_bytes (fmt : gfx_format) : Z := match fmt with GFX_FORMAT_RGB_565 => 2 | _ => 4 end.

Lemma create_run fresh mem w h st fmt : 0 < w <= st -> 0 < h -> h * st * pixel_bytes fmt < 2 ^ 32 ->
  Z.of_nat (length (default (fresh (Z.to_nat (h * st))) mem)) = h * st ->
  exists s, gfx_create_surface fresh mem w h st fmt = Some s /\ wf s /\ width s = w /\ height s = h /\ stride s = st /\ format s = fmt /\
    flush s = Unset /\ events s = [] /\ ptr s = default (fresh (Z.to_nat (h * st))) mem.
Proof.
  intros Hw Hh Hsz Hl. unfold gfx_create_surface.
  destruct (Z.ltb_spec 0 w), (Z.ltb_spec 0 h), (Z.leb_spec w st); try lia. cbn [andb].
  assert (Hb : pixel_bytes fmt = 2 \/ pixel_bytes fmt = 4) by (destruct fmt; cbn; auto).
  assert (Es : u32 (u32 (h * st) * pixel_bytes fmt) = h * st * pixel_bytes fmt) by (rewrite (u32_small (h * st)), u32_small by nia; done).
  assert (Eq : h * st * pixel_bytes fmt / pixel_bytes fmt = h * st) by (apply Z.div_mul; lia).
  destruct fmt; cbn [pixel_bytes] in *; rewrite Es, Eq; destruct mem; eexists; (split; [reflexivity|]);
    (split; [split; cbn in *; try done; lia|done]).
Qed.
