(* ===== verification/GfxProps.v ===== *)
(** * The graphics library: properties

    Rectangles, blending, the console as a terminal, and TGA images. *)

From S2P Require Import Prelude Arrays Gfx GfxSpec GfxConsole GfxText TgaSpec.
Local Open Scope lk_scope.

(** ** Colours *)

Lemma lor_shift a b n : 0 <= n -> 0 <= a -> 0 <= b < 2 ^ n -> Z.lor (Z.shiftl a n) b = a * 2 ^ n + b.
Proof.
  intros Hn Ha Hb. rewrite Z.shiftl_mul_pow2 by done. rewrite Z.add_nocarry_lxor, Z.lxor_lor; [done| |].
  all: apply Z.bits_inj'; intros k Hk; rewrite Z.land_spec, Z.bits_0; destruct (Z.lt_ge_cases k n).
  all: try (by rewrite Z.mul_pow2_bits_low by lia).
  all: rewrite (testbit_bound b n k) by lia; by rewrite andb_false_r.
Qed.

Lemma channel_range c i : 0 <= channel c i < 256.
Proof. unfold channel. change 255 with (2 ^ 8 - 1). rewrite land_mask by lia. apply Z.mod_pos_bound. lia. Qed.

Lemma channel_div c i : 0 <= i -> channel c i = c / 2 ^ i mod 256.
Proof. intros. unfold channel. change 255 with (2 ^ 8 - 1). rewrite land_mask, Z.shiftr_div_pow2 by lia. done. Qed.

Lemma pack_channel a r g b : 0 <= a < 256 -> 0 <= r < 256 -> 0 <= g < 256 -> 0 <= b < 256 ->
  let c := Z.lor (Z.lor (Z.lor (u32 (Z.shiftl a 24)) (u32 (Z.shiftl r 16))) (u32 (Z.shiftl g 8))) b in
  0 <= c < 2 ^ 32 /\ channel c 24 = a /\ channel c 16 = r /\ channel c 8 = g /\ channel c 0 = b.
Proof.
  intros Ha Hr Hg Hb c. assert (E : c = a * 2 ^ 24 + (r * 2 ^ 16 + (g * 2 ^ 8 + b))).
  { unfold c. rewrite !u32_small by (rewrite Z.shiftl_mul_pow2 by lia; lia). rewrite <- !Z.lor_assoc.
    rewrite (lor_shift g b 8), (lor_shift r _ 16), (lor_shift a _ 24) by lia. done. }
  rewrite E. split; [lia|]. rewrite !channel_div by lia. split_and!.
  - rewrite Z.div_add_l, (Z.div_small (_ + _)), Z.mod_small by lia. lia.
  - replace (a * 2 ^ 24 + (r * 2 ^ 16 + (g * 2 ^ 8 + b))) with ((a * 256 + r) * 2 ^ 16 + (g * 2 ^ 8 + b)) by lia.
    rewrite Z.div_add_l, (Z.div_small (g * 2 ^ 8 + b)), Z.add_0_r, Z.add_comm, Z.mod_add, Z.mod_small by lia. done.
  - replace (a * 2 ^ 24 + (r * 2 ^ 16 + (g * 2 ^ 8 + b))) with ((a * 65536 + r * 256 + g) * 2 ^ 8 + b) by lia.
    rewrite Z.div_add_l, (Z.div_small b), Z.add_0_r by lia. replace (a * 65536 + r * 256 + g) with (g + (a * 256 + r) * 256) by lia.
    rewrite Z.mod_add, Z.mod_small by lia. done.
  - rewrite Z.pow_0_r, Z.div_1_r. replace (a * 2 ^ 24 + (r * 2 ^ 16 + (g * 2 ^ 8 + b))) with (b + (a * 65536 + r * 256 + g) * 256) by lia.
    rewrite Z.mod_add, Z.mod_small by lia. done.
Qed.

(** The blend of two colours never leaves the range between black and the
    brighter of the two, channel by channel. *)
Lemma alpha_bound d c i : 0 <= d < 2 ^ 32 -> 0 <= c < 2 ^ 32 -> i = 0 \/ i = 8 \/ i = 16 ->
  0 <= alpha32_add_ignore_destalpha d c < 2 ^ 32 /\
  channel (alpha32_add_ignore_destalpha d c) i <= Z.max (channel d i) (channel c i).
Proof.
  intros Hd Hc Hi. unfold alpha32_add_ignore_destalpha. pose proof (channel_range c 24) as Ra.
  destruct (Z.eqb_spec (channel c 24) 0); [lia|]. destruct (Z.eqb_spec (channel c 24) 255); [lia|].
  set (a := channel c 24) in *. rewrite (u32_small (a + 1)), (u32_small (255 - (a + 1))) by lia.
  assert (Hres : forall j, 0 <= j -> let r := u32 (u32 (channel c j * (a + 1)) / 256 + u32 (channel d j * (255 - (a + 1))) / 256) in
    0 <= r < 256 /\ r <= Z.max (channel d j) (channel c j)).
  { intros j Hj r. pose proof (channel_range c j) as Rc. pose proof (channel_range d j) as Rd. set (x := channel c j) in *. set (y := channel d j) in *.
    assert (E : r = x * (a + 1) / 256 + y * (255 - (a + 1)) / 256).
    { unfold r. rewrite (u32_small (x * (a + 1))), (u32_small (y * (255 - (a + 1)))) by nia. apply u32_small.
      pose proof (Z.div_pos (x * (a + 1)) 256). pose proof (Z.div_pos (y * (255 - (a + 1))) 256).
      pose proof (Z.div_le_upper_bound (x * (a + 1)) 256 256). pose proof (Z.div_le_upper_bound (y * (255 - (a + 1))) 256 256). nia. }
    assert (H1 : 256 * (x * (a + 1) / 256) <= x * (a + 1)) by (apply Z.mul_div_le; lia).
    assert (H2 : 256 * (y * (255 - (a + 1)) / 256) <= y * (255 - (a + 1))) by (apply Z.mul_div_le; lia).
    assert (H3 : 0 <= x * (a + 1) / 256) by (apply Z.div_pos; nia). assert (H4 : 0 <= y * (255 - (a + 1)) / 256) by (apply Z.div_pos; nia).
    set (m := Z.max y x). assert (x * (a + 1) <= m * (a + 1)) by nia. assert (y * (255 - (a + 1)) <= m * (255 - (a + 1))) by nia. nia. }
  destruct (Hres 16) as [R16 M16]; [lia|]. destruct (Hres 8) as [R8 M8]; [lia|]. destruct (Hres 0) as [R0 M0]; [lia|]. cbv zeta in *.
  destruct (pack_channel (a + 1) _ _ _ ltac:(lia) R16 R8 R0) as (HR & _ & C16 & C8 & C0). split; [exact HR|].
  destruct Hi as [-> | [-> | ->]]; [rewrite C0|rewrite C8|rewrite C16]; done.
Qed.

(** ** Clearing and starting *)

Lemma gfx_clear_draws s f color : wf s -> flush s <> Unset -> looks s f ->
  draws (gfx_clear color) s (fun i j => if i <? width s then shade s color else f i j).
Proof.
  intros W Hfl H. pose proof (wf_pixels W). pose proof W as [Ww Wh Ws _ _ _ _].
  assert (width s < 2 ^ 31 /\ height s < 2 ^ 31) as [Bw Bh] by (split; nia).
  assert (E : surface_fillrect 0 0 (width s) (height s) color s = gfx_fillrect 0 0 (width s) (height s) color s).
  { unfold gfx_fillrect. rewrite (bind_some (gets id) _ s s s eq_refl). unfold id.
    destruct (Z.leb_spec (width s) 0), (Z.leb_spec (height s) 0), (Z.eqb_spec (width s) 0), (Z.eqb_spec (height s) 0); try lia. cbn [orb].
    rewrite !u32_small by lia. rewrite !Z.add_0_l, !Z.ltb_irrefl. done. }
  assert (Hp : paints (surface_fillrect 0 0 (width s) (height s) color) s (fun i j => if i <? width s then shade s color else f i j)).
  { unfold paints, does. rewrite E. eapply paints_ext; [done|apply (gfx_fillrect_paints W); [exact H|lia..]|]. intros i j Hi Hj. cbn beta.
    destruct (rect_spec 0 0 (width s) (height s) i j), (Z.ltb_spec i (width s)); cbn [andb]; done || lia. }
  by apply (flush_after _ s _ W Hfl), draws_paints.
Qed.

Definition blank : term := Term (fun _ _ => []) 0 0 None.
Definition typed (cols rows : Z) (text : list Z) : term := foldl (fun t c => term_put cols rows c t) blank text.

Lemma start_run s g tail : surface g = None -> state g = NORMAL -> wf s -> flush s <> Unset -> Forall (ev_ok s) (events s) ->
  6 <= width s -> 12 <= height s -> looks s (fun i j => if i <? width s then shade s 0 else tail i j) ->
  let k := {| lk_tail := fun i j => if i <? width s then shade s 0 else tail i j; lk_width := width s; lk_height := height s;
              lk_ops := ops s; lk_front := 4294967295; lk_back := 0 |} in
  exists g', gfxconsole_start s g = Some (tt, g') /\ columns g' = width s / 6 /\ rows g' = height s / 12 /\
    displays k blank s g' /\ ready blank g'.
Proof.
  intros Hs Hn W Hfl He Hw Hh H k. pose proof (wf_pixels W). pose proof W as [Ww Wh Ws _ _ _ _].
  assert (height s < 2 ^ 31) as Bh by nia. pose proof (Z.mul_div_le (height s) 12 eq_refl).
  assert (0 < width s / 6) by (apply Z.div_str_pos; lia). assert (0 < height s / 12) by (apply Z.div_str_pos; lia).
  eexists. split.
  { unfold gfxconsole_start. rewrite (bind_some (gets id) _ g g g eq_refl). unfold id. rewrite Hs, bool_decide_true by done. reflexivity. }
  unfold FONT_X, FONT_Y. rewrite (u32_small (height s / 12 * 12)), u32_small by lia. split_and!; try done. split; cbn; try done; try lia.
  eapply shows_ext; [exact H|]. intros z _. unfold grid, render. cbn. by destruct (_ <? width s), (_ <? height s / 12 * 12).
Qed.

(** ** Properties *)

(** C34: What [gfx_copyrect] does, for rectangles whose sums do not overflow.  The
    size is cut to what fits at both places, and nothing is copied if that is
    empty.  Towards the top left the rectangle is moved, overlapping or not, and
    all other pixels stay.  In the other direction the code starts one row and
    one pixel too far: it moves the rectangle below and to the right of the given
    one, and leaves the memory of the surface when that one ends behind it. *)
Theorem gfx_copyrect_spec s f x y w h x2 y2 :
  wf s -> looks s f -> 0 <= x -> 0 <= y -> 0 <= x2 -> 0 <= y2 -> 0 <= w -> 0 <= h ->
  x + w < 2 ^ 32 -> x2 + w < 2 ^ 32 -> y + h < 2 ^ 32 -> y2 + h < 2 ^ 32 ->
  let w' := fit (width s) x x2 w in
  let h' := fit (height s) y y2 h in
  let src := x + y * stride s in
  let dest := x2 + y2 * stride s in
  if (w' <=? 0) || (h' <=? 0) then gfx_copyrect x y w h x2 y2 s = Some (tt, s)
  else if dest <? src then
    paints (gfx_copyrect x y w h x2 y2) s
      (fun i j => if rect x2 y2 w' h' i j then f (i + (x - x2)) (j + (y - y2)) else f i j)
  else if dest + h' * stride s + w' <? height s * stride s then
    does (gfx_copyrect x y w h x2 y2) s tt
      (fun k => if inr (dest + stride s + 1) w' (stride s) h' k then picture (ptr s) (k + (src - dest)) else picture (ptr s) k)
  else gfx_copyrect x y w h x2 y2 s = None.
Proof.
  intros W H Hx Hy Hx2 Hy2 Hw Hh Hxw Hxw2 Hyh Hyh2 w' h' src dest. unfold w', h'.
  destruct (Z.leb_spec (fit (width s) x x2 w) 0) as [Hf|Hf]; [|destruct (Z.leb_spec (fit (height s) y y2 h) 0) as [Hg|Hg]]; cbn [orb].
  3: { unfold fit in Hf, Hg. destruct (Z.ltb_spec dest src); [apply (gfx_copyrect_forward W); done || lia|].
       rewrite <- (wf_ptr s W). apply (gfx_copyrect_backward W); try lia. apply shows_picture. }
  all: unfold gfx_copyrect; rewrite (bind_some (gets id) _ s s s eq_refl); unfold id.
  all: destruct (Z.leb_spec (width s) x), (Z.leb_spec (width s) x2), (Z.leb_spec (height s) y), (Z.leb_spec (height s) y2); try done.
  all: unfold fit in *; destruct (Z.eqb_spec w 0), (Z.eqb_spec h 0); done || lia.
Qed.

(** C35: [gfx_surface_blend] draws the visible part of another surface of the same
    format at the given place, and changes no other pixel.  Where the format has
    an alpha channel the pixels are mixed; the mix is a 32-bit colour, and no
    channel of it is brighter than both of the colours mixed. *)
Theorem gfx_surface_blend_spec s source f g x y :
  wf s -> wf source -> format s = format source -> looks s f -> looks source g -> 0 <= x -> 0 <= y ->
  paints (gfx_surface_blend source x y) s (fun i j =>
    if rect x y (width source) (height source) i j && (i <? width s) then mixed (format s) (f i j) (g (i - x) (j - y)) else f i j) /\
  forall d c i, 0 <= d < 2 ^ 32 -> 0 <= c < 2 ^ 32 -> i = 0 \/ i = 8 \/ i = 16 ->
    0 <= mixed (format s) d c < 2 ^ 32 /\ channel (mixed (format s) d c) i <= Z.max (channel d i) (channel c i).
Proof.
  intros W V Hf H Hg Hx Hy. split; [by apply gfx_surface_blend_paints|]. intros d c i Hd Hc Hi.
  unfold mixed. destruct (format s); [lia|by apply alpha_bound|lia].
Qed.

(** C26: The console on a display is a terminal.  On a frame buffer of at least one
    character, created from the display, cleared and handed to
    [gfxconsole_start], every text of 7-bit characters is written without leaving
    the pixel memory, the font or the bytes of the buffer in cache maintenance;
    the picture is then that of the terminal that has received the text, with its
    cursor movements, line wrap and scrolling. *)
Theorem gfxconsole_text fresh info mem g text :
  framebuffer info = Some mem -> Z.of_nat (length mem) = di_height info * di_stride info ->
  6 <= di_width info <= di_stride info -> 12 <= di_height info ->
  di_height info * di_stride info * pixel_bytes (di_format info) < 2 ^ 32 -> di_flush info <> Unset ->
  surface g = None -> state g = NORMAL -> Forall (fun c => 0 <= c < 128) text ->
  exists s s1 g' s', gfx_create_surface_from_display fresh info = Some s /\ gfx_clear 0 s = Some (tt, s1) /\
    (gfxconsole_start s1 ;;; puts text) g = Some (tt, g') /\ surface g' = Some s' /\ Forall (ev_ok s') (events s') /\
    let cols := di_width info / 6 in
    let rows := di_height info / 12 in
    looks s' (render (di_width info) rows (shade s' 4294967295) (shade s' 0)
      (fun i j => if i <? di_width info then shade s' 0 else picture mem (i + j * di_stride info))
      (t_cells (typed cols rows text))).
Proof.
  intros Hfb Hmem Hw Hh Hsz Hfl Hg Hst Htext.
  destruct (create_run fresh (Some mem) (di_width info) (di_height info) (di_stride info) (di_format info)) as
    (s0 & E0 & W0 & Ew & Eh & Est & _ & _ & Eev & Ep); [lia|lia|done|done|]. cbn in Ep.
  set (s := set_flush (di_flush info) s0). assert (W : wf s) by (by destruct W0).
  assert (Hlk : looks s (fun i j => picture mem (i + j * di_stride info))).
  { unfold looks. cbn [ptr s set_flush]. rewrite Ep. eapply shows_ext; [apply shows_picture|]. intros z Hz. unfold grid. f_equal.
    cbn. rewrite Est. pose proof (Z.div_mod z (di_stride info) ltac:(lia)). lia. }
  destruct (gfx_clear_draws s _ 0 W Hfl Hlk) as (l & e & E1 & Hl & H1 & He1). set (s1 := note e (set_ptr l s)) in *.
  assert (W1 : wf s1) by (by apply wf_note, wf_set_ptr).
  destruct (start_run s1 g (fun i j => picture mem (i + j * di_stride info)) Hg Hst W1 Hfl) as (g1 & E2 & Ec & Er & D1 & R1).
  { cbn. by rewrite Eev. }
  { change (width s1) with (width s0). lia. }
  { change (height s1) with (height s0). lia. }
  { exact H1. }
  destruct (puts_run _ text blank s1 g1 D1 R1 Htext) as (s' & g' & E3 & D3).
  exists s, s1, g', s'. pose proof D3 as [Hs' W' Hfl' He' Hr' Hco' _ _ _ _ Hp' (Kw & Kh & Ko & Kf & Kb)]. cbn in Kw, Kh, Ko, Kf, Kb.
  split_and!; [unfold gfx_create_surface_from_display; by rewrite Hfb, E0|done|by run E2|done|done|].
  rewrite Ec, Er in Hp'. change (width s1) with (width s0) in *. change (height s1) with (height s0) in *.
  rewrite (proj1 Hr'), Kf, Kb, Kw, Kh, Ew, Eh in Hp'. cbn in Hp'.
  assert (Esh : shade s1 0 = shade s' 0) by (unfold shade; by rewrite Ko). rewrite Esh in Hp'. exact Hp'.
Qed.

(** The bytes behind the header and the identification are the pixels [pxs], as
    they are or in runs. *)
Definition holds_pixels (file : list Z) (hd : tga_header) (step : nat) (pxs : list (list Z)) : Prop :=
  exists data, bytes_at file (18 + idlength hd) data /\ Z.of_nat (length data) + 512 < 2 ^ 32 /\
    ((datatypecode hd = 2 /\ data = concat pxs) \/
     (datatypecode hd = 10 /\ exists rs extra, Forall (run_ok step) rs /\ data = concat (run_bytes <$> rs) /\
        concat (run_pixels <$> rs) = pxs ++ extra)).

(** The decoder on a new surface: all pixels of [all] that belong to the picture. *)
Lemma decode_run file hd step all data s :
  let w := tga_width hd in
  let h := tga_height hd in
  let col n := tga_color (all !!! Z.to_nat n) in
  canvas w h s -> 0 < w < 2 ^ 16 -> 0 < h < 2 ^ 16 -> (step = 2 \/ step = 3 \/ step = 4)%nat ->
  h * w <= Z.of_nat (length all) -> bytes_at file (18 + idlength hd) data -> Z.of_nat (length data) + 512 < 2 ^ 32 ->
  ((datatypecode hd = 2 /\ data = concat all /\ Forall (fun px => length px = step) all) \/
   (datatypecode hd = 10 /\ exists rs, Forall (run_ok step) rs /\ data = concat (run_bytes <$> rs) /\ concat (run_pixels <$> rs) = all)) ->
  does (if datatypecode hd =? 2 then raw_rows (18 + idlength hd) hd (decoder file step) (Z.of_nat step) (Z.to_nat h) 0 0
        else rle_loop file (18 + idlength hd) hd (decoder file step) (Z.of_nat step) (S (Z.to_nat (h * w))) 0 0
               (if top_down hd then 0 else h - 1) 0) s tt (grid w (fun i j => shade s (col (number hd w h i j)))).
Proof.
  intros w h col C Hw Hh Hstep Hlen Hb Hdl Hdata. pose proof C as [W Ew Est Eh].
  set (junk := fun i j => picture (ptr s) (i + j * w)).
  assert (H0 : looks s (drawn hd w h col junk 0 s)).
  { eapply shows_ext; [apply shows_picture|]. intros z Hz. rewrite (wf_ptr s W), Est, Eh in Hz. unfold grid, drawn, junk. rewrite Est.
    destruct (coord W z) as (Hi & Hj & Ez); [by rewrite Est, Eh|]. rewrite Est, Eh in *.
    destruct (Z.ltb_spec (number hd w h (z mod w) (z / w)) 0); [|f_equal; lia]. exfalso. unfold number, row in *. destruct (top_down hd); nia. }
  assert (Hcol : colors col 0 all) by (intros k px Hk; unfold col; by rewrite Z.add_0_l, Nat2Z.id, (list_lookup_total_correct _ _ _ Hk)).
  destruct Hdata as [(Ety & -> & Hpx)|(Ety & rs & Hrs & -> & Ers)]; rewrite Ety; cbn [Z.eqb Pos.eqb].
  - apply (raw_rows_does file hd step w h Hw Hh eq_refl Hstep (18 + idlength hd) col junk); try done; try lia.
    + rewrite (concat_length step _ Hpx) in Hdl. rewrite Z2Nat.id by lia. nia.
    + intros k Hk. apply (supplied_pixels file step Hstep (18 + idlength hd) col 0 0 all); [done|done|by rewrite Z.add_0_r|]. lia.
  - replace (if top_down hd then 0 else h - 1) with (u32 (row hd h (0 / w))).
    2: { rewrite Z.div_0_l by lia. unfold row. destruct (top_down hd); rewrite u32_small by lia; lia. }
    rewrite <- (Z.mod_0_l w) at 4 by lia.
    apply (rle_loop_does file hd step w h Hw Hh eq_refl eq_refl Hstep (18 + idlength hd) col junk _ rs); try done; try lia; try nia.
    + rewrite Ers. lia.
    + by rewrite Z.add_0_r.
    + by rewrite Ers.
Qed.

(** C27: [tga_decode] decodes what an encoder writes.  A file with a supported
    header that holds the pixels of a picture, uncompressed or in any division
    into runs (also with runs that end behind the last pixel), in two, three or
    four bytes each, gives a surface of the size of the picture on which every
    pixel has the colour of the file, with the rows from the top down or from the
    bottom up as the header says. *)
Theorem tga_decode_spec fresh file fmt hd step pxs :
  (forall n, length (fresh n) = n) -> read_header file = Some hd -> colormaptype hd = 0 -> 0 <= idlength hd ->
  (step = 2 \/ step = 3 \/ step = 4)%nat -> bitsperpixel hd = 8 * Z.of_nat step ->
  0 < tga_width hd < 2 ^ 16 -> 0 < tga_height hd < 2 ^ 16 -> tga_height hd * tga_width hd * pixel_bytes fmt < 2 ^ 32 ->
  Z.of_nat (length pxs) = tga_height hd * tga_width hd -> Forall (fun px => length px = step) pxs -> holds_pixels file hd step pxs ->
  exists s, tga_decode fresh file fmt = Some (Some s) /\ wf s /\ width s = tga_width hd /\ height s = tga_height hd /\
    looks s (fun i j => shade s (tga_color (pxs !!! Z.to_nat (number hd (tga_width hd) (tga_height hd) i j)))).
Proof.
  intros Hfresh Hhd Hmap Hid Hstep Hbpp Hw Hh Hsz Hlen Hpx (data & Hb & Hdl & Hdata).
  set (w := tga_width hd) in *. set (h := tga_height hd) in *.
  destruct (create_run fresh None w h w fmt) as (s & Es & W & Ew & Eh & Est & _); [lia|lia|done|cbn; rewrite Hfresh; nia|].
  assert (Hall : exists extra, (datatypecode hd = 2 /\ data = concat (pxs ++ extra) /\ Forall (fun px => length px = step) (pxs ++ extra)) \/
    (datatypecode hd = 10 /\ exists rs, Forall (run_ok step) rs /\ data = concat (run_bytes <$> rs) /\ concat (run_pixels <$> rs) = pxs ++ extra)).
  { destruct Hdata as [[Ety ->]|(Ety & rs & extra & ? & -> & ?)]; [exists []; rewrite app_nil_r; by left|exists extra; right; eauto]. }
  destruct Hall as [extra Hall]. assert (C : canvas w h s) by (by split).
  destruct (decode_run file hd step (pxs ++ extra) data s C Hw Hh Hstep) as (l & E & Hl & Hs); [rewrite length_app; unfold w, h in *; lia|done|done|done|].
  exists (set_ptr l s). split_and!; [|by apply wf_set_ptr|done|done|].
  - unfold tga_decode. rewrite Hhd. cbn [mbind option_bind].
    replace (negb (datatypecode hd =? 2) && negb (datatypecode hd =? 10)) with false by (destruct Hdata as [[-> _]|[-> _]]; done).
    rewrite Hbpp, Hmap. fold w h. rewrite Es.
    assert (Hdec : (if 8 * Z.of_nat step =? 16 then (2, decode_2byte) else if 8 * Z.of_nat step =? 24 then (3, decode_3byte) else (4, decode_4byte)) =
      (Z.of_nat step, fun file => decoder file step)) by (destruct Hstep as [-> |[-> | ->]]; done).
    rewrite Hdec. cbn [mbind option_bind]. fold w h in E.
    replace (negb (8 * Z.of_nat step =? 16) && negb (8 * Z.of_nat step =? 24) && negb (8 * Z.of_nat step =? 32)) with false
      by (destruct Hstep as [-> |[-> | ->]]; done).
    change (negb (0 =? 0)) with false. cbv iota. destruct (datatypecode hd =? 2); rewrite E; done.
  - unfold looks. cbn. rewrite Est. eapply shows_ext; [exact Hs|]. intros z Hz. rewrite Hl, (wf_ptr s W), Est, Eh in Hz.
    destruct (coord W z) as (Hi & Hj & Ez); [by rewrite Est, Eh|]. rewrite Est, Eh in *. unfold grid. fold w h.
    rewrite lookup_total_app_l; [done|]. unfold number, row. destruct (top_down hd); nia.
Qed.

(** ** Witnesses *)

Definition demo_surface : gfx_surface :=
  {| ptr := [0; 1; 2; 3; 4; 5; 6; 7; 8; 9; 10; 11; 12; 13; 14; 15]; free_on_destroy := false; format := GFX_FORMAT_ARGB_8888;
     width := 4; height := 4; stride := 4; pixelsize := 4; len := 64; alpha := 255; ops := ops32; flush := NoFlush; events := [] |}.

Lemma demo_surface_wf : wf demo_surface.
Proof. split; cbn; lia. Qed.

Lemma demo_surface_looks : looks demo_surface (fun i j => i + 4 * j).
Proof.
  intros z Hz. cbn in Hz. assert (E : exists n, z = Z.of_nat n /\ (n < 16)%nat) by (exists (Z.to_nat z); lia).
  destruct E as (n & -> & Hn). do 16 (destruct n as [|n]; [done|]). lia.
Qed.

Lemma gfx_copyrect_spec_witness :
  paints (gfx_copyrect 1 1 2 9 0 0) demo_surface (fun i j => if rect 0 0 2 3 i j then (i + (1 - 0)) + 4 * (j + (1 - 0)) else i + 4 * j) /\
  gfx_copyrect 0 0 2 3 1 1 demo_surface = None.
Proof.
  split.
  - apply (gfx_copyrect_spec demo_surface (fun i j => i + 4 * j) 1 1 2 9 0 0 demo_surface_wf demo_surface_looks); lia.
  - apply (gfx_copyrect_spec demo_surface (fun i j => i + 4 * j) 0 0 2 3 1 1 demo_surface_wf demo_surface_looks); lia.
Defined.

Lemma gfx_surface_blend_spec_witness :
  paints (gfx_surface_blend demo_surface 2 3) demo_surface (fun i j =>
    if rect 2 3 4 4 i j && (i <? 4) then mixed GFX_FORMAT_ARGB_8888 (i + 4 * j) (i - 2 + 4 * (j - 3)) else i + 4 * j).
Proof.
  apply (gfx_surface_blend_spec demo_surface demo_surface (fun i j => i + 4 * j) (fun i j => i + 4 * j) 2 3
    demo_surface_wf demo_surface_wf eq_refl demo_surface_looks demo_surface_looks); lia.
Defined.

Definition demo_info : display_info :=
  {| framebuffer := Some (replicate 288 7); di_format := GFX_FORMAT_RGB_x888; di_width := 12; di_height := 24; di_stride := 12;
     di_flush := DisplayFlush |}.
Definition demo_gfxconsole : gfxconsole :=
  {| surface := None; rows := 0; columns := 0; extray := 0; cx := 0; cy := 0; front_color := 0; back_color := 0; state := NORMAL;
     p_num := 0 |}.

Lemma gfxconsole_text_witness : exists s1 g' s',
  (gfxconsole_start s1 ;;; puts [72; 105; 10; 33]) demo_gfxconsole = Some (tt, g') /\ surface g' = Some s' /\ Forall (ev_ok s') (events s').
Proof.
  destruct (gfxconsole_text (fun _ => []) demo_info (replicate 288 7) demo_gfxconsole [72; 105; 10; 33]) as (s & s1 & g' & s' & _ & _ & E & Es & He & _);
    [done|done|cbn; lia|cbn; lia|cbn; lia|done|done|done|by repeat constructor|].
  by exists s1, g', s'.
Defined.

(** Two pixels of three bytes in one repeated run. *)
Definition demo_tga : list Z := [0; 0; 10; 0; 0; 0; 0; 0; 0; 0; 0; 0; 2; 0; 1; 0; 24; 0] ++ [129; 1; 2; 3].
Definition demo_header : tga_header :=
  {| idlength := 0; colormaptype := 0; datatypecode := 10; tga_width := 2; tga_height := 1; bitsperpixel := 24; imagedescriptor := 0 |}.

Lemma tga_decode_spec_witness : exists s,
  tga_decode (fun n => replicate n 0) demo_tga GFX_FORMAT_RGB_565 = Some (Some s) /\ wf s /\
  looks s (fun i j => shade s (tga_color ([[1; 2; 3]; [1; 2; 3]] !!! Z.to_nat (number demo_header 2 1 i j)))).
Proof.
  destruct (tga_decode_spec (fun n => replicate n 0) demo_tga GFX_FORMAT_RGB_565 demo_header 3 [[1; 2; 3]; [1; 2; 3]]) as (s & E & W & _ & _ & H);
    [by intros; rewrite length_replicate|done|done|done|lia|done|done|done|done|done|by repeat constructor| |by exists s].
  exists [129; 1; 2; 3]. split_and!.
  - split; [done|]. by exists [0; 0; 10; 0; 0; 0; 0; 0; 0; 0; 0; 0; 2; 0; 1; 0; 24; 0], [].
  - done.
  - right. split; [done|]. exists [Repeat [1; 2; 3] 2], []. split_and!; [|done|done]. apply Forall_singleton. split; [done|lia].
Defined.
