(* ===== verification/Init.v ===== *)
(** * Start-up hooks: top/init.c

    The linker gathers the [lk_init_struct]s of all modules in the table
    [__lk_init].  [lk_init_level] calls those between the level reached last and
    the new one.  A hook is known by its position in the table, and a call is
    recorded as that position: what hooks do is code of the modules.  The
    properties say that a boot calls every hook once, in the order of levels. *)

From Stdlib Require Import Sorting.Sorted.
From S2P Require Import Prelude.
Local Open Scope lk_scope.

Record lk_init_struct : Type := { level : Z; name : string }.

(** A hook that was found: its position and level. *)
Definition found_hook : Type := nat * Z.

(** The inner loop: the pointers from position [i] on. *)
Fixpoint find_hook (lev last_called_level last_init_level : Z) (last : option nat) (i : nat)
    (ptrs : list lk_init_struct) (found : option found_hook) (seen_last : bool) : option found_hook :=
  match ptrs with
  | [] => found
  | p :: ptrs' =>
      let seen_last := if decide (last = Some i) then true else seen_last in
      let next f := find_hook lev last_called_level last_init_level last (S i) ptrs' f seen_last in
      if lev <? level p then next found
      else if level p <? last_called_level then next found
      else if match found with Some (_, l) => l <=? level p | None => false end then next found
      else if (last_init_level <? level p) && (last_called_level <? level p) then next (Some (i, level p))
      else if (level p =? last_called_level) && negb (bool_decide (last = Some i)) && seen_last then Some (i, level p)
      else next found
  end.

(** The outer loop: the positions of the hooks it calls. *)
Fixpoint hook_loop (fuel : nat) (table : list lk_init_struct) (lev last_init_level last_called_level : Z) (last : option nat)
    : option (list nat) :=
  match fuel with
  | O => None
  | S fuel' =>
      match find_hook lev last_called_level last_init_level last 0 table None false with
      | None => Some []
      | Some (i, l) => cons i <$> hook_loop fuel' table lev last_init_level l (Some i)
      end
  end.

(** From [last_init_level]: the hooks that are called, and the new level. *)
Definition lk_init_level (table : list lk_init_struct) (lev last_init_level : Z) : option (list nat * Z) :=
  calls ← hook_loop (S (length table)) table lev last_init_level last_init_level None;
  Some (calls, lev).

(** The calls of [lk_main] and [bootstrap2], from the level 0 that
    [last_init_level] starts with. *)
Definition LK_INIT_LEVEL_LAST : Z := 2 ^ 32 - 1.
Definition boot_levels : list Z :=
  [65536 - 1; 131072 - 1; 196608 - 1; 262144 - 1; 327680 - 1; 393216 - 1; 458752 - 1; 524288 - 1; 589824 - 1; 655360 - 1;
   LK_INIT_LEVEL_LAST].

Fixpoint init_levels (table : list lk_init_struct) (levels : list Z) (last_init_level : Z) : option (list nat * Z) :=
  match levels with
  | [] => Some ([], last_init_level)
  | lev :: levels' =>
      r ← lk_init_level table lev last_init_level;
      r' ← init_levels table levels' (snd r);
      Some (fst r ++ fst r', snd r')
  end.
Definition lk_boot (table : list lk_init_struct) : option (list nat * Z) := init_levels table boot_levels 0.

(** ** The order of hooks *)

Section order.
Context (table : list lk_init_struct).

Definition level_of (i : nat) : Z := match table !! i with Some p => level p | None => 0 end.

(** By level, and in the order of the table on one level. *)
Definition before (i j : nat) : Prop := level_of i < level_of j \/ level_of i = level_of j /\ (i < j)%nat.
Definition due (lo hi : Z) (i : nat) : Prop := (i < length table)%nat /\ lo < level_of i <= hi.

#[global] Instance before_trans : Transitive before.
Proof. unfold before. intros i j k. lia. Qed.

Section search.
Context (lev lc li : Z) (last : option nat).
(** The hooks behind the one called last: [lc] is its level, or the level
    reached before if there is none. *)
Definition ahead (i : nat) : Prop :=
  (i < length table)%nat /\ level_of i <= lev /\
  match last with Some k => before k i | None => lc < level_of i end.

Context (Hli : li <= lc) (Hlast : match last with Some k => level_of k = lc /\ li < lc | None => lc = li end).

Lemma ahead_level i : ahead i -> lc <= level_of i /\ li < level_of i.
Proof using Hli Hlast. unfold ahead, before. destruct last; lia. Qed.

(** [f] is the first of the hooks ahead that satisfy [P]. *)
Definition first (P : nat -> Prop) (f : option found_hook) : Prop :=
  match f with
  | None => forall i, P i -> ~ ahead i
  | Some (i, l) => P i /\ ahead i /\ l = level_of i /\ forall j, P j -> ahead j -> i = j \/ before i j
  end.

Lemma find_hook_first i ptrs found seen :
  drop i table = ptrs -> first (fun j => j < i)%nat found ->
  (forall j, (j < i)%nat -> ahead j -> lc < level_of j) ->
  (seen = true <-> match last with Some k => (k < i)%nat | None => False end) ->
  first (fun _ => True) (find_hook lev lc li last i ptrs found seen).
Proof using Hli Hlast.
  revert i found seen. induction ptrs as [|p ptrs IH]; intros i found seen Hd Hf Hn Hs; cbn [find_hook].
  - assert (Hlen : (length table <= i)%nat) by (apply (f_equal length) in Hd; rewrite length_drop in Hd; cbn in Hd; lia).
    destruct found as [[k l]|]; cbn in *.
    + destruct Hf as (H1 & H2 & H3 & H4). split_and!; try done. intros j _ Hj. apply H4; [|done]. destruct Hj. lia.
    + intros j _ Hj. apply (Hf j); [|done]. destruct Hj. lia.
  - assert (Hp : table !! i = Some p) by (rewrite <- (Nat.add_0_r i), <- lookup_drop, Hd; done).
    assert (Hi : (i < length table)%nat) by (by eapply lookup_lt_Some).
    assert (Hlv : level_of i = level p) by (unfold level_of; by rewrite Hp).
    assert (Hd' : drop (S i) table = ptrs) by (rewrite <- Nat.add_1_r, <- drop_drop, Hd; done).
    set (seen' := if decide (last = Some i) then true else seen).
    assert (Hs' : seen' = true <-> match last with Some k => (k < S i)%nat | None => False end).
    { unfold seen'. destruct (decide (last = Some i)) as [->|Hne]; [split; [lia|done]|]. rewrite Hs. destruct last as [k|]; [|done].
      assert (k <> i) by congruence. lia. }
    assert (Hskip : ~ ahead i -> first (fun _ => True) (find_hook lev lc li last (S i) ptrs found seen')).
    { intros Hna. apply IH; [done| |intros j Hj Ha; assert (j <> i) by congruence; apply Hn; [lia|done]|done].
      assert (Hlt : forall j, (j < S i)%nat -> ahead j -> (j < i)%nat) by (intros j Hj Ha; assert (j <> i) by congruence; lia).
      destruct found as [[k l]|]; cbn in *.
      - destruct Hf as (H1 & H2 & H3 & H4). split_and!; [lia|done|done|eauto].
      - intros j Hj Ha. exact (Hf j (Hlt j Hj Ha) Ha). }
    destruct (Z.ltb_spec lev (level p)) as [Hc1|Hc1]; [apply Hskip; unfold ahead; lia|].
    destruct (Z.ltb_spec (level p) lc) as [Hc2|Hc2]; [apply Hskip; intros Ha%ahead_level; lia|].
    destruct (match found with Some (_, l) => l <=? level p | None => false end) eqn:Hc3.
    { destruct found as [[k l]|]; [|done]. cbn in Hf. destruct Hf as (H1 & H2 & -> & H4). apply Z.leb_le in Hc3.
      pose proof (Hn k H1 H2). apply IH; [done| | |done].
      - cbn. split_and!; [lia|done|done|]. intros j Hj Ha. destruct (decide (j = i)) as [->|]; [right; unfold before; lia|]. apply H4; [lia|done].
      - intros j Hj Ha. destruct (decide (j = i)) as [->|]; [lia|]. apply Hn; [lia|done]. }
    destruct ((li <? level p) && (lc <? level p)) eqn:Hc4.
    { apply andb_true_iff in Hc4 as [_ Hc4%Z.ltb_lt]. assert (Ha : ahead i).
      { split_and!; [done|lia|]. destruct last as [k|]; unfold before; lia. }
      apply IH; [done| | |done].
      - cbn. split_and!; [lia|done|done|]. intros j Hj Hja. destruct (decide (j = i)) as [->|]; [by left|]. right.
        destruct found as [[k l]|]; cbn in Hf; [|exfalso; apply (Hf j); [lia|done]].
        destruct Hf as (H1 & H2 & -> & H4). apply Z.leb_gt in Hc3. destruct (H4 j) as [<-|Hb]; [lia|done| |]; unfold before in *; lia.
      - intros j Hj Hja. destruct (decide (j = i)) as [->|]; [lia|]. apply Hn; [lia|done]. }
    assert (Hl : level p = lc). { apply andb_false_iff in Hc4 as [Hc4|Hc4]; apply Z.ltb_ge in Hc4; lia. }
    rewrite Hl, Z.eqb_refl. cbn [andb]. destruct (bool_decide_reflect (last = Some i)) as [E|Hne]; cbn [negb andb].
    { apply Hskip. intros (_ & _ & Ha). rewrite E in Ha. unfold before in Ha. lia. }
    destruct seen' eqn:Es.
    + assert (Hk : exists k, last = Some k /\ (k < i)%nat).
      { pose proof (proj1 Hs' eq_refl) as Hk. destruct last as [k|]; [|done]. exists k. split; [done|]. assert (k <> i) by congruence. lia. }
      destruct Hk as (k & El & Hk). assert (Ha : ahead i).
      { split_and!; [done|lia|]. rewrite El in Hlast |- *. unfold before. lia. }
      cbn. split_and!; [done|done|lia|].
      intros j _ Hja. destruct (decide (j = i)) as [->|]; [by left|right]. destruct (decide (j < i)%nat).
      * pose proof (Hn j ltac:(done) Hja). unfold before. lia.
      * pose proof (ahead_level j Hja). unfold before. lia.
    + apply Hskip. intros (_ & _ & Ha). destruct last as [k|]; [|lia]. assert (~ (k < S i)%nat) by (intros Hk; by apply Hs' in Hk).
      unfold before in Ha. lia.
Qed.

Lemma find_hook_spec : first (fun _ => True) (find_hook lev lc li last 0 table None false).
Proof using Hli Hlast.
  apply find_hook_first; [done|intros j Hj; lia|lia|]. split; [done|]. destruct last; [lia|done].
Qed.
End search.

(** The calls of the loop: all hooks ahead, each once, in order.  Every call
    leaves fewer hooks ahead, so the loop ends. *)
Lemma hook_loop_spec fuel lev li lc last todo :
  li <= lc -> match last with Some k => level_of k = lc /\ li < lc | None => lc = li end ->
  NoDup todo -> (forall i, ahead lev lc last i -> i ∈ todo) -> (length todo < fuel)%nat ->
  exists calls, hook_loop fuel table lev li lc last = Some calls /\ StronglySorted before calls /\
    forall i, i ∈ calls <-> ahead lev lc last i.
Proof using.
  revert lc last todo. induction fuel as [|fuel IH]; intros lc last todo Hli Hlast Hnd Htodo Hf; [lia|]. cbn [hook_loop].
  pose proof (find_hook_spec lev lc li last Hli Hlast) as Hfirst.
  destruct (find_hook lev lc li last 0 table None false) as [[i l]|].
  - destruct Hfirst as (_ & Ha & -> & Hmin). pose proof (ahead_level lev lc li last Hli Hlast i Ha) as Hal.
    assert (Hahead : forall j, ahead lev (level_of i) (Some i) j <-> ahead lev lc last j /\ before i j).
    { intros j. split; [|intros [(? & ? & _) Hb]; by split_and!].
      intros (Hj1 & Hj2 & Hb). split; [|done]. split_and!; try done. destruct Ha as (_ & _ & Ha). destruct last as [k|]; [by transitivity i|].
      unfold before in Hb. lia. }
    destruct (IH (level_of i) (Some i) (filter (fun j => j <> i) todo)) as (calls & E & Hsort & Hin).
    + lia.
    + split; [done|lia].
    + by apply NoDup_filter.
    + intros j [Hj Hb]%Hahead. apply list_elem_of_filter. split; [|by apply Htodo]. intros ->. unfold before in Hb. lia.
    + assert (Hlt : (length (filter (fun j => j <> i) todo) < length todo)%nat); [|lia].
      apply length_filter_lt with i; [by apply Htodo|]. tauto.
    + exists (i :: calls). rewrite E. split; [done|]. split.
      * constructor; [done|]. apply Forall_forall. intros j Hj. by apply Hin, Hahead in Hj as [_ Hb].
      * intros j. rewrite elem_of_cons, Hin, Hahead. split.
        -- intros [->|[Hj _]]; done.
        -- intros Hj. destruct (Hmin j I Hj) as [->|Hb]; [by left|by right].
  - exists []. split; [done|]. split; [constructor|]. intros j. split; [by intros ?%elem_of_nil|]. intros Hj. by destruct (Hfirst j I Hj).
Qed.

Lemma lk_init_level_run lev li : exists calls, lk_init_level table lev li = Some (calls, lev) /\
  StronglySorted before calls /\ forall i, i ∈ calls <-> due li lev i.
Proof using.
  destruct (hook_loop_spec (S (length table)) lev li li None (seq 0 (length table))) as (calls & E & Hs & Hin).
  - lia.
  - done.
  - apply NoDup_seq.
  - intros i (Hi & _). apply elem_of_seq. lia.
  - rewrite length_seq. lia.
  - exists calls. unfold lk_init_level. rewrite E. split_and!; [done|done|]. intros i. rewrite Hin. unfold ahead, due. lia.
Qed.

Lemma sorted_app (l l' : list nat) : StronglySorted before l -> StronglySorted before l' ->
  (forall i j, i ∈ l -> j ∈ l' -> before i j) -> StronglySorted before (l ++ l').
Proof using.
  induction 1 as [|i l Hl IH Hi]; intros Hl' Hb; [done|]. cbn. constructor.
  - apply IH; [done|]. intros a b Ha. apply Hb. by apply list_elem_of_further.
  - apply Forall_app. split; [done|]. apply Forall_forall. intros j Hj. apply Hb; [left|done].
Qed.

(** Rising levels, one call after the other. *)
Lemma init_levels_run levels li top : StronglySorted Z.le (li :: levels) -> list.last (li :: levels) = Some top ->
  exists calls, init_levels table levels li = Some (calls, top) /\ StronglySorted before calls /\ forall i, i ∈ calls <-> due li top i.
Proof using.
  revert li. induction levels as [|lev levels IH]; intros li Hs Ht; cbn [init_levels].
  - injection Ht as ->. exists []. split_and!; [done|constructor|]. intros i. split; [by intros ?%elem_of_nil|]. unfold due. lia.
  - apply StronglySorted_inv in Hs as [Hs Hle]. apply Forall_cons in Hle as [Hle _].
    destruct (lk_init_level_run lev li) as (c1 & E1 & S1 & I1). rewrite E1. cbn [mbind option_bind snd].
    destruct (IH lev Hs Ht) as (c2 & E2 & S2 & I2). rewrite E2. cbn. exists (c1 ++ c2). split; [done|].
    assert (Hlt : lev <= top).
    { apply StronglySorted_inv in Hs as [_ Hall]. assert (Hin : top ∈ lev :: levels) by (by apply last_Some_elem_of).
      apply elem_of_cons in Hin as [->|Hin]; [lia|]. by eapply Forall_forall in Hall. }
    split.
    + apply sorted_app; [done|done|]. intros i j [Hi1 Hi2]%I1 [Hj1 Hj2]%I2. left. lia.
    + intros i. rewrite elem_of_app, I1, I2. unfold due. lia.
Qed.
End order.

Lemma sorted_NoDup table l : StronglySorted (before table) l -> NoDup l.
Proof.
  induction 1 as [|i l _ IH Hi]; constructor; [|done]. intros Hin. rewrite Forall_forall in Hi. specialize (Hi i Hin). unfold before in Hi. lia.
Qed.

Lemma sorted_take n (l : list Z) : StronglySorted Z.le l -> StronglySorted Z.le (take n l).
Proof.
  intros H. revert n. induction H as [|x l _ IH Hx]; intros [|n]; cbn; try constructor; [done|]. by apply Forall_take.
Qed.

Lemma boot_levels_sorted : StronglySorted Z.le (0 :: boot_levels).
Proof. apply Sorted_StronglySorted; [intros x y z; lia|]. unfold boot_levels, LK_INIT_LEVEL_LAST. repeat (constructor; try lia). Qed.

(** C5: Start-up calls every hook once and in order.  After any number of the
    [lk_init_level] calls of [lk_main] and [bootstrap2], the hooks called are
    exactly those with a level from 1 up to the level of the last of these calls,
    each of them once, by rising level and on one level in the order of the table;
    the whole boot so calls all hooks of the table but those of level 0. *)
Theorem lk_boot_spec table : Forall (fun p => 0 <= level p < 2 ^ 32) table ->
  (forall n top, list.last (0 :: take n boot_levels) = Some top ->
     exists calls, init_levels table (take n boot_levels) 0 = Some (calls, top) /\ StronglySorted (before table) calls /\
       NoDup calls /\ forall i, i ∈ calls <-> due table 0 top i) /\
  exists calls, lk_boot table = Some (calls, 2 ^ 32 - 1) /\ StronglySorted (before table) calls /\ NoDup calls /\
    forall i, i ∈ calls <-> (i < length table)%nat /\ level_of table i <> 0.
Proof.
  intros Ht. assert (Hall : forall n top, list.last (0 :: take n boot_levels) = Some top ->
    exists calls, init_levels table (take n boot_levels) 0 = Some (calls, top) /\ StronglySorted (before table) calls /\
      NoDup calls /\ forall i, i ∈ calls <-> due table 0 top i).
  { intros n top Hl. destruct (init_levels_run table (take n boot_levels) 0 top) as (calls & E & Hs & Hi); [|done|].
    - apply (sorted_take (S n) (0 :: boot_levels)), boot_levels_sorted.
    - exists calls. split_and!; try done. by eapply sorted_NoDup. }
  split; [done|]. destruct (Hall 11%nat (2 ^ 32 - 1) eq_refl) as (calls & E & Hs & Hn & Hi). exists calls. split_and!; try done.
  intros i. rewrite Hi. unfold due, level_of. destruct (table !! i) as [p|] eqn:Ep; [|lia].
  rewrite Forall_forall in Ht. specialize (Ht p (list_elem_of_lookup_2 _ _ _ Ep)). lia.
Qed.

(** A table in linker order, with two hooks on one level and one on level 0. *)
Definition demo_table : list lk_init_struct :=
  [ {| level := 393216; name := "libdpc" |}; {| level := 655360; name := "first" |}; {| level := 0; name := "never" |};
    {| level := 393216; name := "timer" |}; {| level := 4294967295; name := "last" |}; {| level := 524288; name := "platform" |} ].

Lemma lk_boot_spec_witness : lk_boot demo_table = Some ([0; 3; 5; 1; 4]%nat, 2 ^ 32 - 1) /\
  exists calls, lk_boot demo_table = Some (calls, 2 ^ 32 - 1) /\ NoDup calls.
Proof.
  split; [vm_compute; reflexivity|].
  destruct (lk_boot_spec demo_table) as [_ (calls & E & _ & Hn & _)]; [by repeat constructor|]. by exists calls.
Defined.
