(* ===== verification/Evlog.v ===== *)
(** * Event logs: lib/evlog/evlog.c

    A ring of [len] words in units of [unitsize] words, both powers of two.
    [evlog_add] is the use of [evlog_bump_head] that evlog.h describes: a record
    is stored where the head was.  The property is that a log of [n] units always
    dumps the last [n - 1] records, the oldest first. *)

From S2P Require Import Prelude Arrays Cbuf.
Local Open Scope lk_scope.

(** ** The log *)

Record evlog : Type := { head : Z; unitsize : Z; len_pow2 : Z; items : list Z }.

Definition set_head (h : Z) (e : evlog) : evlog :=
  {| head := h; unitsize := unitsize e; len_pow2 := len_pow2 e; items := items e |}.
Definition set_items (l : list Z) (e : evlog) : evlog :=
  {| head := head e; unitsize := unitsize e; len_pow2 := len_pow2 e; items := l |}.

Definition INCPTR (e : evlog) (ptr inc : Z) : Z := modpow2 (u32 (ptr + inc)) (len_pow2 e).

Definition evlog_init_etc (len unit : Z) (mem : list Z) : Z + evlog :=
  if (len <? 2) || negb (ispow2 len) then inl ERR_INVALID_ARGS
  else if (unit <? 1) || negb (ispow2 unit) then inl ERR_INVALID_ARGS
  else if len <? unit then inl ERR_INVALID_ARGS
  else inr {| head := 0; unitsize := unit; len_pow2 := log2_uint len; items := mem |}.

(** [mem]: whether there is memory for the items. *)
Definition evlog_init (mem : bool) (len unit : Z) : Z + evlog :=
  if mem then evlog_init_etc len unit (replicate (Z.to_nat len) 0) else inl ERR_NO_MEMORY.

Definition evlog_bump_head : M evlog Z :=
  let* e := gets id in
  modify (set_head (INCPTR e (head e) (unitsize e))) ;;; ret (head e).

Definition evlog_add (rec : list Z) : M evlog unit :=
  let* index := evlog_bump_head in
  let* l := getopt (fun e => blit_at (items e) index rec) in
  modify (set_items l).

(** What the callback of [evlog_dump] gets to see: the unit at each index. *)
Fixpoint dump_loop (fuel : nat) (e : evlog) (index : Z) : option (list (list Z)) :=
  match fuel with
  | O => None
  | S fuel' =>
      if index =? head e then Some []
      else
        u ← range (items e) index (unitsize e);
        cons u <$> dump_loop fuel' e (INCPTR e index (unitsize e))
  end.
Definition evlog_dump (e : evlog) : option (list (list Z)) :=
  dump_loop (S (length (items e))) e (INCPTR e (head e) (unitsize e)).

(** ** The ring *)

(** The units of the log in the order of time: the unit at the head, which is
    overwritten next, comes first. *)
Record holds (n : nat) (us : list (list Z)) (e : evlog) (h : nat) : Prop := {
  ho_len : length us = n;
  ho_head : head e = Z.of_nat h * unitsize e /\ (h < n)%nat;
  ho_unit : 0 < unitsize e;
  ho_size : 2 ^ len_pow2 e = Z.of_nat n * unitsize e /\ 0 <= len_pow2 e < 32;
  ho_items : Z.of_nat (length (items e)) = Z.of_nat n * unitsize e;
  ho_units : forall i u, us !! i = Some u -> range (items e) (Z.of_nat ((h + i) mod n) * unitsize e) (unitsize e) = Some u;
}.

Section log.
Context {n : nat} {us : list (list Z)} {e : evlog} {h : nat} (H : holds n us e h).

Lemma incptr_run i : (i < n)%nat -> INCPTR e (Z.of_nat i * unitsize e) (unitsize e) = Z.of_nat (S i mod n) * unitsize e.
Proof using H.
  intros Hi. destruct H as [_ _ Hu [Hs Hk] _ _]. assert (2 ^ len_pow2 e <= 2 ^ 31) by (apply Z.pow_le_mono_r; lia).
  unfold INCPTR. rewrite u32_small, modpow2_mod, Hs by nia.
  replace (Z.of_nat i * unitsize e + unitsize e) with (Z.of_nat (S i) * unitsize e) by lia.
  rewrite Z.mul_mod_distr_r by lia. rewrite Nat2Z.inj_mod. done.
Qed.

Lemma add_run rec : Z.of_nat (length rec) = unitsize e ->
  exists e', evlog_add rec e = Some (tt, e') /\ holds n (tl us ++ [rec]) e' (S h mod n) /\ unitsize e' = unitsize e.
Proof using H.
  intros Hl. pose proof H as [Hn [Hh Hhn] Hu Hs Hi Hus].
  destruct (blit_at_Some (items e) (head e) rec) as (l & E & Hll); [lia|nia|].
  exists (set_items l (set_head (Z.of_nat (S h mod n) * unitsize e) e)). split_and!; [|split; cbn|done].
  - unfold evlog_add, evlog_bump_head. rewrite Hh in *. rewrite <- (incptr_run h Hhn). unfold bind, gets, modify, getopt, ret, id. cbn.
    by rewrite Hh, E.
  - destruct us as [|u us']; [cbn in Hn; lia|]. cbn in *. rewrite length_app. cbn. lia.
  - split; [done|]. apply Nat.mod_upper_bound. lia.
  - done.
  - done.
  - by rewrite Hll.
  - intros i u Hiu. destruct us as [|u0 us'] eqn:Eus; [cbn in Hn; lia|]. cbn [tl length] in Hiu, Hn.
    assert (Emod : ((S h mod n + i) mod n = (h + S i) mod n)%nat) by (rewrite Nat.Div0.add_mod_idemp_l; f_equal; lia). rewrite Emod.
    destruct (decide (i < length us')%nat) as [Hlt|Hge].
    + rewrite lookup_app_l in Hiu by done. rewrite <- (Hus (S i) u Hiu). apply (range_blit_other _ _ _ _ _ _ E).
      assert ((h + S i) mod n <> h)%nat.
      { intros Ex. assert (h + S i < n \/ n <= h + S i)%nat as [Hc|Hc] by lia.
        - rewrite Nat.mod_small in Ex by done. lia.
        - replace (h + S i)%nat with (h + S i - n + 1 * n)%nat in Ex by lia. rewrite Nat.Div0.mod_add, Nat.mod_small in Ex by lia. lia. }
      set (m := ((h + S i) mod n)%nat) in *. clearbody m. rewrite Hh, Hl. nia.
    + rewrite lookup_app_r in Hiu by lia. destruct (i - length us')%nat as [|k] eqn:Ek; [|by destruct k]. injection Hiu as <-.
      replace (h + S i)%nat with (h + 1 * n)%nat by lia. rewrite Nat.Div0.mod_add, Nat.mod_small, <- Hh by lia.
      rewrite <- Hl. by apply (range_blit_same _ _ _ _ _ E).
Qed.

Lemma dump_loop_run fuel j : (1 <= j <= n)%nat -> (n - j < fuel)%nat ->
  dump_loop fuel e (Z.of_nat ((h + j) mod n) * unitsize e) = Some (drop j us).
Proof using H.
  pose proof H as [Hn [Hh Hhn] Hu Hs Hi Hus]. revert j. induction fuel as [|fuel IH]; intros j Hj Hf; [lia|]. cbn [dump_loop].
  assert (Hm : ((h + j) mod n < n)%nat) by (apply Nat.mod_upper_bound; lia). rewrite Hh.
  destruct (decide (j = n)) as [->|Hne].
  - replace (h + n)%nat with (h + 1 * n)%nat by lia. rewrite Nat.Div0.mod_add, Nat.mod_small, Z.eqb_refl by done. by rewrite drop_ge by lia.
  - assert (Hmh : ((h + j) mod n <> h)%nat).
    { intros Ex. assert (h + j < n \/ n <= h + j)%nat as [Hc|Hc] by lia.
      - rewrite Nat.mod_small in Ex by done. lia.
      - replace (h + j)%nat with (h + j - n + 1 * n)%nat in Ex by lia. rewrite Nat.Div0.mod_add, Nat.mod_small in Ex by lia. lia. }
    destruct (Z.eqb_spec (Z.of_nat ((h + j) mod n) * unitsize e) (Z.of_nat h * unitsize e)); [nia|].
    destruct (lookup_lt_is_Some_2 us j) as [u Eu]; [lia|]. rewrite (Hus j u Eu). cbn [mbind option_bind].
    rewrite (incptr_run _ Hm). replace (S ((h + j) mod n) mod n)%nat with ((h + S j) mod n)%nat.
    2: { replace (S ((h + j) mod n)) with ((h + j) mod n + 1)%nat by lia. rewrite Nat.Div0.add_mod_idemp_l. f_equal. lia. }
    rewrite IH by lia. cbn. by rewrite (drop_S _ _ _ Eu).
Qed.

Lemma dump_run : evlog_dump e = Some (tl us).
Proof using H.
  pose proof H as [Hn [Hh Hhn] Hu Hs Hi Hus]. unfold evlog_dump. rewrite Hh, (incptr_run h Hhn).
  replace (S h mod n)%nat with ((h + 1) mod n)%nat by (f_equal; lia). rewrite dump_loop_run by nia. by destruct us.
Qed.
End log.

Fixpoint add_all (recs : list (list Z)) : M evlog unit :=
  match recs with [] => ret tt | r :: recs' => evlog_add r ;;; add_all recs' end.

Lemma add_all_run recs n us e h : holds n us e h -> Forall (fun r => Z.of_nat (length r) = unitsize e) recs ->
  exists e' h', add_all recs e = Some (tt, e') /\ holds n (drop (length recs) (us ++ recs)) e' h'.
Proof.
  revert us e h. induction recs as [|r recs IH]; intros us e h H Hr; cbn [add_all].
  { exists e, h. by rewrite app_nil_r. }
  apply Forall_cons in Hr as [Hr Hrs]. destruct (add_run H r Hr) as (e1 & E1 & H1 & Eu). run E1. rewrite <- Eu in Hrs.
  destruct (IH _ _ _ H1 Hrs) as (e' & h' & E' & H'). exists e', h'. split; [done|].
  destruct us as [|u us]; [pose proof (ho_head _ _ _ _ H); pose proof (ho_len _ _ _ _ H); cbn in *; lia|].
  cbn [tl length drop app] in *. by rewrite <- app_assoc in H'.
Qed.

Lemma replicate_holds a b : 0 <= b <= a -> 1 <= a < 32 ->
  holds (Z.to_nat (2 ^ (a - b))) (replicate (Z.to_nat (2 ^ (a - b))) (replicate (Z.to_nat (2 ^ b)) 0))
    {| head := 0; unitsize := 2 ^ b; len_pow2 := a; items := replicate (Z.to_nat (2 ^ a)) 0 |} 0.
Proof.
  intros Hb Ha. assert (H1 : 0 < 2 ^ b) by (apply Z.pow_pos_nonneg; lia). assert (H2 : 0 < 2 ^ (a - b)) by (apply Z.pow_pos_nonneg; lia).
  assert (H3 : 2 ^ a = 2 ^ (a - b) * 2 ^ b) by (rewrite <- Z.pow_add_r by lia; f_equal; lia).
  split; cbn [head unitsize len_pow2 items]; rewrite ?length_replicate; try lia.
  intros i u Hi. apply lookup_replicate in Hi as [-> Hi]. rewrite Nat.add_0_l, Nat.mod_small by done.
  rewrite range_Some by (rewrite ?length_replicate; nia). unfold slice. rewrite drop_replicate, take_replicate. do 2 f_equal. nia.
Qed.

(** ** The property *)

(** C39: An event log keeps the most recent records.  [evlog_init] accepts exactly
    the sizes it can work with; a log of [n] units then never stores outside of
    its memory, and after any number of records the dump ends and shows the last
    [n - 1] of them, the oldest first (units not yet written read as zeros). *)
Theorem evlog_spec len unit recs : 0 <= len < 2 ^ 32 -> 0 <= unit < 2 ^ 32 ->
  Forall (fun r => Z.of_nat (length r) = unit) recs ->
  if (2 <=? len) && ispow2 len && (1 <=? unit) && ispow2 unit && (unit <=? len) then
    exists e e', evlog_init true len unit = inr e /\ add_all recs e = Some (tt, e') /\
      let n := Z.to_nat (len / unit) in
      evlog_dump e' = Some (drop (S (length recs)) (replicate n (replicate (Z.to_nat unit) 0) ++ recs))
  else evlog_init true len unit = inl ERR_INVALID_ARGS.
Proof.
  intros Hlen Hunit Hr. unfold evlog_init, evlog_init_etc.
  destruct (Z.leb_spec 2 len), (Z.ltb_spec len 2); try lia; cbn [andb orb]; [|done].
  destruct (ispow2 len) eqn:El; cbn [andb negb orb]; [|done].
  destruct (Z.leb_spec 1 unit), (Z.ltb_spec unit 1); try lia; cbn [andb orb]; [|done].
  destruct (ispow2 unit) eqn:Eu; cbn [andb negb orb]; [|done].
  destruct (Z.leb_spec unit len), (Z.ltb_spec len unit); try lia; [|done].
  destruct (ispow2_inv len) as (a & Ha & Ea); [lia|done|]. destruct (ispow2_inv unit) as (b & Hb & Eb); [lia|done|].
  assert (Hba : 0 <= b <= a) by (split; [lia|]; apply (Z.pow_le_mono_r_iff 2); lia).
  assert (Ha1 : 1 <= a) by (destruct (Z.eq_dec a 0) as [->|]; [cbn in Ea; lia|lia]).
  pose proof (replicate_holds a b Hba ltac:(lia)) as Hinit.
  assert (Elog : log2_uint len = a) by (rewrite Ea; apply ctz_pow2; lia). rewrite Elog, Ea, Eb in *.
  destruct (add_all_run recs _ _ _ _ Hinit Hr) as (e' & h' & E & H'). eexists _, e'. split; [reflexivity|]. split; [done|].
  rewrite (dump_run H'). rewrite <- Z.pow_sub_r by lia. f_equal.
  assert (Et : forall l : list (list Z), tl l = drop 1 l) by (by intros []). by rewrite Et, drop_drop, Nat.add_1_r.
Qed.

Lemma evlog_spec_witness : exists e e', evlog_init true 8 2 = inr e /\ add_all [[1; 2]; [3; 4]; [5; 6]; [7; 8]; [9; 10]] e = Some (tt, e') /\
  evlog_dump e' = Some [[5; 6]; [7; 8]; [9; 10]].
Proof.
  apply (evlog_spec 8 2 [[1; 2]; [3; 4]; [5; 6]; [7; 8]; [9; 10]]); [lia|lia|by repeat constructor].
Defined.
