(* ===== verification/Dpc.v ===== *)
(** * Deferred procedure calls: lib/dpc/dpc.c

    [dpc_queue] appends a call to a list and signals an event; one thread waits
    for the event, takes the calls off the list and makes them.  The list is the
    one of [ListOps], the event the one of [EventIface].  The steps of the thread
    are the pieces of its loop between which other threads, and the callback it
    runs, can queue further calls: each critical section is one step.  The
    property is that no call is lost, repeated, reordered or left waiting. *)

From stdpp Require Import gmap.
From S2P Require Import Prelude Interfaces ListH.
Local Open Scope lk_scope.

(** [struct dpc], without its list node. *)
Record dpc : Type := { cb : Z; arg : Z }.

Definition DPC_FLAG_NORESCHED : Z := 1.

(** Where the thread is in its loop: before [event_wait], before the critical
    section, before the call, and before [free]. *)
Inductive thread_at : Type := At_wait | At_take | At_call (d : nat) | At_free (d : nat).

Section dpc.
Context {W : Type} {EV : EventIface W} `{LO : ListOps nat unit}.

(** [dpcs] holds the allocated [struct dpc]s, [calls] the calls made so far. *)
Record dpc_state : Type := {
  dpc_list : links;
  dpc_event : W;
  dpcs : gmap nat dpc;
  at_ : thread_at;
  calls : list dpc;
}.

Definition set_list (l : links) (s : dpc_state) : dpc_state :=
  {| dpc_list := l; dpc_event := dpc_event s; dpcs := dpcs s; at_ := at_ s; calls := calls s |}.
Definition set_ev (w : W) (s : dpc_state) : dpc_state :=
  {| dpc_list := dpc_list s; dpc_event := w; dpcs := dpcs s; at_ := at_ s; calls := calls s |}.
Definition set_dpcs (m : gmap nat dpc) (s : dpc_state) : dpc_state :=
  {| dpc_list := dpc_list s; dpc_event := dpc_event s; dpcs := m; at_ := at_ s; calls := calls s |}.
Definition goto (t : thread_at) (s : dpc_state) : dpc_state :=
  {| dpc_list := dpc_list s; dpc_event := dpc_event s; dpcs := dpcs s; at_ := t; calls := calls s |}.
Definition add_call (d : dpc) (s : dpc_state) : dpc_state :=
  {| dpc_list := dpc_list s; dpc_event := dpc_event s; dpcs := dpcs s; at_ := at_ s; calls := calls s ++ [d] |}.

(** [p]: what [malloc] returns. *)
Definition dpc_queue (p : option nat) (f a flags : Z) : M dpc_state Z :=
  match p with
  | None => ret ERR_NO_MEMORY
  | Some d =>
      modify (fun s => set_dpcs (<[d := {| cb := f; arg := a |}]> (dpcs s)) s) ;;;
      modify (fun s => set_list (list_add_tail tt d (dpc_list s)) s) ;;;
      modify (fun s => set_ev (ev_signal (Z.land flags DPC_FLAG_NORESCHED =? 0) (dpc_event s)) s) ;;;
      ret NO_ERROR
  end.

(** One step of the thread; [false]: it stays blocked in [event_wait]. *)
Definition dpc_thread_step : M dpc_state bool :=
  let* s := gets id in
  match at_ s with
  | At_wait =>
      match ev_wait (dpc_event s) with
      | None => ret false
      | Some w => modify (set_ev w) ;;; modify (goto At_take) ;;; ret true
      end
  | At_take =>
      let (d, l) := list_remove_head tt (dpc_list s) in
      modify (set_list l) ;;;
      match d with
      | None => modify (fun s => set_ev (ev_unsignal (dpc_event s)) s) ;;; modify (goto At_wait) ;;; ret true
      | Some d => modify (goto (At_call d)) ;;; ret true
      end
  | At_call d =>
      let* c := getopt (fun s => dpcs s !! d) in
      modify (add_call c) ;;; modify (goto (At_free d)) ;;; ret true
  | At_free d =>
      modify (fun s => set_dpcs (delete d (dpcs s)) s) ;;; modify (goto At_wait) ;;; ret true
  end.

(** The thread on its own, until it blocks. *)
Fixpoint dpc_thread_routine (fuel : nat) : M dpc_state unit :=
  match fuel with
  | O => panic
  | S fuel' => let* moved := dpc_thread_step in when moved do dpc_thread_routine fuel'
  end.

Definition dpc_init (l : links) (w : W) : dpc_state :=
  {| dpc_list := l; dpc_event := ev_init w; dpcs := ∅; at_ := At_wait; calls := [] |}.
End dpc.
#[global] Arguments dpc_state W {LO}.

Section runs.
Context {W : Type} {EV : EventIface W} `{LO : ListOps nat unit} {LL : ListLaws nat unit}.

(** The states after any interleaving of queueing and of the thread, with the
    calls that were accepted so far.  [malloc] returns memory not in use. *)
Inductive runs : list dpc -> dpc_state W -> Prop :=
| run_init l w : links_ok l -> contents l tt = [] -> runs [] (dpc_init l w)
| run_queue q s s' p f a flags r : runs q s -> (forall d, p = Some d -> dpcs s !! d = None) ->
    dpc_queue p f a flags s = Some (r, s') ->
    runs (if r =? NO_ERROR then q ++ [{| cb := f; arg := a |}] else q) s'
| run_thread q s s' b : runs q s -> dpc_thread_step s = Some (b, s') -> runs q s'.

(** ** The invariant *)

Definition queued (s : dpc_state W) : list nat := contents (dpc_list s) tt.

(** The calls the thread has taken and not made, and those it has not freed. *)
Definition taken (t : thread_at) : list nat := match t with At_call d => [d] | _ => [] end.
Definition held (t : thread_at) : list nat := match t with At_call d | At_free d => [d] | _ => [] end.

Definition stored (m : gmap nat dpc) (d : nat) (c : dpc) : Prop := m !! d = Some c.

Record dpc_inv (q : list dpc) (s : dpc_state W) : Prop := {
  di_links : links_ok (dpc_list s);
  di_nodup : NoDup (held (at_ s) ++ queued s);
  di_mem : forall d, is_Some (dpcs s !! d) <-> d ∈ held (at_ s) ++ queued s;
  di_calls : exists rest, Forall2 (stored (dpcs s)) (taken (at_ s) ++ queued s) rest /\ q = calls s ++ rest;
  di_event : queued s <> [] -> ev_signalled (dpc_event s) = true;
}.

Lemma stored_ext (m m' : gmap nat dpc) l rest : (forall d, d ∈ l -> m' !! d = m !! d) ->
  Forall2 (stored m) l rest -> Forall2 (stored m') l rest.
Proof using.
  intros H F. induction F as [|d c l rest Hd F IH]; constructor; [unfold stored; rewrite H; [done|by left]|].
  apply IH. intros d' ?. apply H. by right.
Qed.

Lemma dpc_queue_inv q s s' p f a flags r : dpc_inv q s -> (forall d, p = Some d -> dpcs s !! d = None) ->
  dpc_queue p f a flags s = Some (r, s') ->
  dpc_inv (if r =? NO_ERROR then q ++ [{| cb := f; arg := a |}] else q) s'.
Proof using LL.
  intros I Hp H. destruct p as [d|]; cbn in H; [|by injection H as <- <-]. injection H as <- <-. cbn [Z.eqb NO_ERROR].
  destruct I as [Hl Hn Hm (rest & Hr & ->) He]. specialize (Hp d eq_refl).
  assert (Hd : d ∉ held (at_ s) ++ queued s) by (rewrite <- Hm, Hp; apply is_Some_None).
  assert (Hd' : d ∉ queued s) by set_solver. assert (Hin : list_in_list (dpc_list s) d = false) by (apply not_in_list; [done|]; by intros []).
  assert (Eq : contents (list_add_tail tt d (dpc_list s)) tt = queued s ++ [d]) by (by rewrite add_tail_contents).
  split; unfold queued in *; cbn; rewrite ?Eq.
  - by apply add_tail_ok.
  - rewrite app_assoc. apply NoDup_app. split_and!; [done|set_solver|apply NoDup_singleton].
  - intros d'. rewrite lookup_insert_is_Some', Hm. set_solver.
  - exists (rest ++ [{| cb := f; arg := a |}]). split; [|by rewrite app_assoc]. rewrite app_assoc.
    assert (Hd2 : d ∉ taken (at_ s) ++ contents (dpc_list s) tt) by (destruct (at_ s); cbn in *; set_solver).
    apply Forall2_app; [|constructor; [apply lookup_insert_eq|constructor]].
    apply (stored_ext (dpcs s)); [|done]. intros d' ?. apply lookup_insert_ne. by intros ->.
  - intros _. apply ev_signal_law.
Qed.

(** The number of steps to the next time the thread blocks. *)
Definition distance (s : dpc_state W) : nat :=
  4 * length (queued s) +
  match at_ s with
  | At_wait => if ev_signalled (dpc_event s) then 2 else 0
  | At_take => 1
  | At_call _ => 4
  | At_free _ => 3
  end.

(** A step does not fault; it blocks exactly when nothing is left to do. *)
Lemma dpc_step_inv q s : dpc_inv q s -> exists b s', dpc_thread_step s = Some (b, s') /\ dpc_inv q s' /\
  (if b then (distance s' < distance s)%nat else s' = s /\ distance s = 0%nat /\ at_ s = At_wait).
Proof using LL.
  intros I. pose proof I as [Hl Hn Hm (rest & Hr & ->) He]. unfold dpc_thread_step.
  rewrite (bind_some (gets id) _ s s s eq_refl). unfold distance.
  destruct (at_ s) as [| |d|d] eqn:Ea; cbn [held taken app] in *.
  - destruct (ev_signalled (dpc_event s)) eqn:Es.
    + destruct (ev_wait_law _ Es) as (w & Ew & Ew'). rewrite Ew. exists true. eexists. split; [reflexivity|]. split.
      * split; cbn; eauto.
      * unfold queued. cbn -[Nat.mul]. lia.
    + rewrite (ev_wait_blocks _ Es). exists false, s. split; [done|]. split; [done|]. split_and!; [done| |done].
      destruct (queued s); [done|]. discriminate He. done.
  - unfold list_remove_head. fold (queued s). destruct (queued s) as [|d l] eqn:Eq.
    + exists true. eexists. split; [reflexivity|]. unfold queued in *. cbn -[Nat.mul]. rewrite ev_unsignal_law, Eq. split; [|cbn; lia].
      split; unfold queued; cbn; rewrite ?Eq; eauto.
    + exists true. eexists. split; [reflexivity|].
      assert (Hin : list_in_list (dpc_list s) d = true) by (apply in_list_spec; [done|]; exists tt; fold (queued s); rewrite Eq; left).
      assert (Eq' : contents (list_delete d (dpc_list s)) tt = l)
        by (rewrite delete_contents by done; fold (queued s); rewrite Eq; by apply remove_all_head).
      unfold queued in *. cbn -[Nat.mul]. rewrite Eq'. split; [|cbn [length]; lia].
      split; unfold queued; cbn; rewrite ?Eq'; eauto. { by apply delete_ok. }
  - apply Forall2_cons_inv_l in Hr as (c & rest' & Ed & Er & ->). unfold stored in Ed.
    exists true. eexists. split; [unfold getopt, bind; cbn; rewrite Ed; reflexivity|]. split.
    + split; cbn; eauto. exists rest'. split; [exact Er|]. by rewrite <- app_assoc.
    + unfold queued. cbn -[Nat.mul]. lia.
  - exists true. eexists. split; [reflexivity|]. apply NoDup_cons in Hn as [Hd Hn]. split.
    + split; cbn; eauto.
      * intros d'. fold (queued s). rewrite lookup_delete_is_Some, Hm. unfold queued. cbn. set_solver.
      * exists rest. split; [|done]. apply (stored_ext (dpcs s)); [|done]. intros d' Hd'. apply lookup_delete_ne. by intros ->.
    + unfold queued. cbn -[Nat.mul]. destruct (ev_signalled _); lia.
Qed.

Lemma runs_inv q s : runs q s -> dpc_inv q s.
Proof using LL.
  induction 1 as [l w Hl Hc|q s s' p f a flags r _ IH Hp H|q s s' b _ IH H].
  - split; unfold queued; cbn; rewrite ?Hc; try done; [constructor| |by exists []].
    intros d. rewrite lookup_empty, elem_of_nil. split; [by intros []|done].
  - by eapply dpc_queue_inv.
  - destruct (dpc_step_inv q s IH) as (b' & s1 & E & I & _). rewrite E in H. by injection H as <- <-.
Qed.

(** What it means for the thread to be blocked. *)
Lemma blocked_done q s : dpc_inv q s -> distance s = 0%nat -> at_ s = At_wait -> calls s = q /\ dpcs s = ∅.
Proof using.
  intros [_ _ Hm (rest & Hr & ->) _] Hd Ha. unfold distance in Hd. destruct (queued s) eqn:Eq; [|cbn in Hd; lia].
  rewrite Ha in *. cbn in Hr, Hm. apply Forall2_nil_inv_l in Hr as ->. rewrite app_nil_r. split; [done|].
  apply map_empty. intros d. apply eq_None_not_Some. rewrite Hm. set_solver.
Qed.

Lemma dpc_thread_run q s fuel : dpc_inv q s -> (distance s < fuel)%nat -> exists s', dpc_thread_routine fuel s = Some (tt, s') /\
  dpc_inv q s' /\ distance s' = 0%nat /\ at_ s' = At_wait.
Proof using LL.
  revert s. induction fuel as [|fuel IH]; intros s I Hf; [lia|]. cbn [dpc_thread_routine].
  destruct (dpc_step_inv q s I) as ([] & s1 & E & I1 & Hb); run E.
  - apply IH; [done|lia].
  - destruct Hb as (-> & Hd & Ha). by exists s.
Qed.

Lemma distance_bound q s : dpc_inv q s -> (distance s < 4 * length q + 4)%nat.
Proof using.
  intros [_ _ _ (rest & Hr & ->) _]. apply Forall2_length in Hr. rewrite length_app in Hr. rewrite length_app. unfold distance.
  destruct (at_ s); cbn in Hr; [destruct (ev_signalled _)|..]; lia.
Qed.
End runs.

(** ** The property *)

(** C10: Deferred calls are made exactly once, in the order they were queued.  In
    every state that some interleaving of [dpc_queue] and the thread reaches, the
    calls made are the first of those accepted and the thread does not touch
    freed memory; where it blocks, every accepted call has been made and all
    memory is freed; and left alone the thread gets there, within four steps a
    call and four. *)
Theorem dpc_spec {W} {EV : EventIface W} `{LO : ListOps nat unit} {LL : ListLaws nat unit} q (s : dpc_state W) : runs q s ->
  calls s `prefix_of` q /\
  (exists b s', dpc_thread_step s = Some (b, s') /\ (b = false -> s' = s /\ calls s = q /\ dpcs s = ∅)) /\
  exists s', dpc_thread_routine (4 * length q + 4) s = Some (tt, s') /\ dpc_thread_step s' = Some (false, s') /\ calls s' = q /\ dpcs s' = ∅.
Proof.
  intros R. apply runs_inv in R as I. split_and!.
  - destruct (di_calls _ _ I) as (rest & _ & ->). by exists rest.
  - destruct (dpc_step_inv q s I) as (b & s' & E & _ & Hb). exists b, s'. split; [done|]. intros ->.
    destruct Hb as (-> & Hd & Ha). split; [done|]. by apply blocked_done.
  - destruct (dpc_thread_run q s _ I (distance_bound q s I)) as (s' & E & I' & Hd & Ha). exists s'. split; [done|].
    split; [|by apply blocked_done].
    destruct (dpc_step_inv q s' I') as ([] & s2 & E2 & _ & Hb); [lia|]. by destruct Hb as (-> & _).
Qed.

(** Two calls are queued, a third by the first callback; the thread then has made all. *)
Definition demo_dpc : dpc_state (LO := ref_ops nat unit) bool := dpc_init (LO := ref_ops nat unit) ref_empty true.
Definition demo_queue (d : nat) (f : Z) : M (dpc_state (LO := ref_ops nat unit) bool) Z := dpc_queue (Some d) f 0 0.
Definition demo_steps : M (dpc_state (LO := ref_ops nat unit) bool) unit :=
  demo_queue 7 100 ;;; demo_queue 8 200 ;;; dpc_thread_step ;;; dpc_thread_step ;;; dpc_thread_step ;;; demo_queue 9 300 ;;; ret tt.

Lemma dpc_spec_witness : exists s s', demo_steps demo_dpc = Some (tt, s) /\ dpc_thread_routine 16 s = Some (tt, s') /\
  calls s' = [{| cb := 100; arg := 0 |}; {| cb := 200; arg := 0 |}; {| cb := 300; arg := 0 |}].
Proof.
  eexists. destruct (dpc_spec (LO := ref_ops nat unit) (LL := ref_laws nat unit)
    [{| cb := 100; arg := 0 |}; {| cb := 200; arg := 0 |}; {| cb := 300; arg := 0 |}]
    (match demo_steps demo_dpc with Some (_, s) => s | None => demo_dpc end)) as (_ & _ & s' & E & _ & Ec & _).
  - pose proof (run_init (LO := ref_ops nat unit) (LL := ref_laws nat unit) ref_empty true (ref_empty_ok _ _) eq_refl) as R.
    pose proof (fun d f q s s' => run_queue (LO := ref_ops nat unit) (LL := ref_laws nat unit) q s s' (Some d) f 0 0 0) as RQ.
    pose proof (fun q s s' => run_thread (LO := ref_ops nat unit) (LL := ref_laws nat unit) q s s' true) as RT.
    eapply (RQ 7%nat 100) in R; [|intros d [= <-]; reflexivity|reflexivity].
    eapply (RQ 8%nat 200) in R; [|intros d [= <-]; reflexivity|reflexivity].
    do 3 (eapply RT in R; [|reflexivity]).
    eapply (RQ 9%nat 300) in R; [|intros d [= <-]; reflexivity|reflexivity].
    exact R.
  - exists s'. split; [reflexivity|]. split; [exact E|exact Ec].
Defined.
