(* ===== verification/Tegrabl.v ===== *)
(** * The interface of the tegrabl error codes

    The boot loader applications and the t186 platform code report errors as
    [tegrabl_error_t] values that macros of the tegrabl headers build; those
    headers are not part of the repository.  [TegrablError] names the macros,
    [TegrablErrorLaws] what the code relies on: an error is not
    [TEGRABL_NO_ERROR], and remains an error when its module is set. *)

From S2P Require Import Prelude.

(** The reasons the code gives or asks for. *)
Inductive tegrabl_reason : Type :=
  | TEGRABL_ERR_INVALID | TEGRABL_ERR_NO_MEMORY | TEGRABL_ERR_INVALID_VERSION | TEGRABL_ERR_TIMEOUT
  | TEGRABL_ERR_LOCK_FAILED | TEGRABL_ERR_INVALID_STATE | TEGRABL_ERR_NOT_FOUND | TEGRABL_ERR_OTHER.

#[global] Instance tegrabl_reason_eq_dec : EqDecision tegrabl_reason.
Proof. solve_decision. Defined.

Definition TEGRABL_NO_ERROR : Z := 0.

Class TegrablError : Type := {
  TEGRABL_ERROR : tegrabl_reason -> Z -> Z;
  TEGRABL_ERROR_REASON : Z -> tegrabl_reason;
  SET_HIGHEST_MODULE : Z -> Z;
}.

Class TegrablErrorLaws {TE : TegrablError} : Prop := {
  error_nonzero : forall r a, TEGRABL_ERROR r a <> TEGRABL_NO_ERROR;
  module_nonzero : forall e, e <> TEGRABL_NO_ERROR -> SET_HIGHEST_MODULE e <> TEGRABL_NO_ERROR;
}.

(** An encoding to evaluate with: reason and detail in separate digits. *)
Definition reason_code (r : tegrabl_reason) : Z :=
  match r with
  | TEGRABL_ERR_INVALID => 1 | TEGRABL_ERR_NO_MEMORY => 2 | TEGRABL_ERR_INVALID_VERSION => 3 | TEGRABL_ERR_TIMEOUT => 4
  | TEGRABL_ERR_LOCK_FAILED => 5 | TEGRABL_ERR_INVALID_STATE => 6 | TEGRABL_ERR_NOT_FOUND => 7 | TEGRABL_ERR_OTHER => 8
  end.

Definition plain_errors : TegrablError := {|
  TEGRABL_ERROR := fun r a => reason_code r + 16 * Z.abs a;
  TEGRABL_ERROR_REASON := fun e => if e =? 7 then TEGRABL_ERR_NOT_FOUND else TEGRABL_ERR_OTHER;
  SET_HIGHEST_MODULE := fun e => e;
|}.

Lemma plain_errors_laws : TegrablErrorLaws (TE := plain_errors).
Proof. split; cbn; unfold TEGRABL_NO_ERROR; [intros []; cbn|]; lia. Qed.
