(* ===== verification/Sc7.v ===== *)
(** * Comparing the two SC7 images: platform/t186/storage_loader.c

    Before a ratchet fuse is burned, the loader reads the primary and the
    recovery image of the SC7 firmware in pieces of 8 KB and compares them.
    Partitions, block devices and the allocator are code of the tegrabl
    libraries: the class [Storage], with the laws [StorageLaws].  The state counts
    the calls of [tegrabl_malloc], the buffers that are live, and the calls of
    [tegrabl_partition_close]. *)

From S2P Require Import Prelude Tegrabl.
Local Open Scope lk_scope.

Definition IMAGE_CHUNK_SIZE : Z := 8 * 1024.

Inductive tegrabl_binary_type : Type := TEGRABL_BINARY_SC7_RESUME_FW | TEGRABL_BINARY_OTHER.

Record tegrabl_partition : Type := { block_device : Z; partition_info : option Z }.

(** [partition_info] is the start sector, when there is one. *)
Class Storage : Type := {
  partition_open : string -> Z * tegrabl_partition;
  block_size_log2 : Z -> Z;
  read_block : Z -> Z -> Z -> Z * list Z;
  malloc_ok : nat -> bool;
  ROUND_UP_POW2 : Z -> Z -> Z;
  DIV_CEIL_LOG2 : Z -> Z -> Z;
  sizeof_wb0_header : Z;
  LengthInsecure : list Z -> Z;
}.

Class StorageLaws {ST : Storage} : Prop := {
  block_sizes : forall d, 0 <= block_size_log2 d <= 13;
  read_length : forall d start num data, read_block d start num = (TEGRABL_NO_ERROR, data) ->
    Z.of_nat (length data) = num * 2 ^ block_size_log2 d;
  round_up : forall n k, 0 <= n -> 0 <= k -> ROUND_UP_POW2 n (2 ^ k) = 2 ^ k * ((n + (2 ^ k - 1)) / 2 ^ k);
  div_ceil : forall n k, 0 <= n -> 0 <= k -> DIV_CEIL_LOG2 n k = (n + (2 ^ k - 1)) / 2 ^ k;
  header_size : 0 < sizeof_wb0_header < 2 ^ 16;
  length_range : forall h, 0 <= LengthInsecure h < 2 ^ 32;
}.

Record loader : Type := { mallocs : nat; live : Z; closes : nat }.

Definition tegrabl_malloc `{Storage} : M loader bool :=
  let* s := gets id in
  if malloc_ok (mallocs s) then
    modify (fun s => {| mallocs := S (mallocs s); live := live s + 1; closes := closes s |}) ;;; ret true
  else modify (fun s => {| mallocs := S (mallocs s); live := live s; closes := closes s |}) ;;; ret false.
Definition tegrabl_free : M loader unit :=
  modify (fun s => {| mallocs := mallocs s; live := live s - 1; closes := closes s |}).
Definition tegrabl_partition_close : M loader unit :=
  modify (fun s => {| mallocs := mallocs s; live := live s; closes := S (closes s) |}).

(** The bytes of a buffer of zeros of [size] bytes after [data] is read into it;
    [None] when the data is longer. *)
Definition buffer (size : Z) (data : list Z) : option (list Z) :=
  if Z.of_nat (length data) <=? size then Some (data ++ replicate (Z.to_nat (size - Z.of_nat (length data))) 0) else None.

Section loader.
Context {TE : TegrablError} {ST : Storage}.

(** Returns the error and the size that was found, if one was. *)
Definition tegrabl_storage_get_bin_size (bin_type : tegrabl_binary_type) (partition : tegrabl_partition) : M loader (Z * option Z) :=
  match bin_type with
  | TEGRABL_BINARY_SC7_RESUME_FW =>
      match partition_info partition with
      | None => ret (TEGRABL_ERROR TEGRABL_ERR_INVALID 3, None)
      | Some start_block =>
          let block_dev := block_device partition in
          let bits := block_size_log2 block_dev in
          let load_size := u32 (ROUND_UP_POW2 sizeof_wb0_header (Z.shiftl 1 bits)) in
          let num_blocks := u32 (DIV_CEIL_LOG2 load_size bits) in
          let* ok := tegrabl_malloc in
          if negb ok then ret (TEGRABL_ERROR TEGRABL_ERR_NO_MEMORY 1, None)
          else
            let (err, data) := read_block block_dev start_block num_blocks in
            if negb (err =? TEGRABL_NO_ERROR) then tegrabl_free ;;; ret (err, None)
            else
              let* b := getopt (fun _ => buffer load_size data) in
              tegrabl_free ;;; ret (TEGRABL_NO_ERROR, Some (LengthInsecure b))
      end
  | TEGRABL_BINARY_OTHER => ret (TEGRABL_NO_ERROR, None)
  end.

(** The comparing loop, with the flag it returns through [are_bins_same]. *)
Fixpoint compare_loop (fuel : nat) (dev1 start1 dev2 start2 bits already_read_num_blocks remaining_size : Z) (same : bool)
    : M loader (Z * bool) :=
  match fuel with
  | O => panic
  | S fuel' =>
      if negb (0 <? remaining_size) then ret (TEGRABL_NO_ERROR, same)
      else
        let num_blocks := u32 (DIV_CEIL_LOG2 IMAGE_CHUNK_SIZE bits) in
        let (err, data1) := read_block dev1 (u32 (start1 + already_read_num_blocks)) num_blocks in
        if negb (err =? TEGRABL_NO_ERROR) then ret (err, same)
        else
          let* primary := getopt (fun _ => buffer IMAGE_CHUNK_SIZE data1) in
          let (err, data2) := read_block dev2 (u32 (start2 + already_read_num_blocks)) num_blocks in
          if negb (err =? TEGRABL_NO_ERROR) then ret (err, same)
          else
            let* recovery := getopt (fun _ => buffer IMAGE_CHUNK_SIZE data2) in
            if bool_decide (primary = recovery) then
              compare_loop fuel' dev1 start1 dev2 start2 bits num_blocks (s32 (remaining_size - IMAGE_CHUNK_SIZE)) true
            else ret (TEGRABL_NO_ERROR, false)
  end.

(** The part that holds the two buffers. *)
Definition compare_images (p1 p2 : tegrabl_partition) (size : Z) (same : bool) : M loader (Z * bool) :=
  let* ok1 := tegrabl_malloc in
  if negb ok1 then ret (TEGRABL_ERROR TEGRABL_ERR_NO_MEMORY 0, same)
  else
    let* ok2 := tegrabl_malloc in
    if negb ok2 then tegrabl_free ;;; ret (TEGRABL_ERROR TEGRABL_ERR_NO_MEMORY 1, same)
    else
      let* start1 := getopt (fun _ => partition_info p1) in
      let* start2 := getopt (fun _ => partition_info p2) in
      let* r := compare_loop (S (S (Z.to_nat (size / IMAGE_CHUNK_SIZE)))) (block_device p1) start1 (block_device p2) start2
        (block_size_log2 (block_device p1)) 0 (s32 size) same in
      tegrabl_free ;;; tegrabl_free ;;; ret r.

Definition sizes_and_images (same : bool) : M loader (Z * bool) :=
  let (err, p1) := partition_open "sc7" in
  if negb (err =? TEGRABL_NO_ERROR) then ret (err, same)
  else
    let* (err, size1) := tegrabl_storage_get_bin_size TEGRABL_BINARY_SC7_RESUME_FW p1 in
    if negb (err =? TEGRABL_NO_ERROR) then ret (err, same)
    else
      let (err, p2) := partition_open "sc7_b" in
      if negb (err =? TEGRABL_NO_ERROR) then ret (err, same)
      else
        let* (err, size2) := tegrabl_storage_get_bin_size TEGRABL_BINARY_SC7_RESUME_FW p2 in
        if negb (err =? TEGRABL_NO_ERROR) then ret (err, same)
        else
          let* size1 := getopt (fun _ => size1) in
          let* size2 := getopt (fun _ => size2) in
          if negb (size1 =? size2) then ret (TEGRABL_ERROR TEGRABL_ERR_INVALID 1, same)
          else compare_images p1 p2 size1 same.

(** [same]: the value the caller's flag has before. *)
Definition load_and_compare_sc7_images (same : bool) : M loader (Z * bool) :=
  let* r := sizes_and_images same in
  tegrabl_partition_close ;;; tegrabl_partition_close ;;; ret r.
End loader.

(** ** What the comparison finds *)

Section spec.
Context {TE : TegrablError} {TL : TegrablErrorLaws} {ST : Storage} {SL : StorageLaws}.

(** The size the header of a partition gives, when it can be read. *)
Definition bin_size (p : tegrabl_partition) : option Z :=
  st ← partition_info p;
  let bits := block_size_log2 (block_device p) in
  let load_size := u32 (ROUND_UP_POW2 sizeof_wb0_header (Z.shiftl 1 bits)) in
  let (err, data) := read_block (block_device p) st (u32 (DIV_CEIL_LOG2 load_size bits)) in
  if err =? TEGRABL_NO_ERROR then LengthInsecure <$> buffer load_size data else None.

(** The number of blocks of a piece, and the piece of a partition that starts
    [off] blocks behind its start. *)
Definition piece_blocks (p : tegrabl_partition) : Z := 2 ^ (13 - block_size_log2 (block_device p)).
Definition piece (p : tegrabl_partition) (n off : Z) : option (list Z) :=
  st ← partition_info p;
  let (err, data) := read_block (block_device p) (u32 (st + off)) n in
  if err =? TEGRABL_NO_ERROR then Some data else None.

Lemma buffer_Some size data : Z.of_nat (length data) = size -> buffer size data = Some data.
Proof using.
  intros H. unfold buffer. destruct (Z.leb_spec (Z.of_nat (length data)) size); [|lia].
  replace (size - Z.of_nat (length data)) with 0 by lia. by rewrite app_nil_r.
Qed.

Lemma chunk_blocks bits : 0 <= bits <= 13 -> u32 (DIV_CEIL_LOG2 IMAGE_CHUNK_SIZE bits) = 2 ^ (13 - bits) /\ 2 ^ (13 - bits) * 2 ^ bits = IMAGE_CHUNK_SIZE.
Proof using SL.
  intros Hb. unfold IMAGE_CHUNK_SIZE. assert (E : 2 ^ (13 - bits) * 2 ^ bits = 8192) by (rewrite <- Z.pow_add_r by lia; by replace (13 - bits + bits) with 13 by lia).
  split; [|done]. assert (0 < 2 ^ bits) by (apply Z.pow_pos_nonneg; lia). assert (2 ^ (13 - bits) <= 2 ^ 13) by (apply Z.pow_le_mono_r; lia).
  rewrite div_ceil by lia. replace (8 * 1024) with (2 ^ (13 - bits) * 2 ^ bits) by lia.
  rewrite Z.div_add_l, (Z.div_small (2 ^ bits - 1)), Z.add_0_r by lia. apply u32_small. lia.
Qed.

Lemma header_blocks bits : 0 <= bits <= 13 -> let load_size := u32 (ROUND_UP_POW2 sizeof_wb0_header (Z.shiftl 1 bits)) in
  u32 (DIV_CEIL_LOG2 load_size bits) * 2 ^ bits = load_size.
Proof using SL.
  intros Hb load_size. pose proof header_size as Hh. assert (0 < 2 ^ bits) by (apply Z.pow_pos_nonneg; lia).
  assert (2 ^ bits <= 2 ^ 13) by (apply Z.pow_le_mono_r; lia).
  set (m := (sizeof_wb0_header + (2 ^ bits - 1)) / 2 ^ bits).
  assert (Hm : 2 ^ bits * m <= sizeof_wb0_header + (2 ^ bits - 1)) by (apply Z.mul_div_le; lia). assert (0 <= m) by (apply Z.div_pos; lia).
  assert (El : load_size = m * 2 ^ bits) by (unfold load_size; rewrite Z.shiftl_1_l, round_up by lia; fold m; rewrite u32_small by lia; lia).
  rewrite El, div_ceil by nia. rewrite Z.div_add_l, (Z.div_small (2 ^ bits - 1)), Z.add_0_r by lia. by rewrite u32_small by nia.
Qed.

(** [quiet s s']: the same buffers are live. *)
Definition quiet (s s' : loader) : Prop := live s' = live s /\ closes s' = closes s.

Lemma get_bin_size_run p s : exists err o s', tegrabl_storage_get_bin_size TEGRABL_BINARY_SC7_RESUME_FW p s = Some ((err, o), s') /\ quiet s s' /\
  (err = TEGRABL_NO_ERROR -> exists z, o = Some z /\ bin_size p = Some z /\ 0 <= z < 2 ^ 32) /\
  ((forall n, malloc_ok n = true) -> is_Some (bin_size p) -> err = TEGRABL_NO_ERROR).
Proof using TL SL.
  unfold tegrabl_storage_get_bin_size, bin_size. destruct (partition_info p) as [st|]; cbn [mbind option_bind].
  2: { eexists _, _, s. split; [reflexivity|]. split; [done|]. split; [by intros ?%error_nonzero|by intros _ []]. }
  set (bits := block_size_log2 (block_device p)). pose proof (header_blocks bits (block_sizes _)) as Hload. cbv zeta in Hload.
  set (load_size := u32 (ROUND_UP_POW2 sizeof_wb0_header (Z.shiftl 1 bits))) in *. unfold bind, tegrabl_malloc, gets, modify, ret, id. cbn.
  destruct (malloc_ok (mallocs s)) eqn:Em; cbn.
  2: { eexists _, _, _. split; [reflexivity|]. split; [by split; cbn; lia|]. split; [by intros ?%error_nonzero|intros Hall; by rewrite Hall in Em]. }
  destruct (read_block _ _ _) as [err data] eqn:Er. destruct (Z.eqb_spec err TEGRABL_NO_ERROR) as [->|Hne]; cbn.
  - pose proof (read_length _ _ _ _ Er) as Hl. fold bits in Hl. rewrite Hload in Hl. unfold getopt. rewrite (buffer_Some _ _ Hl). cbn.
    eexists _, _, _. split; [reflexivity|]. split; [by split; cbn; lia|]. split; [|done].
    intros _. eexists. split_and!; [done|done|apply length_range..].
  - eexists _, _, _. split; [reflexivity|]. split; [by split; cbn; lia|]. split; [done|by intros _ []].
Qed.

Section images.
Variables (p1 p2 : tegrabl_partition) (st1 st2 : Z).
Hypotheses (Hst1 : partition_info p1 = Some st1) (Hst2 : partition_info p2 = Some st2)
  (Hbits : block_size_log2 (block_device p1) = block_size_log2 (block_device p2)).

Abbreviation n := (piece_blocks p1).
Definition pieces_equal (off : Z) : bool := bool_decide (piece p1 n off = piece p2 n off).

(** The loop from offset [off]: the piece there, and one more at [n]. *)
Lemma compare_loop_run fuel off r same s : r <= Z.of_nat fuel * IMAGE_CHUNK_SIZE -> - 2 ^ 31 <= r < 2 ^ 31 -> exists err b,
  compare_loop (S fuel) (block_device p1) st1 (block_device p2) st2 (block_size_log2 (block_device p1)) off r same s = Some ((err, b), s) /\
  (err = TEGRABL_NO_ERROR -> b = if 0 <? r then pieces_equal off && ((r <=? IMAGE_CHUNK_SIZE) || pieces_equal n) else same) /\
  ((forall o, is_Some (piece p1 n o) /\ is_Some (piece p2 n o)) -> err = TEGRABL_NO_ERROR).
Proof using Hst1 Hst2 Hbits SL.
  destruct (chunk_blocks (block_size_log2 (block_device p1)) (block_sizes _)) as [En Em]. fold (piece_blocks p1) in En, Em.
  revert off r same. induction fuel as [|fuel IH]; intros off r same Hf Hr; [|remember (S fuel) as f eqn:Ef];
    cbn [compare_loop]; (destruct (Z.ltb_spec 0 r) as [Hpos|Hpos]; cbn [negb]; [|by eexists _, _]); [unfold IMAGE_CHUNK_SIZE in *; lia|]. rewrite En.
  unfold pieces_equal, piece. rewrite Hst1, Hst2. cbn [mbind option_bind].
  destruct (read_block (block_device p1) (u32 (st1 + off)) _) as [e1 d1] eqn:E1.
  destruct (Z.eqb_spec e1 TEGRABL_NO_ERROR) as [->|Hne1]; cbn [negb].
  2: { exists e1, same. split_and!; [done..|]. intros Hall. destruct (Hall off) as [[x Hx] _].
       rewrite E1 in Hx. apply Z.eqb_neq in Hne1. by rewrite Hne1 in Hx. }
  pose proof (read_length _ _ _ _ E1) as L1. rewrite Em in L1. unfold getopt. unfold bind at 1. rewrite (buffer_Some _ _ L1). cbn [fmap option_fmap option_map].
  destruct (read_block (block_device p2) (u32 (st2 + off)) _) as [e2 d2] eqn:E2.
  destruct (Z.eqb_spec e2 TEGRABL_NO_ERROR) as [->|Hne2]; cbn [negb].
  2: { exists e2, same. split_and!; [done..|]. intros Hall. destruct (Hall off) as [_ [x Hx]].
       rewrite E2 in Hx. apply Z.eqb_neq in Hne2. by rewrite Hne2 in Hx. }
  pose proof (read_length _ _ _ _ E2) as L2. rewrite <- Hbits, Em in L2. unfold bind at 1. rewrite (buffer_Some _ _ L2). cbn [fmap option_fmap option_map].
  destruct (decide (d1 = d2)) as [->|Hd].
  2: { rewrite !bool_decide_eq_false_2 by congruence. by exists TEGRABL_NO_ERROR, false. }
  rewrite !bool_decide_eq_true_2 by done. cbn [andb]. unfold IMAGE_CHUNK_SIZE in *. rewrite s32_small by lia.
  destruct (IH n (r - 8 * 1024) true) as (err & b & E & Hb & He); [lia|lia|].
  exists err, b. split; [exact E|]. split.
  - intros H0. rewrite (Hb H0). unfold pieces_equal, piece. rewrite Hst1, Hst2. cbn [mbind option_bind].
    destruct (Z.ltb_spec 0 (r - 8 * 1024)), (Z.leb_spec r (8 * 1024)); try lia; try done.
    cbn [orb]. destruct (bool_decide _); [by rewrite orb_true_r|done].
  - intros Hall. apply He. intros o. specialize (Hall o). unfold piece in *. by rewrite Hst1, Hst2 in *.
Qed.
End images.

Lemma compare_images_run p1 p2 size same s : is_Some (partition_info p1) -> is_Some (partition_info p2) ->
  block_size_log2 (block_device p1) = block_size_log2 (block_device p2) -> 0 <= size < 2 ^ 32 -> exists err b s',
  compare_images p1 p2 size same s = Some ((err, b), s') /\ quiet s s' /\
  (err = TEGRABL_NO_ERROR -> b = if 0 <? s32 size then pieces_equal p1 p2 0 && ((s32 size <=? IMAGE_CHUNK_SIZE) || pieces_equal p1 p2 (piece_blocks p1)) else same) /\
  ((forall n, malloc_ok n = true) -> (forall o, is_Some (piece p1 (piece_blocks p1) o) /\ is_Some (piece p2 (piece_blocks p1) o)) -> err = TEGRABL_NO_ERROR).
Proof using TL SL.
  intros [st1 E1] [st2 E2] Hbits Hsize. unfold compare_images, tegrabl_malloc, bind, gets, modify, ret, id, getopt. cbn -[compare_loop].
  destruct (malloc_ok (mallocs s)) eqn:Em1; cbn -[compare_loop].
  2: { eexists _, _, _. split; [reflexivity|]. split; [by split; cbn; lia|]. split; [by intros ?%error_nonzero|intros Hall; by rewrite Hall in Em1]. }
  destruct (malloc_ok (S (mallocs s))) eqn:Em2; cbn -[compare_loop].
  2: { eexists _, _, _. split; [reflexivity|]. split; [by split; cbn; lia|]. split; [by intros ?%error_nonzero|intros Hall; by rewrite Hall in Em2]. }
  rewrite E1, E2. cbn -[compare_loop].
  assert (Hs : s32 size <= size /\ - 2 ^ 31 <= s32 size < 2 ^ 31) by (split; [|apply (sgn_range 32); lia]; unfold s32, sgn; rewrite Z.mod_small by lia; destruct (_ <? _); lia).
  set (s2 := {| mallocs := _; live := _; closes := _ |}).
  destruct (compare_loop_run p1 p2 st1 st2 E1 E2 Hbits (S (Z.to_nat (size / IMAGE_CHUNK_SIZE))) 0 (s32 size) same s2) as (err & b & E & Hb & He).
  { pose proof (Z.mod_pos_bound size IMAGE_CHUNK_SIZE eq_refl). pose proof (Z.div_mod size IMAGE_CHUNK_SIZE ltac:(done)).
    assert (0 <= size / IMAGE_CHUNK_SIZE) by (apply Z.div_pos; [lia|done]). unfold IMAGE_CHUNK_SIZE in *. lia. }
  { lia. }
  rewrite E. cbn. eexists _, _, _. split; [reflexivity|]. split; [by split; cbn; lia|]. split; [done|]. intros _. exact He.
Qed.

(** The verdict on two partitions with images of [size] bytes. *)
Definition sc7_verdict (p1 p2 : tegrabl_partition) (size : Z) (same : bool) : bool :=
  if 0 <? s32 size then pieces_equal p1 p2 0 && ((s32 size <=? IMAGE_CHUNK_SIZE) || pieces_equal p1 p2 (piece_blocks p1)) else same.

Lemma sizes_and_images_run same s e1 p1 e2 p2 : partition_open "sc7" = (e1, p1) -> partition_open "sc7_b" = (e2, p2) ->
  block_size_log2 (block_device p1) = block_size_log2 (block_device p2) ->
  exists err b s', sizes_and_images same s = Some ((err, b), s') /\ quiet s s' /\
    (err = TEGRABL_NO_ERROR -> exists size, bin_size p1 = Some size /\ bin_size p2 = Some size /\ b = sc7_verdict p1 p2 size same) /\
    (e1 = TEGRABL_NO_ERROR -> e2 = TEGRABL_NO_ERROR -> is_Some (bin_size p1) -> bin_size p2 = bin_size p1 ->
     (forall n, malloc_ok n = true) -> (forall o, is_Some (piece p1 (piece_blocks p1) o) /\ is_Some (piece p2 (piece_blocks p1) o)) ->
     err = TEGRABL_NO_ERROR).
Proof using TL SL.
  intros O1 O2 Hbits.
  unfold sizes_and_images. rewrite O1, O2. destruct (Z.eqb_spec e1 TEGRABL_NO_ERROR) as [->|H1]; cbn [negb]; [|by exists e1, same, s].
  destruct (get_bin_size_run p1 s) as (err1 & o1 & s1 & E1 & [Q1 Q1'] & S1 & T1). run E1.
  destruct (Z.eqb_spec err1 TEGRABL_NO_ERROR) as [->|H1]; cbn [negb]; [|exists err1, same, s1; split_and!; try done; intros; by destruct H1; auto].
  destruct (Z.eqb_spec e2 TEGRABL_NO_ERROR) as [->|H2]; cbn [negb]; [|by exists e2, same, s1].
  destruct (get_bin_size_run p2 s1) as (err2 & o2 & s2 & E2 & [Q2 Q2'] & S2 & T2). run E2.
  destruct (Z.eqb_spec err2 TEGRABL_NO_ERROR) as [->|H2]; cbn [negb].
  2: { exists err2, same, s2. split_and!; try done; [split; congruence|]. intros _ _ ? Eb ? ?. destruct H2. apply T2; [done|by rewrite Eb]. }
  destruct (S1 eq_refl) as (z1 & -> & B1 & Hz1), (S2 eq_refl) as (z2 & -> & B2 & Hz2). unfold getopt. unfold bind at 1. cbn beta iota. unfold bind at 1. cbn beta iota.
  destruct (Z.eqb_spec z1 z2) as [->|Hz]; cbn [negb].
  2: { eexists _, same, s2. split; [reflexivity|]. split; [split; congruence|]. split; [by intros ?%error_nonzero|]. congruence. }
  assert (I1 : is_Some (partition_info p1)) by (unfold bin_size in B1; destruct (partition_info p1); [by eexists|done]).
  assert (I2 : is_Some (partition_info p2)) by (unfold bin_size in B2; destruct (partition_info p2); [by eexists|done]).
  destruct (compare_images_run p1 p2 z2 same s2 I1 I2 Hbits Hz2) as (err & b & s3 & E3 & [Q3 Q3'] & S3 & T3). exists err, b, s3.
  split; [exact E3|]. split; [split; congruence|]. split; [|by auto]. intros H0. exists z2. split_and!; [done|done|]. by apply S3.
Qed.

Lemma load_and_compare_run same s err b s' : sizes_and_images same s = Some ((err, b), s') ->
  load_and_compare_sc7_images same s = Some ((err, b), {| mallocs := mallocs s'; live := live s'; closes := S (S (closes s')) |}).
Proof using. intros E. unfold load_and_compare_sc7_images. by run E. Qed.
End spec.

(** C22: What the comparison of the SC7 images looks at.  It always returns, frees
    its buffers and closes both partitions.  Where it reports success, both
    headers were read and gave the same size, and the flag says whether the images
    agree in their first piece of 8 KB and, if they are longer than that, in their
    second: no later piece is ever read.  (An image of no or of 2 GB and more
    bytes leaves the flag as it was.)  It reports success whenever the partitions,
    the memory and all pieces are there and the sizes agree. *)
Theorem load_and_compare_sc7_spec {TE : TegrablError} {TL : TegrablErrorLaws} {ST : Storage} {SL : StorageLaws} same s :
  let (e1, p1) := partition_open "sc7" in
  let (e2, p2) := partition_open "sc7_b" in
  block_size_log2 (block_device p1) = block_size_log2 (block_device p2) ->
  exists err b s', load_and_compare_sc7_images same s = Some ((err, b), s') /\ live s' = live s /\ closes s' = S (S (closes s)) /\
    (err = TEGRABL_NO_ERROR -> exists size, bin_size p1 = Some size /\ bin_size p2 = Some size /\ b = sc7_verdict p1 p2 size same) /\
    (e1 = TEGRABL_NO_ERROR -> e2 = TEGRABL_NO_ERROR -> is_Some (bin_size p1) -> bin_size p2 = bin_size p1 ->
     (forall n, malloc_ok n = true) -> (forall o, is_Some (piece p1 (piece_blocks p1) o) /\ is_Some (piece p2 (piece_blocks p1) o)) ->
     err = TEGRABL_NO_ERROR).
Proof.
  destruct (partition_open "sc7") as [e1 p1] eqn:O1, (partition_open "sc7_b") as [e2 p2] eqn:O2. intros Hbits.
  destruct (sizes_and_images_run same s _ _ _ _ O1 O2 Hbits) as (err & b & s' & E & [Hl Hc] & Hrest).
  exists err, b. eexists. split; [by apply load_and_compare_run|]. split; [done|]. split; [cbn; lia|done].
Qed.

(** A store with blocks of 8 KB and two images of three blocks, at 100 and 200,
    that differ in their last block. *)
Definition demo_storage : Storage := {|
  partition_open := fun name => (0, {| block_device := 1; partition_info := Some (if String.eqb name "sc7" then 100 else 200) |});
  block_size_log2 := fun _ => 13;
  read_block := fun _ start num => if num <? 0 then (1, []) else (0, replicate (Z.to_nat (num * 8192)) (if start =? 202 then 7 else 5));
  malloc_ok := fun _ => true;
  ROUND_UP_POW2 := fun n p => p * ((n + (p - 1)) / p);
  DIV_CEIL_LOG2 := fun n k => (n + (2 ^ k - 1)) / 2 ^ k;
  sizeof_wb0_header := 512;
  LengthInsecure := fun _ => 3 * 8192;
|}.

Lemma demo_storage_laws : StorageLaws (ST := demo_storage).
Proof.
  split; cbn; try done; try lia. intros _ start num data. destruct (Z.ltb_spec num 0); [done|]. intros [= <-].
  rewrite length_replicate. lia.
Qed.

Lemma load_and_compare_sc7_spec_witness : exists s',
  load_and_compare_sc7_images (TE := plain_errors) (ST := demo_storage) false {| mallocs := 0; live := 0; closes := 0 |} = Some ((0, true), s') /\
  nth 0 (snd (read_block (Storage := demo_storage) 1 102 1)) 0 <> nth 0 (snd (read_block (Storage := demo_storage) 1 202 1)) 0.
Proof.
  destruct (load_and_compare_sc7_spec (TL := plain_errors_laws) (SL := demo_storage_laws) false {| mallocs := 0; live := 0; closes := 0 |} eq_refl)
    as (err & b & s' & E & _ & _ & Hv & He).
  assert (err = 0) as -> by (apply He; [done|done|by eexists|done|done|intros o; split; by eexists]).
  destruct (Hv eq_refl) as (size & [= <-] & _ & ->). exists s'. split; [|vm_compute; discriminate]. rewrite E. by do 3 f_equal.
Defined.
