(* ===== verification/Ratchet.v ===== *)
(** * Ratchet fuses: platform/t186/ratchet_update.c

    At boot the version that the running firmware left in scratch registers is
    burned into the fuse word FUSE_HYPERVOLTAGING, so that older firmware is
    refused from then on.  Versions are thermometer encoded: 0, 1, 3, 7 and so on.
    The fuse driver and the registers are outside of the repository: the class
    [Fuses], with the law that a fuse bit, once set, stays set.  The comparison of
    the SC7 images is that of [Sc7]; messages are left out. *)

From S2P Require Import Prelude Cbuf Tegrabl Sc7.
Local Open Scope lk_scope.

Class Fuses : Type := {
  odm_info : Z * Z;
  hyper_read_error : nat -> Z;
  burn : nat -> Z -> Z -> Z * Z;
  scratch_rsv54 : Z;
  scratch_rsv52 : Z;
  mts_scr : Z;
}.

(** [burn k f v]: the error and the new word when the [k]-th access writes [v]
    to fuses that hold [f]. *)
Class FusesLaws {FU : Fuses} : Prop := {
  burn_ok : forall k f v f', 0 <= v < 2 ^ 32 -> burn k f v = (TEGRABL_NO_ERROR, f') -> f' = Z.lor f v;
  burn_keeps : forall k f v, 0 <= f < 2 ^ 32 -> 0 <= v < 2 ^ 32 -> Z.land f (snd (burn k f v)) = f /\ 0 <= snd (burn k f v) < 2 ^ 32;
  regs_range : 0 <= scratch_rsv54 < 2 ^ 32 /\ 0 <= scratch_rsv52 < 2 ^ 32 /\ 0 <= mts_scr < 2 ^ 32;
}.

(** The fuse word, the number of accesses and the words written. *)
Record board : Type := { hyper : Z; accesses : nat; writes : list Z; sc7 : loader }.

Definition DPMU_BIT_WR : Z := 14.
Definition OPT_IN_FUSE_MASK : Z := Z.shiftl 1 14.
Definition MB1_FIELD_RATCHET_BIT_LENGTH : Z := 16.
Definition MB1_FIELD_RATCHET_FUSE_SHIFT : Z := 0.
Definition MB1_FIELD_RATCHET_MASK : Z := u32 (Z.shiftl (Z.shiftl 1 MB1_FIELD_RATCHET_BIT_LENGTH - 1) MB1_FIELD_RATCHET_FUSE_SHIFT).
Definition SC7_FIELD_RATCHET_BIT_LENGTH : Z := 16.
Definition SC7_FIELD_RATCHET_FUSE_SHIFT : Z := 16.
Definition SC7_FIELD_RATCHET_MASK : Z := u32 (Z.shiftl (Z.shiftl 1 SC7_FIELD_RATCHET_BIT_LENGTH - 1) SC7_FIELD_RATCHET_FUSE_SHIFT).
Definition MTS_FIELD_RATCHET_BIT_LENGTH : Z := 8.
Definition MTS_FIELD_RATCHET_FUSE_SHIFT : Z := 24.
Definition MTS_FIELD_RATCHET_FUSE_REDUNDANT_SHIFT : Z := 16.
Definition MTS_FIELD_RATCHET_MASK : Z :=
  u32 (Z.lor (Z.shiftl (Z.shiftl 1 MTS_FIELD_RATCHET_BIT_LENGTH - 1) MTS_FIELD_RATCHET_FUSE_SHIFT)
             (Z.shiftl (Z.shiftl 1 MTS_FIELD_RATCHET_BIT_LENGTH - 1) MTS_FIELD_RATCHET_FUSE_REDUNDANT_SHIFT)).

Section ratchet.
Context {TE : TegrablError} {ST : Storage} {FU : Fuses}.

Definition tegrabl_fuse_read : M board (Z * Z) :=
  let* b := gets id in
  modify (fun b => {| hyper := hyper b; accesses := S (accesses b); writes := writes b; sc7 := sc7 b |}) ;;;
  ret (hyper_read_error (accesses b), hyper b).
Definition tegrabl_fuse_write (v : Z) : M board Z :=
  let* b := gets id in
  let (err, f) := burn (accesses b) (hyper b) v in
  modify (fun b => {| hyper := f; accesses := S (accesses b); writes := writes b ++ [v]; sc7 := sc7 b |}) ;;;
  ret err.

(** A computation of the loader on the board. *)
Definition on_loader {A} (c : M loader A) : M board A := fun b =>
  match c (sc7 b) with
  | Some (a, l) => Some (a, {| hyper := hyper b; accesses := accesses b; writes := writes b; sc7 := l |})
  | None => None
  end.

Definition sanity_check_ratchet_version (oem_sw_ratchet_ver ratchet_bit_len : Z) : Z :=
  let max_ver := u32 (Z.shiftl 1 ratchet_bit_len - 1) in
  if max_ver <? oem_sw_ratchet_ver then TEGRABL_ERROR TEGRABL_ERR_INVALID 0
  else if negb (Z.land oem_sw_ratchet_ver (u32 (oem_sw_ratchet_ver + 1)) =? 0) then TEGRABL_ERROR TEGRABL_ERR_INVALID 1
  else TEGRABL_NO_ERROR.

(** The end of [update_mb1_ratchet_fuse]: the write. *)
Definition write_mb1 (mb1_oem_sw_ver current_fuse_val : Z) : M board Z :=
  let current_fuse_val := Z.land current_fuse_val (u32 (Z.lnot MB1_FIELD_RATCHET_MASK)) in
  tegrabl_fuse_write (Z.lor mb1_oem_sw_ver current_fuse_val).

Definition update_mb1_ratchet_fuse : M board Z :=
  let mb1_oem_sw_ver := Z.shiftr (Z.land scratch_rsv54 MB1_FIELD_RATCHET_MASK) MB1_FIELD_RATCHET_FUSE_SHIFT in
  let sc7_oem_sw_ver := Z.shiftr (Z.land scratch_rsv54 SC7_FIELD_RATCHET_MASK) SC7_FIELD_RATCHET_FUSE_SHIFT in
  let is_sc7_fw_present := negb (sc7_oem_sw_ver =? 0) in
  let err := sanity_check_ratchet_version mb1_oem_sw_ver MB1_FIELD_RATCHET_BIT_LENGTH in
  if negb (err =? TEGRABL_NO_ERROR) then ret err
  else if is_sc7_fw_present && negb (mb1_oem_sw_ver =? sc7_oem_sw_ver) then ret (TEGRABL_ERROR TEGRABL_ERR_INVALID_VERSION 0)
  else
    let* (err, val) := tegrabl_fuse_read in
    if negb (err =? TEGRABL_NO_ERROR) then ret err
    else
      let mb1_oem_hw_ver := Z.land (u32 (Z.shiftl val MB1_FIELD_RATCHET_FUSE_SHIFT)) MB1_FIELD_RATCHET_MASK in
      if mb1_oem_sw_ver <? mb1_oem_hw_ver then ret (TEGRABL_ERROR TEGRABL_ERR_INVALID 2)
      else if mb1_oem_sw_ver =? mb1_oem_hw_ver then ret TEGRABL_NO_ERROR
      else if is_sc7_fw_present then
        let* (err, are_sc7_bins_same) := on_loader (load_and_compare_sc7_images false) in
        if negb (err =? TEGRABL_NO_ERROR) then ret err
        else if negb are_sc7_bins_same then ret err
        else write_mb1 mb1_oem_sw_ver val
      else write_mb1 mb1_oem_sw_ver val.

Definition update_mts_ratchet_fuse : M board Z :=
  let mts_oem_sw_ver := scratch_rsv52 in
  if negb (Z.land (Z.lnot mts_scr) (Z.shiftl 1 DPMU_BIT_WR) =? 0) then ret (TEGRABL_ERROR TEGRABL_ERR_INVALID 3)
  else
    let err := sanity_check_ratchet_version mts_oem_sw_ver MTS_FIELD_RATCHET_BIT_LENGTH in
    if negb (err =? TEGRABL_NO_ERROR) then ret err
    else
      let* (err, current_fuse_val) := tegrabl_fuse_read in
      if negb (err =? TEGRABL_NO_ERROR) then ret err
      else
        let val := Z.shiftr current_fuse_val MTS_FIELD_RATCHET_FUSE_SHIFT in
        let mts_oem_hw_ver := Z.lor (Z.land val 255) (Z.land val 255) in
        if mts_oem_sw_ver <? mts_oem_hw_ver then ret (TEGRABL_ERROR TEGRABL_ERR_INVALID 4)
        else if mts_oem_sw_ver =? mts_oem_hw_ver then ret TEGRABL_NO_ERROR
        else
          let mts_oem_sw_ver :=
            Z.land (Z.lor (u32 (Z.shiftl mts_oem_sw_ver MTS_FIELD_RATCHET_FUSE_SHIFT))
                          (u32 (Z.shiftl mts_oem_sw_ver MTS_FIELD_RATCHET_FUSE_REDUNDANT_SHIFT))) MTS_FIELD_RATCHET_MASK in
          let current_fuse_val := Z.land current_fuse_val (u32 (Z.lnot MTS_FIELD_RATCHET_MASK)) in
          tegrabl_fuse_write (Z.lor mts_oem_sw_ver current_fuse_val).

Definition update_ratchet_fuse : M board Z :=
  let (err, odm_fuse) := odm_info in
  if negb (err =? TEGRABL_NO_ERROR) then ret TEGRABL_NO_ERROR
  else if Z.land odm_fuse OPT_IN_FUSE_MASK =? 0 then ret TEGRABL_NO_ERROR
  else
    let* err := update_mb1_ratchet_fuse in
    if negb (err =? TEGRABL_NO_ERROR) then ret err
    else update_mts_ratchet_fuse.
End ratchet.

(** ** Bits of the fuse word *)

(** The three fields: MB1, and the two copies of MTS. *)
Definition mb1_field (f : Z) : Z := f mod 2 ^ 16.
Definition mts_field (f : Z) : Z := f / 2 ^ 24.
Definition mts_copy (f : Z) : Z := f / 2 ^ 16 mod 2 ^ 8.

(** 0, 1, 3, 7, ... *)
Definition thermometer (len v : Z) : Prop := exists k, 0 <= k <= len /\ v = 2 ^ k - 1.

Lemma thermometer_range len v : thermometer len v -> 0 <= v < 2 ^ len.
Proof. intros (k & Hk & ->). assert (0 < 2 ^ k <= 2 ^ len) by (split; [apply Z.pow_pos_nonneg|apply Z.pow_le_mono_r]; lia). lia. Qed.

Lemma lor_ones a k : 0 <= k -> 0 <= a < 2 ^ k -> Z.lor a (2 ^ k - 1) = 2 ^ k - 1.
Proof.
  intros Hk Ha. replace (2 ^ k - 1) with (Z.ones k) by (rewrite Z.ones_equiv; lia). apply Z.bits_inj'. intros i Hi. rewrite Z.lor_spec.
  destruct (Z.lt_ge_cases i k); [by rewrite Z.ones_spec_low, orb_true_r by lia|].
  rewrite Z.ones_spec_high, orb_false_r by lia. destruct (Z.eq_dec a 0) as [->|]; [apply Z.bits_0|].
  apply Z.bits_above_log2; [lia|]. apply Z.log2_lt_pow2; [lia|]. assert (2 ^ k <= 2 ^ i) by (apply Z.pow_le_mono_r; lia). lia.
Qed.

Lemma lor_thermometer a len v : thermometer len v -> 0 <= a < v -> Z.lor a v = v.
Proof. intros (k & Hk & ->) Ha. apply lor_ones; lia. Qed.

(** Burning a word whose other bits are those of the fuses. *)
Lemma lor_absorb f a m : Z.lor f (Z.lor a (Z.land f m)) = Z.lor f a.
Proof.
  apply Z.bits_inj'. intros i _. rewrite !Z.lor_spec, Z.land_spec. destruct (Z.testbit f i), (Z.testbit a i); done.
Qed.

Lemma lor_mod a b k : 0 <= k -> Z.lor a b mod 2 ^ k = Z.lor (a mod 2 ^ k) (b mod 2 ^ k).
Proof. intros Hk. rewrite <- !Z.land_ones by done. apply Z.land_lor_distr_l. Qed.

Lemma lor_div a b k : 0 <= k -> Z.lor a b / 2 ^ k = Z.lor (a / 2 ^ k) (b / 2 ^ k).
Proof. intros Hk. rewrite <- !Z.shiftr_div_pow2 by done. apply Z.shiftr_lor. Qed.

Lemma lor_range a b k : 0 <= k -> 0 <= a < 2 ^ k -> 0 <= b < 2 ^ k -> 0 <= Z.lor a b < 2 ^ k.
Proof.
  intros Hk Ha Hb. rewrite <- (Z.mod_small a (2 ^ k)), <- (Z.mod_small b (2 ^ k)), <- lor_mod by done. apply Z.mod_pos_bound. lia.
Qed.

Lemma land_range a m k : 0 <= k -> 0 <= a < 2 ^ k -> 0 <= Z.land a m < 2 ^ k.
Proof.
  intros Hk Ha. rewrite <- (Z.mod_small a (2 ^ k)), <- Z.land_ones, <- Z.land_assoc, (Z.land_comm (Z.ones k)), Z.land_assoc, Z.land_ones by done.
  apply Z.mod_pos_bound. lia.
Qed.

(** ** The two updates *)

Section updates.
Context {TE : TegrablError} {TL : TegrablErrorLaws} {ST : Storage} {SL : StorageLaws} {FU : Fuses} {FL : FusesLaws}.

Lemma sanity_ok v len : 0 < len <= 16 -> 0 <= v < 2 ^ 32 ->
  (sanity_check_ratchet_version v len = TEGRABL_NO_ERROR <-> thermometer len v).
Proof using TL.
  intros Hlen Hv. unfold sanity_check_ratchet_version, thermometer. rewrite Z.shiftl_1_l.
  assert (2 ^ len <= 2 ^ 16) by (apply Z.pow_le_mono_r; lia). assert (0 < 2 ^ len) by (apply Z.pow_pos_nonneg; lia). rewrite u32_small by lia.
  destruct (Z.ltb_spec (2 ^ len - 1) v) as [Hmax|Hmax].
  { split; [by intros ?%error_nonzero|]. intros ?%thermometer_range. lia. }
  assert (Ep : (Z.land v (u32 (v + 1)) =? 0) = ispow2 (v + 1))
    by (unfold ispow2; rewrite (u32_small (v + 1)), Z.add_simpl_r, (u32_small v) by lia; done).
  rewrite Ep. destruct (ispow2 (v + 1)) eqn:E; cbn [negb]; split; try done.
  - intros _. destruct (ispow2_inv (v + 1)) as (k & Hk & Ev); [lia|done|]. exists k. split; [|lia]. split; [lia|].
    apply (Z.pow_le_mono_r_iff 2); lia.
  - by intros ?%error_nonzero.
  - intros (k & Hk & ->). rewrite Z.sub_simpl_r, ispow2_pow in E by lia. done.
Qed.

(** [kept s s']: no fuse bit is lost. *)
Definition kept (s s' : board) : Prop := Z.land (hyper s) (hyper s') = hyper s /\ 0 <= hyper s' < 2 ^ 32.

(** Reading: either the error is returned, or the word. *)
Lemma fuse_read_run s : exists err s', tegrabl_fuse_read s = Some ((err, hyper s), s') /\ hyper s' = hyper s /\ writes s' = writes s.
Proof using. eexists _, _. split; [reflexivity|]. done. Qed.

Lemma fuse_write_run v s : 0 <= hyper s < 2 ^ 32 -> 0 <= v < 2 ^ 32 -> exists err s', tegrabl_fuse_write v s = Some (err, s') /\ kept s s' /\
  (err = TEGRABL_NO_ERROR -> hyper s' = Z.lor (hyper s) v).
Proof using FL.
  intros Hs Hv. unfold tegrabl_fuse_write. rewrite (bind_some (gets id) _ s s s eq_refl).
  destruct (burn (accesses s) (hyper s) v) as [err f] eqn:Eb. eexists _, _. split; [reflexivity|].
  pose proof (burn_keeps (accesses s) (hyper s) v Hs Hv) as Hk. rewrite Eb in Hk. split; [exact Hk|]. cbn. intros ->. by eapply (burn_ok (accesses s)).
Qed.

Definition mb1_sw : Z := mb1_field scratch_rsv54.
Definition sc7_sw : Z := scratch_rsv54 / 2 ^ 16.

Lemma mb1_masks v : 0 <= v < 2 ^ 32 -> Z.land v MB1_FIELD_RATCHET_MASK = mb1_field v /\
  Z.shiftr (Z.land v SC7_FIELD_RATCHET_MASK) SC7_FIELD_RATCHET_FUSE_SHIFT = v / 2 ^ 16.
Proof using.
  intros Hv. split; [exact (Z.land_ones v 16 ltac:(lia))|]. rewrite Z.shiftr_land. change (Z.shiftr SC7_FIELD_RATCHET_MASK _) with (Z.ones 16).
  unfold SC7_FIELD_RATCHET_FUSE_SHIFT. rewrite Z.land_ones, Z.shiftr_div_pow2 by lia. apply Z.mod_small.
  split; [apply Z.div_pos; lia|]. apply Z.div_lt_upper_bound; lia.
Qed.

Lemma write_mb1_run sw s : thermometer 16 sw -> 0 <= hyper s < 2 ^ 32 -> mb1_field (hyper s) < sw ->
  exists err s', write_mb1 sw (hyper s) s = Some (err, s') /\ kept s s' /\
    (err = TEGRABL_NO_ERROR -> mb1_field (hyper s') = sw /\ hyper s' / 2 ^ 16 = hyper s / 2 ^ 16).
Proof using FL.
  intros Ht Hs Hlt. unfold write_mb1.
  pose proof (thermometer_range _ _ Ht).
  destruct (fuse_write_run (Z.lor sw (Z.land (hyper s) (u32 (Z.lnot MB1_FIELD_RATCHET_MASK)))) s Hs) as (err & s' & E & K & Hok);
    [apply lor_range; [lia|lia|by apply land_range]|]. exists err, s'. split; [exact E|].
  split; [done|]. intros H0. rewrite (Hok H0), lor_absorb. unfold mb1_field in *. rewrite lor_mod, lor_div by lia.
  rewrite (Z.mod_small sw), (Z.div_small sw) by lia. split; [|apply Z.lor_0_r].
  apply (lor_thermometer _ 16); [done|]. pose proof (Z.mod_pos_bound (hyper s) (2 ^ 16)). lia.
Qed.

Hypothesis Hbits : block_size_log2 (block_device (snd (partition_open "sc7"))) = block_size_log2 (block_device (snd (partition_open "sc7_b"))).

Lemma on_loader_run s : exists err b s', on_loader (load_and_compare_sc7_images false) s = Some ((err, b), s') /\
  load_and_compare_sc7_images false (sc7 s) = Some ((err, b), sc7 s') /\ hyper s' = hyper s /\ writes s' = writes s.
Proof using Hbits TL SL.
  destruct (partition_open "sc7") as [e1 p1] eqn:O1, (partition_open "sc7_b") as [e2 p2] eqn:O2. cbn in Hbits.
  destruct (sizes_and_images_run false (sc7 s) _ _ _ _ O1 O2 Hbits) as (err & b & l & E & _). apply load_and_compare_run in E.
  unfold on_loader. rewrite E. by eexists _, _, _.
Qed.

(** What a successful update of MB1 means. *)
Record mb1_done (s s' : board) : Prop := {
  m1_version : thermometer 16 mb1_sw /\ (sc7_sw = 0 \/ sc7_sw = mb1_sw);
  m1_newer : mb1_field (hyper s) <= mb1_sw;
  m1_rest : hyper s' / 2 ^ 16 = hyper s / 2 ^ 16;
  m1_field : mb1_field (hyper s') = mb1_sw \/
    mb1_field (hyper s') = mb1_field (hyper s) /\ sc7_sw <> 0 /\ exists l l', load_and_compare_sc7_images false l = Some ((TEGRABL_NO_ERROR, false), l');
}.

Lemma update_mb1_run s : 0 <= hyper s < 2 ^ 32 -> exists err s', update_mb1_ratchet_fuse s = Some (err, s') /\ kept s s' /\
  (err = TEGRABL_NO_ERROR -> mb1_done s s') /\
  (mb1_sw < mb1_field (hyper s) -> err <> TEGRABL_NO_ERROR /\ hyper s' = hyper s /\ writes s' = writes s).
Proof using Hbits TL SL FL.
  intros Hs. destruct regs_range as (H54 & _ & _). unfold update_mb1_ratchet_fuse.
  destruct (mb1_masks scratch_rsv54 H54) as [-> ->]. change (Z.shiftr (mb1_field scratch_rsv54) MB1_FIELD_RATCHET_FUSE_SHIFT) with mb1_sw. fold sc7_sw.
  assert (K0 : forall s1, hyper s1 = hyper s -> kept s s1) by (intros s1 Es; split; rewrite Es; [apply Z.land_diag|done]).
  assert (Hsw : 0 <= mb1_sw < 2 ^ 16) by (apply Z.mod_pos_bound; lia).
  destruct (Z.eqb_spec (sanity_check_ratchet_version mb1_sw MB1_FIELD_RATCHET_BIT_LENGTH) TEGRABL_NO_ERROR) as [Hok|Hbad]; cbn [negb].
  2: { eexists _, s. split; [reflexivity|]. split; [by apply K0|]. done. }
  apply sanity_ok in Hok; [|done|lia].
  destruct (negb (sc7_sw =? 0) && negb (mb1_sw =? sc7_sw)) eqn:Esc.
  { eexists _, s. split; [reflexivity|]. split; [by apply K0|]. split; [by intros ?%error_nonzero|]. split; [apply error_nonzero|done]. }
  assert (Hsc : sc7_sw = 0 \/ sc7_sw = mb1_sw) by lia. clear Esc.
  destruct (fuse_read_run s) as (err & s1 & E1 & Eh & Ew). run E1.
  destruct (Z.eqb_spec err TEGRABL_NO_ERROR) as [->|Hne]; cbn [negb].
  2: { eexists _, s1. split; [reflexivity|]. split; [by apply K0|]. done. }
  unfold MB1_FIELD_RATCHET_FUSE_SHIFT. rewrite Z.shiftl_0_r, (u32_small (hyper s)) by lia. rewrite (proj1 (mb1_masks _ Hs)).
  destruct (Z.ltb_spec mb1_sw (mb1_field (hyper s))) as [Hlt|Hge].
  { eexists _, s1. split; [reflexivity|]. split; [by apply K0|]. split; [by intros ?%error_nonzero|]. split; [apply error_nonzero|done]. }
  destruct (Z.eqb_spec mb1_sw (mb1_field (hyper s))) as [Heq|Hneq].
  { eexists _, s1. split; [reflexivity|]. split; [by apply K0|]. split; [|lia]. intros _. split; rewrite ?Eh; auto with lia. }
  assert (Hwrite : forall s2, hyper s2 = hyper s -> exists err s', write_mb1 mb1_sw (hyper s) s2 = Some (err, s') /\ kept s s' /\
    (err = TEGRABL_NO_ERROR -> mb1_done s s') /\ (mb1_sw < mb1_field (hyper s) -> err <> TEGRABL_NO_ERROR /\ hyper s' = hyper s /\ writes s' = writes s)).
  { intros s2 E2. destruct (write_mb1_run mb1_sw s2 Hok) as (err & s' & E & K & Hd); [by rewrite E2|rewrite E2; lia|]. rewrite E2 in E.
    exists err, s'. split; [done|]. unfold kept in *. rewrite E2 in *. split; [done|]. split; [|lia]. intros H0. destruct (Hd H0). split; auto. }
  destruct (Z.eqb_spec sc7_sw 0) as [E0|Hn0]; cbn [negb]; [by apply Hwrite|].
  destruct (on_loader_run s1) as (err & b & s2 & E2 & El & Eh2 & Ew2). run E2.
  destruct (Z.eqb_spec err TEGRABL_NO_ERROR) as [->|Hne]; cbn [negb].
  2: { eexists _, s2. split; [reflexivity|]. split; [by apply K0; congruence|]. split; [done|lia]. }
  destruct b; cbn [negb]; [apply Hwrite; congruence|].
  eexists _, s2. split; [reflexivity|]. split; [by apply K0; congruence|]. split; [|lia]. intros _. split; rewrite ?Eh2, ?Eh; eauto 6.
Qed.

Record mts_done (s s' : board) : Prop := {
  mt_trusted : Z.testbit mts_scr 14 = true;
  mt_version : thermometer 8 scratch_rsv52;
  mt_newer : mts_field (hyper s) <= scratch_rsv52;
  mt_field : mts_field (hyper s') = scratch_rsv52;
  mt_rest : mb1_field (hyper s') = mb1_field (hyper s);
  mt_copy : mts_copy (hyper s') =
    if mts_field (hyper s) <? scratch_rsv52 then Z.lor (mts_copy (hyper s)) scratch_rsv52 else mts_copy (hyper s);
}.

(** The word for MTS: the version in both places. *)
Lemma mts_word sw : 0 <= sw < 2 ^ 8 ->
  Z.land (Z.lor (u32 (Z.shiftl sw MTS_FIELD_RATCHET_FUSE_SHIFT)) (u32 (Z.shiftl sw MTS_FIELD_RATCHET_FUSE_REDUNDANT_SHIFT))) MTS_FIELD_RATCHET_MASK
  = Z.lor (sw * 2 ^ 24) (sw * 2 ^ 16).
Proof using.
  intros Hsw. unfold MTS_FIELD_RATCHET_FUSE_SHIFT, MTS_FIELD_RATCHET_FUSE_REDUNDANT_SHIFT. rewrite !u32_small by (rewrite Z.shiftl_mul_pow2 by lia; lia).
  change MTS_FIELD_RATCHET_MASK with (Z.lor (Z.shiftl (Z.ones 8) 24) (Z.shiftl (Z.ones 8) 16)). rewrite <- !Z.shiftl_mul_pow2 by lia.
  assert (E : sw = Z.land sw (Z.ones 8)) by (rewrite Z.land_ones, Z.mod_small; lia). rewrite E.
  apply Z.bits_inj'. intros i Hi. rewrite !Z.land_spec, !Z.lor_spec, !Z.shiftl_spec, !Z.land_spec by lia.
  destruct (Z.testbit sw (i - 24)), (Z.testbit sw (i - 16)), (Z.testbit (Z.ones 8) (i - 24)), (Z.testbit (Z.ones 8) (i - 16)); done.
Qed.

Lemma mts_fields f sw : 0 <= sw < 2 ^ 8 -> let f' := Z.lor f (Z.lor (sw * 2 ^ 24) (sw * 2 ^ 16)) in
  mts_field f' = Z.lor (mts_field f) sw /\ mb1_field f' = mb1_field f /\ mts_copy f' = Z.lor (mts_copy f) sw.
Proof using.
  intros Hsw f'. unfold f', mts_field, mb1_field, mts_copy. rewrite ?lor_div, ?lor_mod, ?lor_div by lia.
  rewrite !Z.div_mul by lia. replace (sw * 2 ^ 16 / 2 ^ 24) with 0 by (symmetry; apply Z.div_small; lia).
  replace (sw * 2 ^ 24) with (sw * 2 ^ 8 * 2 ^ 16) by lia. rewrite Z.div_mul, !Z.mod_mul, (Z.mod_small sw) by lia. rewrite !Z.lor_0_r, !Z.lor_0_l.
  done.
Qed.

Lemma update_mts_run s : 0 <= hyper s < 2 ^ 32 -> exists err s', update_mts_ratchet_fuse s = Some (err, s') /\ kept s s' /\
  (err = TEGRABL_NO_ERROR -> mts_done s s').
Proof using TL FL.
  intros Hs. destruct regs_range as (_ & H52 & _). unfold update_mts_ratchet_fuse.
  assert (K0 : forall s1, hyper s1 = hyper s -> kept s s1) by (intros s1 Es; split; rewrite Es; [apply Z.land_diag|done]).
  destruct (Z.eqb_spec (Z.land (Z.lnot mts_scr) (Z.shiftl 1 DPMU_BIT_WR)) 0) as [Hscr|Hscr]; cbn [negb].
  2: { eexists _, s. split; [reflexivity|]. split; [by apply K0|]. by intros ?%error_nonzero. }
  assert (Hbit : Z.testbit mts_scr 14 = true).
  { apply (f_equal (fun z => Z.testbit z 14)) in Hscr. rewrite Z.land_spec, Z.lnot_spec, Z.bits_0 in Hscr by lia.
    change (Z.testbit (Z.shiftl 1 DPMU_BIT_WR) 14) with true in Hscr. by destruct (Z.testbit mts_scr 14). }
  destruct (Z.eqb_spec (sanity_check_ratchet_version scratch_rsv52 MTS_FIELD_RATCHET_BIT_LENGTH) TEGRABL_NO_ERROR) as [Hok|Hbad]; cbn [negb].
  2: { eexists _, s. split; [reflexivity|]. split; [by apply K0|]. done. }
  apply sanity_ok in Hok; [|done|lia].
  destruct (fuse_read_run s) as (err & s1 & E1 & Eh & Ew). run E1.
  destruct (Z.eqb_spec err TEGRABL_NO_ERROR) as [->|Hne]; cbn [negb].
  2: { eexists _, s1. split; [reflexivity|]. split; [by apply K0|]. done. }
  assert (Ehw : Z.lor (Z.land (Z.shiftr (hyper s) MTS_FIELD_RATCHET_FUSE_SHIFT) 255) (Z.land (Z.shiftr (hyper s) MTS_FIELD_RATCHET_FUSE_SHIFT) 255) = mts_field (hyper s)).
  { rewrite Z.lor_diag. change 255 with (Z.ones 8). rewrite Z.land_ones, Z.shiftr_div_pow2 by (unfold MTS_FIELD_RATCHET_FUSE_SHIFT; lia). apply Z.mod_small.
    unfold MTS_FIELD_RATCHET_FUSE_SHIFT. split; [apply Z.div_pos; lia|]. apply Z.div_lt_upper_bound; lia. }
  rewrite Ehw. assert (H0f : 0 <= mts_field (hyper s)) by (apply Z.div_pos; lia).
  destruct (Z.ltb_spec scratch_rsv52 (mts_field (hyper s))) as [Hlt|Hge].
  { eexists _, s1. split; [reflexivity|]. split; [by apply K0|]. by intros ?%error_nonzero. }
  destruct (Z.eqb_spec scratch_rsv52 (mts_field (hyper s))) as [Heq|Hneq].
  { eexists _, s1. split; [reflexivity|]. split; [by apply K0|]. intros _. split; rewrite ?Eh; auto with lia.
    destruct (Z.ltb_spec (mts_field (hyper s)) scratch_rsv52); [lia|done]. }
  assert (Hsw : 0 <= scratch_rsv52 < 2 ^ 8)
    by exact (thermometer_range _ _ Hok).
  rewrite (mts_word _ Hsw), <- Eh. destruct (fuse_write_run (Z.lor (Z.lor (scratch_rsv52 * 2 ^ 24) (scratch_rsv52 * 2 ^ 16))
    (Z.land (hyper s1) (u32 (Z.lnot MTS_FIELD_RATCHET_MASK)))) s1) as (err & s' & E & K & Hw); [by rewrite Eh| |].
  { apply lor_range; [lia|apply lor_range; lia|]. apply land_range; [lia|by rewrite Eh]. }
  exists err, s'. split; [exact E|]. unfold kept in *. rewrite Eh in *. split; [done|]. intros H0. specialize (Hw H0). rewrite lor_absorb in Hw.
  destruct (mts_fields (hyper s) scratch_rsv52 Hsw) as (F1 & F2 & F3). rewrite <- Hw in F1, F2, F3.
  split; [done|done|lia| |done|destruct (Z.ltb_spec (mts_field (hyper s)) scratch_rsv52); [done|lia]].
  rewrite F1. apply (lor_thermometer _ 8); [done|lia].
Qed.
End updates.

(** ** The property *)

(** Whether the device has opted in to burning ratchet fuses. *)
Definition opted_in `{Fuses} : bool := (fst odm_info =? TEGRABL_NO_ERROR) && negb (Z.land (snd odm_info) OPT_IN_FUSE_MASK =? 0).

(** C4: Burning the ratchet fuses.  The update always returns and never loses a
    fuse bit; a device that has not opted in is left alone.  Firmware older than
    the MB1 fuses is refused and nothing is burned.  If the update reports success
    on a device that has opted in, the versions left by the firmware are
    thermometer encoded, trusted and not older than the fuses, MB1 and SC7 (if
    present) have the same version, the MTS field holds the new version, and the
    MB1 field does too unless the SC7 images were found to differ; no other field
    changes.  The second copy of the MTS version only collects the bits: an older
    version than this copy is accepted. *)
Theorem update_ratchet_fuse_spec {TE : TegrablError} {TL : TegrablErrorLaws} {ST : Storage} {SL : StorageLaws} {FU : Fuses} {FL : FusesLaws} s :
  block_size_log2 (block_device (snd (partition_open "sc7"))) = block_size_log2 (block_device (snd (partition_open "sc7_b"))) ->
  0 <= hyper s < 2 ^ 32 ->
  exists err s', update_ratchet_fuse s = Some (err, s') /\ kept s s' /\
    (opted_in = false -> err = TEGRABL_NO_ERROR /\ s' = s) /\
    (opted_in = true -> mb1_sw < mb1_field (hyper s) -> err <> TEGRABL_NO_ERROR /\ hyper s' = hyper s /\ writes s' = writes s) /\
    (opted_in = true -> err = TEGRABL_NO_ERROR -> exists s1, mb1_done s s1 /\ mts_done s1 s').
Proof.
  intros Hbits Hs. unfold update_ratchet_fuse, opted_in. destruct odm_info as [err odm]. cbn [fst snd].
  destruct (Z.eqb_spec err TEGRABL_NO_ERROR) as [->|Hne]; cbn [negb andb]; [|exists 0, s; split_and!; try done; by split; [apply Z.land_diag|]].
  destruct (Z.land odm OPT_IN_FUSE_MASK =? 0); cbn [negb]; [exists 0, s; split_and!; try done; by split; [apply Z.land_diag|]|].
  destruct (update_mb1_run Hbits s Hs) as (err1 & s1 & E1 & K1 & D1 & R1). run E1.
  destruct (Z.eqb_spec err1 TEGRABL_NO_ERROR) as [->|Hne]; cbn [negb]; [|by exists err1, s1].
  destruct (update_mts_run s1 (proj2 K1)) as (err2 & s2 & E2 & K2 & D2). exists err2, s2. split; [done|]. split.
  { destruct K1 as [K1 _], K2 as [K2 ?]. split; [|done]. rewrite <- K1 at 1. by rewrite <- Z.land_assoc, K2. }
  split; [done|]. split; [intros _ Hlt; by destruct (R1 Hlt)|]. intros _ H0. exists s1. auto.
Qed.

(** A device at MB1 version 1 and MTS version 0, with firmware at 3 and 1; the
    second copy of the MTS version already is 3. *)
Definition demo_fuses : Fuses := {|
  odm_info := (0, 16384); hyper_read_error := fun _ => 0; burn := fun _ f v => (0, Z.lor f v);
  scratch_rsv54 := 3; scratch_rsv52 := 1; mts_scr := 16384 |}.

Lemma demo_fuses_laws : FusesLaws (FU := demo_fuses).
Proof.
  split; cbn; [by intros _ f v f' _ [= <-]| |lia]. intros _ f v Hf Hv. split; [|by apply (lor_range f v 32)].
  apply Z.bits_inj'. intros i _. rewrite Z.land_spec, Z.lor_spec. by destruct (Z.testbit f i), (Z.testbit v i).
Qed.

Lemma update_ratchet_fuse_spec_witness : exists s' s1,
  update_ratchet_fuse (TE := plain_errors) (ST := demo_storage) (FU := demo_fuses)
    {| hyper := 196609; accesses := 0; writes := []; sc7 := {| mallocs := 0; live := 0; closes := 0 |} |} = Some (0, s') /\
  hyper s' = 16973827 /\ mts_done (FU := demo_fuses) s1 s' /\ mts_copy (hyper s1) = 3.
Proof.
  destruct (update_ratchet_fuse_spec (TL := plain_errors_laws) (SL := demo_storage_laws) (FL := demo_fuses_laws)
    {| hyper := 196609; accesses := 0; writes := []; sc7 := {| mallocs := 0; live := 0; closes := 0 |} |} eq_refl ltac:(cbn; lia))
    as (err & s' & E & _ & _ & _ & Hd).
  assert (Ev : Some (err, s') = Some (0, {| hyper := 16973827; accesses := 4; writes := [196611; 16842755]; sc7 := {| mallocs := 0; live := 0; closes := 0 |} |}))
    by (rewrite <- E; vm_compute; reflexivity).
  injection Ev as -> ->. destruct (Hd eq_refl eq_refl) as (s1 & H1 & H2). eexists _, s1. split; [exact E|]. split; [done|]. split; [exact H2|].
  unfold mts_copy. by rewrite (m1_rest _ _ H1).
Defined.
