(* ===== verification/Menu.v ===== *)
(** * Boot menus: lib/menu/menu.c

    A menu is shown on the display, and keys move through its entries until one
    is chosen.  Display, keyboard, clock and storage are those of the tegrabl
    libraries, and other threads act at the same time: all that is outside of the
    modelled code is a [World], which answers calls and changes with each.  The
    state keeps the list [events] of all calls with their answers, so that a
    property can speak about what was done and in which order.

    The mutex of the menus is seen from the thread that runs: [menu_held] says
    whether this thread holds it, and as in kernel/mutex.c a thread that acquires
    it twice or releases it without holding it stops at an assertion. *)

From S2P Require Import Prelude Tegrabl.
Local Open Scope lk_scope.

Inductive key_code : Type := KEY_UP | KEY_DOWN | KEY_ENTER | KEY_HOLD | KEY_IGNORE | KEY_OTHER.
Inductive key_event : Type := KEY_PRESS_FLAG | KEY_RELEASE_FLAG | KEY_OTHER_FLAG.
Inductive color_t : Type := RED | GREEN | WHITE.
Inductive cursor_t : Type := CURSOR_START | CURSOR_CENTER | CURSOR_END.

#[global] Instance key_code_eq_dec : EqDecision key_code.
Proof. solve_decision. Defined.
#[global] Instance key_event_eq_dec : EqDecision key_event.
Proof. solve_decision. Defined.

(** [fastboot_thread_status_t] and [menu_type_t]. *)
Inductive fastboot_thread_status : Type := RUNNING | PAUSED | TERMINATED.
Inductive menu_type_t : Type := ANDROID_BOOT_MENU | FASTBOOT_MENU | VERIFIED_BOOT_MENU | OTHER_MENU.

(** ** The world *)

(** The calls, indexed by the type of the answer.  [pressed_message] is the
    message of [menu_handle_key_press] about the key; [other_threads] lets other
    threads run, one of which may have set the state of fastboot. *)
Inductive call : Type -> Type :=
  | display_clear : call Z
  | display_show_image (img : Z) : call Z
  | display_text_set_cursor (c : cursor_t) : call Z
  | display_printf (c : color_t) (text : string) : call Z
  | render_text_get_position : call (Z * Z)
  | render_text_set_position (x y : Z) : call unit
  | keyboard_init : call Z
  | keyboard_get_key_data : call (Z * key_code * key_event)
  | get_timestamp_ms : call Z
  | mdelay (ms : Z) : call unit
  | thread_sleep (ms : Z) : call unit
  | pressed_message (k : key_code) : call unit
  | other_threads : call (option fastboot_thread_status)
  | mutex_try : call Z
  | mutex_wait : call unit
  | odmdata_is_device_unlocked : call bool
  | odmdata_get : call Z
  | odmdata_set (v : Z) (persist : bool) : call unit
  | is_frp_enabled (name : string) : call (Z * bool)
  | fastboot_get_partinfo (name : string) : call (option string)
  | partition_open_named (name : string) : call Z
  | partition_erase (name : string) (secure : bool) : call Z
  | fastboot_ack (kind text : string) : call unit
  | fastboot_fail (text : string) : call unit.

Class World (W : Type) : Type := { answer : forall A, call A -> W -> A * W }.
Arguments answer {W _ A}.

Record call_event : Type := Event { ev_type : Type; ev_call : call ev_type; ev_answer : ev_type }.
Arguments Event {ev_type}.

(** The two menus of app/kernel_boot/fastboot_menu.c that ask for confirmation;
    their [current_entry] persists. *)
Inductive menu_name : Type := Confirm_lock_menu | Confirm_unlock_menu.
#[global] Instance menu_name_eq_dec : EqDecision menu_name.
Proof. solve_decision. Defined.

Record bl (W : Type) : Type := {
  world : W;
  menu_held : bool;
  s_is_menu_initialised : bool;
  thread_state : fastboot_thread_status;
  entries : menu_name -> Z;
  busy : Z;
  events : list call_event;
}.
Arguments world {W}.
Arguments menu_held {W}.
Arguments s_is_menu_initialised {W}.
Arguments thread_state {W}.
Arguments entries {W}.
Arguments busy {W}.
Arguments events {W}.

(** ** Menus *)

(** The newline. *)
Definition nl : string := String (Ascii.ascii_of_nat 10) EmptyString.

Record menu_string : Type := { color : color_t; data : option string }.

(** Optional parts are [None] when their [valid] is false. *)
Record menu_entry (CB : Type) : Type := {
  ms_entry : menu_string;
  ms_on_select : menu_string;
  on_select_callback : option CB;
}.
Arguments ms_entry {CB}.
Arguments ms_on_select {CB}.
Arguments on_select_callback {CB}.

Record menu (CB : Type) : Type := {
  menu_type : menu_type_t;
  menu_backgnd : option Z;
  menu_header : option menu_string;
  menu_footer : option (menu_string * (Z * Z));
  menu_entries : list (menu_entry CB);
  timeout : Z;
  current_entry : Z;
}.
Arguments menu_type {CB}.
Arguments menu_backgnd {CB}.
Arguments menu_header {CB}.
Arguments menu_footer {CB}.
Arguments menu_entries {CB}.
Arguments timeout {CB}.
Arguments current_entry {CB}.

Definition num_menu_entries {CB} (m : menu CB) : Z := Z.of_nat (length (menu_entries m)).
Definition set_entry {CB} (e : Z) (m : menu CB) : menu CB :=
  {| menu_type := menu_type m; menu_backgnd := menu_backgnd m; menu_header := menu_header m; menu_footer := menu_footer m;
     menu_entries := menu_entries m; timeout := timeout m; current_entry := e |}.

Definition SINGLE_BUTTION_LONG_PRESS_TIME_MS : Z := 1500.

Section menu.
Context {W : Type} {WO : World W} {TE : TegrablError}.
Abbreviation state := (bl W).

Definition do_ {A} (c : call A) : M state A := fun s =>
  let (a, w) := answer c (world s) in
  Some (a, {| world := w; menu_held := menu_held s; s_is_menu_initialised := s_is_menu_initialised s; thread_state := thread_state s;
              entries := entries s; busy := busy s; events := events s ++ [Event c a] |}).

Definition set_held (b : bool) (s : state) : state :=
  {| world := world s; menu_held := b; s_is_menu_initialised := s_is_menu_initialised s; thread_state := thread_state s;
     entries := entries s; busy := busy s; events := events s |}.
Definition set_initialised (s : state) : state :=
  {| world := world s; menu_held := false; s_is_menu_initialised := true; thread_state := thread_state s;
     entries := entries s; busy := busy s; events := events s |}.
Definition set_thread_state (t : fastboot_thread_status) (s : state) : state :=
  {| world := world s; menu_held := menu_held s; s_is_menu_initialised := s_is_menu_initialised s; thread_state := t;
     entries := entries s; busy := busy s; events := events s |}.

Definition set_busy (i : Z) (s : state) : state :=
  {| world := world s; menu_held := menu_held s; s_is_menu_initialised := s_is_menu_initialised s; thread_state := thread_state s;
     entries := entries s; busy := i; events := events s |}.

Definition menu_init : M state unit :=
  let* i := gets s_is_menu_initialised in
  if i then ret tt else modify set_initialised.
Definition menu_lock : M state unit :=
  let* h := gets menu_held in
  assert_ (negb h) ;;; do_ mutex_wait ;;; modify (set_held true).
Definition menu_unlock : M state unit :=
  let* h := gets menu_held in
  assert_ h ;;; modify (set_held false).

(** [mutex_acquire_timeout (&menu_mutex, 0)]. *)
Definition menu_trylock : M state Z :=
  let* h := gets menu_held in
  assert_ (negb h) ;;;
  let* status := do_ mutex_try in
  when status =? NO_ERROR do modify (set_held true) ;;; ret status.

Definition is_fastboot_running : M state fastboot_thread_status :=
  let* o := do_ other_threads in
  match o with Some t => modify (set_thread_state t) | None => ret tt end ;;;
  gets thread_state.

(** [c1] and, unless it reports an error, [c2]: the chains of
    [if (ret != TEGRABL_NO_ERROR) return ret]. *)
Definition and_then (c1 c2 : M state Z) : M state Z :=
  let* err := c1 in
  if negb (err =? TEGRABL_NO_ERROR) then ret err else c2.

(** The error with its module set. *)
Definition highest (c : M state Z) : M state Z :=
  let* err := c in
  ret (if negb (err =? TEGRABL_NO_ERROR) then SET_HIGHEST_MODULE err else err).

Definition menu_string_print (ms : menu_string) : M state Z :=
  match data ms with None => ret TEGRABL_NO_ERROR | Some d => do_ (display_printf (color ms) d) end.

Definition display_bmp (img : Z) : M state Z :=
  and_then (highest (do_ display_clear)) (highest (do_ (display_show_image img))).

Context {CB : Type}.

Definition menu_display_backgnd (m : menu CB) : M state Z :=
  match menu_backgnd m with None => ret TEGRABL_NO_ERROR | Some img => display_bmp img end.

Definition menu_display_header (m : menu CB) : M state Z :=
  match menu_header m with
  | None => ret TEGRABL_NO_ERROR
  | Some ms => and_then (highest (do_ (display_text_set_cursor CURSOR_START))) (menu_string_print ms)
  end.

(** The entries from number [i] on. *)
Fixpoint display_entries (i : Z) (cur : Z) (es : list (menu_entry CB)) : M state Z :=
  match es with
  | [] => ret TEGRABL_NO_ERROR
  | e :: es' =>
      and_then (menu_string_print {| color := if i =? cur then GREEN else color (ms_entry e); data := data (ms_entry e) |})
        (display_entries (i + 1) cur es')
  end.
Definition menu_display_body (m : menu CB) : M state Z := display_entries 0 (current_entry m) (menu_entries m).

Definition menu_display_footer (m : menu CB) : M state Z :=
  match menu_footer m with
  | None => ret TEGRABL_NO_ERROR
  | Some (ms, (x, y)) =>
      let* (px, py) := do_ render_text_get_position in
      do_ (render_text_set_position x y) ;;;
      and_then (menu_string_print ms) (do_ (render_text_set_position px py) ;;; ret TEGRABL_NO_ERROR)
  end.

Definition menu_display (m : menu CB) : M state Z :=
  and_then (do_ display_clear)
    (and_then (menu_display_backgnd m) (and_then (menu_display_header m) (and_then (menu_display_body m) (menu_display_footer m)))).

Definition progress : list string := [".    "; "..   "; "...  "; ".... "; "....."]%string.
Definition show_busy : M state unit :=
  modify (fun s => set_busy ((busy s + 1) mod 5) s) ;;;
  let* i := gets busy in
  do_ (display_text_set_cursor CURSOR_CENTER) ;;;
  do_ (display_printf RED ("Please wait" ++ nth (Z.to_nat i) progress "" ++ nl)%string) ;;;
  do_ (thread_sleep 1000) ;;;
  do_ (display_text_set_cursor CURSOR_CENTER) ;;; do_ (display_printf RED ("                " ++ nl)%string) ;;; ret tt.

Definition menu_print (ms : menu_string) : M state Z :=
  match data ms with
  | None => ret (TEGRABL_ERROR TEGRABL_ERR_INVALID 0)
  | Some _ => and_then (highest (do_ display_clear)) (menu_string_print ms)
  end.

(** Waiting for the release of the single button. *)
Fixpoint release_loop (fuel : nat) : M state Z :=
  match fuel with
  | O => panic
  | S fuel' =>
      let* (err, _k, ev) := do_ keyboard_get_key_data in
      if negb (err =? TEGRABL_NO_ERROR) then ret (SET_HIGHEST_MODULE err)
      else if decide (ev = KEY_RELEASE_FLAG) then ret TEGRABL_NO_ERROR
      else release_loop fuel'
  end.

Definition get_pressed_keys (fuel : nat) : M state (Z * key_code) :=
  let* (err, k, ev) := do_ keyboard_get_key_data in
  if negb (err =? TEGRABL_NO_ERROR) then ret (SET_HIGHEST_MODULE err, KEY_IGNORE)
  else if decide (k = KEY_HOLD /\ ev = KEY_PRESS_FLAG) then
    let* time_lapse := do_ get_timestamp_ms in
    let* err := release_loop fuel in
    if negb (err =? TEGRABL_NO_ERROR) then ret (err, KEY_IGNORE)
    else
      let* now := do_ get_timestamp_ms in
      ret (TEGRABL_NO_ERROR, if SINGLE_BUTTION_LONG_PRESS_TIME_MS <=? now - time_lapse then KEY_ENTER else KEY_DOWN)
  else ret (TEGRABL_NO_ERROR, if decide (ev = KEY_PRESS_FLAG) then k else KEY_IGNORE).

(** Returns the error, the menu and [menu_next]. *)
Definition menu_handle_key_press (m : menu CB) (k : key_code) : M state (Z * menu CB * bool) :=
  do_ (pressed_message k) ;;;
  match k with
  | KEY_UP =>
      let m := set_entry (if current_entry m =? 0 then u8 (num_menu_entries m - 1) else current_entry m - 1) m in
      let* err := menu_display m in ret (err, m, false)
  | KEY_DOWN =>
      assert_ (negb (num_menu_entries m =? 0)) ;;;
      let m := set_entry (u8 (u8 (current_entry m + 1) mod num_menu_entries m)) m in
      let* err := menu_display m in ret (err, m, false)
  | KEY_ENTER => ret (TEGRABL_NO_ERROR, m, true)
  | _ => ret (TEGRABL_NO_ERROR, m, false)
  end.

(** Waiting until no key is pressed. *)
Fixpoint idle_loop (fuel : nat) : M state Z :=
  match fuel with
  | O => panic
  | S fuel' =>
      let* (err, k, _ev) := do_ keyboard_get_key_data in
      if negb (err =? TEGRABL_NO_ERROR) then ret (SET_HIGHEST_MODULE err)
      else do_ (mdelay 100) ;;; if decide (k = KEY_IGNORE) then ret TEGRABL_NO_ERROR else idle_loop fuel'
  end.

Inductive turn : Type := T_break | T_continue | T_go.

(** The part of a turn that only a fastboot menu has. *)
Definition fastboot_turn (m : menu CB) : M state turn :=
  match menu_type m with
  | FASTBOOT_MENU =>
      let* t := is_fastboot_running in
      match t with
      | TERMINATED => ret T_break
      | _ => let* t := is_fastboot_running in match t with PAUSED => ret T_continue | _ => ret T_go end
      end
  | _ => ret T_go
  end.

Definition timed_out (m : menu CB) (start_time : Z) : M state bool :=
  if timeout m =? 0 then ret false
  else let* now := do_ get_timestamp_ms in ret (timeout m <=? now - start_time).

Fixpoint menu_loop (fuel : nat) (m : menu CB) (start_time : Z) : M state (Z * menu CB) :=
  match fuel with
  | O => panic
  | S fuel' =>
      let* t := fastboot_turn m in
      match t with
      | T_break => ret (TEGRABL_NO_ERROR, m)
      | T_continue => menu_loop fuel' m start_time
      | T_go =>
          let* late := timed_out m start_time in
          if late then ret (TEGRABL_ERROR TEGRABL_ERR_TIMEOUT 1, m)
          else
            let* status := menu_trylock in
            if status =? ERR_TIMED_OUT then show_busy ;;; menu_loop fuel' m start_time
            else if negb (status =? NO_ERROR) then ret (TEGRABL_ERROR TEGRABL_ERR_LOCK_FAILED 0, m)
            else
              let* (err, k) := get_pressed_keys fuel in
              if negb (err =? TEGRABL_NO_ERROR) then ret (err, m)
              else if decide (k = KEY_IGNORE) then menu_unlock ;;; menu_loop fuel' m start_time
              else
                let* (err, m, menu_next) := menu_handle_key_press m k in
                if negb (err =? TEGRABL_NO_ERROR) then ret (err, m)
                else
                  menu_unlock ;;;
                  if (menu_next : bool) then ret (TEGRABL_NO_ERROR, m)
                  else do_ (mdelay 200) ;;; menu_loop fuel' m start_time
      end
  end.

Definition menu_draw (fuel : nat) (m : menu CB) : M state (Z * menu CB) :=
  let* err := and_then (menu_display m) (and_then (do_ keyboard_init) (idle_loop fuel)) in
  if negb (err =? TEGRABL_NO_ERROR) then ret (err, m)
  else
    let* start_time := do_ get_timestamp_ms in
    menu_loop fuel m start_time.

(** [run_callback]: the functions of the entries. *)
Definition menu_handle_on_select (run_callback : CB -> M state Z) (m : menu CB) : M state Z :=
  let* e := getopt (fun _ => menu_entries m !! Z.to_nat (current_entry m)) in
  menu_print (ms_on_select e) ;;;
  match on_select_callback e with
  | Some f => highest (run_callback f)
  | None => ret TEGRABL_NO_ERROR
  end.
End menu.
