(* ===== verification/Fastboot.v ===== *)
(** * Locking and unlocking the boot loader: app/kernel_boot

    [change_device_state] of fastboot.c with the two menus of fastboot_menu.c that
    ask the user, and the functions behind their entries, which erase the data of
    the user before the lock bit is changed.  The configuration is that of t186
    (IS_T186). *)

From S2P Require Import Prelude Tegrabl Menu.
Local Open Scope lk_scope.

(** ** fastboot_menu.c *)

Inductive confirm_callback : Type := confirm_menu_lock_bootloader | confirm_menu_unlock_bootloader.

Definition quote : string := String (Ascii.ascii_of_nat 34) EmptyString.

Definition text (c : color_t) (t : string) : menu_string := {| color := c; data := Some t |}.

Definition back_to_menu : menu_entry confirm_callback :=
  {| ms_entry := text WHITE ("Back to menu" ++ nl); ms_on_select := text RED ("Okay, going back to menu ..." ++ nl ++ nl);
     on_select_callback := None |}.

Definition confirm_lock_menu_entries : list (menu_entry confirm_callback) :=
  [ {| ms_entry := text WHITE ("Confirm" ++ nl); ms_on_select := text GREEN ("Confirmed. Locking the bootloader" ++ nl ++ nl);
       on_select_callback := Some confirm_menu_lock_bootloader |};
    back_to_menu ].

Definition confirm_unlock_menu_entries : list (menu_entry confirm_callback) :=
  [ {| ms_entry := text WHITE ("Confirm" ++ nl); ms_on_select := text GREEN ("Confirmed. Unlocking the bootloader" ++ nl ++ nl);
       on_select_callback := Some confirm_menu_unlock_bootloader |};
    back_to_menu ].

Definition confirm_lock_menu (entry : Z) : menu confirm_callback :=
  {| menu_type := OTHER_MENU; menu_backgnd := None;
     menu_header := Some (text RED
       (" !!! READ THE FOLLOWING !!!" ++ nl ++ "If you lock the bootloader, all personal" ++ nl ++ "data from your device will be automatically" ++ nl ++
        "deleted (a " ++ quote ++ "factory data reset" ++ quote ++ ") to" ++ nl ++ "prevent unauthorized access to your" ++ nl ++
        "personal data." ++ nl ++ nl ++ nl));
     menu_footer := None; menu_entries := confirm_lock_menu_entries; timeout := 0; current_entry := entry |}.

Definition confirm_unlock_menu (entry : Z) : menu confirm_callback :=
  {| menu_type := OTHER_MENU; menu_backgnd := None;
     menu_header := Some (text RED
       (" !!! READ THE FOLLOWING !!!" ++ nl ++ "If you unlock the bootloader, you will" ++ nl ++ "be able to install custom operating system" ++ nl ++
        "software on this device (but may void" ++ nl ++ "your warranty)." ++ nl ++ "A custom OS is not subject to the same" ++ nl ++
        "testing as the original OS, and can cause" ++ nl ++ "your device and installed applications to" ++ nl ++ "stop working properly." ++ nl ++
        "Note,if you unlock the bootloader, all" ++ nl ++ "personal data from your device will be" ++ nl ++
        "automatically deleted (a " ++ quote ++ "factory data" ++ nl ++ "reset" ++ quote ++ ") to prevent unauthorized access to" ++ nl ++
        "your personal data." ++ nl ++ nl ++ nl));
     menu_footer := None; menu_entries := confirm_unlock_menu_entries; timeout := 0; current_entry := entry |}.

(** ** fastboot.c *)

Inductive fastboot_lockcmd : Type := FASTBOOT_LOCK | FASTBOOT_UNLOCK.

Section fastboot.
Context {W : Type} {WO : World W} {TE : TegrablError} (TEGRA_BOOTLOADER_LOCK_BIT : Z).
Abbreviation state := (bl W).

Definition set_entry_of (n : menu_name) (e : Z) (s : state) : state :=
  {| world := world s; menu_held := menu_held s; s_is_menu_initialised := s_is_menu_initialised s; thread_state := thread_state s;
     entries := fun n' => if decide (n' = n) then e else entries s n'; busy := busy s; events := events s |}.

Definition fastboot_erase_partition (partition_name : string) (secure : bool) : M state Z :=
  let* partinfo := do_ (fastboot_get_partinfo partition_name) in
  match partinfo with
  | None => ret (TEGRABL_ERROR TEGRABL_ERR_INVALID 0)
  | Some tegra_part_name =>
      let* error := do_ (partition_open_named tegra_part_name) in
      if negb (error =? TEGRABL_NO_ERROR) then
        ret (if decide (TEGRABL_ERROR_REASON error = TEGRABL_ERR_NOT_FOUND) then TEGRABL_NO_ERROR else error)
      else
        do_ (fastboot_ack "INFO" ("erasing " ++ partition_name ++ "...")) ;;;
        let* error := do_ (partition_erase tegra_part_name secure) in
        if negb (error =? TEGRABL_NO_ERROR) then
          do_ (fastboot_ack "INFO" ("Partition " ++ partition_name ++ " erase failed!")) ;;; ret error
        else do_ (fastboot_ack "INFO" ("erasing " ++ partition_name ++ " done")) ;;; ret TEGRABL_NO_ERROR
  end.

Definition fastboot_erase_data : M state Z :=
  and_then (fastboot_erase_partition "userdata" true) (fastboot_erase_partition "cache" true).

Definition fastboot_unlock_bootloader : M state Z :=
  let* odm_data := do_ odmdata_get in
  and_then fastboot_erase_data
    (do_ (fastboot_ack "INFO" "Unlocking bootloader...") ;;;
     do_ (odmdata_set (Z.land odm_data (u32 (Z.lnot (Z.shiftl 1 TEGRA_BOOTLOADER_LOCK_BIT)))) true) ;;;
     do_ (fastboot_ack "INFO" "Bootloader is now unlocked.") ;;;
     ret TEGRABL_NO_ERROR).

Definition fastboot_lock_bootloader : M state Z :=
  let* odm_data := do_ odmdata_get in
  and_then fastboot_erase_data
    (do_ (fastboot_ack "INFO" "Locking bootloader...") ;;;
     do_ (odmdata_set (Z.lor odm_data (u32 (Z.shiftl 1 TEGRA_BOOTLOADER_LOCK_BIT))) true) ;;;
     do_ (fastboot_ack "INFO" "Bootloader is now locked.") ;;;
     ret TEGRABL_NO_ERROR).

Definition run_confirm (c : confirm_callback) : M state Z :=
  match c with
  | confirm_menu_lock_bootloader => fastboot_lock_bootloader
  | confirm_menu_unlock_bootloader => fastboot_unlock_bootloader
  end.

(** The first half of [change_device_state]: the menu to show, or the value to
    return at once. *)
Definition choose_confirm_menu (cmd : fastboot_lockcmd) : M state (Z + menu_name) :=
  let* unlocked := do_ odmdata_is_device_unlocked in
  match cmd with
  | FASTBOOT_LOCK =>
      if (unlocked : bool) then ret (inr Confirm_lock_menu)
      else do_ (fastboot_ack "INFO" "Bootloader is already locked.") ;;; ret (inl TEGRABL_NO_ERROR)
  | FASTBOOT_UNLOCK =>
      if negb unlocked then
        let* (err, frp_enabled) := do_ (is_frp_enabled "fac_rst_protection") in
        if negb (err =? TEGRABL_NO_ERROR) then do_ (fastboot_fail "Device cannot be unlocked") ;;; ret (inl err)
        else if (frp_enabled : bool) then
          do_ (fastboot_fail "Device cannot be unlocked") ;;;
          do_ (display_text_set_cursor CURSOR_END) ;;;
          do_ (display_printf RED "Device cannot be unlocked") ;;;
          ret (inl (TEGRABL_ERROR TEGRABL_ERR_INVALID_STATE 0))
        else ret (inr Confirm_unlock_menu)
      else do_ (fastboot_ack "INFO" "Bootloader is already unlocked.") ;;; ret (inl TEGRABL_NO_ERROR)
  end.

Definition menu_of (n : menu_name) (s : state) : menu confirm_callback :=
  match n with
  | Confirm_lock_menu => confirm_lock_menu (entries s n)
  | Confirm_unlock_menu => confirm_unlock_menu (entries s n)
  end.

Definition failure_text (cmd : fastboot_lockcmd) (asked : bool) : string :=
  match cmd with
  | FASTBOOT_LOCK => if asked then "Could not confirm lock from user" else "Failed to lock bootloader"
  | FASTBOOT_UNLOCK => if asked then "Could not confirm unlock from user" else "Failed to unlock bootloader"
  end.

Definition change_device_state (fuel : nat) (cmd : fastboot_lockcmd) : M state Z :=
  let* choice := choose_confirm_menu cmd in
  match choice with
  | inl err => ret err
  | inr n =>
      modify (set_thread_state PAUSED) ;;;
      menu_unlock ;;;
      let* m := gets (menu_of n) in
      let* (err, m) := menu_draw fuel m in
      modify (set_entry_of n (current_entry m)) ;;;
      menu_lock ;;;
      if negb (err =? TEGRABL_NO_ERROR) then
        do_ (fastboot_fail (failure_text cmd true)) ;;; modify (set_thread_state RUNNING) ;;; ret err
      else
        let* m := gets (menu_of n) in
        let* err := menu_handle_on_select run_confirm m in
        when negb (err =? TEGRABL_NO_ERROR) do (do_ (fastboot_fail (failure_text cmd false)) ;;; ret tt) ;;;
        modify (set_thread_state RUNNING) ;;;
        ret err
  end.
End fastboot.
