(* ===== verification/MenuSpec.v ===== *)
(** * What menus do: the trace of calls

    [spec c Q s] speaks about the calls that [c] makes from state [s]: if [c]
    returns, [Q] holds of the result, the new events and the new state.  [calm]
    computations neither write the device's lock word nor report a key. *)

From S2P Require Import Prelude Tegrabl Menu.
Local Open Scope lk_scope.

(** ** Events *)

(** The words written to the odm data, and the keys menus reacted to. *)
Definition odm_of (e : call_event) : option Z := match ev_call e with odmdata_set v _ => Some v | _ => None end.
Definition press_of (e : call_event) : option key_code := match ev_call e with pressed_message k => Some k | _ => None end.
Definition odm_writes (l : list call_event) : list Z := omap odm_of l.
Definition presses (l : list call_event) : list key_code := omap press_of l.

(** The effect of a key on the selected one of [n] entries. *)
Definition move (n e : Z) (k : key_code) : Z :=
  match k with KEY_UP => (e - 1) mod n | KEY_DOWN => (e + 1) mod n | _ => e end.

Lemma move_range n e k : 0 <= e < n -> 0 <= move n e k < n.
Proof. intros He. destruct k; cbn; try done; apply Z.mod_pos_bound; lia. Qed.

Lemma moves_range n e ks : 0 <= e < n -> 0 <= foldl (move n) e ks < n.
Proof. revert e. induction ks as [|k ks IH]; intros e He; [done|]. by apply IH, move_range. Qed.

(** The two updates of [current_entry] on 8 bits. *)
Lemma move_up n e : 0 <= e < n -> n <= 256 -> (if e =? 0 then u8 (n - 1) else e - 1) = move n e KEY_UP.
Proof.
  intros He Hn. cbn. destruct (Z.eqb_spec e 0) as [->|]; [|rewrite Z.mod_small; lia].
  rewrite u8_small by lia. apply (Z.mod_unique _ _ (-1)); lia.
Qed.

Lemma move_down n e : 0 <= e < n -> n <= 256 -> u8 (u8 (e + 1) mod n) = move n e KEY_DOWN.
Proof.
  intros He Hn. cbn. assert (0 <= (e + 1) mod n < n) by (apply Z.mod_pos_bound; lia).
  destruct (Z.eq_dec (e + 1) 256) as [E|]; [|rewrite (u8_small (e + 1)) by lia; apply u8_small; lia].
  assert (n = 256) as -> by lia. rewrite E. reflexivity.
Qed.

Section spec.
Context {W : Type} {WO : World W} {TE : TegrablError}.
Abbreviation state := (bl W).
Implicit Types (s : state).

Definition spec {A} (c : M state A) (Q : A -> list call_event -> state -> Prop) (s : state) : Prop :=
  forall a s', c s = Some (a, s') -> exists evs, events s' = events s ++ evs /\ Q a evs s'.

Lemma spec_mono {A} (c : M state A) (Q Q' : A -> list call_event -> state -> Prop) s :
  spec c Q s -> (forall a evs s', Q a evs s' -> Q' a evs s') -> spec c Q' s.
Proof using. intros H HQ a s' E. destruct (H a s' E) as (evs & ? & ?). eauto. Qed.

Lemma spec_ret {A} (a : A) (Q : A -> list call_event -> state -> Prop) s : Q a [] s -> spec (ret a) Q s.
Proof using. intros H a' s' [= <- <-]. exists []. by rewrite app_nil_r. Qed.

Lemma spec_panic {A} (Q : A -> list call_event -> state -> Prop) s : spec panic Q s.
Proof using. by intros a s' E. Qed.

Lemma spec_bind {A B} (c : M state A) (k : A -> M state B) Q s :
  spec c (fun a e1 s1 => spec (k a) (fun b e2 s2 => Q b (e1 ++ e2) s2) s1) s -> spec (bind c k) Q s.
Proof using.
  intros H b s' E. unfold bind in E. destruct (c s) as [[a s1]|] eqn:Ec; [|done].
  destruct (H a s1 Ec) as (e1 & E1 & Hk). destruct (Hk b s' E) as (e2 & E2 & HQ). exists (e1 ++ e2). split; [|done].
  by rewrite E2, E1, app_assoc.
Qed.

Lemma spec_do {A} (c : call A) Q s :
  (forall a w, Q a [Event c a] {| world := w; menu_held := menu_held s; s_is_menu_initialised := s_is_menu_initialised s;
     thread_state := thread_state s; entries := entries s; busy := busy s; events := events s ++ [Event c a] |}) -> spec (do_ c) Q s.
Proof using.
  intros H a s' E. unfold do_ in E. destruct (answer c (world s)) as [a' w]. injection E as -> <-. exists [Event c a]. split; [done|]. apply H.
Qed.

Lemma spec_gets {A} (f : state -> A) (Q : A -> list call_event -> state -> Prop) s : Q (f s) [] s -> spec (gets f) Q s.
Proof using. intros H a s' [= <- <-]. exists []. by rewrite app_nil_r. Qed.

Lemma spec_modify f (Q : unit -> list call_event -> state -> Prop) s : events (f s) = events s -> Q tt [] (f s) -> spec (modify f) Q s.
Proof using. intros E H a s' [= <- <-]. exists []. by rewrite app_nil_r. Qed.

(** ** Calm computations *)

Definition quiet_events (l : list call_event) : Prop := odm_writes l = [] /\ presses l = [].

Definition calm {A} (c : M state A) : Prop := forall s, spec c (fun _ evs s' => quiet_events evs /\ entries s' = entries s) s.

Lemma quiet_nil : quiet_events [].
Proof using. done. Qed.

Lemma quiet_app l l' : quiet_events l -> quiet_events l' -> quiet_events (l ++ l').
Proof using. intros [H1 H2] [H1' H2']. unfold quiet_events, odm_writes, presses in *. by rewrite !omap_app, H1, H2, H1', H2'. Qed.

Lemma calm_ret {A} (a : A) : calm (ret a).
Proof using. intros s. by apply spec_ret. Qed.

Lemma calm_panic {A} : calm (A := A) panic.
Proof using. intros s. apply spec_panic. Qed.

Lemma calm_bind {A B} (c : M state A) (k : A -> M state B) : calm c -> (forall a, calm (k a)) -> calm (bind c k).
Proof using.
  intros Hc Hk s. apply spec_bind. eapply spec_mono; [apply Hc|]. cbn. intros a e1 s1 [Q1 E1].
  eapply spec_mono; [apply Hk|]. cbn. intros b e2 s2 [Q2 E2]. split; [by apply quiet_app|congruence].
Qed.

Lemma calm_do {A} (c : call A) : (forall a, odm_of (Event c a) = None) -> (forall a, press_of (Event c a) = None) -> calm (do_ c).
Proof using.
  intros H1 H2 s. apply spec_do. intros a w. split; [|done]. unfold quiet_events, odm_writes, presses. cbn. by rewrite H1, H2.
Qed.

Lemma calm_gets {A} (f : state -> A) : calm (gets f).
Proof using. intros s. by apply spec_gets. Qed.

Lemma calm_modify f : (forall s, events (f s) = events s) -> (forall s, entries (f s) = entries s) -> calm (modify f).
Proof using. intros H1 H2 s. by apply spec_modify. Qed.

Lemma calm_if {A} (b : bool) (c1 c2 : M state A) : calm c1 -> calm c2 -> calm (if b then c1 else c2).
Proof using. by destruct b. Qed.
End spec.

(** Proves [calm] by the shape of the computation. *)
Ltac calm :=
  repeat first
    [ assumption | apply calm_ret | apply calm_panic | apply calm_gets | apply calm_if
    | apply calm_do; reflexivity | apply calm_modify; reflexivity
    | apply calm_bind; [|intros ?]
    | match goal with |- calm (let (_, _) := ?x in _) => destruct x end
    | match goal with |- calm (match ?x with _ => _ end) => destruct x end ].
