(* ===== verification/FastbootProps.v ===== *)
(** * Properties of menus and of the boot loader's lock

    The first part follows the trace of calls: what must have happened before the
    lock word is written.  The second part is about worlds whose keyboard delivers
    a given sequence of polls: there menus return, with the entry the keys lead
    to; and if the keyboard then fails, the mutex of the menus stays held. *)

From S2P Require Import Prelude Tegrabl Menu MenuSpec Fastboot.
Local Open Scope lk_scope.

Section trace.
Context {W : Type} {WO : World W} {TE : TegrablError} {TL : TegrablErrorLaws}.
Abbreviation state := (bl W).
Implicit Types (s : state).

(** ** Calm parts of menus *)

Lemma calm_getopt {A} (f : state -> option A) : calm (getopt f).
Proof using.
  intros s a s' E. unfold getopt in E. destruct (f s); [|done]. injection E as <- <-. exists []. by rewrite app_nil_r.
Qed.

Lemma calm_and_then (c1 c2 : M state Z) : calm c1 -> calm c2 -> calm (and_then c1 c2).
Proof using. intros. unfold and_then. calm. Qed.

Lemma calm_highest (c : M state Z) : calm c -> calm (highest c).
Proof using. intros. unfold highest. calm. Qed.

Lemma calm_assert (b : bool) : calm (assert_ b : M state unit).
Proof using. destruct b; [apply calm_ret|apply calm_panic]. Qed.

Ltac calm_menu := repeat first [apply calm_and_then | apply calm_highest | apply calm_getopt | apply calm_assert | progress calm].

Lemma calm_string_print ms : calm (W := W) (menu_string_print ms).
Proof using. unfold menu_string_print. calm. Qed.

Context {CB : Type}.
Implicit Types (m : menu CB).

Lemma calm_display_entries i cur (es : list (menu_entry CB)) : calm (W := W) (display_entries i cur es).
Proof using. revert i. induction es as [|e es IH]; intros i; cbn; [calm|]. apply calm_and_then; [apply calm_string_print|apply IH]. Qed.

Lemma calm_display m : calm (W := W) (menu_display m).
Proof using.
  unfold menu_display, menu_display_backgnd, menu_display_header, menu_display_body, menu_display_footer, display_bmp.
  pose proof calm_string_print. pose proof (calm_display_entries 0 (current_entry m) (menu_entries m)). calm_menu; auto.
Qed.

Lemma calm_show_busy : calm (W := W) show_busy.
Proof using. unfold show_busy. calm. Qed.

Lemma calm_release fuel : calm (W := W) (release_loop fuel).
Proof using. induction fuel as [|fuel IH]; cbn; calm. Qed.

Lemma calm_pressed fuel : calm (W := W) (get_pressed_keys fuel).
Proof using. pose proof (calm_release fuel). unfold get_pressed_keys. calm. Qed.

Lemma calm_idle fuel : calm (W := W) (idle_loop fuel).
Proof using. induction fuel as [|fuel IH]; cbn; calm. Qed.

Lemma calm_lock : calm (W := W) menu_lock.
Proof using. unfold menu_lock. calm_menu. Qed.
Lemma calm_unlock : calm (W := W) menu_unlock.
Proof using. unfold menu_unlock. calm_menu. Qed.
Lemma calm_trylock : calm (W := W) menu_trylock.
Proof using. unfold menu_trylock. calm_menu. Qed.
Lemma calm_fastboot_turn m : calm (W := W) (fastboot_turn m).
Proof using. unfold fastboot_turn, is_fastboot_running. calm. Qed.
Lemma calm_timed_out m t : calm (W := W) (timed_out m t).
Proof using. unfold timed_out. calm. Qed.
Lemma calm_print ms : calm (W := W) (menu_print ms).
Proof using. pose proof (calm_string_print ms). unfold menu_print. calm_menu. Qed.

(** ** The keys that lead to a choice *)

Lemma calm_then {A B} (c : M state A) (k : A -> M state B) Q s : calm c ->
  (forall a e1 s1, quiet_events e1 -> entries s1 = entries s -> spec (k a) (fun b e2 s2 => Q b (e1 ++ e2) s2) s1) -> spec (bind c k) Q s.
Proof using. intros Hc Hk. apply spec_bind. eapply spec_mono; [apply Hc|]. cbn. intros a e1 s1 [? ?]. by apply Hk. Qed.

Lemma calm_last {A} (c : M state A) (Q : A -> list call_event -> state -> Prop) s : calm c ->
  (forall a evs s', quiet_events evs -> entries s' = entries s -> Q a evs s') -> spec c Q s.
Proof using. intros Hc HQ. eapply spec_mono; [apply Hc|]. cbn. intros a evs s' [? ?]. by apply HQ. Qed.

Definition usable m : Prop := menu_type m <> FASTBOOT_MENU /\ 0 <= current_entry m < num_menu_entries m /\ num_menu_entries m <= 256.

(** [r] is what a menu returns after the events [evs]: no lock word is written,
    and on success the last key is the first [KEY_ENTER] and the entry the one
    that the keys before lead to. *)
Record walked m (r : Z * menu CB) (evs : list call_event) : Prop := {
  wa_odm : odm_writes evs = [];
  wa_menu : exists ks, snd r = set_entry (foldl (move (num_menu_entries m)) (current_entry m) ks) m /\
    (fst r = TEGRABL_NO_ERROR -> presses evs = ks ++ [KEY_ENTER] /\ KEY_ENTER ∉ ks);
}.

Lemma set_entry_same m : set_entry (current_entry m) m = m.
Proof using. by destruct m. Qed.

Lemma walked_error m err evs : quiet_events evs -> err <> TEGRABL_NO_ERROR -> walked m (err, m) evs.
Proof using. intros [H _] He. split; [done|]. exists []. cbn. by rewrite set_entry_same. Qed.

Lemma walked_quiet m r e1 e2 : quiet_events e1 -> walked m r e2 -> walked m r (e1 ++ e2).
Proof using.
  intros [O1 P1] [O2 (ks & Em & Hk)]. unfold odm_writes, presses in *. split; [by unfold odm_writes; rewrite omap_app, O1, O2|].
  exists ks. split; [done|]. unfold presses. by rewrite omap_app, P1.
Qed.

Lemma walked_key m k r e1 e2 : odm_writes e1 = [] -> presses e1 = [k] -> k <> KEY_ENTER ->
  walked (set_entry (move (num_menu_entries m) (current_entry m) k) m) r e2 -> walked m r (e1 ++ e2).
Proof using.
  unfold odm_writes, presses. intros O1 P1 Hk [O2 (ks & Em & Hks)]. unfold odm_writes, presses in *.
  split; [by unfold odm_writes; rewrite omap_app, O1, O2|]. exists (k :: ks). split; [exact Em|].
  intros H0. destruct (Hks H0) as [P2 Hn]. unfold presses. rewrite omap_app, P1, P2. split; [done|]. by apply not_elem_of_cons.
Qed.

(** A key that is not [KEY_ENTER] moves the selection; [KEY_ENTER] ends the menu. *)
Lemma handle_key_spec m k s : usable m -> spec (menu_handle_key_press m k) (fun r evs s' =>
  odm_writes evs = [] /\ presses evs = [k] /\ entries s' = entries s /\
  snd (fst r) = set_entry (move (num_menu_entries m) (current_entry m) k) m /\ snd r = bool_decide (k = KEY_ENTER)) s.
Proof using.
  intros (_ & Hr & Hn). unfold menu_handle_key_press. apply spec_bind, spec_do. intros [] w.
  assert (Hdisp : forall m' s1, spec (let* err := menu_display m' in ret (err, m', false)) (fun r e2 s' =>
    quiet_events e2 /\ entries s' = entries s1 /\ snd (fst r) = m' /\ snd r = false) s1).
  { intros m' s1. apply calm_then; [apply calm_display|]. intros err e1 s2 Q1 E1. apply spec_ret. by rewrite app_nil_r. }
  destruct k; try (apply spec_ret; cbn; by rewrite set_entry_same).
  - rewrite move_up by lia. eapply spec_mono; [apply Hdisp|]. cbn. intros [[err m'] b] e2 s' ([O2 P2] & E2 & -> & ->).
    unfold odm_writes, presses in *. cbn. by rewrite O2, P2.
  - rewrite move_down by lia. destruct (Z.eqb_spec (num_menu_entries m) 0); [lia|]. cbn [negb assert_]. apply spec_bind, spec_ret.
    eapply spec_mono; [apply Hdisp|]. cbn. intros [[err m'] b] e2 s' ([O2 P2] & E2 & -> & ->). unfold odm_writes, presses in *. cbn. by rewrite O2, P2.
Qed.

Lemma usable_set m e : usable m -> 0 <= e < num_menu_entries m -> usable (set_entry e m).
Proof using. intros (? & ? & ?) ?. split; [done|]. unfold num_menu_entries in *. cbn. lia. Qed.

Lemma menu_loop_spec fuel m t s : usable m -> spec (menu_loop fuel m t) (fun r evs s' => walked m r evs /\ entries s' = entries s) s.
Proof using TL.
  revert m s. induction fuel as [|fuel IH]; intros m s U; [apply spec_panic|]. cbn [menu_loop].
  assert (Ht : fastboot_turn m = ret T_go) by (destruct U as [Hu _]; unfold fastboot_turn; by destruct (menu_type m)). rewrite Ht. apply spec_bind, spec_ret.
  apply calm_then; [apply calm_timed_out|]. intros [] e1 s1 Q1 E1.
  { apply spec_ret. split; [|done]. rewrite app_nil_r. apply walked_error; [by apply quiet_app|apply error_nonzero]. }
  apply calm_then; [apply calm_trylock|]. intros st e2 s2 Q2 E2. rewrite E1 in E2.
  destruct (st =? ERR_TIMED_OUT).
  { apply calm_then; [apply calm_show_busy|]. intros _ e3 s3 Q3 E3. eapply spec_mono; [by apply IH|]. cbn. intros r e4 s4 [H4 E4].
    split; [|congruence]. apply walked_quiet; [done|]. by repeat apply walked_quiet. }
  destruct (negb (st =? NO_ERROR)).
  { apply spec_ret. split; [|done]. rewrite app_nil_r. apply walked_error; [by repeat apply quiet_app|apply error_nonzero]. }
  apply calm_then; [apply calm_pressed|]. intros [err k] e3 s3 Q3 E3. rewrite E2 in E3.
  destruct (Z.eqb_spec err TEGRABL_NO_ERROR) as [->|He]; cbn [negb].
  2: { apply spec_ret. split; [|done]. rewrite app_nil_r. apply walked_error; [by repeat apply quiet_app|done]. }
  destruct (decide (k = KEY_IGNORE)) as [->|Hk].
  { apply calm_then; [apply calm_unlock|]. intros _ e4 s4 Q4 E4. eapply spec_mono; [by apply IH|]. cbn. intros r e5 s5 [H5 E5].
    split; [|congruence]. by repeat apply walked_quiet. }
  apply spec_bind. eapply spec_mono; [by apply handle_key_spec|]. cbn. intros [[err m'] nx] e4 s4 (O4 & P4 & E4 & Em & En). cbn in Em, En. subst m' nx.
  rewrite E3 in E4. destruct (Z.eqb_spec err TEGRABL_NO_ERROR) as [->|He]; cbn [negb].
  2: { apply spec_ret. split; [|done]. rewrite app_nil_r. do 3 (apply walked_quiet; [done|]). split; [done|].
       exists [k]. done. }
  apply calm_then; [apply calm_unlock|]. intros _ e5 s5 Q5 E5. rewrite E4 in E5. destruct (decide (k = KEY_ENTER)) as [->|Hne].
  { rewrite bool_decide_eq_true_2 by done. apply spec_ret. split; [|done]. rewrite app_nil_r. do 3 (apply walked_quiet; [done|]).
    destruct Q5 as [O5 P5]. unfold odm_writes, presses in *. split; [by unfold odm_writes; rewrite omap_app, O4, O5|].
    exists []. split; [done|]. unfold presses. rewrite omap_app, P4, P5. split; [done|]. apply not_elem_of_nil. }
  rewrite bool_decide_eq_false_2 by done. apply calm_then; [by apply calm_do|]. intros [] e6 s6 Q6 E6. rewrite E5 in E6.
  eapply spec_mono; [apply IH, usable_set; [done|by apply move_range, U]|]. cbn. intros r e7 s7 [H7 E7]. split; [|congruence].
  do 3 (apply walked_quiet; [done|]). apply (walked_key m k); [done..|]. by repeat apply walked_quiet.
Qed.

Lemma menu_draw_spec fuel m s : usable m -> spec (menu_draw fuel m) (fun r evs s' => walked m r evs /\ entries s' = entries s) s.
Proof using TL.
  intros U. unfold menu_draw. apply calm_then.
  { apply calm_and_then; [apply calm_display|]. apply calm_and_then; [by apply calm_do|apply calm_idle]. }
  intros err e1 s1 Q1 E1. destruct (Z.eqb_spec err TEGRABL_NO_ERROR) as [->|He]; cbn [negb].
  2: { apply spec_ret. split; [|done]. rewrite app_nil_r. by apply walked_error. }
  apply calm_then; [by apply calm_do|]. intros t e2 s2 Q2 E2. eapply spec_mono; [by apply menu_loop_spec|]. cbn. intros r e3 s3 [H3 E3].
  split; [|congruence]. by repeat apply walked_quiet.
Qed.
End trace.

(** ** The lock word *)

(** The partition behind [name] was erased, or does not exist. *)
Definition wiped {TE : TegrablError} (name : string) (evs : list call_event) : Prop :=
  exists part, Event (fastboot_get_partinfo name) (Some part) ∈ evs /\
    (Event (partition_erase part true) TEGRABL_NO_ERROR ∈ evs \/
     exists e, Event (partition_open_named part) e ∈ evs /\ e <> TEGRABL_NO_ERROR /\ TEGRABL_ERROR_REASON e = TEGRABL_ERR_NOT_FOUND).

Lemma wiped_mono {TE : TegrablError} name l l' : wiped name l -> l ⊆ l' -> wiped name l'.
Proof. intros (part & H1 & [H2|(e & H2 & H3)]) Hs; exists part; split; auto; right; eauto. Qed.

(** The new word. *)
Definition new_word (lock_bit : Z) (cmd : fastboot_lockcmd) (o : Z) : Z :=
  match cmd with
  | FASTBOOT_LOCK => Z.lor o (u32 (Z.shiftl 1 lock_bit))
  | FASTBOOT_UNLOCK => Z.land o (u32 (Z.lnot (Z.shiftl 1 lock_bit)))
  end.

(** What has happened in [a] when the lock word is written. *)
Record granted {TE : TegrablError} (cmd : fastboot_lockcmd) (entry o : Z) (a : list call_event) : Prop := {
  gr_other : Event odmdata_is_device_unlocked (match cmd with FASTBOOT_LOCK => true | FASTBOOT_UNLOCK => false end) ∈ a;
  gr_frp : cmd = FASTBOOT_UNLOCK -> Event (is_frp_enabled "fac_rst_protection") (TEGRABL_NO_ERROR, false) ∈ a;
  gr_keys : exists ks, presses a = ks ++ [KEY_ENTER] /\ (KEY_ENTER ∉ ks) /\ foldl (move 2) entry ks = 0;
  gr_word : Event odmdata_get o ∈ a;
  gr_userdata : wiped "userdata" a;
  gr_cache : wiped "cache" a;
}.

Section lock.
Context {W : Type} {WO : World W} {TE : TegrablError} {TL : TegrablErrorLaws} (lock_bit : Z).
Abbreviation state := (bl W).
Implicit Types (s : state).

Ltac quiet := repeat (apply quiet_app || done).

Lemma erase_partition_spec name s : spec (fastboot_erase_partition name true) (fun r evs s' =>
  quiet_events evs /\ entries s' = entries s /\ (r = TEGRABL_NO_ERROR -> wiped name evs)) s.
Proof using TL.
  unfold fastboot_erase_partition. apply spec_bind, spec_do. intros [part|] w.
  2: { apply spec_ret. split; [quiet|]. split; [done|]. by intros ?%error_nonzero. }
  apply spec_bind, spec_do. intros e1 w1. destruct (Z.eqb_spec e1 TEGRABL_NO_ERROR) as [->|He1]; cbn [negb].
  2: { apply spec_ret. split; [quiet|]. split; [done|]. intros Hr. exists part. split; [set_solver|]. right. exists e1.
       destruct (decide (TEGRABL_ERROR_REASON e1 = TEGRABL_ERR_NOT_FOUND)); [|done]. set_solver. }
  apply spec_bind, spec_do. intros [] w2. apply spec_bind, spec_do. intros e2 w3.
  destruct (Z.eqb_spec e2 TEGRABL_NO_ERROR) as [->|He2]; cbn [negb]; apply spec_bind, spec_do; intros [] w4; apply spec_ret;
    (split; [quiet|]); (split; [done|]); [|done].
  intros _. exists part. split; [set_solver|]. left. set_solver.
Qed.

Lemma erase_data_spec s : spec fastboot_erase_data (fun r evs s' =>
  quiet_events evs /\ entries s' = entries s /\ (r = TEGRABL_NO_ERROR -> wiped "userdata" evs /\ wiped "cache" evs)) s.
Proof using TL.
  unfold fastboot_erase_data, and_then. apply spec_bind. eapply spec_mono; [apply erase_partition_spec|]. cbn. intros r e1 s1 (Q1 & E1 & H1).
  destruct (Z.eqb_spec r TEGRABL_NO_ERROR) as [->|Hr]; cbn [negb].
  2: { apply spec_ret. rewrite app_nil_r. split_and!; try done; apply Q1. }
  eapply spec_mono; [apply erase_partition_spec|]. cbn. intros r e2 s2 (Q2 & E2 & H2). split; [by apply quiet_app|]. split; [congruence|].
  intros ->. split; [apply (wiped_mono _ e1); [by apply H1|set_solver]|apply (wiped_mono _ e2); [by apply H2|set_solver]].
Qed.

(** What [fastboot_lock_bootloader] and [fastboot_unlock_bootloader] do. *)
Definition changes (cmd : fastboot_lockcmd) (evs : list call_event) : Prop :=
  quiet_events evs \/
  exists o a c, evs = a ++ Event (odmdata_set (new_word lock_bit cmd o) true) tt :: c /\ quiet_events a /\ quiet_events c /\
    Event odmdata_get o ∈ a /\ wiped "userdata" a /\ wiped "cache" a.

Definition callback_of (cmd : fastboot_lockcmd) : confirm_callback :=
  match cmd with FASTBOOT_LOCK => confirm_menu_lock_bootloader | FASTBOOT_UNLOCK => confirm_menu_unlock_bootloader end.

Lemma run_callback_spec cmd s : spec (run_confirm lock_bit (callback_of cmd)) (fun _ evs s' => changes cmd evs) s.
Proof using TL.
  assert (Hc : forall t1 t2, spec (let* o := do_ odmdata_get in and_then fastboot_erase_data
    (do_ (fastboot_ack "INFO" t1) ;;; do_ (odmdata_set (new_word lock_bit cmd o) true) ;;; do_ (fastboot_ack "INFO" t2) ;;; ret TEGRABL_NO_ERROR))
    (fun _ evs s' => changes cmd evs) s); [|destruct cmd; apply Hc].
  intros t1 t2. apply spec_bind, spec_do. intros o w. unfold and_then. apply spec_bind. eapply spec_mono; [apply erase_data_spec|].
  cbn. intros r e1 s1 (Q1 & _ & H1). destruct (Z.eqb_spec r TEGRABL_NO_ERROR) as [->|Hr]; cbn [negb].
  2: { apply spec_ret. left. rewrite app_nil_r. by apply (quiet_app [_]). }
  destruct (H1 eq_refl) as [Hu Hk]. do 3 (apply spec_bind, spec_do; intros [] ?). apply spec_ret. right.
  exists o, (Event odmdata_get o :: e1 ++ [Event (fastboot_ack "INFO" t1) tt]), [Event (fastboot_ack "INFO" t2) tt].
  split; [by cbn; rewrite <- app_assoc|]. split; [by apply (quiet_app [_]), quiet_app|]. split; [done|]. split; [by left|].
  split; [apply (wiped_mono _ e1); [done|set_solver]|apply (wiped_mono _ e1); [done|set_solver]].
Qed.

Definition name_of (cmd : fastboot_lockcmd) : menu_name := match cmd with FASTBOOT_LOCK => Confirm_lock_menu | FASTBOOT_UNLOCK => Confirm_unlock_menu end.

Lemma choose_spec cmd s : spec (choose_confirm_menu cmd) (fun r evs s' => quiet_events evs /\ entries s' = entries s /\
  match r with
  | inl _ => True
  | inr n => n = name_of cmd /\ Event odmdata_is_device_unlocked (match cmd with FASTBOOT_LOCK => true | FASTBOOT_UNLOCK => false end) ∈ evs /\
      (cmd = FASTBOOT_UNLOCK -> Event (is_frp_enabled "fac_rst_protection") (TEGRABL_NO_ERROR, false) ∈ evs)
  end) s.
Proof using TL.
  unfold choose_confirm_menu. apply spec_bind, spec_do. intros u w. destruct cmd.
  - destruct u; [apply spec_ret; split_and!; [done..|set_solver|done]|]. apply spec_bind, spec_do. intros [] ?. by apply spec_ret.
  - destruct u; cbn [negb]; [apply spec_bind, spec_do; intros [] ?; by apply spec_ret|].
    apply spec_bind, spec_do. intros [e f] ?. destruct (Z.eqb_spec e TEGRABL_NO_ERROR) as [->|]; cbn [negb].
    2: { apply spec_bind, spec_do; intros [] ?. by apply spec_ret. }
    destruct f; [apply spec_bind, spec_do; intros [] ?; do 2 (apply spec_bind, spec_do; intros ? ?); by apply spec_ret|].
    apply spec_ret. split_and!; [done..|set_solver|set_solver].
Qed.

Lemma spec_getopt {A} (f : state -> option A) (Q : A -> list call_event -> state -> Prop) s : (forall a, f s = Some a -> Q a [] s) -> spec (getopt f) Q s.
Proof using. intros H a s' E. unfold getopt in E. destruct (f s) as [x|] eqn:Ef; [|done]. injection E as <- <-. exists []. rewrite app_nil_r. auto. Qed.

Definition entries_of (cmd : fastboot_lockcmd) : list (menu_entry confirm_callback) :=
  match cmd with FASTBOOT_LOCK => confirm_lock_menu_entries | FASTBOOT_UNLOCK => confirm_unlock_menu_entries end.

Lemma entry_callback cmd i e : entries_of cmd !! i = Some e -> on_select_callback e = match i with O => Some (callback_of cmd) | _ => None end.
Proof using. by destruct cmd, i as [|[|[]]]; cbn; intros [= <-]. Qed.

Lemma changes_quiet cmd e1 e2 : quiet_events e1 -> changes cmd e2 -> changes cmd (e1 ++ e2).
Proof using TL.
  intros Q1 [Q2|(o & a & c & -> & Qa & Qc & H1 & H2 & H3)]; [left; by apply quiet_app|right].
  exists o, (e1 ++ a), c. split; [by rewrite <- app_assoc|]. split; [by apply quiet_app|]. split; [done|]. split; [set_solver|].
  split; (eapply wiped_mono; [eassumption|set_solver]).
Qed.

Lemma on_select_spec cmd m s : menu_entries m = entries_of cmd -> 0 <= current_entry m ->
  spec (menu_handle_on_select (run_confirm lock_bit) m) (fun _ evs s' => changes cmd evs /\ (current_entry m <> 0 -> quiet_events evs)) s.
Proof using TL.
  intros Hm Hc. unfold menu_handle_on_select. apply spec_bind, spec_getopt. cbn. intros e Ee. rewrite Hm in Ee. apply entry_callback in Ee.
  apply calm_then; [apply calm_print|]. intros _ e1 s1 Q1 _. rewrite Ee. destruct (Z.to_nat (current_entry m)) as [|i] eqn:En.
  - unfold highest. apply spec_bind. eapply spec_mono; [apply run_callback_spec|]. cbn. intros r e2 s2 H2. apply spec_ret.
    rewrite app_nil_r. split; [by apply changes_quiet|lia].
  - apply spec_ret. rewrite app_nil_r. split; [by left|done].
Qed.

(** Everything from the menu on. *)
Definition confirmed (cmd : fastboot_lockcmd) (entry : Z) (evs : list call_event) : Prop :=
  odm_writes evs = [] \/
  exists o a c, evs = a ++ Event (odmdata_set (new_word lock_bit cmd o) true) tt :: c /\ odm_writes a = [] /\ odm_writes c = [] /\
    Event odmdata_get o ∈ a /\ wiped "userdata" a /\ wiped "cache" a /\
    exists ks, presses a = ks ++ [KEY_ENTER] /\ (KEY_ENTER ∉ ks) /\ foldl (move 2) entry ks = 0.

Lemma confirmed_app cmd entry e1 ks e2 e3 : odm_writes e1 = [] -> presses e1 = ks ++ [KEY_ENTER] -> KEY_ENTER ∉ ks -> foldl (move 2) entry ks = 0 ->
  changes cmd e2 -> quiet_events e3 -> confirmed cmd entry (e1 ++ e2 ++ e3).
Proof using TL.
  unfold odm_writes, presses. intros O1 P1 Hn Hf [[O2 _]|(o & a & c & -> & [Oa Pa] & [Oc _] & H1 & H2 & H3)] [O3 _].
  { left. unfold odm_writes in *. by rewrite !omap_app, O1, O2, O3. }
  right. unfold odm_writes, presses in *. exists o, (e1 ++ a), (c ++ e3). split; [by rewrite <- !app_assoc|].
  rewrite !omap_app, O1, Oa, Oc, O3, P1, Pa, app_nil_r. split_and!; try done; [set_solver|eapply wiped_mono; [eassumption|set_solver]..|exists ks; by rewrite app_nil_r].
Qed.

Lemma menu_of_entry n s : current_entry (menu_of n s) = entries s n.
Proof using. destruct n; reflexivity. Qed.

(** [change_device_state] behind the choice of the menu. *)
Lemma ask_spec cmd fuel s : 0 <= entries s (name_of cmd) < 2 ->
  spec (modify (set_thread_state PAUSED) ;;; menu_unlock ;;; let* m := gets (menu_of (name_of cmd)) in
    let* (err, m) := menu_draw fuel m in
    modify (set_entry_of (name_of cmd) (current_entry m)) ;;; menu_lock ;;;
    if negb (err =? TEGRABL_NO_ERROR) then do_ (fastboot_fail (failure_text cmd true)) ;;; modify (set_thread_state RUNNING) ;;; ret err
    else
      let* m := gets (menu_of (name_of cmd)) in
      let* err := menu_handle_on_select (run_confirm lock_bit) m in
      when negb (err =? TEGRABL_NO_ERROR) do (do_ (fastboot_fail (failure_text cmd false)) ;;; ret tt) ;;;
      modify (set_thread_state RUNNING) ;;; ret err)
    (fun _ evs _ => confirmed cmd (entries s (name_of cmd)) evs) s.
Proof using TL.
  intros He. apply spec_bind, spec_modify; [done|]. apply calm_then; [apply calm_unlock|]. intros _ e1 s1 Q1 E1. cbn in E1.
  apply spec_bind, spec_gets.
  assert (N : num_menu_entries (menu_of (name_of cmd) s1) = 2) by (by destruct cmd).
  assert (C : current_entry (menu_of (name_of cmd) s1) = entries s (name_of cmd)) by (rewrite menu_of_entry; cbn; by rewrite E1).
  assert (U : usable (menu_of (name_of cmd) s1)) by (split; [by destruct cmd|rewrite N, C; lia]).
  apply spec_bind. eapply spec_mono; [by apply menu_draw_spec|]. cbn. intros [err m] e2 s2 [[O2 (ks & Em & Hks)] E2]. cbn in Em, Hks. rewrite N, C in Em.
  apply spec_bind, spec_modify; [done|]. apply calm_then; [apply calm_lock|]. intros _ e3 s3 Q3 E3.
  destruct (Z.eqb_spec err TEGRABL_NO_ERROR) as [->|Hne]; cbn [negb].
  2: { apply calm_last; [calm|]. intros _ e4 _ [O4 _] _. left. destruct Q1 as [O1 _], Q3 as [O3 _]. unfold odm_writes in *. cbn [app]. by rewrite !omap_app, O1, O2, O3, O4. }
  destruct (Hks eq_refl) as [P2 Hn]. apply spec_bind, spec_gets. pose proof (moves_range 2 _ ks He) as Hr.
  assert (C3 : current_entry (menu_of (name_of cmd) s3) = foldl (move 2) (entries s (name_of cmd)) ks)
    by (rewrite menu_of_entry, E3; cbn; rewrite decide_True by done; by rewrite Em).
  apply spec_bind. eapply spec_mono; [apply (on_select_spec cmd); [by destruct cmd|rewrite C3; lia]|]. cbn. rewrite C3. intros r e4 s4 [H4 H4'].
  apply calm_last; [calm|]. intros _ e5 _ Q5 _. cbn [app]. destruct Q1 as [O1 P1], Q3 as [O3 P3]. unfold odm_writes, presses in *.
  destruct (Z.eq_dec (foldl (move 2) (entries s (name_of cmd)) ks) 0) as [H0|H0].
  - replace (e1 ++ e2 ++ e3 ++ e4 ++ e5) with ((e1 ++ e2 ++ e3) ++ e4 ++ e5) by (by rewrite <- !app_assoc).
    apply (confirmed_app cmd _ _ ks); try done; unfold odm_writes, presses; rewrite !omap_app; [by rewrite O1, O2, O3|].
    by rewrite P1, P2, P3, app_nil_r.
  - left. destruct (H4' H0) as [O4 _], Q5 as [O5 _]. unfold odm_writes in *. by rewrite !omap_app, O1, O2, O3, O4, O5.
Qed.
End lock.


(** ** Menus on a keyboard that delivers given polls *)

Definition is_poll {A} (c : call A) : bool := match c with keyboard_get_key_data => true | _ => false end.

(** [upcoming w]: what the next polls of the keyboard see.  Display and keyboard
    work, and no other thread holds the mutex of the menus. *)
Class Scripted {W : Type} {WO : World W} (upcoming : W -> list (key_code * key_event)) : Prop := {
  sc_poll : forall w k e l, upcoming w = (k, e) :: l -> exists w', answer keyboard_get_key_data w = ((TEGRABL_NO_ERROR, k, e), w') /\ upcoming w' = l;
  sc_other : forall A (c : call A) w, is_poll c = false -> upcoming (snd (answer c w)) = upcoming w;
  sc_clear : forall w, fst (answer display_clear w) = TEGRABL_NO_ERROR;
  sc_image : forall w img, fst (answer (display_show_image img) w) = TEGRABL_NO_ERROR;
  sc_cursor : forall w c, fst (answer (display_text_set_cursor c) w) = TEGRABL_NO_ERROR;
  sc_printf : forall w c t, fst (answer (display_printf c t) w) = TEGRABL_NO_ERROR;
  sc_keyboard : forall w, fst (answer keyboard_init w) = TEGRABL_NO_ERROR;
  sc_mutex : forall w, fst (answer mutex_try w) = NO_ERROR;
}.

(** A poll that neither ends a menu nor starts a press of the single button. *)
Definition plain_poll (p : key_code * key_event) : Prop := p <> (KEY_ENTER, KEY_PRESS_FLAG) /\ p <> (KEY_HOLD, KEY_PRESS_FLAG).

(** The keys that are pressed. *)
Definition pressed (p : key_code * key_event) : option key_code :=
  match p with (KEY_IGNORE, _) => None | (k, KEY_PRESS_FLAG) => Some k | _ => None end.

Section script.
Context {W : Type} {WO : World W} {TE : TegrablError} (upcoming : W -> list (key_code * key_event)) {SC : Scripted upcoming} {CB : Type}.
Abbreviation state := (bl W).
Implicit Types (s : state) (m : menu CB).

(** [c] returns [a] and uses no poll. *)
Definition steady {A} (c : M state A) (a : A) : Prop := forall s, exists s', c s = Some (a, s') /\
  upcoming (world s') = upcoming (world s) /\ menu_held s' = menu_held s.

Lemma steady_ret {A} (a : A) : steady (ret a) a.
Proof using. intros s. by exists s. Qed.

Lemma steady_bind {A B} (c : M state A) (k : A -> M state B) a b : steady c a -> steady (k a) b -> steady (bind c k) b.
Proof using.
  intros Hc Hk s. destruct (Hc s) as (s1 & E1 & U1 & H1). destruct (Hk s1) as (s2 & E2 & U2 & H2). exists s2. run E1. split; [done|]. by rewrite U2, H2.
Qed.

Lemma steady_do {A} (c : call A) a : is_poll c = false -> (forall w, fst (answer c w) = a) -> steady (do_ c) a.
Proof using SC.
  intros Hp Ha s. unfold do_. specialize (Ha (world s)). pose proof (sc_other A c (world s) Hp) as Hu. destruct (answer c (world s)) as [a' w].
  cbn in Ha, Hu. subst a'. eexists. split; [reflexivity|]. done.
Qed.

(** A call whose answer the code does not look at. *)
Lemma do_any {A} (c : call A) s : is_poll c = false -> exists a s', do_ c s = Some (a, s') /\ upcoming (world s') = upcoming (world s) /\ menu_held s' = menu_held s.
Proof using SC.
  intros Hp. unfold do_. pose proof (sc_other A c (world s) Hp) as Hu. destruct (answer c (world s)) as [a w]. by eexists _, _.
Qed.

Lemma steady_unit (c : call unit) : is_poll c = false -> steady (do_ c) tt.
Proof using SC. intros Hp. apply steady_do; [done|]. intros w. by destruct (fst _). Qed.

Lemma steady_and_then (c1 c2 : M state Z) : steady c1 TEGRABL_NO_ERROR -> steady c2 TEGRABL_NO_ERROR -> steady (and_then c1 c2) TEGRABL_NO_ERROR.
Proof using. intros H1 H2. unfold and_then. eapply steady_bind; [exact H1|]. exact H2. Qed.

Lemma steady_highest (c : M state Z) : steady c TEGRABL_NO_ERROR -> steady (highest c) TEGRABL_NO_ERROR.
Proof using. intros H. unfold highest. eapply steady_bind; [exact H|]. apply steady_ret. Qed.

Lemma steady_print ms : steady (menu_string_print ms) TEGRABL_NO_ERROR.
Proof using SC. unfold menu_string_print. destruct (data ms); [apply steady_do; [done|intros; apply sc_printf]|apply steady_ret]. Qed.

Lemma steady_display m : steady (menu_display m) TEGRABL_NO_ERROR.
Proof using SC.
  assert (Hc : steady (do_ display_clear) TEGRABL_NO_ERROR) by (by apply steady_do; [|apply sc_clear]).
  unfold menu_display. repeat apply steady_and_then; [done|..].
  - unfold menu_display_backgnd. destruct (menu_backgnd m); [|apply steady_ret]. apply steady_and_then; apply steady_highest; [done|].
    apply steady_do; [done|]. intros w. apply sc_image.
  - unfold menu_display_header. destruct (menu_header m); [|apply steady_ret]. apply steady_and_then; [|apply steady_print].
    apply steady_highest, steady_do; [done|]. intros w. apply sc_cursor.
  - unfold menu_display_body. generalize 0 as i. induction (menu_entries m) as [|e es IH]; intros i; cbn; [apply steady_ret|].
    apply steady_and_then; [apply steady_print|apply IH].
  - unfold menu_display_footer. destruct (menu_footer m) as [[ms [x y]]|]; [|apply steady_ret]. intros s.
    destruct (do_any render_text_get_position s eq_refl) as ([px py] & s1 & E1 & U1 & H1). run E1.
    destruct (steady_bind (do_ (render_text_set_position x y))
      (fun _ => and_then (menu_string_print ms) (do_ (render_text_set_position px py) ;;; ret TEGRABL_NO_ERROR)) tt TEGRABL_NO_ERROR) with (s := s1)
      as (s2 & E2 & U2 & H2).
    + by apply steady_unit.
    + apply steady_and_then; [apply steady_print|]. eapply steady_bind; [by apply steady_unit|apply steady_ret].
    + exists s2. by rewrite U2, H2.
Qed.

Lemma poll_run k e l s : upcoming (world s) = (k, e) :: l -> exists s', do_ keyboard_get_key_data s = Some ((TEGRABL_NO_ERROR, k, e), s') /\
  upcoming (world s') = l /\ menu_held s' = menu_held s.
Proof using SC. intros H. destruct (sc_poll _ _ _ _ H) as (w & E & U). unfold do_. rewrite E. by eexists. Qed.

Lemma idle_run pre e rest fuel s : upcoming (world s) = pre ++ (KEY_IGNORE, e) :: rest -> Forall (fun p => p.1 <> KEY_IGNORE) pre ->
  (length pre < fuel)%nat -> exists s', idle_loop fuel s = Some (TEGRABL_NO_ERROR, s') /\ upcoming (world s') = rest /\ menu_held s' = menu_held s.
Proof using SC.
  revert s fuel. induction pre as [|[k e'] pre IH]; intros s [|fuel] Hu Hp Hf; cbn in Hf; try lia; cbn [idle_loop].
  - destruct (poll_run _ _ _ _ Hu) as (s1 & E1 & U1 & H1). run E1. cbn [negb Z.eqb TEGRABL_NO_ERROR].
    destruct (steady_unit (mdelay 100) eq_refl s1) as (s2 & E2 & U2 & H2). run E2. exists s2. split; [done|]. by rewrite U2, H2.
  - apply Forall_cons in Hp as [Hk Hp]. destruct (poll_run _ _ _ _ Hu) as (s1 & E1 & U1 & H1). run E1. cbn [negb Z.eqb TEGRABL_NO_ERROR].
    destruct (steady_unit (mdelay 100) eq_refl s1) as (s2 & E2 & U2 & H2). run E2. rewrite decide_False by done.
    destruct (IH s2 fuel) as (s3 & E3 & U3 & H3); [by rewrite U2, U1|done|lia|]. exists s3. by rewrite H3, H2, H1.
Qed.

Definition simple m : Prop := usable m /\ timeout m = 0.

(** A turn behind the point where the mutex is taken. *)
Definition key_turn (fuel : nat) m (t : Z) : M state (Z * menu CB) :=
  let* (err, k) := get_pressed_keys (S fuel) in
  if negb (err =? TEGRABL_NO_ERROR) then ret (err, m)
  else if decide (k = KEY_IGNORE) then menu_unlock ;;; menu_loop fuel m t
  else
    let* (err, m, menu_next) := menu_handle_key_press m k in
    if negb (err =? TEGRABL_NO_ERROR) then ret (err, m)
    else menu_unlock ;;; if (menu_next : bool) then ret (TEGRABL_NO_ERROR, m) else do_ (mdelay 200) ;;; menu_loop fuel m t.

Lemma turn_run fuel m t s : simple m -> menu_held s = false -> exists s',
  menu_loop (S fuel) m t s = key_turn fuel m t s' /\ upcoming (world s') = upcoming (world s) /\ menu_held s' = true.
Proof using SC.
  intros [[Hty _] Ht] Hh. cbn [menu_loop]. assert (Etn : fastboot_turn m = ret T_go) by (unfold fastboot_turn; by destruct (menu_type m)). rewrite Etn.
  rewrite (bind_some (ret T_go) _ s T_go s eq_refl). unfold timed_out. rewrite Ht. cbn [Z.eqb]. rewrite (bind_some (ret false) _ s false s eq_refl).
  unfold menu_trylock. assert (Em : exists s1, do_ mutex_try s = Some (NO_ERROR, s1) /\ upcoming (world s1) = upcoming (world s) /\ menu_held s1 = menu_held s)
    by (apply (steady_do mutex_try NO_ERROR); [done|apply sc_mutex]). destruct Em as (s1 & E1 & U1 & H1).
  exists (set_held true s1). split; [|done]. unfold bind at 1. unfold bind at 1. cbn [gets]. rewrite Hh. cbn [negb assert_].
  unfold bind at 1, ret at 1. unfold bind at 1. rewrite E1. reflexivity.
Qed.

Lemma menu_unlock_run s : menu_held s = true -> menu_unlock s = Some (tt, set_held false s).
Proof using. intros H. unfold menu_unlock, bind, gets, assert_. by rewrite H. Qed.

(** What a plain poll makes of the selection. *)
Definition after_poll m (p : key_code * key_event) : menu CB :=
  match pressed p with Some k => set_entry (move (num_menu_entries m) (current_entry m) k) m | None => m end.

Lemma simple_after m p : simple m -> simple (after_poll m p).
Proof using.
  intros [U Ht]. unfold after_poll. destruct (pressed p); [|done]. split; [|done]. apply usable_set; [done|]. by apply move_range, U.
Qed.

Lemma handle_key_run m k s : usable m -> k <> KEY_ENTER -> exists s',
  menu_handle_key_press m k s = Some ((TEGRABL_NO_ERROR, set_entry (move (num_menu_entries m) (current_entry m) k) m, false), s') /\
  upcoming (world s') = upcoming (world s) /\ menu_held s' = menu_held s.
Proof using SC.
  intros (_ & Hr & Hn) Hk. unfold menu_handle_key_press. destruct (steady_unit (pressed_message k) eq_refl s) as (s1 & E1 & U1 & H1). run E1.
  rewrite <- U1, <- H1. destruct k; try done; try (exists s1; cbn; by rewrite set_entry_same).
  - rewrite move_up by lia. destruct (steady_display (set_entry (move (num_menu_entries m) (current_entry m) KEY_UP) m) s1) as (s2 & E2 & U2 & H2).
    run E2. by exists s2.
  - rewrite move_down by lia. destruct (Z.eqb_spec (num_menu_entries m) 0); [lia|]. cbn [negb assert_]. rewrite (bind_some (ret tt) _ s1 tt s1 eq_refl).
    destruct (steady_display (set_entry (move (num_menu_entries m) (current_entry m) KEY_DOWN) m) s1) as (s2 & E2 & U2 & H2). run E2. by exists s2.
Qed.

(** The key that a plain poll, or the final [KEY_ENTER], gives. *)
Lemma pressed_run fuel k e l s : upcoming (world s) = (k, e) :: l -> (k, e) <> (KEY_HOLD, KEY_PRESS_FLAG) -> exists s',
  get_pressed_keys fuel s = Some ((TEGRABL_NO_ERROR, default KEY_IGNORE (pressed (k, e))), s') /\ upcoming (world s') = l /\ menu_held s' = menu_held s.
Proof using SC.
  intros Hu Hh. destruct (poll_run _ _ _ _ Hu) as (s1 & E1 & U1 & H1). unfold get_pressed_keys. run E1. cbn [negb Z.eqb TEGRABL_NO_ERROR].
  rewrite decide_False by (intros [-> ->]; done). exists s1. by destruct k, e.
Qed.

Lemma plain_turn fuel m t s p l : simple m -> menu_held s = false -> upcoming (world s) = p :: l -> plain_poll p -> exists s',
  menu_loop (S fuel) m t s = menu_loop fuel (after_poll m p) t s' /\ upcoming (world s') = l /\ menu_held s' = false.
Proof using SC.
  intros Hm Hh Hu [Hp1 Hp2]. destruct p as [k e]. destruct (turn_run fuel m t s Hm Hh) as (s1 & E1 & U1 & H1). rewrite E1. clear E1. rewrite Hu in U1.
  unfold key_turn. destruct (pressed_run (S fuel) k e l s1 U1 Hp2) as (s2 & E2 & U2 & H2). run E2. cbn [negb Z.eqb TEGRABL_NO_ERROR].
  rewrite H1 in H2. unfold after_poll. destruct (pressed (k, e)) as [k'|] eqn:Ep; cbn [default].
  2: { rewrite decide_True by done. rewrite (bind_some _ _ _ _ _ (menu_unlock_run s2 H2)). by exists (set_held false s2). }
  assert (Hk' : k' <> KEY_IGNORE /\ k' <> KEY_ENTER) by (destruct k, e; simplify_eq/=; done).
  rewrite decide_False by apply Hk'. destruct (handle_key_run m k' s2 (proj1 Hm) (proj2 Hk')) as (s3 & E3 & U3 & H3). run E3.
  cbn [negb Z.eqb TEGRABL_NO_ERROR]. rewrite H2 in H3. rewrite (bind_some _ _ _ _ _ (menu_unlock_run s3 H3)).
  destruct (steady_unit (mdelay 200) eq_refl (set_held false s3)) as (s4 & E4 & U4 & H4). run E4. exists s4. split; [done|]. rewrite U4, H4. cbn. by rewrite U3.
Qed.

(** All plain polls, one by one. *)
Lemma plain_turns mid fuel m t s rest : simple m -> menu_held s = false -> upcoming (world s) = mid ++ rest -> Forall plain_poll mid -> exists s',
  menu_loop (length mid + fuel) m t s = menu_loop fuel (foldl after_poll m mid) t s' /\ upcoming (world s') = rest /\ menu_held s' = false /\
  simple (foldl after_poll m mid).
Proof using SC.
  revert m s. induction mid as [|p mid IH]; intros m s Hm Hh Hu Hp; [by exists s|]. apply Forall_cons in Hp as [Hp Hps]. cbn [length Nat.add].
  destruct (plain_turn (length mid + fuel) m t s p _ Hm Hh Hu Hp) as (s1 & E1 & U1 & H1). rewrite E1.
  apply IH; [by apply simple_after|done..].
Qed.

(** The selection after some polls is that of the keys pressed. *)
Lemma after_polls m mid : foldl after_poll m mid = set_entry (foldl (move (num_menu_entries m)) (current_entry m) (omap pressed mid)) m.
Proof using.
  revert m. induction mid as [|p mid IH]; intros m; cbn; [by rewrite set_entry_same|]. rewrite IH. unfold after_poll.
  destruct (pressed p); [|done]. by destruct m.
Qed.

Lemma menu_start fuel m s pre e rest : upcoming (world s) = pre ++ (KEY_IGNORE, e) :: rest -> Forall (fun p => p.1 <> KEY_IGNORE) pre ->
  (length pre < fuel)%nat -> exists t s', menu_draw fuel m s = menu_loop fuel m t s' /\ upcoming (world s') = rest /\ menu_held s' = menu_held s.
Proof using SC.
  intros Hu Hp Hf. unfold menu_draw, and_then. destruct (steady_display m s) as (s1 & E1 & U1 & H1).
  assert (Ek : exists s2, do_ keyboard_init s1 = Some (TEGRABL_NO_ERROR, s2) /\ upcoming (world s2) = upcoming (world s1) /\ menu_held s2 = menu_held s1)
    by (apply (steady_do keyboard_init TEGRABL_NO_ERROR); [done|apply sc_keyboard]). destruct Ek as (s2 & E2 & U2 & H2).
  rewrite <- U1, <- U2 in Hu. destruct (idle_run pre e rest fuel s2 Hu Hp Hf) as (s3 & E3 & U3 & H3).
  destruct (do_any get_timestamp_ms s3 eq_refl) as (t & s4 & E4 & U4 & H4). exists t, s4.
  split; [|by rewrite U4, H4, H3, H2, H1]. unfold bind at 1. unfold bind at 1. rewrite E1. cbn [negb Z.eqb TEGRABL_NO_ERROR].
  unfold bind at 1. rewrite E2. cbn [negb Z.eqb TEGRABL_NO_ERROR]. rewrite E3. cbn [negb Z.eqb TEGRABL_NO_ERROR]. by run E4.
Qed.
End script.

(** C24: A menu returns with the entry the user chose.  On a keyboard whose keys
    are released at first and [KEY_ENTER] pressed in the end, with any presses of
    other keys in between, [menu_draw] returns without an error, on the entry that
    up and down, modulo the number of entries, lead to, with the mutex of the menus
    released; it takes no more turns than there are polls. *)
Theorem menu_draw_selects {W} {WO : World W} {TE : TegrablError} upcoming {SC : Scripted upcoming} {CB} (m : menu CB) s fuel pre e mid rest :
  simple m -> menu_held s = false ->
  upcoming (world s) = pre ++ (KEY_IGNORE, e) :: mid ++ (KEY_ENTER, KEY_PRESS_FLAG) :: rest ->
  Forall (fun p => p.1 <> KEY_IGNORE) pre -> Forall plain_poll mid -> (length pre + length mid < fuel)%nat ->
  exists s', menu_draw fuel m s =
      Some ((TEGRABL_NO_ERROR, set_entry (foldl (move (num_menu_entries m)) (current_entry m) (omap pressed mid)) m), s') /\
    menu_held s' = false /\ upcoming (world s') = rest.
Proof.
  intros Hm Hh Hu Hpre Hmid Hf. destruct (menu_start upcoming fuel m s pre e _ Hu Hpre) as (t & s1 & E1 & U1 & H1); [lia|]. rewrite E1.
  rewrite Hh in H1. replace fuel with (length mid + S (fuel - S (length mid)))%nat by lia.
  destruct (plain_turns upcoming mid (S (fuel - S (length mid))) m t s1 _ Hm H1 U1 Hmid) as (s2 & E2 & U2 & H2 & Hm2). rewrite E2, <- after_polls.
  destruct (turn_run upcoming (fuel - S (length mid)) (foldl after_poll m mid) t s2 Hm2 H2) as (s3 & E3 & U3 & H3). rewrite E3, U2 in *.
  unfold key_turn. destruct (pressed_run upcoming (S (fuel - S (length mid))) _ _ _ s3 U3 ltac:(done)) as (s4 & E4 & U4 & H4). run E4.
  cbn [negb Z.eqb TEGRABL_NO_ERROR default pressed]. rewrite decide_False by done. unfold menu_handle_key_press. destruct (steady_unit upcoming (pressed_message KEY_ENTER) eq_refl s4) as (s5 & E5 & U5 & H5).
  rewrite (bind_some _ _ s4 (TEGRABL_NO_ERROR, foldl after_poll m mid, true) s5) by (by run E5). cbn [negb Z.eqb TEGRABL_NO_ERROR].
  rewrite (bind_some _ _ _ _ _ (menu_unlock_run s5 ltac:(congruence))). exists (set_held false s5). split; [done|]. split; [done|]. cbn. congruence.
Qed.

(** C40: If the keyboard fails while a menu is shown, the mutex of the menus is not
    released: [menu_draw] returns the error with the mutex held, and the
    [menu_lock] that follows it in [change_device_state] stops at the assertion
    against acquiring a mutex twice. *)
Theorem menu_draw_keyboard_error {W} {WO : World W} {TE : TegrablError} {TL : TegrablErrorLaws} upcoming {SC : Scripted upcoming} {CB} (m : menu CB) s fuel pre e mid :
  simple m -> menu_held s = false -> upcoming (world s) = pre ++ (KEY_IGNORE, e) :: mid ->
  (forall w, upcoming w = [] -> fst (fst (fst (answer keyboard_get_key_data w))) <> TEGRABL_NO_ERROR) ->
  Forall (fun p => p.1 <> KEY_IGNORE) pre -> Forall plain_poll mid -> (length pre + length mid < fuel)%nat ->
  exists err m' s', menu_draw fuel m s = Some ((err, m'), s') /\ err <> TEGRABL_NO_ERROR /\ menu_held s' = true /\ menu_lock s' = None.
Proof.
  intros Hm Hh Hu Hfail Hpre Hmid Hf. destruct (menu_start upcoming fuel m s pre e _ Hu Hpre) as (t & s1 & E1 & U1 & H1); [lia|]. rewrite E1.
  rewrite Hh in H1. replace fuel with (length mid + S (fuel - S (length mid)))%nat by lia. rewrite <- (app_nil_r mid) in U1.
  destruct (plain_turns upcoming mid (S (fuel - S (length mid))) m t s1 _ Hm H1 U1 Hmid) as (s2 & E2 & U2 & H2 & Hm2). rewrite E2.
  destruct (turn_run upcoming (fuel - S (length mid)) (foldl after_poll m mid) t s2 Hm2 H2) as (s3 & E3 & U3 & H3). rewrite E3. rewrite U2 in U3.
  specialize (Hfail _ U3). unfold key_turn, get_pressed_keys, do_, bind. destruct (answer keyboard_get_key_data (world s3)) as [[[err k] ev] w]. cbn in Hfail.
  apply Z.eqb_neq in Hfail as He. rewrite He. cbn [negb ret]. pose proof (module_nonzero err Hfail) as Hne. apply Z.eqb_neq in Hne as He'. rewrite He'. cbn.
  eexists _, _, _. split; [reflexivity|]. split; [done|]. cbn. split; [done|]. unfold menu_lock, bind, gets. cbn. by rewrite H3.
Qed.

(** ** A world to evaluate with *)

(** A locked device with working display and storage; its keyboard fails after
    the given polls. *)
Definition demo_answer A (c : call A) (w : list (key_code * key_event)) : A * list (key_code * key_event) :=
  match c in call A return A * list (key_code * key_event) with
  | keyboard_get_key_data => match w with (k, e) :: w' => ((0, k, e), w') | [] => ((1, KEY_IGNORE, KEY_OTHER_FLAG), []) end
  | render_text_get_position => ((0, 0), w)
  | other_threads => (None, w)
  | odmdata_is_device_unlocked => (false, w)
  | odmdata_get => (12, w)
  | is_frp_enabled _ => ((0, false), w)
  | fastboot_get_partinfo name => (Some name, w)
  | display_clear | display_show_image _ | display_text_set_cursor _ | display_printf _ _ | keyboard_init | get_timestamp_ms | mutex_try
  | partition_open_named _ | partition_erase _ _ => (0, w)
  | render_text_set_position _ _ | mdelay _ | thread_sleep _ | pressed_message _ | mutex_wait | odmdata_set _ _ | fastboot_ack _ _ | fastboot_fail _ => (tt, w)
  end.
Definition demo_world : World (list (key_code * key_event)) := {| answer := demo_answer |}.

Lemma demo_scripted : Scripted (WO := demo_world) (fun w => w).
Proof. split; try done; [intros w k e l ->; by exists l|]. intros A [] w; done. Qed.

Definition demo_bl (held : bool) (polls : list (key_code * key_event)) : bl (list (key_code * key_event)) :=
  {| world := polls; menu_held := held; s_is_menu_initialised := true; thread_state := RUNNING; entries := fun _ => 1; busy := 0; events := [] |}.

(** [KEY_ENTER] is still held down, then released; down; [KEY_ENTER]. *)
Definition demo_polls : list (key_code * key_event) :=
  [(KEY_ENTER, KEY_PRESS_FLAG); (KEY_IGNORE, KEY_OTHER_FLAG); (KEY_DOWN, KEY_PRESS_FLAG); (KEY_DOWN, KEY_RELEASE_FLAG); (KEY_ENTER, KEY_PRESS_FLAG)].


Lemma menu_draw_selects_witness : exists s', menu_draw (WO := demo_world) (TE := plain_errors) 6 (confirm_unlock_menu 1) (demo_bl false demo_polls) =
  Some ((0, confirm_unlock_menu 0), s') /\ menu_held s' = false.
Proof.
  destruct (menu_draw_selects (WO := demo_world) (TE := plain_errors) (fun w => w) (SC := demo_scripted) (confirm_unlock_menu 1) (demo_bl false demo_polls) 6
    [(KEY_ENTER, KEY_PRESS_FLAG)] KEY_OTHER_FLAG [(KEY_DOWN, KEY_PRESS_FLAG); (KEY_DOWN, KEY_RELEASE_FLAG)] []) as (s' & E & H & _);
    [by repeat split|done|done|by repeat constructor|by repeat constructor|cbn; lia|].
  exists s'. split; [exact E|exact H].
Defined.

Lemma menu_draw_keyboard_error_witness : exists err m' s', menu_draw (WO := demo_world) (TE := plain_errors) 6 (confirm_unlock_menu 1)
    (demo_bl false [(KEY_IGNORE, KEY_OTHER_FLAG); (KEY_UP, KEY_PRESS_FLAG)]) = Some ((err, m'), s') /\ menu_lock (WO := demo_world) s' = None.
Proof.
  destruct (menu_draw_keyboard_error (WO := demo_world) (TL := plain_errors_laws) (fun w => w) (SC := demo_scripted) (confirm_unlock_menu 1)
    (demo_bl false [(KEY_IGNORE, KEY_OTHER_FLAG); (KEY_UP, KEY_PRESS_FLAG)]) 6 [] KEY_OTHER_FLAG [(KEY_UP, KEY_PRESS_FLAG)]) as (err & m' & s' & E & _ & _ & H);
    [by repeat split|done|done|by intros w ->|by repeat constructor|by repeat constructor|cbn; lia|].
  exists err, m', s'. split; [exact E|exact H].
Defined.
